(* ===== verification/_CoqProject ===== *)
-Q . S2P
Prelude.v
Tx.v
Defaults.v
TaskGraph.v
TaskState.v
WorkState.v
Canonical.v
Text.v
HashChain.v
EventStore.v
PgEventStore.v
Inbox.v
Setup.v
SetupToken.v
Policy.v
Catalog.v
Authority.v
EventLog.v
Outbox.v
Bus.v
Brainstorm.v
BrainstormCommands.v
Criteria.v
TaskProjection.v
TaskCommands.v
TaskHistory.v
TaskTraces.v
Routing.v
Rerouting.v
Independence.v
VerificationRuns.v
Verification.v
Verifiers.v
Approvals.v
ApprovalHistory.v
Usage.v
Budget.v
ScheduleContract.v
RunStore.v
RunBudget.v
Execution.v
RunLifecycle.v
Cron.v
Planner.v
