(* ===== verification/Prelude.v ===== *)
(** Agent-Colab: a verification of the decision logic of its server.

    Agent-Colab runs teams of humans and Agents. Every change is a command: the command bus
    authorizes it, the handler appends one Event to a hash-chained, idempotent Event store,
    and read models are updated in the same transaction. Work reaches Agents through a durable
    inbox; Tasks, approvals, brainstorm sessions and scheduled Runs are state machines over
    their Events or rows. The files follow the packages under src/server/.

    How the parts are modelled. A Python exception with a stable code is [Err code] of [res]
    (here); a method that keeps what it did before raising is a [meth]. A service in the
    caller's transaction is a [tx] (Tx.v): an exception undoes it; [atx] also writes rows that
    survive, as the audit of a refusal does. Tables are finite maps where a key is looked up and
    lists of rows where order or duplicates matter; a record per table, a field per column, with
    the columns no code reads left out. Times are microseconds, or the text of the Event. What
    is not under src/server/ or is another component's side effect is a parameter: SHA-256, the
    clock (a function from the number of a reading to its time), fresh ids, the time-zone data,
    message providers, the hooks of documents and secret leases.

    Layers and files, with the sources they model:
    - Text and JSON: Text.v, Canonical.v (events/canonical.py: RFC 8785 bytes). Shown: canonical
      bytes identify a value up to the order of its keys.
    - Chains: HashChain.v (events/hashing.py, events/chain.py). Shown: the head hash pins a
      stream, an anchor pins the history before it, every altered Event is reported.
    - Event stores: EventStore.v (events/store.py), PgEventStore.v (events/postgres_store.py,
      two steps so that transactions interleave), EventLog.v (the interfaces [EventLogI] and
      [EventReadI] through which every service appends and reads; the in-memory store and a
      plain list implement them). Shown: all interleavings keep sequences, idempotency keys and
      chains; the PostgreSQL append refines the in-memory one.
    - Authority: Policy.v, Catalog.v, Authority.v, Bus.v (policy/, application/authz.py,
      application/bus.py). Shown: exactly when a request is allowed, which code refuses it, and
      that role versions are append-only and a revoked assignment stays revoked.
    - Tasks: TaskState.v (domain/task.py), TaskGraph.v (tasks/graph.py), Criteria.v
      (domain/criteria.py, application/criteria.py), TaskProjection.v (projections/tasks.py,
      projections/runner.py), TaskCommands.v (application/tasks.py, application/orchestration.py),
      TaskHistory.v (the invariant) and TaskTraces.v (histories of commands). Shown: the read
      model is what a rebuild gives, a verified Task has the Events of its verification, a retry
      is answered with the first result, sub-Tasks form a forest of depth at most 64, a join is
      recorded once, what a completion needs, and how an unreadable join policy stops sub-Tasks.
    - Work inbox: WorkState.v, Inbox.v (work/state.py, work/inbox.py, work/receipts.py,
      work/timeouts.py). Shown: every item is accounted for, a result is accepted once, the
      sweep enforces the timers and terminal items are frozen.
    - Agents: Routing.v, Rerouting.v (agents/routing.py, agents/rerouting.py). Shown: who is
      chosen and recorded, a re-routing is made of Task commands, a Task is given to another
      Agent once, and two ways in which it is lost.
    - Verification: Independence.v, VerificationRuns.v, Verification.v, Verifiers.v
      (verification/, application/verification.py). Shown: exactly when implementer and verifier
      are independent, also from the pinned snapshot; the runs, their verdicts and their chain
      stay consistent under all commands; what the completion gate lets through; a closed run
      is final; exactly who may verify; and how a move, a start or the sweep of late offers fails.
    - Approvals: Approvals.v, ApprovalHistory.v (approvals/, projections/approvals.py,
      application/approvals.py). Shown: a granted approval has its quorum of eligible approvers, a
      use is counted once and within its limit, the projection is its rebuild.
    - Brainstorms: Brainstorm.v, BrainstormCommands.v (brainstorm/, application/brainstorm.py).
      Shown: the counters of a session are those of its turns, turns follow the round robin, talk
      ends, limits survive a round trip, and two ways in which a session gets stuck.
    - Usage and budgets: Usage.v, Budget.v (usage/, agents/limits.py). Shown: rate limits hold in
      every window for the requests that commit (those that fail are not counted), a budget is
      never overcommitted, reservations close once.
    - Schedules: ScheduleContract.v, Cron.v, Planner.v (schedules/contract.py, cron.py,
      occurrence.py, planner.py, store.py), RunStore.v, RunBudget.v, Execution.v, RunLifecycle.v
      (schedules/run_access.py, runner.py, budget.py, execution.py). Shown: occurrences are
      exactly those of the expression, each window is planned exactly once, Runs follow their
      contract (but for a tick that executes a Run it has just asked to cancel) and do not
      overlap where forbidden, and two leaks of the budget of a Run.
    - Notifications: Outbox.v (notifications/outbox.py). Shown: attempts are bounded, the outbox
      comes to rest when the Event store takes its Events, and sends again when it refuses one.
    - Setup: Setup.v, SetupToken.v (setup/state.py, order.py, token.py, handles.py). Shown: setup
      never regresses, a token is valid once, failures are rate limited.

    Theorems whose comment starts with C<n> are the properties of the manifest; each one with
    hypotheses has a witness, a closed instance named after it. Counterexamples to what a
    comment or a document says are ordinary theorems, named in the findings of the manifest.

    Bounds and fuel. Integers of Python are Z; columns of bounded width only matter where a check
    of the code keeps them small. Recursion that follows the code's own bound uses that bound as
    fuel: 64 for the trigger of task_edges (a longer walk raises), 128 for the ancestor walk
    (enough, as the depth is at most 64), 500 for planned occurrences and for the Events of a
    replayed batch; [replay_loop] gets one unit per Event, which the proof shows to be enough,
    and the drain of the outbox is shown to stop after the attempts its rows have left.

    Not modelled, and why. HTTP routes, the web client, the sidecar and the repository tools
    translate between formats or are other programs. Chat providers, object storage, Vault and
    mail are third-party services. Hard delete, documents, artifacts, secrets and the channel
    router are long sequences of SQL statements or text assembly around the authorization, the
    Event and the chain that are modelled. Details of exceptions, logging, metrics and translated
    texts carry no decision. Advisory locks appear as the order in which transactions run. *)

From Stdlib Require Export ZArith Lia Ascii.
From stdpp Require Export base gmap strings list sorting.
Open Scope string_scope.
Open Scope list_scope.

(** A Python call that may raise an exception with a stable [code]
    ([TaskTransitionError], [WorkItemError], [SetupError], ...). The
    human-readable detail of the exception is not modelled. *)
Inductive res (A : Type) : Type :=
| Ok (a : A)
| Err (code : string).
Arguments Ok {A} _.
Arguments Err {A} _.

#[global] Instance res_ret : MRet res := fun _ a => Ok a.
#[global] Instance res_bind : MBind res := fun _ _ f m =>
  match m with Ok a => f a | Err e => Err e end.
#[global] Instance res_fmap : FMap res := fun _ _ f m =>
  match m with Ok a => Ok (f a) | Err e => Err e end.

#[global] Instance res_eq_dec `{EqDecision A} : EqDecision (res A).
Proof. solve_decision. Defined.

Definition is_ok {A} (r : res A) : bool :=
  match r with Ok _ => true | Err _ => false end.

Lemma res_bind_ok {A B} (f : A -> res B) (m : res A) b :
  m ≫= f = Ok b <-> exists a, m = Ok a /\ f a = Ok b.
Proof. destruct m; cbn; naive_solver. Qed.

(** [guard_err b code k]: raise [code] when [b] holds, otherwise continue. *)
Definition guard_err {A} (b : bool) (code : string) (k : res A) : res A :=
  if b then Err code else k.

Lemma guard_err_ok {A} b code (k : res A) a :
  guard_err b code k = Ok a <-> b = false /\ k = Ok a.
Proof. destruct b; cbn; naive_solver. Qed.

(** A method of a mutable object: the state after the call is kept also when
    the call raises, as Python keeps it. *)
Definition meth (S A : Type) : Type := S -> S * res A.

(** Python values read out of an untyped mapping. *)
Inductive pyscalar : Type :=
| PNone
| PBool (b : bool)
| PInt (z : Z)
| PStr (s : string)
| POther.

#[global] Instance pyscalar_eq_dec : EqDecision pyscalar.
Proof. solve_decision. Defined.

(** [isinstance(v, int)] with the integer it denotes ([bool] is an [int]). *)
Definition py_int (v : pyscalar) : option Z :=
  match v with
  | PInt z => Some z
  | PBool b => Some (if b then 1 else 0)%Z
  | _ => None
  end.

(** Truthiness of a [str | None]. *)
Definition truthy (s : option string) : bool :=
  match s with Some s => negb (String.eqb s "") | None => false end.

(** [a or b] on [str | None] values. *)
Definition py_or (a b : option string) : option string :=
  if truthy a then a else b.

(** [x in xs] *)
Definition mem {A} `{EqDecision A} (x : A) (xs : list A) : bool :=
  bool_decide (x ∈ xs).

Lemma mem_spec {A} `{EqDecision A} (x : A) xs : mem x xs = true <-> x ∈ xs.
Proof. apply bool_decide_eq_true. Qed.
Lemma mem_false {A} `{EqDecision A} (x : A) xs : mem x xs = false <-> x ∉ xs.
Proof. apply bool_decide_eq_false. Qed.

(** * Stable sorting by a boolean order, as [sorted(..., key=...)] *)
Section Sort.
Context {A : Type} (leb : A -> A -> bool).

Fixpoint sort_insert (x : A) (l : list A) : list A :=
  match l with
  | [] => [x]
  | y :: ys => if leb x y then x :: y :: ys else y :: sort_insert x ys
  end.

Definition py_sorted (l : list A) : list A := foldr sort_insert [] l.

Lemma sort_insert_perm x l : sort_insert x l ≡ₚ x :: l.
Proof.
  induction l as [|y ys IH]; cbn; [done|].
  destruct (leb x y); [done|]. rewrite IH. apply Permutation_swap.
Qed.

Lemma py_sorted_perm l : py_sorted l ≡ₚ l.
Proof. induction l; cbn; [done|]. by rewrite sort_insert_perm, IHl. Qed.

Lemma py_sorted_elem x l : x ∈ py_sorted l <-> x ∈ l.
Proof. by rewrite py_sorted_perm. Qed.

Context (leb_total : forall x y, leb x y = false -> leb y x = true).
Context (leb_trans : forall x y z, leb x y = true -> leb y z = true -> leb x z = true).


Lemma sort_insert_sorted x l :
  StronglySorted (fun x y => leb x y = true) l -> StronglySorted (fun x y => leb x y = true) (sort_insert x l).
Proof.
  induction 1 as [|y ys Hs IH Hy]; cbn; [by repeat constructor|].
  destruct (leb x y) eqn:E.
  - constructor; [by constructor|]. constructor; [done|].
    eapply Forall_impl; [exact Hy|]. intros z Hz. by eapply leb_trans.
  - constructor; [done|]. rewrite sort_insert_perm. by constructor; auto.
Qed.

Lemma py_sorted_sorted l : StronglySorted (fun x y => leb x y = true) (py_sorted l).
Proof. induction l; cbn; [constructor|]. by apply sort_insert_sorted. Qed.

Lemma sort_insert_head x l :
  Forall (fun y => leb x y = true) l -> sort_insert x l = x :: l.
Proof. destruct 1; cbn; [done|]. by rewrite H. Qed.

Lemma py_sorted_id l : StronglySorted (fun x y => leb x y = true) l -> py_sorted l = l.
Proof.
  induction 1 as [|y ys Hs IH Hy]; [done|].
  unfold py_sorted in *. cbn [foldr]. rewrite IH. by apply sort_insert_head.
Qed.
End Sort.

Lemma strongly_sorted_perm_eq {A} (R : relation A) (l1 l2 : list A) :
  (forall x y, x ∈ l1 -> y ∈ l1 -> R x y -> R y x -> x = y) ->
  StronglySorted R l1 -> StronglySorted R l2 -> l1 ≡ₚ l2 -> l1 = l2.
Proof.
  intros Hanti H1. revert l2 Hanti.
  induction H1 as [|x xs Hs IH Hx]; intros l2 Hanti H2 Hp.
  { by apply Permutation_nil_l in Hp. }
  destruct H2 as [|y ys Hs2 Hy]; [by apply Permutation_nil_r in Hp|].
  assert (x = y) as ->.
  { assert (y ∈ x :: xs) as Hyx by (rewrite Hp; left).
    assert (x ∈ y :: ys) as Hxy by (rewrite <- Hp; left).
    apply elem_of_cons in Hyx as [->|Hyx]; [done|].
    apply elem_of_cons in Hxy as [->|Hxy]; [done|].
    rewrite Forall_forall in Hx, Hy.
    apply Hanti; [left|by right|by apply Hx|by apply Hy]. }
  f_equal. apply IH; [|done|by apply Permutation_cons_inv in Hp].
  intros a b Ha Hb. apply Hanti; by right.
Qed.

(** * Reachability in a transition relation *)
Section Reach.
Context {S L : Type} (step : S -> L -> option S).

Fixpoint run_steps (s : S) (ls : list L) : option S :=
  match ls with
  | [] => Some s
  | l :: ls => s' ← step s l; run_steps s' ls
  end.

Lemma run_steps_app s ls1 ls2 :
  run_steps s (ls1 ++ ls2) = (s' ← run_steps s ls1; run_steps s' ls2).
Proof.
  revert s. induction ls1 as [|l ls1 IH]; intros s; cbn; [done|].
  destruct (step s l); cbn; [apply IH|done].
Qed.

Lemma run_steps_ind (P : S -> Prop) s ls s' :
  P s -> (forall s l s', P s -> step s l = Some s' -> P s') ->
  run_steps s ls = Some s' -> P s'.
Proof.
  intros Hs Hstep. revert s Hs. induction ls as [|l ls IH]; intros s Hs; cbn.
  { naive_solver. }
  destruct (step s l) eqn:E; cbn; [|done]. eauto.
Qed.
End Reach.

(** * ASCII strings *)
Definition ascii_code (c : ascii) : N := N_of_ascii c.

Definition is_digit (c : ascii) : bool :=
  (48 <=? ascii_code c)%N && (ascii_code c <=? 57)%N.

Definition is_alpha (c : ascii) : bool :=
  ((65 <=? ascii_code c)%N && (ascii_code c <=? 90)%N)
  || ((97 <=? ascii_code c)%N && (ascii_code c <=? 122)%N).

(** The ASCII characters for which [str.isspace] holds. *)
Definition is_space (c : ascii) : bool :=
  ((9 <=? ascii_code c)%N && (ascii_code c <=? 13)%N)
  || ((28 <=? ascii_code c)%N && (ascii_code c <=? 32)%N).

Fixpoint str_forallb (f : ascii -> bool) (s : string) : bool :=
  match s with
  | EmptyString => true
  | String c s => f c && str_forallb f s
  end.

Definition str_existsb (f : ascii -> bool) (s : string) : bool :=
  negb (str_forallb (fun c => negb (f c)) s).

Definition str_in (c : ascii) (s : string) : bool := str_existsb (Ascii.eqb c) s.

(** [s.partition(c)]: the head, whether the separator was found, the tail. *)
Fixpoint str_partition (c : ascii) (s : string) : string * bool * string :=
  match s with
  | EmptyString => (EmptyString, false, EmptyString)
  | String d s' =>
      if Ascii.eqb c d then (EmptyString, true, s')
      else let '(h, f, t) := str_partition c s' in (String d h, f, t)
  end.

(** [s.split(c)]: always at least one piece. *)
Fixpoint str_split (c : ascii) (s : string) : list string :=
  match s with
  | EmptyString => [EmptyString]
  | String d s' =>
      if Ascii.eqb c d then EmptyString :: str_split c s'
      else match str_split c s' with
           | [] => [String d EmptyString]
           | p :: ps => String d p :: ps
           end
  end.

(** [s.split()]: the maximal runs of non-space characters. *)
Fixpoint str_words (s : string) : list string :=
  match s with
  | EmptyString => []
  | String d s' =>
      if is_space d then str_words s'
      else match s' with
           | EmptyString => [String d EmptyString]
           | String e _ =>
               if is_space e then String d EmptyString :: str_words s'
               else match str_words s' with
                    | [] => [String d EmptyString]
                    | p :: ps => String d p :: ps
                    end
           end
  end.

Fixpoint str_lstrip (s : string) : string :=
  match s with
  | EmptyString => EmptyString
  | String c s' => if is_space c then str_lstrip s' else s
  end.

Fixpoint str_rstrip (s : string) : string :=
  match s with
  | EmptyString => EmptyString
  | String c s' =>
      match str_rstrip s' with
      | EmptyString => if is_space c then EmptyString else String c EmptyString
      | t => String c t
      end
  end.

(** [s.strip()] *)
Definition str_strip (s : string) : string := str_rstrip (str_lstrip s).

Definition starts_with (p s : string) : bool := String.prefix p s.

(** [needle in hay] *)
Definition contains (needle hay : string) : bool :=
  match String.index 0 needle hay with Some _ => true | None => false end.

(** [s.endswith(p)] *)
Fixpoint ends_with (p s : string) : bool :=
  String.eqb p s ||
  match s with EmptyString => false | String _ s' => ends_with p s' end.

(** [s[:-n]] for [n > 0]. *)
Definition drop_last (n : nat) (s : string) : string :=
  String.substring 0 (String.length s - n) s.

(** [int(s)] of a non-empty run of ASCII digits. *)
Fixpoint digits_value (acc : Z) (s : string) : Z :=
  match s with
  | EmptyString => acc
  | String c s' => digits_value (acc * 10 + (Z.of_N (ascii_code c) - 48)) s'
  end.

Fixpoint string_join (sep : string) (l : list string) : string :=
  match l with
  | [] => ""
  | [x] => x
  | x :: xs => x +:+ sep +:+ string_join sep xs
  end.

Lemma prefix_app p s : starts_with p (p +:+ s) = true.
Proof.
  unfold starts_with. induction p as [|c p IH]; [by destruct s|].
  change (String c p +:+ s) with (String c (p +:+ s)). cbn [String.prefix].
  destruct (ascii_dec c c); [apply IH|done].
Qed.

Lemma starts_with_spec p s :
  starts_with p s = true <-> exists t, s = p +:+ t.
Proof.
  split; [|intros [t ->]; apply prefix_app].
  unfold starts_with. revert s. induction p as [|c p IH]; intros s H.
  { by exists s. }
  destruct s as [|d s]; [by cbn in H|]. cbn in H.
  destruct (ascii_dec c d) as [->|]; [|by inversion H].
  apply IH in H as [t ->]. by exists t.
Qed.

(** ** The order of strings *)

Lemma ascii_compare_codes a b : Ascii.compare a b = N.compare (ascii_code a) (ascii_code b).
Proof. reflexivity. Qed.

Lemma string_leb_total s t : String.leb s t = false -> String.leb t s = true.
Proof. destruct (String.leb_total s t); congruence. Qed.

Lemma string_leb_trans s t u :
  String.leb s t = true -> String.leb t u = true -> String.leb s u = true.
Proof.
  unfold String.leb. revert t u. induction s as [|a s IH]; intros [|b t] [|c u]; cbn; try done.
  rewrite !ascii_compare_codes.
  destruct (N.compare_spec (ascii_code a) (ascii_code b)),
    (N.compare_spec (ascii_code b) (ascii_code c)),
    (N.compare_spec (ascii_code a) (ascii_code c)); try done; try lia. apply IH.
Qed.

(** Sorting by a string key. *)
Definition key_leb_of {A} (key : A -> string) (x y : A) : bool := String.leb (key x) (key y).

Lemma sorted_by_key_eq {A} (key : A -> string) (l l' : list A) :
  NoDup (key <$> l) -> l ≡ₚ l' -> py_sorted (key_leb_of key) l = py_sorted (key_leb_of key) l'.
Proof.
  intros Hnd Hp. apply (strongly_sorted_perm_eq (fun x y => key_leb_of key x y = true)).
  - intros x y Hx Hy Hxy Hyx. rewrite py_sorted_perm in Hx, Hy.
    pose proof (String.leb_antisym _ _ Hxy Hyx) as Hk.
    apply list_elem_of_lookup in Hx as [i Hi], Hy as [j Hj].
    assert (i = j) as ->; [|congruence].
    apply (NoDup_lookup (key <$> l) i j (key x)); [done|by rewrite list_lookup_fmap, Hi|].
    rewrite list_lookup_fmap, Hj. cbn. congruence.
  - apply py_sorted_sorted; intros *; [apply string_leb_total|apply string_leb_trans].
  - apply py_sorted_sorted; intros *; [apply string_leb_total|apply string_leb_trans].
  - by rewrite !py_sorted_perm.
Qed.

(** ** Loops that only raise *)

(** [for x in l: f(x)] where [f] may raise. *)
Fixpoint for_each {A} (f : A -> res unit) (l : list A) : res unit :=
  match l with
  | [] => Ok tt
  | x :: xs => f x ≫= fun _ => for_each f xs
  end.

Lemma for_each_ok {A} (f : A -> res unit) l :
  for_each f l = Ok tt <-> Forall (fun x => f x = Ok tt) l.
Proof.
  induction l as [|x l IH]; cbn; [by split; [constructor|]|].
  rewrite Forall_cons, <- IH. destruct (f x) as [[]|]; cbn; naive_solver.
Qed.

(** [d.get(k)] on the entries of a dict. *)
Definition dict_get {V} (k : string) (d : list (string * V)) : option V :=
  snd <$> find (fun e => String.eqb e.1 k) d.

Lemma dict_get_in {V} k (d : list (string * V)) v : dict_get k d = Some v -> (k, v) ∈ d.
Proof.
  unfold dict_get. destruct (find _ d) as [[k' v']|] eqn:E; cbn; [|done]. intros [= <-].
  apply find_some in E as [Hin Hk%String.eqb_eq]. cbn in Hk. subst. by apply list_elem_of_In.
Qed.

Lemma dict_get_none {V} k (d : list (string * V)) : dict_get k d = None <-> k ∉ d.*1.
Proof.
  unfold dict_get. destruct (find _ d) as [[k' v']|] eqn:E; cbn; split; try done.
  - apply find_some in E as [Hin Hk%String.eqb_eq]. cbn in Hk. subst k'.
    intros []. apply list_elem_of_fmap. exists (k, v'). split; [done|by apply list_elem_of_In].
  - intros _ ([k' v'] & -> & Hin)%list_elem_of_fmap.
    apply list_elem_of_In, (find_none _ _ E) in Hin. cbn in Hin. by rewrite String.eqb_refl in Hin.
Qed.

(** [d[k] = v] on the entries of a dict: a new key goes to the end. *)
Fixpoint dict_set {V} (k : string) (v : V) (d : list (string * V)) : list (string * V) :=
  match d with
  | [] => [(k, v)]
  | e :: d => if String.eqb k e.1 then (k, v) :: d else e :: dict_set k v d
  end.

Lemma dict_get_set {V} k k' (v : V) d :
  dict_get k (dict_set k' v d) = if String.eqb k k' then Some v else dict_get k d.
Proof.
  unfold dict_get. induction d as [|[q w] d IH]; cbn; [by rewrite (String.eqb_sym k' k); destruct (String.eqb k k')|].
  destruct (String.eqb_spec k' q) as [->|Hq]; cbn; [rewrite (String.eqb_sym q k); by destruct (String.eqb k q)|].
  destruct (String.eqb_spec q k) as [->|Hk]; [|done].
  destruct (String.eqb_spec k k') as [->|]; [by destruct Hq|done].
Qed.

(** * Automation *)
Create HintDb colab.
Create Rewrite HintDb colab.
#[export] Hint Resolve sort_insert_perm py_sorted_perm : colab.
#[export] Hint Rewrite @mem_spec @mem_false @guard_err_ok @res_bind_ok
  @bool_decide_eq_true @bool_decide_eq_false andb_true_iff orb_true_iff
  negb_true_iff andb_false_iff orb_false_iff negb_false_iff
  Z.eqb_eq Z.eqb_neq Z.leb_le Z.ltb_lt Z.leb_gt Z.ltb_ge String.eqb_eq : colab.

(** Split every [match]/[if] of a hypothesis or of the goal. *)
Ltac split_match :=
  repeat match goal with
  | |- context [match ?x with _ => _ end] => destruct x eqn:?; try done
  | H : context [match ?x with _ => _ end] |- _ => destruct x eqn:?; try done
  end.

(** Turn boolean facts into propositions and simplify. *)
Ltac bool_to_prop := autorewrite with colab in *; simplify_eq.

Ltac colab := cbn in *; split_match; bool_to_prop; eauto with colab lia.

Lemma find_head {A} (f : A -> bool) l : find f l = head (List.filter f l).
Proof. induction l as [|x l IH]; [done|]. cbn. by destruct (f x). Qed.
