(* ===== verification/Tx.v ===== *)
(** Transactions: the state-and-error monad [tx] of a service that runs inside the
    caller's transaction, and [atx], whose steps may also write rows that survive an
    exception. *)

From S2P Require Import Prelude.

(** ** Transactions *)

Definition tx (D A : Type) : Type := D -> res (A * D).

#[global] Instance tx_ret D : MRet (tx D) := fun A a db => Ok (a, db).
#[global] Instance tx_bind D : MBind (tx D) := fun A B f m db =>
  match m db with Ok (a, db') => f a db' | Err e => Err e end.

Definition raise {D A} (code : string) : tx D A := fun _ => Err code.
Definition lift {D A} (r : res A) : tx D A := fun db =>
  match r with Ok a => Ok (a, db) | Err e => Err e end.
Definition guard_tx {D} (b : bool) (code : string) : tx D unit := if b then raise code else mret tt.
Definition gets {D A} (f : D -> A) : tx D A := fun db => Ok (f db, db).
Definition modify {D} (f : D -> D) : tx D unit := fun db => Ok (tt, f db).

(** A transaction on one part of the state. *)
Definition zoom {D E A} (get : D -> E) (put : E -> D -> D) (m : tx E A) : tx D A := fun db =>
  match m (get db) with Ok (a, e) => Ok (a, put e db) | Err x => Err x end.

Section tx.
Context {D A B : Type}.

Lemma tx_bind_ok (m : tx D A) (f : A -> tx D B) db b db' :
  (m ≫= f) db = Ok (b, db') <-> exists a db1, m db = Ok (a, db1) /\ f a db1 = Ok (b, db').
Proof.
  unfold mbind, tx_bind. destruct (m db) as [[a db1]|e]; [|naive_solver].
  split; [by eauto|]. by intros (? & ? & [= <- <-] & H).
Qed.

Lemma tx_ret_ok (a b : A) (db db' : D) : (mret a : tx D A) db = Ok (b, db') <-> a = b /\ db = db'.
Proof. unfold mret, tx_ret. naive_solver. Qed.

Lemma guard_tx_ok b code (db : D) u db' : guard_tx b code db = Ok (u, db') <-> b = false /\ db = db'.
Proof. destruct b, u; cbn; unfold mret, tx_ret; naive_solver. Qed.

Lemma lift_ok (r : res A) (db : D) a db' : lift r db = Ok (a, db') <-> r = Ok a /\ db = db'.
Proof. unfold lift. destruct r; naive_solver. Qed.

Lemma gets_ok (f : D -> A) (db : D) a db' : gets f db = Ok (a, db') <-> f db = a /\ db = db'.
Proof. unfold gets. naive_solver. Qed.

Lemma modify_ok (f : D -> D) (db : D) u db' : modify f db = Ok (u, db') <-> f db = db'.
Proof. destruct u. unfold modify. naive_solver. Qed.

Lemma zoom_ok {E} (get : D -> E) (put : E -> D -> D) (m : tx E A) db a db' :
  zoom get put m db = Ok (a, db') <-> exists e, m (get db) = Ok (a, e) /\ db' = put e db.
Proof.
  unfold zoom. destruct (m (get db)) as [[x e]|]; [|naive_solver].
  split; [intros [= <- <-]; eauto|]. by intros (? & [= <- <-] & ->).
Qed.
End tx.

Create Rewrite HintDb tx.
#[export] Hint Rewrite @tx_bind_ok @tx_ret_ok @guard_tx_ok @lift_ok @gets_ok @modify_ok : tx.

(** Split a successful run of a transaction into its steps. *)
Ltac tx_step H :=
  autorewrite with tx in H;
  repeat match type of H with
    | exists _, _ => let x := fresh "x" in destruct H as [x H]; autorewrite with tx in H
    | _ /\ _ => let H' := fresh "Hs" in destruct H as [H' H]; autorewrite with tx in H', H
    end.

(** A transaction that also writes rows of type [L] in transactions of their own:
    they survive its exception. *)
Definition atx (L D A : Type) : Type := D -> list L -> list L * res (A * D).

#[global] Instance atx_ret L D : MRet (atx L D) := fun A a db log => (log, Ok (a, db)).
#[global] Instance atx_bind L D : MBind (atx L D) := fun A B f m db log =>
  match m db log with
  | (log', Ok (a, db')) => f a db' log'
  | (log', Err e) => (log', Err e)
  end.

Definition in_tx {L D A} (m : tx D A) : atx L D A := fun db log => (log, m db).
Definition writes {L D} (rows : list L) : atx L D unit := fun db log => (log ++ rows, Ok (tt, db)).

(** A step on one part of the state. *)
Definition azoom {L D E A} (get : D -> E) (put : E -> D -> D) (m : atx L E A) : atx L D A := fun db l =>
  match m (get db) l with
  | (l', Ok (a, e)) => (l', Ok (a, put e db))
  | (l', Err x) => (l', Err x)
  end.

(** The state after a call: an exception rolls it back. *)
Definition committed {L D A} (r : list L * res (A * D)) (db : D) : D :=
  match r.2 with Ok (_, db') => db' | Err _ => db end.

Section atx.
Context {L D A B : Type}.

Lemma atx_bind_ok (m : atx L D A) (f : A -> atx L D B) db log log' b db' :
  (m ≫= f) db log = (log', Ok (b, db')) <->
  exists a db1 log1, m db log = (log1, Ok (a, db1)) /\ f a db1 log1 = (log', Ok (b, db')).
Proof.
  unfold mbind, atx_bind. destruct (m db log) as [l1 [[a db1]|e]]; [|by split; [|intros (? & ? & ? & [=] & ?)]].
  split; [by eauto|]. by intros (? & ? & ? & [= <- <- <-] & H).
Qed.

Lemma in_tx_ok (m : tx D A) db log log' (a : A) db' :
  (in_tx m : atx L D A) db log = (log', Ok (a, db')) <-> log = log' /\ m db = Ok (a, db').
Proof. unfold in_tx. split; [by intros [= -> ->]|by intros [-> ->]]. Qed.

(** A step that returns, and one that raises. *)
Lemma atx_bind_step (m : atx L D A) (f : A -> atx L D B) db log a db1 log1 :
  m db log = (log1, Ok (a, db1)) -> (m ≫= f) db log = f a db1 log1.
Proof. intros H. unfold mbind, atx_bind. by rewrite H. Qed.

Lemma atx_bind_err (m : atx L D A) (f : A -> atx L D B) db log log1 e :
  m db log = (log1, Err e) -> (m ≫= f) db log = (log1, Err e).
Proof. intros H. unfold mbind, atx_bind. by rewrite H. Qed.
End atx.
