(* ===== verification/Defaults.v ===== *)
(** The deterministic defaults of [server/domain/defaults.py] that the modelled
    components read, and the time units of the development: an instant
    ([datetime], aware, UTC) is a number of microseconds since the epoch, a
    [timedelta] a number of microseconds. *)

From S2P Require Import Prelude.
Open Scope Z_scope.

Definition seconds (n : Z) : Z := n * 1000000.
Definition minutes (n : Z) : Z := seconds (60 * n).
Definition hours (n : Z) : Z := minutes (60 * n).

Definition SCHEDULE_RETRY_MAX_ATTEMPTS : Z := 3.
Definition SCHEDULE_RETRY_BACKOFF_S : list Z := [1; 5; 25].
Definition SCHEDULE_REPLACE_CANCEL_TIMEOUT_S : Z := 60.
Definition SCHEDULER_CLAIM_LEASE_S : Z := 60.
Definition SCHEDULE_START_DELAY_P95_S : Z := 60.
Definition SCHEDULE_MIN_INTERVAL_MINUTES_DEFAULT : Z := 5.
Definition SCHEDULE_MIN_INTERVAL_MINUTES_FLOOR : Z := 1.

Definition WORK_ITEM_ACK_TIMEOUT_S : Z := 60.
Definition WORK_ITEM_MAX_REDELIVERIES : Z := 3.
Definition TASK_ASSIGNMENT_ACCEPT_TIMEOUT_S : Z := 120.
Definition TASK_ASSIGNMENT_REROUTES : Z := 1.

Definition APPROVAL_EXPIRY_HOURS : Z := 24.

Definition BRAINSTORM_TURNS_PER_AGENT : Z := 5.
Definition BRAINSTORM_MAX_CONSECUTIVE : Z := 1.
Definition BRAINSTORM_TOTAL_TURNS : Z := 40.

Definition SETUP_TOKEN_TTL_MIN : Z := 30.
Definition SETUP_TOKEN_MAX_FAILURES : Z := 5.
Definition SETUP_TOKEN_FAILURE_WINDOW_MIN : Z := 15.
Definition SETUP_TOKEN_BLOCK_MIN : Z := 15.
Definition SETUP_RECONFIGURE_SESSION_MIN : Z := 30.
Definition SETUP_PRE_DB_HANDLE_TTL_MIN : Z := 15.
