(* ===== verification/TaskGraph.v ===== *)
(** The pure task-graph rules of [server/tasks/graph.py]: admission of a new
    child Task, the parent's join condition, and the ancestor walk of
    [GraphSnapshot]. *)

From S2P Require Import Prelude.
Open Scope Z_scope.

Definition DEFAULT_DELEGATION_DEPTH : Z := 4.
Definition DEFAULT_MAX_FAN_OUT : Z := 8.
Definition DEFAULT_CONCURRENT_SUBTASKS : Z := 8.
Definition JOIN_MODES : list string := ["ALL"; "ANY"; "QUORUM"].
Definition DONE_STATUSES : list string := ["VERIFIED"; "COMPLETED"].

Record GraphLimits := {
  delegation_depth : Z;
  max_fan_out : Z;
  concurrent_subtasks : Z
}.

(** [pick(key, default)]: an absent, non-integer or non-positive entry keeps
    the default. *)
Definition pick (limits : gmap string pyscalar) (key : string) (default : Z) : Z :=
  match limits !! key ≫= py_int with
  | Some value => if 0 <? value then value else default
  | None => default
  end.

Definition limits_from_policy (limits : gmap string pyscalar) : GraphLimits := {|
  delegation_depth := pick limits "delegation_depth" DEFAULT_DELEGATION_DEPTH;
  max_fan_out := pick limits "max_fan_out" DEFAULT_MAX_FAN_OUT;
  concurrent_subtasks := pick limits "concurrent_subtasks" DEFAULT_CONCURRENT_SUBTASKS
|}.

Record ParentView := {
  pv_task_id : string;
  pv_workspace_id : string;
  pv_depth : Z;
  pv_status : string
}.

Definition validate_new_child (parent : ParentView) (child_task_id : string)
    (actor_workspace_id : string) (ancestors : list string)
    (sibling_count active_sibling_count : Z) (limits : GraphLimits) : res unit :=
  guard_err (String.eqb child_task_id (pv_task_id parent) || mem child_task_id ancestors)
    "TASK_GRAPH_CYCLE" $
  guard_err (negb (String.eqb (pv_workspace_id parent) actor_workspace_id))
    "TASK_WORKSPACE_MISMATCH" $
  guard_err (mem (pv_status parent) ["COMPLETED"; "CANCELLED"])
    "TASK_TERMINAL" $
  guard_err (delegation_depth limits <? pv_depth parent + 1)
    "TASK_DEPTH_EXCEEDED" $
  guard_err (max_fan_out limits <? sibling_count + 1)
    "TASK_FANOUT_EXCEEDED" $
  guard_err (concurrent_subtasks limits <? active_sibling_count + 1)
    "TASK_CONCURRENCY_EXCEEDED" $
  Ok tt.

Record ChildView := {
  cv_task_id : string;
  cv_status : string;
  cv_verification_status : option string
}.

Definition cv_done (c : ChildView) : bool := mem (cv_status c) DONE_STATUSES.
Definition cv_cancelled (c : ChildView) : bool := String.eqb (cv_status c) "CANCELLED".

Record JoinResult := {
  jr_mode : string;
  jr_satisfied : bool;
  jr_satisfied_children : list string;
  jr_missing : list string;
  jr_quorum : option Z
}.

(** The join policy mapping: its ["mode"] and ["join"] entries as the strings
    [str(...).upper()] sees, the raw ["quorum"] entry and the ["required"] ids. *)
Record JoinPolicy := {
  jp_mode : option string;
  jp_join : option string;
  jp_quorum : pyscalar;
  jp_required : list string
}.

Definition empty_join_policy : JoinPolicy :=
  {| jp_mode := None; jp_join := None; jp_quorum := PNone; jp_required := [] |}.

Definition upper_ascii (c : ascii) : ascii :=
  let n := ascii_code c in
  if ((97 <=? n) && (n <=? 122))%N then ascii_of_N (n - 32) else c.

Fixpoint upper (s : string) : string :=
  match s with
  | EmptyString => EmptyString
  | String c s => String (upper_ascii c) (upper s)
  end.

Definition join_mode (policy : JoinPolicy) : res (string * option Z * list string) :=
  let mode := upper (default (default "ALL" (jp_join policy)) (jp_mode policy)) in
  if negb (mem mode JOIN_MODES) then Err "TASK_JOIN_POLICY_INVALID" else
  if String.eqb mode "QUORUM" then
    match py_int (jp_quorum policy) with
    | Some q =>
        if q <? 1 then Err "TASK_JOIN_POLICY_INVALID"
        else Ok (mode, Some q, jp_required policy)
    | None => Err "TASK_JOIN_POLICY_INVALID"
    end
  else Ok (mode, None, jp_required policy).

(** [tuple(dict.fromkeys(l))]: the first occurrence of every element. *)
Fixpoint dict_fromkeys (seen l : list string) : list string :=
  match l with
  | [] => []
  | x :: l => if mem x seen then dict_fromkeys seen l
              else x :: dict_fromkeys (x :: seen) l
  end.

(** [by_id[r]]: a later child with the same id overwrites an earlier one. *)
Definition by_id (children : list ChildView) (r : string) : option ChildView :=
  last (filter (fun c => cv_task_id c = r) children).

Definition ids (children : list ChildView) : list string := cv_task_id <$> children.

Definition evaluate_join (policy : JoinPolicy) (children : list ChildView)
    : res JoinResult :=
  '(mode, quorum, required) ← join_mode policy;
  let done := ids (filter (fun c => cv_done c = true) children) in
  let missing_required := filter (fun r => r ∉ done) required in
  match children with
  | [] => Ok {| jr_mode := mode; jr_satisfied := false; jr_satisfied_children := [];
                jr_missing := []; jr_quorum := None |}
  | _ =>
    if String.eqb mode "ALL" then
      let pending := ids (filter (fun c => cv_done c = false /\ cv_cancelled c = false)
                            children) in
      let missing0 := dict_fromkeys [] (pending ++ missing_required) in
      let missing := missing0 ++
        filter (fun r => cv_cancelled <$> by_id children r = Some true /\ r ∉ missing0)
          required in
      Ok {| jr_mode := mode;
            jr_satisfied := bool_decide (missing = []) && negb (bool_decide (done = []));
            jr_satisfied_children := done; jr_missing := missing; jr_quorum := None |}
    else if String.eqb mode "ANY" then
      Ok {| jr_mode := mode; jr_satisfied := negb (bool_decide (done = []));
            jr_satisfied_children := done;
            jr_missing := if bool_decide (done = [])
                          then dict_fromkeys [] (ids children) else [];
            jr_quorum := None |}
    else
      match quorum with
      | None => Err "AssertionError"
      | Some q =>
        let enough := q <=? Z.of_nat (length done) in
        Ok {| jr_mode := mode;
              jr_satisfied := enough && bool_decide (missing_required = []);
              jr_satisfied_children := done;
              jr_missing := if enough then missing_required
                            else ids (filter (fun c => cv_done c = false) children);
              jr_quorum := Some q |}
      end
  end.

(** [GraphSnapshot.ancestors]: the walk up the parent edges; it stops at a root
    or at the first ancestor seen twice. [fuel] bounds the [while] loop. *)
Fixpoint ancestors_loop (parent : gmap string string) (fuel : nat)
    (cur : option string) (out : list string) : option (list string) :=
  match cur with
  | None => Some out
  | Some c =>
      if mem c out then Some out else
      match fuel with
      | O => None
      | S fuel => ancestors_loop parent fuel (parent !! c) (out ++ [c])
      end
  end.

Definition ancestors (parent : gmap string string) (task_id : string)
    : option (list string) :=
  ancestors_loop parent (S (size parent)) (parent !! task_id) [].

(** * The ancestor walk *)
Section Ancestors.
Context (parent : gmap string string).

Definition edge (x y : string) : Prop := parent !! x = Some y.
Definition acyclic : Prop := forall x, ~ tc edge x x.

(** With [size parent] edges the loop needs at most [size parent + 1] rounds:
    every collected id but the last has an outgoing edge. *)
Lemma ancestors_loop_total fuel cur out :
  NoDup out -> Forall (fun x => is_Some (parent !! x)) out ->
  (size parent < fuel + length out)%nat ->
  is_Some (ancestors_loop parent fuel cur out).
Proof.
  revert cur out. induction fuel as [|fuel IH]; intros cur out Hnd Hdom Hlen.
  - exfalso. assert (length out <= size (dom parent))%nat as Hle;
      [|rewrite size_dom in Hle; lia].
    rewrite <- (size_list_to_set (C := gset string) out) by done.
    apply subseteq_size. intros x Hx%elem_of_list_to_set.
    rewrite Forall_forall in Hdom. by apply elem_of_dom, Hdom.
  - destruct cur as [c|]; cbn; [|by eexists].
    destruct (mem c out) eqn:E; [by eexists|]. apply mem_false in E.
    destruct (parent !! c) as [p|] eqn:Ep; [|destruct fuel; cbn; by eexists].
    apply IH.
    + apply NoDup_app; split_and!; [done| |apply NoDup_singleton].
      intros x Hx ->%list_elem_of_singleton. done.
    + apply Forall_app; split; [done|]. repeat constructor. by rewrite Ep.
    + rewrite length_app. cbn. lia.
Qed.

Lemma ancestors_total t : is_Some (ancestors parent t).
Proof. apply ancestors_loop_total; [constructor|constructor|cbn; lia]. Qed.

(** The collected ids are ancestors, the pending one too, and every ancestor
    is collected or still ahead of the pending one. *)
Record walk_inv (t : string) (cur : option string) (out : list string) : Prop := {
  walk_sound x : x ∈ out -> tc edge t x;
  walk_cur c : cur = Some c -> tc edge t c;
  walk_complete x : tc edge t x -> x ∈ out \/ exists c, cur = Some c /\ rtc edge c x;
  walk_closed x y : x ∈ out -> edge x y -> y ∈ out \/ cur = Some y
}.

Lemma walk_inv_step t c out :
  walk_inv t (Some c) out -> walk_inv t (parent !! c) (out ++ [c]).
Proof.
  intros [H1 H2 H3 H4]. split.
  - intros y [Hy| ->%list_elem_of_singleton]%elem_of_app; auto.
  - intros d Hd. eapply tc_r; [by apply H2|done].
  - intros y Hy. rewrite elem_of_app, list_elem_of_singleton.
    destruct (H3 y Hy) as [?|(d & [= <-] & Hd)]; [by auto|].
    inversion Hd as [|? e ? He Hr]; subst; [by auto|]. right. by exists e.
  - intros y z Hy Hz. rewrite elem_of_app, list_elem_of_singleton.
    apply elem_of_app in Hy as [Hy| ->%list_elem_of_singleton]; [|by right].
    destruct (H4 y z Hy Hz) as [?|[= ->]]; auto.
Qed.

Lemma walk_inv_stop t c out x :
  walk_inv t (Some c) out -> c ∈ out -> x ∈ out <-> tc edge t x.
Proof.
  intros [H1 H2 H3 H4] Hc. split; [apply H1|]. intros Hx.
  destruct (H3 x Hx) as [?|(d & [= <-] & Hd)]; [done|].
  clear H3 Hx H2. assert (forall y z, y ∈ out -> edge y z -> z ∈ out) as Hclosed.
  { intros y z Hy Hz. destruct (H4 y z Hy Hz) as [?|[= <-]]; done. }
  clear H4. induction Hd as [|u v w Huv Hvw IHv]; eauto.
Qed.

Lemma ancestors_loop_spec t fuel cur out r x :
  walk_inv t cur out -> ancestors_loop parent fuel cur out = Some r ->
  x ∈ r <-> tc edge t x.
Proof.
  revert cur out. induction fuel as [|fuel IH]; intros cur out Hinv Hr;
    destruct cur as [c|]; cbn in Hr; try destruct (mem c out) eqn:E;
    simplify_eq; try (apply mem_spec in E; by eapply walk_inv_stop).
  - split; [apply Hinv|]. intros Hx. by destruct (walk_complete _ _ _ Hinv x Hx) as [|(?&?&?)].
  - eapply IH; [|done]. by apply walk_inv_step.
  - split; [apply Hinv|]. intros Hx. by destruct (walk_complete _ _ _ Hinv x Hx) as [|(?&?&?)].
Qed.

(** [ancestors] returns exactly the proper ancestors. *)
Lemma ancestors_spec t r x :
  ancestors parent t = Some r -> x ∈ r <-> tc edge t x.
Proof.
  apply ancestors_loop_spec. split.
  - by intros y ?%elem_of_nil.
  - intros c Hc. by apply tc_once.
  - intros y Hy. right. inversion Hy as [? ? He|? z ? He Hr]; subst.
    + exists y. by split; [|apply rtc_refl].
    + exists z. split; [done|]. by apply tc_rtc.
  - by intros y z ?%elem_of_nil.
Qed.
End Ancestors.

(** * Admission keeps the graph acyclic *)
Section Admission.
Context (parent : gmap string string).

(** A walk in the graph with the new edge [child -> p] that leaves [p] stays
    in the old graph as long as it cannot come back through [child]. *)
Lemma insert_edge_inv child p x y :
  edge (<[child := p]> parent) x y ->
  (x = child /\ y = p) \/ edge parent x y.
Proof.
  unfold edge. rewrite lookup_insert. case_decide; naive_solver.
Qed.

Lemma insert_edge_tc child p x y :
  tc (edge (<[child := p]> parent)) x y ->
  tc (edge parent) x y \/ (rtc (edge parent) x child /\ rtc (edge (<[child := p]> parent)) p y).
Proof.
  induction 1 as [x y Hxy|x y z Hxy Hyz IH].
  - apply insert_edge_inv in Hxy as [[-> ->]|?]; [|left; by apply tc_once].
    right. split; apply rtc_refl.
  - apply insert_edge_inv in Hxy as [[-> ->]|Hxy].
    { right. split; [apply rtc_refl|]. by apply tc_rtc. }
    destruct IH as [?|[? ?]]; [left; by eapply tc_l|].
    right. split; [by eapply rtc_l|done].
Qed.

Lemma acyclic_insert child p :
  acyclic parent -> child <> p -> ~ tc (edge parent) p child ->
  acyclic (<[child := p]> parent).
Proof.
  intros Hac Hne Hanc.
  assert (forall y, rtc (edge (<[child := p]> parent)) p y -> rtc (edge parent) p y) as Hstay.
  { intros y Hy. apply rtc_ind_r with (P := fun y => rtc (edge parent) p y) in Hy;
      [done|apply rtc_refl|]. intros u v _ Huv Hu.
    apply insert_edge_inv in Huv as [[-> ->]|Huv]; [apply rtc_refl|].
    by eapply rtc_r. }
  assert (~ rtc (edge parent) p child) as Hno.
  { intros Hr. apply rtc_tc in Hr as [?|?]; [by subst|done]. }
  intros x Hx. destruct (insert_edge_tc _ _ _ _ Hx) as [?|[H1 H2]]; [by eapply Hac|].
  apply Hno. eapply rtc_trans; [by apply Hstay|done].
Qed.
End Admission.

(** A history of admitted children: each request is checked against the
    ancestors of its parent in the graph built so far, then its edge is added. *)
Record ChildRequest := {
  rq_parent : ParentView;
  rq_child : string;
  rq_workspace : string;
  rq_siblings : Z;
  rq_active : Z;
  rq_limits : GraphLimits
}.

Definition admit_child (g : gmap string string) (r : ChildRequest) : option (gmap string string) :=
  anc ← ancestors g (pv_task_id (rq_parent r));
  match validate_new_child (rq_parent r) (rq_child r) (rq_workspace r) anc
          (rq_siblings r) (rq_active r) (rq_limits r) with
  | Ok _ => Some (<[rq_child r := pv_task_id (rq_parent r)]> g)
  | Err _ => None
  end.

Lemma validate_new_child_ok p c ws anc sc ac lim :
  validate_new_child p c ws anc sc ac lim = Ok tt <->
  (c <> pv_task_id p /\ c ∉ anc) /\ pv_workspace_id p = ws /\
  (pv_status p <> "COMPLETED" /\ pv_status p <> "CANCELLED") /\
  pv_depth p + 1 <= delegation_depth lim /\ sc + 1 <= max_fan_out lim /\
  ac + 1 <= concurrent_subtasks lim.
Proof.
  unfold validate_new_child. rewrite !guard_err_ok, orb_false_iff, negb_false_iff,
    !mem_false, String.eqb_neq, String.eqb_eq, !Z.ltb_ge.
  rewrite not_elem_of_cons, list_elem_of_singleton. naive_solver.
Qed.

Lemma admit_acyclic g r g' : acyclic g -> admit_child g r = Some g' -> acyclic g'.
Proof.
  unfold admit_child. intros Hac. destruct (ancestors g _) as [anc|] eqn:Hanc; cbn; [|done].
  destruct (validate_new_child _ _ _ _ _ _ _) as [[]|] eqn:Hv; [|done].
  intros [= <-]. apply validate_new_child_ok in Hv as [[Hne Hnin] _].
  apply acyclic_insert; [done|done|]. by rewrite <- (ancestors_spec g _ _ _ Hanc).
Qed.

Lemma acyclic_empty : acyclic ∅.
Proof. intros x Hx. inversion Hx; unfold edge in *; by simplify_map_eq. Qed.

(** * The join condition *)
Lemma dict_fromkeys_elem seen l x :
  x ∈ dict_fromkeys seen l <-> x ∈ l /\ x ∉ seen.
Proof.
  revert seen. induction l as [|y l IH]; intros seen; cbn; [set_solver|].
  destruct (mem y seen) eqn:E; [apply mem_spec in E|apply mem_false in E];
    rewrite ?elem_of_cons, IH; rewrite ?elem_of_cons; [naive_solver|].
  destruct (decide (x = y)); naive_solver.
Qed.

Lemma dict_fromkeys_nil l : dict_fromkeys [] l = [] <-> l = [].
Proof. destruct l; cbn; [done|]. split; done. Qed.

Lemma filter_nil_iff {A} (P : A -> Prop) `{forall x, Decision (P x)} (l : list A) :
  filter P l = [] <-> Forall (fun x => ~ P x) l.
Proof.
  induction l as [|x l IH]; [done|]. rewrite filter_cons, Forall_cons.
  case_decide; [split; [done|naive_solver]|]. rewrite IH. naive_solver.
Qed.

(** The declarative join condition of the docstring of [evaluate_join]. *)
Definition all_required_done (required : list string) (children : list ChildView) : Prop :=
  forall r, r ∈ required -> exists c, c ∈ children /\ cv_task_id c = r /\ cv_done c = true.

Definition join_condition (mode : string) (quorum : option Z) (required : list string)
    (children : list ChildView) : Prop :=
  children <> [] /\
  if String.eqb mode "ALL" then
    (exists c, c ∈ children /\ cv_done c = true) /\
    (forall c, c ∈ children -> cv_done c = true \/ cv_cancelled c = true) /\
    all_required_done required children
  else if String.eqb mode "ANY" then exists c, c ∈ children /\ cv_done c = true
  else exists q, quorum = Some q /\
    q <= Z.of_nat (length (filter (fun c => cv_done c = true) children)) /\
    all_required_done required children.

Lemma missing_required_nil required children :
  filter (fun r => r ∉ ids (filter (fun c => cv_done c = true) children)) required = [] <->
  all_required_done required children.
Proof.
  rewrite filter_nil_iff, Forall_forall. unfold all_required_done, ids.
  split; intros H r Hr; specialize (H r Hr).
  - apply dec_stable in H. apply list_elem_of_fmap in H as (c & -> & Hc).
    apply list_elem_of_filter in Hc as [? ?]. eauto.
  - intros Hn. apply Hn. destruct H as (c & Hc & <- & Hd).
    apply list_elem_of_fmap_2, list_elem_of_filter. done.
Qed.

Lemma ids_nil l : ids l = [] <-> l = [].
Proof. destruct l; done. Qed.

Lemma done_nonempty children :
  ids (filter (fun c => cv_done c = true) children) <> [] <->
  exists c, c ∈ children /\ cv_done c = true.
Proof.
  rewrite ids_nil, filter_nil_iff, Forall_forall. split.
  - intros H. destruct (decide (Exists (fun c => cv_done c = true) children)) as [He|Hn].
    + by apply Exists_exists in He.
    + exfalso. apply H. intros c Hc Hd. apply Hn, Exists_exists. eauto.
  - intros (c & Hc & Hd) H. by apply (H c Hc).
Qed.

Lemma pending_nil children :
  ids (filter (fun c => cv_done c = false /\ cv_cancelled c = false) children) = [] <->
  forall c, c ∈ children -> cv_done c = true \/ cv_cancelled c = true.
Proof.
  rewrite ids_nil, filter_nil_iff, Forall_forall. apply forall_proper; intros c.
  destruct (cv_done c), (cv_cancelled c); naive_solver.
Qed.

Lemma join_mode_cases policy mode quorum required :
  join_mode policy = Ok (mode, quorum, required) ->
  (mode = "ALL" \/ mode = "ANY" \/ mode = "QUORUM") /\
  (mode = "QUORUM" <-> is_Some quorum) /\ required = jp_required policy.
Proof.
  unfold join_mode. destruct (negb (mem _ JOIN_MODES)) eqn:Hm; [done|].
  apply negb_false_iff, mem_spec in Hm.
  destruct (String.eqb _ "QUORUM") eqn:Hq.
  - apply String.eqb_eq in Hq. rewrite Hq. destruct (py_int _) as [q|]; [|done].
    destruct (q <? 1); [done|]. intros [= <- <- <-]. split_and!; [by auto|split; by eauto|done].
  - apply String.eqb_neq in Hq. intros [= <- <- <-]. unfold JOIN_MODES in Hm.
    rewrite !elem_of_cons, elem_of_nil in Hm.
    split_and!; [naive_solver|split; [done|by intros [? ?]]|done].
Qed.

Lemma by_id_elem children r c :
  by_id children r = Some c -> c ∈ children /\ cv_task_id c = r.
Proof. intros Hl%last_Some_elem_of%list_elem_of_filter. naive_solver. Qed.

Lemma ids_inj children c c' :
  NoDup (ids children) -> c ∈ children -> c' ∈ children ->
  cv_task_id c = cv_task_id c' -> c = c'.
Proof.
  intros Hnd [i Hi]%list_elem_of_lookup [j Hj]%list_elem_of_lookup He.
  assert (i = j) as <-; [|congruence].
  eapply (NoDup_lookup (ids children)); [done| |];
    unfold ids; rewrite list_lookup_fmap; [by rewrite Hi|by rewrite Hj, He].
Qed.

Lemma done_not_cancelled c : cv_done c = true -> cv_cancelled c = false.
Proof.
  unfold cv_done, cv_cancelled. rewrite mem_spec. unfold DONE_STATUSES.
  rewrite !elem_of_cons, elem_of_nil. intros [->|[->|[]]]; done.
Qed.

(** The ALL branch: nothing is missing exactly when nothing is pending and every
    required child is done; the extra cancelled entries never change that. *)
Lemma all_missing_nil children required missing0 :
  NoDup (ids children) ->
  missing0 = dict_fromkeys []
    (ids (filter (fun c => cv_done c = false /\ cv_cancelled c = false) children) ++
     filter (fun r => r ∉ ids (filter (fun c => cv_done c = true) children)) required) ->
  missing0 ++ filter (fun r => cv_cancelled <$> by_id children r = Some true /\ r ∉ missing0)
      required = [] <->
  (forall c, c ∈ children -> cv_done c = true \/ cv_cancelled c = true) /\
  all_required_done required children.
Proof.
  intros Hnd Hm0. rewrite app_nil, Hm0 at 1.
  rewrite dict_fromkeys_nil, app_nil, pending_nil, missing_required_nil.
  split; [naive_solver|]. intros [Hp Hr]. split; [done|].
  apply filter_nil_iff, Forall_forall. intros r Hr' [Hc _].
  destruct (Hr r Hr') as (c & Hcin & Hid & Hd).
  destruct (by_id children r) as [c'|] eqn:Hl; [|done]. cbn in Hc. simplify_eq.
  apply by_id_elem in Hl as [Hin' Hid'].
  assert (c' = c) as -> by (eapply ids_inj; eauto; congruence).
  by rewrite done_not_cancelled in Hc.
Qed.

Lemma evaluate_join_condition policy children result mode quorum required :
  NoDup (ids children) ->
  join_mode policy = Ok (mode, quorum, required) ->
  evaluate_join policy children = Ok result ->
  jr_satisfied result = true <-> join_condition mode quorum required children.
Proof.
  intros Hnd Hmode He. pose proof (join_mode_cases _ _ _ _ Hmode) as (Hm & Hq & ->).
  unfold evaluate_join in He. rewrite Hmode in He. cbn [mbind res_bind] in He.
  unfold join_condition. destruct children as [|c0 cs]; [simplify_eq/=; naive_solver|].
  set (children := c0 :: cs) in *. assert (children <> []) as Hne by done. clearbody children.
  destruct (String.eqb mode "ALL") eqn:Eall; [|destruct (String.eqb mode "ANY") eqn:Eany].
  - simplify_eq/=. rewrite andb_true_iff, negb_true_iff, bool_decide_eq_true,
      bool_decide_eq_false, all_missing_nil, done_nonempty by done. naive_solver.
  - simplify_eq/=. rewrite negb_true_iff, bool_decide_eq_false, done_nonempty. naive_solver.
  - apply String.eqb_neq in Eall, Eany. assert (mode = "QUORUM") as -> by naive_solver.
    destruct (proj1 Hq eq_refl) as [q ->]. simplify_eq/=.
    rewrite andb_true_iff, bool_decide_eq_true, missing_required_nil, Z.leb_le.
    unfold ids. rewrite length_fmap. naive_solver.
Qed.

Lemma evaluate_join_total policy children :
  is_ok (evaluate_join policy children) = is_ok (join_mode policy).
Proof.
  unfold evaluate_join. destruct (join_mode policy) as [[[mode quorum] required]|] eqn:Hm; [|done].
  cbn. apply join_mode_cases in Hm as (Hm & Hq & _). destruct children; [done|].
  destruct Hm as [->|[->| ->]]; [done|done|]. cbn. by destruct (proj1 Hq eq_refl) as [q ->].
Qed.

(** * Progress of the children *)

(** A child's possible later view: a finished or cancelled child stays so. *)
Definition later (c c' : ChildView) : Prop :=
  cv_task_id c' = cv_task_id c /\
  (cv_done c = true -> cv_done c' = true) /\
  (cv_cancelled c = true -> cv_cancelled c' = true).

Lemma later_ids cs cs' : Forall2 later cs cs' -> ids cs' = ids cs.
Proof. unfold ids. induction 1 as [|c c' cs cs' [H _] _ IH]; [done|]. cbn. by rewrite H, IH. Qed.

Lemma later_done_count cs cs' :
  Forall2 later cs cs' ->
  (length (filter (fun c => cv_done c = true) cs) <=
   length (filter (fun c => cv_done c = true) cs'))%nat.
Proof.
  induction 1 as [|c c' cs cs' (_ & H & _) _ IH]; [done|]. rewrite !filter_cons.
  repeat case_decide; cbn; (lia || naive_solver).
Qed.

Lemma join_condition_later mode quorum required cs cs' :
  Forall2 later cs cs' -> join_condition mode quorum required cs ->
  join_condition mode quorum required cs'.
Proof.
  intros Hl [Hne Hc].
  assert (forall c, c ∈ cs -> exists c', c' ∈ cs' /\ later c c') as Hfw.
  { intros c [i Hi]%list_elem_of_lookup. destruct (Forall2_lookup_l _ _ _ _ _ Hl Hi) as (c' & Hi' & ?).
    exists c'. split; [by eapply list_elem_of_lookup_2|done]. }
  assert (forall c', c' ∈ cs' -> exists c, c ∈ cs /\ later c c') as Hbw.
  { intros c [i Hi]%list_elem_of_lookup. destruct (Forall2_lookup_r _ _ _ _ _ Hl Hi) as (c' & Hi' & ?).
    exists c'. split; [by eapply list_elem_of_lookup_2|done]. }
  assert ((exists c, c ∈ cs /\ cv_done c = true) -> exists c, c ∈ cs' /\ cv_done c = true) as Hex.
  { intros (c & Hin & Hd). destruct (Hfw c Hin) as (c' & ? & (_ & ? & _)). eauto. }
  assert (all_required_done required cs -> all_required_done required cs') as Hreq.
  { intros H r Hr. destruct (H r Hr) as (c & Hin & <- & Hd).
    destruct (Hfw c Hin) as (c' & ? & (? & ? & _)). eauto. }
  split; [by destruct Hl|]. destruct (String.eqb mode "ALL"); [|destruct (String.eqb mode "ANY")].
  - destruct Hc as (? & Hp & ?). split_and!; [by auto| |by auto].
    intros c' Hin'. destruct (Hbw c' Hin') as (c & Hin & (_ & ? & ?)). destruct (Hp c Hin); auto.
  - auto.
  - destruct Hc as (q & -> & Hq & ?). exists q. split_and!; [done| |by auto].
    pose proof (later_done_count _ _ Hl). lia.
Qed.

(** * Properties *)

(** A task graph built from nothing by admitted children has no cycle: no
    Task is its own ancestor, the ancestor walk ends on every Task, and what it
    returns never contains the Task itself. *)
Theorem admitted_graph_acyclic (rs : list ChildRequest) (g : gmap string string) :
  run_steps admit_child ∅ rs = Some g ->
  acyclic g /\ forall t, exists anc, ancestors g t = Some anc /\ t ∉ anc.
Proof.
  intros Hr. assert (acyclic g) as Hac.
  { eapply (run_steps_ind admit_child acyclic); [apply acyclic_empty| |done].
    intros s r s'. apply admit_acyclic. }
  split; [done|]. intros t. destruct (ancestors_total g t) as [anc Hanc].
  exists anc. split; [done|]. rewrite (ancestors_spec g _ _ _ Hanc). apply Hac.
Qed.

Definition example_request (p c : string) : ChildRequest := {|
  rq_parent := {| pv_task_id := p; pv_workspace_id := "ws"; pv_depth := 0; pv_status := "RUNNING" |};
  rq_child := c; rq_workspace := "ws"; rq_siblings := 0; rq_active := 0;
  rq_limits := limits_from_policy ∅
|}.

Lemma admitted_graph_acyclic_witness :
  acyclic (<["c" := "b"]> (<["b" := "a"]> ∅)) /\
  forall t, exists anc, ancestors (<["c" := "b"]> (<["b" := "a"]> ∅)) t = Some anc /\ t ∉ anc.
Proof.
  apply (admitted_graph_acyclic [example_request "a" "b"; example_request "b" "c"]).
  vm_compute. reflexivity.
Defined.

(** [evaluate_join] decides the documented join condition: it fails exactly
    on an invalid policy, and otherwise [satisfied] holds if and only if there
    are children and: for ALL, some child is done, every child that is not
    cancelled is done and every required child is done; for ANY, some child is
    done; for QUORUM(n), at least n children and every required one are done. *)
Theorem evaluate_join_correct (policy : JoinPolicy) (children : list ChildView) :
  NoDup (ids children) ->
  match join_mode policy with
  | Err e => evaluate_join policy children = Err e
  | Ok (mode, quorum, required) =>
      exists result, evaluate_join policy children = Ok result /\
        (jr_satisfied result = true <-> join_condition mode quorum required children)
  end.
Proof.
  intros Hnd. pose proof (evaluate_join_total policy children) as Ht.
  destruct (join_mode policy) as [[[mode quorum] required]|e] eqn:Hm.
  - destruct (evaluate_join policy children) as [r|] eqn:He; [|done].
    exists r. split; [done|]. by eapply evaluate_join_condition.
  - unfold evaluate_join. by rewrite Hm.
Qed.

Definition example_children : list ChildView := [
  {| cv_task_id := "t1"; cv_status := "VERIFIED"; cv_verification_status := Some "PASSED" |};
  {| cv_task_id := "t2"; cv_status := "CANCELLED"; cv_verification_status := None |}].

Lemma evaluate_join_correct_witness :
  exists result, evaluate_join empty_join_policy example_children = Ok result /\
    (jr_satisfied result = true <-> join_condition "ALL" None [] example_children).
Proof.
  apply (evaluate_join_correct empty_join_policy example_children).
  apply (bool_decide_unpack _). vm_compute. exact I.
Defined.

(** A satisfied join stays satisfied: when every child keeps its id, finished
    children stay finished and cancelled children stay cancelled, a join that was
    satisfied is satisfied again at the later evaluation. *)
Theorem join_satisfied_stable (policy : JoinPolicy) (cs cs' : list ChildView)
    (r r' : JoinResult) :
  NoDup (ids cs) -> Forall2 later cs cs' ->
  evaluate_join policy cs = Ok r -> evaluate_join policy cs' = Ok r' ->
  jr_satisfied r = true -> jr_satisfied r' = true.
Proof.
  intros Hnd Hl He He'. destruct (join_mode policy) as [[[mode quorum] required]|] eqn:Hm.
  2: { unfold evaluate_join in He. rewrite Hm in He. discriminate He. }
  pose proof (evaluate_join_condition _ _ _ _ _ _ Hnd Hm He) as ->.
  rewrite <- (later_ids _ _ Hl) in Hnd.
  pose proof (evaluate_join_condition _ _ _ _ _ _ Hnd Hm He') as ->.
  by apply join_condition_later.
Qed.

Lemma join_satisfied_stable_witness :
  exists r', evaluate_join empty_join_policy example_children = Ok r' /\ jr_satisfied r' = true.
Proof.
  eexists. split; [vm_compute; reflexivity|].
  eapply (join_satisfied_stable empty_join_policy example_children example_children).
  - apply (bool_decide_unpack _). vm_compute. exact I.
  - repeat constructor; auto.
  - vm_compute. reflexivity.
  - vm_compute. reflexivity.
  - reflexivity.
Defined.
