(* ===== verification/TaskState.v ===== *)
(** The Task state machine of [server/domain/task.py]: the status transitions,
    the fold of the Event stream into a [TaskState], and the completion
    prerequisites. Event payloads are read as their schemas under
    [schemas/events/types] type them: a field is [None] when the key is absent
    (or null, where the code does not distinguish the two). *)

From S2P Require Import Prelude TaskGraph.
Open Scope Z_scope.

Inductive TaskStatus :=
| OPEN | DELEGATED | ACCEPTED | RUNNING | WAITING | IMPLEMENTED | VERIFYING
| VERIFIED | COMPLETED | CANCEL_REQUESTED | CANCELLED.

#[global] Instance TaskStatus_eq_dec : EqDecision TaskStatus.
Proof. solve_decision. Defined.

Definition all_statuses : list TaskStatus :=
  [OPEN; DELEGATED; ACCEPTED; RUNNING; WAITING; IMPLEMENTED; VERIFYING; VERIFIED;
   COMPLETED; CANCEL_REQUESTED; CANCELLED].

Lemma all_statuses_complete s : s ∈ all_statuses.
Proof. destruct s; unfold all_statuses; set_solver. Qed.

Definition TERMINAL : list TaskStatus := [COMPLETED; CANCELLED].

Definition TRANSITIONS : list (TaskStatus * string * TaskStatus) := [
  (OPEN, "TASK_DELEGATED", DELEGATED);
  (DELEGATED, "TASK_REASSIGNED", DELEGATED);
  (DELEGATED, "TASK_ACCEPTED", ACCEPTED);
  (ACCEPTED, "TASK_STARTED", RUNNING);
  (RUNNING, "TASK_WAITING", WAITING);
  (WAITING, "TASK_STARTED", RUNNING);
  (RUNNING, "TASK_PROGRESS_REPORTED", RUNNING);
  (RUNNING, "IMPLEMENTATION_SUBMITTED", IMPLEMENTED);
  (IMPLEMENTED, "TASK_VERIFICATION_STARTED", VERIFYING);
  (VERIFYING, "VERIFICATION_PASSED", VERIFIED);
  (VERIFYING, "VERIFICATION_FAILED", RUNNING);
  (VERIFYING, "VERIFICATION_BLOCKED", WAITING);
  (VERIFIED, "TASK_COMPLETED", COMPLETED);
  (OPEN, "TASK_CANCELLED", CANCELLED);
  (DELEGATED, "TASK_CANCELLED", CANCELLED);
  (ACCEPTED, "TASK_CANCELLED", CANCELLED);
  (RUNNING, "TASK_CANCEL_REQUESTED", CANCEL_REQUESTED);
  (WAITING, "TASK_CANCEL_REQUESTED", CANCEL_REQUESTED);
  (IMPLEMENTED, "TASK_CANCEL_REQUESTED", CANCEL_REQUESTED);
  (VERIFYING, "TASK_CANCEL_REQUESTED", CANCEL_REQUESTED);
  (CANCEL_REQUESTED, "TASK_CANCELLED", CANCELLED);
  (DELEGATED, "TASK_WAITING", WAITING);
  (ACCEPTED, "TASK_WAITING", WAITING);
  (IMPLEMENTED, "TASK_WAITING", WAITING);
  (ACCEPTED, "TASK_REASSIGNED", DELEGATED);
  (RUNNING, "TASK_REASSIGNED", DELEGATED);
  (WAITING, "TASK_REASSIGNED", DELEGATED)].

(** [TRANSITIONS.get((current, event_type))] *)
Definition transition_get (current : TaskStatus) (event_type : string) : option TaskStatus :=
  snd <$> find (fun e => bool_decide (e.1 = (current, event_type))) TRANSITIONS.

Definition ANNOTATION_EVENTS : list string := ["TASK_JOIN_SATISFIED"].
Definition CREATION_EVENTS : list string := ["TASK_CREATED"; "SUBTASK_CREATED"].
Definition VERIFICATION_RESULT_EVENTS : list string :=
  ["VERIFICATION_PASSED"; "VERIFICATION_FAILED"; "VERIFICATION_BLOCKED"].

(** [CREATION_EVENTS | {e for (_, e) in TRANSITIONS} - VERIFICATION_RESULT_EVENTS]
    ([-] binds tighter than [|]). *)
Definition TASK_EVENT_TYPES : list string :=
  CREATION_EVENTS ++
  filter (fun e => e ∉ VERIFICATION_RESULT_EVENTS) ((fun e => e.1.2) <$> TRANSITIONS).

Definition next_status (current : TaskStatus) (event_type : string) : res TaskStatus :=
  guard_err (mem current TERMINAL) "TASK_TERMINAL" $
  match transition_get current event_type with
  | None => Err "TASK_TRANSITION_INVALID"
  | Some target => Ok target
  end.

Record Payload := {
  p_root_task_id : option string;
  p_parent_task_id : option string;
  p_channel_id : option string;
  p_title : option string;
  p_domain : option string;
  p_risk : option string;
  p_depth : option Z;
  p_join_policy : option JoinPolicy;
  p_verification_id : option string;
  p_satisfied_children : option (list string);
  p_assignee_account_id : option string;
  p_assignment_revision : option Z;
  p_policy_snapshot_hash : option string;
  p_summary : option string;
  p_criteria_revision : option Z
}.

Record Event := {
  e_type : string;
  e_aggregate_type : option string;
  e_aggregate_id : option string;
  e_task_id : option string;
  e_workspace_id : option string;
  e_channel_id : option string;
  e_actor_account_id : option string;
  e_event_id : option string;
  e_aggregate_seq : option Z;
  e_recorded_seq : option Z;
  e_occurred_at : option string;
  e_payload : Payload
}.

Record TaskState := {
  task_id : string;
  exists_ : bool;
  status : TaskStatus;
  workspace_id : option string;
  root_task_id : option string;
  parent_task_id : option string;
  channel_id : option string;
  title : string;
  domain : string;
  risk : string;
  assignee_account_id : option string;
  delegated_by : option string;
  delegation_depth : Z;
  assignment_revision : Z;
  policy_snapshot_hash : option string;
  criteria_revision : Z;
  latest_progress : option string;
  active_verification_id : option string;
  verification_status : option string;
  last_event_id : option string;
  last_aggregate_seq : Z;
  created_at : option string;
  updated_at : option string;
  join_policy : JoinPolicy;
  join_satisfied : bool;
  join_satisfied_children : list string
}.

Definition initial_state (tid : string) : TaskState := {|
  task_id := tid; exists_ := false; status := OPEN; workspace_id := None;
  root_task_id := None; parent_task_id := None; channel_id := None; title := "";
  domain := ""; risk := "LOW"; assignee_account_id := None; delegated_by := None;
  delegation_depth := 0; assignment_revision := 0; policy_snapshot_hash := None;
  criteria_revision := 0; latest_progress := None; active_verification_id := None;
  verification_status := None; last_event_id := None; last_aggregate_seq := 0;
  created_at := None; updated_at := None; join_policy := empty_join_policy;
  join_satisfied := false; join_satisfied_children := []
|}.

(** ** Field updates *)
Definition with_status (st : TaskStatus) (s : TaskState) : TaskState := {|
  task_id := task_id s; exists_ := exists_ s; status := st; workspace_id := workspace_id s;
  root_task_id := root_task_id s; parent_task_id := parent_task_id s;
  channel_id := channel_id s; title := title s; domain := domain s; risk := risk s;
  assignee_account_id := assignee_account_id s; delegated_by := delegated_by s;
  delegation_depth := delegation_depth s; assignment_revision := assignment_revision s;
  policy_snapshot_hash := policy_snapshot_hash s; criteria_revision := criteria_revision s;
  latest_progress := latest_progress s; active_verification_id := active_verification_id s;
  verification_status := verification_status s; last_event_id := last_event_id s;
  last_aggregate_seq := last_aggregate_seq s; created_at := created_at s;
  updated_at := updated_at s; join_policy := join_policy s;
  join_satisfied := join_satisfied s; join_satisfied_children := join_satisfied_children s
|}.

Definition with_last_event (eid : option string) (seq : Z) (at_ : option string)
    (s : TaskState) : TaskState := {|
  task_id := task_id s; exists_ := exists_ s; status := status s; workspace_id := workspace_id s;
  root_task_id := root_task_id s; parent_task_id := parent_task_id s;
  channel_id := channel_id s; title := title s; domain := domain s; risk := risk s;
  assignee_account_id := assignee_account_id s; delegated_by := delegated_by s;
  delegation_depth := delegation_depth s; assignment_revision := assignment_revision s;
  policy_snapshot_hash := policy_snapshot_hash s; criteria_revision := criteria_revision s;
  latest_progress := latest_progress s; active_verification_id := active_verification_id s;
  verification_status := verification_status s; last_event_id := eid;
  last_aggregate_seq := seq; created_at := created_at s;
  updated_at := at_; join_policy := join_policy s;
  join_satisfied := join_satisfied s; join_satisfied_children := join_satisfied_children s
|}.

Definition with_verification (active vstatus : option string) (s : TaskState) : TaskState := {|
  task_id := task_id s; exists_ := exists_ s; status := status s; workspace_id := workspace_id s;
  root_task_id := root_task_id s; parent_task_id := parent_task_id s;
  channel_id := channel_id s; title := title s; domain := domain s; risk := risk s;
  assignee_account_id := assignee_account_id s; delegated_by := delegated_by s;
  delegation_depth := delegation_depth s; assignment_revision := assignment_revision s;
  policy_snapshot_hash := policy_snapshot_hash s; criteria_revision := criteria_revision s;
  latest_progress := latest_progress s; active_verification_id := active;
  verification_status := vstatus; last_event_id := last_event_id s;
  last_aggregate_seq := last_aggregate_seq s; created_at := created_at s;
  updated_at := updated_at s; join_policy := join_policy s;
  join_satisfied := join_satisfied s; join_satisfied_children := join_satisfied_children s
|}.

Definition with_join_satisfied (cs : list string) (s : TaskState) : TaskState := {|
  task_id := task_id s; exists_ := exists_ s; status := status s; workspace_id := workspace_id s;
  root_task_id := root_task_id s; parent_task_id := parent_task_id s;
  channel_id := channel_id s; title := title s; domain := domain s; risk := risk s;
  assignee_account_id := assignee_account_id s; delegated_by := delegated_by s;
  delegation_depth := delegation_depth s; assignment_revision := assignment_revision s;
  policy_snapshot_hash := policy_snapshot_hash s; criteria_revision := criteria_revision s;
  latest_progress := latest_progress s; active_verification_id := active_verification_id s;
  verification_status := verification_status s; last_event_id := last_event_id s;
  last_aggregate_seq := last_aggregate_seq s; created_at := created_at s;
  updated_at := updated_at s; join_policy := join_policy s;
  join_satisfied := true; join_satisfied_children := cs
|}.

Definition with_assignment (assignee by_ : option string) (rev : Z) (hash : option string)
    (s : TaskState) : TaskState := {|
  task_id := task_id s; exists_ := exists_ s; status := status s; workspace_id := workspace_id s;
  root_task_id := root_task_id s; parent_task_id := parent_task_id s;
  channel_id := channel_id s; title := title s; domain := domain s; risk := risk s;
  assignee_account_id := assignee; delegated_by := by_;
  delegation_depth := delegation_depth s; assignment_revision := rev;
  policy_snapshot_hash := hash; criteria_revision := criteria_revision s;
  latest_progress := latest_progress s; active_verification_id := active_verification_id s;
  verification_status := verification_status s; last_event_id := last_event_id s;
  last_aggregate_seq := last_aggregate_seq s; created_at := created_at s;
  updated_at := updated_at s; join_policy := join_policy s;
  join_satisfied := join_satisfied s; join_satisfied_children := join_satisfied_children s
|}.

Definition with_progress (crev : Z) (progress : option string) (s : TaskState) : TaskState := {|
  task_id := task_id s; exists_ := exists_ s; status := status s; workspace_id := workspace_id s;
  root_task_id := root_task_id s; parent_task_id := parent_task_id s;
  channel_id := channel_id s; title := title s; domain := domain s; risk := risk s;
  assignee_account_id := assignee_account_id s; delegated_by := delegated_by s;
  delegation_depth := delegation_depth s; assignment_revision := assignment_revision s;
  policy_snapshot_hash := policy_snapshot_hash s; criteria_revision := crev;
  latest_progress := progress; active_verification_id := active_verification_id s;
  verification_status := verification_status s; last_event_id := last_event_id s;
  last_aggregate_seq := last_aggregate_seq s; created_at := created_at s;
  updated_at := updated_at s; join_policy := join_policy s;
  join_satisfied := join_satisfied s; join_satisfied_children := join_satisfied_children s
|}.

(** ** The fold step *)

(** The creation branch of [apply_event]. *)
Definition apply_creation (s : TaskState) (ev : Event) : TaskState :=
  let p := e_payload ev in {|
  task_id := task_id s; exists_ := true; status := OPEN;
  workspace_id := e_workspace_id ev;
  root_task_id := Some (default (task_id s) (p_root_task_id p));
  parent_task_id := p_parent_task_id p;
  channel_id := py_or (p_channel_id p) (e_channel_id ev);
  title := default "" (p_title p);
  domain := default "" (p_domain p);
  risk := default "LOW" (p_risk p);
  assignee_account_id := assignee_account_id s; delegated_by := delegated_by s;
  delegation_depth := default 0 (p_depth p);
  assignment_revision := assignment_revision s;
  policy_snapshot_hash := policy_snapshot_hash s; criteria_revision := criteria_revision s;
  latest_progress := latest_progress s; active_verification_id := active_verification_id s;
  verification_status := verification_status s;
  last_event_id := e_event_id ev;
  last_aggregate_seq := default 0 (e_aggregate_seq ev);
  created_at := e_occurred_at ev; updated_at := e_occurred_at ev;
  join_policy := default empty_join_policy (p_join_policy p);
  join_satisfied := join_satisfied s; join_satisfied_children := join_satisfied_children s
|}.

(** [etype.removeprefix("VERIFICATION_")] *)
Definition removeprefix (p s : string) : string :=
  if starts_with p s then String.substring (String.length p) (String.length s) s else s.

(** The payload-specific updates after a status transition. *)
Definition apply_details (s : TaskState) (ev : Event) : TaskState :=
  let etype := e_type ev in
  let p := e_payload ev in
  if mem etype ["TASK_DELEGATED"; "TASK_REASSIGNED"] then
    with_assignment (p_assignee_account_id p) (e_actor_account_id ev)
      (default (assignment_revision s) (p_assignment_revision p))
      (if truthy (p_policy_snapshot_hash p) then p_policy_snapshot_hash p
       else policy_snapshot_hash s) s
  else if String.eqb etype "TASK_PROGRESS_REPORTED" then
    with_progress (criteria_revision s) (p_summary p) s
  else if String.eqb etype "IMPLEMENTATION_SUBMITTED" then
    with_verification (active_verification_id s) None
      (with_progress (default (criteria_revision s) (p_criteria_revision p))
         (latest_progress s) s)
  else if String.eqb etype "TASK_VERIFICATION_STARTED" then
    with_verification (p_verification_id p) (Some "PENDING") s
  else s.

Definition touch (ev : Event) (s : TaskState) : TaskState :=
  with_last_event (e_event_id ev) (default (last_aggregate_seq s) (e_aggregate_seq ev))
    (e_occurred_at ev) s.

Definition apply_event (s : TaskState) (ev : Event) : res TaskState :=
  let etype := e_type ev in
  let p := e_payload ev in
  if mem etype CREATION_EVENTS then
    if negb (bool_decide (e_aggregate_id ev = Some (task_id s))) then Ok s
    else Ok (apply_creation s ev)
  else if negb (exists_ s) then Ok s
  else if mem etype VERIFICATION_RESULT_EVENTS then
    if negb (bool_decide (e_task_id ev = Some (task_id s))) then Ok s
    else if negb (bool_decide (p_verification_id p = active_verification_id s)) then Ok s
    else match transition_get (status s) etype with
         | None => Ok s
         | Some target =>
             Ok (with_last_event (last_event_id s) (last_aggregate_seq s) (e_occurred_at ev)
                   (with_verification (active_verification_id s)
                      (Some (removeprefix "VERIFICATION_" etype)) (with_status target s)))
         end
  else if negb (bool_decide (e_aggregate_id ev = Some (task_id s)))
          || negb (bool_decide (e_aggregate_type ev = Some "task")) then Ok s
  else if mem etype ANNOTATION_EVENTS then
    let s := touch ev s in
    Ok (if String.eqb etype "TASK_JOIN_SATISFIED"
        then with_join_satisfied (default [] (p_satisfied_children p)) s else s)
  else
    target ← next_status (status s) etype;
    Ok (apply_details (touch ev (with_status target s)) ev).

(** Left fold in the error monad: a raised transition error ends the loop. *)
Fixpoint apply_events (s : TaskState) (events : list Event) : res TaskState :=
  match events with
  | [] => Ok s
  | ev :: events => s' ← apply_event s ev; apply_events s' events
  end.

Definition recorded_le (a b : Event) : bool :=
  default 0 (e_recorded_seq a) <=? default 0 (e_recorded_seq b).

Definition fold (tid : string) (events : list Event) : res TaskState :=
  apply_events (initial_state tid) (py_sorted recorded_le events).

(** ** Completion prerequisites *)

Definition _verification_passed (s : TaskState) : option string :=
  if negb (bool_decide (status s = VERIFIED))
     || negb (bool_decide (verification_status s = Some "PASSED"))
  then Some "VERIFICATION_REQUIRED" else None.

(** [completion_prerequisites]: the registered checks are functions of the state
    (each closed over its own session); falsy codes are dropped. *)
Definition completion_prerequisites (checks : list (TaskState -> option string))
    (s : TaskState) : list string :=
  omap (fun c => if truthy c then c else None)
    (_verification_passed s :: ((fun check => check s) <$> checks)).

(** * Lemmas *)

#[local] Arguments transition_get : simpl never.

Lemma transition_get_elem s e t :
  transition_get s e = Some t -> (s, e, t) ∈ TRANSITIONS.
Proof.
  unfold transition_get. destruct (find _ _) as [[[s' e'] t']|] eqn:Hf; [|done].
  intros [= <-]. apply find_some in Hf as [Hin Heq].
  apply bool_decide_eq_true in Heq. simplify_eq/=. by apply list_elem_of_In.
Qed.

(** Case analysis on an allowed transition. *)
Ltac transition_cases H :=
  apply transition_get_elem in H; unfold TRANSITIONS in H;
  repeat (apply elem_of_cons in H as [H|H]; [simplify_eq|]);
  [..|by apply elem_of_nil in H].

Lemma transition_not_terminal s e t : transition_get s e = Some t -> s ∉ TERMINAL.
Proof.
  intros H. transition_cases H; by apply (bool_decide_unpack _).
Qed.

Lemma next_status_ok s e t :
  next_status s e = Ok t <-> transition_get s e = Some t.
Proof.
  unfold next_status. rewrite guard_err_ok, mem_false. split.
  - intros [_ H]. destruct (transition_get s e); naive_solver.
  - intros H. split; [by eapply transition_not_terminal|]. by rewrite H.
Qed.

Lemma apply_events_app s evs1 evs2 :
  apply_events s (evs1 ++ evs2) = (s' ← apply_events s evs1; apply_events s' evs2).
Proof.
  revert s. induction evs1 as [|e evs1 IH]; intros s; [done|]. cbn.
  destruct (apply_event s e); [apply IH|done].
Qed.

Lemma apply_events_ind (P : TaskState -> list Event -> Prop) s seen evs s' :
  P s seen ->
  (forall s seen ev s', P s seen -> apply_event s ev = Ok s' -> P s' (seen ++ [ev])) ->
  apply_events s evs = Ok s' -> P s' (seen ++ evs).
Proof.
  intros H0 Hstep. revert s seen H0. induction evs as [|ev evs IH]; intros s seen H0 H; cbn in H.
  - simplify_eq. by rewrite app_nil_r.
  - apply res_bind_ok in H as (s1 & H1 & H2). rewrite cons_middle, app_assoc. eauto.
Qed.

(** The status after an event that the Task takes notice of. *)
Lemma apply_details_status s ev : status (apply_details s ev) = status s.
Proof. unfold apply_details. by repeat case_match. Qed.

Lemma apply_details_task_id s ev : task_id (apply_details s ev) = task_id s.
Proof. unfold apply_details. by repeat case_match. Qed.

(** The ways an event can act on a state. *)
Inductive acts (s : TaskState) (ev : Event) : TaskState -> Prop :=
| acts_ignored : acts s ev s
| acts_created :
    e_type ev ∈ CREATION_EVENTS -> e_aggregate_id ev = Some (task_id s) ->
    acts s ev (apply_creation s ev)
| acts_verification target :
    e_type ev ∈ VERIFICATION_RESULT_EVENTS -> e_task_id ev = Some (task_id s) ->
    p_verification_id (e_payload ev) = active_verification_id s ->
    transition_get (status s) (e_type ev) = Some target ->
    acts s ev (with_last_event (last_event_id s) (last_aggregate_seq s) (e_occurred_at ev)
                 (with_verification (active_verification_id s)
                    (Some (removeprefix "VERIFICATION_" (e_type ev))) (with_status target s)))
| acts_annotation :
    e_type ev = "TASK_JOIN_SATISFIED" ->
    acts s ev (with_join_satisfied (default [] (p_satisfied_children (e_payload ev))) (touch ev s))
| acts_transition target :
    e_type ev ∉ VERIFICATION_RESULT_EVENTS -> e_aggregate_id ev = Some (task_id s) ->
    transition_get (status s) (e_type ev) = Some target ->
    acts s ev (apply_details (touch ev (with_status target s)) ev).

Lemma apply_event_acts s ev s' : apply_event s ev = Ok s' -> acts s ev s'.
Proof.
  unfold apply_event. intros H.
  destruct (mem (e_type ev) CREATION_EVENTS) eqn:Hc.
  { apply mem_spec in Hc. case_bool_decide; simplify_eq/=; by constructor. }
  destruct (exists_ s); [cbn in H|simplify_eq/=; constructor].
  destruct (mem (e_type ev) VERIFICATION_RESULT_EVENTS) eqn:Hv.
  { apply mem_spec in Hv. case_bool_decide; simplify_eq/=; [|constructor].
    case_bool_decide; simplify_eq/=; [|constructor].
    destruct (transition_get _ _) eqn:Ht; simplify_eq/=; by constructor. }
  apply mem_false in Hv.
  case_bool_decide as Ha; simplify_eq/=; [|constructor].
  case_bool_decide; simplify_eq/=; [|constructor].
  destruct (mem (e_type ev) ANNOTATION_EVENTS) eqn:Hann.
  { apply mem_spec in Hann. unfold ANNOTATION_EVENTS in Hann.
    apply list_elem_of_singleton in Hann. rewrite Hann in H. simplify_eq/=. by constructor. }
  apply res_bind_ok in H as (t & Ht & [= <-]). apply next_status_ok in Ht. by constructor.
Qed.

Lemma acts_task_id s ev s' : acts s ev s' -> task_id s' = task_id s.
Proof. destruct 1; try done. by rewrite apply_details_task_id. Qed.

(** ** Verification evidence behind a verified Task *)

Definition started_by (tid : string) (vid : option string) (ev : Event) : Prop :=
  e_type ev = "TASK_VERIFICATION_STARTED" /\ e_aggregate_id ev = Some tid /\
  p_verification_id (e_payload ev) = vid.

Definition passed_by (tid : string) (vid : option string) (ev : Event) : Prop :=
  e_type ev = "VERIFICATION_PASSED" /\ e_task_id ev = Some tid /\
  p_verification_id (e_payload ev) = vid.

Definition evidence (seen : list Event) (s : TaskState) : Prop :=
  let vid := active_verification_id s in
  (status s = VERIFYING ->
     verification_status s = Some "PENDING" /\ Exists (started_by (task_id s) vid) seen) /\
  (status s = VERIFIED \/ status s = COMPLETED ->
     verification_status s = Some "PASSED" /\ Exists (started_by (task_id s) vid) seen /\
     Exists (passed_by (task_id s) vid) seen).

Lemma evidence_weaken seen ev s : evidence seen s -> evidence (seen ++ [ev]) s.
Proof. unfold evidence. rewrite !Exists_app. naive_solver. Qed.

(** The only ways into the statuses that carry evidence. *)
Lemma transition_to_verifying s e :
  transition_get s e = Some VERIFYING -> s = IMPLEMENTED /\ e = "TASK_VERIFICATION_STARTED".
Proof. intros H. transition_cases H; done. Qed.

Lemma transition_to_verified s e :
  transition_get s e = Some VERIFIED -> s = VERIFYING /\ e = "VERIFICATION_PASSED".
Proof. intros H. transition_cases H; done. Qed.

Lemma transition_to_completed s e :
  transition_get s e = Some COMPLETED -> s = VERIFIED /\ e = "TASK_COMPLETED".
Proof. intros H. transition_cases H; done. Qed.

Lemma evidence_verification seen s ev t at_ :
  evidence seen s -> e_type ev ∈ VERIFICATION_RESULT_EVENTS ->
  e_task_id ev = Some (task_id s) ->
  p_verification_id (e_payload ev) = active_verification_id s ->
  transition_get (status s) (e_type ev) = Some t ->
  evidence (seen ++ [ev])
    (with_last_event (last_event_id s) (last_aggregate_seq s) at_
       (with_verification (active_verification_id s)
          (Some (removeprefix "VERIFICATION_" (e_type ev))) (with_status t s))).
Proof.
  intros [He _] Hv Hid Hvid Ht. unfold evidence. cbn. rewrite !Exists_app, !Exists_cons.
  split.
  - intros ->. apply transition_to_verifying in Ht as [_ Ht]. rewrite Ht in Hv.
    by apply (bool_decide_unpack (~ _)) in Hv.
  - intros [-> | ->].
    + apply transition_to_verified in Ht as [Hs Ht]. destruct (He Hs) as [_ ?].
      rewrite Ht. split_and!; [done|by left|]. right. left. by split_and!.
    + apply transition_to_completed in Ht as [_ Ht]. rewrite Ht in Hv.
      by apply (bool_decide_unpack (~ _)) in Hv.
Qed.

Lemma evidence_transition seen s ev t :
  evidence seen s -> e_type ev ∉ VERIFICATION_RESULT_EVENTS ->
  e_aggregate_id ev = Some (task_id s) ->
  transition_get (status s) (e_type ev) = Some t ->
  evidence (seen ++ [ev]) (apply_details (touch ev (with_status t s)) ev).
Proof.
  intros [He1 He2] Hv Hid Ht. unfold evidence.
  rewrite apply_details_status, apply_details_task_id, !Exists_app, !Exists_cons.
  cbn [status task_id touch with_last_event with_status]. unfold apply_details. split.
  - intros ->. apply transition_to_verifying in Ht as [_ Ht]. rewrite Ht.
    cbn. split; [done|]. right. left. by split_and!.
  - intros [-> | ->].
    + apply transition_to_verified in Ht as [_ Ht]. rewrite Ht in Hv.
      by destruct Hv; apply (bool_decide_unpack _).
    + apply transition_to_completed in Ht as [Hs Ht]. rewrite Ht. cbn. naive_solver.
Qed.

Lemma evidence_step seen s ev s' :
  evidence seen s -> apply_event s ev = Ok s' -> evidence (seen ++ [ev]) s'.
Proof.
  intros He Ha%apply_event_acts. destruct Ha.
  - by apply evidence_weaken.
  - split; cbn; naive_solver.
  - by apply evidence_verification.
  - apply (evidence_weaken seen ev) in He. exact He.
  - by apply evidence_transition.
Qed.

Lemma apply_events_evidence tid evs s :
  apply_events (initial_state tid) evs = Ok s -> task_id s = tid /\ evidence evs s.
Proof.
  intros H. eapply (apply_events_ind (fun s seen => task_id s = tid /\ evidence seen s) _ []) in H;
    [done| |].
  - split; [done|]. split; cbn; naive_solver.
  - intros s0 seen ev s1 [Hid He] Ha. split; [|by eapply evidence_step].
    by rewrite (acts_task_id s0 ev s1 (apply_event_acts _ _ _ Ha)).
Qed.

Lemma fold_evidence tid evs s :
  fold tid evs = Ok s -> task_id s = tid /\ evidence (py_sorted recorded_le evs) s.
Proof. apply apply_events_evidence. Qed.

(** ** Terminal Tasks and reachability of the end *)

Lemma terminal_step s ev s' :
  status s ∈ TERMINAL -> e_type ev ∉ CREATION_EVENTS -> apply_event s ev = Ok s' ->
  status s' = status s.
Proof.
  intros Hterm Hc Ha%apply_event_acts. destruct Ha; try done;
    match goal with H : transition_get _ _ = Some _ |- _ =>
      by apply transition_not_terminal in H end.
Qed.

(** The status machine alone, as a step function. *)
Definition status_step (s : TaskStatus) (e : string) : option TaskStatus :=
  match next_status s e with Ok t => Some t | Err _ => None end.

(** A shortest way out of every status. *)
Definition way_out (s : TaskStatus) : list string :=
  match s with
  | OPEN | DELEGATED | ACCEPTED | CANCEL_REQUESTED => ["TASK_CANCELLED"]
  | RUNNING | WAITING | IMPLEMENTED | VERIFYING => ["TASK_CANCEL_REQUESTED"; "TASK_CANCELLED"]
  | VERIFIED => ["TASK_COMPLETED"]
  | COMPLETED | CANCELLED => []
  end.

Lemma recorded_le_total a b : recorded_le a b = false -> recorded_le b a = true.
Proof. unfold recorded_le. lia. Qed.
Lemma recorded_le_trans a b c :
  recorded_le a b = true -> recorded_le b c = true -> recorded_le a c = true.
Proof. unfold recorded_le. lia. Qed.

(** * Properties *)

(** No Task is VERIFIED or COMPLETED without an independent verification
    behind it: whatever the Event stream, if the fold ends in one of these
    statuses then the verification status is PASSED and the stream holds both a
    TASK_VERIFICATION_STARTED of this Task and a VERIFICATION_PASSED for it that
    carry the verification id the Task is on. *)
Theorem fold_verified_has_evidence (tid : string) (evs : list Event) (s : TaskState) :
  fold tid evs = Ok s -> status s = VERIFIED \/ status s = COMPLETED ->
  verification_status s = Some "PASSED" /\
  Exists (started_by tid (active_verification_id s)) evs /\
  Exists (passed_by tid (active_verification_id s)) evs.
Proof.
  intros [Hid [_ He]]%fold_evidence Hs. destruct (He Hs) as (Hv & H1 & H2).
  rewrite Hid, py_sorted_perm in H1, H2. done.
Qed.

Definition empty_payload : Payload := {|
  p_root_task_id := None; p_parent_task_id := None; p_channel_id := None; p_title := None;
  p_domain := None; p_risk := None; p_depth := None; p_join_policy := None;
  p_verification_id := None; p_satisfied_children := None; p_assignee_account_id := None;
  p_assignment_revision := None; p_policy_snapshot_hash := None; p_summary := None;
  p_criteria_revision := None |}.

Definition verification_payload (v : string) : Payload := {|
  p_root_task_id := None; p_parent_task_id := None; p_channel_id := None; p_title := None;
  p_domain := None; p_risk := None; p_depth := None; p_join_policy := None;
  p_verification_id := Some v; p_satisfied_children := None; p_assignee_account_id := None;
  p_assignment_revision := None; p_policy_snapshot_hash := None; p_summary := None;
  p_criteria_revision := None |}.

Definition example_event (ty : string) (seq : Z) (p : Payload) : Event := {|
  e_type := ty; e_aggregate_type := Some "task"; e_aggregate_id := Some "t1";
  e_task_id := Some "t1"; e_workspace_id := Some "ws"; e_channel_id := None;
  e_actor_account_id := Some "acc"; e_event_id := None; e_aggregate_seq := Some seq;
  e_recorded_seq := Some seq; e_occurred_at := None; e_payload := p |}.

(** The whole life of a Task, with the Events listed out of order. *)
Definition example_stream : list Event := [
  example_event "VERIFICATION_PASSED" 7 (verification_payload "v1");
  example_event "TASK_CREATED" 1 empty_payload;
  example_event "TASK_DELEGATED" 2 empty_payload;
  example_event "TASK_ACCEPTED" 3 empty_payload;
  example_event "TASK_STARTED" 4 empty_payload;
  example_event "TASK_VERIFICATION_STARTED" 6 (verification_payload "v1");
  example_event "IMPLEMENTATION_SUBMITTED" 5 empty_payload;
  example_event "TASK_COMPLETED" 8 empty_payload].

Definition example_final : TaskState :=
  match fold "t1" example_stream with Ok s => s | Err _ => initial_state "t1" end.

Lemma fold_verified_has_evidence_witness :
  status example_final = COMPLETED /\
  verification_status example_final = Some "PASSED" /\
  Exists (started_by "t1" (active_verification_id example_final)) example_stream /\
  Exists (passed_by "t1" (active_verification_id example_final)) example_stream.
Proof.
  split; [vm_compute; reflexivity|].
  apply (fold_verified_has_evidence "t1" example_stream); [|right]; vm_compute; reflexivity.
Defined.

(** COMPLETED and CANCELLED are final: events that are not creation events
    never change the status of a terminal Task, and an event of the Task's own
    stream that is neither an annotation nor a verification result is refused
    with TASK_TERMINAL. *)
Theorem terminal_is_final (s : TaskState) (evs : list Event) :
  status s ∈ TERMINAL -> Forall (fun ev => e_type ev ∉ CREATION_EVENTS) evs ->
  (forall s', apply_events s evs = Ok s' -> status s' = status s) /\
  (forall ev, e_type ev ∉ CREATION_EVENTS ++ VERIFICATION_RESULT_EVENTS ++ ANNOTATION_EVENTS ->
     exists_ s = true -> e_aggregate_id ev = Some (task_id s) ->
     e_aggregate_type ev = Some "task" -> apply_event s ev = Err "TASK_TERMINAL").
Proof.
  intros Ht Hevs. split.
  - revert s Ht. induction Hevs as [|ev evs Hc _ IH]; intros s Ht s' H; cbn in H; [by simplify_eq|].
    apply res_bind_ok in H as (s1 & H1 & H2). pose proof (terminal_step _ _ _ Ht Hc H1) as Hs.
    rewrite <- Hs. apply IH; [by rewrite Hs|done].
  - intros ev Hty Hex Hid Hat. rewrite !not_elem_of_app in Hty. destruct Hty as (H1 & H2 & H3).
    apply mem_false in H1, H2, H3. apply mem_spec in Ht.
    unfold apply_event. rewrite H1, Hex, H2, H3. cbn.
    rewrite !bool_decide_true by done. cbn. unfold next_status. by rewrite Ht.
Qed.

Lemma terminal_is_final_witness :
  (forall s', apply_events example_final [example_event "TASK_JOIN_SATISFIED" 9 empty_payload] = Ok s' ->
     status s' = COMPLETED) /\
  apply_event example_final (example_event "TASK_CANCELLED" 9 empty_payload) = Err "TASK_TERMINAL".
Proof.
  destruct (terminal_is_final example_final [example_event "TASK_JOIN_SATISFIED" 9 empty_payload])
    as [H1 H2].
  - by apply (bool_decide_unpack _).
  - repeat constructor; by apply (bool_decide_unpack _).
  - split; [exact H1|]. apply H2; [by apply (bool_decide_unpack _)|vm_compute; reflexivity..].
Defined.

(** No Task gets stuck: from every status a sequence of allowed events leads
    to COMPLETED or CANCELLED, and from a terminal status no event is allowed. *)
Theorem every_status_can_end (s : TaskStatus) :
  (exists es t, run_steps status_step s es = Some t /\ t ∈ TERMINAL) /\
  (s ∈ TERMINAL -> forall e, next_status s e = Err "TASK_TERMINAL").
Proof.
  split.
  - exists (way_out s). destruct s; eexists; (split; [reflexivity|]);
      by apply (bool_decide_unpack _).
  - intros Ht e. apply mem_spec in Ht. unfold next_status. by rewrite Ht.
Qed.

Lemma every_status_can_end_witness :
  next_status CANCELLED "TASK_STARTED" = Err "TASK_TERMINAL".
Proof. apply (every_status_can_end CANCELLED). by apply (bool_decide_unpack _). Defined.

(** The fold depends only on the set of recorded events: delivering the
    same events in any other order gives the same state or the same error, as
    long as their recorded sequence numbers differ. *)
Theorem fold_order_independent (tid : string) (evs evs' : list Event) :
  NoDup ((fun e => default 0 (e_recorded_seq e)) <$> evs) -> evs ≡ₚ evs' ->
  fold tid evs = fold tid evs'.
Proof.
  intros Hnd Hp. unfold fold. f_equal.
  eapply strongly_sorted_perm_eq.
  - intros x y Hx Hy H1 H2. rewrite py_sorted_elem in Hx, Hy.
    apply list_elem_of_lookup in Hx as [i Hi], Hy as [j Hj].
    assert (i = j) as <-; [|congruence].
    eapply NoDup_lookup; [exact Hnd|by rewrite list_lookup_fmap, Hi|].
    rewrite list_lookup_fmap, Hj. cbn. f_equal. unfold recorded_le in H1, H2.
    cbn in H1, H2. apply Z.leb_le in H1, H2. by apply Z.le_antisymm.
  - apply py_sorted_sorted; [apply recorded_le_total|apply recorded_le_trans].
  - apply py_sorted_sorted; [apply recorded_le_total|apply recorded_le_trans].
  - by rewrite !py_sorted_perm.
Qed.

Lemma fold_order_independent_witness :
  fold "t1" example_stream = fold "t1" (reverse example_stream).
Proof.
  apply fold_order_independent; [by apply (bool_decide_unpack _)|].
  symmetry. apply reverse_Permutation.
Defined.

(** The completion prerequisites of a folded Task are met exactly when its
    status is VERIFIED and every registered check passes. *)
Theorem completion_prerequisites_spec (tid : string) (evs : list Event) (s : TaskState)
    (checks : list (TaskState -> option string)) :
  fold tid evs = Ok s ->
  completion_prerequisites checks s = [] <->
  status s = VERIFIED /\ Forall (fun check => truthy (check s) = false) checks.
Proof.
  intros [_ [_ He]]%fold_evidence.
  assert (forall cs, omap (fun c : option string => if truthy c then c else None)
            ((fun check : TaskState -> option string => check s) <$> cs) = [] <->
          Forall (fun check => truthy (check s) = false) cs) as Hchecks.
  { induction cs as [|c cs IH]; [done|]. cbn. rewrite Forall_cons, <- IH.
    destruct (truthy (c s)) eqn:Ht; [|naive_solver].
    destruct (c s); [|done]. cbn. naive_solver. }
  unfold completion_prerequisites, _verification_passed. cbn.
  destruct (decide (status s = VERIFIED)) as [Hs|Hs].
  - rewrite bool_decide_true by done. rewrite bool_decide_true by (apply He; auto).
    cbn. rewrite Hchecks. naive_solver.
  - rewrite bool_decide_false by done. cbn. naive_solver.
Qed.

Lemma completion_prerequisites_spec_witness :
  completion_prerequisites [] (match fold "t1" (take 7 example_stream) with
                               | Ok s => s | Err _ => initial_state "t1" end) = [].
Proof.
  apply (completion_prerequisites_spec "t1" (take 7 example_stream)).
  - vm_compute. reflexivity.
  - split; [vm_compute; reflexivity|constructor].
Defined.
