(* ===== verification/WorkState.v ===== *)
(** The work item state machine and timing model of [server/work/state.py]:
    transitions, the pure timing decision [next_action], and the exactly-once
    [ResultLedger]. *)

From S2P Require Import Prelude Defaults.
Open Scope Z_scope.

Inductive WorkItemState :=
| QUEUED | DELIVERED | ACKED | IN_PROGRESS | RESULT_RECEIVED | REJECTED | EXPIRED | CANCELLED.

#[global] Instance WorkItemState_eq_dec : EqDecision WorkItemState.
Proof. solve_decision. Defined.

Definition TERMINAL_STATES : list WorkItemState :=
  [RESULT_RECEIVED; REJECTED; EXPIRED; CANCELLED].

Definition TRANSITIONS : list (WorkItemState * string * WorkItemState) := [
  (QUEUED, "deliver", DELIVERED);
  (QUEUED, "cancel", CANCELLED);
  (QUEUED, "expire", EXPIRED);
  (DELIVERED, "redeliver", DELIVERED);
  (DELIVERED, "ack", ACKED);
  (DELIVERED, "reject", REJECTED);
  (DELIVERED, "expire", EXPIRED);
  (DELIVERED, "cancel", CANCELLED);
  (ACKED, "start", IN_PROGRESS);
  (ACKED, "reject", REJECTED);
  (ACKED, "expire", EXPIRED);
  (ACKED, "cancel", CANCELLED);
  (ACKED, "result", RESULT_RECEIVED);
  (IN_PROGRESS, "result", RESULT_RECEIVED);
  (IN_PROGRESS, "reject", REJECTED);
  (IN_PROGRESS, "expire", EXPIRED);
  (IN_PROGRESS, "cancel", CANCELLED)].

Definition REJECTION_CODES : list string :=
  ["CAPABILITY_UNSUPPORTED"; "CAPACITY"; "POLICY"; "OTHER"].

Definition ASSIGNMENT_KINDS : list string := ["task_assignment"; "subtask_assignment"].

Definition transition_lookup (state : WorkItemState) (action : string) : option WorkItemState :=
  snd <$> find (fun e => bool_decide (e.1 = (state, action))) TRANSITIONS.

Definition transition (state : WorkItemState) (action : string) : res WorkItemState :=
  guard_err (mem state TERMINAL_STATES) "WORK_ITEM_TRANSITION_INVALID" $
  match transition_lookup state action with
  | Some target => Ok target
  | None => Err "WORK_ITEM_TRANSITION_INVALID"
  end.

Inductive NextAction := NONE | REDELIVER | EXPIRE | REROUTE | WAITING.

#[global] Instance NextAction_eq_dec : EqDecision NextAction.
Proof. solve_decision. Defined.

Record TimingDecision := { action : NextAction; reason : string; due_at : option Z }.

Definition decision (a : NextAction) (r : string) (d : option Z) : TimingDecision :=
  {| action := a; reason := r; due_at := d |}.

Definition next_action (state : WorkItemState) (delivered_at acked_at : option Z) (now : Z)
    (delivery_count : Z) (kind : string) (accepted_at : option Z) (reroute_count : Z)
    (deadline : option Z) : res TimingDecision :=
  if mem state TERMINAL_STATES then Ok (decision NONE "terminal" None)
  else if match deadline with Some d => d <=? now | None => false end then
    Ok (decision EXPIRE "DEADLINE_EXCEEDED" None)
  else if bool_decide (state = DELIVERED) then
    match delivered_at with
    | None => Err "WORK_ITEM_TIMING_INVALID"
    | Some at_ =>
        let due := at_ + seconds WORK_ITEM_ACK_TIMEOUT_S in
        Ok (if now <? due then decision NONE "awaiting ack" (Some due)
            else if delivery_count <=? WORK_ITEM_MAX_REDELIVERIES then
              decision REDELIVER "ACK_TIMEOUT redelivery" (Some due)
            else decision EXPIRE "ACK_TIMEOUT_EXHAUSTED" (Some due))
    end
  else if mem state [ACKED; IN_PROGRESS] && mem kind ASSIGNMENT_KINDS then
    match accepted_at, acked_at with
    | Some _, _ => Ok (decision NONE "accepted" None)
    | None, None => Err "WORK_ITEM_TIMING_INVALID"
    | None, Some at_ =>
        let due := at_ + seconds TASK_ASSIGNMENT_ACCEPT_TIMEOUT_S in
        Ok (if now <? due then decision NONE "awaiting accept" (Some due)
            else if reroute_count <? TASK_ASSIGNMENT_REROUTES then
              decision REROUTE "ACCEPT_TIMEOUT" (Some due)
            else decision WAITING "ACCEPT_TIMEOUT_NO_CANDIDATE" (Some due))
    end
  else Ok (decision NONE "no timer" None).

(** ** Exactly-once result acceptance *)

Record ResultReceipt := {
  rr_work_item_id : string;
  rr_accepted : bool;
  rr_code : string;
  rr_first_result_ref : string
}.

Record AuditEntry := {
  au_code : string;
  au_work_item_id : string;
  au_reporter : string;
  au_ignored_result_ref : string;
  au_first_result_ref : string
}.

Record ResultLedger := {
  _results : gmap string string;
  audit : list AuditEntry
}.

Definition empty_ledger : ResultLedger := {| _results := ∅; audit := [] |}.

Definition accept (l : ResultLedger) (work_item_id result_ref reporter : string)
    : ResultLedger * ResultReceipt :=
  match _results l !! work_item_id with
  | Some existing =>
      ({| _results := _results l;
          audit := audit l ++ [{| au_code := "DUPLICATE_RESULT_IGNORED";
                                  au_work_item_id := work_item_id; au_reporter := reporter;
                                  au_ignored_result_ref := result_ref;
                                  au_first_result_ref := existing |}] |},
       {| rr_work_item_id := work_item_id; rr_accepted := false;
          rr_code := "DUPLICATE_RESULT_IGNORED"; rr_first_result_ref := existing |})
  | None =>
      ({| _results := <[work_item_id := result_ref]> (_results l); audit := audit l |},
       {| rr_work_item_id := work_item_id; rr_accepted := true; rr_code := "RESULT_ACCEPTED";
          rr_first_result_ref := result_ref |})
  end.

Definition result_of (l : ResultLedger) (work_item_id : string) : option string :=
  _results l !! work_item_id.

(** * Lemmas *)

#[local] Arguments transition_lookup : simpl never.

Lemma transition_lookup_elem s a t :
  transition_lookup s a = Some t -> (s, a, t) ∈ TRANSITIONS.
Proof.
  unfold transition_lookup. destruct (find _ _) as [[[s' a'] t']|] eqn:Hf; [|done].
  intros [= <-]. apply find_some in Hf as [Hin Heq].
  apply bool_decide_eq_true in Heq. simplify_eq/=. by apply list_elem_of_In.
Qed.

Ltac work_transition_cases H :=
  apply transition_lookup_elem in H; unfold TRANSITIONS in H;
  repeat (apply elem_of_cons in H as [H|H]; [simplify_eq|]);
  [..|by apply elem_of_nil in H].

Lemma transition_ok s a t :
  transition s a = Ok t <-> s ∉ TERMINAL_STATES /\ transition_lookup s a = Some t.
Proof.
  unfold transition. rewrite guard_err_ok, mem_false.
  destruct (transition_lookup s a); naive_solver.
Qed.

Lemma transition_lookup_open s a t : transition_lookup s a = Some t -> s ∉ TERMINAL_STATES.
Proof. intros H. work_transition_cases H; by apply (bool_decide_unpack _). Qed.

Lemma transition_ok_elem s a t : transition s a = Ok t -> (s, a, t) ∈ TRANSITIONS.
Proof. intros [_ H]%transition_ok. by apply transition_lookup_elem. Qed.

(** A history of reported results. *)
Definition accept_all (l : ResultLedger) (reports : list (string * string * string))
    : ResultLedger :=
  foldl (fun l r => fst (accept l r.1.1 r.1.2 r.2)) l reports.

Lemma accept_keeps l w ref rep w' r :
  _results l !! w' = Some r -> _results (fst (accept l w ref rep)) !! w' = Some r.
Proof.
  intros H. unfold accept. destruct (_results l !! w) eqn:E; cbn; [done|].
  rewrite lookup_insert_ne; [done|]. congruence.
Qed.

Lemma accept_all_keeps l reports w r :
  _results l !! w = Some r -> _results (accept_all l reports) !! w = Some r.
Proof.
  revert l. induction reports as [|x reports IH]; intros l H; [done|].
  apply IH, accept_keeps, H.
Qed.

(** The first reported result of a work item. *)
Definition first_report (w : string) (reports : list (string * string * string)) : option string :=
  (fun r => r.1.2) <$> find (fun r => String.eqb r.1.1 w) reports.

Lemma accept_all_first l reports w :
  _results l !! w = None -> _results (accept_all l reports) !! w = first_report w reports.
Proof.
  unfold first_report.
  revert l. induction reports as [|[[w' ref] rep] reports IH]; intros l H; [done|].
  cbn [find accept_all foldl fst snd]. destruct (String.eqb_spec w' w) as [->|Hne].
  - apply accept_all_keeps. unfold accept. rewrite H. cbn. apply lookup_insert_eq.
  - apply IH. unfold accept. destruct (_results l !! w'); cbn; [done|].
    by rewrite lookup_insert_ne.
Qed.

Lemma accept_all_audit_length l reports :
  (length (audit (accept_all l reports)) + size (_results (accept_all l reports)) =
   length (audit l) + size (_results l) + length reports)%nat.
Proof.
  revert l. induction reports as [|[[w ref] rep] reports IH]; intros l; [cbn; lia|].
  change (accept_all l ((w, ref, rep) :: reports))
    with (accept_all (fst (accept l w ref rep)) reports).
  rewrite IH. unfold accept. destruct (_results l !! w) eqn:E; cbn.
  - rewrite length_app. cbn. lia.
  - rewrite map_size_insert_None by done. lia.
Qed.

(** * Properties *)

(** Results are accepted exactly once: after any sequence of reports, the
    result of a work item is the one reported first, every other report of the
    sequence left one audit entry, and nothing else did. *)
Theorem ledger_exactly_once (reports : list (string * string * string)) :
  (forall w, result_of (accept_all empty_ledger reports) w = first_report w reports) /\
  (length (audit (accept_all empty_ledger reports)) +
   size (_results (accept_all empty_ledger reports)) = length reports)%nat.
Proof.
  split.
  - intros w. by apply accept_all_first.
  - by rewrite accept_all_audit_length.
Qed.

(** The timing decision never fails on a row the inbox writes, which has the
    timestamps of its state. *)
Definition timed (state : WorkItemState) (delivered_at acked_at : option Z) : Prop :=
  (state = DELIVERED -> is_Some delivered_at) /\
  (state = ACKED \/ state = IN_PROGRESS -> is_Some acked_at).

(** [t] seconds after the instant [since] have passed at [now]. *)
Definition elapsed (since : option Z) (t now : Z) : Prop :=
  exists s, since = Some s /\ s + seconds t <= now.

Definition past_deadline (deadline : option Z) (now : Z) : Prop :=
  exists d, deadline = Some d /\ d <= now.

(** The action the timing rules of the plan prescribe, as a relation. *)
Inductive prescribed (state : WorkItemState) (delivered_at acked_at : option Z) (now : Z)
    (delivery_count : Z) (kind : string) (accepted_at : option Z) (reroute_count : Z)
    (deadline : option Z) : NextAction -> Prop :=
| pr_deadline :
    state ∉ TERMINAL_STATES -> past_deadline deadline now ->
    prescribed state delivered_at acked_at now delivery_count kind accepted_at reroute_count
      deadline EXPIRE
| pr_redeliver :
    state = DELIVERED -> ~ past_deadline deadline now -> elapsed delivered_at 60 now ->
    delivery_count <= 3 ->
    prescribed state delivered_at acked_at now delivery_count kind accepted_at reroute_count
      deadline REDELIVER
| pr_exhausted :
    state = DELIVERED -> ~ past_deadline deadline now -> elapsed delivered_at 60 now ->
    3 < delivery_count ->
    prescribed state delivered_at acked_at now delivery_count kind accepted_at reroute_count
      deadline EXPIRE
| pr_reroute :
    state = ACKED \/ state = IN_PROGRESS -> ~ past_deadline deadline now ->
    kind ∈ ASSIGNMENT_KINDS -> accepted_at = None -> elapsed acked_at 120 now ->
    reroute_count < 1 ->
    prescribed state delivered_at acked_at now delivery_count kind accepted_at reroute_count
      deadline REROUTE
| pr_waiting :
    state = ACKED \/ state = IN_PROGRESS -> ~ past_deadline deadline now ->
    kind ∈ ASSIGNMENT_KINDS -> accepted_at = None -> elapsed acked_at 120 now ->
    1 <= reroute_count ->
    prescribed state delivered_at acked_at now delivery_count kind accepted_at reroute_count
      deadline WAITING.

Lemma past_deadline_dec deadline now :
  match deadline with Some d => d <=? now | None => false end = true <->
  past_deadline deadline now.
Proof.
  unfold past_deadline. destruct deadline; [rewrite Z.leb_le|]; naive_solver.
Qed.

(** A decision that takes exactly the prescribed actions. *)
Definition takes (d : TimingDecision) (pr : NextAction -> Prop) : Prop :=
  forall a, pr a <-> action d = a /\ a <> NONE.

(** The timers, as the boolean test of the code against the due instant. *)
Lemma elapsed_iff t n now : elapsed (Some t) n now <-> (now <? t + seconds n) = false.
Proof. unfold elapsed. rewrite Z.ltb_ge. naive_solver. Qed.

Lemma prescribed_delivered t acked_at now n kind accepted_at rc deadline :
  ~ past_deadline deadline now ->
  takes (if now <? t + seconds WORK_ITEM_ACK_TIMEOUT_S then
           decision NONE "awaiting ack" (Some (t + seconds WORK_ITEM_ACK_TIMEOUT_S))
         else if n <=? WORK_ITEM_MAX_REDELIVERIES then
           decision REDELIVER "ACK_TIMEOUT redelivery" (Some (t + seconds WORK_ITEM_ACK_TIMEOUT_S))
         else decision EXPIRE "ACK_TIMEOUT_EXHAUSTED" (Some (t + seconds WORK_ITEM_ACK_TIMEOUT_S)))
    (prescribed DELIVERED (Some t) acked_at now n kind accepted_at rc deadline).
Proof.
  intros Hnd a. unfold WORK_ITEM_ACK_TIMEOUT_S, WORK_ITEM_MAX_REDELIVERIES.
  pose proof (elapsed_iff t 60 now) as He. split.
  - destruct 1; try naive_solver; rewrite (proj1 He) by done; cbn;
      destruct (Z.leb_spec n 3); naive_solver lia.
  - destruct (now <? _); [naive_solver|]. destruct (Z.leb_spec n 3); intros [<- _].
    + apply pr_redeliver; naive_solver.
    + apply pr_exhausted; naive_solver.
Qed.

Lemma prescribed_assignment state delivered_at t now n kind rc deadline :
  ~ past_deadline deadline now -> state = ACKED \/ state = IN_PROGRESS ->
  kind ∈ ASSIGNMENT_KINDS ->
  takes (if now <? t + seconds TASK_ASSIGNMENT_ACCEPT_TIMEOUT_S then
           decision NONE "awaiting accept" (Some (t + seconds TASK_ASSIGNMENT_ACCEPT_TIMEOUT_S))
         else if rc <? TASK_ASSIGNMENT_REROUTES then
           decision REROUTE "ACCEPT_TIMEOUT" (Some (t + seconds TASK_ASSIGNMENT_ACCEPT_TIMEOUT_S))
         else decision WAITING "ACCEPT_TIMEOUT_NO_CANDIDATE"
                (Some (t + seconds TASK_ASSIGNMENT_ACCEPT_TIMEOUT_S)))
    (prescribed state delivered_at (Some t) now n kind None rc deadline).
Proof.
  intros Hnd Hst Hk a. unfold TASK_ASSIGNMENT_ACCEPT_TIMEOUT_S, TASK_ASSIGNMENT_REROUTES.
  pose proof (elapsed_iff t 120 now) as He. split.
  - destruct 1; try naive_solver; rewrite (proj1 He) by done; cbn;
      destruct (Z.ltb_spec rc 1); naive_solver lia.
  - destruct (now <? _); [naive_solver|]. destruct (Z.ltb_spec rc 1); intros [<- _].
    + apply pr_reroute; naive_solver.
    + apply pr_waiting; naive_solver.
Qed.

Lemma prescribed_terminal state delivered_at acked_at now n kind accepted_at rc deadline a :
  state ∈ TERMINAL_STATES ->
  ~ prescribed state delivered_at acked_at now n kind accepted_at rc deadline a.
Proof.
  intros Ht H. destruct H; subst; try done;
    repeat match goal with H : _ \/ _ |- _ => destruct H; subst end;
    by apply (bool_decide_unpack (~ _)) in Ht.
Qed.

Lemma mem_acked state : mem state [ACKED; IN_PROGRESS] = true <-> state = ACKED \/ state = IN_PROGRESS.
Proof. by rewrite mem_spec, elem_of_cons, list_elem_of_singleton. Qed.

(** The timing model decides what the plan prescribes: on a row with the
    timestamps of its state [next_action] always returns, it returns NONE exactly
    when no rule applies, and any other action exactly when the rule for it does:
    deadline first, then the 60 s ack timeout with at most 3 redeliveries, then
    the 120 s accept timeout of assignments with one re-route. *)
Theorem next_action_prescribed (state : WorkItemState) (delivered_at acked_at : option Z)
    (now delivery_count : Z) (kind : string) (accepted_at : option Z) (reroute_count : Z)
    (deadline : option Z) :
  timed state delivered_at acked_at ->
  exists d, next_action state delivered_at acked_at now delivery_count kind accepted_at
              reroute_count deadline = Ok d /\
    takes d (prescribed state delivered_at acked_at now delivery_count kind accepted_at
               reroute_count deadline).
Proof.
  intros [Hdel Hack]. unfold next_action.
  destruct (mem state TERMINAL_STATES) eqn:Hterm.
  { apply mem_spec in Hterm. eexists; split; [done|]. intros a. split; [|naive_solver].
    by intros ?%prescribed_terminal. }
  apply mem_false in Hterm. pose proof (past_deadline_dec deadline now) as Hpd.
  destruct (match deadline with Some d => d <=? now | None => false end).
  { eexists; split; [done|]. intros a. split; [destruct 1; naive_solver|].
    intros [<- _]. constructor; naive_solver. }
  assert (~ past_deadline deadline now) as Hnd by naive_solver. clear Hpd.
  case_bool_decide as Hs; [subst|].
  { destruct (Hdel eq_refl) as [t ->]. eexists; split; [done|]. by apply prescribed_delivered. }
  destruct (mem state [ACKED; IN_PROGRESS] && mem kind ASSIGNMENT_KINDS) eqn:Hass.
  - apply andb_true_iff in Hass as [Hst%mem_acked Hk%mem_spec].
    destruct accepted_at as [at_|].
    { eexists; split; [done|]. intros a. split; [destruct 1; naive_solver|naive_solver]. }
    destruct (Hack Hst) as [t ->]. eexists; split; [done|]. by apply prescribed_assignment.
  - rewrite andb_false_iff, <- !not_true_iff_false, mem_acked, mem_spec in Hass.
    eexists; split; [done|]. intros a. split; [destruct 1; naive_solver|naive_solver].
Qed.

Lemma next_action_prescribed_witness :
  exists d, next_action DELIVERED (Some 0) None (seconds 60) 3 "invoke" None 0 None = Ok d /\
    takes d (prescribed DELIVERED (Some 0) None (seconds 60) 3 "invoke" None 0 None).
Proof.
  apply (next_action_prescribed DELIVERED (Some 0)).
  split; [eauto|intros [?|?]; discriminate].
Defined.
