(* ===== verification/Canonical.v ===== *)
(** RFC 8785 canonical JSON as [server/events/canonical.py] writes it: string
    escaping, ECMAScript number formatting, key order by UTF-16 code units, and
    the UTF-8 bytes of the result. A Python [str] is the list of its code points;
    a [dict] is the list of its entries in insertion order. *)

From S2P Require Import Prelude.
From Stdlib Require Import DecimalN.
Open Scope N_scope.

Notation ustr := (list N).

(** A [float] as [repr(abs(value))] shows it: sign, the digits before and after
    the point and the exponent; NaN and the infinities apart. *)
Inductive pyfloat : Type :=
| FNonFinite
| FFinite (neg : bool) (int_part frac_part : list N) (exp_part : option Z).

Inductive json : Type :=
| JNull
| JBool (b : bool)
| JInt (z : Z)
| JFloat (f : pyfloat)
| JStr (s : ustr)
| JArr (l : list json)
| JObj (l : list (ustr * json)).

(** Code points of an ASCII literal. *)
Fixpoint lit (s : string) : ustr :=
  match s with
  | EmptyString => []
  | String c s => N_of_ascii c :: lit s
  end.

Definition ESCAPES : list (N * ustr) := [
  (8, lit "\b"); (9, lit "\t"); (10, lit "\n"); (12, lit "\f"); (13, lit "\r");
  (34, [92; 34]); (92, [92; 92])].

Definition hex_digit (d : N) : N := if d <? 10 then 48 + d else 87 + d.

Definition escape_char (ch : N) : ustr :=
  match find (fun e => e.1 =? ch) ESCAPES with
  | Some e => e.2
  | None => if ch <? 32 then lit "\u00" ++ [hex_digit (ch / 16); hex_digit (ch mod 16)]
            else [ch]
  end.

Definition _escape_string (value : ustr) : ustr :=
  [34] ++ concat (escape_char <$> value) ++ [34].

(** ** Numbers *)

Fixpoint uint_chars (u : Decimal.uint) : ustr :=
  match u with
  | Decimal.Nil => []
  | Decimal.D0 u => 48 :: uint_chars u | Decimal.D1 u => 49 :: uint_chars u
  | Decimal.D2 u => 50 :: uint_chars u | Decimal.D3 u => 51 :: uint_chars u
  | Decimal.D4 u => 52 :: uint_chars u | Decimal.D5 u => 53 :: uint_chars u
  | Decimal.D6 u => 54 :: uint_chars u | Decimal.D7 u => 55 :: uint_chars u
  | Decimal.D8 u => 56 :: uint_chars u | Decimal.D9 u => 57 :: uint_chars u
  end.

(** [str(n)] *)
Definition str_int (z : Z) : ustr :=
  if (z <? 0)%Z then 45 :: uint_chars (N.to_uint (Z.abs_N z))
  else uint_chars (N.to_uint (Z.abs_N z)).

Fixpoint lstrip_zeros (ds : list N) : list N :=
  match ds with
  | d :: ds' => if d =? 0 then lstrip_zeros ds' else ds
  | [] => []
  end.

Definition rstrip_zeros (ds : list N) : list N := reverse (lstrip_zeros (reverse ds)).

Definition digit_chars (ds : list N) : ustr := (fun d => 48 + d) <$> ds.
Definition zeros (n : Z) : ustr := replicate (Z.to_nat n) 48.

Definition _es6_number (value : pyfloat) : res ustr :=
  match value with
  | FNonFinite => Err "CanonicalizationError"
  | FFinite neg int_part frac_part exp_part =>
      if forallb (fun d => d =? 0) (int_part ++ frac_part) then Ok (lit "0") else
      let sign := if neg then lit "-" else [] in
      let exp := default 0%Z exp_part in
      let stripped := lstrip_zeros frac_part in
      let '(n, digits) :=
        if bool_decide (int_part = [0]) then
          ((- (Z.of_nat (length frac_part) - Z.of_nat (length stripped)) + exp)%Z, stripped)
        else ((Z.of_nat (length int_part) + exp)%Z, lstrip_zeros (int_part ++ frac_part)) in
      let digits := match rstrip_zeros digits with [] => [0] | ds => ds end in
      let k := Z.of_nat (length digits) in
      if ((k <=? n) && (n <=? 21))%Z then Ok (sign ++ digit_chars digits ++ zeros (n - k))
      else if ((0 <? n) && (n <=? 21))%Z then
        Ok (sign ++ digit_chars (take (Z.to_nat n) digits) ++ lit "." ++
            digit_chars (drop (Z.to_nat n) digits))
      else if ((-6 <? n) && (n <=? 0))%Z then
        Ok (sign ++ lit "0." ++ zeros (- n) ++ digit_chars digits)
      else
        let e := (n - 1)%Z in
        let exp_text := lit "e" ++ (if (0 <=? e)%Z then lit "+" else lit "-") ++ str_int (Z.abs e) in
        if (k =? 1)%Z then Ok (sign ++ digit_chars digits ++ exp_text)
        else Ok (sign ++ digit_chars (take 1 digits) ++ lit "." ++
                 digit_chars (drop 1 digits) ++ exp_text)
  end.

(** ** Encodings *)

Definition surrogate (c : N) : bool := (55296 <=? c) && (c <=? 57343).
Definition code_point (c : N) : bool := (c <? 1114112) && negb (surrogate c).

(** [c.encode("utf-16-be")], as two bytes per code unit. *)
Definition utf16_char (c : N) : list N :=
  if c <? 65536 then [c / 256; c mod 256]
  else
    let c' := c - 65536 in
    let hi := 55296 + c' / 1024 in
    let lo := 56320 + c' mod 1024 in
    [hi / 256; hi mod 256; lo / 256; lo mod 256].

Definition utf16_be (s : ustr) : list N := concat (utf16_char <$> s).

Definition utf8_char (c : N) : list N :=
  if c <? 128 then [c]
  else if c <? 2048 then [192 + c / 64; 128 + c mod 64]
  else if c <? 65536 then [224 + c / 4096; 128 + (c / 64) mod 64; 128 + c mod 64]
  else [240 + c / 262144; 128 + (c / 4096) mod 64; 128 + (c / 64) mod 64; 128 + c mod 64].

(** [s.encode("utf-8")]: a lone surrogate raises. *)
Definition utf8 (s : ustr) : res (list N) :=
  if forallb code_point s then Ok (concat (utf8_char <$> s)) else Err "UnicodeEncodeError".

(** Comparison of byte strings. *)
Fixpoint bytes_leb (a b : list N) : bool :=
  match a, b with
  | [], _ => true
  | _ :: _, [] => false
  | x :: a, y :: b => if x <? y then true else if x =? y then bytes_leb a b else false
  end.

Definition key_leb (a b : ustr * json) : bool := bytes_leb (utf16_be a.1) (utf16_be b.1).

(** ** Serialization *)

(** The entries of every object in the order [_serialize] visits them. *)
Fixpoint sort_keys (v : json) : json :=
  match v with
  | JArr l => JArr (sort_keys <$> l)
  | JObj l => JObj (py_sorted key_leb ((fun e => (e.1, sort_keys e.2)) <$> l))
  | v => v
  end.

(** The text of a value whose entries are in visiting order. The keys of an
    object are encoded (for the sort) before any entry is written. *)
Fixpoint render (v : json) : res ustr :=
  match v with
  | JNull => Ok (lit "null")
  | JBool true => Ok (lit "true")
  | JBool false => Ok (lit "false")
  | JInt z => Ok (str_int z)
  | JFloat f => _es6_number f
  | JStr s => Ok (_escape_string s)
  | JArr l =>
      body ← (fix items (first : bool) (l : list json) : res ustr :=
        match l with
        | [] => Ok [93]
        | x :: xs =>
            a ← render x; b ← items false xs;
            Ok ((if first then [] else [44]) ++ a ++ b)
        end) true l;
      Ok (91 :: body)
  | JObj l =>
      if negb (forallb (fun e : ustr * json => forallb code_point e.1) l)
      then Err "UnicodeEncodeError" else
      body ← (fix entries (first : bool) (l : list (ustr * json)) : res ustr :=
        match l with
        | [] => Ok [125]
        | (k, x) :: xs =>
            a ← render x; b ← entries false xs;
            Ok ((if first then [] else [44]) ++ _escape_string k ++ [58] ++ a ++ b)
        end) true l;
      Ok (123 :: body)
  end.

Definition _serialize (v : json) : res ustr := render (sort_keys v).

Definition canonical_json (v : json) : res (list N) := _serialize v ≫= utf8.

(** The bytes of a result as an ASCII string, the double quote shown as the
    single one. *)
Definition ascii_bytes (r : res (list N)) : string :=
  match r with
  | Ok l => foldr (fun n s => String (ascii_of_N (if n =? 34 then 39 else n)) s) EmptyString l
  | Err e => e
  end.

Example canonical_example :
  ascii_bytes (canonical_json (JObj [
    (lit "b", JArr [JInt (-12); JNull; JBool true]);
    (lit "a", JStr (lit "x/y" ++ [10; 34; 1]));
    ([], JObj []);
    (lit "f", JFloat (FFinite true [1; 2] [5; 0] None));
    (lit "g", JFloat (FFinite false [1] [] (Some 21%Z)));
    (lit "h", JFloat (FFinite false [0] [0; 0; 1; 2] None));
    (lit "i", JFloat (FFinite false [1] [5] (Some (-7)%Z)))]))
  = "{'':{},'a':'x/y\n\'\u0001','b':[-12,null,true],'f':-12.5,'g':1e+21,'h':0.0012,'i':1.5e-7}".
Proof. vm_compute. reflexivity. Qed.

(** * Lemmas *)

#[local] Arguments _escape_string : simpl never.
#[local] Arguments str_int : simpl never.

Lemma json_nested_ind (P : json -> Prop) :
  P JNull -> (forall b, P (JBool b)) -> (forall z, P (JInt z)) -> (forall f, P (JFloat f)) ->
  (forall s, P (JStr s)) -> (forall l, Forall P l -> P (JArr l)) ->
  (forall l, Forall (fun e => P e.2) l -> P (JObj l)) -> forall v, P v.
Proof.
  intros H1 H2 H3 H4 H5 H6 H7. fix IH 1.
  intros [|b|z|f|s|l|l]; [exact H1|exact (H2 b)|exact (H3 z)|exact (H4 f)|exact (H5 s)| |].
  - apply H6. induction l as [|x l IHl]; constructor; [apply IH|exact IHl].
  - apply H7. induction l as [|[k x] l IHl]; constructor; [apply IH|exact IHl].
Qed.

(** ** Digits *)

Lemma uint_chars_digits u : Forall (fun c => 48 <= c <= 57) (uint_chars u).
Proof. induction u; cbn; constructor; (lia || done). Qed.

Lemma uint_chars_inj u u' : uint_chars u = uint_chars u' -> u = u'.
Proof.
  revert u'. induction u; intros [] H; cbn in H; try discriminate; try done;
    injection H as H; f_equal; auto.
Qed.

Lemma uint_chars_nonempty n : uint_chars (N.to_uint n) <> [].
Proof.
  intros H. change [] with (uint_chars Decimal.Nil) in H. apply uint_chars_inj in H.
  pose proof (DecimalN.Unsigned.of_to n) as Hr. rewrite H in Hr. cbn in Hr. subst n. done.
Qed.

Lemma to_uint_inj n m : N.to_uint n = N.to_uint m -> n = m.
Proof. intros H. rewrite <- (DecimalN.Unsigned.of_to n), H. apply DecimalN.Unsigned.of_to. Qed.

(** A continuation that cannot extend a number. *)
Definition no_digit (r : ustr) : Prop :=
  match r with c :: _ => ~ (48 <= c <= 57) | [] => True end.

Lemma digits_prefix_free (a b r1 r2 : ustr) :
  Forall (fun c => 48 <= c <= 57) a -> Forall (fun c => 48 <= c <= 57) b ->
  no_digit r1 -> no_digit r2 -> a ++ r1 = b ++ r2 -> a = b /\ r1 = r2.
Proof.
  revert b. induction a as [|c a IH]; intros [|d b] Ha Hb H1 H2 H; cbn in H.
  - done.
  - subst r1. inversion Hb; subst. by destruct H1.
  - subst r2. inversion Ha; subst. by destruct H2.
  - injection H as -> H. inversion Ha; inversion Hb; subst.
    destruct (IH b) as [-> ->]; done.
Qed.

Lemma str_int_prefix_free z z' r1 r2 :
  no_digit r1 -> no_digit r2 -> str_int z ++ r1 = str_int z' ++ r2 -> z = z' /\ r1 = r2.
Proof.
  intros H1 H2 H. unfold str_int in H.
  pose proof (uint_chars_digits (N.to_uint (Z.abs_N z))) as Hd.
  pose proof (uint_chars_digits (N.to_uint (Z.abs_N z'))) as Hd'.
  pose proof (uint_chars_nonempty (Z.abs_N z)) as Hne.
  pose proof (uint_chars_nonempty (Z.abs_N z')) as Hne'.
  assert (forall (a b : ustr), a <> [] -> Forall (fun c => 48 <= c <= 57) a ->
            45 :: b ++ r2 = a ++ r1 -> False) as Hs1.
  { intros [|c a] b Hnil Ha; [done|]. intros [= <- _]. inversion Ha; lia. }
  assert (forall (a b : ustr), a <> [] -> Forall (fun c => 48 <= c <= 57) a ->
            45 :: b ++ r1 = a ++ r2 -> False) as Hs2.
  { intros [|c a] b Hnil Ha; [done|]. intros [= <- _]. inversion Ha; lia. }
  destruct (z <? 0)%Z eqn:Ez, (z' <? 0)%Z eqn:Ez'; cbn in H.
  - injection H as H. destruct (digits_prefix_free _ _ _ _ Hd Hd' H1 H2 H) as [Hu ->].
    apply uint_chars_inj, to_uint_inj in Hu. split; [lia|done].
  - destruct (Hs2 _ _ Hne' Hd' H).
  - destruct (Hs1 _ _ Hne Hd (eq_sym H)).
  - destruct (digits_prefix_free _ _ _ _ Hd Hd' H1 H2 H) as [Hu ->].
    apply uint_chars_inj, to_uint_inj in Hu. split; [lia|done].
Qed.

Lemma str_int_head z : exists c t, str_int z = c :: t /\ (c = 45 \/ 48 <= c <= 57).
Proof.
  unfold str_int. pose proof (uint_chars_digits (N.to_uint (Z.abs_N z))) as Hd.
  pose proof (uint_chars_nonempty (Z.abs_N z)) as Hne.
  destruct (z <? 0)%Z; [by eauto|].
  destruct (uint_chars _) as [|c t]; [done|]. inversion Hd; subst. eauto.
Qed.

(** ** Strings *)

Lemma escape_char_cases ch :
  (exists e, e ∈ ESCAPES /\ e.1 = ch /\ escape_char ch = e.2) \/
  (ch < 32 /\ escape_char ch = [92; 117; 48; 48; hex_digit (ch / 16); hex_digit (ch mod 16)]) \/
  (ch <> 34 /\ ch <> 92 /\ escape_char ch = [ch]).
Proof.
  unfold escape_char. destruct (find _ ESCAPES) as [e|] eqn:Hf.
  - left. apply find_some in Hf as [Hin Heq]. exists e.
    rewrite list_elem_of_In. split_and!; [done|by apply N.eqb_eq|done].
  - right. destruct (N.ltb_spec ch 32); [left; done|right].
    split_and!; [intros ->; by vm_compute in Hf|intros ->; by vm_compute in Hf|done].
Qed.

Lemma hex_digit_inj a b : a < 16 -> b < 16 -> hex_digit a = hex_digit b -> a = b.
Proof.
  unfold hex_digit. destruct (N.ltb_spec a 10), (N.ltb_spec b 10); lia.
Qed.

Lemma escape_char_prefix_free c1 c2 (t1 t2 : ustr) :
  escape_char c1 ++ t1 = escape_char c2 ++ t2 -> c1 = c2 /\ t1 = t2.
Proof.
  intros H. unfold ESCAPES in *.
  destruct (escape_char_cases c1) as [(e1 & Hin1 & <- & E1)|[[Hl1 E1]|(Hq1 & Hb1 & E1)]];
  destruct (escape_char_cases c2) as [(e2 & Hin2 & <- & E2)|[[Hl2 E2]|(Hq2 & Hb2 & E2)]];
  rewrite E1, E2 in H; clear E1 E2; unfold ESCAPES in *;
  repeat match goal with
  | Hin : _ ∈ _ :: _ |- _ => apply elem_of_cons in Hin as [->|Hin]
  | Hin : _ ∈ [] |- _ => by apply elem_of_nil in Hin
  end; cbn in H; try (by simplify_eq); try (injection H as H; subst; lia).
  injection H as H1 H2 H3. split; [|done].
  apply hex_digit_inj in H1; [|apply N.Div0.div_lt_upper_bound; lia..].
  apply hex_digit_inj in H2; [|apply N.mod_lt; lia..].
  rewrite (N.div_mod c1 16), (N.div_mod c2 16) by lia. congruence.
Qed.

Lemma escape_char_not_quote c : exists x xs, escape_char c = x :: xs /\ x <> 34.
Proof.
  destruct (escape_char_cases c) as [(e & Hin & _ & ->)|[[_ ->]|(? & _ & ->)]]; [|by eauto..].
  unfold ESCAPES in Hin.
  repeat (apply elem_of_cons in Hin as [->|Hin]; [cbn; eexists _, _; split; [reflexivity|done]|]).
  by apply elem_of_nil in Hin.
Qed.

Lemma escape_body_prefix_free (s1 s2 r1 r2 : ustr) :
  concat (escape_char <$> s1) ++ 34 :: r1 = concat (escape_char <$> s2) ++ 34 :: r2 ->
  s1 = s2 /\ r1 = r2.
Proof.
  revert s2. induction s1 as [|c1 s1 IH]; intros [|c2 s2] H; cbn in H; rewrite <- ?app_assoc in H.
  - by simplify_eq.
  - destruct (escape_char_not_quote c2) as (x & xs & E & Hx). rewrite E in H. cbn in H. congruence.
  - destruct (escape_char_not_quote c1) as (x & xs & E & Hx). rewrite E in H. cbn in H. congruence.
  - apply escape_char_prefix_free in H as [-> H]. apply IH in H as [-> ->]. done.
Qed.

Lemma escape_string_prefix_free (s1 s2 r1 r2 : ustr) :
  _escape_string s1 ++ r1 = _escape_string s2 ++ r2 -> s1 = s2 /\ r1 = r2.
Proof.
  unfold _escape_string. cbn. intros [= H]. rewrite <- !app_assoc in H. cbn in H.
  by apply escape_body_prefix_free.
Qed.

Lemma escape_string_head s : exists t, _escape_string s = 34 :: t.
Proof. unfold _escape_string. cbn. eauto. Qed.

(** ** Values *)

#[local] Opaque _escape_string str_int.

Fixpoint render_items (first : bool) (l : list json) : res ustr :=
  match l with
  | [] => Ok [93]
  | x :: xs =>
      a ← render x; b ← render_items false xs;
      Ok ((if first then [] else [44]) ++ a ++ b)
  end.

Fixpoint render_entries (first : bool) (l : list (ustr * json)) : res ustr :=
  match l with
  | [] => Ok [125]
  | (k, x) :: xs =>
      a ← render x; b ← render_entries false xs;
      Ok ((if first then [] else [44]) ++ _escape_string k ++ [58] ++ a ++ b)
  end.

Lemma render_arr l : render (JArr l) = (body ← render_items true l; Ok (91 :: body)).
Proof. reflexivity. Qed.

Lemma render_obj l a :
  render (JObj l) = Ok a ->
  forallb (fun e : ustr * json => forallb code_point e.1) l = true /\
  exists body, render_entries true l = Ok body /\ a = 123 :: body.
Proof.
  change (render (JObj l)) with
    (if negb (forallb (fun e : ustr * json => forallb code_point e.1) l)
     then Err "UnicodeEncodeError" else (body ← render_entries true l; Ok (123 :: body))).
  destruct (forallb _ l); [|done]. cbn.
  intros (body & Hb & [= <-])%res_bind_ok. eauto.
Qed.

(** Documents without floating-point numbers: 1 and 1.0 have the same text. *)
Fixpoint no_floats (v : json) : bool :=
  match v with
  | JFloat _ => false
  | JArr l => forallb no_floats l
  | JObj l => forallb (fun e => no_floats e.2) l
  | _ => true
  end.

Definition head_of (v : json) (c : N) : Prop :=
  match v with
  | JNull => c = 110
  | JBool b => c = if b then 116 else 102
  | JInt _ => c = 45 \/ 48 <= c <= 57
  | JFloat _ => False
  | JStr _ => c = 34
  | JArr _ => c = 91
  | JObj _ => c = 123
  end.

Lemma render_head v a :
  no_floats v = true -> render v = Ok a -> exists c t, a = c :: t /\ head_of v c.
Proof.
  intros Hf H. destruct v as [|[]|z|f|s|l|l]; try done.
  - injection H as <-. by eexists _, _.
  - injection H as <-. by eexists _, _.
  - injection H as <-. by eexists _, _.
  - injection H as <-. apply str_int_head.
  - injection H as <-. destruct (escape_string_head s) as [t ->]. by eexists _, _.
  - rewrite render_arr in H. apply res_bind_ok in H as (b & _ & [= <-]). by eexists _, _.
  - apply render_obj in H as (_ & b & _ & ->). by eexists _, _.
Qed.

Definition prefix_free (v : json) : Prop :=
  forall w a b r1 r2, no_floats v = true -> no_floats w = true ->
    render v = Ok a -> render w = Ok b -> no_digit r1 -> no_digit r2 ->
    a ++ r1 = b ++ r2 -> v = w /\ r1 = r2.

(** What follows an element of an array or an object: a comma or the closer. *)
Lemma render_items_head l b : render_items false l = Ok b ->
  exists c t, b = c :: t /\ (c = 44 \/ c = 93).
Proof.
  destruct l; cbn; [intros [= <-]; eauto|].
  intros (? & _ & H)%res_bind_ok. apply res_bind_ok in H as (? & _ & [= <-]). eauto.
Qed.

Lemma render_entries_head l b : render_entries false l = Ok b ->
  exists c t, b = c :: t /\ (c = 44 \/ c = 125).
Proof.
  destruct l as [|[k x] l]; cbn; [intros [= <-]; eauto|].
  intros (? & _ & H)%res_bind_ok. apply res_bind_ok in H as (? & _ & [= <-]). eauto.
Qed.

(** The first element of a non-empty array never starts like the closer. *)
Lemma render_item_not_close v a r (c : N) t :
  no_floats v = true -> render v = Ok a -> c = 93 \/ c = 125 -> a ++ r = c :: t -> False.
Proof.
  intros Hf (c' & t' & -> & Hh)%render_head Hc [= <- _]; [|done].
  destruct v as [|[]| | | | |]; cbn in Hh; lia.
Qed.

Lemma items_prefix_free first l l' b b' r1 r2 :
  Forall prefix_free l -> forallb no_floats l = true -> forallb no_floats l' = true ->
  render_items first l = Ok b -> render_items first l' = Ok b' ->
  b ++ r1 = b' ++ r2 -> l = l' /\ r1 = r2.
Proof.
  intros Hpf. revert first l' b b'.
  induction Hpf as [|x l Hx _ IH]; intros first [|y l'] b b' Hf Hf' Hb Hb' H;
    cbn in Hf, Hf', Hb, Hb'; repeat match goal with
    | H : _ && _ = true |- _ => apply andb_true_iff in H as [? ?]
    | H : mbind _ _ = Ok _ |- _ => apply res_bind_ok in H as (? & ? & H)
    | H : Ok _ = Ok _ |- _ => injection H as <-
    end.
  - injection H as <-. done.
  - destruct first; cbn in H; [|done].
    symmetry in H. rewrite <- app_assoc in H. exfalso. eapply render_item_not_close in H; eauto.
  - destruct first; cbn in H; [|done].
    rewrite <- app_assoc in H. exfalso. eapply render_item_not_close in H; eauto.
  - rewrite <- !app_assoc in H. apply app_inv_head in H.
    match goal with
    | H1 : render_items false l = Ok ?b1, H2 : render_items false l' = Ok ?b2 |- _ =>
        destruct (render_items_head _ _ H1) as (? & ? & Hb1 & Hc1);
        destruct (render_items_head _ _ H2) as (? & ? & Hb2 & Hc2);
        eapply Hx in H as [-> H]; eauto; [|rewrite Hb1; cbn; lia|rewrite Hb2; cbn; lia];
        destruct (IH false l' _ _ ltac:(done) ltac:(done) H1 H2 H) as [-> ->]; done
    end.
Qed.

Lemma entries_prefix_free first l l' b b' r1 r2 :
  Forall (fun e => prefix_free e.2) l ->
  forallb (fun e => no_floats e.2) l = true -> forallb (fun e => no_floats e.2) l' = true ->
  render_entries first l = Ok b -> render_entries first l' = Ok b' ->
  b ++ r1 = b' ++ r2 -> l = l' /\ r1 = r2.
Proof.
  intros Hpf. revert first l' b b'.
  induction Hpf as [|[k x] l Hx _ IH]; intros first [|[k' y] l'] b b' Hf Hf' Hb Hb' H;
    cbn in Hf, Hf', Hb, Hb'; repeat match goal with
    | H : _ && _ = true |- _ => apply andb_true_iff in H as [? ?]
    | H : mbind _ _ = Ok _ |- _ => apply res_bind_ok in H as (? & ? & H)
    | H : Ok _ = Ok _ |- _ => injection H as <-
    end.
  - injection H as <-. done.
  - by destruct first.
  - by destruct first.
  - rewrite <- !app_assoc in H. apply app_inv_head in H.
    apply escape_string_prefix_free in H as [-> H]. cbn in H. injection H as H.
    rewrite <- ?app_assoc in H.
    match goal with
    | H1 : render_entries false l = Ok ?b1, H2 : render_entries false l' = Ok ?b2 |- _ =>
        destruct (render_entries_head _ _ H1) as (? & ? & Hb1 & Hc1);
        destruct (render_entries_head _ _ H2) as (? & ? & Hb2 & Hc2);
        eapply Hx in H as [Hxy H]; eauto; [|rewrite Hb1; cbn; lia|rewrite Hb2; cbn; lia];
        cbn in Hxy; subst y;
        destruct (IH false l' _ _ ltac:(done) ltac:(done) H1 H2 H) as [-> ->]; done
    end.
Qed.

Lemma render_prefix_free v : prefix_free v.
Proof.
  induction v as [|b|z|f|s|l IH|l IH] using json_nested_ind;
    intros w a b' r1 r2 Hf Hf' Hv Hw H1 H2 H;
    destruct (render_head _ _ Hf Hv) as (c & t & Ha & Hc);
    destruct (render_head _ _ Hf' Hw) as (c' & t' & Hb & Hc');
    assert (c = c') as <- by (rewrite Ha, Hb in H; by injection H);
    destruct w as [|b2|z2|f2|s2|l2|l2]; cbn in Hc, Hc'; try done;
    try (exfalso; repeat case_match; lia).
  - rewrite Hv in Hw. injection Hw as ->. by apply app_inv_head in H.
  - assert (b = b2) as -> by (destruct b, b2; (done || lia)).
    rewrite Hv in Hw. injection Hw as ->. by apply app_inv_head in H.
  - injection Hv as <-. injection Hw as <-.
    apply str_int_prefix_free in H as [-> ->]; done.
  - injection Hv as <-. injection Hw as <-.
    apply escape_string_prefix_free in H as [-> ->]; done.
  - rewrite render_arr in Hv, Hw. apply res_bind_ok in Hv as (b1 & Hb1 & [= <-]).
    apply res_bind_ok in Hw as (b3 & Hb3 & [= <-]). injection H as H.
    destruct (items_prefix_free true l l2 b1 b3 r1 r2) as [-> ->]; done.
  - apply render_obj in Hv as (_ & b1 & Hb1 & ->). apply render_obj in Hw as (_ & b3 & Hb3 & ->).
    injection H as H. destruct (entries_prefix_free true l l2 b1 b3 r1 r2) as [-> ->]; done.
Qed.

(** ** Bytes *)

Section decodable.
Context (f : N -> list N) (P : N -> Prop).
Hypothesis f_ne : forall c, f c <> [].
Hypothesis f_pf : forall c1 c2 t1 t2,
  P c1 -> P c2 -> f c1 ++ t1 = f c2 ++ t2 -> c1 = c2 /\ t1 = t2.

Lemma concat_chars_inj s1 s2 :
  Forall P s1 -> Forall P s2 -> concat (f <$> s1) = concat (f <$> s2) -> s1 = s2.
Proof using f_ne f_pf.
  intros H1. revert s2. induction H1 as [|c1 s1 Hc1 _ IH]; intros s2 H2 H;
    destruct H2 as [|c2 s2 Hc2 H2]; cbn in H.
  - done.
  - destruct (f_ne c2). by destruct (f c2).
  - destruct (f_ne c1). by destruct (f c1).
  - apply f_pf in H as [-> H]; [|done..]. f_equal. by apply IH.
Qed.
End decodable.

Lemma forallb_Forall_true {A} (p : A -> bool) l : forallb p l = true -> Forall (fun x => p x = true) l.
Proof. rewrite forallb_forall, List.Forall_forall. done. Qed.

Ltac unit_cases :=
  repeat match goal with |- context [?a <? ?b] => destruct (N.ltb_spec a b) end;
  let Heq := fresh "Heq" in
  cbn [app]; intros Heq; injection Heq; clear Heq; intros; simplify_eq;
  first [split; [|done] | exfalso].

(** Equations between a number and its digits, then linear arithmetic. *)
Lemma digits64 c :
  c = 64 * (c / 64) + c mod 64 /\ c mod 64 < 64 /\
  c / 64 = 64 * (c / 4096) + (c / 64) mod 64 /\ (c / 64) mod 64 < 64 /\
  c / 4096 = 64 * (c / 262144) + (c / 4096) mod 64 /\ (c / 4096) mod 64 < 64.
Proof.
  change 4096 with (64 * 64). change 262144 with (64 * 64 * 64).
  rewrite <- !N.Div0.div_div.
  split_and!; try (by apply N.mod_lt); by apply N.div_mod.
Qed.

Lemma digits_be c d : d <> 0 -> c = d * (c / d) + c mod d /\ c mod d < d.
Proof. intros Hd. split; [by apply N.div_mod|by apply N.mod_lt]. Qed.

Ltac opaque_digits :=
  repeat match goal with
  | _ : context [?a mod ?b] |- _ => let x := fresh "r" in set (x := a mod b) in *; clearbody x
  | |- context [?a mod ?b] => let x := fresh "r" in set (x := a mod b) in *; clearbody x
  end;
  repeat match goal with
  | _ : context [?a / ?b] |- _ => let x := fresh "q" in set (x := a / b) in *; clearbody x
  | |- context [?a / ?b] => let x := fresh "q" in set (x := a / b) in *; clearbody x
  end.

Lemma utf8_char_prefix_free c1 c2 t1 t2 :
  c1 < 1114112 -> c2 < 1114112 -> utf8_char c1 ++ t1 = utf8_char c2 ++ t2 -> c1 = c2 /\ t1 = t2.
Proof.
  intros H1 H2. pose proof (digits64 c1). pose proof (digits64 c2).
  unfold utf8_char. unit_cases.
  all: opaque_digits; lia.
Qed.

Lemma code_point_range c :
  code_point c = true -> c < 1114112 /\ (c < 55296 \/ 57343 < c).
Proof.
  unfold code_point, surrogate. rewrite andb_true_iff, negb_true_iff, andb_false_iff,
    N.ltb_lt, !N.leb_gt. lia.
Qed.

Lemma utf16_char_prefix_free c1 c2 t1 t2 :
  code_point c1 = true -> code_point c2 = true ->
  utf16_char c1 ++ t1 = utf16_char c2 ++ t2 -> c1 = c2 /\ t1 = t2.
Proof.
  intros H1%code_point_range H2%code_point_range.
  pose proof (digits_be c1 256 ltac:(done)). pose proof (digits_be c2 256 ltac:(done)).
  pose proof (digits_be (c1 - 65536) 1024 ltac:(done)). pose proof (digits_be (c2 - 65536) 1024 ltac:(done)).
  pose proof (digits_be (55296 + (c1 - 65536) / 1024) 256 ltac:(done)).
  pose proof (digits_be (55296 + (c2 - 65536) / 1024) 256 ltac:(done)).
  pose proof (digits_be (56320 + (c1 - 65536) mod 1024) 256 ltac:(done)).
  pose proof (digits_be (56320 + (c2 - 65536) mod 1024) 256 ltac:(done)).
  unfold utf16_char. unit_cases.
  all: opaque_digits; lia.
Qed.

Lemma utf8_inj s1 s2 b : utf8 s1 = Ok b -> utf8 s2 = Ok b -> s1 = s2.
Proof.
  unfold utf8. intros H1 H2. destruct (forallb code_point s1) eqn:V1; [|done].
  destruct (forallb code_point s2) eqn:V2; [|done]. injection H1 as <-. injection H2 as H2.
  apply (concat_chars_inj utf8_char (fun c => code_point c = true));
    [| |by apply forallb_Forall_true..|done].
  - intros c. unfold utf8_char. by repeat case_match.
  - intros c1 c2 t1 t2 [? _]%code_point_range [? _]%code_point_range. by apply utf8_char_prefix_free.
Qed.

Lemma utf16_be_inj s1 s2 :
  forallb code_point s1 = true -> forallb code_point s2 = true ->
  utf16_be s1 = utf16_be s2 -> s1 = s2.
Proof.
  intros V1 V2. apply (concat_chars_inj utf16_char (fun c => code_point c = true));
    [|apply utf16_char_prefix_free|by apply forallb_Forall_true..].
  intros c. unfold utf16_char. by case_match.
Qed.

Lemma bytes_leb_antisym a b : bytes_leb a b = true -> bytes_leb b a = true -> a = b.
Proof.
  revert b. induction a as [|x a IH]; intros [|y b]; cbn; try done.
  destruct (N.ltb_spec x y), (N.ltb_spec y x), (N.eqb_spec x y), (N.eqb_spec y x);
    try done; try lia. intros. f_equal; auto.
Qed.

Lemma bytes_leb_total a b : bytes_leb a b = false -> bytes_leb b a = true.
Proof.
  revert b. induction a as [|x a IH]; intros [|y b]; cbn; try done.
  destruct (N.ltb_spec x y), (N.ltb_spec y x), (N.eqb_spec x y), (N.eqb_spec y x);
    try done; try lia. auto.
Qed.

Lemma bytes_leb_trans a b c : bytes_leb a b = true -> bytes_leb b c = true -> bytes_leb a c = true.
Proof.
  revert b c. induction a as [|x a IH]; intros [|y b] [|z c]; cbn; try done.
  destruct (N.ltb_spec x y), (N.ltb_spec y z), (N.ltb_spec x z), (N.eqb_spec x y),
    (N.eqb_spec y z), (N.eqb_spec x z); try done; try lia. apply IH.
Qed.

(** ** Equal documents *)

(** JSON equality: the entries of an object have no order. *)
Inductive jeq : json -> json -> Prop :=
| jeq_refl v : jeq v v
| jeq_arr l l' : Forall2 jeq l l' -> jeq (JArr l) (JArr l')
| jeq_obj l m l' : Forall2 (fun e e' => e.1 = e'.1 /\ jeq e.2 e'.2) l m -> m ≡ₚ l' ->
    jeq (JObj l) (JObj l').

(** A Python value: the keys of every [dict] are distinct, and encodable. *)
Fixpoint wf (v : json) : bool :=
  match v with
  | JArr l => forallb wf l
  | JObj l => bool_decide (NoDup l.*1) && forallb (fun e => forallb code_point e.1 && wf e.2) l
  | _ => true
  end.

Definition sort_entry (e : ustr * json) : ustr * json := (e.1, sort_keys e.2).

Lemma sort_keys_jeq v w : sort_keys v = sort_keys w -> jeq v w.
Proof.
  revert w. induction v as [|b|z|f|s|l IH|l IH] using json_nested_ind; intros w H;
    destruct w as [|b2|z2|f2|s2|l2|l2]; cbn in H; try discriminate H;
    try (injection H as ->; constructor); try constructor.
  - injection H as H. revert l2 H. induction IH as [|x l Hx _ IHl]; intros [|y l2] H; try done.
    injection H as H1 H2. constructor; auto.
  - injection H as H. change (py_sorted key_leb (sort_entry <$> l) = py_sorted key_leb (sort_entry <$> l2)) in H.
    pose proof (py_sorted_perm key_leb (sort_entry <$> l)) as Hp. rewrite H, py_sorted_perm in Hp.
    symmetry in Hp.
    apply Permutation_map_inv in Hp as (m & Hm & Hp).
    apply (jeq_obj l m); [|by symmetry]. clear H Hp. revert m Hm.
    induction IH as [|x l Hx _ IHl]; intros [|y m] Hm; try done; constructor.
    + injection Hm as H1 H2 _. auto.
    + injection Hm as _ _ Hm. auto.
Qed.

Lemma NoDup_keys_eq {A B} (l : list (A * B)) x y :
  NoDup l.*1 -> x ∈ l -> y ∈ l -> x.1 = y.1 -> x = y.
Proof.
  intros Hnd (i & Hi)%list_elem_of_lookup (j & Hj)%list_elem_of_lookup Hxy.
  assert (i = j) as ->; [|congruence].
  apply (NoDup_lookup l.*1 i j x.1); [done|by rewrite list_lookup_fmap, Hi|].
  by rewrite list_lookup_fmap, Hj, Hxy.
Qed.

Lemma py_sorted_entries_eq (l l' : list (ustr * json)) :
  NoDup l.*1 -> Forall (fun e => forallb code_point e.1 = true) l ->
  l ≡ₚ l' -> py_sorted key_leb l = py_sorted key_leb l'.
Proof.
  intros Hnd Hv Hp. apply (strongly_sorted_perm_eq (fun x y => key_leb x y = true)).
  - intros x y Hx Hy Hxy Hyx. rewrite py_sorted_perm in Hx, Hy.
    rewrite Forall_forall in Hv.
    apply (NoDup_keys_eq l); [done..|]. apply utf16_be_inj; [by apply Hv..|].
    by apply bytes_leb_antisym.
  - apply py_sorted_sorted; intros *; [apply bytes_leb_total|apply bytes_leb_trans].
  - apply py_sorted_sorted; intros *; [apply bytes_leb_total|apply bytes_leb_trans].
  - by rewrite !py_sorted_perm.
Qed.

Lemma Forall2_sort_keys l m :
  Forall (fun v => forall w, wf v = true -> jeq v w -> sort_keys v = sort_keys w) l ->
  forallb wf l = true -> Forall2 jeq l m -> sort_keys <$> l = sort_keys <$> m.
Proof.
  intros IH Hwf H. induction H as [|x y l m Hxy _ IHl]; [done|]. cbn in Hwf.
  apply andb_true_iff in Hwf as [Hx Hl]. inversion IH; subst. cbn. f_equal; auto.
Qed.

Lemma Forall2_sort_entries (l m : list (ustr * json)) :
  Forall (fun e => forall w, wf e.2 = true -> jeq e.2 w -> sort_keys e.2 = sort_keys w) l ->
  forallb (fun e => forallb code_point e.1 && wf e.2) l = true ->
  Forall2 (fun e e' => e.1 = e'.1 /\ jeq e.2 e'.2) l m -> sort_entry <$> l = sort_entry <$> m.
Proof.
  intros IH Hwf H. induction H as [|x y l m [Hk Hxy] _ IHl]; [done|]. cbn in Hwf.
  apply andb_true_iff in Hwf as [[_ Hx]%andb_true_iff Hl]. inversion IH; subst. cbn.
  f_equal; [|by auto]. unfold sort_entry. rewrite Hk. f_equal. auto.
Qed.

Lemma jeq_sort_keys v w : wf v = true -> jeq v w -> sort_keys v = sort_keys w.
Proof.
  revert w. induction v as [|b|z|f|s|l IH|l IH] using json_nested_ind; intros w Hwf H;
    inversion H as [|? l2 Hl|? m l2 Hl Hp]; subst; try done.
  - cbn. f_equal. by apply Forall2_sort_keys.
  - change (JObj (py_sorted key_leb (sort_entry <$> l)) = JObj (py_sorted key_leb (sort_entry <$> l2))).
    cbn in Hwf. apply andb_true_iff in Hwf as [Hnd%bool_decide_eq_true Hv].
    f_equal. rewrite (Forall2_sort_entries l m) by done.
    assert ((sort_entry <$> m).*1 = l.*1) as Hkeys.
    { clear -Hl. induction Hl as [|x y ?? [Hk _] _ IHl]; cbn; congruence. }
    apply py_sorted_entries_eq; [by rewrite Hkeys| |by rewrite Hp].
    rewrite <- (Forall_fmap fst (fun k => forallb code_point k = true)), Hkeys, Forall_fmap.
    apply forallb_Forall_true in Hv. eapply Forall_impl; [exact Hv|].
    intros x Hx. by apply andb_true_iff in Hx as [? _].
Qed.

Lemma no_floats_sort v : no_floats v = true -> no_floats (sort_keys v) = true.
Proof.
  induction v as [|b|z|f|s|l IH|l IH] using json_nested_ind; try done; cbn;
    rewrite !forallb_forall; intros H x.
  - rewrite <- list_elem_of_In, list_elem_of_fmap. intros (y & -> & Hy).
    rewrite Forall_forall in IH. apply IH; [done|]. by apply H, list_elem_of_In.
  - rewrite <- list_elem_of_In, py_sorted_elem, list_elem_of_fmap. intros (y & -> & Hy).
    rewrite Forall_forall in IH. apply IH; [done|]. by apply H, list_elem_of_In.
Qed.

Lemma canonical_json_eq_jeq v w b :
  no_floats v = true -> no_floats w = true ->
  canonical_json v = Ok b -> canonical_json w = Ok b -> jeq v w.
Proof.
  unfold canonical_json, _serialize. intros Hf Hf' Ha Hb.
  apply res_bind_ok in Ha as (ta & Hta & Ha). apply res_bind_ok in Hb as (tb & Htb & Hb).
  apply sort_keys_jeq. rewrite (utf8_inj _ _ _ Ha Hb) in Hta.
  by destruct (render_prefix_free _ _ _ _ [] [] (no_floats_sort _ Hf) (no_floats_sort _ Hf')
    Hta Htb I I eq_refl).
Qed.

Lemma canonical_json_jeq v w : wf v = true -> jeq v w -> canonical_json v = canonical_json w.
Proof.
  intros Hwf Heq. unfold canonical_json, _serialize. by rewrite (jeq_sort_keys _ _ Hwf Heq).
Qed.

(** ** Serialization succeeds *)

Definition encodable (r : res ustr) : Prop :=
  exists t, r = Ok t /\ forallb code_point t = true.

(** Every string of the document is encodable. *)
Fixpoint text_ok (v : json) : bool :=
  match v with
  | JStr s => forallb code_point s
  | JArr l => forallb text_ok l
  | JObj l => forallb (fun e => forallb code_point e.1 && text_ok e.2) l
  | _ => true
  end.

#[local] Transparent _escape_string str_int.
Lemma escape_string_text s : forallb code_point s = true -> forallb code_point (_escape_string s) = true.
Proof.
  intros Hs. unfold _escape_string. rewrite !forallb_app. cbn. rewrite andb_true_r.
  induction s as [|c s IH]; [done|]. cbn in *. apply andb_true_iff in Hs as [Hc Hs].
  rewrite forallb_app, IH by done. rewrite andb_true_r.
  destruct (escape_char_cases c) as [(e & Hin & _ & ->)|[[Hl ->]|(_ & _ & ->)]].
  - unfold ESCAPES in Hin.
    repeat (apply elem_of_cons in Hin as [->|Hin]; [done|]). by apply elem_of_nil in Hin.
  - cbn. rewrite andb_true_r. unfold hex_digit.
    assert (c / 16 < 16 /\ c mod 16 < 16) as [H1 H2]
      by (split; [apply N.Div0.div_lt_upper_bound; lia|apply N.mod_lt; lia]).
    unfold code_point, surrogate.
    destruct (c / 16 <? 10), (c mod 16 <? 10);
      rewrite !andb_true_iff, !negb_true_iff, !andb_false_iff, !N.ltb_lt, !N.leb_gt; lia.
  - cbn. by rewrite Hc.
Qed.

Lemma str_int_text z : forallb code_point (str_int z) = true.
Proof.
  assert (forall u, forallb code_point (uint_chars u) = true) as Hu by (induction u; done).
 unfold str_int. destruct (z <? 0)%Z; cbn; apply Hu.
Qed.
#[local] Opaque str_int _escape_string.

Lemma render_items_text b l :
  Forall (fun v => encodable (render v)) l -> encodable (render_items b l).
Proof.
  intros H. revert b. induction H as [|v l (t & Hv & Ht) _ IH]; intros b; cbn; [by eexists|].
  destruct (IH false) as (t' & Hl & Ht'). rewrite Hv. cbn. rewrite Hl. cbn. eexists. split; [done|].
  rewrite !forallb_app, Ht, Ht'. by destruct b.
Qed.

Lemma render_entries_text b (l : list (ustr * json)) :
  Forall (fun e => forallb code_point e.1 = true /\ encodable (render e.2)) l ->
  encodable (render_entries b l).
Proof.
  intros H. revert b. induction H as [|[k v] l [Hk (t & Hv & Ht)] _ IH]; intros b; cbn; [by eexists|].
  cbn in Hk, Hv. destruct (IH false) as (t' & Hl & Ht'). rewrite Hv. cbn. rewrite Hl. cbn.
  eexists. split; [done|]. change (44 :: ?x) with ([44] ++ x).
  rewrite !forallb_app, escape_string_text by done. cbn. rewrite forallb_app, Ht, Ht'. by destruct b.
Qed.

Lemma render_text v :
  no_floats v = true -> text_ok v = true -> encodable (render v).
Proof.
  induction v as [|b|z|f|s|l IH|l IH] using json_nested_ind; intros Hf Hs; try done.
  - by eexists.
  - by destruct b; eexists.
  - eexists. split; [done|apply str_int_text].
  - eexists. split; [done|by apply escape_string_text].
  - rewrite render_arr. destruct (render_items_text true l) as (t & -> & Ht); [|cbn; by eexists].
    cbn in Hf, Hs. apply forallb_Forall_true in Hf, Hs. rewrite Forall_forall in *. auto.
  - change (encodable (if negb (forallb (fun e : ustr * json => forallb code_point e.1) l)
       then Err "UnicodeEncodeError" else (body ← render_entries true l; Ok (123 :: body)))).
    cbn in Hf, Hs. apply forallb_Forall_true in Hf, Hs. rewrite Forall_forall in IH, Hf, Hs.
    assert (forallb (fun e : ustr * json => forallb code_point e.1) l = true) as ->.
    { apply forallb_forall. intros e He%list_elem_of_In. apply Hs in He. by apply andb_true_iff in He as [? _]. }
    destruct (render_entries_text true l) as (t & Ht & Hc); [|cbn; rewrite Ht; cbn; by eexists].
    rewrite Forall_forall. intros e He. specialize (Hs e He). apply andb_true_iff in Hs as [? ?].
    split; [done|]. by apply IH; auto.
Qed.

Lemma text_ok_sort v : text_ok v = true -> text_ok (sort_keys v) = true.
Proof.
  induction v as [|b|z|f|s|l IH|l IH] using json_nested_ind; try done; cbn;
    rewrite !forallb_forall; intros H x.
  - rewrite <- list_elem_of_In, list_elem_of_fmap. intros (y & -> & Hy).
    rewrite Forall_forall in IH. apply IH; [done|]. by apply H, list_elem_of_In.
  - rewrite <- list_elem_of_In, py_sorted_elem, list_elem_of_fmap. intros (y & -> & Hy). cbn.
    rewrite Forall_forall in IH. specialize (H y (proj1 (list_elem_of_In _ _) Hy)).
    apply andb_true_iff in H as [Hk Hv]. rewrite Hk. by apply IH.
Qed.

(** A float-free document of encodable text has a canonical form. *)
Lemma canonical_json_total v :
  no_floats v = true -> text_ok v = true -> exists b, canonical_json v = Ok b.
Proof.
  intros Hf Ht. unfold canonical_json, _serialize.
  destruct (render_text (sort_keys v)) as (t & -> & Hc);
    [by apply no_floats_sort|by apply text_ok_sort|].
  cbn. unfold utf8. rewrite Hc. by eexists.
Qed.

Lemma lit_text s : forallb code_point (lit s) = true.
Proof.
  induction s as [|c s IH]; [done|]. cbn. rewrite IH, andb_true_r.
  pose proof (N_ascii_bounded c). unfold code_point, surrogate.
  rewrite andb_true_iff, negb_true_iff, andb_false_iff, N.ltb_lt, !N.leb_gt. lia.
Qed.

(** C7. The canonical bytes identify a document: two float-free documents that
    serialize have the same bytes exactly when they are equal as JSON, that is
    up to the order of the entries of their objects. So a hash or an
    idempotency comparison over [canonical_json] never confuses two different
    bodies and never distinguishes two equal ones. *)
Theorem canonical_json_identifies v w a b :
  wf v = true -> no_floats v = true -> no_floats w = true ->
  canonical_json v = Ok a -> canonical_json w = Ok b -> (a = b <-> jeq v w).
Proof.
  intros Hwf Hf Hf' Ha Hb. split; [intros ->; by eapply canonical_json_eq_jeq|].
  intros Heq. rewrite (canonical_json_jeq _ _ Hwf Heq) in Ha. congruence.
Qed.

Definition doc1 : json := JObj [(lit "b", JInt 1); (lit "a", JArr [JStr (lit "x"); JNull])].
Definition doc2 : json := JObj [(lit "a", JArr [JStr (lit "x"); JNull]); (lit "b", JInt 1)].

Lemma canonical_json_identifies_witness :
  exists a, canonical_json doc1 = Ok a /\ (a = a <-> jeq doc1 doc2).
Proof.
  eexists. split; [vm_compute; reflexivity|].
  apply canonical_json_identifies; [reflexivity..|vm_compute; reflexivity|vm_compute; reflexivity].
Defined.

(** ** Objects with fixed keys *)

Definition scalar (v : json) : bool :=
  match v with JArr _ | JObj _ => false | _ => true end.

Lemma jeq_scalar v w : scalar v = true -> jeq v w -> v = w.
Proof. intros Hs H. by destruct H. Qed.

Lemma jeq_same_keys l l' :
  NoDup l.*1 -> l.*1 = l'.*1 -> jeq (JObj l) (JObj l') ->
  Forall2 (fun e e' => e.1 = e'.1 /\ jeq e.2 e'.2) l l'.
Proof.
  intros Hnd Hk H. inversion H as [| |? m ? Hl Hp]; subst.
  - apply Forall_Forall2_diag, Forall_true. intros x. split; [done|constructor].
  - assert (m.*1 = l.*1) as Hm.
    { clear -Hl. induction Hl as [|?? ?? [? _] _ IH]; cbn; congruence. }
    replace l' with m; [done|]. eapply list_eq_same_length; [reflexivity|by rewrite Hp|].
    intros i x y Hi Hx Hy.
    assert (x.1 = y.1) as Hxy.
    { assert (m.*1 !! i = l'.*1 !! i) as E by congruence.
      rewrite !list_lookup_fmap, Hx, Hy in E. by injection E. }
    apply (NoDup_keys_eq l'); [by rewrite <- Hk| | |done].
    + rewrite <- Hp. by eapply list_elem_of_lookup_2.
    + by eapply list_elem_of_lookup_2.
Qed.

Lemma jeq_scalar_entries l l' :
  Forall (fun e => scalar e.2 = true) l ->
  Forall2 (fun e e' : ustr * json => e.1 = e'.1 /\ jeq e.2 e'.2) l l' -> l = l'.
Proof.
  intros Hs H. induction H as [|[k v] [k' v'] l l' [Hk Hv] _ IH]; [done|].
  inversion Hs; subst. cbn in *. f_equal; [|by apply IH].
  f_equal; [done|]. by apply jeq_scalar.
Qed.

(** Documents without objects: equality of JSON is equality. *)
Fixpoint flat (v : json) : bool :=
  match v with JArr l => forallb flat l | JObj _ => false | _ => true end.

Lemma jeq_flat v w : flat v = true -> jeq v w -> v = w.
Proof.
  revert w. induction v as [|b|z|f|s|l IH|l IH] using json_nested_ind; intros w Hf H; try done;
    inversion H as [|? l2 Hl|]; subst; try done.
  f_equal. cbn in Hf. clear H. induction Hl as [|x y l l2 Hxy _ IHl]; [done|].
  cbn in Hf. apply andb_true_iff in Hf as [Hx Hl']. inversion IH; subst. f_equal; auto.
Qed.

Lemma jeq_flat_entries l l' :
  forallb (fun e => flat e.2) l = true ->
  Forall2 (fun e e' : ustr * json => e.1 = e'.1 /\ jeq e.2 e'.2) l l' -> l = l'.
Proof.
  intros Hs H. induction H as [|[k v] [k' v'] l l' [Hk Hv] _ IH]; [done|].
  cbn in *. apply andb_true_iff in Hs as [Hv' Hs]. f_equal; [|by apply IH].
  f_equal; [done|]. by apply jeq_flat.
Qed.

Lemma lit_inj s t : lit s = lit t -> s = t.
Proof.
  revert t. induction s as [|c s IH]; intros [|d t] H; cbn in H; try done.
  injection H as Hc H. rewrite (IH t H). f_equal.
  rewrite <- (ascii_N_embedding c), <- (ascii_N_embedding d). by rewrite Hc.
Qed.
