(* ===== verification/Text.v ===== *)
(** Python text: characters below code point 256 as Rocq strings, white space and
    [strip], and the entries of a parsed JSON object. *)

From S2P Require Import Prelude Canonical.
Open Scope Z_scope.

(** The text of a string, one character for one code point below 256. *)
Fixpoint text (u : ustr) : string :=
  match u with [] => EmptyString | c :: u => String (ascii_of_N c) (text u) end.

Lemma text_lit s : text (lit s) = s.
Proof. induction s as [|c s IH]; [done|]. cbn. by rewrite ascii_N_embedding, IH. Qed.

Lemma lit_append s1 s2 : lit (s1 +:+ s2) = lit s1 ++ lit s2.
Proof.
  induction s1 as [|c s IH]; [done|]. change (String c s +:+ s2) with (String c (s +:+ s2)). cbn [lit app]. by rewrite IH.
Qed.

(** [str.isspace] on one character. *)
Definition py_space (c : N) : bool :=
  (((9 <=? c) && (c <=? 13)) || ((28 <=? c) && (c <=? 32)) || (c =? 133) || (c =? 160) || (c =? 5760) ||
   ((8192 <=? c) && (c <=? 8202)) || (c =? 8232) || (c =? 8233) || (c =? 8239) || (c =? 8287) || (c =? 12288))%N.

(** [not s.strip()] *)
Definition blank (s : ustr) : bool := forallb py_space s.

Fixpoint lstrip (s : ustr) : ustr :=
  match s with c :: s' => if py_space c then lstrip s' else s | [] => [] end.

Definition strip (s : ustr) : ustr := reverse (lstrip (reverse (lstrip s))).

Lemma lstrip_blank s : lstrip s = [] <-> blank s = true.
Proof.
  induction s as [|c s IH]; [done|]. cbn. destruct (py_space c); [exact IH|]. by split.
Qed.

Lemma blank_reverse s : blank (reverse s) = true <-> blank s = true.
Proof.
  unfold blank. rewrite !forallb_forall. split; intros H x Hx; apply H; apply list_elem_of_In; apply list_elem_of_In in Hx;
    by rewrite ?elem_of_reverse in *.
Qed.

Lemma lstrip_again s : blank (lstrip s) = true -> lstrip s = [].
Proof. induction s as [|c s IH]; [done|]. cbn. destruct (py_space c) eqn:E; [exact IH|]. cbn. by rewrite E. Qed.

Lemma strip_blank s : strip s = [] <-> blank s = true.
Proof.
  rewrite <- lstrip_blank. unfold strip. split.
  - intros H. apply lstrip_again. rewrite <- blank_reverse, <- lstrip_blank.
    by rewrite <- (reverse_involutive (lstrip (reverse (lstrip s)))), H.
  - by intros ->.
Qed.

Lemma lstrip_suffix s : exists p, s = p ++ lstrip s.
Proof.
  induction s as [|c s [p IH]]; [by exists []|]. cbn. destruct (py_space c); [|by exists []].
  exists (c :: p). cbn. by rewrite <- IH.
Qed.

Definition starts_dark (s : ustr) : Prop := match s with c :: _ => py_space c = false | [] => True end.

Lemma lstrip_dark s : starts_dark (lstrip s).
Proof. induction s as [|c s IH]; [done|]. cbn. by destruct (py_space c) eqn:E. Qed.

Lemma dark_lstrip s : starts_dark s -> lstrip s = s.
Proof. destruct s as [|c s]; [done|]. cbn. by intros ->. Qed.

Lemma strip_strip s : strip (strip s) = strip s.
Proof.
  unfold strip. set (a := lstrip s). destruct (lstrip_suffix (reverse a)) as [p Hp]. set (b := lstrip (reverse a)) in *.
  assert (a = reverse b ++ reverse p) as Ha by (by rewrite <- reverse_app, <- Hp, reverse_involutive).
  rewrite (dark_lstrip (reverse b)).
  - rewrite reverse_involutive. by rewrite (dark_lstrip b (lstrip_dark _)).
  - pose proof (lstrip_dark s) as Hd. fold a in Hd. rewrite Ha in Hd. by destruct (reverse b).
Qed.

(** ** Entries of an object *)

Definition dict_get (p : list (ustr * json)) (k : string) : option json :=
  snd <$> find (fun e => bool_decide (e.1 = lit k)) p.

Definition get_str (p : list (ustr * json)) (k : string) : option string :=
  match dict_get p k with Some (JStr s) => Some (text s) | _ => None end.

Definition get_int (p : list (ustr * json)) (k : string) : option Z :=
  match dict_get p k with Some (JInt z) => Some z | _ => None end.

Definition get_strs (p : list (ustr * json)) (k : string) : option (list string) :=
  match dict_get p k with
  | Some (JArr l) => Some (omap (fun v => match v with JStr s => Some (text s) | _ => None end) l)
  | _ => None
  end.

Definition jtext (s : string) : json := JStr (lit s).
Definition jopt_text (o : option string) : json := match o with Some s => jtext s | None => JNull end.
