(* ===== verification/HashChain.v ===== *)
(** Hash chains: the per-aggregate Event chain of [server/events/hashing.py] and
    the generic row chains with daily anchors of [server/events/chain.py].
    [sha256_hex] is a parameter: no property of it is assumed except, where a
    theorem says so, that it does not collide on the inputs of the two streams
    the theorem compares. *)

From S2P Require Import Prelude Canonical.
Open Scope N_scope.

(** An Event envelope ([dict[str, Any]] with the types of
    [schemas/events/envelope.v1.schema.json]); [.get] of an absent field is
    [None]. [content_hash] is [None] before the store computes it. *)
Record Event := {
  event_id : ustr;
  schema_version : Z;
  workspace_id : ustr;
  aggregate_type : ustr;
  aggregate_id : ustr;
  aggregate_seq : Z;
  channel_id : option ustr;
  task_id : option ustr;
  event_type : ustr;
  actor_account_id : ustr;
  caused_by : option ustr;
  correlation_id : ustr;
  idempotency_scope : ustr;
  idempotency_key : ustr;
  policy_version : ustr;
  occurred_at : ustr;
  sensitive_payload_key_ref : option ustr;
  payload : list (ustr * json);
  sensitive_payload_ciphertext : option ustr;
  previous_hash : option ustr;
  content_hash : option ustr;
  recorded_seq : Z }.

Definition jopt (o : option ustr) : json :=
  match o with Some s => JStr s | None => JNull end.

Definition HASHED_METADATA_FIELDS (ev : Event) : list (ustr * json) := [
  (lit "event_id", JStr ev.(event_id));
  (lit "schema_version", JInt ev.(schema_version));
  (lit "workspace_id", JStr ev.(workspace_id));
  (lit "aggregate_type", JStr ev.(aggregate_type));
  (lit "aggregate_id", JStr ev.(aggregate_id));
  (lit "aggregate_seq", JInt ev.(aggregate_seq));
  (lit "channel_id", jopt ev.(channel_id));
  (lit "task_id", jopt ev.(task_id));
  (lit "type", JStr ev.(event_type));
  (lit "actor_account_id", JStr ev.(actor_account_id));
  (lit "caused_by", jopt ev.(caused_by));
  (lit "correlation_id", JStr ev.(correlation_id));
  (lit "idempotency_scope", JStr ev.(idempotency_scope));
  (lit "idempotency_key", JStr ev.(idempotency_key));
  (lit "policy_version", JStr ev.(policy_version));
  (lit "occurred_at", JStr ev.(occurred_at));
  (lit "sensitive_payload_key_ref", jopt ev.(sensitive_payload_key_ref))].

(** [base64.b64decode(s, validate=True)]. *)
Definition b64_value (c : N) : option N :=
  if (65 <=? c) && (c <=? 90) then Some (c - 65)
  else if (97 <=? c) && (c <=? 122) then Some (c - 71)
  else if (48 <=? c) && (c <=? 57) then Some (c + 4)
  else if c =? 43 then Some 62
  else if c =? 47 then Some 63
  else None.

Fixpoint b64decode (s : ustr) : res (list N) :=
  match s with
  | [] => Ok []
  | a :: b :: c :: d :: rest =>
      match b64_value a, b64_value b with
      | Some x, Some y =>
          match b64_value c, b64_value d with
          | Some z, Some w =>
              tail ← b64decode rest;
              Ok ([x * 4 + y / 16; (y mod 16) * 16 + z / 4; (z mod 4) * 64 + w] ++ tail)
          | Some z, None =>
              if (d =? 61) && bool_decide (rest = [])
              then Ok [x * 4 + y / 16; (y mod 16) * 16 + z / 4] else Err "binascii.Error"
          | None, _ =>
              if (c =? 61) && (d =? 61) && bool_decide (rest = [])
              then Ok [x * 4 + y / 16] else Err "binascii.Error"
          end
      | _, _ => Err "binascii.Error"
      end
  | _ => Err "binascii.Error"
  end.

Example b64_example : b64decode (lit "SGVsbG8=") = Ok (lit "Hello").
Proof. reflexivity. Qed.

(** What an intact chain says of the links: problems reported per Event. *)
Inductive problem : Type :=
| BadSequence (eid : ustr) (found expected : Z)
| BadPrevious (eid : ustr)
| BadContent (eid : ustr).

(** Cells of the chained tables as the driver returns them. *)
Inductive cell : Type :=
| CNull
| CText (s : ustr)
| CInt (z : Z)
| CJson (v : json)
| CDatetime (t : Z)
| CDate (d : Z)
| CUuid (s : ustr).

Record ChainSpec := {
  table : ustr; order_column : ustr; hashed_fields : list ustr; chain_name : ustr }.

Definition AUDIT_CHAIN : ChainSpec := {|
  table := lit "audit_events";
  order_column := lit "id";
  hashed_fields := lit <$> ["audit_id"; "workspace_id"; "actor_account_id"; "actor_label";
    "action"; "target_type"; "target_id"; "result"; "error_code"; "correlation_id";
    "redacted_metadata"; "occurred_at"];
  chain_name := lit "audit" |}.

Definition VERIFICATION_CHAIN : ChainSpec := {|
  table := lit "verification_revisions";
  order_column := lit "id";
  hashed_fields := lit <$> ["revision_id"; "verification_id"; "revision"; "result";
    "submitted_by_account_id"; "submitter_credential_fingerprint"; "report_sha256";
    "event_id"; "created_at"];
  chain_name := lit "verification_revisions" |}.

Definition TOMBSTONE_CHAIN : ChainSpec := {|
  table := lit "key_tombstones";
  order_column := lit "id";
  hashed_fields := lit <$> ["key_ref"; "workspace_id"; "target_type"; "target_id"; "reason";
    "requested_by"; "audit_event_id"; "destroyed_at"];
  chain_name := lit "key_tombstones" |}.

(** A row of a chained table: its order column, the hashed cells by column name
    and the two hash columns. *)
Record Row := {
  row_id : Z;
  cells : list (ustr * cell);
  row_previous_hash : option ustr;
  row_content_hash : ustr }.

Fixpoint assoc {A} (k : ustr) (l : list (ustr * A)) : option A :=
  match l with
  | [] => None
  | (k', v) :: l => if bool_decide (k = k') then Some v else assoc k l
  end.

Record Anchor := {
  anchor_chain : ustr; anchor_date : Z; last_row_id : Z; last_hash_value : ustr;
  anchor_hash : ustr }.

Inductive row_problem : Type :=
| RowBadPrevious (rid : Z)
| RowBadContent (rid : Z)
| AnchorStored (date : Z)
| AnchorRecomputed (date : Z)
| AnchorHash (date : Z).

(** [if not ok: problems.append(p)]. *)
Definition report {A} (ok : bool) (p : A) : list A := if ok then [] else [p].

Section hash.
(** SHA-256 in hexadecimal, and the ISO text of an instant and of a date. *)
Context (sha256_hex : list N -> ustr) (isoformat date_iso : Z -> ustr).

Definition ciphertext_digest (ciphertext_b64 : option ustr) : res (option ustr) :=
  match ciphertext_b64 with
  | None => Ok None
  | Some c => bytes ← b64decode c; Ok (Some (sha256_hex bytes))
  end.

Definition hash_body (ev : Event) : res json :=
  digest ← ciphertext_digest ev.(sensitive_payload_ciphertext);
  Ok (JObj (HASHED_METADATA_FIELDS ev ++ [
    (lit "payload", JObj ev.(payload));
    (lit "sensitive_payload_sha256", jopt digest);
    (lit "previous_hash", jopt ev.(previous_hash))])).

Definition hash_input (ev : Event) : res (list N) := hash_body ev ≫= canonical_json.

Definition compute_content_hash (ev : Event) : res ustr :=
  bytes ← hash_input ev; Ok (sha256_hex bytes).

Definition verify_content_hash (ev : Event) : res bool :=
  h ← compute_content_hash ev; Ok (bool_decide (ev.(content_hash) = Some h)).

Fixpoint verify_from (expected_seq : Z) (previous : option ustr) (events : list Event)
    : res (list problem) :=
  match events with
  | [] => Ok []
  | ev :: rest =>
      ok ← verify_content_hash ev;
      tail ← verify_from (expected_seq + 1)%Z ev.(content_hash) rest;
      Ok (report (bool_decide (ev.(aggregate_seq) = expected_seq)) (BadSequence ev.(event_id) ev.(aggregate_seq) expected_seq) ++
          report (bool_decide (ev.(previous_hash) = previous)) (BadPrevious ev.(event_id)) ++
          report ok (BadContent ev.(event_id)) ++ tail)
  end.

Definition verify_chain (events : list Event) : res (list problem) :=
  verify_from 1 None events.

(** ** Row chains *)

Definition chain_input (fields : list (ustr * json)) (prev : option ustr) : res (list N) :=
  canonical_json (JObj (fields ++ [(lit "previous_hash", jopt prev)])).

Definition chain_hash (fields : list (ustr * json)) (prev : option ustr) : res ustr :=
  bytes ← chain_input fields prev; Ok (sha256_hex bytes).

Definition _jsonable (c : cell) : json :=
  match c with
  | CNull => JNull
  | CText s => JStr s
  | CInt z => JInt z
  | CJson v => v
  | CDatetime t => JStr (isoformat t)
  | CDate d => JStr (date_iso d)
  | CUuid s => JStr s
  end.

Definition hashed_row_fields (spec : ChainSpec) (row : Row) : list (ustr * json) :=
  (fun k => (k, _jsonable (default CNull (assoc k row.(cells))))) <$> spec.(hashed_fields).

(** [ORDER BY order_column DESC LIMIT 1] over rows kept in ascending order. *)
Definition last_hash (rows : list Row) : option ustr := row_content_hash <$> last rows.

Fixpoint verify_rows_from (spec : ChainSpec) (previous : option ustr) (rows : list Row)
    : res (list row_problem) :=
  match rows with
  | [] => Ok []
  | row :: rest =>
      expected ← chain_hash (hashed_row_fields spec row) previous;
      tail ← verify_rows_from spec (Some row.(row_content_hash)) rest;
      Ok (report (bool_decide (row.(row_previous_hash) = previous)) (RowBadPrevious row.(row_id)) ++
          report (bool_decide (row.(row_content_hash) = expected)) (RowBadContent row.(row_id)) ++ tail)
  end.

Definition verify_rows (spec : ChainSpec) (rows : list Row) : res (list row_problem) :=
  verify_rows_from spec None rows.

Definition anchor_body (spec : ChainSpec) (date rid : Z) (h : ustr) : json :=
  JObj [(lit "chain", JStr spec.(chain_name)); (lit "anchor_date", JStr (date_iso date));
        (lit "last_row_id", JInt rid); (lit "last_hash", JStr h)].

Definition record_anchor (spec : ChainSpec) (date : Z) (rows : list Row) (anchors : list Anchor)
    : res (option ustr * list Anchor) :=
  match last rows with
  | None => Ok (None, anchors)
  | Some row =>
      bytes ← canonical_json (anchor_body spec date row.(row_id) row.(row_content_hash));
      let h := sha256_hex bytes in
      Ok (Some h, anchors ++ [{| anchor_chain := spec.(chain_name); anchor_date := date;
        last_row_id := row.(row_id); last_hash_value := row.(row_content_hash);
        anchor_hash := h |}])
  end.

(** The hash of every row recomputed from the first one, by row id. *)
Fixpoint recompute (spec : ChainSpec) (previous : option ustr) (rows : list Row)
    : res (list (Z * ustr)) :=
  match rows with
  | [] => Ok []
  | row :: rest =>
      h ← chain_hash (hashed_row_fields spec row) previous;
      tail ← recompute spec (Some h) rest;
      Ok ((row.(row_id), h) :: tail)
  end.

Definition lookup_id {A} (rid : Z) (l : list (Z * A)) : option A :=
  snd <$> find (fun e => (e.1 =? rid)%Z) l.

Definition check_anchor (spec : ChainSpec) (rows : list Row) (recomputed : list (Z * ustr))
    (a : Anchor) : res (list row_problem) :=
  let stored := lookup_id a.(last_row_id) ((fun r => (r.(row_id), r.(row_content_hash))) <$> rows) in
  bytes ← canonical_json (anchor_body spec a.(anchor_date) a.(last_row_id) a.(last_hash_value));
  Ok (report (bool_decide (stored = Some a.(last_hash_value))) (AnchorStored a.(anchor_date)) ++
      report (bool_decide (lookup_id a.(last_row_id) recomputed = Some a.(last_hash_value))) (AnchorRecomputed a.(anchor_date)) ++
      report (bool_decide (sha256_hex bytes = a.(anchor_hash))) (AnchorHash a.(anchor_date))).

Fixpoint check_anchors (spec : ChainSpec) (rows : list Row) (recomputed : list (Z * ustr))
    (anchors : list Anchor) : res (list row_problem) :=
  match anchors with
  | [] => Ok []
  | a :: rest =>
      p ← check_anchor spec rows recomputed a;
      tail ← check_anchors spec rows recomputed rest;
      Ok (p ++ tail)
  end.

Definition verify_anchors (spec : ChainSpec) (rows : list Row) (anchors : list Anchor)
    : res (list row_problem) :=
  let anchors := filter (fun a => a.(anchor_chain) = spec.(chain_name)) anchors in
  match anchors with
  | [] => Ok []
  | _ => recomputed ← recompute spec None rows; check_anchors spec rows recomputed anchors
  end.
End hash.

(** * A chain's head pins the chain *)

(** Elements linked by hash: each carries the hash of its own content and of
    the hash before it. *)
Section linked.
Context {A : Type} (H : list N -> ustr) (enc : A -> option ustr -> res (list N))
  (good : A -> Prop) (R : A -> A -> Prop).
Hypothesis enc_inj : forall a a' p p' b,
  good a -> good a' -> enc a p = Ok b -> enc a' p' = Ok b -> R a a' /\ p = p'.

Fixpoint linked (p : option ustr) (l : list (A * ustr)) : Prop :=
  match l with
  | [] => True
  | (a, h) :: l => (exists b, enc a p = Ok b /\ h = H b) /\ linked (Some h) l
  end.

(** The bytes hashed along a chain. *)
Fixpoint inputs (p : option ustr) (l : list (A * ustr)) : list (list N) :=
  match l with
  | [] => []
  | (a, h) :: l => match enc a p with Ok b => [b] | Err _ => [] end ++ inputs (Some h) l
  end.

Definition head_hash (p : option ustr) (l : list (A * ustr)) : option ustr :=
  match last l with Some (_, h) => Some h | None => p end.

(** [H] has no collision between the two lists of inputs. *)
Definition no_collision (xs ys : list (list N)) : Prop :=
  forall x y, x ∈ xs -> y ∈ ys -> H x = H y -> x = y.

Lemma linked_snoc p l a h :
  linked p (l ++ [(a, h)]) <->
  linked p l /\ exists b, enc a (head_hash p l) = Ok b /\ h = H b.
Proof.
  revert p. induction l as [|[a' h'] l IH]; intros p; cbn.
  - split; [intros [? _]; done|intros [_ ?]; done].
  - rewrite IH. unfold head_hash. rewrite last_cons.
    destruct (last l) as [[]|]; cbn; tauto.
Qed.

Lemma inputs_snoc p l a h :
  inputs p (l ++ [(a, h)]) =
  inputs p l ++ match enc a (head_hash p l) with Ok b => [b] | Err _ => [] end.
Proof.
  revert p. induction l as [|[a' h'] l IH]; intros p; cbn.
  - by rewrite app_nil_r.
  - rewrite IH, <- app_assoc. unfold head_hash. rewrite last_cons.
    by destruct (last l) as [[]|].
Qed.

Lemma head_hash_snoc p l a h : head_hash p (l ++ [(a, h)]) = Some h.
Proof. unfold head_hash. by rewrite last_snoc. Qed.

Lemma linked_pinned l l' :
  Forall good l.*1 -> Forall good l'.*1 ->
  linked None l -> linked None l' -> head_hash None l = head_hash None l' ->
  no_collision (inputs None l) (inputs None l') ->
  Forall2 (fun x y => R x.1 y.1 /\ x.2 = y.2) l l'.
Proof using enc_inj.
  revert l'. induction l as [|[a h] l IH] using rev_ind; intros l';
    destruct l' as [|[a' h'] l' _] using rev_ind; intros Hg Hg' Hl Hl' Hh Hnc.
  - constructor.
  - rewrite head_hash_snoc in Hh. done.
  - rewrite head_hash_snoc in Hh. done.
  - rewrite !head_hash_snoc in Hh. injection Hh as <-.
    apply linked_snoc in Hl as (Hl & b & Hb & Ehb).
    apply linked_snoc in Hl' as (Hl' & b' & Hb' & Ehb').
    rewrite !inputs_snoc, Hb, Hb' in Hnc.
    assert (b = b') as <- by (apply Hnc; [set_solver|set_solver|congruence]).
    rewrite fmap_app, Forall_app in Hg, Hg'. cbn in Hg, Hg'. rewrite Forall_singleton in Hg, Hg'.
    destruct Hg as [Hg Hga], Hg' as [Hg' Hga'].
    destruct (enc_inj _ _ _ _ _ Hga Hga' Hb Hb') as [HR Hp].
    apply Forall2_app; [|by repeat constructor].
    apply IH; [done..|]. intros x y Hx Hy. apply Hnc; set_solver.
Qed.
End linked.

Arguments inputs {A} enc p l.

(** ** Events *)

Section events.
Context (sha256_hex : list N -> ustr).

(** The content of an Event apart from its link. *)
Definition event_input (ev : Event) (p : option ustr) : res (list N) :=
  hash_input sha256_hex {|
    event_id := ev.(event_id); schema_version := ev.(schema_version);
    workspace_id := ev.(workspace_id); aggregate_type := ev.(aggregate_type);
    aggregate_id := ev.(aggregate_id); aggregate_seq := ev.(aggregate_seq);
    channel_id := ev.(channel_id); task_id := ev.(task_id); event_type := ev.(event_type);
    actor_account_id := ev.(actor_account_id); caused_by := ev.(caused_by);
    correlation_id := ev.(correlation_id); idempotency_scope := ev.(idempotency_scope);
    idempotency_key := ev.(idempotency_key); policy_version := ev.(policy_version);
    occurred_at := ev.(occurred_at);
    sensitive_payload_key_ref := ev.(sensitive_payload_key_ref); payload := ev.(payload);
    sensitive_payload_ciphertext := ev.(sensitive_payload_ciphertext);
    previous_hash := p; content_hash := ev.(content_hash); recorded_seq := ev.(recorded_seq) |}.

Lemma event_input_own ev : event_input ev ev.(previous_hash) = hash_input sha256_hex ev.
Proof. by destruct ev. Qed.

(** Two Events that say the same: equal metadata, payloads equal as JSON and
    ciphertexts with the same digest. *)
Definition same_event (e e' : Event) : Prop :=
  HASHED_METADATA_FIELDS e = HASHED_METADATA_FIELDS e' /\
  jeq (JObj e.(payload)) (JObj e'.(payload)) /\
  ciphertext_digest sha256_hex e.(sensitive_payload_ciphertext) =
    ciphertext_digest sha256_hex e'.(sensitive_payload_ciphertext).

(** An Event whose payload is a JSON object of the canonical subset. *)
Definition good_event (ev : Event) : bool :=
  wf (JObj ev.(payload)) && no_floats (JObj ev.(payload)).

Definition body_keys : list ustr := lit <$> [
  "event_id"; "schema_version"; "workspace_id"; "aggregate_type"; "aggregate_id";
  "aggregate_seq"; "channel_id"; "task_id"; "type"; "actor_account_id"; "caused_by";
  "correlation_id"; "idempotency_scope"; "idempotency_key"; "policy_version"; "occurred_at";
  "sensitive_payload_key_ref"; "payload"; "sensitive_payload_sha256"; "previous_hash"].

Lemma body_keys_nodup : NoDup body_keys.
Proof. apply (bool_decide_unpack _). vm_compute. exact I. Qed.

Definition body_of (e : Event) (d p : option ustr) : list (ustr * json) :=
  HASHED_METADATA_FIELDS e ++ [(lit "payload", JObj e.(payload));
    (lit "sensitive_payload_sha256", jopt d); (lit "previous_hash", jopt p)].

Lemma jopt_scalar o : scalar (jopt o) = true.
Proof. by destruct o. Qed.

Lemma jopt_inj o o' : jopt o = jopt o' -> o = o'.
Proof. destruct o, o'; cbn; congruence. Qed.

Lemma body_keys_of e d p : (body_of e d p).*1 = body_keys.
Proof. reflexivity. Qed.

Lemma body_wf e d p : good_event e = true -> wf (JObj (body_of e d p)) = true.
Proof.
  unfold good_event. intros [Hwf _]%andb_true_iff.
  change (wf (JObj (body_of e d p))) with
    (bool_decide (NoDup (body_of e d p).*1) &&
     forallb (fun e => forallb code_point e.1 && wf e.2) (body_of e d p)).
  rewrite body_keys_of, bool_decide_eq_true_2 by apply body_keys_nodup.
  unfold body_of. rewrite forallb_app. cbn [forallb fst snd]. rewrite Hwf.
  assert (forall o, wf (jopt o) = true) as Ho by (by intros []).
  rewrite !Ho. unfold HASHED_METADATA_FIELDS. cbn [forallb fst snd].
  rewrite !Ho. reflexivity.
Qed.

Lemma body_no_floats e d p : good_event e = true -> no_floats (JObj (body_of e d p)) = true.
Proof.
  unfold good_event. intros [_ Hnf]%andb_true_iff.
  change (no_floats (JObj (body_of e d p))) with (forallb (fun e => no_floats e.2) (body_of e d p)).
  unfold body_of. rewrite forallb_app. cbn [forallb fst snd]. rewrite Hnf.
  assert (forall o, no_floats (jopt o) = true) as Ho by (by intros []).
  rewrite !Ho. unfold HASHED_METADATA_FIELDS. cbn [forallb fst snd].
  rewrite !Ho. reflexivity.
Qed.

Lemma metadata_scalar e : Forall (fun x => scalar x.2 = true) (HASHED_METADATA_FIELDS e).
Proof. unfold HASHED_METADATA_FIELDS. repeat constructor; apply jopt_scalar. Qed.

Lemma body_jeq e e' d d' p p' :
  jeq (JObj (body_of e d p)) (JObj (body_of e' d' p')) ->
  HASHED_METADATA_FIELDS e = HASHED_METADATA_FIELDS e' /\
  jeq (JObj e.(payload)) (JObj e'.(payload)) /\ d = d' /\ p = p'.
Proof.
  intros H. apply jeq_same_keys in H; [|rewrite body_keys_of; apply body_keys_nodup|by rewrite !body_keys_of].
  apply Forall2_app_inv in H as [H1 H2]; [|done].
  apply jeq_scalar_entries in H1; [|apply metadata_scalar].
  apply Forall2_cons in H2 as [[_ Hp] H2]. apply Forall2_cons in H2 as [[_ Hd] H2].
  apply Forall2_cons in H2 as [[_ Hq] _].
  apply jeq_scalar, jopt_inj in Hd; [|apply jopt_scalar].
  apply jeq_scalar, jopt_inj in Hq; [|apply jopt_scalar]. done.
Qed.

Lemma event_input_inj e e' p p' b :
  good_event e = true -> good_event e' = true ->
  event_input e p = Ok b -> event_input e' p' = Ok b -> same_event e e' /\ p = p'.
Proof.
  intros Hg Hg' Hb Hb'. unfold event_input, hash_input, hash_body in Hb, Hb'.
  apply res_bind_ok in Hb as (body & Hbody & Hb). apply res_bind_ok in Hb' as (body' & Hbody' & Hb').
  apply res_bind_ok in Hbody as (d & Hd & [= <-]). apply res_bind_ok in Hbody' as (d' & Hd' & [= <-]).
  change (canonical_json (JObj (body_of e d p)) = Ok b) in Hb.
  change (canonical_json (JObj (body_of e' d' p')) = Ok b) in Hb'.
  assert (jeq (JObj (body_of e d p)) (JObj (body_of e' d' p'))) as Hj.
  { eapply canonical_json_eq_jeq; eauto using body_no_floats. }
  apply body_jeq in Hj as (H1 & H2 & -> & ->).
  cbn in Hd, Hd'. split; [|done]. split_and!; [done..|congruence].
Qed.

(** A stream in which nothing is to report, from sequence number [n] after the
    hash [p]. *)
Fixpoint intact (n : Z) (p : option ustr) (evs : list Event) : Prop :=
  match evs with
  | [] => True
  | ev :: rest =>
      ev.(aggregate_seq) = n /\ ev.(previous_hash) = p /\
      (exists h, compute_content_hash sha256_hex ev = Ok h /\ ev.(content_hash) = Some h) /\
      intact (n + 1) ev.(content_hash) rest
  end.

Lemma report_nil {A} ok (x : A) l : report ok x ++ l = [] <-> ok = true /\ l = [].
Proof. destruct ok; cbn; naive_solver. Qed.

Lemma verify_from_intact n p evs : verify_from sha256_hex n p evs = Ok [] <-> intact n p evs.
Proof.
  revert n p. induction evs as [|ev rest IH]; intros n p; [done|]. cbn [verify_from intact].
  rewrite <- IH. unfold verify_content_hash. split.
  - intros (ok & Hok & H)%res_bind_ok. apply res_bind_ok in Hok as (h & Hh & [= <-]).
    apply res_bind_ok in H as (tail & -> & [= H]).
    rewrite !report_nil in H. destruct H as (H1%bool_decide_eq_true & H2%bool_decide_eq_true & H3%bool_decide_eq_true & ->).
    split_and!; eauto.
  - intros (H1 & H2 & (h & Hh & H3) & H4). rewrite Hh, H4. cbn.
    by rewrite !bool_decide_eq_true_2.
Qed.

Lemma intact_snoc n p evs e :
  intact n p (evs ++ [e]) <->
  intact n p evs /\ e.(aggregate_seq) = (n + Z.of_nat (length evs))%Z /\
  e.(previous_hash) = match last evs with Some l => l.(content_hash) | None => p end /\
  exists h, compute_content_hash sha256_hex e = Ok h /\ e.(content_hash) = Some h.
Proof.
  revert n p. induction evs as [|x evs IH]; intros n p.
  - cbn. rewrite Z.add_0_r. tauto.
  - cbn [intact app]. rewrite IH, last_cons. cbn [length].
    replace (n + 1 + Z.of_nat (length evs))%Z with (n + Z.of_nat (S (length evs)))%Z by lia.
    destruct (last evs); tauto.
Qed.

Lemma intact_last_seq p evs e :
  intact 1 p evs -> last evs = Some e -> e.(aggregate_seq) = Z.of_nat (length evs).
Proof.
  intros H [l ->]%last_Some. apply intact_snoc in H as (_ & -> & _).
  rewrite length_app. cbn. lia.
Qed.

Definition chain_of (evs : list Event) : list (Event * ustr) :=
  (fun e => (e, default [] e.(content_hash))) <$> evs.

Definition chain_inputs (evs : list Event) : list (list N) := inputs event_input None (chain_of evs).

Lemma intact_linked n p evs : intact n p evs -> linked sha256_hex event_input p (chain_of evs).
Proof.
  revert n p. induction evs as [|ev rest IH]; intros n p; [done|].
  intros (_ & <- & (h & Hh & Hc) & Hrest). cbn. rewrite event_input_own, Hc. cbn.
  apply res_bind_ok in Hh as (b & Hb & [= <-]).
  split; [eauto|]. rewrite Hc in Hrest. by eapply IH.
Qed.

Lemma intact_head n evs : intact n None evs ->
  head_hash None (chain_of evs) = last evs ≫= content_hash.
Proof.
  intros H. unfold head_hash, chain_of. rewrite fmap_last.
  destruct (last evs) as [ev|] eqn:Hl; [|done]. cbn.
  apply last_Some in Hl as [l ->]. revert n H. generalize (@None ustr).
  induction l as [|x l IH]; intros p n.
  - cbn. intros (_ & _ & (h & _ & ->) & _). done.
  - cbn. intros (_ & _ & _ & H). by eapply IH.
Qed.

Lemma chain_of_good evs :
  Forall (fun e => good_event e = true) evs -> Forall (fun e => good_event e = true) (chain_of evs).*1.
Proof. unfold chain_of. rewrite <- list_fmap_compose. cbn. by rewrite list_fmap_id. Qed.

End events.

(** ** Rows and anchors *)

Section rows.
Context (sha256_hex : list N -> ustr) (isoformat date_iso : Z -> ustr) (spec : ChainSpec).

Notation fields_of := (hashed_row_fields isoformat date_iso spec).

(** The names of a chain's hashed columns: distinct, none of them the link. *)
Definition good_spec : bool :=
  bool_decide (NoDup (spec.(hashed_fields) ++ [lit "previous_hash"])) &&
  forallb (forallb code_point) spec.(hashed_fields).

Definition good_row (row : Row) : bool :=
  forallb (fun e => wf e.2 && no_floats e.2) (fields_of row).

Definition same_row (r r' : Row) : Prop :=
  Forall2 (fun e e' => e.1 = e'.1 /\ jeq e.2 e'.2) (fields_of r) (fields_of r').

Definition row_input (r : Row) (p : option ustr) : res (list N) := chain_input (fields_of r) p.

Lemma fields_keys r : (fields_of r).*1 = spec.(hashed_fields).
Proof. unfold hashed_row_fields. rewrite <- list_fmap_compose. apply list_fmap_id. Qed.

Hypothesis spec_ok : good_spec = true.

Lemma row_body_keys r p :
  (fields_of r ++ [(lit "previous_hash", jopt p)]).*1 = spec.(hashed_fields) ++ [lit "previous_hash"].
Proof. by rewrite fmap_app, fields_keys. Qed.

Lemma row_input_inj r r' p p' b :
  good_row r = true -> good_row r' = true ->
  row_input r p = Ok b -> row_input r' p' = Ok b -> same_row r r' /\ p = p'.
Proof using spec_ok.
  unfold good_row, row_input, chain_input. intros Hg Hg' Hb Hb'.
  apply andb_true_iff in spec_ok as [Hnd%bool_decide_eq_true _].
  assert (forall x q, forallb (fun e => wf e.2 && no_floats e.2) (fields_of x) = true ->
    no_floats (JObj (fields_of x ++ [(lit "previous_hash", jopt q)])) = true) as Hnf.
  { intros x q Hx. cbn -[hashed_row_fields]. rewrite forallb_app. cbn [forallb snd].
    apply andb_true_iff. split; [|by destruct q].
    rewrite forallb_forall in Hx |- *. intros e He. by specialize (Hx e He) as [_ ?]%andb_true_iff. }
  assert (jeq (JObj (fields_of r ++ [(lit "previous_hash", jopt p)]))
              (JObj (fields_of r' ++ [(lit "previous_hash", jopt p')]))) as Hj
    by (eapply canonical_json_eq_jeq; eauto).
  apply jeq_same_keys in Hj; [|by rewrite row_body_keys|by rewrite !row_body_keys].
  apply Forall2_app_inv in Hj as [H1 H2].
  - apply Forall2_cons in H2 as [[_ Hq] _]. cbn in Hq.
    apply jeq_scalar, jopt_inj in Hq; [|by destruct p]. done.
  - unfold hashed_row_fields. by rewrite !length_fmap.
Qed.

Definition recomputed_chain (rows : list Row) (rc : list (Z * ustr)) : list (Row * ustr) :=
  zip rows rc.*2.

Lemma recompute_linked p rows rc :
  recompute sha256_hex isoformat date_iso spec p rows = Ok rc ->
  linked sha256_hex row_input p (recomputed_chain rows rc) /\ rc.*1 = row_id <$> rows.
Proof.
  revert p rc. induction rows as [|r rows IH]; intros p rc; cbn; [by intros [= <-]|].
  intros (h & Hh & H)%res_bind_ok. apply res_bind_ok in H as (tail & Ht & [= <-]).
  apply res_bind_ok in Hh as (b & Hb & [= <-]). apply IH in Ht as [Hl Hk].
  cbn. split; [|by f_equal]. split; [|done]. exists b. done.
Qed.

Lemma linked_take p l n :
  linked sha256_hex row_input p l -> linked sha256_hex row_input p (take n l).
Proof.
  revert p n. induction l as [|[a h] l IH]; intros p [|n] H; cbn; try done.
  destruct H as [H1 H2]. split; [done|]. by apply IH.
Qed.

Lemma lookup_id_Some {A} rid (l : list (Z * A)) x :
  lookup_id rid l = Some x -> exists i, l !! i = Some (rid, x).
Proof.
  unfold lookup_id. destruct (find _ l) as [[k y]|] eqn:Hf; [|done]. cbn. intros [= <-].
  apply find_some in Hf as [Hin Hk%Z.eqb_eq]. cbn in Hk. subst k.
  by apply list_elem_of_In, list_elem_of_lookup in Hin.
Qed.

Lemma check_anchors_ok rows rc anchors a :
  check_anchors sha256_hex date_iso spec rows rc anchors = Ok [] -> a ∈ anchors ->
  lookup_id a.(last_row_id) rc = Some a.(last_hash_value).
Proof.
  induction anchors as [|x anchors IH]; cbn; [intros _ []%not_elem_of_nil|].
  intros (pb & Hp & H)%res_bind_ok. apply res_bind_ok in H as (tail & Ht & [= Hnil]).
  apply app_eq_nil in Hnil as [-> ->]. intros [->|Hin]%elem_of_cons; [|by apply IH].
  unfold check_anchor in Hp. apply res_bind_ok in Hp as (b & _ & [= Hp]).
  rewrite !report_nil in Hp. destruct Hp as (_ & Hp%bool_decide_eq_true & _). done.
Qed.

(** The rows up to the row [rid], the part of the table an anchor at [rid]
    speaks about. *)
Fixpoint upto (rid : Z) (rows : list Row) : list Row :=
  match rows with
  | [] => []
  | r :: rows => if (r.(row_id) =? rid)%Z then [r] else r :: upto rid rows
  end.

Lemma upto_take rows i r :
  NoDup (row_id <$> rows) -> rows !! i = Some r -> upto r.(row_id) rows = take (S i) rows.
Proof.
  revert i. induction rows as [|x rows IH]; intros [|i] Hnd Hi; try done; cbn in Hi |- *.
  - injection Hi as ->. by rewrite Z.eqb_refl, take_0.
  - apply NoDup_cons in Hnd as [Hx Hnd]. destruct (Z.eqb_spec x.(row_id) r.(row_id)) as [E|_].
    + destruct Hx. rewrite E. apply list_elem_of_fmap_2. by eapply list_elem_of_lookup_2.
    + f_equal. by apply IH.
Qed.

Lemma verify_anchors_chain rows anchors a :
  NoDup (row_id <$> rows) ->
  verify_anchors sha256_hex isoformat date_iso spec rows anchors = Ok [] ->
  a ∈ anchors -> a.(anchor_chain) = spec.(chain_name) ->
  exists l, l.*1 = upto a.(last_row_id) rows /\ linked sha256_hex row_input None l /\
    head_hash None l = Some a.(last_hash_value).
Proof.
  intros Hnd H Ha Hname. unfold verify_anchors in H.
  assert (a ∈ filter (fun a => a.(anchor_chain) = spec.(chain_name)) anchors) as Hin
    by by apply list_elem_of_filter.
  destruct (filter _ anchors) as [|x xs] eqn:Hf; [by apply elem_of_nil in Hin|].
  apply res_bind_ok in H as (rc & Hrc & H). rewrite <- Hf in *.
  apply check_anchors_ok with (a := a) in H; [|done].
  apply recompute_linked in Hrc as [Hl Hk].
  apply lookup_id_Some in H as [i Hi].
  assert (exists r, rows !! i = Some r /\ r.(row_id) = a.(last_row_id)) as (r & Hr & Hrid).
  { assert (rc.*1 !! i = Some a.(last_row_id)) as E by by rewrite list_lookup_fmap, Hi.
    rewrite Hk, list_lookup_fmap in E. destruct (rows !! i) as [r|]; [|done].
    injection E as E. eauto. }
  assert (recomputed_chain rows rc !! i = Some (r, a.(last_hash_value))) as Hlook.
  { unfold recomputed_chain. rewrite lookup_zip_with, Hr. cbn.
    by rewrite list_lookup_fmap, Hi. }
  exists (take (S i) (recomputed_chain rows rc)). split_and!.
  - rewrite fmap_take. unfold recomputed_chain. rewrite fst_zip.
    + by rewrite <- Hrid, (upto_take _ i).
    + rewrite length_fmap, <- (length_fmap fst rc), Hk, length_fmap. done.
  - by apply linked_take.
  - unfold head_hash. rewrite (take_S_r _ _ _ Hlook), last_snoc. done.
Qed.

(** The bytes hashed when the rows up to an anchor are recomputed. *)
Fixpoint row_inputs (p : option ustr) (rows : list Row) : list (list N) :=
  match rows with
  | [] => []
  | r :: rows => match row_input r p with
                 | Ok b => b :: row_inputs (Some (sha256_hex b)) rows
                 | Err _ => []
                 end
  end.

Lemma inputs_row_inputs p l :
  linked sha256_hex row_input p l -> inputs row_input p l = row_inputs p l.*1.
Proof.
  revert p. induction l as [|[r h] l IH]; intros p; cbn; [done|].
  intros [(b & -> & ->) Hl]. cbn. f_equal. by apply IH.
Qed.

Lemma upto_good n rows :
  forallb good_row rows = true -> Forall (fun r => good_row r = true) (upto n rows).
Proof.
  intros H%forallb_Forall_true.
  induction H as [|r x Hr _ IH]; cbn; [constructor|]. case_match; by repeat constructor.
Qed.

(** An anchor pins the history before it: two versions of a chained table
    that both pass [verify_anchors] against the same anchor hold the same
    hashed fields in every row up to the anchored one, unless SHA-256 collides
    on the bytes recomputed for the two versions. A rewrite of the table that
    also rewrites every stored hash is thus still reported. *)
Theorem anchor_pins_history rows rows' anchors anchors' a :
  NoDup (row_id <$> rows) -> NoDup (row_id <$> rows') ->
  forallb good_row rows = true -> forallb good_row rows' = true ->
  a ∈ anchors -> a ∈ anchors' -> a.(anchor_chain) = spec.(chain_name) ->
  verify_anchors sha256_hex isoformat date_iso spec rows anchors = Ok [] ->
  verify_anchors sha256_hex isoformat date_iso spec rows' anchors' = Ok [] ->
  no_collision sha256_hex (row_inputs None (upto a.(last_row_id) rows))
    (row_inputs None (upto a.(last_row_id) rows')) ->
  Forall2 same_row (upto a.(last_row_id) rows) (upto a.(last_row_id) rows').
Proof using spec_ok.
  intros Hnd Hnd' Hg Hg' Ha Ha' Hname Hv Hv' Hnc.
  destruct (verify_anchors_chain _ _ _ Hnd Hv Ha Hname) as (l & E & Hl & Hh).
  destruct (verify_anchors_chain _ _ _ Hnd' Hv' Ha' Hname) as (l' & E' & Hl' & Hh').
  pose proof (upto_good a.(last_row_id) _ Hg) as Hu. pose proof (upto_good a.(last_row_id) _ Hg') as Hu'.
  rewrite <- E in Hu, Hnc |- *. rewrite <- E' in Hu', Hnc |- *. rewrite <- !inputs_row_inputs in Hnc by done.
  assert (Forall2 (fun x y => same_row x.1 y.1 /\ x.2 = y.2) l l') as H.
  { eapply (linked_pinned sha256_hex row_input (fun r => good_row r = true) same_row);
      eauto using row_input_inj; congruence. }
  rewrite Forall2_fmap. eapply Forall2_impl; [exact H|]. by intros x y [? _].
Qed.
End rows.

(** * Concrete chains *)

(** The identity stands in for SHA-256: it has no collision. *)
Definition id_hash (b : list N) : ustr := b.

Lemma id_hash_no_collision xs ys : no_collision id_hash xs ys.
Proof. intros x y _ _. done. Qed.

Definition seal (e : Event) : Event := {|
  event_id := e.(event_id); schema_version := e.(schema_version);
  workspace_id := e.(workspace_id); aggregate_type := e.(aggregate_type);
  aggregate_id := e.(aggregate_id); aggregate_seq := e.(aggregate_seq);
  channel_id := e.(channel_id); task_id := e.(task_id); event_type := e.(event_type);
  actor_account_id := e.(actor_account_id); caused_by := e.(caused_by);
  correlation_id := e.(correlation_id); idempotency_scope := e.(idempotency_scope);
  idempotency_key := e.(idempotency_key); policy_version := e.(policy_version);
  occurred_at := e.(occurred_at); sensitive_payload_key_ref := e.(sensitive_payload_key_ref);
  payload := e.(payload); sensitive_payload_ciphertext := e.(sensitive_payload_ciphertext);
  previous_hash := e.(previous_hash);
  content_hash := match compute_content_hash id_hash e with Ok h => Some h | Err _ => None end;
  recorded_seq := e.(recorded_seq) |}.

Definition sample_event (seq : Z) (prev : option ustr) (body : list (ustr * json)) : Event :=
  seal {| event_id := lit "evt-1"; schema_version := 1; workspace_id := lit "ws";
    aggregate_type := lit "task"; aggregate_id := lit "T-1"; aggregate_seq := seq;
    channel_id := None; task_id := Some (lit "T-1"); event_type := lit "TASK_CREATED";
    actor_account_id := lit "acct"; caused_by := None; correlation_id := lit "c";
    idempotency_scope := lit "task:create"; idempotency_key := lit "k";
    policy_version := lit "policy-v1"; occurred_at := lit "2026-01-01T00:00:00.000Z";
    sensitive_payload_key_ref := None; payload := body;
    sensitive_payload_ciphertext := Some (lit "SGVsbG8="); previous_hash := prev;
    content_hash := None; recorded_seq := seq |}.

Definition sample_stream (body : list (ustr * json)) : list Event :=
  let e1 := sample_event 1 None body in
  [e1; sample_event 2 e1.(content_hash) [(lit "n", JInt 2)]].


(** A reordered or an altered Event is reported. *)
Example altered_event_reported :
  verify_chain id_hash (reverse (sample_stream [])) <> Ok [] /\
  verify_chain id_hash [sample_event 2 None []] <> Ok [].
Proof. split; vm_compute; discriminate. Qed.

Definition sample_row (rid : Z) (prev : option ustr) (key : string) : Row :=
  let cs := [(lit "key_ref", CText (lit key)); (lit "destroyed_at", CDatetime rid)] in
  {| row_id := rid; cells := cs; row_previous_hash := prev;
     row_content_hash :=
       match chain_hash id_hash (hashed_row_fields (fun t => str_int t) str_int TOMBSTONE_CHAIN
               {| row_id := rid; cells := cs; row_previous_hash := prev; row_content_hash := [] |}) prev
       with Ok h => h | Err _ => [] end |}.

Definition sample_rows : list Row :=
  let r1 := sample_row 1 None "k1" in [r1; sample_row 4 (Some r1.(row_content_hash)) "k2"].

Definition sample_anchor : Anchor :=
  match record_anchor id_hash str_int TOMBSTONE_CHAIN 20000 sample_rows [] with
  | Ok (_, a :: _) => a
  | _ => {| anchor_chain := []; anchor_date := 0; last_row_id := 0; last_hash_value := [];
            anchor_hash := [] |}
  end.

(** The table at the anchor, and the table after one more row. *)
Lemma anchor_pins_history_witness :
  Forall2 (same_row str_int str_int TOMBSTONE_CHAIN) (upto 4 sample_rows)
    (upto 4 (sample_rows ++ [sample_row 9 None "k3"])).
Proof.
  apply (anchor_pins_history id_hash str_int str_int TOMBSTONE_CHAIN
    ltac:(vm_compute; reflexivity) sample_rows (sample_rows ++ [sample_row 9 None "k3"])
    [sample_anchor] [sample_anchor] sample_anchor).
  all: first [apply id_hash_no_collision | by left | vm_compute; reflexivity
             |apply (bool_decide_unpack _); vm_compute; exact I].
Defined.
