(* ===== verification/EventStore.v ===== *)
(** The in-memory Event store of [server/events/store.py]: idempotent append,
    per-aggregate sequence numbers and hash chain. The fresh event id and the
    clock text of an append are arguments of the call. *)

From S2P Require Import Prelude Canonical HashChain.
Open Scope Z_scope.

Record AppendRequest := {
  r_workspace_id : ustr;
  r_aggregate_type : ustr;
  r_aggregate_id : ustr;
  r_type : ustr;
  r_actor_account_id : ustr;
  r_correlation_id : ustr;
  r_idempotency_scope : ustr;
  r_idempotency_key : ustr;
  r_payload : list (ustr * json);
  r_policy_version : ustr;
  r_channel_id : option ustr;
  r_task_id : option ustr;
  r_caused_by : option ustr;
  r_expected_seq : option Z;
  r_sensitive : option (list (ustr * json));
  r_schema_version : Z }.

Record AppendResult := {
  a_event_id : ustr;
  a_aggregate_seq : Z;
  a_content_hash : option ustr;
  a_recorded_seq : Z;
  replayed : bool }.

#[global] Instance AppendResult_eq_dec : EqDecision AppendResult.
Proof. solve_decision. Defined.

(** [(workspace, actor, scope, key)] *)
Definition idem_key : Type := ustr * ustr * ustr * ustr.

Definition request_key (r : AppendRequest) : idem_key :=
  (r.(r_workspace_id), r.(r_actor_account_id), r.(r_idempotency_scope), r.(r_idempotency_key)).

Record InMemoryEventStore := {
  events : list Event;
  _idem : gmap idem_key (ustr * ustr) }.

Definition empty_store : InMemoryEventStore := {| events := []; _idem := ∅ |}.

Definition aggregate_of (e : Event) : ustr * ustr * ustr :=
  (e.(workspace_id), e.(aggregate_type), e.(aggregate_id)).

(** [for ev in reversed(self.events): if ...: return ev] *)
Definition _last (evs : list Event) (agg : ustr * ustr * ustr) : option Event :=
  find (fun e => bool_decide (aggregate_of e = agg)) (reverse evs).

Definition stream (s : InMemoryEventStore) (agg : ustr * ustr * ustr) : list Event :=
  filter (fun e => aggregate_of e = agg) s.(events).

Definition result_of_event (e : Event) (again : bool) : AppendResult := {|
  a_event_id := e.(event_id); a_aggregate_seq := e.(aggregate_seq);
  a_content_hash := e.(content_hash); a_recorded_seq := e.(recorded_seq);
  replayed := again |}.

Section store.
Context (sha256_hex : list N -> ustr).

Definition request_body_hash (r : AppendRequest) : res ustr :=
  bytes ← canonical_json (JObj [
    (lit "workspace_id", JStr r.(r_workspace_id));
    (lit "aggregate_type", JStr r.(r_aggregate_type));
    (lit "aggregate_id", JStr r.(r_aggregate_id));
    (lit "type", JStr r.(r_type));
    (lit "payload", JObj r.(r_payload));
    (lit "sensitive", match r.(r_sensitive) with Some s => JObj s | None => JNull end);
    (lit "channel_id", jopt r.(r_channel_id));
    (lit "task_id", jopt r.(r_task_id));
    (lit "caused_by", jopt r.(r_caused_by))]);
  Ok (sha256_hex bytes).

(** The envelope of a new Event, before its [content_hash]. *)
Definition new_event (new_id now : ustr) (r : AppendRequest) (next_seq : Z) (prev : option ustr)
    (ciphertext key_ref : option ustr) : Event := {|
  event_id := lit "evt-" ++ new_id;
  schema_version := r.(r_schema_version);
  workspace_id := r.(r_workspace_id);
  aggregate_type := r.(r_aggregate_type);
  aggregate_id := r.(r_aggregate_id);
  aggregate_seq := next_seq;
  channel_id := r.(r_channel_id);
  task_id := r.(r_task_id);
  event_type := r.(r_type);
  actor_account_id := r.(r_actor_account_id);
  caused_by := r.(r_caused_by);
  correlation_id := r.(r_correlation_id);
  idempotency_scope := r.(r_idempotency_scope);
  idempotency_key := r.(r_idempotency_key);
  policy_version := r.(r_policy_version);
  occurred_at := now;
  sensitive_payload_key_ref := key_ref;
  payload := r.(r_payload);
  sensitive_payload_ciphertext := ciphertext;
  previous_hash := prev;
  content_hash := None;
  recorded_seq := 0 |}.

(** [event["content_hash"] = ...; event["recorded_seq"] = ...] *)
Definition sealed (e : Event) (h : ustr) (rec : Z) : Event := {|
  event_id := e.(event_id); schema_version := e.(schema_version);
  workspace_id := e.(workspace_id); aggregate_type := e.(aggregate_type);
  aggregate_id := e.(aggregate_id); aggregate_seq := e.(aggregate_seq);
  channel_id := e.(channel_id); task_id := e.(task_id); event_type := e.(event_type);
  actor_account_id := e.(actor_account_id); caused_by := e.(caused_by);
  correlation_id := e.(correlation_id); idempotency_scope := e.(idempotency_scope);
  idempotency_key := e.(idempotency_key); policy_version := e.(policy_version);
  occurred_at := e.(occurred_at); sensitive_payload_key_ref := e.(sensitive_payload_key_ref);
  payload := e.(payload); sensitive_payload_ciphertext := e.(sensitive_payload_ciphertext);
  previous_hash := e.(previous_hash); content_hash := Some h; recorded_seq := rec |}.

Definition known_cause (evs : list Event) (r : AppendRequest) : bool :=
  match r.(r_caused_by) with
  | None => true
  | Some c => existsb (fun e => bool_decide (e.(event_id) = c)) evs
  end.

Definition append (new_id now : ustr) (r : AppendRequest) : meth InMemoryEventStore AppendResult :=
  fun s =>
  let key := request_key r in
  match request_body_hash r with
  | Err e => (s, Err e)
  | Ok body_hash =>
  match s.(_idem) !! key with
  | Some (prior_hash, prior_event_id) =>
      if bool_decide (prior_hash <> body_hash) then (s, Err "IDEMPOTENCY_CONFLICT")
      else match find (fun e => bool_decide (e.(event_id) = prior_event_id)) s.(events) with
           | Some prior => (s, Ok (result_of_event prior true))
           | None => (s, Err "StopIteration")
           end
  | None =>
      let last := _last s.(events) (r.(r_workspace_id), r.(r_aggregate_type), r.(r_aggregate_id)) in
      let next_seq := match last with Some l => l.(aggregate_seq) + 1 | None => 1 end in
      if match r.(r_expected_seq) with Some x => negb (x =? next_seq) | None => false end
      then (s, Err "SEQUENCE_CONFLICT")
      else if negb (known_cause s.(events) r) then (s, Err "CAUSED_BY_UNKNOWN")
      else
        let event := new_event new_id now r next_seq (last ≫= content_hash) None None in
        match compute_content_hash sha256_hex event with
        | Err e => (s, Err e)
        | Ok h =>
            let event := sealed event h (Z.of_nat (length s.(events)) + 1) in
            ({| events := s.(events) ++ [event];
                _idem := <[key := (body_hash, event.(event_id))]> s.(_idem) |},
             Ok (result_of_event event false))
        end
  end end.

(** ** The state a sequence of appends reaches *)

(** One call of [append] with a fresh id, as [uuid.uuid4] gives. *)
Definition store_step (s : InMemoryEventStore) (call : ustr * ustr * AppendRequest)
    : option InMemoryEventStore :=
  let '(new_id, now, r) := call in
  if bool_decide (lit "evt-" ++ new_id ∈ event_id <$> s.(events)) then None
  else Some (append new_id now r s).1.

Definition idem_of (evs : list Event) (s : InMemoryEventStore) : Prop :=
  forall k bh eid, s.(_idem) !! k = Some (bh, eid) -> eid ∈ event_id <$> evs.

Record store_ok (s : InMemoryEventStore) : Prop := {
  ok_streams agg : intact sha256_hex 1 None (stream s agg);
  ok_ids : NoDup (event_id <$> s.(events));
  ok_recorded i e : s.(events) !! i = Some e -> e.(recorded_seq) = Z.of_nat i + 1;
  ok_idem : idem_of s.(events) s }.

Lemma find_reverse_last {A} (P : A -> Prop) `{forall x, Decision (P x)} (l : list A) :
  find (fun x => bool_decide (P x)) (reverse l) = last (filter P l).
Proof.
  induction l as [|x l IH] using rev_ind; [done|].
  rewrite reverse_app, filter_app. cbn [find reverse rev_append app]. case_bool_decide as HP.
  - rewrite filter_cons_True by done. cbn. by rewrite last_snoc.
  - rewrite filter_cons_False by done. cbn. by rewrite app_nil_r.
Qed.

Lemma last_of_stream s agg : _last s.(events) agg = last (stream s agg).
Proof. apply find_reverse_last. Qed.

(** Every call either leaves the store as it was or adds one Event. *)
Variant append_outcome (new_id now : ustr) (r : AppendRequest) (s : InMemoryEventStore)
    : InMemoryEventStore -> res AppendResult -> Prop :=
| append_unchanged e : append_outcome new_id now r s s (Err e)
| append_replayed bh prior :
    request_body_hash r = Ok bh ->
    s.(_idem) !! request_key r = Some (bh, prior.(event_id)) -> prior ∈ s.(events) ->
    append_outcome new_id now r s s (Ok (result_of_event prior true))
| append_new bh h event :
    request_body_hash r = Ok bh -> s.(_idem) !! request_key r = None ->
    let last := last (stream s (r.(r_workspace_id), r.(r_aggregate_type), r.(r_aggregate_id))) in
    event = sealed (new_event new_id now r
      (match last with Some l => l.(aggregate_seq) + 1 | None => 1 end)
      (last ≫= content_hash) None None) h (Z.of_nat (length s.(events)) + 1) ->
    compute_content_hash sha256_hex event = Ok h ->
    append_outcome new_id now r s
      {| events := s.(events) ++ [event];
         _idem := <[request_key r := (bh, event.(event_id))]> s.(_idem) |}
      (Ok (result_of_event event false)).

Lemma append_cases new_id now r s :
  append_outcome new_id now r s (append new_id now r s).1 (append new_id now r s).2.
Proof.
  unfold append. destruct (request_body_hash r) as [bh|] eqn:Hb; [|constructor].
  destruct (s.(_idem) !! request_key r) as [[bh' eid]|] eqn:Hi.
  - case_bool_decide as H; [constructor|]. destruct (find _ _) as [prior|] eqn:Hf; [|constructor].
    apply find_some in Hf as [Hin Heq%bool_decide_eq_true]. apply list_elem_of_In in Hin.
    apply append_replayed with bh; [done| |done]. cbn. congruence.
  - rewrite last_of_stream.
    repeat match goal with |- context [if ?b then (s, Err _) else _] => destruct b; [constructor|] end.
    destruct (compute_content_hash _ _) as [h|] eqn:Hh; [|constructor].
    by eapply append_new.
Qed.

Lemma store_ok_empty : store_ok empty_store.
Proof. split; cbn; [done|constructor|done|done]. Qed.

Lemma stream_app s evs agg :
  filter (fun e => aggregate_of e = agg) (s.(events) ++ evs) =
  stream s agg ++ filter (fun e => aggregate_of e = agg) evs.
Proof. apply filter_app. Qed.

Lemma store_ok_step s call s' :
  store_ok s -> store_step s call = Some s' -> store_ok s'.
Proof.
  intros Hok. destruct call as [[new_id now] r]. cbn.
  case_bool_decide as Hfresh; [done|]. intros [= <-].
  destruct (append_cases new_id now r s) as [| |bh h event Hbh Hnone l Hev Hh]; [done..|].
  assert (event.(event_id) = lit "evt-" ++ new_id) as Hid by by subst event.
  assert (aggregate_of event = (r.(r_workspace_id), r.(r_aggregate_type), r.(r_aggregate_id)))
    as Hagg by by subst event.
  split; cbn.
  - intros agg. unfold stream. cbn [events]. rewrite stream_app.
    destruct (decide (aggregate_of event = agg)) as [Ha|Ha].
    + rewrite filter_cons_True, filter_nil by done. apply intact_snoc. split_and!.
      * apply Hok.
      * subst event. cbn -[Z.of_nat]. rewrite <- Ha, Hagg. unfold l.
        destruct (last (stream s _)) as [x|] eqn:Hl.
        -- rewrite (intact_last_seq sha256_hex None _ _ (ok_streams s Hok _) Hl). lia.
        -- apply last_None in Hl. rewrite Hl. done.
      * subst event. cbn. rewrite <- Ha, Hagg. unfold l. by destruct (last (stream s _)).
      * exists h. split; [done|]. by subst event.
    + rewrite filter_cons_False, filter_nil, app_nil_r by done. apply Hok.
  - rewrite fmap_app. apply NoDup_app. split_and!; [apply Hok| |apply NoDup_singleton].
    intros x Hx ->%list_elem_of_singleton. by rewrite Hid in Hx.
  - intros i e [Hi|(Hi & Hsing)]%lookup_app_Some; [by eapply ok_recorded|].
    apply list_lookup_singleton_Some in Hsing as [Hz <-]. subst event. cbn -[Z.of_nat]. lia.
  - intros k bh' eid. cbn. rewrite lookup_insert_Some, fmap_app, elem_of_app.
    intros [[<- [= _ <-]]|[_ Hk]]; [right; by left|left]. by eapply ok_idem.
Qed.

Lemma store_ok_reachable calls s : run_steps store_step empty_store calls = Some s -> store_ok s.
Proof. apply run_steps_ind; [apply store_ok_empty|apply store_ok_step]. Qed.

(** Whatever calls a store has served, refused and replayed ones included,
    every aggregate's stream passes [verify_chain]: its sequence numbers are
    1, 2, 3, ... without a gap, each Event carries the hash of the one before
    it and its own hash; event ids are unique and [recorded_seq] numbers the
    whole log. *)
Theorem reachable_streams_verify calls s agg :
  run_steps store_step empty_store calls = Some s ->
  verify_chain sha256_hex (stream s agg) = Ok [] /\
  NoDup (event_id <$> s.(events)) /\
  forall i e, s.(events) !! i = Some e -> e.(recorded_seq) = Z.of_nat i + 1.
Proof.
  intros Hok%store_ok_reachable. split; [|split; apply Hok].
  apply verify_from_intact. apply Hok.
Qed.

(** The index entry of a key never changes, and its Event is never dropped. *)
Lemma step_preserves_replay s call s' k bh eid e :
  s.(_idem) !! k = Some (bh, eid) -> e ∈ s.(events) ->
  store_step s call = Some s' -> s'.(_idem) !! k = Some (bh, eid) /\ e ∈ s'.(events).
Proof.
  destruct call as [[new_id now] r]. cbn. case_bool_decide; [done|]. intros Hk He [= <-].
  destruct (append_cases new_id now r s) as [| |bh' h event Hbh Hnone l Hev Hh]; [done..|]. cbn.
  split; [|apply elem_of_app; by left]. apply lookup_insert_Some. right.
  split; [|done]. intros <-. congruence.
Qed.

Lemma run_preserves_replay s calls s' k bh eid e :
  s.(_idem) !! k = Some (bh, eid) -> e ∈ s.(events) ->
  run_steps store_step s calls = Some s' -> s'.(_idem) !! k = Some (bh, eid) /\ e ∈ s'.(events).
Proof.
  intros Hk He. apply (run_steps_ind _ (fun s => s.(_idem) !! k = Some (bh, eid) /\ e ∈ s.(events)));
    [done|]. intros x call x' [? ?] Hstep. by eapply step_preserves_replay.
Qed.

Lemma find_by_id evs e :
  NoDup (event_id <$> evs) -> e ∈ evs ->
  find (fun x => bool_decide (x.(event_id) = e.(event_id))) evs = Some e.
Proof.
  induction evs as [|x evs IH]; [by intros _ ?%not_elem_of_nil|].
  cbn. rewrite NoDup_cons. intros [Hx Hnd] [->|He]%elem_of_cons.
  - by rewrite bool_decide_eq_true_2.
  - rewrite bool_decide_eq_false_2; [by apply IH|]. intros E. destruct Hx. rewrite E.
    by apply list_elem_of_fmap_2.
Qed.

(** A request is stored exactly once. After a call that stored (or
    replayed) a request, and after any further calls, the same request is
    answered with the original result marked [replayed] and a request with the
    same key and another body is refused with [IDEMPOTENCY_CONFLICT]; neither
    changes the store. *)
Theorem append_idempotent calls s new_id now r a s1 later s2 id2 now2 r2 :
  run_steps store_step empty_store calls = Some s ->
  lit "evt-" ++ new_id ∉ event_id <$> s.(events) ->
  append new_id now r s = (s1, Ok a) ->
  run_steps store_step s1 later = Some s2 ->
  request_key r2 = request_key r ->
  forall bh bh2, request_body_hash r = Ok bh -> request_body_hash r2 = Ok bh2 ->
  append id2 now2 r2 s2 =
    (s2, if bool_decide (bh2 = bh)
         then Ok {| a_event_id := a.(a_event_id); a_aggregate_seq := a.(a_aggregate_seq);
                    a_content_hash := a.(a_content_hash); a_recorded_seq := a.(a_recorded_seq);
                    replayed := true |}
         else Err "IDEMPOTENCY_CONFLICT").
Proof.
  intros Hrun Hfresh Happ Hlater Hkey bh bh2 Hbh Hbh2.
  assert (run_steps store_step empty_store (calls ++ (new_id, now, r) :: later) = Some s2) as Hall.
  { rewrite run_steps_app, Hrun. cbn. rewrite bool_decide_eq_false_2 by done.
    by rewrite Happ. }
  apply store_ok_reachable in Hall.
  assert (exists e, s1.(_idem) !! request_key r = Some (bh, e.(event_id)) /\ e ∈ s1.(events) /\
    forall again, result_of_event e again = {| a_event_id := a.(a_event_id);
      a_aggregate_seq := a.(a_aggregate_seq); a_content_hash := a.(a_content_hash);
      a_recorded_seq := a.(a_recorded_seq); replayed := again |}) as (e & Hk & He & Hres).
  { pose proof (append_cases new_id now r s) as Hc. rewrite Happ in Hc. cbn in Hc.
    inversion Hc as [|bh' prior Hb' Hi Hin|bh' h event Hb' Hnone l Hev Hh]; subst.
    - exists prior. split_and!; [congruence|done|done].
    - eexists. split_and!; [|apply elem_of_app; right; by left|done].
      cbn. rewrite lookup_insert_eq. congruence. }
  destruct (run_preserves_replay _ _ _ _ _ _ _ Hk He Hlater) as [Hk2 He2].
  unfold append. rewrite Hbh2, Hkey, Hk2, (find_by_id _ _ (ok_ids _ Hall) He2), Hres.
  repeat case_bool_decide; congruence.
Qed.
End store.

(** ** A concrete store *)

Definition sample_request (key : string) (body : list (ustr * json)) : AppendRequest := {|
  r_workspace_id := lit "ws"; r_aggregate_type := lit "task"; r_aggregate_id := lit "T-1";
  r_type := lit "TASK_CREATED"; r_actor_account_id := lit "acct"; r_correlation_id := lit "c";
  r_idempotency_scope := lit "task:create"; r_idempotency_key := lit key; r_payload := body;
  r_policy_version := lit "policy-v1"; r_channel_id := None; r_task_id := None;
  r_caused_by := None; r_expected_seq := None; r_sensitive := None; r_schema_version := 1 |}.

Definition sample_calls : list (ustr * ustr * AppendRequest) := [
  (lit "1", lit "t1", sample_request "a" []);
  (lit "2", lit "t2", sample_request "b" [(lit "n", JInt 2)]);
  (lit "3", lit "t3", sample_request "a" [])].

Definition sample_store : InMemoryEventStore :=
  default empty_store (run_steps (store_step id_hash) empty_store sample_calls).

Lemma reachable_streams_verify_witness :
  verify_chain id_hash (stream sample_store (lit "ws", lit "task", lit "T-1")) = Ok [] /\
  length (stream sample_store (lit "ws", lit "task", lit "T-1")) = 2%nat.
Proof.
  split; [|vm_compute; reflexivity].
  apply (reachable_streams_verify id_hash sample_calls). vm_compute. reflexivity.
Defined.

Definition sample_result : AppendResult :=
  match (append id_hash (lit "1") (lit "t1") (sample_request "a" []) empty_store).2 with
  | Ok a => a
  | Err _ => {| a_event_id := []; a_aggregate_seq := 0; a_content_hash := None;
                a_recorded_seq := 0; replayed := false |}
  end.

Definition hash_of_sample (body : list (ustr * json)) : ustr :=
  match request_body_hash id_hash (sample_request "a" body) with Ok h => h | Err _ => [] end.

(** The first request once more, with another body, after the three calls. *)
Lemma append_idempotent_witness :
  append id_hash (lit "4") (lit "t4") (sample_request "a" [(lit "n", JInt 3)]) sample_store =
    (sample_store,
     if bool_decide (hash_of_sample [(lit "n", JInt 3)] = hash_of_sample [])
     then Ok {| a_event_id := sample_result.(a_event_id);
                a_aggregate_seq := sample_result.(a_aggregate_seq);
                a_content_hash := sample_result.(a_content_hash);
                a_recorded_seq := sample_result.(a_recorded_seq); replayed := true |}
     else Err "IDEMPOTENCY_CONFLICT").
Proof.
  apply (append_idempotent id_hash [] empty_store (lit "1") (lit "t1") (sample_request "a" [])
    sample_result (append id_hash (lit "1") (lit "t1") (sample_request "a" []) empty_store).1
    (drop 1 sample_calls) sample_store).
  all: first [vm_compute; reflexivity | apply (bool_decide_unpack _); vm_compute; exact I].
Defined.
