(* ===== verification/PgEventStore.v ===== *)
(** The PostgreSQL Event store of [server/events/postgres_store.py]. [append]
    runs in the caller's transaction: it reads, then inserts under the unique
    constraints of the table. Other transactions may commit between the two, so
    the operation is two steps: [append_read] on the rows it reads and
    [append_insert] on the rows present when the INSERT runs. *)

From S2P Require Import Prelude Canonical HashChain EventStore.
Open Scope Z_scope.

(** [base64.b64encode] *)
Definition b64_char (n : N) : N :=
  if (n <? 26)%N then 65 + n
  else if (n <? 52)%N then 71 + n
  else if (n <? 62)%N then n - 4
  else if (n =? 62)%N then 43 else 47.

Fixpoint b64encode (l : list N) : ustr :=
  match l with
  | a :: b :: c :: rest =>
      [b64_char (a / 4); b64_char ((a mod 4) * 16 + b / 16);
       b64_char ((b mod 16) * 4 + c / 64); b64_char (c mod 64)] ++ b64encode rest
  | [a; b] =>
      [b64_char (a / 4); b64_char ((a mod 4) * 16 + b / 16); b64_char ((b mod 16) * 4); 61]
  | [a] => [b64_char (a / 4); b64_char ((a mod 4) * 16); 61; 61]
  | [] => []
  end%N.

(** A row of the table [events], as the event [row_to_event] makes of it, and
    the [request_body_hash] column. *)
Record EventRow := { row_to_event : Event; row_body_hash : ustr }.

(** The unique constraints of the table, in the order their indexes are checked. *)
Inductive constraint := EventIdUnique | AggregateSeqUnique | IdempotencyUnique.

(** What [append] has computed when it reaches its INSERT. *)
Record Pending := {
  p_request : AppendRequest;
  p_event : Event;
  p_ciphertext : option (list N);
  p_body_hash : ustr;
  p_occurred_at : ustr }.

Section pg.
Context (sha256_hex : list N -> ustr).
(** [str(uuid.UUID(text))]. *)
Context (uuid_str : ustr -> res ustr).
(** The ISO text [isoformat_utc] gives of an instant. *)
Context (isoformat_utc : Z -> ustr).
(** [validate_envelope] then [validate_type] of the schema registry. *)
Context (validate_contract : Event -> res unit).
(** [EnvelopeCrypto.encrypt], when one is configured: ciphertext and key reference. *)
Context (crypto : option (ustr -> ustr -> ustr -> list (ustr * json) -> res (list N * ustr))).
(** The workspace of an account, of a channel and of a projected Task. *)
Context (account_ws channel_ws task_ws : ustr -> option ustr).
Context (constraint_name : constraint -> string).

Definition row_key (e : Event) : idem_key :=
  (e.(workspace_id), e.(actor_account_id), e.(idempotency_scope), e.(idempotency_key)).

Definition _find_idempotent (rows : list EventRow) (r : AppendRequest) : res (option EventRow) :=
  ws ← uuid_str r.(r_workspace_id);
  actor ← uuid_str r.(r_actor_account_id);
  Ok (find (fun row => bool_decide (row_key row.(row_to_event) =
        (ws, actor, r.(r_idempotency_scope), r.(r_idempotency_key)))) rows).

Definition _replay (prior : EventRow) (body_hash : ustr) : res AppendResult :=
  if bool_decide (prior.(row_body_hash) <> body_hash) then Err "IDEMPOTENCY_CONFLICT"
  else Ok (result_of_event prior.(row_to_event) true).

Definition same_workspace (unknown : string) (found : option ustr) (ws : ustr) : res unit :=
  match found with
  | None => Err unknown
  | Some w => if bool_decide (w <> ws) then Err "WORKSPACE_MISMATCH" else Ok tt
  end.

Definition _check_workspace (rows : list EventRow) (r : AppendRequest) : res unit :=
  ws ← uuid_str r.(r_workspace_id);
  actor ← uuid_str r.(r_actor_account_id);
  _ ← same_workspace "ACTOR_UNKNOWN" (account_ws actor) ws;
  _ ← match r.(r_channel_id) with
      | None => Ok tt
      | Some c => ch ← uuid_str c; same_workspace "CHANNEL_UNKNOWN" (channel_ws ch) ws
      end;
  _ ← match r.(r_task_id) with
      | None => Ok tt
      | Some t => match task_ws t with
                  | Some w => if bool_decide (w <> ws) then Err "WORKSPACE_MISMATCH" else Ok tt
                  | None => Ok tt
                  end
      end;
  match r.(r_caused_by) with
  | None => Ok tt
  | Some c =>
      let cause := find (fun row => bool_decide (row.(row_to_event).(event_id) = c)) rows in
      same_workspace "CAUSED_BY_UNKNOWN" ((fun row => row.(row_to_event).(workspace_id)) <$> cause) ws
  end.

Definition _validate_contract (e : Event) : res unit := validate_contract e.

(** [SELECT ... ORDER BY aggregate_seq]. *)
Definition pg_stream (rows : list EventRow) (agg : ustr * ustr * ustr) : list Event :=
  py_sorted (fun a b => a.(aggregate_seq) <=? b.(aggregate_seq))
    (filter (fun e => aggregate_of e = agg) (row_to_event <$> rows)).

Definition encrypt_sensitive (r : AppendRequest) : res (option (list N) * option ustr) :=
  match r.(r_sensitive) with
  | None => Ok (None, None)
  | Some body =>
      match crypto with
      | None => Err "SENSITIVE_UNSUPPORTED"
      | Some enc =>
          ck ← enc r.(r_workspace_id) r.(r_aggregate_type) r.(r_aggregate_id) body;
          Ok (Some ck.1, Some ck.2)
      end
  end.

(** Everything [append] does before its INSERT: a replayed result, or the
    pending Event. The clock is read twice, for the hashed [occurred_at] and for
    the column. *)
Definition append_read (new_id : ustr) (now now' : Z) (r : AppendRequest) (rows : list EventRow)
    : res (AppendResult + Pending) :=
  body_hash ← request_body_hash sha256_hex r;
  prior ← _find_idempotent rows r;
  match prior with
  | Some row => a ← _replay row body_hash; Ok (inl a)
  | None =>
      _ ← _check_workspace rows r;
      ws ← uuid_str r.(r_workspace_id);
      let last := last (pg_stream rows (ws, r.(r_aggregate_type), r.(r_aggregate_id))) in
      let next_seq := match last with Some l => l.(aggregate_seq) + 1 | None => 1 end in
      guard_err (match r.(r_expected_seq) with Some x => negb (x =? next_seq) | None => false end)
        "SEQUENCE_CONFLICT" (
      ck ← encrypt_sensitive r;
      let text := match ck.1 with Some ((_ :: _) as bytes) => Some (b64encode bytes) | _ => None end in
      let event := new_event new_id (isoformat_utc now) r next_seq (last ≫= content_hash) text ck.2 in
      h ← compute_content_hash sha256_hex event;
      let event := sealed event h 0 in
      _ ← _validate_contract event;
      Ok (inr {| p_request := r; p_event := event; p_ciphertext := ck.1; p_body_hash := body_hash;
                 p_occurred_at := isoformat_utc now' |}))
  end.

(** The row the INSERT writes, with the UUID columns and the ciphertext bytes,
    read back. *)
Definition inserted_row (p : Pending) (rec : Z) : res EventRow :=
  let e := p.(p_event) in
  ws ← uuid_str e.(workspace_id);
  ch ← match e.(channel_id) with
       | Some c => if bool_decide (c = []) then Ok None else c' ← uuid_str c; Ok (Some c')
       | None => Ok None
       end;
  actor ← uuid_str e.(actor_account_id);
  Ok {| row_body_hash := p.(p_body_hash);
        row_to_event := {|
          event_id := e.(event_id); schema_version := e.(schema_version); workspace_id := ws;
          aggregate_type := e.(aggregate_type); aggregate_id := e.(aggregate_id);
          aggregate_seq := e.(aggregate_seq); channel_id := ch; task_id := e.(task_id);
          event_type := e.(event_type); actor_account_id := actor; caused_by := e.(caused_by);
          correlation_id := e.(correlation_id); idempotency_scope := e.(idempotency_scope);
          idempotency_key := e.(idempotency_key); policy_version := e.(policy_version);
          occurred_at := p.(p_occurred_at);
          sensitive_payload_key_ref := e.(sensitive_payload_key_ref); payload := e.(payload);
          sensitive_payload_ciphertext := b64encode <$> p.(p_ciphertext);
          previous_hash := e.(previous_hash); content_hash := e.(content_hash);
          recorded_seq := rec |} |}.

Definition seq_key (e : Event) : ustr * ustr * ustr * Z := (aggregate_of e, e.(aggregate_seq)).

(** The first unique constraint the new row violates. *)
Definition violated (rows : list EventRow) (row : EventRow) : option constraint :=
  let clash {K} `{EqDecision K} (key : Event -> K) :=
    existsb (fun x => bool_decide (key x.(row_to_event) = key row.(row_to_event))) rows in
  if clash event_id then Some EventIdUnique
  else if clash seq_key then Some AggregateSeqUnique
  else if clash row_key then Some IdempotencyUnique
  else None.

(** The INSERT, and the handling of its [IntegrityError]. *)
Definition append_insert (rec : Z) (p : Pending) (rows : list EventRow)
    : list EventRow * res AppendResult :=
  match inserted_row p rec with
  | Err e => (rows, Err e)
  | Ok row =>
      match violated rows row with
      | None => (rows ++ [row],
                 Ok {| a_event_id := p.(p_event).(event_id);
                       a_aggregate_seq := p.(p_event).(aggregate_seq);
                       a_content_hash := p.(p_event).(content_hash);
                       a_recorded_seq := rec; replayed := false |})
      | Some c =>
          let name := constraint_name c in
          let otherwise :=
            if contains "aggregate_seq" name then Err "SEQUENCE_CONFLICT" else Err "EVENT_INSERT_FAILED" in
          (rows,
           if contains "idempotency" name then
             prior ← _find_idempotent rows p.(p_request);
             match prior with Some row => _replay row p.(p_body_hash) | None => otherwise end
           else otherwise)
      end
  end.

(** [append] when no other transaction commits in between. *)
Definition pg_append (new_id : ustr) (now now' rec : Z) (r : AppendRequest) (rows : list EventRow)
    : list EventRow * res AppendResult :=
  match append_read new_id now now' r rows with
  | Err e => (rows, Err e)
  | Ok (inl a) => (rows, Ok a)
  | Ok (inr p) => append_insert rec p rows
  end.

(** ** Concurrent transactions *)

Record PgSystem := { committed : list EventRow; in_flight : list Pending }.

Inductive pg_label :=
| Read (new_id : ustr) (now now' : Z) (r : AppendRequest)
| Insert (i : nat) (rec : Z)
| Rollback (i : nat).

Definition pg_step (s : PgSystem) (l : pg_label) : option PgSystem :=
  match l with
  | Read new_id now now' r =>
      Some match append_read new_id now now' r s.(committed) with
           | Ok (inr p) => {| committed := s.(committed); in_flight := s.(in_flight) ++ [p] |}
           | _ => s
           end
  | Insert i rec =>
      p ← s.(in_flight) !! i;
      Some {| committed := (append_insert rec p s.(committed)).1;
              in_flight := delete i s.(in_flight) |}
  | Rollback i =>
      p ← s.(in_flight) !! i;
      Some {| committed := s.(committed); in_flight := delete i s.(in_flight) |}
  end.

Definition pg_empty : PgSystem := {| committed := []; in_flight := [] |}.

(** A request whose channel is written as the store reads it back, made in one
    millisecond of the clock. *)
Definition faithful_label (l : pg_label) : bool :=
  match l with
  | Read _ now now' r =>
      bool_decide (isoformat_utc now = isoformat_utc now') &&
      match r.(r_channel_id) with
      | Some c => bool_decide (c <> [] /\ uuid_str c = Ok c)
      | None => true
      end
  | _ => true
  end.

Definition events_of (rows : list EventRow) (agg : ustr * ustr * ustr) : list Event :=
  filter (fun e => aggregate_of e = agg) (row_to_event <$> rows).

(** Numbered from [n] on and linked by their hashes, with [G] of each Event. *)
Fixpoint numbered (G : Event -> Prop) (n : Z) (p : option ustr) (evs : list Event) : Prop :=
  match evs with
  | [] => True
  | ev :: rest => ev.(aggregate_seq) = n /\ ev.(previous_hash) = p /\ is_Some ev.(content_hash) /\ G ev /\ numbered G (n + 1) ev.(content_hash) rest
  end.

(** The stored hash is the hash of the stored Event. *)
Definition hashed (e : Event) : Prop := exists h, compute_content_hash sha256_hex e = Ok h /\ e.(content_hash) = Some h.

Definition anything (_ : Event) : Prop := True.

(** The row is the pending Event, up to [recorded_seq]. *)
Definition reads_back (p : Pending) : Prop :=
  forall rec row, inserted_row p rec = Ok row ->
    exists h, p.(p_event).(content_hash) = Some h /\ row.(row_to_event) = sealed p.(p_event) h rec.

(** Where the row goes, whatever becomes of the other columns. *)
Record same_place (e e' : Event) : Prop := {
  pl_agg : aggregate_of e = aggregate_of e'; pl_seq : e.(aggregate_seq) = e'.(aggregate_seq);
  pl_prev : e.(previous_hash) = e'.(previous_hash); pl_hash : e.(content_hash) = e'.(content_hash) }.

(** A pending Event follows the stream it read, which may have grown since. *)
Record pending_ok (G : Event -> Prop) (rows : list EventRow) (p : Pending) : Prop := {
  pd_row rec row : inserted_row p rec = Ok row -> same_place row.(row_to_event) p.(p_event) /\ G row.(row_to_event);
  pd_hash : is_Some p.(p_event).(content_hash);
  pd_read : exists l1 l2, events_of rows (aggregate_of p.(p_event)) = l1 ++ l2 /\
    p.(p_event).(aggregate_seq) = 1 + Z.of_nat (length l1) /\
    p.(p_event).(previous_hash) = match last l1 with Some l => l.(content_hash) | None => None end }.

Record sys_inv (G : Event -> Prop) (s : PgSystem) : Prop := {
  sys_streams agg : numbered G 1 None (events_of s.(committed) agg);
  sys_ids : NoDup (event_id <$> (row_to_event <$> s.(committed)));
  sys_keys : NoDup (row_key <$> (row_to_event <$> s.(committed)));
  sys_pending p : p ∈ s.(in_flight) -> pending_ok G s.(committed) p }.

(** A system of faithful appends: every stored hash verifies. *)
Definition sys_ok : PgSystem -> Prop := sys_inv hashed.

(** The contract accepts UUIDs in their canonical text only (the patterns of
    [envelope.v1.schema.json]); a ciphertext is never empty. *)
Hypothesis contract_canonical : forall e, validate_contract e = Ok tt ->
  uuid_str e.(workspace_id) = Ok e.(workspace_id) /\
  uuid_str e.(actor_account_id) = Ok e.(actor_account_id).
Hypothesis ciphertext_nonempty : forall enc ws t i b c k,
  crypto = Some enc -> enc ws t i b = Ok (c, k) -> c <> [].

Lemma numbered_sorted G n p evs :
  numbered G n p evs ->
  Forall (fun e => n <= e.(aggregate_seq)) evs /\
  StronglySorted (fun a b => (a.(aggregate_seq) <=? b.(aggregate_seq)) = true) evs.
Proof.
  revert n p. induction evs as [|e evs IH]; intros n p; [by repeat constructor|].
  intros (Hs & _ & _ & _ & H). apply IH in H as [H1 H2]. split; constructor.
  - lia.
  - eapply Forall_impl; [exact H1|]. cbn. lia.
  - done.
  - eapply Forall_impl; [exact H1|]. cbn. lia.
Qed.

Lemma numbered_lookup G n p evs i e :
  numbered G n p evs -> evs !! i = Some e -> e.(aggregate_seq) = n + Z.of_nat i.
Proof.
  revert n p i. induction evs as [|x evs IH]; intros n p [|i] H Hi; try done.
  - injection Hi as ->. destruct H as [H _]. lia.
  - destruct H as (_ & _ & _ & _ & H). rewrite (IH _ _ _ H Hi). lia.
Qed.

Lemma numbered_snoc G n p evs e :
  numbered G n p (evs ++ [e]) <->
  numbered G n p evs /\ e.(aggregate_seq) = n + Z.of_nat (length evs) /\
  e.(previous_hash) = match last evs with Some l => l.(content_hash) | None => p end /\ is_Some e.(content_hash) /\ G e.
Proof.
  revert n p. induction evs as [|x evs IH]; intros n p.
  - cbn. rewrite Z.add_0_r. tauto.
  - cbn [numbered app]. rewrite IH, last_cons. cbn [length].
    replace (n + 1 + Z.of_nat (length evs)) with (n + Z.of_nat (S (length evs))) by lia.
    destruct (last evs); tauto.
Qed.

Lemma numbered_last G p evs e : numbered G 1 p evs -> last evs = Some e -> e.(aggregate_seq) = Z.of_nat (length evs).
Proof. intros H [l ->]%last_Some. apply numbered_snoc in H as (_ & -> & _). rewrite length_app. cbn. lia. Qed.

Lemma numbered_intact n p evs : numbered hashed n p evs -> intact sha256_hex n p evs.
Proof.
  revert n p. induction evs as [|e evs IH]; intros n p; [done|]. intros (H1 & H2 & _ & H3 & H4). split_and!; try done. by apply IH.
Qed.

Lemma pg_stream_events G rows agg :
  numbered G 1 None (events_of rows agg) -> pg_stream rows agg = events_of rows agg.
Proof. intros H%numbered_sorted. apply py_sorted_id. apply H. Qed.

(** What [append_read] makes of a request, when the contract accepts it. *)
Lemma append_read_pending new_id now now' r rows p :
  append_read new_id now now' r rows = Ok (inr p) ->
  exists ck text h, encrypt_sensitive r = Ok ck /\
    text = match ck.1 with Some ((_ :: _) as bytes) => Some (b64encode bytes) | _ => None end /\
    let last := last (pg_stream rows (r.(r_workspace_id), r.(r_aggregate_type), r.(r_aggregate_id))) in
    let e := new_event new_id (isoformat_utc now) r (match last with Some l => l.(aggregate_seq) + 1 | None => 1 end)
               (last ≫= content_hash) text ck.2 in
    compute_content_hash sha256_hex e = Ok h /\ p.(p_event) = sealed e h 0 /\ p.(p_ciphertext) = ck.1 /\
    p.(p_occurred_at) = isoformat_utc now' /\ uuid_str r.(r_workspace_id) = Ok r.(r_workspace_id) /\
    uuid_str r.(r_actor_account_id) = Ok r.(r_actor_account_id).
Proof using contract_canonical.
  intros H. unfold append_read in H.
  apply res_bind_ok in H as (bh & Hbh & H). apply res_bind_ok in H as ([row|] & Hprior & H).
  { by apply res_bind_ok in H as (a & _ & H). }
  apply res_bind_ok in H as (u & Hws & H). apply res_bind_ok in H as (ws & Hu & H).
  apply guard_err_ok in H as [_ H]. apply res_bind_ok in H as (ck & Hck & H).
  apply res_bind_ok in H as (h & Hh & H). apply res_bind_ok in H as ([] & Hval & [= <-]).
  destruct (contract_canonical _ Hval) as [Hw Ha]. cbn in Hw, Ha.
  assert (ws = r.(r_workspace_id)) as -> by congruence. eexists ck, _, h. by split_and!.
Qed.

Lemma read_placed G new_id now now' r rows p :
  append_read new_id now now' r rows = Ok (inr p) -> (forall agg, numbered G 1 None (events_of rows agg)) ->
  (forall rec row, inserted_row p rec = Ok row -> same_place row.(row_to_event) p.(p_event) -> G row.(row_to_event)) ->
  pending_ok G rows p.
Proof using contract_canonical.
  intros (ck & text & h & Hck & _ & Hh & Ep & Ect & Eat & Hw & Ha)%append_read_pending Hs HG. split.
  - intros rec row Hrow. assert (same_place row.(row_to_event) p.(p_event)) as Hpl; [|by split; [|by eapply HG]].
    revert Hrow. unfold inserted_row. rewrite Ep. cbn. rewrite Hw. cbn. intros (ch & _ & Hrow)%res_bind_ok. rewrite Ha in Hrow.
    by injection Hrow as <-.
  - rewrite Ep. by eexists.
  - exists (events_of rows (r.(r_workspace_id), r.(r_aggregate_type), r.(r_aggregate_id))), []. rewrite app_nil_r, Ep.
    cbn -[Z.of_nat pg_stream events_of]. rewrite !(pg_stream_events G) by done. split; [done|].
    destruct (last (events_of _ _)) as [x|] eqn:Hl; [|by apply last_None in Hl; rewrite Hl].
    split; [|done]. rewrite (numbered_last _ _ _ _ (Hs _) Hl). lia.
Qed.

Lemma faithful_reads_back new_id now now' r rows p :
  faithful_label (Read new_id now now' r) = true -> append_read new_id now now' r rows = Ok (inr p) ->
  reads_back p /\ hashed p.(p_event).
Proof using contract_canonical ciphertext_nonempty.
  intros Hf ([ct key] & text & h & Hck & -> & Hh & Ep & Ect & Eat & Hw & Ha)%append_read_pending.
  cbn in Hf. apply andb_true_iff in Hf as [Hnow%bool_decide_eq_true Hch].
  assert (ct <> Some []) as Hct.
  { unfold encrypt_sensitive in Hck. destruct r.(r_sensitive) as [b|]; [|by injection Hck as <- <-].
    destruct crypto as [enc|] eqn:Hc; [|done]. apply res_bind_ok in Hck as ([c k] & Henc & [= <- <-]).
    intros [= ->]. by eapply ciphertext_nonempty. }
  split; [|exists h; rewrite Ep; by split]. intros rec row Hrow. exists h. rewrite Ep. split; [done|].
  unfold inserted_row in Hrow. rewrite Ep, Ect, Eat in Hrow. cbn -[b64encode] in Hrow.
  rewrite Hw, Ha in Hrow. cbn -[b64encode] in Hrow.
  destruct r.(r_channel_id) as [c|] eqn:Hrc; cbn -[b64encode] in Hrow.
  - apply bool_decide_eq_true in Hch as [Hc0 Hc]. rewrite bool_decide_eq_false_2 in Hrow by done.
    rewrite Hc in Hrow. cbn -[b64encode] in Hrow. injection Hrow as <-.
    unfold sealed. cbn -[b64encode]. rewrite Hnow, Hrc. destruct ct as [[|]|]; [by destruct Hct|reflexivity..].
  - injection Hrow as <-. unfold sealed. cbn -[b64encode]. rewrite Hnow, Hrc. destruct ct as [[|]|]; [by destruct Hct|reflexivity..].
Qed.

(** The row of a faithful append verifies. *)
Lemma faithful_pending new_id now now' r rows p :
  faithful_label (Read new_id now now' r) = true -> append_read new_id now now' r rows = Ok (inr p) ->
  (forall agg, numbered hashed 1 None (events_of rows agg)) -> pending_ok hashed rows p.
Proof using contract_canonical ciphertext_nonempty.
  intros Hf Hr Hs. destruct (faithful_reads_back _ _ _ _ _ _ Hf Hr) as [Hback (h & Hh & Hc)].
  eapply read_placed; [exact Hr|done|]. intros rec row Hrow _. destruct (Hback rec row Hrow) as (h' & Hc' & ->).
  assert (h' = h) as -> by congruence. exists h. by split.
Qed.

Lemma events_of_app rows row agg :
  events_of (rows ++ [row]) agg =
  events_of rows agg ++ filter (fun e => aggregate_of e = agg) [row.(row_to_event)].
Proof. unfold events_of. by rewrite fmap_app, filter_app. Qed.

Lemma violated_none rows row :
  violated rows row = None ->
  row.(row_to_event).(event_id) ∉ event_id <$> (row_to_event <$> rows) /\
  row_key row.(row_to_event) ∉ row_key <$> (row_to_event <$> rows) /\
  seq_key row.(row_to_event) ∉ seq_key <$> (row_to_event <$> rows).
Proof.
  assert (forall K `{EqDecision K} (key : Event -> K),
    existsb (fun x => bool_decide (key x.(row_to_event) = key row.(row_to_event))) rows = false ->
    key row.(row_to_event) ∉ key <$> (row_to_event <$> rows)) as Hk.
  { intros K EqK key Hex. rewrite list_elem_of_fmap. intros (e & He & Hin).
    apply list_elem_of_fmap in Hin as (x & -> & Hin).
    rewrite <- not_true_iff_false, existsb_exists in Hex. destruct Hex.
    exists x. rewrite <- list_elem_of_In. split; [done|by apply bool_decide_eq_true]. }
  unfold violated. intros H.
  destruct (existsb _ rows) eqn:E1 in H; [done|]. destruct (existsb _ rows) eqn:E2 in H; [done|].
  destruct (existsb _ rows) eqn:E3 in H; [done|].
  split_and!; [by apply (Hk _ _ event_id)|by apply (Hk _ _ row_key)|by apply (Hk _ _ seq_key)].
Qed.

Lemma pending_ok_mono G rows row p :
  pending_ok G rows p -> pending_ok G (rows ++ [row]) p.
Proof.
  intros [H1 H2 (l1 & l2 & H3 & H4 & H5)]. split; [done..|].
  exists l1, (l2 ++ filter (fun e => aggregate_of e = aggregate_of p.(p_event)) [row.(row_to_event)]).
  by rewrite events_of_app, H3, app_assoc.
Qed.

Lemma delete_elem {A} (l : list A) i x : x ∈ delete i l -> x ∈ l.
Proof.
  revert i. induction l as [|y l IH]; intros [|i]; cbn; rewrite ?elem_of_cons; [done..|by right|].
  intros [->|Hx]; [by left|right; by eapply IH].
Qed.

Lemma sys_inv_insert G s i rec p :
  sys_inv G s -> s.(in_flight) !! i = Some p ->
  sys_inv G {| committed := (append_insert rec p s.(committed)).1; in_flight := delete i s.(in_flight) |}.
Proof.
  intros Hok Hi. destruct (sys_pending _ _ Hok p (list_elem_of_lookup_2 _ _ _ Hi)) as [Hback Hc (l1 & l2 & Hl & Hseq & Hprev)].
  assert (sys_inv G {| committed := s.(committed); in_flight := delete i s.(in_flight) |}) as Hsame.
  { split; [apply Hok..|]. intros q Hq. apply Hok. by eapply delete_elem. }
  unfold append_insert. destruct (inserted_row p rec) as [row|] eqn:Hrow; [|done].
  destruct (violated _ row) eqn:Hv; [done|]. destruct (Hback rec row Hrow) as [[Hagg Hs Hp Hh] HG].
  apply violated_none in Hv as (Hid & Hkey & Hsk).
  assert (l2 = []) as ->.
  { destruct l2 as [|e l2]; [done|]. exfalso. apply Hsk.
    assert (events_of s.(committed) (aggregate_of p.(p_event)) !! length l1 = Some e) as He
      by by rewrite Hl, lookup_app_r, Nat.sub_diag.
    pose proof (numbered_lookup _ _ _ _ _ _ (sys_streams _ _ Hok _) He) as Hes.
    apply list_elem_of_lookup_2, list_elem_of_filter in He as [Ha He].
    apply list_elem_of_fmap. exists e. split; [|done]. unfold seq_key.
    rewrite Hagg, Ha, Hs. f_equal. lia. }
  rewrite app_nil_r in Hl. split; cbn [fst committed in_flight].
  - intros agg. rewrite events_of_app.
    destruct (decide (aggregate_of row.(row_to_event) = agg)) as [Ha|Ha].
    + rewrite filter_cons_True, filter_nil by done. apply numbered_snoc. rewrite <- Ha, Hagg, Hl, Hs, Hp, Hh.
      split; [rewrite <- Hl; apply Hok|done].
    + rewrite filter_cons_False, filter_nil, app_nil_r by done. apply Hok.
  - rewrite !fmap_app. apply NoDup_app. split_and!; [apply Hok| |apply NoDup_singleton].
    by intros x Hx ->%list_elem_of_singleton.
  - rewrite !fmap_app. apply NoDup_app. split_and!; [apply Hok| |apply NoDup_singleton].
    by intros x Hx ->%list_elem_of_singleton.
  - intros q Hq. apply pending_ok_mono, Hok. by eapply delete_elem.
Qed.

(** One step keeps the invariant, when what it reads does. *)
Lemma sys_inv_step G s l s' :
  (forall new_id now now' r p, l = Read new_id now now' r -> append_read new_id now now' r s.(committed) = Ok (inr p) ->
     (forall agg, numbered G 1 None (events_of s.(committed) agg)) -> pending_ok G s.(committed) p) ->
  sys_inv G s -> pg_step s l = Some s' -> sys_inv G s'.
Proof.
  intros Hread Hok. destruct l as [new_id now now' r|i rec|i]; cbn [pg_step].
  - intros [= <-]. destruct (append_read _ _ _ _ _) as [[a|p]|] eqn:Hr; [done| |done].
    split; [apply Hok..|]. cbn. intros q Hq. apply elem_of_app in Hq as [Hq|Hq]; [by apply Hok|].
    apply list_elem_of_singleton in Hq as ->. eapply Hread; [done|exact Hr|apply Hok].
  - destruct (in_flight s !! i) as [p|] eqn:Hi; [|done]. cbn. intros [= <-]. by apply sys_inv_insert.
  - destruct (in_flight s !! i) as [p|] eqn:Hi; [|done]. cbn. intros [= <-].
    split; [apply Hok..|]. intros q Hq. apply Hok. by eapply delete_elem.
Qed.

Lemma sys_inv_empty G : sys_inv G pg_empty.
Proof. split; cbn; [done|constructor|constructor|by intros p ?%not_elem_of_nil]. Qed.

Lemma sys_inv_run G (allowed : pg_label -> Prop) s ls s' :
  (forall l s s', allowed l -> sys_inv G s -> pg_step s l = Some s' -> sys_inv G s') ->
  sys_inv G s -> Forall allowed ls -> run_steps pg_step s ls = Some s' -> sys_inv G s'.
Proof.
  intros Hstep Hok Hf. revert s Hok. induction Hf as [|l ls Hl _ IH]; intros s Hok; cbn; [by intros [= <-]|].
  destruct (pg_step s l) as [s1|] eqn:Hs; cbn; [|done]. apply IH. by eapply Hstep.
Qed.

(** Any system, and one of faithful appends. *)
Lemma sys_any_run ls s : run_steps pg_step pg_empty ls = Some s -> sys_inv anything s.
Proof using contract_canonical.
  apply (sys_inv_run anything (fun _ => True) pg_empty ls s); [|apply sys_inv_empty|by apply Forall_true].
  intros l s0 s1 _ Hok. apply sys_inv_step; [|done]. intros new_id now now' r p _ Hr Hs. by eapply read_placed.
Qed.

Lemma sys_ok_run ls s : Forall (fun l => faithful_label l = true) ls -> run_steps pg_step pg_empty ls = Some s -> sys_ok s.
Proof using contract_canonical ciphertext_nonempty.
  apply (sys_inv_run hashed (fun l => faithful_label l = true) pg_empty ls s); [|apply sys_inv_empty].
  intros l s0 s1 Hl Hok. apply sys_inv_step; [|done]. intros new_id now now' r p -> Hr Hs. by eapply faithful_pending.
Qed.


(** ** Refinement of the in-memory store *)

(** The same Events in the same order, and an idempotency index that says what
    the unique key of the table says. *)
Record refines (rows : list EventRow) (m : InMemoryEventStore) : Prop := {
  ref_events : m.(events) = row_to_event <$> rows;
  ref_idem k bh eid : m.(_idem) !! k = Some (bh, eid) <->
    exists row, row ∈ rows /\ row_key row.(row_to_event) = k /\
      row.(row_body_hash) = bh /\ row.(row_to_event).(event_id) = eid }.

Lemma find_none {A} (f : A -> bool) l x : find f l = None -> x ∈ l -> f x = false.
Proof. intros H Hx. eapply find_none; [exact H|]. by apply list_elem_of_In. Qed.

Lemma find_idempotent_spec rows r prior :
  uuid_str r.(r_workspace_id) = Ok r.(r_workspace_id) ->
  uuid_str r.(r_actor_account_id) = Ok r.(r_actor_account_id) ->
  _find_idempotent rows r = Ok prior ->
  match prior with
  | Some row => row ∈ rows /\ row_key row.(row_to_event) = request_key r
  | None => forall row, row ∈ rows -> row_key row.(row_to_event) <> request_key r
  end.
Proof.
  unfold _find_idempotent. intros -> ->. cbn -[row_key]. intros [= <-].
  destruct (find _ rows) as [row|] eqn:Hf.
  - apply find_some in Hf as [Hin Hk%bool_decide_eq_true]. by rewrite list_elem_of_In.
  - intros row Hin. apply (find_none _ _ row) in Hf; [|done].
    by apply bool_decide_eq_false in Hf.
Qed.

Lemma check_workspace_cause rows r m :
  refines rows m -> _check_workspace rows r = Ok tt -> known_cause m.(events) r = true.
Proof.
  intros Href H. unfold _check_workspace in H.
  apply res_bind_ok in H as (ws & _ & H). apply res_bind_ok in H as (actor & _ & H).
  do 3 apply res_bind_ok in H as (? & _ & H). unfold known_cause.
  destruct r.(r_caused_by) as [c|]; [|done].
  destruct (find _ rows) as [row|] eqn:Hf; [|done]. apply find_some in Hf as [Hin Heq].
  apply existsb_exists. exists row.(row_to_event). split; [|done].
  rewrite (ref_events _ _ Href), <- list_elem_of_In. apply list_elem_of_fmap_2, list_elem_of_In, Hin.
Qed.

Lemma refines_insert rows m row bh :
  refines rows m -> row.(row_body_hash) = bh ->
  (forall x, x ∈ rows -> row_key x.(row_to_event) <> row_key row.(row_to_event)) ->
  refines (rows ++ [row])
    {| events := m.(events) ++ [row.(row_to_event)];
       _idem := <[row_key row.(row_to_event) := (bh, row.(row_to_event).(event_id))]> m.(_idem) |}.
Proof.
  intros Href Hbh Hfresh. split; cbn [events _idem].
  - by rewrite fmap_app, (ref_events _ _ Href).
  - intros k b eid. rewrite lookup_insert_Some, (ref_idem _ _ Href). split.
    + intros [[<- [= <- <-]]|[_ (x & Hx & H)]].
      * exists row. split_and!; [apply elem_of_app; right; by left|done..].
      * exists x. split; [apply elem_of_app; by left|done].
    + intros (x & [Hx|Hx]%elem_of_app & H1 & H2 & H3).
      * right. split; [|by exists x]. intros <-. by apply (Hfresh x).
      * left. apply list_elem_of_singleton in Hx as ->. split; congruence.
Qed.

Lemma append_read_replay new_id now now' r rows a bh :
  request_body_hash sha256_hex r = Ok bh -> append_read new_id now now' r rows = Ok (inl a) ->
  exists row, _find_idempotent rows r = Ok (Some row) /\ row.(row_body_hash) = bh /\
    a = result_of_event row.(row_to_event) true.
Proof.
  intros Hbh H. unfold append_read in H. rewrite Hbh in H. cbn [mbind res_bind] in H.
  apply res_bind_ok in H as ([row|] & Hprior & H).
  - apply res_bind_ok in H as (a' & Hrep & [= <-]). unfold _replay in Hrep.
    case_bool_decide; [done|]. injection Hrep as <-. by exists row.
  - apply res_bind_ok in H as (? & _ & H). apply res_bind_ok in H as (? & _ & H).
    apply guard_err_ok in H as [_ H]. apply res_bind_ok in H as (? & _ & H).
    apply res_bind_ok in H as (? & _ & H). by apply res_bind_ok in H as (? & _ & ?).
Qed.

(** The Event of a request without sensitive data, given the stream before it. *)
Definition next_event (new_id : ustr) (now : Z) (r : AppendRequest) (stream : list Event) : Event :=
  new_event new_id (isoformat_utc now) r
    match last stream with Some l => l.(aggregate_seq) + 1 | None => 1 end
    (last stream ≫= content_hash) None None.

Definition seq_mismatch (r : AppendRequest) (stream : list Event) : bool :=
  match r.(r_expected_seq) with
  | Some x => negb (x =? match last stream with Some l => l.(aggregate_seq) + 1 | None => 1 end)
  | None => false
  end.

Lemma append_read_new new_id now now' r rows p :
  uuid_str r.(r_workspace_id) = Ok r.(r_workspace_id) -> r.(r_sensitive) = None ->
  append_read new_id now now' r rows = Ok (inr p) ->
  let stream := pg_stream rows (r.(r_workspace_id), r.(r_aggregate_type), r.(r_aggregate_id)) in
  exists bh h, request_body_hash sha256_hex r = Ok bh /\ _find_idempotent rows r = Ok None /\
    _check_workspace rows r = Ok tt /\ seq_mismatch r stream = false /\
    compute_content_hash sha256_hex (next_event new_id now r stream) = Ok h /\
    p = {| p_request := r; p_event := sealed (next_event new_id now r stream) h 0;
           p_ciphertext := None; p_body_hash := bh; p_occurred_at := isoformat_utc now' |}.
Proof.
  intros Hws Hsens H. unfold append_read in H.
  apply res_bind_ok in H as (bh & Hbh & H). apply res_bind_ok in H as ([row|] & Hprior & H).
  { by apply res_bind_ok in H as (? & _ & ?). }
  apply res_bind_ok in H as ([] & Hcheck & H). rewrite Hws in H. cbn [mbind res_bind] in H.
  apply guard_err_ok in H as [Hseq H]. unfold encrypt_sensitive in H. rewrite Hsens in H.
  cbn [mbind res_bind fst snd] in H.
  apply res_bind_ok in H as (h & Hh & H). apply res_bind_ok in H as ([] & _ & [= <-]).
  exists bh, h. done.
Qed.

Lemma append_new_eq new_id now r m bh h :
  let stream := stream m (r.(r_workspace_id), r.(r_aggregate_type), r.(r_aggregate_id)) in
  request_body_hash sha256_hex r = Ok bh -> m.(_idem) !! request_key r = None ->
  seq_mismatch r stream = false -> known_cause m.(events) r = true ->
  compute_content_hash sha256_hex (next_event new_id now r stream) = Ok h ->
  let event := sealed (next_event new_id now r stream) h (Z.of_nat (length m.(events)) + 1) in
  append sha256_hex new_id (isoformat_utc now) r m =
    ({| events := m.(events) ++ [event];
        _idem := <[request_key r := (bh, event.(event_id))]> m.(_idem) |},
     Ok (result_of_event event false)).
Proof.
  cbn zeta. intros Hbh Hidem Hseq Hcause Hh. unfold append. rewrite Hbh, Hidem, last_of_stream.
  unfold seq_mismatch in Hseq. rewrite Hseq, Hcause. cbn [negb].
  unfold next_event in Hh. by rewrite Hh.
Qed.

End pg.

(** * A concrete database *)

Module Sample.

(** UUIDs are read back in lower case, instants with millisecond precision. *)
Definition lower (s : ustr) : ustr :=
  (fun c => if (65 <=? c)%N && (c <=? 90)%N then (c + 32)%N else c) <$> s.
Definition uuid_str (s : ustr) : res ustr := Ok (lower s).
Definition isoformat_utc (t : Z) : ustr := str_int (t / 1000).
Definition validate_contract (e : Event) : res unit :=
  if bool_decide (lower e.(workspace_id) = e.(workspace_id) /\
                  lower e.(actor_account_id) = e.(actor_account_id))
  then Ok tt else Err "SCHEMA_INVALID".
Definition in_ws (id : ustr) : option ustr := Some (lit "ws").
Definition constraint_name (c : constraint) : string :=
  match c with
  | EventIdUnique => "events_event_id_key"
  | AggregateSeqUnique => "events_workspace_id_aggregate_type_aggregate_id_aggregate_s_key"
  | IdempotencyUnique => "events_workspace_id_actor_account_id_idempotency_scope_idem_key"
  end.

Notation step := (pg_step id_hash uuid_str isoformat_utc validate_contract None in_ws in_ws in_ws
  constraint_name).
Definition run (ls : list pg_label) : PgSystem := default pg_empty (run_steps step pg_empty ls).

Definition with_channel (c : string) (r : AppendRequest) : AppendRequest := {|
  r_workspace_id := r.(r_workspace_id); r_aggregate_type := r.(r_aggregate_type);
  r_aggregate_id := r.(r_aggregate_id); r_type := r.(r_type);
  r_actor_account_id := r.(r_actor_account_id); r_correlation_id := r.(r_correlation_id);
  r_idempotency_scope := r.(r_idempotency_scope); r_idempotency_key := r.(r_idempotency_key);
  r_payload := r.(r_payload); r_policy_version := r.(r_policy_version);
  r_channel_id := Some (lit c); r_task_id := r.(r_task_id); r_caused_by := r.(r_caused_by);
  r_expected_seq := r.(r_expected_seq); r_sensitive := r.(r_sensitive);
  r_schema_version := r.(r_schema_version) |}.

Lemma contract_canonical e : validate_contract e = Ok tt ->
  uuid_str e.(workspace_id) = Ok e.(workspace_id) /\
  uuid_str e.(actor_account_id) = Ok e.(actor_account_id).
Proof.
  unfold validate_contract. case_bool_decide as H; [|done]. intros _.
  destruct H as [H1 H2]. unfold uuid_str. by rewrite H1, H2.
Qed.

(** Two appends read the empty aggregate and race; the second INSERT is refused
    and a third append follows. *)
Definition race : list pg_label := [
  Read (lit "1") 0 0 (sample_request "a" []); Read (lit "2") 0 0 (sample_request "b" []);
  Insert 0 7; Insert 0 9; Read (lit "3") 5 6 (with_channel "c" (sample_request "b" [])); Insert 0 10].

Notation agg := (lit "ws", lit "task", lit "T-1").

End Sample.


Definition sample_pg_result : AppendResult :=
  match (append id_hash (lit "1") (Sample.isoformat_utc 0) (sample_request "a" []) empty_store).2 with
  | Ok a => a
  | Err _ => sample_result
  end.

Lemma refines_empty : refines [] empty_store.
Proof. split; [done|]. intros k bh eid. split; [done|]. by intros (x & ?%not_elem_of_nil & _). Qed.


(** ** Where the stored Event does not verify *)

(** [append] reads the clock twice: the hashed [occurred_at] is the first
    reading, the stored column the second. When a millisecond passes between
    the two, the Event is committed and its stream no longer passes
    [verify_chain]; with one reading it does. *)
Theorem clock_read_twice_breaks_chain :
  let append_at now now' := Sample.run [Read (lit "1") now now' (sample_request "a" []); Insert 0 1] in
  verify_chain id_hash (pg_stream (append_at 999 999).(committed) (lit "ws", lit "task", lit "T-1"))
    = Ok [] /\
  verify_chain id_hash (pg_stream (append_at 999 1000).(committed) (lit "ws", lit "task", lit "T-1"))
    = Ok [BadContent (lit "evt-1")].
Proof. split; vm_compute; reflexivity. Qed.

(** A channel id in another spelling of the same UUID is accepted, hashed as
    written and read back canonical, so the stream no longer passes
    [verify_chain]. *)
Theorem noncanonical_channel_breaks_chain :
  let append_in c := Sample.run
    [Read (lit "1") 0 0 (Sample.with_channel c (sample_request "a" [])); Insert 0 1] in
  verify_chain id_hash (pg_stream (append_in "ab").(committed) (lit "ws", lit "task", lit "T-1"))
    = Ok [] /\
  verify_chain id_hash (pg_stream (append_in "AB").(committed) (lit "ws", lit "task", lit "T-1"))
    = Ok [BadContent (lit "evt-1")].
Proof. split; vm_compute; reflexivity. Qed.

(** A race for the same sequence number is refused with
    [EVENT_INSERT_FAILED] and not with [SEQUENCE_CONFLICT]: PostgreSQL cuts the
    name of the constraint to 63 bytes, before the [aggregate_seq] the handler
    looks for; the race for one idempotency key is still recognised. *)
Example sequence_race_code :
  let losing r := (append_insert Sample.uuid_str Sample.constraint_name 9
    {| p_request := r; p_event := sealed (new_event (lit "2") [] r 1 None None None) [] 0;
       p_ciphertext := None; p_body_hash := []; p_occurred_at := [] |}
    (Sample.run [Read (lit "1") 0 0 (sample_request "a" []); Insert 0 1]).(committed)).2 in
  losing (sample_request "b" []) = Err "EVENT_INSERT_FAILED".
Proof. vm_compute. reflexivity. Qed.
