(* ===== verification/Inbox.v ===== *)
(** The durable work item inbox: [server/work/inbox.py], its receipts
    ([server/work/receipts.py]) and the timeout sweep
    ([server/work/timeouts.py]). Every operation runs in one transaction on the
    tables [work_items], [work_item_receipts] and [audit_events] and on an Event
    store given by its interface [EventStoreI]; an exception rolls the
    transaction back. *)

From S2P Require Import Prelude Tx Defaults WorkState Canonical HashChain EventStore.
Open Scope Z_scope.

(** ** The Event store as its clients see it *)

(** [es_recorded s k]: the store holds the Event appended under the
    idempotency key [k]. *)
Class EventStoreI (ES : Type) := {
  es_append : AppendRequest -> ES -> res (AppendResult * ES);
  es_recorded : ES -> idem_key -> Prop;
  es_append_recorded r s a s' :
    es_append r s = Ok (a, s') -> es_recorded s' (request_key r);
  es_append_keeps r s a s' k :
    es_append r s = Ok (a, s') -> es_recorded s k -> es_recorded s' k }.

(** The in-memory store behind the interface, with ids drawn from the length of
    its log. *)
Section memory.
Context (sha256_hex : list N -> ustr) (now : ustr).

Definition memory_id (s : InMemoryEventStore) : ustr := str_int (Z.of_nat (length s.(events))).

Definition memory_append (r : AppendRequest) (s : InMemoryEventStore)
    : res (AppendResult * InMemoryEventStore) :=
  match append sha256_hex (memory_id s) now r s with
  | (s', Ok a) => Ok (a, s')
  | (_, Err e) => Err e
  end.

Definition memory_recorded (s : InMemoryEventStore) (k : idem_key) : Prop := is_Some (s.(_idem) !! k).

Lemma memory_append_cases r s a s' :
  memory_append r s = Ok (a, s') ->
  memory_recorded s' (request_key r) /\ forall k, memory_recorded s k -> memory_recorded s' k.
Proof.
  unfold memory_append, memory_recorded. pose proof (append_cases sha256_hex (memory_id s) now r s) as Hc.
  destruct (append _ _ _ _ _) as [x [b|e]]; [|done]. intros [= <- <-]. cbn in Hc.
  inversion Hc as [|bh prior Hb Hi _|bh h event Hb Hnone l Hev Hh]; subst; cbn; [by eauto|].
  split; [rewrite lookup_insert_eq; eauto|]. intros k Hk.
  destruct (decide (request_key r = k)) as [<-|]; [by rewrite lookup_insert_eq; eauto|].
  by rewrite lookup_insert_ne.
Qed.

#[local] Instance memory_store : EventStoreI InMemoryEventStore.
Proof.
  refine {| es_append := memory_append; es_recorded := memory_recorded |}.
  - intros r s a s' H. exact (proj1 (memory_append_cases _ _ _ _ H)).
  - intros r s a s' k H. exact (proj2 (memory_append_cases _ _ _ _ H) k).
Defined.
End memory.

(** ** Tables *)

Definition KINDS : list string :=
  ["task_assignment"; "subtask_assignment"; "invoke"; "cancel"; "brainstorm_turn";
   "verification_assignment"].

Record WorkItem := {
  work_item_id : string;
  wi_workspace_id : string;
  kind : string;
  agent_id : string;
  wi_task_id : option string;
  brainstorm_id : option string;
  wi_correlation_id : string;
  deadline : Z;
  wi_payload : list (ustr * json);
  secret_handles : list string;
  expected_result_schema : string;
  wi_idempotency_key : string;
  status : WorkItemState;
  delivery_count : Z;
  delivered_at : option Z;
  acked_at : option Z;
  accepted_at : option Z;
  finished_at : option Z;
  created_at : Z;
  updated_at : Z }.

(** The columns an UPDATE changes. *)
Definition with_cols (st : WorkItemState) (count : Z) (delivered acked accepted finished : option Z)
    (now : Z) (i : WorkItem) : WorkItem := {|
  work_item_id := i.(work_item_id); wi_workspace_id := i.(wi_workspace_id); kind := i.(kind);
  agent_id := i.(agent_id); wi_task_id := i.(wi_task_id); brainstorm_id := i.(brainstorm_id);
  wi_correlation_id := i.(wi_correlation_id); deadline := i.(deadline);
  wi_payload := i.(wi_payload); secret_handles := i.(secret_handles);
  expected_result_schema := i.(expected_result_schema);
  wi_idempotency_key := i.(wi_idempotency_key); status := st; delivery_count := count;
  delivered_at := delivered; acked_at := acked; accepted_at := accepted;
  finished_at := finished; created_at := i.(created_at); updated_at := now |}.

Definition RECEIPT_KINDS : list string :=
  ["delivery"; "ack"; "accept"; "reject"; "result"; "duplicate_result"; "cancel_ack"].

Record Receipt := {
  receipt_id : Z;
  rc_work_item_id : string;
  receipt_kind : string;
  delivery_no : option Z;
  result_ref : option ustr;
  result_sha256 : option ustr;
  rc_usage : option json;
  rc_detail : list (ustr * json) }.

(** A row of [audit_events], without its hash columns. *)
Record AuditRow := {
  ar_action : string;
  ar_target_id : string;
  ar_result : string;
  ar_error_code : option string;
  ar_actor_label : string;
  ar_metadata : list (ustr * json) }.

Record PollResult := { poll_items : list WorkItem; delivered_event_ids : list ustr }.

Record ResultOutcome := {
  ro_code : string;
  ro_work_item_id : string;
  ro_receipt_id : Z;
  ro_result_ref : ustr;
  ro_event_id : option ustr;
  ro_item : WorkItem }.

Record SweepOutcome := { so_work_item_id : string; so_action : string; so_reason : string }.

Record SweepReport := {
  requeued : list SweepOutcome;
  expired : list SweepOutcome;
  reroute_required : list SweepOutcome;
  waiting_required : list SweepOutcome;
  invalid : list string }.

Definition empty_report : SweepReport :=
  {| requeued := []; expired := []; reroute_required := []; waiting_required := []; invalid := [] |}.

Definition jstr (s : string) : json := JStr (lit s).
Definition jstr_opt (o : option string) : json := match o with Some s => jstr s | None => JNull end.

Definition payload_ref (i : WorkItem) : string :=
  "colab://work/" +:+ i.(work_item_id) +:+ "/payload".

Section inbox.
Context {ES : Type} {ESI : EventStoreI ES}.
Context (sha256_hex : list N -> ustr) (isoformat_utc : Z -> ustr).
(** The JSON schema [work-result.v1]. *)
Context (valid_work_result : list (ustr * json) -> bool).

Record Db := {
  work_items : gmap string WorkItem;
  receipts : list Receipt;
  next_receipt_id : Z;
  audit_events : list AuditRow;
  event_store : ES }.

#[local] Notation tx := (Tx.tx Db).

(** The §7B.1 envelope handed to the Agent. *)
Definition to_delivery (i : WorkItem) : list (ustr * json) := [
  (lit "schema_id", jstr "colab.work-item.v1");
  (lit "work_item_id", jstr i.(work_item_id));
  (lit "kind", jstr i.(kind));
  (lit "agent_id", jstr i.(agent_id));
  (lit "task_id", jstr_opt i.(wi_task_id));
  (lit "brainstorm_id", jstr_opt i.(brainstorm_id));
  (lit "correlation_id", jstr i.(wi_correlation_id));
  (lit "deadline", JStr (isoformat_utc i.(deadline)));
  (lit "payload_ref", jstr (payload_ref i));
  (lit "secret_handles", JArr (jstr <$> i.(secret_handles)));
  (lit "expected_result_schema", jstr i.(expected_result_schema));
  (lit "idempotency_key", jstr i.(wi_idempotency_key));
  (lit "delivery_no", JInt i.(delivery_count))].

Definition load (w : string) : tx WorkItem := fun db =>
  match db.(work_items) !! w with
  | Some item => Ok (item, db)
  | None => Err "WORK_ITEM_NOT_FOUND"
  end.

Definition _require_owner (item : WorkItem) (agent : string) : tx unit :=
  guard_tx (negb (String.eqb item.(agent_id) agent)) "WORK_ITEM_NOT_OWNER".

Definition append_request (item : WorkItem) (event_type actor operation key : string)
    (payload : list (ustr * json)) : AppendRequest := {|
  r_workspace_id := lit item.(wi_workspace_id); r_aggregate_type := lit "work_item";
  r_aggregate_id := lit item.(work_item_id); r_type := lit event_type;
  r_actor_account_id := lit actor; r_correlation_id := lit item.(wi_correlation_id);
  r_idempotency_scope := lit ("work_item:" +:+ operation); r_idempotency_key := lit key;
  r_payload := payload; r_policy_version := lit "policy-v1"; r_channel_id := None;
  r_task_id := lit <$> item.(wi_task_id); r_caused_by := None; r_expected_seq := None;
  r_sensitive := None; r_schema_version := 1 |}.

Definition _append (item : WorkItem) (event_type actor operation key : string)
    (payload : list (ustr * json)) : tx AppendResult := fun db =>
  match es_append (append_request item event_type actor operation key payload) db.(event_store) with
  | Ok (a, s) =>
      Ok (a, {| work_items := db.(work_items); receipts := db.(receipts);
                next_receipt_id := db.(next_receipt_id); audit_events := db.(audit_events);
                event_store := s |})
  | Err e => Err e
  end.

Definition put_items (m : gmap string WorkItem) (db : Db) : Db :=
  {| work_items := m; receipts := db.(receipts); next_receipt_id := db.(next_receipt_id);
     audit_events := db.(audit_events); event_store := db.(event_store) |}.

(** [UPDATE work_items SET ... WHERE work_item_id = :w]: no row, no effect. *)
Definition _set (w : string) (f : WorkItem -> WorkItem) : tx unit := fun db =>
  Ok (tt, put_items (alter f w db.(work_items)) db).

Definition record_receipt (w rkind : string) (no : option Z) (ref digest : option ustr)
    (usage : option json) (detail : list (ustr * json)) : tx Receipt := fun db =>
  if negb (mem rkind RECEIPT_KINDS) then Err "ValueError"
  else if String.eqb rkind "result" &&
          existsb (fun r => String.eqb r.(rc_work_item_id) w && String.eqb r.(receipt_kind) "result")
            db.(receipts)
  then Err "DuplicateResultError"
  else
    let r := {| receipt_id := db.(next_receipt_id); rc_work_item_id := w; receipt_kind := rkind;
                delivery_no := no; result_ref := ref; result_sha256 := digest; rc_usage := usage;
                rc_detail := detail |} in
    Ok (r, {| work_items := db.(work_items); receipts := db.(receipts) ++ [r];
              next_receipt_id := db.(next_receipt_id) + 1; audit_events := db.(audit_events);
              event_store := db.(event_store) |}).

Definition result_receipt_in (l : list Receipt) (w : string) : option Receipt :=
  find (fun r => String.eqb r.(rc_work_item_id) w && String.eqb r.(receipt_kind) "result") l.

Definition result_receipt_of (w : string) : tx (option Receipt) :=
  gets (fun db => result_receipt_in db.(receipts) w).

Definition receipts_of (db : Db) (w : string) : list Receipt :=
  filter (fun r => r.(rc_work_item_id) = w) db.(receipts).

Definition append_audit (a : AuditRow) : tx unit := fun db =>
  Ok (tt, {| work_items := db.(work_items); receipts := db.(receipts);
             next_receipt_id := db.(next_receipt_id); audit_events := db.(audit_events) ++ [a];
             event_store := db.(event_store) |}).

(** ** enqueue *)

Definition sorted_items (l : list WorkItem) : list WorkItem :=
  py_sorted (fun a b => (a.(created_at) <? b.(created_at)) ||
    ((a.(created_at) =? b.(created_at)) && String.leb a.(work_item_id) b.(work_item_id))) l.

Definition rows_where (p : WorkItem -> bool) (db : Db) : list WorkItem :=
  filter (fun i => p i = true) (snd <$> map_to_list db.(work_items)).

Record EnqueueArgs := {
  q_workspace_id : string; q_kind : string; q_agent_id : string; q_payload : list (ustr * json);
  q_deadline : Z; q_expected_result_schema : string; q_correlation_id : string;
  q_idempotency_key : string; q_actor_account_id : string; q_task_id : option string;
  q_brainstorm_id : option string; q_secret_handles : option (list string);
  q_work_item_id : option string }.

Definition fresh_item (q : EnqueueArgs) (wid : string) (now : Z) : WorkItem := {|
  work_item_id := wid; wi_workspace_id := q.(q_workspace_id); kind := q.(q_kind);
  agent_id := q.(q_agent_id); wi_task_id := q.(q_task_id); brainstorm_id := q.(q_brainstorm_id);
  wi_correlation_id := q.(q_correlation_id); deadline := q.(q_deadline);
  wi_payload := q.(q_payload); secret_handles := default [] q.(q_secret_handles);
  expected_result_schema := q.(q_expected_result_schema);
  wi_idempotency_key := q.(q_idempotency_key); status := QUEUED; delivery_count := 0;
  delivered_at := None; acked_at := None; accepted_at := None; finished_at := None;
  created_at := now; updated_at := now |}.

(** [INSERT INTO work_items]; no row has the idempotency key (just selected). *)
Definition insert_item (i : WorkItem) : tx unit := fun db =>
  match db.(work_items) !! i.(work_item_id) with
  | Some _ => Err "IntegrityError"
  | None => Ok (tt, put_items (<[i.(work_item_id) := i]> db.(work_items)) db)
  end.

(** The workspace id of [q] is the canonical text of a UUID, which the [uuid.UUID] of the
    INSERT leaves as it is (another text would be normalised, and one that is no UUID
    raises there). *)
Definition enqueue (new_work_item_id : string) (now : Z) (q : EnqueueArgs) : tx WorkItem :=
  _ ← guard_tx (negb (mem q.(q_kind) KINDS)) "WORK_ITEM_KIND_INVALID";
  _ ← guard_tx (negb (Bool.eqb (String.eqb q.(q_kind) "brainstorm_turn")
                               (bool_decide (is_Some q.(q_brainstorm_id)))))
        "WORK_ITEM_KIND_INVALID";
  existing ← gets (fun db => head (rows_where
    (fun i => String.eqb i.(wi_idempotency_key) q.(q_idempotency_key)) db));
  match existing with
  | Some item =>
      _ ← guard_tx (negb (String.eqb item.(agent_id) q.(q_agent_id)) ||
                    negb (String.eqb item.(kind) q.(q_kind))) "IDEMPOTENCY_CONFLICT";
      mret item
  | None =>
      bytes ← lift (canonical_json (JObj q.(q_payload)));
      _ ← guard_tx (1000000 <? Z.of_nat (length bytes)) "WORK_ITEM_PAYLOAD_TOO_LARGE";
      let wid := match q.(q_work_item_id) with
                 | Some w => if String.eqb w "" then new_work_item_id else w
                 | None => new_work_item_id end in
      _ ← insert_item (fresh_item q wid now);
      item ← load wid;
      _ ← _append item "WORK_ITEM_QUEUED" q.(q_actor_account_id) "queue" q.(q_idempotency_key) [
        (lit "work_item_id", jstr wid); (lit "kind", jstr q.(q_kind));
        (lit "agent_id", jstr q.(q_agent_id));
        (lit "deadline", JStr (isoformat_utc q.(q_deadline)));
        (lit "task_id", jstr_opt q.(q_task_id));
        (lit "brainstorm_id", jstr_opt q.(q_brainstorm_id))];
      mret item
  end.

(** ** poll *)

Definition int_text (z : Z) : string :=
  foldr (fun n s => String (ascii_of_N n) s) EmptyString (str_int z).

(** Delivery of one QUEUED row. *)
Definition deliver_one (actor : string) (now : Z) (item : WorkItem) : tx (WorkItem * ustr) :=
  let w := item.(work_item_id) in
  let act := if 0 <? item.(delivery_count) then "redeliver" else "deliver" in
  let base_state := if String.eqb act "redeliver" then DELIVERED else item.(status) in
  new_state ← lift (transition base_state act);
  let no := item.(delivery_count) + 1 in
  _ ← _set w (fun i => with_cols new_state no (Some now) i.(acked_at) i.(accepted_at)
                         i.(finished_at) now i);
  _ ← record_receipt w "delivery" (Some no) None None None [];
  res ← _append item "WORK_ITEM_DELIVERED" actor "deliver" (w +:+ ":" +:+ int_text no)
    [(lit "work_item_id", jstr w); (lit "delivery_no", JInt no)];
  item ← load w;
  mret (item, res.(a_event_id)).

Fixpoint deliver_rows (actor : string) (now : Z) (rows : list WorkItem) : tx PollResult :=
  match rows with
  | [] => mret {| poll_items := []; delivered_event_ids := [] |}
  | item :: rest =>
      if bool_decide (item.(status) = QUEUED) then
        d ← deliver_one actor now item;
        tail ← deliver_rows actor now rest;
        mret {| poll_items := d.1 :: tail.(poll_items);
                delivered_event_ids := d.2 :: tail.(delivered_event_ids) |}
      else
        tail ← deliver_rows actor now rest;
        mret {| poll_items := item :: tail.(poll_items);
                delivered_event_ids := tail.(delivered_event_ids) |}
  end.

(** [locked]: the rows other transactions hold, which SKIP LOCKED leaves out. *)
Definition poll (locked : list string) (agent actor : string) (now max_items : Z) : tx PollResult :=
  let limit := Z.max 1 (Z.min max_items 100) in
  rows ← gets (fun db => take (Z.to_nat limit) (sorted_items (rows_where (fun i =>
    String.eqb i.(agent_id) agent && mem i.(status) [QUEUED; DELIVERED] &&
    negb (mem i.(work_item_id) locked)) db)));
  deliver_rows actor now rows.

(** ** ack, start, reject, cancel, expire *)

Definition ack (w agent actor : string) (now : Z) : tx WorkItem :=
  item ← load w;
  _ ← _require_owner item agent;
  if mem item.(status) [ACKED; IN_PROGRESS] then mret item
  else
    new_state ← lift (transition item.(status) "ack");
    _ ← _set w (fun i => with_cols new_state i.(delivery_count) i.(delivered_at) (Some now)
                           i.(accepted_at) i.(finished_at) now i);
    _ ← record_receipt w "ack" (Some item.(delivery_count)) None None None [];
    _ ← _append item "WORK_ITEM_ACKED" actor "ack" w [(lit "work_item_id", jstr w)];
    load w.

Definition start (w agent actor : string) (now : Z) : tx WorkItem :=
  item ← load w;
  _ ← _require_owner item agent;
  if bool_decide (item.(status) = IN_PROGRESS) then mret item
  else
    new_state ← lift (transition item.(status) "start");
    _ ← _set w (fun i => with_cols new_state i.(delivery_count) i.(delivered_at) i.(acked_at)
                           (Some now) i.(finished_at) now i);
    _ ← record_receipt w "accept" (Some item.(delivery_count)) None None None [];
    _ ← _append item "WORK_ITEM_STARTED" actor "start" w [(lit "work_item_id", jstr w)];
    load w.

Definition finish (w : string) (new_state : WorkItemState) (now : Z) : tx unit :=
  _set w (fun i => with_cols new_state i.(delivery_count) i.(delivered_at) i.(acked_at)
                     i.(accepted_at) (Some now) now i).

Definition reason_payload (w reason_code : string) : list (ustr * json) :=
  [(lit "work_item_id", jstr w); (lit "reason_code", jstr reason_code)].

Definition reject (w agent reason_code actor : string) (now : Z) : tx WorkItem :=
  _ ← guard_tx (negb (mem reason_code REJECTION_CODES)) "WORK_ITEM_REJECTION_CODE_INVALID";
  item ← load w;
  _ ← _require_owner item agent;
  new_state ← lift (transition item.(status) "reject");
  _ ← finish w new_state now;
  _ ← record_receipt w "reject" (Some item.(delivery_count)) None None None
        [(lit "reason_code", jstr reason_code)];
  _ ← _append item "WORK_ITEM_REJECTED" actor "reject" w (reason_payload w reason_code);
  load w.

Definition cancel (w reason_code actor : string) (now : Z) : tx WorkItem :=
  item ← load w;
  new_state ← lift (transition item.(status) "cancel");
  _ ← finish w new_state now;
  _ ← _append item "WORK_ITEM_CANCELLED" actor "cancel" w (reason_payload w reason_code);
  load w.

Definition expire (w reason_code actor : string) (now : Z) : tx WorkItem :=
  item ← load w;
  new_state ← lift (transition item.(status) "expire");
  _ ← finish w new_state now;
  _ ← _append item "WORK_ITEM_EXPIRED" actor "expire" w (reason_payload w reason_code);
  load w.

Definition requeue_for_redelivery (w : string) (now : Z) : tx WorkItem :=
  item ← load w;
  _ ← lift (transition item.(status) "redeliver");
  _ ← _set w (fun i => with_cols QUEUED i.(delivery_count) i.(delivered_at) i.(acked_at)
                         i.(accepted_at) i.(finished_at) now i);
  load w.

(** ** result *)

Definition result_ref_for (w : string) (payload : list (ustr * json)) : res (ustr * ustr) :=
  bytes ← canonical_json (JObj payload);
  let digest := sha256_hex bytes in
  Ok (lit ("colab://work/" +:+ w +:+ "/result/") ++ digest, digest).

Definition _duplicate (item : WorkItem) (existing : option Receipt) (ref digest : ustr)
    (agent : string) : tx ResultOutcome :=
  let first_ref := match existing with
                   | Some e => default [] e.(result_ref)
                   | None => [] end in
  let same_body := match existing with
                   | Some e => bool_decide (e.(result_sha256) = Some digest)
                   | None => false end in
  dup ← record_receipt item.(work_item_id) "duplicate_result" (Some item.(delivery_count))
          (Some ref) (Some digest) None
          [(lit "first_result_ref", JStr first_ref); (lit "same_body", JBool same_body)];
  _ ← append_audit {| ar_action := "work.duplicate_result_ignored";
        ar_target_id := item.(work_item_id); ar_result := "IGNORED";
        ar_error_code := Some "DUPLICATE_RESULT_IGNORED"; ar_actor_label := agent;
        ar_metadata := [(lit "first_result_ref", JStr first_ref);
                        (lit "ignored_result_ref", JStr ref)] |};
  item' ← load item.(work_item_id);
  mret {| ro_code := "DUPLICATE_RESULT_IGNORED"; ro_work_item_id := item.(work_item_id);
          ro_receipt_id := match existing with Some e => e.(receipt_id) | None => dup.(receipt_id) end;
          ro_result_ref := if bool_decide (first_ref = []) then ref else first_ref;
          ro_event_id := None; ro_item := item' |}.

(** [try: ... except DuplicateResultError: ...]: the savepoint of the failed
    INSERT is rolled back alone. *)
Definition catch_duplicate {A} (m : tx A) (handler : tx A) : tx A := fun db =>
  match m db with
  | Err "DuplicateResultError" => handler db
  | r => r
  end.

(** The [result] receipt, or the duplicate path when the unique index refuses it. *)
Definition record_result (item : WorkItem) (w : string) (rd : ustr * ustr)
    (payload : list (ustr * json)) (agent : string) : tx (Receipt + ResultOutcome)%type :=
  let insert : tx (Receipt + ResultOutcome)%type :=
    r ← record_receipt w "result" (Some item.(delivery_count)) (Some rd.1) (Some rd.2)
          (assoc (lit "usage") payload)
          [(lit "status", default JNull (assoc (lit "status") payload));
           (lit "error_code", default JNull (assoc (lit "error_code") payload))];
    mret (inl r) in
  let duplicate : tx (Receipt + ResultOutcome)%type :=
    e ← result_receipt_of w; d ← _duplicate item e rd.1 rd.2 agent; mret (inr d) in
  catch_duplicate insert duplicate.

Definition is_null (j : option json) : bool :=
  match j with None | Some JNull => true | _ => false end.

(** [payload["work_item_id"] == work_item_id]; the schema requires the field. *)
Definition names_item (w : string) (payload : list (ustr * json)) : bool :=
  match assoc (lit "work_item_id") payload with
  | Some (JStr s) => bool_decide (s = lit w)
  | _ => false
  end.

Definition audit_identity (w agent : string) (payload : list (ustr * json)) : tx unit :=
  if is_null (assoc (lit "display_identity") payload) then mret tt
  else append_audit {| ar_action := "work.display_identity_ignored";
         ar_target_id := w; ar_result := "IGNORED"; ar_error_code := None;
         ar_actor_label := agent;
         ar_metadata := [(lit "reason", JStr (lit "development plan " ++ [167%N] ++
           lit "7A.4: display identity is set by the server"))] |}.

(** What follows the insertion of the [result] receipt. *)
Definition accept_result (item : WorkItem) (w : string) (rd : ustr * ustr)
    (payload : list (ustr * json)) (agent actor : string) (now : Z) (new_state : WorkItemState)
    (receipt : Receipt) : tx ResultOutcome :=
  _ ← finish w new_state now;
  res ← _append item "WORK_ITEM_RESULT_RECEIVED" actor "result" w
    [(lit "work_item_id", jstr w); (lit "result_ref", JStr rd.1);
     (lit "status", default JNull (assoc (lit "status") payload))];
  _ ← audit_identity w agent payload;
  item' ← load w;
  mret {| ro_code := "RESULT_ACCEPTED"; ro_work_item_id := w;
          ro_receipt_id := receipt.(receipt_id); ro_result_ref := rd.1;
          ro_event_id := Some res.(a_event_id); ro_item := item' |}.

Definition result (w agent : string) (payload : list (ustr * json)) (actor : string) (now : Z)
    : tx ResultOutcome :=
  _ ← guard_tx (negb (valid_work_result payload)) "WORK_RESULT_SCHEMA_INVALID";
  _ ← guard_tx (negb (names_item w payload))
        "WORK_RESULT_SCHEMA_INVALID";
  item ← load w;
  _ ← _require_owner item agent;
  rd ← lift (result_ref_for w payload);
  existing ← result_receipt_of w;
  if bool_decide (is_Some existing) || mem item.(status) TERMINAL_STATES
  then _duplicate item existing rd.1 rd.2 agent
  else
    item ← (if bool_decide (item.(status) = DELIVERED)
            then _ ← ack w agent actor now; load w
            else mret item : tx WorkItem);
    new_state ← lift (transition item.(status) "result");
    receipt ← record_result item w rd payload agent;
    match receipt with
    | inr outcome => mret outcome
    | inl receipt => accept_result item w rd payload agent actor now new_state receipt
    end.

(** ** Timeout sweep *)

Definition open_items (agent workspace : option string) (db : Db) : list WorkItem :=
  sorted_items (rows_where (fun i =>
    mem i.(status) [QUEUED; DELIVERED; ACKED; IN_PROGRESS] &&
    match workspace with Some ws => String.eqb i.(wi_workspace_id) ws | None => true end &&
    match agent with Some a => String.eqb i.(agent_id) a | None => true end) db).

Definition outcomes (r : SweepReport) : list SweepOutcome :=
  r.(requeued) ++ r.(expired) ++ r.(reroute_required) ++ r.(waiting_required).

(** One item of the sweep: what is added to the report. *)
Definition sweep_one (actor : string) (now : Z) (counts : gmap string Z) (item : WorkItem)
    : tx SweepReport :=
  let w := item.(work_item_id) in
  match next_action item.(status) item.(delivered_at) item.(acked_at) now item.(delivery_count)
          item.(kind) item.(accepted_at) (default 0 (counts !! w)) (Some item.(deadline)) with
  | Err code =>
      mret {| requeued := []; expired := []; reroute_required := []; waiting_required := [];
              invalid := [w +:+ ": " +:+ code] |}
  | Ok d =>
      match d.(action) with
      | NONE => mret empty_report
      | REDELIVER =>
          _ ← requeue_for_redelivery w now;
          mret {| requeued := [{| so_work_item_id := w; so_action := "REDELIVER"; so_reason := d.(reason) |}];
                  expired := []; reroute_required := []; waiting_required := []; invalid := [] |}
      | EXPIRE =>
          let reason := if String.eqb d.(reason) "DEADLINE_EXCEEDED" then "DEADLINE" else "ACK_TIMEOUT" in
          _ ← expire w reason actor now;
          mret {| requeued := [];
                  expired := [{| so_work_item_id := w; so_action := "EXPIRE"; so_reason := reason |}];
                  reroute_required := []; waiting_required := []; invalid := [] |}
      | REROUTE =>
          mret {| requeued := []; expired := [];
                  reroute_required := [{| so_work_item_id := w; so_action := "REROUTE_REQUIRED";
                                          so_reason := d.(reason) |}];
                  waiting_required := []; invalid := [] |}
      | WAITING =>
          mret {| requeued := []; expired := []; reroute_required := [];
                  waiting_required := [{| so_work_item_id := w; so_action := "WAITING_REQUIRED";
                                          so_reason := d.(reason) |}];
                  invalid := [] |}
      end
  end.

Definition report_app (a b : SweepReport) : SweepReport := {|
  requeued := a.(requeued) ++ b.(requeued); expired := a.(expired) ++ b.(expired);
  reroute_required := a.(reroute_required) ++ b.(reroute_required);
  waiting_required := a.(waiting_required) ++ b.(waiting_required);
  invalid := a.(invalid) ++ b.(invalid) |}.

Fixpoint sweep_items (actor : string) (now : Z) (counts : gmap string Z) (items : list WorkItem)
    : tx SweepReport :=
  match items with
  | [] => mret empty_report
  | item :: rest =>
      r ← sweep_one actor now counts item;
      rs ← sweep_items actor now counts rest;
      mret (report_app r rs)
  end.

(** One transaction after the other: the items are read without a lock and each is decided
    on as it was read, so a call that commits in between is not seen. *)
Definition sweep (agent workspace : option string) (counts : gmap string Z) (actor : string)
    (now : Z) : tx SweepReport :=
  items ← gets (open_items agent workspace);
  sweep_items actor now counts items.

(** * Invariant *)

(** The idempotency keys of the Events that account for the state of an item. *)
Definition evidence (i : WorkItem) : list (string * string) :=
  ("queue", i.(wi_idempotency_key)) ::
  match i.(status) with
  | QUEUED => []
  | DELIVERED => [("deliver", i.(work_item_id) +:+ ":" +:+ int_text i.(delivery_count))]
  | ACKED => [("ack", i.(work_item_id))]
  | IN_PROGRESS => [("start", i.(work_item_id))]
  | RESULT_RECEIVED => [("result", i.(work_item_id))]
  | REJECTED => [("reject", i.(work_item_id))]
  | EXPIRED => [("expire", i.(work_item_id))]
  | CANCELLED => [("cancel", i.(work_item_id))]
  end.

Definition logged (es : ES) (i : WorkItem) (e : string * string) : Prop :=
  exists actor, es_recorded es
    (lit i.(wi_workspace_id), lit actor, lit ("work_item:" +:+ e.1), lit e.2).

Definition is_result (w : string) (r : Receipt) : bool :=
  String.eqb r.(rc_work_item_id) w && String.eqb r.(receipt_kind) "result".

Record item_ok (rs : list Receipt) (es : ES) (w : string) (i : WorkItem) : Prop := {
  io_id : i.(work_item_id) = w;
  io_count : 0 <= i.(delivery_count) <= WORK_ITEM_MAX_REDELIVERIES + 1;
  io_queued : i.(status) = QUEUED -> i.(delivery_count) <= WORK_ITEM_MAX_REDELIVERIES;
  io_delivered : i.(status) = DELIVERED -> 1 <= i.(delivery_count);
  io_timed : timed i.(status) i.(delivered_at) i.(acked_at);
  io_result : i.(status) = RESULT_RECEIVED <-> existsb (is_result w) rs = true;
  io_events : Forall (logged es i) (evidence i) }.

Record db_ok (db : Db) : Prop := {
  db_fk r : r ∈ db.(receipts) -> is_Some (db.(work_items) !! r.(rc_work_item_id));
  db_items w i : db.(work_items) !! w = Some i -> item_ok db.(receipts) db.(event_store) w i;
  db_results w : (length (filter (fun r => is_result w r = true) db.(receipts)) <= 1)%nat }.

(** What every operation respects: rows are never dropped, a row in a terminal
    state never changes, receipts are only added and the Event log only grows. *)
Record grows (db db' : Db) : Prop := {
  gr_items w i : db.(work_items) !! w = Some i ->
    exists i', db'.(work_items) !! w = Some i' /\ (i' = i \/ i.(status) ∉ TERMINAL_STATES);
  gr_receipts : db.(receipts) `prefix_of` db'.(receipts);
  gr_events k : es_recorded db.(event_store) k -> es_recorded db'.(event_store) k }.

Lemma grows_refl db : grows db db.
Proof. split; eauto. Qed.

Lemma grows_trans db1 db2 db3 : grows db1 db2 -> grows db2 db3 -> grows db1 db3.
Proof.
  intros H1 H2. split.
  - intros w i Hi. destruct (gr_items _ _ H1 w i Hi) as (i' & Hi' & [->|Hn]).
    + by apply (gr_items _ _ H2).
    + destruct (gr_items _ _ H2 w i' Hi') as (i'' & ? & _). eauto.
  - etrans; [apply H1|apply H2].
  - intros k Hk. by apply H2, H1.
Qed.

(** ** Inversion of the basic steps *)

Lemma load_ok w i db db' : load w db = Ok (i, db') <-> db.(work_items) !! w = Some i /\ db' = db.
Proof. unfold load. destruct (_ !! w); naive_solver. Qed.

Definition put_store (es : ES) (db : Db) : Db :=
  {| work_items := db.(work_items); receipts := db.(receipts);
     next_receipt_id := db.(next_receipt_id); audit_events := db.(audit_events);
     event_store := es |}.

Lemma append_ok item event_type actor operation key payload a db db' :
  _append item event_type actor operation key payload db = Ok (a, db') ->
  exists es', db' = put_store es' db /\
    (forall k, es_recorded db.(event_store) k -> es_recorded es' k) /\
    logged es' item (operation, key).
Proof.
  unfold _append. destruct (es_append _ _) as [[b es']|] eqn:Ha; [|done]. intros [= <- <-].
  exists es'. split_and!; [done| |].
  - intros k. by eapply es_append_keeps.
  - exists actor. by apply es_append_recorded in Ha.
Qed.

Definition add_receipt (r : Receipt) (db : Db) : Db :=
  {| work_items := db.(work_items); receipts := db.(receipts) ++ [r];
     next_receipt_id := db.(next_receipt_id) + 1; audit_events := db.(audit_events);
     event_store := db.(event_store) |}.

Lemma record_receipt_ok w rkind no ref digest usage detail r db db' :
  record_receipt w rkind no ref digest usage detail db = Ok (r, db') ->
  db' = add_receipt r db /\ r.(rc_work_item_id) = w /\ r.(receipt_kind) = rkind /\
  r.(result_ref) = ref /\ r.(result_sha256) = digest /\
  (rkind = "result" -> existsb (is_result w) db.(receipts) = false).
Proof.
  unfold record_receipt, is_result. destruct (negb _); [done|].
  destruct (_ && _) eqn:Hdup; [done|]. intros [= <- <-]. split_and!; try done.
  intros ->. by rewrite String.eqb_refl in Hdup.
Qed.

Lemma set_ok w f u db db' : _set w f db = Ok (u, db') <-> db' = put_items (alter f w db.(work_items)) db.
Proof. unfold _set. destruct u. naive_solver. Qed.
(** Take a run of the monad apart. *)
Ltac tx_inv :=
  repeat match goal with
  | H : (mbind _ _) _ = Ok _ |- _ => apply tx_bind_ok in H as (? & ? & ? & H)
  | H : (mret _) _ = Ok _ |- _ => apply tx_ret_ok in H as [? ?%eq_sym]; simplify_eq
  | H : lift _ _ = Ok _ |- _ => apply lift_ok in H as [? ?%eq_sym]; simplify_eq
  | H : guard_tx _ _ _ = Ok _ |- _ => apply guard_tx_ok in H as [? ?%eq_sym]; simplify_eq
  | H : gets _ _ = Ok _ |- _ => apply gets_ok in H as [?%eq_sym ?%eq_sym]; simplify_eq
  | H : load _ _ = Ok _ |- _ => apply load_ok in H as [? ?]; simplify_eq
  | H : _set _ _ _ = Ok _ |- _ => apply set_ok in H; simplify_eq
  end.

Ltac op_inv :=
  tx_inv;
  repeat match goal with
  | H : record_receipt _ _ _ _ _ _ _ _ = _ |- _ =>
      apply record_receipt_ok in H as (-> & Hw & Hk & Href & Hdig & Hfresh)
  | H : _append _ _ _ _ _ _ _ = _ |- _ => apply append_ok in H as (es' & -> & Hes & Hlog)
  | H : _require_owner _ _ _ = Ok _ |- _ => unfold _require_owner in H
  end; tx_inv.

(** ** One row changes *)

Lemma item_ok_mono rs rs' es es' w i :
  existsb (is_result w) rs' = existsb (is_result w) rs ->
  (forall k, es_recorded es k -> es_recorded es' k) ->
  item_ok rs es w i -> item_ok rs' es' w i.
Proof.
  intros Hrs Hes Hi. split; try apply Hi.
  - rewrite Hrs. apply Hi.
  - eapply Forall_impl; [apply Hi|]. intros e [actor He]. exists actor. by apply Hes.
Qed.

(** The receipts an operation on the row [w] adds. *)
Definition adds (w : string) (old new : list Receipt) : Prop :=
  (forall r, r ∈ new -> r.(rc_work_item_id) = w) /\
  ((forall r, r ∈ new -> r.(receipt_kind) <> "result") \/
   (exists r, new = [r] /\ is_result w r = true /\ existsb (is_result w) old = false)).

Lemma no_result_exists w rs :
  (forall r, r ∈ rs -> r.(receipt_kind) <> "result") -> existsb (is_result w) rs = false.
Proof.
  intros H. rewrite <- not_true_iff_false, existsb_exists. intros (r & Hr & He).
  apply andb_true_iff in He as [_ He%String.eqb_eq]. by apply (H r); [apply list_elem_of_In|].
Qed.

Lemma existsb_filter {A} (f : A -> bool) l :
  existsb f l = false <-> filter (fun x => f x = true) l = [].
Proof.
  induction l as [|x l IH]; [done|]. cbn [existsb]. rewrite orb_false_iff, IH.
  destruct (f x) eqn:E; [rewrite filter_cons_True by done|rewrite filter_cons_False by congruence];
    naive_solver.
Qed.

Lemma is_result_other w w' r : is_result w r = true -> w' <> w -> is_result w' r = false.
Proof.
  unfold is_result. rewrite andb_true_iff, String.eqb_eq. intros [<- ->] Hne.
  rewrite andb_false_iff, String.eqb_neq. naive_solver.
Qed.

Lemma adds_other w w' old new :
  adds w old new -> w' <> w -> existsb (is_result w') (old ++ new) = existsb (is_result w') old.
Proof.
  intros [_ [H|(r & -> & Hr & _)]] Hne; rewrite existsb_app.
  - by rewrite (no_result_exists w' new H), orb_false_r.
  - assert (existsb (is_result w') [r] = false) as -> by (cbn [existsb]; by rewrite (is_result_other w w' r Hr Hne)).
    apply orb_false_r.
Qed.

Lemma adds_count w w' old new :
  adds w old new -> (length (filter (fun r => is_result w' r = true) old) <= 1)%nat ->
  (length (filter (fun r => is_result w' r = true) (old ++ new)) <= 1)%nat.
Proof.
  intros [_ [H|(r & -> & Hr & Hold)]] Hlen; rewrite filter_app, length_app.
  - apply (no_result_exists w'), existsb_filter in H. rewrite H. cbn. lia.
  - destruct (decide (w' = w)) as [->|Hne].
    + apply existsb_filter in Hold. rewrite Hold, filter_cons_True by done. cbn. lia.
    + rewrite filter_cons_False by (by rewrite (is_result_other w w' r Hr Hne)). cbn. lia.
Qed.

Lemma update_ok db db' w i i' rs :
  db_ok db -> db.(work_items) !! w = Some i -> i.(status) ∉ TERMINAL_STATES ->
  db'.(work_items) = <[w := i']> db.(work_items) ->
  db'.(receipts) = db.(receipts) ++ rs -> adds w db.(receipts) rs ->
  (forall k, es_recorded db.(event_store) k -> es_recorded db'.(event_store) k) ->
  item_ok db'.(receipts) db'.(event_store) w i' ->
  db_ok db' /\ grows db db'.
Proof.
  intros Hok Hi Hopen Hitems Hrs Hadds Hes Hi'. split; split.
  - intros r. rewrite Hrs, Hitems, elem_of_app, lookup_insert_is_Some'.
    intros [Hr|Hr]; [right; by apply (db_fk _ Hok)|left]. symmetry. by apply Hadds.
  - intros w0 i0. rewrite Hitems, lookup_insert_Some. intros [[<- <-]|[Hne H0]]; [done|].
    eapply item_ok_mono; [|exact Hes|by apply (db_items _ Hok)].
    rewrite Hrs. by apply (adds_other w).
  - intros w0. rewrite Hrs. eapply adds_count; [done|apply Hok].
  - intros w0 i0 H0. rewrite Hitems. destruct (decide (w0 = w)) as [->|Hne].
    + exists i'. rewrite lookup_insert_eq. assert (i0 = i) as -> by congruence. auto.
    + exists i0. rewrite lookup_insert_ne by done. auto.
  - rewrite Hrs. by apply prefix_app_r.
  - done.
Qed.

Lemma alter_row f w (m : gmap string WorkItem) i :
  m !! w = Some i -> alter f w m = <[w := f i]> m.
Proof.
  intros Hi. apply map_eq. intros k. destruct (decide (k = w)) as [->|Hne].
  - by rewrite lookup_alter_eq, lookup_insert_eq, Hi.
  - by rewrite lookup_alter_ne, lookup_insert_ne.
Qed.

Lemma open_no_result db w i :
  db_ok db -> db.(work_items) !! w = Some i -> i.(status) ∉ TERMINAL_STATES ->
  existsb (is_result w) db.(receipts) = false.
Proof.
  intros Hok Hi Hopen. rewrite <- not_true_iff_false. intros Hr.
  apply (io_result _ _ _ _ (db_items _ Hok w i Hi)) in Hr.
  rewrite Hr in Hopen. by apply (bool_decide_unpack (~ _)) in Hopen.
Qed.

Lemma with_cols_ok rs es rs' es' w i st n d a ac f now e :
  item_ok rs es w i -> (forall k, es_recorded es k -> es_recorded es' k) ->
  (st = RESULT_RECEIVED <-> existsb (is_result w) rs' = true) ->
  0 <= n <= WORK_ITEM_MAX_REDELIVERIES + 1 ->
  (st = QUEUED -> n <= WORK_ITEM_MAX_REDELIVERIES) -> (st = DELIVERED -> 1 <= n) ->
  timed st d a ->
  evidence (with_cols st n d a ac f now i) = ("queue", i.(wi_idempotency_key)) :: e ->
  Forall (logged es' i) e ->
  item_ok rs' es' w (with_cols st n d a ac f now i).
Proof.
  intros Hi Hes Hr Hn Hq Hd Ht He Hlog. split; try done; [by apply Hi|].
  rewrite He. constructor; [|exact Hlog].
  pose proof (io_events _ _ _ _ Hi) as Hev. inversion Hev as [|? ? [actor Hq'] _]; subst.
  exists actor. by apply Hes.
Qed.

Lemma one_receipt_adds w old r :
  r.(rc_work_item_id) = w -> (r.(receipt_kind) = "result" -> existsb (is_result w) old = false) ->
  adds w old [r].
Proof.
  intros Hw Hr. split; [by intros x ->%list_elem_of_singleton|].
  destruct (decide (r.(receipt_kind) = "result")) as [Hk|Hk].
  - right. exists r. split_and!; [done| |by apply Hr].
    unfold is_result. by rewrite Hw, Hk, !String.eqb_refl.
  - left. by intros x ->%list_elem_of_singleton.
Qed.

Lemma no_result_add w rs r :
  existsb (is_result w) rs = false -> r.(receipt_kind) <> "result" ->
  existsb (is_result w) (rs ++ [r]) = false.
Proof.
  intros Hrs Hr. rewrite existsb_app, Hrs. apply no_result_exists.
  by intros x ->%list_elem_of_singleton.
Qed.

(** An operation on the row [w]: the tables stay well-formed, nothing is lost
    and no other row changes. *)
Definition row_op (w : string) (db db' : Db) : Prop :=
  db_ok db' /\ grows db db' /\
  (forall w', w' <> w -> db'.(work_items) !! w' = db.(work_items) !! w').

(** A state change with one receipt and one Event. *)
Lemma change_with_receipt db w i st n d a ac f now r actor_key es' :
  db_ok db -> db.(work_items) !! w = Some i -> i.(status) ∉ TERMINAL_STATES ->
  r.(rc_work_item_id) = w -> (r.(receipt_kind) = "result" <-> st = RESULT_RECEIVED) ->
  0 <= n <= WORK_ITEM_MAX_REDELIVERIES + 1 ->
  (st = QUEUED -> n <= WORK_ITEM_MAX_REDELIVERIES) -> (st = DELIVERED -> 1 <= n) ->
  timed st d a ->
  evidence (with_cols st n d a ac f now i) = [("queue", i.(wi_idempotency_key)); actor_key] ->
  (forall k, es_recorded db.(event_store) k -> es_recorded es' k) -> logged es' i actor_key ->
  row_op w db (put_store es' (add_receipt r (put_items
    (<[w := with_cols st n d a ac f now i]> db.(work_items)) db))).
Proof.
  intros Hok Hi Hopen Hw Hk Hn Hq Hd Ht He Hes Hlog.
  pose proof (open_no_result _ _ _ Hok Hi Hopen) as Hno.
  assert (existsb (is_result w) (db.(receipts) ++ [r]) = true <-> st = RESULT_RECEIVED) as Hst.
  { rewrite <- Hk. rewrite existsb_app, Hno. cbn [existsb orb]. unfold is_result.
    by rewrite Hw, String.eqb_refl, andb_true_l, orb_false_r, String.eqb_eq. }
  destruct (update_ok db (put_store es' (add_receipt r (put_items
    (<[w := with_cols st n d a ac f now i]> db.(work_items)) db))) w i
    (with_cols st n d a ac f now i) [r]) as [H1 H2]; try done.
  - by apply one_receipt_adds.
  - eapply with_cols_ok; [by apply (db_items _ Hok)|exact Hes|by rewrite <- Hst|done|done|done|done|exact He|].
    by repeat constructor.
  - split_and!; [done..|]. intros w' Hne. cbn. by rewrite lookup_insert_ne.
Qed.

Lemma change_no_receipt db w i st n d a ac f now es' e :
  db_ok db -> db.(work_items) !! w = Some i -> i.(status) ∉ TERMINAL_STATES ->
  st <> RESULT_RECEIVED ->
  0 <= n <= WORK_ITEM_MAX_REDELIVERIES + 1 ->
  (st = QUEUED -> n <= WORK_ITEM_MAX_REDELIVERIES) -> (st = DELIVERED -> 1 <= n) ->
  timed st d a ->
  evidence (with_cols st n d a ac f now i) = ("queue", i.(wi_idempotency_key)) :: e ->
  (forall k, es_recorded db.(event_store) k -> es_recorded es' k) -> Forall (logged es' i) e ->
  row_op w db (put_store es' (put_items (<[w := with_cols st n d a ac f now i]> db.(work_items)) db)).
Proof.
  intros Hok Hi Hopen Hst Hn Hq Hd Ht He Hes Hlog.
  pose proof (open_no_result _ _ _ Hok Hi Hopen) as Hno.
  destruct (update_ok db (put_store es' (put_items
    (<[w := with_cols st n d a ac f now i]> db.(work_items)) db)) w i
    (with_cols st n d a ac f now i) []) as [H1 H2]; try done.
  - by rewrite app_nil_r.
  - split; [|left]; by intros r ?%not_elem_of_nil.
  - eapply with_cols_ok; [by apply (db_items _ Hok)|exact Hes| |done..]. cbn. rewrite Hno. done.
  - split_and!; [done..|]. intros w' Hne. cbn. by rewrite lookup_insert_ne.
Qed.

(** ** The operations *)

Lemma deliver_one_ok db w item actor now x db' :
  db_ok db -> db.(work_items) !! w = Some item -> item.(status) = QUEUED ->
  deliver_one actor now item db = Ok (x, db') -> row_op w db db'.
Proof.
  intros Hok Hi Hst H. pose proof (db_items _ Hok w item Hi) as Hio.
  unfold deliver_one in H. rewrite (io_id _ _ _ _ Hio) in H. op_inv.
  pose proof (io_queued _ _ _ _ Hio Hst) as Hc. pose proof (io_count _ _ _ _ Hio) as Hc0.
  assert (x0 = DELIVERED) as ->.
  { match goal with H : transition _ _ = Ok _ |- _ => revert H end. rewrite Hst.
    destruct (0 <? _); by intros [= <-]. }
  rewrite (alter_row _ _ _ _ Hi).
  eapply change_with_receipt; try done; try lia.
  - rewrite Hst. by apply (bool_decide_unpack (~ _)).
  - rewrite Hk. split; [done|discriminate].
  - split; [by eauto|by intros []].
  - cbn. by rewrite (io_id _ _ _ _ Hio).
Qed.

(** The target of each action the inbox performs; no action leaves a terminal
    state. *)
Definition target (act : string) : WorkItemState :=
  match act with
  | "ack" => ACKED | "start" => IN_PROGRESS | "reject" => REJECTED | "cancel" => CANCELLED
  | "expire" => EXPIRED | "result" => RESULT_RECEIVED | _ => DELIVERED
  end.

Definition inbox_actions : list string :=
  ["ack"; "start"; "reject"; "cancel"; "expire"; "result"; "redeliver"].

Lemma transition_to act st st' :
  act ∈ inbox_actions -> transition st act = Ok st' -> st ∉ TERMINAL_STATES /\ st' = target act.
Proof.
  intros Ha H. split; [by apply transition_ok in H as [? _]|].
  unfold inbox_actions in Ha.
  repeat (apply elem_of_cons in Ha as [->|Ha]; [by destruct st; vm_compute in H; simplify_eq|]).
  by apply elem_of_nil in Ha.
Qed.

Lemma transition_start st st' : transition st "start" = Ok st' -> st = ACKED.
Proof. by destruct st. Qed.

Lemma transition_redeliver st st' : transition st "redeliver" = Ok st' -> st = DELIVERED.
Proof. by destruct st. Qed.

Lemma row_op_refl db w : db_ok db -> row_op w db db.
Proof. intros Hok. split_and!; [done|apply grows_refl|done]. Qed.

(** Name the row an operation changes, and its new state. *)
Ltac row_inv Hok :=
  match goal with H : transition _ _ = Ok _ |- _ =>
    pose proof H as Htr; apply transition_to in H as [Hopen ->]; [|by apply (bool_decide_unpack _)] end;
  match goal with H : work_items ?db !! ?w = Some ?i, Hok' : db_ok ?db |- _ =>
    pose proof (db_items _ Hok' w i H) as Hio; pose proof H as Hi;
    unfold finish in *; op_inv; rewrite ?(alter_row _ _ _ _ H) end.

Lemma ack_ok db w agent actor now x db' :
  db_ok db -> ack w agent actor now db = Ok (x, db') -> row_op w db db'.
Proof.
  intros Hok H. unfold ack in H. op_inv. destruct (mem _ _); op_inv; [by apply row_op_refl|].
  row_inv Hok.
  eapply change_with_receipt; try done; try apply Hio.
  - rewrite Hk. split; discriminate.
  - cbn. by rewrite (io_id _ _ _ _ Hio).
Qed.

Lemma start_ok db w agent actor now x db' :
  db_ok db -> start w agent actor now db = Ok (x, db') -> row_op w db db'.
Proof.
  intros Hok H. unfold start in H. op_inv. case_bool_decide; op_inv; [by apply row_op_refl|].
  row_inv Hok. apply transition_start in Htr.
  eapply change_with_receipt; try done; try apply Hio.
  - rewrite Hk. split; discriminate.
  - split; [done|]. intros _. apply (io_timed _ _ _ _ Hio). by left.
  - cbn. by rewrite (io_id _ _ _ _ Hio).
Qed.

Lemma reject_ok db w agent code actor now x db' :
  db_ok db -> reject w agent code actor now db = Ok (x, db') -> row_op w db db'.
Proof.
  intros Hok H. unfold reject in H. op_inv. row_inv Hok.
  eapply change_with_receipt; try done; try apply Hio.
  - rewrite Hk. split; discriminate.
  - split; [done|by intros []].
  - cbn. by rewrite (io_id _ _ _ _ Hio).
Qed.

Lemma cancel_ok db w code actor now x db' :
  db_ok db -> cancel w code actor now db = Ok (x, db') -> row_op w db db'.
Proof.
  intros Hok H. unfold cancel in H. op_inv. row_inv Hok.
  eapply change_no_receipt; try done; try apply Hio.
  - split; [done|by intros []].
  - constructor; [|constructor]. cbn. by rewrite (io_id _ _ _ _ Hio).
Qed.

Lemma expire_ok db w code actor now x db' :
  db_ok db -> expire w code actor now db = Ok (x, db') -> row_op w db db'.
Proof.
  intros Hok H. unfold expire in H. op_inv. row_inv Hok.
  eapply change_no_receipt; try done; try apply Hio.
  - split; [done|by intros []].
  - constructor; [|constructor]. cbn. by rewrite (io_id _ _ _ _ Hio).
Qed.

Lemma put_store_same db : put_store db.(event_store) db = db.
Proof. by destruct db. Qed.

Lemma requeue_ok db w now i x db' :
  db_ok db -> db.(work_items) !! w = Some i -> i.(delivery_count) <= WORK_ITEM_MAX_REDELIVERIES ->
  requeue_for_redelivery w now db = Ok (x, db') -> row_op w db db'.
Proof.
  intros Hok Hrow Hcount H. unfold requeue_for_redelivery in H. op_inv. row_inv Hok.
  rewrite <- (put_store_same (put_items _ db)).
  eapply change_no_receipt; try done; try apply Hio.
  - split; [done|by intros []].
Qed.

(** What an operation on several rows keeps. *)
Definition safe (db db' : Db) : Prop := db_ok db' /\ grows db db'.

Lemma safe_refl db : db_ok db -> safe db db.
Proof. intros Hok. split; [done|apply grows_refl]. Qed.

Lemma safe_trans db1 db2 db3 : safe db1 db2 -> safe db2 db3 -> safe db1 db3.
Proof. intros [_ H1] [H2 H3]. split; [done|by eapply grows_trans]. Qed.

Lemma row_op_safe w db db' : row_op w db db' -> safe db db'.
Proof. by intros (H1 & H2 & _). Qed.

(** Rows as they stand, each once. *)
Definition current (db : Db) (rows : list WorkItem) : Prop :=
  Forall (fun i => db.(work_items) !! i.(work_item_id) = Some i) rows /\
  NoDup (work_item_id <$> rows).

Lemma rows_where_current p db : db_ok db -> current db (rows_where p db).
Proof.
  intros Hok. unfold rows_where.
  assert (current db (snd <$> map_to_list db.(work_items))) as [H1 H2].
  { split.
    - apply Forall_forall. intros i Hi. apply list_elem_of_fmap in Hi as ([w i'] & -> & Hw).
      apply elem_of_map_to_list in Hw. cbn. by rewrite (io_id _ _ _ _ (db_items _ Hok w i' Hw)).
    - rewrite <- list_fmap_compose.
      replace ((work_item_id ∘ snd) <$> map_to_list (work_items db))
        with ((map_to_list (work_items db)).*1); [apply NoDup_fst_map_to_list|].
      apply list_fmap_ext. intros k [w i] Hk.
      apply list_elem_of_lookup_2, elem_of_map_to_list in Hk. cbn.
      by rewrite (io_id _ _ _ _ (db_items _ Hok w i Hk)). }
  split.
  - apply Forall_forall. intros i [_ Hi]%list_elem_of_filter. rewrite Forall_forall in H1. by apply H1.
  - eapply sublist_NoDup; [exact H2|]. apply fmap_sublist, sublist_filter.
Qed.

Lemma current_perm db l l' : l ≡ₚ l' -> current db l -> current db l'.
Proof. intros Hp [H1 H2]. split; [by rewrite <- Hp|by rewrite <- Hp]. Qed.

Lemma current_take db n l : current db l -> current db (take n l).
Proof.
  intros [H1 H2]. split; [by apply Forall_take|]. rewrite fmap_take.
  eapply sublist_NoDup; [done|apply sublist_take].
Qed.

Lemma current_row_op db db' i rows :
  current db (i :: rows) -> row_op i.(work_item_id) db db' -> current db' rows.
Proof.
  intros [H1 H2] (_ & _ & Hsame). inversion H1 as [|? ? _ Hrows]; subst.
  apply NoDup_cons in H2 as [Hi H2]. split; [|done].
  apply Forall_forall. intros j Hj. rewrite Hsame; [by rewrite Forall_forall in Hrows; apply Hrows|].
  intros E. apply Hi. rewrite <- E. by apply list_elem_of_fmap_2.
Qed.

Lemma deliver_rows_ok actor now rows db x db' :
  db_ok db -> current db rows -> deliver_rows actor now rows db = Ok (x, db') -> safe db db'.
Proof.
  revert db x db'. induction rows as [|item rows IH]; intros db x db' Hok Hcur H; cbn in H.
  - tx_inv. by apply safe_refl.
  - pose proof Hcur as [Hrows _]. inversion Hrows as [|? ? Hi _]; subst.
    case_bool_decide as Hst; tx_inv.
    + match goal with H : deliver_one _ _ _ _ = _ |- _ =>
        apply (deliver_one_ok db item.(work_item_id)) in H as Hop; [|done..] end.
      eapply safe_trans; [by eapply row_op_safe|].
      eapply IH; [apply Hop| |done]. by eapply current_row_op.
    + eapply IH; [done| |done]. destruct Hcur as [H1 H2]. inversion H1; subst.
      split; [done|]. by apply NoDup_cons in H2 as [_ ?].
Qed.

Lemma poll_ok locked agent actor now n db x db' :
  db_ok db -> poll locked agent actor now n db = Ok (x, db') -> safe db db'.
Proof.
  intros Hok H. unfold poll in H. tx_inv. eapply deliver_rows_ok; [done| |done].
  apply current_take. eapply current_perm; [symmetry; apply py_sorted_perm|].
  by apply rows_where_current.
Qed.

Lemma no_receipts_of db w : db_ok db -> db.(work_items) !! w = None ->
  existsb (is_result w) db.(receipts) = false.
Proof.
  intros Hok Hw. rewrite <- not_true_iff_false, existsb_exists. intros (r & Hr & He).
  apply andb_true_iff in He as [He%String.eqb_eq _].
  apply list_elem_of_In, (db_fk _ Hok) in Hr as [i Hi]. congruence.
Qed.

Lemma insert_item_ok i u db db' :
  insert_item i db = Ok (u, db') ->
  db.(work_items) !! i.(work_item_id) = None /\
  db' = put_items (<[i.(work_item_id) := i]> db.(work_items)) db.
Proof. unfold insert_item. destruct (_ !! _); [done|]. by intros [= <- <-]. Qed.

Lemma enqueue_ok new_id now q db x db' :
  db_ok db -> enqueue new_id now q db = Ok (x, db') -> safe db db'.
Proof.
  intros Hok H. unfold enqueue in H. tx_inv. destruct (head _); tx_inv; [by apply safe_refl|].
  match goal with H : insert_item _ _ = _ |- _ => apply insert_item_ok in H as [Hnone ->] end.
  op_inv. cbn [work_items put_items work_item_id fresh_item] in *.
  match goal with H : <[?w := _]> _ !! ?w = Some _ |- _ =>
    rewrite lookup_insert_eq in H; injection H as <-; revert Hlog Hnone; generalize w end.
  intros w Hlog Hnone.
  split; split; cbn [work_items receipts event_store put_store put_items].
  - intros r Hr. apply (db_fk _ Hok) in Hr. rewrite lookup_insert_is_Some'. by right.
  - intros w0 i0. rewrite lookup_insert_Some. intros [[<- <-]|[_ Hold]].
    + split; cbn; try done; try lia.
      * split; [done|by intros []].
      * by rewrite (no_receipts_of _ _ Hok Hnone).
      * by repeat constructor.
    + eapply item_ok_mono; [done|exact Hes|by apply (db_items _ Hok)].
  - apply Hok.
  - intros w0 i0 Hold. exists i0. rewrite lookup_insert_ne; [by auto|]. intros <-. congruence.
  - done.
  - exact Hes.
Qed.

(** An operation that only adds receipts other than results, and audit rows. *)
Lemma adds_receipt_safe db r db' :
  db_ok db -> is_Some (db.(work_items) !! r.(rc_work_item_id)) -> r.(receipt_kind) <> "result" ->
  db'.(work_items) = db.(work_items) -> db'.(receipts) = db.(receipts) ++ [r] ->
  db'.(event_store) = db.(event_store) -> safe db db'.
Proof.
  intros Hok Hw Hr Hi Hrs Hes. pose proof (one_receipt_adds r.(rc_work_item_id) db.(receipts) r) as Ha.
  split; split; rewrite ?Hi, ?Hrs, ?Hes; try done.
  - intros x [Hx|Hx]%elem_of_app; [by apply (db_fk _ Hok)|].
    by apply list_elem_of_singleton in Hx as ->.
  - intros w i H0. eapply item_ok_mono; [|done|by apply (db_items _ Hok)].
    rewrite existsb_app, (no_result_exists w [r]), orb_false_r; [done|].
    by intros x ->%list_elem_of_singleton.
  - intros w. eapply adds_count; [by apply Ha|apply Hok].
  - eauto.
  - by apply prefix_app_r.
Qed.

Lemma duplicate_spec item existing ref digest agent db o db' :
  _duplicate item existing ref digest agent db = Ok (o, db') ->
  o.(ro_code) = "DUPLICATE_RESULT_IGNORED" /\ o.(ro_event_id) = None /\
  db'.(work_items) = db.(work_items) /\ db'.(event_store) = db.(event_store) /\
  is_Some (db.(work_items) !! item.(work_item_id)) /\
  (exists r, db'.(receipts) = db.(receipts) ++ [r] /\ r.(receipt_kind) = "duplicate_result" /\
    r.(rc_work_item_id) = item.(work_item_id)) /\
  (exists a, db'.(audit_events) = db.(audit_events) ++ [a] /\
    a.(ar_error_code) = Some "DUPLICATE_RESULT_IGNORED").
Proof.
  unfold _duplicate. intros H. op_inv.
  match goal with H : append_audit _ _ = _ |- _ => injection H as <- <- end.
  cbn in *. split_and!; eauto.
Qed.

Lemma duplicate_first item e ref digest agent db o db' first :
  e.(result_ref) = Some first -> _duplicate item (Some e) ref digest agent db = Ok (o, db') ->
  o.(ro_receipt_id) = e.(receipt_id) /\ (first <> [] -> o.(ro_result_ref) = first).
Proof.
  unfold _duplicate. intros He H. op_inv. cbn. split; [done|].
  rewrite He. cbn. intros Hne. by rewrite bool_decide_eq_false_2.
Qed.

Lemma duplicate_safe item existing ref digest agent db o db' :
  db_ok db -> _duplicate item existing ref digest agent db = Ok (o, db') -> safe db db'.
Proof.
  intros Hok (_ & _ & Hi & Hes & Hw & (r & Hrs & Hk & Hrw) & _)%duplicate_spec.
  apply (adds_receipt_safe db r); try done; [by rewrite Hrw|by rewrite Hk].
Qed.

Lemma result_receipt_exists rs w :
  result_receipt_in rs w = None <-> existsb (is_result w) rs = false.
Proof.
  unfold result_receipt_in. induction rs as [|r rs IH]; [done|]. cbn [find existsb].
  fold (is_result w r). destruct (is_result w r); [done|]. by rewrite IH.
Qed.

Lemma result_ref_nonempty w payload rd : result_ref_for w payload = Ok rd -> rd.1 <> [].
Proof. unfold result_ref_for. by intros (b & _ & [= <-])%res_bind_ok. Qed.

(** With no [result] receipt yet the INSERT succeeds. *)
Lemma record_result_fresh item w rd payload agent db x db' :
  existsb (is_result w) db.(receipts) = false ->
  record_result item w rd payload agent db = Ok (x, db') ->
  exists r, x = inl r /\ db' = add_receipt r db /\ r.(rc_work_item_id) = w /\
    r.(receipt_kind) = "result" /\ r.(result_ref) = Some rd.1 /\ r.(result_sha256) = Some rd.2.
Proof.
  intros Hno H. unfold record_result, catch_duplicate in H.
  match type of H with match ?m db with _ => _ end = _ => set (ins := m) in H end.
  assert (exists r, ins db = Ok (inl r, add_receipt r db) /\ r.(rc_work_item_id) = w /\
    r.(receipt_kind) = "result" /\ r.(result_ref) = Some rd.1 /\ r.(result_sha256) = Some rd.2)
    as (r & Hr & Hrest).
  { unfold ins, record_receipt. cbn [mbind tx_bind]. unfold is_result in Hno. unfold mbind, tx_bind.
    rewrite Hno. eexists. split; [reflexivity|]. done. }
  rewrite Hr in H. injection H as <- <-. eauto.
Qed.

Lemma audit_identity_frame w agent payload u db db' :
  audit_identity w agent payload db = Ok (u, db') ->
  db'.(work_items) = db.(work_items) /\ db'.(receipts) = db.(receipts) /\
  db'.(event_store) = db.(event_store).
Proof. unfold audit_identity. case_match; [by intros [= _ <-]|by intros [= _ <-]]. Qed.

(** The [result] receipt of a row as the code looks it up. *)
Notation result_of db w := (result_receipt_in db.(receipts) w).

Lemma result_of_app rs rs' w :
  existsb (is_result w) rs = false -> result_receipt_in (rs ++ rs') w = result_receipt_in rs' w.
Proof.
  induction rs as [|r rs IH]; [done|]. cbn [existsb app]. intros [Hr Hrs]%orb_false_iff.
  unfold result_receipt_in. cbn [find]. fold (is_result w r). rewrite Hr. by apply IH.
Qed.

Lemma result_of_grows rs rs' w r :
  rs `prefix_of` rs' -> result_receipt_in rs w = Some r -> result_receipt_in rs' w = Some r.
Proof.
  intros [k ->]. induction rs as [|x rs IH]; [done|]. unfold result_receipt_in. cbn [find app].
  fold (is_result w x). destruct (is_result w x); [done|]. apply IH.
Qed.

(** The row of an open item after its result was accepted. *)
Lemma accept_ok db w item rd payload agent actor now r o db' :
  db_ok db -> db.(work_items) !! w = Some item -> item.(status) ∉ TERMINAL_STATES ->
  r.(rc_work_item_id) = w -> r.(receipt_kind) = "result" ->
  accept_result item w rd payload agent actor now RESULT_RECEIVED r (add_receipt r db) = Ok (o, db') ->
  safe db db' /\ o.(ro_code) = "RESULT_ACCEPTED" /\ o.(ro_result_ref) = rd.1 /\
  o.(ro_receipt_id) = r.(receipt_id) /\ db'.(receipts) = db.(receipts) ++ [r] /\
  exists i', db'.(work_items) !! w = Some i' /\ i'.(status) = RESULT_RECEIVED.
Proof.
  intros Hok Hi Hopen Hw Hk H. pose proof (db_items _ Hok w item Hi) as Hio.
  unfold accept_result, finish in H. op_inv.
  match goal with H : audit_identity _ _ _ _ = _ |- _ =>
    apply audit_identity_frame in H as (E1 & E2 & E3) end.
  cbn [work_items receipts event_store put_store put_items add_receipt] in E1, E2, E3, Hes.
  rewrite (alter_row _ _ _ _ Hi) in E1. cbn [ro_code ro_result_ref ro_receipt_id].
  split_and!; try done.
  - destruct (change_with_receipt db r.(rc_work_item_id) item RESULT_RECEIVED item.(delivery_count)
      item.(delivered_at) item.(acked_at) item.(accepted_at) (Some now) now r
      ("result", r.(rc_work_item_id)) es')
      as (Hok' & Hgr & _); try done; try apply Hio.
    + split; [done|by intros []].
    + unfold evidence. cbn. by rewrite (io_id _ _ _ _ Hio).
    + split; split; rewrite ?E1, ?E2, ?E3; apply Hok' || apply Hgr.
  - eexists. rewrite E1, lookup_insert_eq. done.
Qed.

Lemma result_spec w agent payload actor now db o db' :
  db_ok db -> result w agent payload actor now db = Ok (o, db') ->
  safe db db' /\ exists item, db.(work_items) !! w = Some item /\
  ((item.(status) ∉ TERMINAL_STATES /\ o.(ro_code) = "RESULT_ACCEPTED" /\
    exists rd r, result_ref_for w payload = Ok rd /\ o.(ro_result_ref) = rd.1 /\
      result_of db' w = Some r /\ r.(result_ref) = Some rd.1 /\ o.(ro_receipt_id) = r.(receipt_id))
   \/ (item.(status) ∈ TERMINAL_STATES /\
    exists rd d0, result_ref_for w payload = Ok rd /\
      _duplicate item (result_of db w) rd.1 rd.2 agent d0 = Ok (o, db') /\ d0 = db)).
Proof.
  intros Hok H. unfold result in H. op_inv.
  match goal with H : work_items db !! w = Some ?i |- _ => rename i into item; rename H into Hi end.
  match goal with H : result_receipt_of _ _ = _ |- _ => injection H as <- <- end.
  destruct (bool_decide (is_Some _) || _) eqn:Hdup.
  - split; [by eapply duplicate_safe|]. exists item. split; [done|right].
    split; [|by eauto]. apply orb_true_iff in Hdup as [Hr|Hm]; [|by apply mem_spec].
    apply bool_decide_eq_true in Hr as [r Hr]. pose proof (db_items _ Hok w item Hi) as Hio.
    rewrite (proj2 (io_result _ _ _ _ Hio)); [by apply (bool_decide_unpack _)|].
    apply not_false_iff_true. rewrite <- result_receipt_exists. congruence.
  - apply orb_false_iff in Hdup as [_ Hopen%mem_false].
    apply tx_bind_ok in H as (item1 & db1 & Hack & H).
    assert (safe db db1 /\ db1.(work_items) !! w = Some item1) as [Hsafe1 Hi1].
    { case_bool_decide; tx_inv; [|by split; [apply safe_refl|]].
      match goal with H : ack _ _ _ _ _ = _ |- _ => apply ack_ok in H; [|done] end.
      split; [by eapply row_op_safe|done]. }
    op_inv.
    match goal with H : transition _ _ = Ok _ |- _ =>
      apply transition_to in H as [Hopen1 ->]; [|by apply (bool_decide_unpack _)] end.
    pose proof (open_no_result _ _ _ (proj1 Hsafe1) Hi1 Hopen1) as Hno.
    match goal with H : record_result _ _ _ _ _ _ = _ |- _ =>
      apply record_result_fresh in H as (r & -> & -> & Hrw & Hrk & Href & Hdig); [|done] end.
    apply (accept_ok db1) in H as (Hsafe2 & Hcode & Hro & Hrid & Hrs & _);
      [|apply Hsafe1|done..].
    split; [by eapply safe_trans|]. exists item. split; [done|left]. split; [done|]. split; [done|].
    eexists _, r. split_and!; try done.
    rewrite Hrs, result_of_app by done. unfold result_receipt_in. cbn [find].
    by rewrite Hrw, Hrk, !String.eqb_refl.
Qed.

(** ** Sweep *)

(** What the timing model says, on a row that stands. *)
Lemma redeliver_count i now rc d :
  next_action i.(status) i.(delivered_at) i.(acked_at) now i.(delivery_count) i.(kind)
    i.(accepted_at) rc (Some i.(deadline)) = Ok d ->
  d.(action) = REDELIVER -> i.(delivery_count) <= WORK_ITEM_MAX_REDELIVERIES.
Proof.
  unfold next_action. intros H Ha.
  repeat match goal with
  | H : (if ?b then _ else _) = Ok _ |- _ => destruct b eqn:?; simplify_eq/=
  | H : match ?o with Some _ => _ | None => _ end = Ok _ |- _ => destruct o; simplify_eq/=
  | H : action (if ?b then _ else _) = _ |- _ => destruct b eqn:?; simplify_eq/=
  end; by apply Z.leb_le.
Qed.

Lemma sweep_one_ok actor now counts w item db x db' :
  db_ok db -> db.(work_items) !! w = Some item -> sweep_one actor now counts item db = Ok (x, db') ->
  row_op w db db'.
Proof.
  intros Hok Hi H. pose proof (db_items _ Hok w item Hi) as Hio. unfold sweep_one in H.
  rewrite (io_id _ _ _ _ Hio) in H.
  destruct (next_action _ _ _ _ _ _ _ _ _) as [d|] eqn:Hd; [|tx_inv; by apply row_op_refl].
  destruct d.(action) eqn:Ha; tx_inv; try by apply row_op_refl.
  - match goal with H : requeue_for_redelivery _ _ _ = _ |- _ =>
      eapply requeue_ok in H; [done|done|done|by eapply redeliver_count] end.
  - match goal with H : expire _ _ _ _ _ = _ |- _ => by apply expire_ok in H end.
Qed.

Lemma sweep_items_ok actor now counts items db x db' :
  db_ok db -> current db items -> sweep_items actor now counts items db = Ok (x, db') -> safe db db'.
Proof.
  revert db x db'. induction items as [|item items IH]; intros db x db' Hok Hcur H; cbn in H; tx_inv.
  - by apply safe_refl.
  - pose proof Hcur as [Hrows _]. inversion Hrows as [|? ? Hi _]; subst.
    match goal with H : sweep_one _ _ _ _ _ = _ |- _ =>
      apply (sweep_one_ok _ _ _ item.(work_item_id)) in H as Hop; [|done..] end.
    eapply safe_trans; [by eapply row_op_safe|].
    eapply IH; [apply Hop| |done]. by eapply current_row_op.
Qed.

Lemma open_items_current agent ws db : db_ok db -> current db (open_items agent ws db).
Proof.
  intros Hok. eapply current_perm; [symmetry; apply py_sorted_perm|]. by apply rows_where_current.
Qed.

Lemma sweep_ok agent ws counts actor now db x db' :
  db_ok db -> sweep agent ws counts actor now db = Ok (x, db') -> safe db db'.
Proof.
  intros Hok H. unfold sweep in H. tx_inv. eapply sweep_items_ok; [done| |done].
  by apply open_items_current.
Qed.

(** * Reachable inboxes *)

(** One call of the inbox. *)
Inductive op :=
| Enqueue (new_id : string) (now : Z) (q : EnqueueArgs)
| Poll (locked : list string) (agent actor : string) (now max_items : Z)
| Ack (w agent actor : string) (now : Z)
| Start (w agent actor : string) (now : Z)
| Reject (w agent code actor : string) (now : Z)
| Cancel (w code actor : string) (now : Z)
| Expire (w code actor : string) (now : Z)
| Result (w agent : string) (payload : list (ustr * json)) (actor : string) (now : Z)
| Sweep (agent ws : option string) (counts : gmap string Z) (actor : string) (now : Z).

(** The tables after a transaction: as before when it raised. *)
Definition commit {A} (m : tx A) (db : Db) : Db :=
  match m db with Ok (_, db') => db' | Err _ => db end.

Definition perform (o : op) (db : Db) : Db :=
  match o with
  | Enqueue new_id now q => commit (enqueue new_id now q) db
  | Poll locked agent actor now n => commit (poll locked agent actor now n) db
  | Ack w agent actor now => commit (ack w agent actor now) db
  | Start w agent actor now => commit (start w agent actor now) db
  | Reject w agent code actor now => commit (reject w agent code actor now) db
  | Cancel w code actor now => commit (cancel w code actor now) db
  | Expire w code actor now => commit (expire w code actor now) db
  | Result w agent payload actor now => commit (result w agent payload actor now) db
  | Sweep agent ws counts actor now => commit (sweep agent ws counts actor now) db
  end.

Definition perform_all (ops : list op) (db : Db) : Db := foldl (fun db o => perform o db) db ops.

Definition empty_db (es : ES) : Db :=
  {| work_items := ∅; receipts := []; next_receipt_id := 1; audit_events := []; event_store := es |}.

Lemma commit_safe {A} (m : tx A) db :
  db_ok db -> (forall x db', m db = Ok (x, db') -> safe db db') -> safe db (commit m db).
Proof.
  intros Hok Hm. unfold commit. destruct (m db) as [[x db']|e] eqn:E; [by eapply Hm|by apply safe_refl].
Qed.

Lemma perform_safe o db : db_ok db -> safe db (perform o db).
Proof.
  intros Hok. destruct o; cbn [perform]; apply commit_safe; try done; intros x db' H.
  - by eapply enqueue_ok.
  - by eapply poll_ok.
  - eapply row_op_safe. by eapply ack_ok.
  - eapply row_op_safe. by eapply start_ok.
  - eapply row_op_safe. by eapply reject_ok.
  - eapply row_op_safe. by eapply cancel_ok.
  - eapply row_op_safe. by eapply expire_ok.
  - by apply result_spec in H as [? _].
  - by eapply sweep_ok.
Qed.

Lemma perform_all_safe ops db : db_ok db -> safe db (perform_all ops db).
Proof.
  revert db. induction ops as [|o ops IH]; intros db Hok; [by apply safe_refl|].
  cbn. pose proof (perform_safe o db Hok) as Hs. eapply safe_trans; [exact Hs|]. apply IH, Hs.
Qed.

Lemma empty_ok es : db_ok (empty_db es).
Proof. split; cbn; [by intros r ?%not_elem_of_nil|done|intros; lia]. Qed.

Definition reached (es : ES) (ops : list op) : Db := perform_all ops (empty_db es).

Lemma reached_ok es ops : db_ok (reached es ops).
Proof. apply perform_all_safe, empty_ok. Qed.

(** ** What a sweep leaves *)

Lemma next_action_total st d a now n k acc rc dl :
  timed st d a -> is_ok (next_action st d a now n k acc rc dl) = true.
Proof.
  intros [Hd Ha]. unfold next_action. destruct (mem st TERMINAL_STATES); [done|].
  destruct (match dl with Some _ => _ | None => _ end); [done|].
  case_bool_decide as Hs; [destruct (Hd Hs) as [t ->]; done|].
  destruct (mem st [ACKED; IN_PROGRESS] && _) eqn:E; [|done].
  apply andb_true_iff in E as [E%mem_acked _]. destruct acc; [done|].
  by destruct (Ha E) as [t ->].
Qed.

(** No timer of the row has run out at [now]. *)
Definition timers_respected (now : Z) (i : WorkItem) : Prop :=
  i.(status) ∈ TERMINAL_STATES \/
  (now < i.(deadline) /\
   (i.(status) = DELIVERED -> exists t, i.(delivered_at) = Some t /\ now < t + seconds WORK_ITEM_ACK_TIMEOUT_S)).

Lemma next_action_timers i now rc d :
  next_action i.(status) i.(delivered_at) i.(acked_at) now i.(delivery_count) i.(kind)
    i.(accepted_at) rc (Some i.(deadline)) = Ok d ->
  d.(action) <> EXPIRE ->
  (d.(action) = REDELIVER -> i.(status) = DELIVERED /\ now < i.(deadline)) /\
  (d.(action) <> REDELIVER -> timers_respected now i).
Proof.
  unfold next_action, timers_respected. intros H Ha.
  destruct (mem i.(status) TERMINAL_STATES) eqn:Ht.
  { injection H as <-. split; [done|]. left. by apply mem_spec. }
  destruct (Z.leb_spec i.(deadline) now); [by injection H as <-|].
  case_bool_decide as Hs.
  - destruct i.(delivered_at) as [t|]; [|done]. injection H as <-. split; [done|].
    destruct (Z.ltb_spec now (t + seconds WORK_ITEM_ACK_TIMEOUT_S)); [|by case_match].
    intros _. right. eauto.
  - split; [|by right]. intros Hr.
    repeat match goal with
    | H : (if ?b then _ else _) = Ok _ |- _ => destruct b eqn:?; simplify_eq/=
    | H : match ?o with Some _ => _ | None => _ end = Ok _ |- _ => destruct o; simplify_eq/=
    | H : action (if ?b then _ else _) = _ |- _ => destruct b eqn:?; simplify_eq/=
    end.
Qed.

Lemma requeue_row w now i x db db' :
  db.(work_items) !! w = Some i -> requeue_for_redelivery w now db = Ok (x, db') ->
  exists i', db'.(work_items) !! w = Some i' /\ i'.(status) = QUEUED /\ i'.(deadline) = i.(deadline).
Proof.
  intros Hi H. unfold requeue_for_redelivery in H. op_inv. cbn. rewrite lookup_alter_eq, Hi.
  eexists. done.
Qed.

Lemma expire_row w code actor now x db db' :
  expire w code actor now db = Ok (x, db') ->
  exists i', db'.(work_items) !! w = Some i' /\ i'.(status) = EXPIRED.
Proof.
  intros H. unfold expire, finish in H. op_inv.
  match goal with H : transition _ _ = Ok _ |- _ =>
    apply transition_to in H as [_ ->]; [|by apply (bool_decide_unpack _)] end.
  cbn [work_items put_store put_items].
  match goal with H : work_items db !! w = Some _ |- _ =>
    rewrite lookup_alter_eq, H end. eexists. split; reflexivity.
Qed.

Lemma sweep_one_timers actor now counts w item db x db' :
  db_ok db -> db.(work_items) !! w = Some item -> sweep_one actor now counts item db = Ok (x, db') ->
  exists i', db'.(work_items) !! w = Some i' /\ timers_respected now i'.
Proof.
  intros Hok Hi H. pose proof (db_items _ Hok w item Hi) as Hio. unfold sweep_one in H.
  rewrite (io_id _ _ _ _ Hio) in H.
  pose proof (next_action_total _ _ _ now item.(delivery_count) item.(kind) item.(accepted_at)
    (default 0 (counts !! w)) (Some item.(deadline)) (io_timed _ _ _ _ Hio)) as Htot.
  destruct (next_action _ _ _ _ _ _ _ _ _) as [d|] eqn:Hd; [|done].
  pose proof (next_action_timers _ _ _ _ Hd) as Ht. destruct d.(action) eqn:Ha; tx_inv.
  - exists item. split; [done|]. by apply Ht.
  - match goal with H : requeue_for_redelivery _ _ _ = _ |- _ =>
      destruct (requeue_row _ _ _ _ _ _ Hi H) as (i' & Hi' & Hst & Hdl) end.
    exists i'. split; [done|]. right. rewrite Hdl, Hst. split; [by apply Ht|done].
  - match goal with H : expire _ _ _ _ _ = _ |- _ => apply expire_row in H as (i' & Hi' & Hst) end.
    exists i'. split; [done|]. left. rewrite Hst. by apply (bool_decide_unpack _).
  - exists item. split; [done|]. by apply Ht.
  - exists item. split; [done|]. by apply Ht.
Qed.

(** Rows outside the list are untouched; rows of the list come out in order. *)
Lemma sweep_items_timers actor now counts items db x db' :
  db_ok db -> current db items -> sweep_items actor now counts items db = Ok (x, db') ->
  (forall i, i ∈ items -> exists i', db'.(work_items) !! i.(work_item_id) = Some i' /\
    timers_respected now i') /\
  (forall w, w ∉ work_item_id <$> items -> db'.(work_items) !! w = db.(work_items) !! w).
Proof.
  revert db x db'. induction items as [|item items IH]; intros db x db' Hok Hcur H; cbn in H; tx_inv.
  - split; [by intros i ?%not_elem_of_nil|done].
  - pose proof Hcur as [Hrows Hnd]. inversion Hrows as [|? ? Hi _]; subst.
    apply NoDup_cons in Hnd as [Hnew _].
    match goal with H : sweep_one _ _ _ _ _ = _ |- _ =>
      destruct (sweep_one_timers _ _ _ _ _ _ _ _ Hok Hi H) as (i' & Hi' & Htm);
      apply (sweep_one_ok _ _ _ item.(work_item_id)) in H as Hop; [|done..] end.
    match goal with H : sweep_items _ _ _ _ _ = _ |- _ =>
      destruct (IH _ _ _ (proj1 Hop) (current_row_op _ _ _ _ Hcur Hop) H) as [Hin Hout] end.
    split.
    + intros j [->|Hj]%elem_of_cons; [|by apply Hin]. exists i'. by rewrite Hout.
    + intros w Hw. cbn in Hw. apply not_elem_of_cons in Hw as [Hne Hw].
      rewrite Hout by done. by apply Hop.
Qed.

(** * Properties *)

(** C40. The inbox accounts for every work item, whatever sequence of calls,
    refused ones included, it has served: an item is delivered at most four
    times (once and three redeliveries), it has the timestamps its timers need,
    it is RESULT_RECEIVED exactly when it has a result receipt and there is at
    most one, and the Event log holds the Event of its creation and of its
    current state. *)
Theorem inbox_accounts (es : ES) (ops : list op) :
  let db := reached es ops in
  map_Forall (fun w i =>
    0 <= i.(delivery_count) <= 4 /\ timed i.(status) i.(delivered_at) i.(acked_at) /\
    (i.(status) = RESULT_RECEIVED <-> is_Some (result_of db w)) /\
    (length (filter (fun r => is_result w r = true) db.(receipts)) <= 1)%nat /\
    Forall (logged db.(event_store) i) (evidence i)) db.(work_items).
Proof.
  cbn zeta. pose proof (reached_ok es ops) as Hok. intros w i Hi.
  pose proof (db_items _ Hok w i Hi) as Hio. split_and!; try apply Hio; try apply Hok.
  - rewrite (io_result _ _ _ _ Hio), <- not_false_iff_true, <- result_receipt_exists.
    apply not_eq_None_Some.
Qed.

(** A result is accepted once. After a call of [result] accepted a result
    for an item, and after any further calls, every later result for the item,
    with whatever body and at whatever time, is answered
    DUPLICATE_RESULT_IGNORED with the first reference and receipt; it changes no
    work item and no Event and leaves exactly one duplicate receipt and one
    audit row. *)
Theorem result_accepted_once es ops w agent payload actor now o db1 later agent' payload' actor' now' o' db3 :
  result w agent payload actor now (reached es ops) = Ok (o, db1) ->
  o.(ro_code) = "RESULT_ACCEPTED" ->
  let db2 := perform_all later db1 in
  result w agent' payload' actor' now' db2 = Ok (o', db3) ->
  o'.(ro_code) = "DUPLICATE_RESULT_IGNORED" /\ o'.(ro_result_ref) = o.(ro_result_ref) /\
  o'.(ro_receipt_id) = o.(ro_receipt_id) /\
  db3.(work_items) = db2.(work_items) /\ db3.(event_store) = db2.(event_store) /\
  (exists r, db3.(receipts) = db2.(receipts) ++ [r] /\ r.(receipt_kind) = "duplicate_result") /\
  (exists a, db3.(audit_events) = db2.(audit_events) ++ [a] /\
    a.(ar_error_code) = Some "DUPLICATE_RESULT_IGNORED").
Proof.
  intros H1 Hcode db2 H2. pose proof (reached_ok es ops) as Hok.
  apply result_spec in H1 as (Hsafe1 & item & Hi & [(Hopen & _ & rd & r & Hrd & Href & Hr & Hrr & Hid)|(_ & rd & d0 & _ & Hdup & ->)]); [| |done].
  2: { apply duplicate_spec in Hdup as [Hd _]. congruence. }
  pose proof (perform_all_safe later db1 (proj1 Hsafe1)) as Hsafe2. fold db2 in Hsafe2.
  pose proof (result_of_grows _ _ _ _ (gr_receipts _ _ (proj2 Hsafe2)) Hr) as Hr2.
  apply result_spec in H2 as (Hsafe3 & item2 & Hi2 & Hcase); [|apply Hsafe2].
  assert (item2.(status) ∈ TERMINAL_STATES) as Hterm.
  { rewrite (proj2 (io_result _ _ _ _ (db_items _ (proj1 Hsafe2) w item2 Hi2)));
      [by apply (bool_decide_unpack _)|].
    apply not_false_iff_true. rewrite <- result_receipt_exists. congruence. }
  destruct Hcase as [(Hn & _)|(_ & rd' & d0 & _ & Hdup & ->)]; [done|].
  rewrite Hr2 in Hdup. pose proof (duplicate_first _ _ _ _ _ _ _ _ _ Hrr Hdup) as [Hf1 Hf2].
  apply duplicate_spec in Hdup as (Hc & _ & Hit & Hes & _ & (x & Hx & Hxk & _) & Ha).
  rewrite Href, Hid, Hf1, Hf2 by (by eapply result_ref_nonempty). split_and!; eauto.
Qed.

(** A terminal work item is final: no later call changes its row, whatever
    it is and whoever makes it. *)
Theorem terminal_items_frozen es ops later w i :
  (reached es ops).(work_items) !! w = Some i -> i.(status) ∈ TERMINAL_STATES ->
  (reached es (ops ++ later)).(work_items) !! w = Some i.
Proof.
  intros Hi Hterm. unfold reached, perform_all. rewrite foldl_app.
  pose proof (perform_all_safe later _ (reached_ok es ops)) as [_ Hgr].
  by destruct (gr_items _ _ Hgr w i Hi) as (i' & Hi' & [->|Hn]).
Qed.

(** The sweep enforces the timers: after a sweep over all items that
    committed at [now], every work item is finished, or its deadline is still
    ahead and, if it is delivered and not acked, so is the end of its ack
    timeout. *)
Theorem sweep_enforces_timers es ops counts actor now rep db' :
  sweep None None counts actor now (reached es ops) = Ok (rep, db') ->
  map_Forall (fun _ i => timers_respected now i) db'.(work_items).
Proof.
  intros H w i Hi. pose proof (reached_ok es ops) as Hok. unfold sweep in H. tx_inv.
  pose proof (open_items_current None None _ Hok) as Hcur.
  pose proof (sweep_items_ok _ _ _ _ _ _ _ Hok Hcur H) as [Hok' _].
  apply sweep_items_timers in H as [Hin Hout]; [|done..].
  destruct (decide (w ∈ work_item_id <$> open_items None None (reached es ops))) as [Hw|Hw].
  - apply list_elem_of_fmap in Hw as (j & -> & Hj). destruct (Hin j Hj) as (i' & Hi' & Ht). congruence.
  - rewrite Hout in Hi by done. left. destruct (decide (i.(status) ∈ TERMINAL_STATES)) as [|Hopen]; [done|].
    destruct Hw. rewrite <- (io_id _ _ _ _ (db_items _ Hok w i Hi)). apply list_elem_of_fmap_2.
    unfold open_items, sorted_items. rewrite py_sorted_perm. apply list_elem_of_filter. split.
    + rewrite !andb_true_r. apply mem_spec. clear -Hopen.
      destruct i.(status); apply (bool_decide_unpack _); vm_compute; try exact I;
        destruct Hopen; apply (bool_decide_unpack _); vm_compute; exact I.
    + apply list_elem_of_fmap. exists (w, i). split; [done|]. by apply elem_of_map_to_list.
Qed.
End inbox.

(** * A concrete inbox on the in-memory Event store *)

Module Sample.

#[global] Instance store : EventStoreI InMemoryEventStore := memory_store id_hash (lit "t").

Definition q : EnqueueArgs := {|
  q_workspace_id := "ws"; q_kind := "invoke"; q_agent_id := "agent-a";
  q_payload := [(lit "n", JInt 1)]; q_deadline := seconds 1000;
  q_expected_result_schema := "colab.work-result.v1"; q_correlation_id := "c";
  q_idempotency_key := "k1"; q_actor_account_id := "acct"; q_task_id := None;
  q_brainstorm_id := None; q_secret_handles := None; q_work_item_id := Some "wi-1" |}.

Definition db_of := reached id_hash str_int (fun _ => true) empty_store.
Definition send_result := result id_hash (fun _ => true).
Definition sweep_store := sweep (ESI := store).

Definition delivered : list op := [Enqueue "wi-0" 0 q; Poll [] "agent-a" "acct" (seconds 1) 10].

Definition body (s : string) : list (ustr * json) :=
  [(lit "work_item_id", jstr "wi-1"); (lit "status", jstr s)].

Definition first : res (ResultOutcome * Db) :=
  send_result "wi-1" "agent-a" (body "SUCCEEDED") "acct" (seconds 2) (db_of delivered).

Definition second (db : Db) : res (ResultOutcome * Db) :=
  send_result "wi-1" "agent-a" (body "FAILED") "acct" (seconds 3) db.

Definition finished : list op :=
  delivered ++ [Result "wi-1" "agent-a" (body "SUCCEEDED") "acct" (seconds 2)].

(** The item as it stands after [ops]. *)
Definition item_after (ops : list op) : option WorkItem := (db_of ops).(work_items) !! "wi-1".

Definition swept : res (SweepReport * Db) := sweep_store None None ∅ "acct" (seconds 61) (db_of delivered).

(** Four deliveries and the sweep after the last: the item expires. *)
Definition four_times : list op :=
  [Enqueue "wi-0" 0 q] ++
  flat_map (fun n => [Poll [] "agent-a" "acct" (seconds (70 * n)) 10;
                      Sweep None None ∅ "acct" (seconds (70 * n + 65))]) [0; 1; 2; 3].

Example exhausted :
  (fun i => (i.(status), i.(delivery_count))) <$> item_after four_times = Some (EXPIRED, 4) /\
  (fun i => (i.(status), i.(delivery_count))) <$> item_after (take 7 four_times) = Some (QUEUED, 3).
Proof. vm_compute. done. Qed.

End Sample.

Lemma result_accepted_once_witness :
  match Sample.first with
  | Ok (o, db1) =>
      match Sample.second (perform_all id_hash str_int (fun _ => true) [] db1) with
      | Ok (o', _) => o'.(ro_code) = "DUPLICATE_RESULT_IGNORED" /\ o'.(ro_result_ref) = o.(ro_result_ref)
      | Err _ => False
      end
  | Err _ => False
  end.
Proof.
  assert (match Sample.first with
          | Ok (o, db1) => String.eqb o.(ro_code) "RESULT_ACCEPTED" && is_ok (Sample.second db1)
          | Err _ => false end = true) as Hok by (vm_compute; reflexivity).
  destruct Sample.first as [[o db1]|] eqn:E1; [|discriminate Hok].
  apply andb_true_iff in Hok as [Hcode%String.eqb_eq Hok].
  cbn [perform_all foldl]. destruct (Sample.second db1) as [[o' db3]|] eqn:E2; [|discriminate Hok].
  destruct (result_accepted_once id_hash str_int (fun _ => true) empty_store Sample.delivered
    "wi-1" "agent-a" _ "acct" _ o db1 [] "agent-a" _ "acct" _ o' db3 E1 Hcode E2) as (H1 & H2 & _).
  exact (conj H1 H2).
Defined.

Definition sample_finished : option WorkItem := Sample.item_after Sample.finished.

Lemma terminal_items_frozen_witness :
  Sample.item_after (Sample.finished ++ [Cancel "wi-1" "USER" "acct" (seconds 9)]) = sample_finished.
Proof.
  destruct sample_finished as [i|] eqn:E; [|vm_compute in E; discriminate E].
  apply (terminal_items_frozen id_hash str_int (fun _ => true)); [exact E|].
  apply (bool_decide_unpack _). vm_compute in E. injection E as <-. vm_compute. exact I.
Defined.

Lemma sweep_enforces_timers_witness :
  match Sample.swept with
  | Ok (_, db') => map_Forall (fun _ i => timers_respected (seconds 61) i) db'.(work_items)
  | Err _ => False
  end.
Proof.
  assert (is_ok Sample.swept = true) as Hok by (vm_compute; reflexivity).
  destruct Sample.swept as [[rep db']|] eqn:E; [|discriminate Hok].
  exact (sweep_enforces_timers id_hash str_int (fun _ => true) empty_store Sample.delivered
    ∅ "acct" (seconds 61) rep db' E).
Defined.
