(* ===== verification/Setup.v ===== *)
(** The setup state machine ([server/setup/state.py]) and the apply-order
    enforcer ([server/setup/order.py]). Methods mutate their object; what a
    method did before it raised is kept. The clock of a call is an argument. *)

From S2P Require Import Prelude Defaults.
Open Scope Z_scope.

(** * State machine *)

Inductive SetupState :=
| UNINITIALIZED | PREFLIGHT_PASSED | BOOTSTRAPPING | BOOTSTRAP_FAILED | CONFIGURED | LOCKED
| RECONFIGURING.

#[global] Instance SetupState_eq_dec : EqDecision SetupState.
Proof. solve_decision. Defined.

Definition STAGE_ORDINAL (s : SetupState) : Z :=
  match s with
  | UNINITIALIZED => 0
  | PREFLIGHT_PASSED => 1
  | BOOTSTRAPPING => 2
  | BOOTSTRAP_FAILED => 2
  | CONFIGURED => 3
  | LOCKED => 4
  | RECONFIGURING => 4
  end.

Definition TRANSITIONS (s : SetupState) : list SetupState :=
  match s with
  | UNINITIALIZED => [PREFLIGHT_PASSED]
  | PREFLIGHT_PASSED => [BOOTSTRAPPING]
  | BOOTSTRAPPING => [CONFIGURED; BOOTSTRAP_FAILED]
  | BOOTSTRAP_FAILED => [PREFLIGHT_PASSED; BOOTSTRAPPING]
  | CONFIGURED => [LOCKED]
  | LOCKED => [RECONFIGURING]
  | RECONFIGURING => [LOCKED]
  end.

Definition BOOTSTRAP_OPEN_STATES : list SetupState :=
  [UNINITIALIZED; PREFLIGHT_PASSED; BOOTSTRAPPING; BOOTSTRAP_FAILED].

Definition is_regression (current target : SetupState) : bool :=
  STAGE_ORDINAL target <? STAGE_ORDINAL current.

Record BootstrapFailure := {
  failed_step : string; error_code : string; retry_token_fingerprint : string; failed_at : Z }.

Record ReconfigurationProof := {
  maintenance_mode_enabled : bool;
  recovery_code_verified : bool;
  mfa_reauth_verified : bool;
  proof_owner_account_id : string }.

Definition missing (p : ReconfigurationProof) : list string :=
  (if p.(maintenance_mode_enabled) then [] else ["maintenance_mode"]) ++
  (if p.(recovery_code_verified) then [] else ["recovery_code"]) ++
  (if p.(mfa_reauth_verified) then [] else ["mfa_reauth"]) ++
  (if String.eqb p.(proof_owner_account_id) "" then ["owner_account"] else []).

Record ReconfigurationSession := {
  session_id : string; owner_account_id : string; opened_at : Z; expires_at : Z }.

Record SetupStateMachine := {
  state : SetupState;
  session_minutes : Z;
  failure : option BootstrapFailure;
  session : option ReconfigurationSession;
  (** previous state, next state, instant, reason *)
  history : list (SetupState * SetupState * Z * string) }.

Definition initial : SetupStateMachine := {|
  state := UNINITIALIZED; session_minutes := SETUP_RECONFIGURE_SESSION_MIN; failure := None;
  session := None; history := [] |}.

Definition with_session (s : option ReconfigurationSession) (m : SetupStateMachine) : SetupStateMachine := {|
  state := m.(state); session_minutes := m.(session_minutes); failure := m.(failure);
  session := s; history := m.(history) |}.

Definition with_failure (f : option BootstrapFailure) (m : SetupStateMachine) : SetupStateMachine := {|
  state := m.(state); session_minutes := m.(session_minutes); failure := f;
  session := m.(session); history := m.(history) |}.

Definition stage_ordinal (m : SetupStateMachine) : Z := STAGE_ORDINAL m.(state).

Definition can_transition (m : SetupStateMachine) (target : SetupState) : bool :=
  mem target (TRANSITIONS m.(state)).

Definition transition (now : Z) (target : SetupState) (reason : string)
    : meth SetupStateMachine SetupState := fun m =>
  if negb (mem target (TRANSITIONS m.(state))) then (m, Err "SETUP_TRANSITION_INVALID")
  else if is_regression m.(state) target && negb (bool_decide (m.(state) = BOOTSTRAP_FAILED))
  then (m, Err "SETUP_TRANSITION_INVALID")
  else
    ({| state := target; session_minutes := m.(session_minutes);
        failure := if bool_decide (target = CONFIGURED) then None else m.(failure);
        session := m.(session);
        history := m.(history) ++ [(m.(state), target, now, reason)] |}, Ok target).

Definition require_bootstrap_open : meth SetupStateMachine unit := fun m =>
  if mem m.(state) BOOTSTRAP_OPEN_STATES then (m, Ok tt) else (m, Err "SETUP_LOCKED").

Definition fail_bootstrap (now : Z) (step code fingerprint : string)
    : meth SetupStateMachine BootstrapFailure := fun m =>
  match transition now BOOTSTRAP_FAILED (step +:+ ":" +:+ code) m with
  | (m, Err e) => (m, Err e)
  | (m, Ok _) =>
      let f := {| failed_step := step; error_code := code; retry_token_fingerprint := fingerprint;
                  failed_at := now |} in
      (with_failure (Some f) m, Ok f)
  end.

Definition open_reconfiguration (now : Z) (proof : ReconfigurationProof) (sid : string)
    : meth SetupStateMachine (option ReconfigurationSession) := fun m =>
  if negb (bool_decide (m.(state) = LOCKED)) then (m, Err "SETUP_TRANSITION_INVALID")
  else if negb (bool_decide (missing proof = [])) then (m, Err "SETUP_REAUTH_REQUIRED")
  else
    let s := {| session_id := sid; owner_account_id := proof.(proof_owner_account_id);
                opened_at := now; expires_at := now + minutes m.(session_minutes) |} in
    match transition now RECONFIGURING ("session " +:+ sid) (with_session (Some s) m) with
    | (m, Err e) => (m, Err e)
    | (m, Ok _) => (m, Ok m.(session))
    end.

Definition close_reconfiguration (now : Z) (reason : string) : meth SetupStateMachine unit := fun m =>
  if negb (bool_decide (m.(state) = RECONFIGURING)) then (m, Err "SETUP_TRANSITION_INVALID")
  else
    match transition now LOCKED reason (with_session None m) with
    | (m, Err e) => (m, Err e)
    | (m, Ok _) => if String.eqb reason "expired" then (m, Err "SETUP_SESSION_EXPIRED") else (m, Ok tt)
    end.

Definition expire_session_if_due (now : Z) : meth SetupStateMachine bool := fun m =>
  match m.(session) with
  | Some s =>
      if bool_decide (m.(state) = RECONFIGURING) && (s.(expires_at) <=? now) then
        match close_reconfiguration now "expired" m with
        | (m, Err e) => (m, Err e)
        | (m, Ok _) => (m, Ok true)
        end
      else (m, Ok false)
  | None => (m, Ok false)
  end.

Definition require_reconfiguring (now : Z) (sid : string)
    : meth SetupStateMachine ReconfigurationSession := fun m =>
  match expire_session_if_due now m with
  | (m, Err e) => (m, Err e)
  | (m, Ok _) =>
      match m.(session) with
      | Some s =>
          if negb (bool_decide (m.(state) = RECONFIGURING)) then (m, Err "SETUP_LOCKED")
          else if negb (String.eqb s.(session_id) sid) then (m, Err "SETUP_LOCKED")
          else (m, Ok s)
      | None => (m, Err "SETUP_LOCKED")
      end
  end.

(** ** Any use of the object *)

Inductive call :=
| Transition (now : Z) (target : SetupState) (reason : string)
| FailBootstrap (now : Z) (step code fingerprint : string)
| OpenReconfiguration (now : Z) (proof : ReconfigurationProof) (sid : string)
| CloseReconfiguration (now : Z) (reason : string)
| ExpireSession (now : Z)
| RequireReconfiguring (now : Z) (sid : string).

Definition perform (c : call) (m : SetupStateMachine) : SetupStateMachine :=
  match c with
  | Transition now target reason => (transition now target reason m).1
  | FailBootstrap now step code fp => (fail_bootstrap now step code fp m).1
  | OpenReconfiguration now proof sid => (open_reconfiguration now proof sid m).1
  | CloseReconfiguration now reason => (close_reconfiguration now reason m).1
  | ExpireSession now => (expire_session_if_due now m).1
  | RequireReconfiguring now sid => (require_reconfiguring now sid m).1
  end.

Definition use (cs : list call) (m : SetupStateMachine) : SetupStateMachine :=
  foldl (fun m c => perform c m) m cs.

(** ** Lemmas *)

(** What one call may do: nothing, or one transition of the table. *)
Lemma transition_cases now target reason m :
  transition now target reason m = (m, Err "SETUP_TRANSITION_INVALID") \/
  (target ∈ TRANSITIONS m.(state) /\
   exists m', transition now target reason m = (m', Ok target) /\ m'.(state) = target /\
     m'.(session) = m.(session) /\ m'.(session_minutes) = m.(session_minutes)).
Proof.
  unfold transition. destruct (mem target _) eqn:Ht; cbn [negb]; [|by left].
  apply mem_spec in Ht. destruct (_ && _); [by left|right]. split; [done|]. by eexists.
Qed.

Inductive advances (m m' : SetupStateMachine) : Prop :=
| adv_same : m'.(state) = m.(state) -> advances m m'
| adv_next : m'.(state) ∈ TRANSITIONS m.(state) -> advances m m'.

Lemma transition_advances now target reason m s :
  m.(state) = s.(state) -> advances s (transition now target reason m).1.
Proof.
  intros E. destruct (transition_cases now target reason m) as [->|(Ht & m' & -> & Hs & _)]; cbn.
  - by apply adv_same.
  - apply adv_next. rewrite Hs, <- E. done.
Qed.

Lemma close_advances now reason m : advances m (close_reconfiguration now reason m).1.
Proof.
  unfold close_reconfiguration. destruct (negb _); [by apply adv_same|].
  pose proof (transition_advances now LOCKED reason (with_session None m) m eq_refl) as H.
  destruct (transition _ _ _ _) as [m' [|]]; [|done]. by destruct (String.eqb _ _).
Qed.

Lemma expire_advances now m : advances m (expire_session_if_due now m).1.
Proof.
  unfold expire_session_if_due. destruct m.(session); [|by apply adv_same].
  destruct (_ && _); [|by apply adv_same].
  pose proof (close_advances now "expired" m) as H. by destruct (close_reconfiguration _ _ _) as [m' [|]].
Qed.

Lemma perform_advances c m : advances m (perform c m).
Proof.
  destruct c as [now t r|now st code fp|now p sid|now r|now|now sid]; cbn.
  - by apply transition_advances.
  - unfold fail_bootstrap.
    pose proof (transition_advances now BOOTSTRAP_FAILED (st +:+ ":" +:+ code) m m eq_refl) as H.
    destruct (transition _ _ _ _) as [m' [|]]; [|done]. by inversion H; [apply adv_same|apply adv_next].
  - unfold open_reconfiguration. destruct (negb _); [by apply adv_same|].
    destruct (negb _); [by apply adv_same|].
    match goal with |- context [transition now RECONFIGURING ?r ?x] =>
      pose proof (transition_advances now RECONFIGURING r x m eq_refl) as H;
      destruct (transition now RECONFIGURING r x) as [m' [|]] end; done.
  - apply close_advances.
  - apply expire_advances.
  - unfold require_reconfiguring. pose proof (expire_advances now m) as H.
    destruct (expire_session_if_due now m) as [m' [|]]; [|done]. by repeat case_match.
Qed.

Lemma use_snoc cs c m : use (cs ++ [c]) m = perform c (use cs m).
Proof. unfold use. by rewrite foldl_app. Qed.

Lemma use_app cs1 cs2 m : use (cs1 ++ cs2) m = use cs2 (use cs1 m).
Proof. unfold use. by rewrite foldl_app. Qed.

(** The committed states are closed under every call. *)
Lemma closed_stays s s' : 3 <= STAGE_ORDINAL s -> s' ∈ TRANSITIONS s -> 3 <= STAGE_ORDINAL s'.
Proof.
  destruct s; cbn; intros H; try lia;
    by intros ->%list_elem_of_singleton.
Qed.

Lemma use_closed cs m : 3 <= stage_ordinal m -> 3 <= stage_ordinal (use cs m).
Proof.
  unfold stage_ordinal. revert m. induction cs as [|c cs IH]; intros m H; [done|].
  cbn. apply IH. destruct (perform_advances c m) as [->|Ht]; [done|]. by eapply closed_stays.
Qed.

Lemma require_open_closed m :
  3 <= stage_ordinal m -> require_bootstrap_open m = (m, Err "SETUP_LOCKED").
Proof. unfold require_bootstrap_open, stage_ordinal. by destruct m.(state); cbn; intros; try lia. Qed.

(** The session kept by the machine, and the call that opened it. *)
Definition opened_by (cs : list call) (s : ReconfigurationSession) : Prop :=
  exists cs1 proof cs2,
    cs = cs1 ++ OpenReconfiguration s.(opened_at) proof s.(session_id) :: cs2 /\
    (use cs1 initial).(state) = LOCKED /\ missing proof = [] /\
    s.(owner_account_id) = proof.(proof_owner_account_id) /\
    s.(expires_at) = s.(opened_at) + minutes SETUP_RECONFIGURE_SESSION_MIN.

Definition keeps_session (m m' : SetupStateMachine) : Prop :=
  m'.(session_minutes) = m.(session_minutes) /\ (m'.(session) = m.(session) \/ m'.(session) = None).

Lemma transition_keeps now target reason m : keeps_session m (transition now target reason m).1.
Proof.
  destruct (transition_cases now target reason m) as [->|(_ & m' & -> & _ & Hs & Hm)]; cbn;
    split; auto.
Qed.

Lemma close_keeps now reason m : keeps_session m (close_reconfiguration now reason m).1.
Proof.
  unfold close_reconfiguration. destruct (negb _); [by split; auto|].
  pose proof (transition_keeps now LOCKED reason (with_session None m)) as [H1 H2].
  destruct (transition _ _ _ _) as [m' [|]]; cbn in *.
  - destruct (String.eqb _ _); cbn; split; naive_solver.
  - split; naive_solver.
Qed.

Lemma expire_keeps now m : keeps_session m (expire_session_if_due now m).1.
Proof.
  unfold expire_session_if_due. destruct m.(session) eqn:Hs; [|by split; auto].
  destruct (_ && _); [|by split; auto].
  pose proof (close_keeps now "expired" m) as H. by destruct (close_reconfiguration _ _ _) as [m' [|]].
Qed.

Lemma perform_session c m s :
  (perform c m).(session) = Some s ->
  m.(session) = Some s \/
  exists proof, c = OpenReconfiguration s.(opened_at) proof s.(session_id) /\ m.(state) = LOCKED /\
    missing proof = [] /\ s.(owner_account_id) = proof.(proof_owner_account_id) /\
    s.(expires_at) = s.(opened_at) + minutes m.(session_minutes).
Proof.
  assert (forall m', keeps_session m m' -> m'.(session) = Some s -> m.(session) = Some s) as Hkeep.
  { intros m' [_ [->| ->]]; done. }
  destruct c as [now t r|now st code fp|now p sid|now r|now|now sid]; cbn [perform]; intros H.
  - left. eapply Hkeep; [|exact H]. apply transition_keeps.
  - left. unfold fail_bootstrap in H.
    pose proof (transition_keeps now BOOTSTRAP_FAILED (st +:+ ":" +:+ code) m) as Hk.
    destruct (transition _ _ _ _) as [m' [|]]; eapply Hkeep; done.
  - unfold open_reconfiguration in H. case_bool_decide as Hl; cbn [negb] in H; [|by left].
    case_bool_decide as Hm; cbn [negb] in H; [|by left].
    match type of H with context [transition now RECONFIGURING ?r ?x] =>
      destruct (transition_cases now RECONFIGURING r x) as [E|(_ & m' & E & _ & Hs & _)];
      rewrite E in H; cbn in H end; [|rewrite Hs in H]; injection H as <-; right; by exists p.
  - left. eapply Hkeep; [|exact H]. apply close_keeps.
  - left. eapply Hkeep; [|exact H]. apply expire_keeps.
  - left. unfold require_reconfiguring in H. pose proof (expire_keeps now m) as Hk.
    destruct (expire_session_if_due now m) as [m' [|]]; [|by eapply Hkeep].
    eapply Hkeep; [exact Hk|]. by repeat case_match.
Qed.

Lemma perform_minutes c m : (perform c m).(session_minutes) = m.(session_minutes).
Proof.
  destruct c as [now t r|now st code fp|now p sid|now r|now|now sid]; cbn [perform].
  - apply transition_keeps.
  - unfold fail_bootstrap. pose proof (transition_keeps now BOOTSTRAP_FAILED (st +:+ ":" +:+ code) m) as [H _].
    by destruct (transition _ _ _ _) as [m' [|]].
  - unfold open_reconfiguration. destruct (negb _); [done|]. destruct (negb _); [done|].
    match goal with |- context [transition now RECONFIGURING ?r ?x] =>
      pose proof (transition_keeps now RECONFIGURING r x) as [H _];
      by destruct (transition now RECONFIGURING r x) as [m' [|]] end.
  - apply close_keeps.
  - apply expire_keeps.
  - unfold require_reconfiguring. pose proof (expire_keeps now m) as [H _].
    destruct (expire_session_if_due now m) as [m' [|]]; [|done]. by repeat case_match.
Qed.

Lemma use_minutes cs : (use cs initial).(session_minutes) = SETUP_RECONFIGURE_SESSION_MIN.
Proof.
  induction cs as [|c cs IH] using rev_ind; [done|]. by rewrite use_snoc, perform_minutes.
Qed.

Lemma session_opened cs s : (use cs initial).(session) = Some s -> opened_by cs s.
Proof.
  induction cs as [|c cs IH] using rev_ind; [done|].
  rewrite use_snoc. intros [H|(p & -> & Hl & Hm & Ho & He)]%perform_session.
  - destruct (IH H) as (cs1 & p & cs2 & -> & Hrest). exists cs1, p, (cs2 ++ [c]).
    by rewrite <- app_assoc.
  - exists cs, p, []. rewrite use_minutes in He. done.
Qed.

(** ** Properties of the machine *)

(** Setup never regresses. Whatever methods are called, a call leaves the
    stage where it was or raises it, except that a failed bootstrap may be
    retried from PREFLIGHT_PASSED; and once the configuration is committed the
    bootstrap endpoints stay closed for good. *)
Theorem setup_never_regresses cs c later :
  let m := use cs initial in
  (stage_ordinal m <= stage_ordinal (perform c m) \/
   (m.(state) = BOOTSTRAP_FAILED /\ (perform c m).(state) = PREFLIGHT_PASSED)) /\
  (3 <= stage_ordinal m ->
   require_bootstrap_open (use later m) = (use later m, Err "SETUP_LOCKED")).
Proof.
  cbn zeta. split.
  - unfold stage_ordinal. destruct (perform_advances c (use cs initial)) as [->|Ht]; [left; lia|].
    destruct (use cs initial).(state) eqn:Es; cbn in Ht;
      repeat (apply elem_of_cons in Ht as [Ht|Ht]; [rewrite Ht; cbn; first [left; lia|by right]|]);
      by apply elem_of_nil in Ht.
  - intros H. by apply require_open_closed, use_closed.
Qed.

Definition to_locked : list call := [
  Transition 1 PREFLIGHT_PASSED ""; Transition 2 BOOTSTRAPPING ""; Transition 3 CONFIGURED "";
  Transition 4 LOCKED ""].

Lemma setup_never_regresses_witness :
  require_bootstrap_open (use [Transition 5 UNINITIALIZED ""] (use to_locked initial)) =
    (use [Transition 5 UNINITIALIZED ""] (use to_locked initial), Err "SETUP_LOCKED").
Proof.
  apply (setup_never_regresses to_locked (ExpireSession 0) [Transition 5 UNINITIALIZED ""]).
  vm_compute. discriminate.
Defined.

(** No reconfiguration without proof. Every action of a reconfiguration
    passes [require_reconfiguring]; when it returns a session, an earlier
    [open_reconfiguration] opened that session from LOCKED with maintenance
    mode, recovery code, MFA and an owner all proven, and less than the 30
    minutes of the session have passed since. *)
Theorem reconfiguration_needs_proof cs now sid m' s :
  require_reconfiguring now sid (use cs initial) = (m', Ok s) ->
  s.(session_id) = sid /\ opened_by cs s /\
  now < s.(opened_at) + minutes SETUP_RECONFIGURE_SESSION_MIN.
Proof.
  unfold require_reconfiguring. intros H.
  assert (exists m1, expire_session_if_due now (use cs initial) = (m1, Ok false) /\
    m1 = use cs initial /\ m'.(session) = Some s /\ m'.(state) = RECONFIGURING /\ m' = m1 /\
    s.(session_id) = sid) as (m1 & He & -> & Hs & Hst & -> & Hsid).
  { unfold expire_session_if_due, close_reconfiguration in *.
    destruct (session (use cs initial)) as [s0|] eqn:Es; [|by rewrite Es in H].
    destruct (_ && _).
    - case_bool_decide; cbn [negb] in H; [|done].
      by destruct (transition _ _ _ _) as [m2 [|]].
    - rewrite Es in H. case_bool_decide as Hr; cbn [negb] in H; [|done].
      destruct (String.eqb_spec s0.(session_id) sid); cbn [negb] in H; [|done].
      injection H as <- <-. by eexists. }
  split; [done|]. pose proof (session_opened cs s Hs) as Ho. split; [done|].
  destruct Ho as (_ & _ & _ & _ & _ & _ & _ & <-).
  unfold expire_session_if_due in He. rewrite Hs, Hst in He.
  destruct (Z.leb_spec s.(expires_at) now); [|lia]. cbn in He.
  unfold close_reconfiguration in He. rewrite Hst in He. cbn in He.
  by destruct (transition _ _ _ _) as [m2 [|]].
Qed.

Definition full_proof : ReconfigurationProof := {|
  maintenance_mode_enabled := true; recovery_code_verified := true; mfa_reauth_verified := true;
  proof_owner_account_id := "owner" |}.

Lemma reconfiguration_needs_proof_witness :
  opened_by (to_locked ++ [OpenReconfiguration 9 full_proof "s1"])
    {| session_id := "s1"; owner_account_id := "owner"; opened_at := 9; expires_at := 9 + minutes 30 |}.
Proof.
  apply (reconfiguration_needs_proof (to_locked ++ [OpenReconfiguration 9 full_proof "s1"]) (minutes 20) "s1"
    (use (to_locked ++ [OpenReconfiguration 9 full_proof "s1"]) initial)).
  vm_compute. reflexivity.
Defined.

(** [expire_session_if_due] never returns [True]: when the session is due
    it moves to LOCKED, drops the session and raises SETUP_SESSION_EXPIRED, so
    the [return True] after the call is unreachable. *)
Theorem expiry_always_raises now m :
  (expire_session_if_due now m).2 <> Ok true /\
  (m.(state) = RECONFIGURING -> forall s, m.(session) = Some s -> s.(expires_at) <= now ->
   exists m', expire_session_if_due now m = (m', Err "SETUP_SESSION_EXPIRED") /\
     m'.(state) = LOCKED /\ m'.(session) = None).
Proof.
  unfold expire_session_if_due, close_reconfiguration. split.
  - destruct m.(session); [|done]. destruct (_ && _); [|done]. case_bool_decide; cbn; [|done].
    by destruct (transition _ _ _ _) as [m2 [|]].
  - intros Hst s -> Hdue. rewrite (proj2 (Z.leb_le _ _) Hdue), Hst. cbn.
    unfold transition. cbn. rewrite Hst. cbn. by eexists.
Qed.

Lemma expiry_always_raises_witness :
  let m := use (to_locked ++ [OpenReconfiguration 9 full_proof "s1"]) initial in
  exists m', expire_session_if_due (minutes 31) m = (m', Err "SETUP_SESSION_EXPIRED") /\
    m'.(state) = LOCKED /\ m'.(session) = None.
Proof.
  apply (proj2 (expiry_always_raises (minutes 31)
    (use (to_locked ++ [OpenReconfiguration 9 full_proof "s1"]) initial)) eq_refl
    {| session_id := "s1"; owner_account_id := "owner"; opened_at := 9; expires_at := 9 + minutes 30 |}).
  - reflexivity.
  - vm_compute. discriminate.
Defined.

(** * Apply order *)

Module Order.

Inductive ApplyStep := DB_MIGRATION | KEY_PROVIDER | OWNER_TOTP | INTEGRATIONS | COMMIT.

#[global] Instance ApplyStep_eq_dec : EqDecision ApplyStep.
Proof. solve_decision. Defined.

Definition value (s : ApplyStep) : Z :=
  match s with
  | DB_MIGRATION => 1 | KEY_PROVIDER => 2 | OWNER_TOTP => 3 | INTEGRATIONS => 4 | COMMIT => 5
  end.

Definition steps : list ApplyStep := [DB_MIGRATION; KEY_PROVIDER; OWNER_TOTP; INTEGRATIONS; COMMIT].

Inductive entry := Begin (s : ApplyStep) | Complete (s : ApplyStep) | Fail_ (s : ApplyStep).

Record ApplyOrder := {
  completed : list ApplyStep;
  in_progress : option ApplyStep;
  log : list entry }.

Definition fresh : ApplyOrder := {| completed := []; in_progress := None; log := [] |}.

Definition begin (step : ApplyStep) : meth ApplyOrder unit := fun o =>
  let missing := filter (fun s => value s < value step /\ s ∉ o.(completed)) steps in
  if negb (bool_decide (missing = [])) then (o, Err "SETUP_ORDER_VIOLATION")
  else if mem step o.(completed) then (o, Err "SETUP_ORDER_VIOLATION")
  else ({| completed := o.(completed); in_progress := Some step; log := o.(log) ++ [Begin step] |}, Ok tt).

Definition complete (step : ApplyStep) : meth ApplyOrder unit := fun o =>
  if negb (bool_decide (o.(in_progress) = Some step)) then (o, Err "SETUP_ORDER_VIOLATION")
  else ({| completed := step :: o.(completed); in_progress := None;
           log := o.(log) ++ [Complete step] |}, Ok tt).

Definition fail (step : ApplyStep) : meth ApplyOrder unit := fun o =>
  if negb (bool_decide (o.(in_progress) = Some step)) then (o, Err "SETUP_ORDER_VIOLATION")
  else ({| completed := filter (fun s => value s < value step) o.(completed); in_progress := None;
           log := o.(log) ++ [Fail_ step] |}, Ok tt).

Definition owner_created_visible (o : ApplyOrder) : bool :=
  forallb (fun s => mem s o.(completed)) [DB_MIGRATION; KEY_PROVIDER; OWNER_TOTP].

Definition committed (o : ApplyOrder) : bool := mem COMMIT o.(completed).

Inductive call := CBegin (s : ApplyStep) | CComplete (s : ApplyStep) | CFail (s : ApplyStep).

Definition perform (c : call) (o : ApplyOrder) : ApplyOrder :=
  match c with
  | CBegin s => (begin s o).1
  | CComplete s => (complete s o).1
  | CFail s => (fail s o).1
  end.

Definition use (cs : list call) : ApplyOrder := foldl (fun o c => perform c o) fresh cs.

(** Every step before [s] is complete. *)
Definition ready (o : ApplyOrder) (s : ApplyStep) : Prop :=
  forall s', value s' < value s -> s' ∈ o.(completed).

Record order_ok (o : ApplyOrder) : Prop := {
  oo_closed s : s ∈ o.(completed) -> ready o s;
  oo_begun s : o.(in_progress) = Some s -> ready o s /\ s ∉ o.(completed) }.

Lemma in_steps s : s ∈ steps.
Proof. destruct s; by apply (bool_decide_unpack _). Qed.

Lemma perform_ok c o : order_ok o -> order_ok (perform c o).
Proof.
  intros [Hcl Hbg]. destruct c as [s|s|s]; cbn [perform].
  - unfold begin. destruct (negb _) eqn:Hm; [done|]. destruct (mem s _) eqn:Hs; [done|].
    apply negb_false_iff, bool_decide_eq_true in Hm. apply mem_false in Hs. split; cbn; [done|].
    intros s0 [= <-]. split; [|done]. intros s' Hlt.
    destruct (decide (s' ∈ o.(completed))) as [|Hn]; [done|]. exfalso.
    assert (s' ∈ filter (fun s0 => value s0 < value s /\ s0 ∉ o.(completed)) steps) as Hin
      by (apply list_elem_of_filter; split; [done|apply in_steps]).
    rewrite Hm in Hin. by apply not_elem_of_nil in Hin.
  - unfold complete. case_bool_decide as Hp; [|done]. destruct (Hbg s Hp) as [Hr _]. split; cbn; [|done].
    intros s0 [->|H0]%elem_of_cons s' Hlt; right; [by apply Hr|by eapply Hcl].
  - unfold fail. case_bool_decide as Hp; [|done]. split; cbn; [|done].
    intros s0 [H1 H2]%list_elem_of_filter s' Hlt. apply list_elem_of_filter.
    split; [lia|by eapply Hcl].
Qed.

Lemma use_ok cs : order_ok (use cs).
Proof.
  induction cs as [|c cs IH] using rev_ind.
  - split; cbn; [by intros s ?%not_elem_of_nil|done].
  - unfold use. rewrite foldl_app. by apply perform_ok.
Qed.

(** The setup is applied in order. Whatever calls are made, a step can only
    begin, and is only ever in progress or complete, when every earlier step is
    complete: the owner is shown as created exactly when the step OWNER_TOTP is
    complete, and a committed setup has completed all five steps. *)
Theorem setup_applied_in_order cs s :
  let o := use cs in
  ((begin s o).2 = Ok tt <-> ready o s /\ s ∉ o.(completed)) /\
  (s ∈ o.(completed) \/ o.(in_progress) = Some s -> ready o s) /\
  owner_created_visible o = mem OWNER_TOTP o.(completed) /\
  (committed o = true -> forall s', s' ∈ o.(completed)).
Proof.
  cbn zeta. pose proof (use_ok cs) as Hok. pose proof Hok as [Hcl Hbg]. split_and!.
  - split.
    + intros H. destruct (begin s (use cs)) as [o' r] eqn:E. cbn in H. subst r.
      pose proof (perform_ok (CBegin s) _ Hok) as [_ Hb]. cbn [perform] in Hb. rewrite E in Hb.
      unfold begin in E. destruct (negb _); [done|]. destruct (mem s _) eqn:Hs; [done|].
      injection E as <-. cbn in Hb. by apply Hb.
    + intros [Hr Hn]. unfold begin. rewrite bool_decide_eq_true_2, (proj2 (mem_false _ _) Hn); [done|].
      apply elem_of_nil_inv. intros x [[Hlt Hx] _]%list_elem_of_filter. by apply Hx, Hr.
  - intros [Hs|Hs]; [by apply Hcl|by apply Hbg].
  - unfold owner_created_visible. cbn [forallb]. rewrite andb_true_r.
    destruct (mem OWNER_TOTP _) eqn:Ho; [|by rewrite !andb_false_r].
    apply mem_spec in Ho. rewrite !(proj2 (mem_spec _ _)); [done|by apply (Hcl OWNER_TOTP)..].
  - intros Hc%mem_spec s'. destruct (decide (s' = COMMIT)) as [->|Hne]; [done|].
    apply (Hcl COMMIT Hc). destruct s'; done.
Qed.
End Order.
