(* ===== verification/SetupToken.v ===== *)
(** The setup token guard ([server/setup/token.py]) and the pre-database secret
    handles ([server/setup/handles.py]). The random bytes of a token and of a
    handle id, and the clock readings of a call, are arguments. *)

From S2P Require Import Prelude Defaults Canonical.
Open Scope Z_scope.

(** * Token guard *)

Definition FINGERPRINT_HEX : nat := 8.

Record TokenRecord := {
  token_hash_ : ustr;
  token_fingerprint_ : ustr;
  issued_at : Z;
  expires_at : Z;
  used : bool }.

Record IssuedToken := { value : string; issued_record : TokenRecord }.

Record FailureState := { timestamps : list Z; fs_blocked_until : option Z }.

Record SetupTokenGuard := {
  _ttl : Z;
  _max_failures : Z;
  _window : Z;
  _block : Z;
  _record : option TokenRecord;
  _failures : gmap (string * ustr) FailureState }.

Section token.
Context (sha256_hex : list N -> ustr).

Definition token_hash (v : string) : res ustr :=
  if forallb (fun c => c <? 128)%N (lit v) then Ok (sha256_hex (lit v)) else Err "UnicodeEncodeError".

Definition token_fingerprint (v : string) : res ustr :=
  h ← token_hash v; Ok (take FINGERPRINT_HEX h).

Definition new_guard : SetupTokenGuard := {|
  _ttl := minutes SETUP_TOKEN_TTL_MIN; _max_failures := SETUP_TOKEN_MAX_FAILURES;
  _window := minutes SETUP_TOKEN_FAILURE_WINDOW_MIN; _block := minutes SETUP_TOKEN_BLOCK_MIN;
  _record := None; _failures := ∅ |}.

Definition with_record (r : option TokenRecord) (g : SetupTokenGuard) : SetupTokenGuard := {|
  _ttl := g.(_ttl); _max_failures := g.(_max_failures); _window := g.(_window);
  _block := g.(_block); _record := r; _failures := g.(_failures) |}.

Definition with_failures (f : gmap (string * ustr) FailureState) (g : SetupTokenGuard) : SetupTokenGuard := {|
  _ttl := g.(_ttl); _max_failures := g.(_max_failures); _window := g.(_window);
  _block := g.(_block); _record := g.(_record); _failures := f |}.

Definition load (r : TokenRecord) (g : SetupTokenGuard) : SetupTokenGuard := with_record (Some r) g.

(** [value]: the hexadecimal text of the random bytes, which is ASCII. *)
Definition issue (v : string) (now : Z) : meth SetupTokenGuard IssuedToken := fun g =>
  match token_hash v, token_fingerprint v with
  | Ok h, Ok fp =>
      let r := {| token_hash_ := h; token_fingerprint_ := fp; issued_at := now;
                  expires_at := now + g.(_ttl); used := false |} in
      (with_record (Some r) g, Ok {| value := v; issued_record := r |})
  | _, _ => (g, Err "UnicodeEncodeError")
  end.

Definition blocked_until (g : SetupTokenGuard) (key : string * ustr) (now : Z) : option Z :=
  match g.(_failures) !! key with
  | None => None
  | Some st =>
      match st.(fs_blocked_until) with
      | None => None
      | Some b => if b <=? now then None else Some b
      end
  end.

Definition _record_failure (key : string * ustr) (now : Z) (g : SetupTokenGuard) : SetupTokenGuard :=
  let st := default {| timestamps := []; fs_blocked_until := None |} (g.(_failures) !! key) in
  let ts := filter (fun t => now - t < g.(_window)) st.(timestamps) ++ [now] in
  let st' := if g.(_max_failures) <=? Z.of_nat (length ts)
             then {| timestamps := []; fs_blocked_until := Some (now + g.(_block)) |}
             else {| timestamps := ts; fs_blocked_until := st.(fs_blocked_until) |} in
  with_failures (<[key := st']> g.(_failures)) g.

(** The checks of the presented token, once its source is not blocked. *)
Definition check_token (record : option TokenRecord) (h : ustr) (now : Z) : res TokenRecord :=
  match record with
  | None => Err "SETUP_TOKEN_INVALID"
  | Some r =>
      if negb (bool_decide (r.(token_hash_) = h)) then Err "SETUP_TOKEN_INVALID"
      else if r.(used) then Err "SETUP_TOKEN_USED"
      else if r.(expires_at) <=? now then Err "SETUP_TOKEN_EXPIRED"
      else Ok r
  end.

(** [now] is the first reading of the clock, [now'] the reading inside
    [blocked_until]. *)
Definition verify (presented ip : string) (consume : bool) (now now' : Z)
    : meth SetupTokenGuard TokenRecord := fun g =>
  match token_hash presented with
  | Err e => (g, Err e)
  | Ok h =>
      let key := (ip, take FINGERPRINT_HEX h) in
      if bool_decide (is_Some (blocked_until g key now')) then (g, Err "SETUP_TOKEN_BLOCKED")
      else
        match check_token g.(_record) h now with
        | Err e => (_record_failure key now g, Err e)
        | Ok r =>
            if consume then
              let r' := {| token_hash_ := r.(token_hash_); token_fingerprint_ := r.(token_fingerprint_);
                           issued_at := r.(issued_at); expires_at := r.(expires_at); used := true |} in
              (with_record (Some r') g, Ok r')
            else (g, Ok r)
        end
  end.

(** ** Any use of the guard *)

Inductive call :=
| Issue (v : string)
| Load (r : TokenRecord)
| Verify (presented ip : string) (consume : bool).

Definition perform (now : Z) (c : call) (g : SetupTokenGuard) : SetupTokenGuard :=
  match c with
  | Issue v => (issue v now g).1
  | Load r => load r g
  | Verify presented ip consume => (verify presented ip consume now now g).1
  end.

(** The key of the failure a call records, if it records one. *)
Definition failed_key (now : Z) (c : call) (g : SetupTokenGuard) : option (string * ustr) :=
  match c with
  | Verify presented ip consume =>
      match token_hash presented, (verify presented ip consume now now g).2 with
      | Ok h, Err e => if String.eqb e "SETUP_TOKEN_BLOCKED" then None
                       else Some (ip, take FINGERPRINT_HEX h)
      | _, _ => None
      end
  | _ => None
  end.

(** The calls made at the given instants, and the failures they recorded. *)
Fixpoint use (cs : list (Z * call)) (g : SetupTokenGuard) (fs : list ((string * ustr) * Z))
    : SetupTokenGuard * list ((string * ustr) * Z) :=
  match cs with
  | [] => (g, fs)
  | (now, c) :: cs =>
      use cs (perform now c g)
        match failed_key now c g with Some k => fs ++ [(k, now)] | None => fs end
  end.

(** ** Lemmas *)

Lemma check_token_code r h now e : check_token r h now = Err e -> e <> "SETUP_TOKEN_BLOCKED".
Proof. unfold check_token. intros H ->. repeat case_match; discriminate. Qed.

Lemma perform_failures now c g :
  (perform now c g).(_failures) =
  match failed_key now c g with
  | Some k => (_record_failure k now g).(_failures)
  | None => g.(_failures)
  end /\
  (perform now c g).(_max_failures) = g.(_max_failures) /\
  (perform now c g).(_window) = g.(_window) /\ (perform now c g).(_block) = g.(_block).
Proof.
  destruct c as [v|r|p ip consume]; cbn.
  - unfold issue. by destruct (token_hash v), (token_fingerprint v).
  - done.
  - unfold verify. destruct (token_hash p) as [h|]; [|done].
    case_bool_decide; [done|]. destruct (check_token _ h now) as [r|e] eqn:Hc.
    + by destruct consume.
    + cbn. destruct (String.eqb_spec e "SETUP_TOKEN_BLOCKED"); [|done].
      by apply check_token_code in Hc.
Qed.

Lemma failed_key_unblocked now c g k :
  failed_key now c g = Some k -> blocked_until g k now = None.
Proof.
  destruct c as [v|r|p ip consume]; cbn; [done..|].
  destruct (token_hash p) as [h|] eqn:Hh; [|done]. unfold verify. rewrite Hh.
  case_bool_decide as Hb; [done|]. intros H.
  assert (k = (ip, take FINGERPRINT_HEX h)) as ->.
  { destruct (check_token _ h now); [by destruct consume|]. cbn in H.
    destruct (String.eqb _ _); [done|]. by injection H. }
  destruct (blocked_until g _ now); [destruct Hb; eauto|done].
Qed.

(** The failures of one source. *)
Definition failures_of (k : string * ustr) (fs : list ((string * ustr) * Z)) : list Z :=
  snd <$> filter (fun f => f.1 = k) fs.

Definition state_of (g : SetupTokenGuard) (k : string * ustr) : FailureState :=
  default {| timestamps := []; fs_blocked_until := None |} (g.(_failures) !! k).

Lemma blocked_state g k now :
  blocked_until g k now =
  match (state_of g k).(fs_blocked_until) with
  | Some b => if b <=? now then None else Some b
  | None => None
  end.
Proof. unfold blocked_until, state_of. by destruct (_ !! k). Qed.

Lemma record_failure_other k k' now g :
  k' <> k -> state_of (_record_failure k now g) k' = state_of g k'.
Proof. intros Hne. unfold state_of, _record_failure. cbn. by rewrite lookup_insert_ne. Qed.

(** The timestamps still counted, and the older failures with the reason why
    they no longer count at any instant at which the source is not blocked. *)
Definition accounted (g : SetupTokenGuard) (k : string * ustr) (fs : list Z) (last : Z) : Prop :=
  exists old,
    fs ≡ₚ old ++ (state_of g k).(timestamps) /\
    Z.of_nat (length (state_of g k).(timestamps)) < g.(_max_failures) /\
    Forall (fun t => t <= last) fs /\
    Forall (fun t => t + g.(_window) <= last \/
      exists b, (state_of g k).(fs_blocked_until) = Some b /\ t + g.(_window) <= b) old.

Lemma accounted_later g k fs last now :
  accounted g k fs last -> last <= now -> accounted g k fs now.
Proof.
  intros (old & Hp & Hlen & Hle & Hold) Hn. exists old. split_and!; try done.
  - eapply Forall_impl; [exact Hle|]. cbn. lia.
  - eapply Forall_impl; [exact Hold|]. cbn. intros t [?|?]; [left; lia|by right].
Qed.

Definition recent (window now : Z) (ts : list Z) : list Z := filter (fun t => now - t < window) ts.

Lemma filter_none {A} (P : A -> Prop) `{forall x, Decision (P x)} l :
  Forall (fun x => ~ P x) l -> filter P l = [].
Proof. induction 1; [done|]. by rewrite filter_cons_False. Qed.

(** At an instant at which the source is not blocked, the failures in the window
    are the timestamps the guard still counts. *)
Lemma accounted_recent g k fs now :
  accounted g k fs now -> blocked_until g k now = None ->
  recent g.(_window) now fs ≡ₚ recent g.(_window) now (state_of g k).(timestamps) /\
  Z.of_nat (length (recent g.(_window) now fs)) < g.(_max_failures).
Proof.
  intros (old & Hp & Hlen & _ & Hold) Hb.
  assert (recent g.(_window) now fs ≡ₚ recent g.(_window) now (state_of g k).(timestamps)) as Hr.
  { unfold recent. rewrite Hp, filter_app, (filter_none _ old), app_nil_l; [done|].
    eapply Forall_impl; [exact Hold|]. cbn. intros t [?|(b & Hbu & Hle)]; [lia|].
    rewrite blocked_state, Hbu in Hb. destruct (Z.leb_spec b now); [lia|done]. }
  split; [done|]. rewrite Hr.
  pose proof (length_filter (fun t => now - t < g.(_window)) (state_of g k).(timestamps)).
  unfold recent. lia.
Qed.

Lemma accounted_failure g k fs now :
  accounted g k fs now -> blocked_until g k now = None ->
  0 < g.(_max_failures) -> g.(_window) <= g.(_block) ->
  accounted (_record_failure k now g) k (fs ++ [now]) now.
Proof.
  intros (old & Hp & Hlen & Hle & Hold) Hb Hmax Hwin.
  assert (Forall (fun t => t <= now) (fs ++ [now])) as Hle'
    by (apply Forall_app; split; [done|by repeat constructor]).
  unfold accounted, state_of, _record_failure. cbn. rewrite lookup_insert_eq. cbn.
  fold (state_of g k). destruct (Z.leb_spec g.(_max_failures)
    (Z.of_nat (length (filter (fun t => now - t < g.(_window)) (state_of g k).(timestamps) ++ [now])))) as [Hge|Hlt].
  - exists (fs ++ [now]). cbn. rewrite app_nil_r. split_and!; [done|lia|done|].
    eapply Forall_impl; [exact Hle'|]. cbn. intros t Ht. right. eexists. split; [done|lia].
  - exists (old ++ filter (fun t => ~ now - t < g.(_window)) (state_of g k).(timestamps)). cbn.
    split_and!; [|lia|done|].
    + rewrite Hp, <- !app_assoc. apply Permutation_app_head.
      rewrite app_assoc, (Permutation_app_comm (filter (fun t => ~ _) _)), filter_app_complement. done.
    + apply Forall_app. split.
      * eapply Forall_impl; [exact Hold|]. cbn. intros t [?|(b & Hbu & Hb')]; [by left|left].
        rewrite blocked_state, Hbu in Hb. destruct (Z.leb_spec b now); [lia|done].
      * apply Forall_forall. intros t [Ht _]%list_elem_of_filter. left. lia.
Qed.

Definition default_limits (g : SetupTokenGuard) : Prop :=
  g.(_max_failures) = SETUP_TOKEN_MAX_FAILURES /\
  g.(_window) = minutes SETUP_TOKEN_FAILURE_WINDOW_MIN /\ g.(_block) = minutes SETUP_TOKEN_BLOCK_MIN.

Lemma perform_accounted now c g k fs last :
  default_limits g -> accounted g k fs last -> last <= now ->
  accounted (perform now c g) k
    (fs ++ match failed_key now c g with
           | Some k' => if bool_decide (k' = k) then [now] else [] | None => [] end) now.
Proof.
  intros (Hm & Hw & Hb) Hacc Hnow. pose proof (accounted_later _ _ _ _ _ Hacc Hnow) as Hacc'.
  destruct (perform_failures now c g) as (Hf & Hm' & Hw' & Hb').
  assert (forall g' l, g'.(_failures) = (perform now c g).(_failures) ->
    g'.(_max_failures) = g.(_max_failures) -> g'.(_window) = g.(_window) ->
    accounted g' k l now -> accounted (perform now c g) k l now) as Htransfer.
  { intros g' l H1 H2 H3. unfold accounted, state_of. by rewrite H1, H2, H3, Hm', Hw'. }
  destruct (failed_key now c g) as [k'|] eqn:Hk.
  - case_bool_decide as Hkk; [subst k'|].
    + apply (Htransfer (_record_failure k now g)); [done..|].
      apply accounted_failure; [done|by eapply failed_key_unblocked| |].
      * rewrite Hm. unfold SETUP_TOKEN_MAX_FAILURES. lia.
      * rewrite Hw, Hb. unfold minutes, seconds, SETUP_TOKEN_FAILURE_WINDOW_MIN, SETUP_TOKEN_BLOCK_MIN. lia.
    + apply (Htransfer (_record_failure k' now g)); [done..|]. rewrite app_nil_r.
      unfold accounted. rewrite record_failure_other by done. exact Hacc'.
  - rewrite app_nil_r. apply (Htransfer g); [done..|exact Hacc'].
Qed.

(** Calls at nondecreasing instants, from [last] on. *)
Fixpoint in_time (last : Z) (cs : list (Z * call)) : Prop :=
  match cs with
  | [] => True
  | (now, _) :: cs => last <= now /\ in_time now cs
  end.

Definition end_time (last : Z) (cs : list (Z * call)) : Z := default last (fst <$> list.last cs).

Lemma end_time_cons last now c cs : end_time last ((now, c) :: cs) = end_time now cs.
Proof. unfold end_time. rewrite last_cons. by destruct (list.last cs). Qed.

Lemma failures_of_snoc k fs k' now :
  failures_of k (fs ++ [(k', now)]) =
  failures_of k fs ++ (if bool_decide (k' = k) then [now] else []).
Proof.
  unfold failures_of. rewrite filter_app, fmap_app. f_equal.
  case_bool_decide; [by rewrite filter_cons_True|by rewrite filter_cons_False].
Qed.

Lemma use_accounted cs g fs last k :
  default_limits g -> in_time last cs -> accounted g k (failures_of k fs) last ->
  default_limits (use cs g fs).1 /\
  accounted (use cs g fs).1 k (failures_of k (use cs g fs).2) (end_time last cs).
Proof.
  revert g fs last. induction cs as [|[now c] cs IH]; intros g fs last Hd Ht Hacc; [done|].
  destruct Ht as [Hnow Ht]. cbn [use]. rewrite end_time_cons. apply IH; [|done|].
  - destruct (perform_failures now c g) as (_ & H1 & H2 & H3). unfold default_limits.
    by rewrite H1, H2, H3.
  - pose proof (perform_accounted now c g k _ last Hd Hacc Hnow) as H.
    destruct (failed_key now c g) as [k'|]; [by rewrite failures_of_snoc|by rewrite app_nil_r in H].
Qed.

Lemma fresh_accounted k last : accounted new_guard k [] last.
Proof. exists []. by repeat constructor. Qed.

(** ** Properties *)

(** Guessing is rate limited per source. Take any use of a new guard, at a
    clock that does not run backwards, and one more call that fails at [now]
    without being blocked: fewer than five earlier failures of the same source
    (address and token fingerprint) lie in the fifteen minutes before, and if
    there are four, the source is blocked from now on for fifteen minutes. *)
Theorem failures_rate_limited cs now c k :
  in_time 0 cs -> end_time 0 cs <= now ->
  let '(g, fs) := use cs new_guard [] in
  failed_key now c g = Some k ->
  let earlier := recent (minutes 15) now (failures_of k fs) in
  (length earlier <= 4)%nat /\
  (length earlier = 4%nat -> forall t, now <= t < now + minutes 15 ->
   blocked_until (perform now c g) k t = Some (now + minutes 15)).
Proof.
  intros Ht Hnow.
  destruct (use_accounted cs new_guard [] 0 k ltac:(done) Ht (fresh_accounted k 0)) as [Hd Hacc].
  destruct (use cs new_guard []) as [g fs]. cbn [fst snd] in *. intros Hk. cbn zeta.
  pose proof (failed_key_unblocked _ _ _ _ Hk) as Hb.
  pose proof (accounted_later _ _ _ _ _ Hacc Hnow) as Hacc'.
  destruct Hd as (Hm & Hw & Hblk). destruct (accounted_recent _ _ _ _ Hacc' Hb) as [Hperm Hlen].
  rewrite Hw, Hm in *. unfold SETUP_TOKEN_MAX_FAILURES, SETUP_TOKEN_FAILURE_WINDOW_MIN in *.
  split; [lia|]. intros Hfour t Htime.
  destruct (perform_failures now c g) as (Hf & _). rewrite Hk in Hf.
  unfold blocked_until. rewrite Hf. unfold _record_failure. cbn. rewrite lookup_insert_eq.
  fold (state_of g k). rewrite Hm, Hw, Hblk. rewrite length_app.
  rewrite Hperm in Hfour. unfold recent in Hfour.
  unfold SETUP_TOKEN_MAX_FAILURES, SETUP_TOKEN_FAILURE_WINDOW_MIN, SETUP_TOKEN_BLOCK_MIN in *.
  rewrite Hfour. change (5 <=? Z.of_nat (4 + length [now])) with true.
  cbn -[minutes]. destruct (Z.leb_spec (now + minutes 15) t); [lia|done].
Qed.

(** [verify] accepts exactly the current token: it returns a record when and
    only when the source is not blocked, the hash of the presented text is the
    stored one, the token was not used before and it has not expired. After it
    returned one with [consume], no call accepts that token again until another
    one is issued or loaded. *)
Theorem token_valid_once presented ip now now' g h :
  token_hash presented = Ok h ->
  (forall consume, is_ok (verify presented ip consume now now' g).2 = true <->
    blocked_until g (ip, take FINGERPRINT_HEX h) now' = None /\
    exists r, g.(_record) = Some r /\ r.(token_hash_) = h /\ r.(used) = false /\
      now < r.(expires_at)) /\
  (is_ok (verify presented ip true now now' g).2 = true ->
   forall later fs p2 ip2 c2 t t',
     Forall (fun c => match c.2 with Verify _ _ _ => True | _ => False end) later ->
     is_ok (verify p2 ip2 c2 t t' (use later (verify presented ip true now now' g).1 fs).1).2 = false).
Proof.
  intros Hh. split.
  - intros consume. unfold verify. rewrite Hh. case_bool_decide as Hb.
    { split; [done|]. intros [Hn _]. rewrite Hn in Hb. by destruct Hb. }
    assert (blocked_until g (ip, take FINGERPRINT_HEX h) now' = None) as Hb'
      by (destruct (blocked_until _ _ _); [destruct Hb; eauto|done]).
    unfold check_token. destruct g.(_record) as [r|]; [|split; [done|naive_solver]].
    case_bool_decide as Hr; cbn [negb]; [|split; [done|naive_solver]].
    destruct r.(used) eqn:Hu; [split; [done|naive_solver]|].
    destruct (Z.leb_spec r.(expires_at) now); [split; [done|intros (_ & x & [= <-] & _ & _ & ?); lia]|].
    destruct consume; split; eauto 10.
  - intros Hok later fs p2 ip2 c2 t t' Hlater.
    assert (exists r, (verify presented ip true now now' g).1.(_record) = Some r /\ r.(used) = true) as Hused.
    { unfold verify in *. rewrite Hh in *. case_bool_decide; [done|].
      destruct (check_token _ h now); [|done]. by eexists. }
    revert Hused. generalize (verify presented ip true now now' g).1. clear Hok.
    assert (forall x, (exists r, x.(_record) = Some r /\ r.(used) = true) ->
      forall p i c a b, (exists r, (verify p i c a b x).1.(_record) = Some r /\ r.(used) = true) /\
        is_ok (verify p i c a b x).2 = false) as Hstep.
    { intros x (r & Hr & Hu) p i c a b. unfold verify. destruct (token_hash p) as [h2|]; [|by eauto].
      case_bool_decide; [by eauto|]. unfold check_token. rewrite Hr, Hu.
      case_bool_decide; cbn [negb]; cbn; by eauto. }
    revert fs. induction Hlater as [|[now2 c] later Hc _ IH]; intros fs x Hx; cbn [use].
    + by apply Hstep.
    + apply IH. destruct c; try done. cbn [perform]. by apply Hstep.
Qed.
End token.

(** ** A concrete guard *)

Definition toy_hash (b : list N) : ustr := b.

Definition guesses : list (Z * call) :=
  (fun n => (minutes n, Verify "badtoken" "10.0.0.1" true)) <$> [1; 2; 3; 4].

Lemma failures_rate_limited_witness :
  blocked_until (perform toy_hash (minutes 5) (Verify "badtoken" "10.0.0.1" true)
    (use toy_hash guesses new_guard []).1) ("10.0.0.1", lit "badtoken") (minutes 19)
  = Some (minutes 5 + minutes 15).
Proof.
  assert (in_time 0 guesses) as H1 by (vm_compute; repeat split; discriminate).
  assert (end_time 0 guesses <= minutes 5) as H2 by (vm_compute; discriminate).
  pose proof (failures_rate_limited toy_hash guesses (minutes 5) (Verify "badtoken" "10.0.0.1" true)
    ("10.0.0.1", lit "badtoken") H1 H2) as H.
  destruct (use toy_hash guesses new_guard []) as [g fs] eqn:E.
  destruct H as [_ H]; [|apply H].
  - vm_compute in E. injection E as <- <-. vm_compute. reflexivity.
  - vm_compute in E. injection E as <- <-. vm_compute. reflexivity.
  - vm_compute. split; [discriminate|reflexivity].
Defined.

Definition issued : SetupTokenGuard := (issue toy_hash "abcdef01" 0 new_guard).1.

Lemma token_valid_once_witness :
  is_ok (verify toy_hash "abcdef01" "10.0.0.1" true 5 5
    (use toy_hash [(3, Verify "x" "10.0.0.1" true)]
      (verify toy_hash "abcdef01" "10.0.0.1" true 2 2 issued).1 []).1).2 = false.
Proof.
  apply (token_valid_once toy_hash "abcdef01" "10.0.0.1" 2 2 issued (lit "abcdef01") eq_refl).
  - vm_compute. reflexivity.
  - repeat constructor.
Defined.

(** * Pre-database secret handles *)

Module Handles.

Record SecretHandle := { handle_id : string; name : string; h_expires_at : Z; _value : list N }.

(** The mapping of a store; a wiped handle is also removed from it. *)
Record PreDbHandleStore := { h_ttl : Z; _handles : gmap string SecretHandle }.

Definition new_store : PreDbHandleStore :=
  {| h_ttl := minutes SETUP_PRE_DB_HANDLE_TTL_MIN; _handles := ∅ |}.

Definition wipe (h : SecretHandle) : SecretHandle := {|
  handle_id := h.(handle_id); name := h.(name); h_expires_at := h.(h_expires_at); _value := [] |}.

Definition put (token_hex : string) (nm : string) (v : list N) (now : Z) (s : PreDbHandleStore)
    : PreDbHandleStore * SecretHandle :=
  let h := {| handle_id := "h-" +:+ token_hex; name := nm; h_expires_at := now + s.(h_ttl); _value := v |} in
  ({| h_ttl := s.(h_ttl); _handles := <[h.(handle_id) := h]> s.(_handles) |}, h).

Definition revoke (hid : string) (s : PreDbHandleStore) : PreDbHandleStore :=
  {| h_ttl := s.(h_ttl); _handles := delete hid s.(_handles) |}.

Definition expired (now : Z) (s : PreDbHandleStore) : list SecretHandle :=
  filter (fun h => h.(h_expires_at) <= now) (snd <$> map_to_list s.(_handles)).

Definition purge_expired (now : Z) (s : PreDbHandleStore) : PreDbHandleStore * nat :=
  let ex := expired now s in
  (foldl (fun s h => revoke h.(handle_id) s) s ex, length ex).

Definition resolve (hid : string) (now : Z) : meth PreDbHandleStore (list N) := fun s =>
  let s := (purge_expired now s).1 in
  match s.(_handles) !! hid with
  | None => (s, Err "SETUP_HANDLE_EXPIRED")
  | Some h => (s, Ok h.(_value))
  end.

Inductive hcall :=
| Put (token_hex nm : string) (v : list N)
| Resolve (hid : string)
| Revoke (hid : string)
| Purge.

Definition hperform (now : Z) (c : hcall) (s : PreDbHandleStore) : PreDbHandleStore :=
  match c with
  | Put x nm v => (put x nm v now s).1
  | Resolve hid => (resolve hid now s).1
  | Revoke hid => revoke hid s
  | Purge => (purge_expired now s).1
  end.

Definition huse (cs : list (Z * hcall)) (s : PreDbHandleStore) : PreDbHandleStore :=
  foldl (fun s c => hperform c.1 c.2 s) s cs.

Definition store_ok (s : PreDbHandleStore) : Prop :=
  map_Forall (fun k h => h.(handle_id) = k) s.(_handles).

Lemma revoke_all_lookup hs s k :
  (foldl (fun s h => revoke h.(handle_id) s) s hs).(_handles) !! k =
  if decide (k ∈ handle_id <$> hs) then None else s.(_handles) !! k.
Proof.
  revert s. induction hs as [|h hs IH]; intros s; [done|].
  cbn [foldl fmap list_fmap]. rewrite IH. cbn [revoke _handles].
  destruct (decide (k ∈ handle_id h :: (handle_id <$> hs))) as [H2|H2];
    rewrite elem_of_cons in H2; destruct (decide (k ∈ handle_id <$> hs)) as [H1|H1]; try done.
  - destruct H2 as [->|?]; [apply lookup_delete_eq|done].
  - destruct H2. by right.
  - apply lookup_delete_ne. intros <-. destruct H2. by left.
Qed.

Lemma purge_lookup now s k :
  store_ok s ->
  (purge_expired now s).1.(_handles) !! k =
  match s.(_handles) !! k with
  | Some h => if h.(h_expires_at) <=? now then None else Some h
  | None => None
  end.
Proof.
  intros Hok. unfold purge_expired. cbn. rewrite revoke_all_lookup.
  assert (k ∈ handle_id <$> expired now s <->
    exists h, s.(_handles) !! k = Some h /\ h.(h_expires_at) <= now) as Hin.
  { unfold expired. rewrite list_elem_of_fmap. split.
    - intros (h & -> & [Hle Hh]%list_elem_of_filter).
      apply list_elem_of_fmap in Hh as ([k' h'] & -> & Hm%elem_of_map_to_list). cbn in *.
      rewrite (Hok _ _ Hm). eauto.
    - intros (h & Hh & Hle). exists h. split; [by rewrite (Hok _ _ Hh)|].
      apply list_elem_of_filter. split; [done|].
      apply list_elem_of_fmap. exists (k, h). by rewrite elem_of_map_to_list. }
  destruct (decide _) as [Hd|Hd]; rewrite Hin in Hd.
  - destruct Hd as (h & -> & Hle). by rewrite (proj2 (Z.leb_le _ _) Hle).
  - destruct (s.(_handles) !! k) as [h|]; [|done]. destruct (Z.leb_spec h.(h_expires_at) now); [|done].
    destruct Hd. eauto.
Qed.

Lemma hperform_ok now c s : store_ok s -> store_ok (hperform now c s).
Proof.
  intros Hok. assert (store_ok (purge_expired now s).1) as Hp.
  { intros k h. rewrite purge_lookup by done. destruct (_ !! k) as [h'|] eqn:E; [|done].
    destruct (_ <=? _); [done|]. intros [= <-]. by apply Hok. }
  destruct c as [x nm v|hid|hid|]; cbn [hperform]; [| | |exact Hp].
  - by apply map_Forall_insert_2.
  - unfold resolve. by destruct (_ !! hid).
  - by apply map_Forall_delete.
Qed.

Lemma huse_ok cs s : store_ok s -> store_ok (huse cs s).
Proof. revert s. induction cs as [|c cs IH]; intros s Hok; [done|]. by apply IH, hperform_ok. Qed.

Lemma resolve_purges hid t s : (resolve hid t s).1 = (purge_expired t s).1.
Proof. unfold resolve. cbn zeta. by destruct (_ !! hid). Qed.

Lemma resolve_spec hid t s :
  store_ok s ->
  (resolve hid t s).2 =
  match s.(_handles) !! hid with
  | Some h => if h.(h_expires_at) <=? t then Err "SETUP_HANDLE_EXPIRED" else Ok h.(_value)
  | None => Err "SETUP_HANDLE_EXPIRED"
  end.
Proof.
  intros Hok. pose proof (purge_lookup t s hid Hok) as Hp. unfold resolve. cbn zeta.
  destruct (_handles (purge_expired t s).1 !! hid) as [h|]; cbn [snd];
    destruct (s.(_handles) !! hid) as [h'|]; try done; destruct (_ <=? t); congruence.
Qed.

(** A call that neither revokes the handle nor puts another value under its id. *)
Definition leaves (hid : string) (c : hcall) : bool :=
  match c with
  | Put x _ _ => negb (String.eqb ("h-" +:+ x) hid)
  | Revoke h => negb (String.eqb h hid)
  | _ => true
  end.

Lemma hperform_lookup now c s hid h :
  store_ok s -> leaves hid c = true -> s.(_handles) !! hid = Some h -> now < h.(h_expires_at) ->
  (hperform now c s).(_handles) !! hid = Some h.
Proof.
  intros Hok Hl Hh Hnow.
  assert ((purge_expired now s).1.(_handles) !! hid = Some h) as Hp.
  { rewrite purge_lookup, Hh by done. destruct (Z.leb_spec h.(h_expires_at) now); [lia|done]. }
  destruct c as [x nm v|k|k|]; cbn [hperform leaves] in *; [| | |exact Hp].
  - apply negb_true_iff, String.eqb_neq in Hl. cbn. by rewrite lookup_insert_ne.
  - unfold resolve. by destruct (_ !! k).
  - apply negb_true_iff, String.eqb_neq in Hl. cbn. by rewrite lookup_delete_ne.
Qed.

Lemma huse_lookup cs s hid h :
  store_ok s -> Forall (fun c => leaves hid c.2 = true /\ c.1 < h.(h_expires_at)) cs ->
  s.(_handles) !! hid = Some h -> (huse cs s).(_handles) !! hid = Some h.
Proof.
  intros Hok Hcs. revert s Hok. induction Hcs as [|c cs [Hl Ht] _ IH]; intros s Hok Hh; [done|].
  cbn. apply IH; [by apply hperform_ok|by apply hperform_lookup].
Qed.

(** A pre-database secret lives for its fifteen minutes and no longer. After
    [put], and whatever further calls were made before its expiry that do not
    revoke it, [resolve] gives its value until the expiry; at the expiry and
    later, and once it is revoked, it gives SETUP_HANDLE_EXPIRED and the store
    does not hold the value any more. *)
Theorem handle_lifetime before x nm v now later t :
  let s0 := huse before new_store in
  let s1 := huse later (put x nm v now s0).1 in
  let hid := "h-" +:+ x in
  Forall (fun c => leaves hid c.2 = true /\ c.1 < now + s0.(h_ttl)) later ->
  (t < now + s0.(h_ttl) -> (resolve hid t s1).2 = Ok v) /\
  (now + s0.(h_ttl) <= t ->
   (resolve hid t s1).2 = Err "SETUP_HANDLE_EXPIRED" /\ (resolve hid t s1).1.(_handles) !! hid = None) /\
  (resolve hid t (revoke hid s1)).2 = Err "SETUP_HANDLE_EXPIRED".
Proof.
  intros s0 s1 hid Hlater.
  assert (store_ok s0) as Hok0 by (apply huse_ok; apply map_Forall_empty).
  assert (store_ok (put x nm v now s0).1) as Hok1 by (by apply (hperform_ok now (Put x nm v))).
  pose proof (huse_ok later _ Hok1) as Hok. fold s1 in Hok.
  assert (s1.(_handles) !! hid = Some {| handle_id := hid; name := nm;
    h_expires_at := now + s0.(h_ttl); _value := v |}) as Hh.
  { apply huse_lookup; [done|done|]. cbn. by rewrite lookup_insert_eq. }
  assert (store_ok (revoke hid s1)) as Hok2 by (by apply (hperform_ok t (Revoke hid))).
  rewrite !resolve_spec by done. rewrite resolve_purges, purge_lookup, Hh by done. cbn [h_expires_at _value].
  replace ((revoke hid s1).(_handles) !! hid) with (@None SecretHandle) by (cbn; by rewrite lookup_delete_eq).
  destruct (Z.leb_spec (now + s0.(h_ttl)) t); (split_and!; [lia || done|lia || done|done]).
Qed.

Lemma handle_lifetime_witness :
  (resolve "h-1" (minutes 16)
    (huse [(minutes 2, Purge)] (put "1" "db" [7%N] 0 (huse [] new_store)).1)).2 = Err "SETUP_HANDLE_EXPIRED".
Proof.
  refine (proj1 (proj1 (proj2 (handle_lifetime [] "1" "db" [7%N] 0 [(minutes 2, Purge)] (minutes 16) _)) _)).
  - repeat constructor.
  - vm_compute. discriminate.
Defined.
End Handles.
