(* ===== verification/Policy.v ===== *)
(** Policy evaluation ([server/policy/model.py], [server/policy/engine.py]). A StrEnum
    value and a risk level are the strings the code compares. *)

From S2P Require Import Prelude.
Open Scope Z_scope.

(** * Model *)

Inductive Decision := ALLOW | DENY.
#[global] Instance Decision_eq_dec : EqDecision Decision.
Proof. solve_decision. Defined.

Inductive DenyReason :=
| DEFAULT_DENY | EXPLICIT_DENY | SCOPE_DOMAIN | SCOPE_SIDE_EFFECT | SCOPE_CHANNEL
| SCOPE_RESOURCE | ROLE_INACTIVE | UNKNOWN_PERMISSION.
#[global] Instance DenyReason_eq_dec : EqDecision DenyReason.
Proof. solve_decision. Defined.

Definition reason_value (r : DenyReason) : string :=
  match r with
  | DEFAULT_DENY => "DEFAULT_DENY" | EXPLICIT_DENY => "EXPLICIT_DENY"
  | SCOPE_DOMAIN => "SCOPE_DOMAIN" | SCOPE_SIDE_EFFECT => "SCOPE_SIDE_EFFECT"
  | SCOPE_CHANNEL => "SCOPE_CHANNEL" | SCOPE_RESOURCE => "SCOPE_RESOURCE"
  | ROLE_INACTIVE => "ROLE_INACTIVE" | UNKNOWN_PERMISSION => "UNKNOWN_PERMISSION"
  end.

Record Constraints := {
  domains : option (gset string);  (* None = unrestricted *)
  side_effects : string;
  requires_human_approval : gset string;
  channels : option (gset string);
  resources : option (gset string);
  max_risk : string }.

Record Role := {
  role_id : string;
  version : Z;
  permissions : gset string;
  deny : gset string;
  constraints : Constraints;
  role_status : string }.

Record ActionRequest := {
  permission : string;
  domain : option string;
  side_effect : bool;
  channel_id : option string;
  resource : option string }.

Record PolicyDecision := {
  decision : Decision;
  reason : string;
  matched_roles : list string;
  needs_human_approval : bool }.

Definition allowed (d : PolicyDecision) : bool := bool_decide (d.(decision) = ALLOW).

Definition permission_matches (pattern permission : string) : bool :=
  if String.eqb pattern "*" then true
  else if ends_with ".*" pattern then starts_with (drop_last 1 pattern) permission
  else String.eqb pattern permission.

(** * Engine *)

Definition any_matches (patterns : gset string) (permission : string) : bool :=
  existsb (fun p => permission_matches p permission) (elements patterns).

(** [xs is not None and (x is None or x not in xs)] *)
Definition outside (xs : option (gset string)) (x : option string) : bool :=
  match xs with
  | None => false
  | Some xs => match x with None => true | Some x => bool_decide (x ∉ xs) end
  end.

Definition _scope_violation (role : Role) (request : ActionRequest) : option DenyReason :=
  let c := role.(constraints) in
  if outside c.(domains) request.(domain) then Some SCOPE_DOMAIN
  else if String.eqb c.(side_effects) "deny" && request.(side_effect) then Some SCOPE_SIDE_EFFECT
  else if outside c.(channels) request.(channel_id) then Some SCOPE_CHANNEL
  else if outside c.(resources) request.(resource) then Some SCOPE_RESOURCE
  else None.

Definition in_vocabulary (vocabulary : option (gset string)) (p : string) : bool :=
  match vocabulary with None => true | Some v => bool_decide (p ∈ v) end.

Definition refuse (r : DenyReason) (matched : list string) : PolicyDecision := {|
  decision := DENY; reason := reason_value r; matched_roles := matched; needs_human_approval := false |}.

Definition in_scope (request : ActionRequest) (r : Role) : bool :=
  match _scope_violation r request with None => true | Some _ => false end.

Definition human_gate (request : ActionRequest) (r : Role) : bool :=
  let gated := r.(constraints).(requires_human_approval) in
  bool_decide (request.(permission) ∈ gated) || any_matches gated request.(permission).

(** [self._vocabulary] is the first argument. *)
Definition evaluate (vocabulary : option (gset string)) (roles : list Role) (request : ActionRequest)
    : PolicyDecision :=
  if negb (in_vocabulary vocabulary request.(permission)) then refuse UNKNOWN_PERMISSION []
  else
    let active := List.filter (fun r => String.eqb r.(role_status) "active") roles in
    let ordered := py_sorted (key_leb_of role_id) active in
    match find (fun r => any_matches r.(deny) request.(permission)) ordered with
    | Some role => refuse EXPLICIT_DENY [role.(role_id)]
    | None =>
        let granting := List.filter (fun r => any_matches r.(permissions) request.(permission)) ordered in
        match granting with
        | [] => refuse DEFAULT_DENY []
        | _ :: _ =>
            let ok := List.filter (in_scope request) granting in
            let first_scope_reason := head (omap (fun r => _scope_violation r request) granting) in
            match ok with
            | [] => refuse (default SCOPE_RESOURCE first_scope_reason) (role_id <$> granting)
            | _ :: _ => {|
                decision := ALLOW; reason := "ALLOW"; matched_roles := role_id <$> ok;
                needs_human_approval := existsb (human_gate request) ok |}
            end
        end
    end.

(** ** What a decision means *)

(** The permissions a pattern stands for. *)
Definition covers (pattern p : string) : Prop :=
  pattern = "*" \/ pattern = p \/ exists g t, pattern = g +:+ ".*" /\ p = g +:+ "." +:+ t.

Definition active (r : Role) : Prop := r.(role_status) = "active".
Definition denies (r : Role) (p : string) : Prop := exists q, q ∈ r.(deny) /\ covers q p.
Definition grants (r : Role) (p : string) : Prop := exists q, q ∈ r.(permissions) /\ covers q p.
Definition gated (r : Role) (p : string) : Prop :=
  exists q, q ∈ r.(constraints).(requires_human_approval) /\ covers q p.

Definition allows_value (xs : option (gset string)) (x : option string) : Prop :=
  forall s, xs = Some s -> exists v, x = Some v /\ v ∈ s.

Definition within_scope (r : Role) (q : ActionRequest) : Prop :=
  allows_value r.(constraints).(domains) q.(domain) /\
  (q.(side_effect) = true -> r.(constraints).(side_effects) <> "deny") /\
  allows_value r.(constraints).(channels) q.(channel_id) /\
  allows_value r.(constraints).(resources) q.(resource).

(** The role takes part in allowing the request. *)
Definition supports (q : ActionRequest) (r : Role) : Prop :=
  active r /\ grants r q.(permission) /\ within_scope r q.

(** ** Lemmas *)

Lemma append_cons c g p : String c g +:+ p = String c (g +:+ p).
Proof. reflexivity. Qed.

Lemma ends_with_spec p s : ends_with p s = true <-> exists g, s = g +:+ p.
Proof.
  split.
  - induction s as [|c s IH]; cbn; rewrite orb_true_iff, String.eqb_eq.
    + intros [->|H]; [by exists EmptyString|done].
    + intros [->|H]; [by exists EmptyString|]. destruct (IH H) as [g ->]. by exists (String c g).
  - intros [g ->]. induction g as [|c g IH].
    + change (EmptyString +:+ p) with p. destruct p as [|c p]; [done|].
      cbn [ends_with]. by rewrite String.eqb_refl.
    + rewrite append_cons. cbn [ends_with]. by rewrite IH, orb_true_r.
Qed.

Lemma substring_app g p : String.substring 0 (String.length g) (g +:+ p) = g.
Proof.
  induction g as [|c g IH]; [by destruct p|]. rewrite append_cons. cbn [String.length String.substring].
  by rewrite IH.
Qed.

Lemma length_append g p : String.length (g +:+ p) = (String.length g + String.length p)%nat.
Proof.
  induction g as [|c g IH]; [done|]. rewrite append_cons. cbn [String.length]. by rewrite IH.
Qed.

Lemma append_assoc_str a b c : (a +:+ b) +:+ c = a +:+ (b +:+ c).
Proof. induction a as [|x a IH]; [done|]. by rewrite !append_cons, IH. Qed.

Lemma drop_last_star g : drop_last 1 (g +:+ ".*") = g +:+ ".".
Proof.
  unfold drop_last. rewrite length_append. cbn [String.length].
  replace (String.length g + 2 - 1)%nat with (String.length (g +:+ ".")) by (rewrite length_append; cbn; lia).
  change ".*" with ("." +:+ "*"). rewrite <- append_assoc_str. apply substring_app.
Qed.

Lemma append_inj_l g t u : g +:+ t = g +:+ u -> t = u.
Proof. induction g as [|c g IH]; [done|]. rewrite !append_cons. intros [= H]. by apply IH. Qed.

Lemma append_star_inj g g' : g +:+ ".*" = g' +:+ ".*" -> g = g'.
Proof.
  intros H. pose proof (f_equal (drop_last 2) H) as H2. unfold drop_last in H2.
  rewrite !length_append in H2. cbn [String.length] in H2. rewrite !Nat.add_sub in H2.
  by rewrite !substring_app in H2.
Qed.

Lemma permission_matches_spec q p : permission_matches q p = true <-> covers q p.
Proof.
  unfold permission_matches, covers. destruct (String.eqb_spec q "*"); [naive_solver|].
  destruct (ends_with ".*" q) eqn:E.
  - apply ends_with_spec in E as [g ->]. rewrite drop_last_star, starts_with_spec. split.
    + intros [t ->]. right. right. exists g, t. by rewrite append_assoc_str.
    + intros [?|[<-|(g' & t & ->%append_star_inj & ->)]]; [done|..].
      * exists "*". by rewrite append_assoc_str.
      * exists t. by rewrite append_assoc_str.
  - rewrite String.eqb_eq. split; [by eauto|].
    intros [?|[?|(g & t & -> & _)]]; [done..|].
    assert (ends_with ".*" (g +:+ ".*") = true) by (apply ends_with_spec; by eexists). congruence.
Qed.

Lemma any_matches_spec ps p : any_matches ps p = true <-> exists q, q ∈ ps /\ covers q p.
Proof.
  unfold any_matches. rewrite existsb_exists. split.
  - intros (q & Hin & Hq%permission_matches_spec). exists q.
    by rewrite <- list_elem_of_In, elem_of_elements in Hin.
  - intros (q & Hin & Hq%permission_matches_spec). exists q.
    by rewrite <- list_elem_of_In, elem_of_elements.
Qed.

Lemma outside_spec xs x : outside xs x = false <-> allows_value xs x.
Proof.
  unfold outside, allows_value. destruct xs as [s|]; [|naive_solver].
  destruct x as [v|]; [rewrite bool_decide_eq_false|]; split; try done.
  - intros H%dec_stable s' [= <-]. eauto.
  - intros H. destruct (H s eq_refl) as (v' & [= <-] & Hv). by intros [].
  - intros H. by destruct (H s eq_refl) as (v' & ? & _).
Qed.

Lemma in_scope_spec q r : in_scope q r = true <-> within_scope r q.
Proof.
  unfold in_scope, _scope_violation, within_scope. rewrite <- !outside_spec.
  destruct (outside _ _); [naive_solver|].
  destruct (String.eqb r.(constraints).(side_effects) "deny" && q.(side_effect)) eqn:E.
  { apply andb_true_iff in E as [Hd%String.eqb_eq He]. split; [done|].
    intros (_ & H & _). by destruct (H He). }
  assert (q.(side_effect) = true -> r.(constraints).(side_effects) <> "deny") as Hse.
  { intros He Hd. rewrite Hd, He in E. done. }
  destruct (outside _ q.(channel_id)); [split; [done|by intros (_ & _ & ? & _)]|].
  destruct (outside _ q.(resource)); [split; [done|by intros (_ & _ & _ & ?)]|]. done.
Qed.

Lemma human_gate_spec q r : human_gate q r = true <-> gated r q.(permission).
Proof.
  unfold human_gate, gated. rewrite orb_true_iff, any_matches_spec, bool_decide_eq_true.
  split; [|by eauto]. intros [H|H]; [|done]. exists q.(permission). split; [done|].
  right. by left.
Qed.

Definition ordered_active (roles : list Role) : list Role :=
  py_sorted (key_leb_of role_id) (List.filter (fun r => String.eqb r.(role_status) "active") roles).

Lemma elem_filter_bool {A} (f : A -> bool) x l : x ∈ List.filter f l <-> f x = true /\ x ∈ l.
Proof. rewrite !list_elem_of_In, filter_In. tauto. Qed.

Lemma ordered_active_elem roles r : r ∈ ordered_active roles <-> r ∈ roles /\ active r.
Proof.
  unfold ordered_active, active. rewrite py_sorted_elem, elem_filter_bool, String.eqb_eq. tauto.
Qed.

(** The roles that allow the request, in the order of their identifiers. *)
Definition supporters (roles : list Role) (q : ActionRequest) : list Role :=
  List.filter (in_scope q)
    (List.filter (fun r => any_matches r.(permissions) q.(permission)) (ordered_active roles)).

Lemma supporters_elem roles q r : r ∈ supporters roles q <-> r ∈ roles /\ supports q r.
Proof.
  unfold supporters, supports, grants.
  rewrite !elem_filter_bool, ordered_active_elem, in_scope_spec, any_matches_spec. tauto.
Qed.

Lemma no_denier roles q :
  find (fun r => any_matches r.(deny) q.(permission)) (ordered_active roles) = None <->
  forall r, r ∈ roles -> active r -> ~ denies r q.(permission).
Proof.
  split.
  - intros Hn r Hin Ha Hd%any_matches_spec. assert (In r (ordered_active roles)) as Hr
      by (apply list_elem_of_In; by rewrite ordered_active_elem).
    apply (find_none _ _ Hn) in Hr. congruence.
  - intros H. destruct (find _ _) as [r|] eqn:E; [|done]. exfalso.
    apply find_some in E as [Hin Hd%any_matches_spec].
    apply list_elem_of_In, ordered_active_elem in Hin as [Hin Ha]. by apply (H r Hin Ha).
Qed.

Lemma evaluate_cases vocab roles q :
  let d := evaluate vocab roles q in
  (in_vocabulary vocab q.(permission) = false /\ d = refuse UNKNOWN_PERMISSION []) \/
  in_vocabulary vocab q.(permission) = true /\
  ((exists r, r ∈ roles /\ active r /\ denies r q.(permission) /\
     d = refuse EXPLICIT_DENY [r.(role_id)]) \/
   (forall r, r ∈ roles -> active r -> ~ denies r q.(permission)) /\
   (((forall r, r ∈ roles -> active r -> ~ grants r q.(permission)) /\ d = refuse DEFAULT_DENY []) \/
    (exists r v, r ∈ roles /\ active r /\ grants r q.(permission) /\ supporters roles q = [] /\
       _scope_violation r q = Some v /\ d.(decision) = DENY /\ d.(reason) = reason_value v /\
       d.(needs_human_approval) = false) \/
    (supporters roles q <> [] /\ d = {| decision := ALLOW; reason := "ALLOW";
       matched_roles := role_id <$> supporters roles q;
       needs_human_approval := existsb (human_gate q) (supporters roles q) |}))).
Proof.
  cbn zeta. unfold evaluate. destruct (in_vocabulary vocab _); cbn [negb]; [right|by left].
  split; [done|]. fold (ordered_active roles).
  destruct (find _ (ordered_active roles)) as [r|] eqn:Ed.
  { left. exists r. apply find_some in Ed as [Hin Hd%any_matches_spec].
    apply list_elem_of_In, ordered_active_elem in Hin as [Hin Ha]. done. }
  right. split; [by apply no_denier|]. fold (supporters roles q).
  pose proof (fun r => supporters_elem roles q r) as Hs. unfold supporters in *.
  destruct (List.filter _ (ordered_active roles)) as [|g gs] eqn:Eg.
  { left. split; [|done]. intros r Hin Ha Hg.
    assert (r ∈ @nil Role) as Hr by (rewrite <- Eg; rewrite elem_filter_bool, ordered_active_elem;
      split; [by apply any_matches_spec|done]). by apply elem_of_nil in Hr. }
  right. destruct (List.filter (in_scope q) (g :: gs)) as [|s ss] eqn:Es; [left|by right].
  assert (g ∈ roles /\ active g /\ grants g q.(permission)) as (Hin & Ha & Hg).
  { assert (g ∈ g :: gs) as H by left. rewrite <- Eg, elem_filter_bool, ordered_active_elem in H.
    destruct H as (H & ? & ?). split_and!; [done..|by apply any_matches_spec]. }
  cbn in Es. destruct (in_scope q g) eqn:Eg2; [done|]. unfold in_scope in Eg2.
  destruct (_scope_violation g q) as [v|] eqn:Ev; [|done]. exists g, v. cbn. by rewrite Ev.
Qed.

Lemma refuse_reason vocab roles q v m :
  evaluate vocab roles q = refuse v m -> (evaluate vocab roles q).(decision) <> ALLOW.
Proof. by intros ->. Qed.

Lemma supporters_nil roles q :
  supporters roles q <> [] <-> exists r, r ∈ roles /\ supports q r.
Proof.
  split.
  - destruct (supporters roles q) as [|r rs] eqn:E; [done|]. intros _. exists r.
    apply supporters_elem. rewrite E. left.
  - intros (r & Hr%supporters_elem) E. rewrite E in Hr. by apply elem_of_nil in Hr.
Qed.

Lemma evaluate_allowed vocab roles q :
  let d := evaluate vocab roles q in
  (d.(decision) = ALLOW <->
     (forall v, vocab = Some v -> q.(permission) ∈ v) /\
     (forall r, r ∈ roles -> active r -> ~ denies r q.(permission)) /\
     exists r, r ∈ roles /\ supports q r) /\
  (d.(decision) = ALLOW ->
     forall i, i ∈ d.(matched_roles) <-> exists r, r ∈ roles /\ supports q r /\ r.(role_id) = i).
Proof.
  cbn zeta. assert (in_vocabulary vocab q.(permission) = true <->
    forall v, vocab = Some v -> q.(permission) ∈ v) as Hv.
  { destruct vocab as [v|]; cbn; [rewrite bool_decide_eq_true|]; naive_solver. }
  rewrite <- Hv, <- supporters_nil. clear Hv.
  destruct (evaluate_cases vocab roles q) as
    [[Hv ->]|[Hv [(r & Hin & Ha & Hd & ->)|[Hnd [[Hg ->]|[(r & w & Hin & Ha & Hg & Hs & _ & Hdec & _)|
      [Hs ->]]]]]]]; cbn.
  - split; [|done]. split; [done|]. intros (? & _). congruence.
  - split; [|done]. split; [done|]. intros (_ & H & _). by destruct (H r Hin Ha).
  - split; [|done]. split; [done|]. intros (_ & _ & (r & Hin & Ha & Hgr & _)%supporters_nil).
    by destruct (Hg r Hin Ha).
  - rewrite Hdec, Hs. split; [|done]. split; [done|]. by intros (_ & _ & ?).
  - split; [by split|]. intros _ i. rewrite list_elem_of_fmap. setoid_rewrite supporters_elem. naive_solver.
Qed.

(** ** Properties of the engine *)

(** Deny by default, explicit deny first. A request is allowed exactly when
    its permission is in the vocabulary, no active role denies it and some
    active role grants it within its domain, side-effect, channel and resource
    restrictions; then the matched roles are exactly the supporting ones, and a
    human approval is needed exactly when one of those gates the permission. *)
Theorem evaluate_allows_exactly vocab roles q :
  let d := evaluate vocab roles q in
  (d.(decision) = ALLOW <->
     (forall v, vocab = Some v -> q.(permission) ∈ v) /\
     (forall r, r ∈ roles -> active r -> ~ denies r q.(permission)) /\
     exists r, r ∈ roles /\ supports q r) /\
  (d.(decision) = ALLOW ->
     (forall i, i ∈ d.(matched_roles) <-> exists r, r ∈ roles /\ supports q r /\ r.(role_id) = i) /\
     (d.(needs_human_approval) = true <->
        exists r, r ∈ roles /\ supports q r /\ gated r q.(permission))).
Proof.
  cbn zeta. destruct (evaluate_allowed vocab roles q) as [Hd Hm]. split; [exact Hd|].
  intros Ha. split; [by apply Hm|].
  destruct (evaluate_cases vocab roles q) as
    [[_ E]|[_ [(r & _ & _ & _ & E)|[_ [[_ E]|[(r & w & _ & _ & _ & _ & _ & E & _)|[_ E]]]]]]];
    try (rewrite E in Ha; done).
  rewrite E. cbn. rewrite existsb_exists. setoid_rewrite <- list_elem_of_In.
  setoid_rewrite supporters_elem. setoid_rewrite human_gate_spec. naive_solver.
Qed.

(** The decision depends on the set of roles only, not on the order in
    which the repository returns them. *)
Theorem evaluate_order_independent vocab roles roles' q :
  NoDup (role_id <$> roles) -> roles ≡ₚ roles' -> evaluate vocab roles q = evaluate vocab roles' q.
Proof.
  intros Hnd Hp. unfold evaluate.
  assert (py_sorted (key_leb_of role_id) (List.filter (fun r => String.eqb r.(role_status) "active") roles) =
    py_sorted (key_leb_of role_id) (List.filter (fun r => String.eqb r.(role_status) "active") roles'))
    as ->; [|done].
  assert (forall l, List.filter (fun r => String.eqb r.(role_status) "active") l =
    filter (fun r => String.eqb r.(role_status) "active" = true) l) as Hf.
  { intros l. induction l as [|r l IH]; [done|]. rewrite filter_cons. cbn. rewrite IH.
    by destruct (String.eqb _ _). }
  rewrite !Hf. apply sorted_by_key_eq; [|by rewrite Hp].
  eapply sublist_NoDup; [exact Hnd|]. apply fmap_sublist, sublist_filter.
Qed.

Definition reader : Role := {|
  role_id := "role-reader"; version := 1; permissions := {["task.*"]}; deny := {["task.delete"]};
  constraints := {| domains := Some {["ops"]}; side_effects := "deny"; requires_human_approval := {["task.cancel"]};
    channels := None; resources := None; max_risk := "MEDIUM" |};
  role_status := "active" |}.

Definition admin : Role := {|
  role_id := "role-admin"; version := 2; permissions := {["admin.audit"]}; deny := ∅;
  constraints := {| domains := None; side_effects := "allow"; requires_human_approval := ∅;
    channels := None; resources := None; max_risk := "CRITICAL" |};
  role_status := "active" |}.

Definition ask (p : string) (d : option string) (se : bool) : ActionRequest := {|
  permission := p; domain := d; side_effect := se; channel_id := None; resource := None |}.

Example evaluate_examples :
  let e p d se := let x := evaluate None [reader; admin] (ask p d se) in (x.(reason), x.(matched_roles)) in
  e "task.cancel" (Some "ops") false = ("ALLOW", ["role-reader"]) /\
  e "task.cancel" None false = ("SCOPE_DOMAIN", ["role-reader"]) /\
  e "task.cancel" (Some "ops") true = ("SCOPE_SIDE_EFFECT", ["role-reader"]) /\
  e "task.delete" (Some "ops") false = ("EXPLICIT_DENY", ["role-reader"]) /\
  e "taskforce.x" None false = ("DEFAULT_DENY", []).
Proof. vm_compute. done. Qed.

Lemma evaluate_order_independent_witness :
  evaluate None [reader; admin] (ask "task.cancel" (Some "ops") false) =
  evaluate None [admin; reader] (ask "task.cancel" (Some "ops") false).
Proof.
  apply evaluate_order_independent; [by apply (bool_decide_unpack _); vm_compute|].
  apply Permutation_swap.
Defined.
