(* ===== verification/Catalog.v ===== *)
(** The permission and risk catalog ([server/policy/catalog.py]): what the
    constructor of [PolicyCatalog] holds once the YAML files passed their
    schemas, its cross-reference check, the risk classification of actions and
    the default roles. A mapping whose order the code iterates is the list of
    its entries. *)

From S2P Require Import Prelude Policy.
Open Scope Z_scope.

Definition RISK_ORDER : list string := ["LOW"; "MEDIUM"; "HIGH"; "CRITICAL"].

(** [RISK_ORDER.index(risk)] *)
Fixpoint index_in (l : list string) (n : nat) (x : string) : res nat :=
  match l with
  | [] => Err "ValueError"
  | y :: ys => if String.eqb x y then Ok n else index_in ys (S n) x
  end.

Definition risk_index (risk : string) : res nat := index_in RISK_ORDER 0 risk.

Record RiskDecision := {
  rd_action : string; action_class : string; risk : string; approval : string; unclassified : bool }.

Record ActionClass := { class_risk : string; class_approval : string }.
Record ActionSpec := { spec_class : string; spec_permission : string }.

Record RoleSpec := {
  spec_permissions : list string;
  spec_deny : list string;
  spec_max_risk : string;
  spec_side_effects : string;
  spec_requires_human_approval : list string;
  spec_domains : option (list string);
  spec_channels : option (list string) }.

Record PolicyCatalog := {
  listed : list (string * bool);  (* permissions.yaml: permission, "minimum" *)
  action_classes : gmap string ActionClass;
  action_specs : list (string * ActionSpec);
  unclassified_default : string;
  quorums : gmap string Z;
  human_only_from : string;
  capabilities : list (string * string);  (* capability id, its permission *)
  roles_raw : list (string * RoleSpec) }.

(** [classes[name]] *)
Definition get_item {V} (m : gmap string V) (k : string) : res V :=
  match m !! k with Some v => Ok v | None => Err "KeyError" end.

Definition vocabulary (c : PolicyCatalog) : gset string := list_to_set c.(listed).*1.

Definition minimum_vocabulary (c : PolicyCatalog) : gset string :=
  list_to_set (List.filter (fun e => e.2) c.(listed)).*1.

Definition permission_in_vocabulary (pattern : string) (v : gset string) : bool :=
  if ends_with ".*" pattern then
    existsb (fun p => starts_with (drop_last 1 pattern) p) (elements v)
  else bool_decide (pattern ∈ v).

Definition check_pattern (c : PolicyCatalog) (pattern : string) : res unit :=
  guard_err (negb (permission_in_vocabulary pattern (vocabulary c))) "POLICY_PERMISSION_UNKNOWN" (Ok tt).

Definition check_action (c : PolicyCatalog) (e : string * ActionSpec) : res unit :=
  guard_err (negb (bool_decide (is_Some (c.(action_classes) !! e.2.(spec_class)))))
    "POLICY_ACTION_UNCLASSIFIED"
  (guard_err (negb (String.eqb e.2.(spec_permission) "none") &&
      negb (bool_decide (e.2.(spec_permission) ∈ vocabulary c))) "POLICY_PERMISSION_UNKNOWN" (Ok tt)).

Definition check_capability (c : PolicyCatalog) (e : string * string) : res unit :=
  guard_err (negb (bool_decide (e.2 ∈ vocabulary c))) "POLICY_PERMISSION_UNKNOWN" (Ok tt).

Definition check_role (c : PolicyCatalog) (e : string * RoleSpec) : res unit :=
  for_each (check_pattern c) e.2.(spec_permissions) ≫= fun _ =>
  for_each (check_pattern c) e.2.(spec_deny) ≫= fun _ =>
  for_each (check_pattern c) e.2.(spec_requires_human_approval).

Definition _validate_cross_references (c : PolicyCatalog) : res unit :=
  for_each (check_action c) c.(action_specs) ≫= fun _ =>
  for_each (check_capability c) c.(capabilities) ≫= fun _ =>
  for_each (check_role c) c.(roles_raw).

(** [PolicyCatalog(...)] on files that passed their schemas. *)
Definition build (raw : PolicyCatalog) : res PolicyCatalog :=
  _validate_cross_references raw ≫= fun _ => Ok raw.

Definition actions (c : PolicyCatalog) : list (string * ActionSpec) := c.(action_specs).

Definition risk_for (c : PolicyCatalog) (action : string) (side_effect : bool) : res RiskDecision :=
  match dict_get action c.(action_specs) with
  | None => Ok {|
      rd_action := action; action_class := "unclassified"; risk := c.(unclassified_default);
      approval := "human_1"; unclassified := true |}
  | Some spec =>
      cls ← get_item c.(action_classes) spec.(spec_class);
      raised ← (if side_effect then
        i ← risk_index cls.(class_risk); j ← risk_index "MEDIUM"; Ok (i <? j)%nat else Ok false);
      let '(r, a) := if raised : bool then ("MEDIUM", "channel_policy")
                     else (cls.(class_risk), cls.(class_approval)) in
      Ok {| rd_action := action; action_class := spec.(spec_class); risk := r; approval := a;
            unclassified := false |}
  end.

Definition quorum (c : PolicyCatalog) (risk : string) : res Z :=
  guard_err (negb (mem risk RISK_ORDER)) "POLICY_RISK_UNKNOWN" (get_item c.(quorums) risk).

Definition human_only (c : PolicyCatalog) (risk : string) : res bool :=
  i ← risk_index risk; j ← risk_index c.(human_only_from); Ok (j <=? i)%nat.

Definition role_of_spec (e : string * RoleSpec) : Role := {|
  role_id := e.1; version := 1;
  permissions := list_to_set e.2.(spec_permissions);
  deny := list_to_set e.2.(spec_deny);
  constraints := {|
    domains := list_to_set <$> e.2.(spec_domains);
    side_effects := e.2.(spec_side_effects);
    requires_human_approval := list_to_set e.2.(spec_requires_human_approval);
    channels := list_to_set <$> e.2.(spec_channels);
    resources := None;
    max_risk := e.2.(spec_max_risk) |};
  role_status := "active" |}.

Definition default_roles (c : PolicyCatalog) : list Role := role_of_spec <$> c.(roles_raw).

Definition role (c : PolicyCatalog) (rid : string) : res Role :=
  match find (fun r => String.eqb r.(role_id) rid) (default_roles c) with
  | Some r => Ok r
  | None => Err "POLICY_ROLE_UNKNOWN"
  end.

(** [catalog.engine().evaluate(...)] *)
Definition engine (c : PolicyCatalog) : list Role -> ActionRequest -> PolicyDecision :=
  evaluate (Some (vocabulary c)).

(** ** What the schemas of the policy files guarantee *)

Record schema_valid (c : PolicyCatalog) : Prop := {
  sv_class k v : c.(action_classes) !! k = Some v -> v.(class_risk) ∈ RISK_ORDER;
  sv_default : c.(unclassified_default) = "HIGH";
  sv_quorum r : r ∈ RISK_ORDER -> is_Some (c.(quorums) !! r);
  sv_human : c.(human_only_from) ∈ RISK_ORDER;
  sv_max_risk e : e ∈ c.(roles_raw) -> e.2.(spec_max_risk) ∈ RISK_ORDER;
  sv_keys : NoDup c.(action_specs).*1 }.

(** ** Lemmas *)

Lemma risk_index_ok r : r ∈ RISK_ORDER <-> exists i, risk_index r = Ok i.
Proof.
  unfold risk_index, RISK_ORDER. rewrite !elem_of_cons, elem_of_nil. split.
  - intros [->|[->|[->|[->|[]]]]]; by eexists.
  - intros [i H]. cbn [index_in] in H.
    destruct (String.eqb_spec r "LOW"); [by left|].
    destruct (String.eqb_spec r "MEDIUM"); [by right; left|].
    destruct (String.eqb_spec r "HIGH"); [by right; right; left|].
    destruct (String.eqb_spec r "CRITICAL"); [by right; right; right; left|done].
Qed.

Lemma build_spec raw c :
  build raw = Ok c <-> c = raw /\
    Forall (fun e => check_action c e = Ok tt) c.(action_specs) /\
    Forall (fun e => check_capability c e = Ok tt) c.(capabilities) /\
    Forall (fun e => check_role c e = Ok tt) c.(roles_raw).
Proof.
  unfold build, _validate_cross_references. rewrite <- !for_each_ok. split.
  - intros (u & H & [= <-])%res_bind_ok. split; [done|].
    apply res_bind_ok in H as ([] & Ha & H). apply res_bind_ok in H as ([] & Hc & H).
    by destruct u.
  - intros (-> & Ha & Hc & Hr). rewrite Ha. cbn. rewrite Hc. cbn. by rewrite Hr.
Qed.

Lemma check_pattern_covers c p :
  check_pattern c p = Ok tt -> p = "*" \/ exists q, q ∈ vocabulary c /\ covers p q.
Proof.
  unfold check_pattern. intros [H _]%guard_err_ok. apply negb_false_iff in H. right.
  unfold permission_in_vocabulary in H. destruct (ends_with ".*" p) eqn:E.
  - apply existsb_exists in H as (q & Hin & Hq). exists q.
    split; [by rewrite <- list_elem_of_In, elem_of_elements in Hin|].
    apply permission_matches_spec. unfold permission_matches. rewrite E. by destruct (String.eqb p "*").
  - apply bool_decide_eq_true in H. exists p. split; [done|]. right. by left.
Qed.

Lemma check_role_patterns c e p :
  check_role c e = Ok tt ->
  p ∈ e.2.(spec_permissions) ++ e.2.(spec_deny) ++ e.2.(spec_requires_human_approval) ->
  check_pattern c p = Ok tt.
Proof.
  unfold check_role. intros (u1 & H1 & H)%res_bind_ok. apply res_bind_ok in H as (u2 & H2 & H3).
  destruct u1, u2. rewrite for_each_ok, Forall_forall in H1, H2, H3. rewrite !elem_of_app. naive_solver.
Qed.

Lemma human_only_ok c r : schema_valid c -> r ∈ RISK_ORDER -> exists h, human_only c r = Ok h.
Proof.
  intros Hs [i Hi]%risk_index_ok. pose proof (sv_human _ Hs) as [j Hj]%risk_index_ok.
  eexists. unfold human_only. rewrite Hi. cbn [mbind res_bind]. by rewrite Hj.
Qed.

Lemma risk_for_ok raw c action se :
  schema_valid raw -> build raw = Ok c -> exists d, risk_for c action se = Ok d /\ d.(risk) ∈ RISK_ORDER.
Proof.
  intros Hs (-> & Ha & _ & _)%build_spec. unfold risk_for.
  destruct (dict_get action _) as [spec|] eqn:Eg.
  2:{ eexists. split; [done|]. cbn. rewrite (sv_default _ Hs). by apply (bool_decide_unpack _). }
  pose proof (proj1 (Forall_forall _ _) Ha _ (dict_get_in _ _ _ Eg))
    as [[cls Hc]%negb_false_iff%bool_decide_eq_true _]%guard_err_ok.
  cbn in Hc. unfold get_item. rewrite Hc. cbn [mbind res_bind].
  pose proof (sv_class _ Hs _ _ Hc) as Hcls. pose proof Hcls as [j Hj]%risk_index_ok.
  destruct se; [rewrite Hj; cbn; destruct (_ <=? _)%nat|]; eexists; (split; [done|]); cbn; try done.
  by apply (bool_decide_unpack _).
Qed.

(** ** Properties *)

(** A loaded catalog classifies everything. Once the cross-references are
    checked, the classification of any action succeeds with a known risk: an
    action the catalog does not list is HIGH and needs a human, a listed one
    has the risk and approval of its class, except that a side effect raises
    LOW to MEDIUM; a quorum and the human-only rule exist for that risk. *)
Theorem catalog_classifies raw c action se :
  schema_valid raw -> build raw = Ok c ->
  exists d i q h,
    risk_for c action se = Ok d /\ risk_index d.(risk) = Ok i /\
    quorum c d.(risk) = Ok q /\ human_only c d.(risk) = Ok h /\
    (se = true -> (1 <= i)%nat) /\
    (d.(unclassified) = true <-> action ∉ c.(action_specs).*1) /\
    (d.(unclassified) = true -> d.(risk) = "HIGH" /\ d.(approval) = "human_1") /\
    (forall spec, (action, spec) ∈ c.(action_specs) -> exists cls j,
       c.(action_classes) !! spec.(spec_class) = Some cls /\ risk_index cls.(class_risk) = Ok j /\
       i = (if se then Nat.max j 1 else j) /\
       (i = j -> d.(risk) = cls.(class_risk) /\ d.(approval) = cls.(class_approval)) /\
       (i <> j -> d.(risk) = "MEDIUM" /\ d.(approval) = "channel_policy")).
Proof.
  intros Hs (-> & Ha & _ & _)%build_spec.
  assert (forall r, r ∈ RISK_ORDER -> exists i q h, risk_index r = Ok i /\
    quorum raw r = Ok q /\ human_only raw r = Ok h) as Hrisk.
  { intros r Hr. pose proof Hr as [i Hi]%risk_index_ok. destruct (sv_quorum _ Hs r Hr) as [q Hq].
    pose proof (sv_human _ Hs) as [j Hj]%risk_index_ok.
    eexists i, q, _. unfold quorum, human_only, get_item. rewrite (proj2 (mem_spec _ _)) by done.
    rewrite Hq, Hi. cbn [mbind res_bind]. rewrite Hj. done. }
  unfold risk_for. destruct (dict_get action (action_specs raw)) as [spec|] eqn:Eg.
  2:{ destruct (Hrisk "HIGH") as (i & q & h & Hi & Hq & Hh); [by apply (bool_decide_unpack _)|].
      rewrite (sv_default _ Hs). eexists _, i, q, h. cbn. split_and!; try done.
      - intros _. by injection Hi as <-; lia.
      - split; [by intros _; apply dict_get_none|done].
      - intros spec Hin. apply dict_get_none in Eg. destruct Eg. apply list_elem_of_fmap.
        by exists (action, spec). }
  pose proof (dict_get_in _ _ _ Eg) as Hin.
  pose proof (proj1 (Forall_forall _ _) Ha _ Hin) as [[cls Hc]%negb_false_iff%bool_decide_eq_true _]%guard_err_ok.
  cbn in Hc. unfold get_item at 1. rewrite Hc. cbn [mbind res_bind].
  pose proof (sv_class _ Hs _ _ Hc) as Hcls. pose proof Hcls as [j Hj]%risk_index_ok.
  assert (forall spec', (action, spec') ∈ action_specs raw -> spec' = spec) as Huniq.
  { intros spec' Hin'. pose proof (sv_keys _ Hs) as Hnd.
    apply list_elem_of_lookup in Hin as [a Ha1], Hin' as [b Hb1].
    assert (a = b) as ->; [|congruence].
    eapply NoDup_lookup; [exact Hnd|by rewrite list_lookup_fmap, Ha1|by rewrite list_lookup_fmap, Hb1]. }
  assert (action ∈ (action_specs raw).*1) as Hmem by (apply list_elem_of_fmap; by exists (action, spec)).
  destruct (decide (se = true /\ j = 0%nat)) as [[-> ->]|Hk].
  - rewrite Hj. cbn. destruct (Hrisk "MEDIUM") as (i & q & h & Hi & Hq & Hh); [by apply (bool_decide_unpack _)|].
    eexists _, i, q, h. split; [done|]. cbn. injection Hi as <-. split_and!; try done.
    intros spec' ->%Huniq. exists cls, 0%nat. by split_and!.
  - destruct (Hrisk _ Hcls) as (i & q & h & Hi & Hq & Hh). assert (i = j) as -> by congruence.
    assert ((if se then i ← risk_index cls.(class_risk); j ← risk_index "MEDIUM"; Ok (i <? j)%nat
             else Ok false) = Ok false) as ->.
    { destruct se; [|done]. rewrite Hj. destruct j; [by destruct Hk|done]. }
    eexists _, j, q, h. split; [done|]. cbn. split_and!; try done.
    + intros ->. destruct j; [by destruct Hk|lia].
    + intros spec' ->%Huniq. exists cls, j. split_and!; try done.
      destruct se; [|done]. destruct j; [by destruct Hk|lia].
Qed.

(** A loaded catalog has no dead pattern: every permission, denial and
    human-approval pattern of a default role covers a permission of the
    vocabulary, so the engine of the catalog can act on it. *)
Theorem default_roles_in_vocabulary raw c r p :
  build raw = Ok c -> r ∈ default_roles c ->
  p ∈ r.(permissions) ∪ r.(deny) ∪ r.(constraints).(requires_human_approval) -> p <> "*" ->
  exists q, q ∈ vocabulary c /\ permission_matches p q = true.
Proof.
  intros (-> & _ & _ & Hr)%build_spec (e & -> & He)%list_elem_of_fmap Hp Hne.
  rewrite Forall_forall in Hr. specialize (Hr e He).
  destruct (check_pattern_covers raw p) as [?|(q & Hq & Hc)]; [|done|].
  - apply (check_role_patterns _ _ _ Hr). cbn in Hp. set_solver.
  - exists q. split; [done|by apply permission_matches_spec].
Qed.

(** ** A small catalog *)

Definition no_role : RoleSpec := {|
  spec_permissions := ["task.*"; "work.poll"]; spec_deny := ["task.complete"]; spec_max_risk := "MEDIUM";
  spec_side_effects := "allow"; spec_requires_human_approval := []; spec_domains := None;
  spec_channels := None |}.

(** An excerpt of [policy/risk-rules.yaml] and [policy/permissions.yaml]. *)
Definition excerpt : PolicyCatalog := {|
  listed := [("task.progress", true); ("task.complete", true); ("work.poll", true); ("ops.manage", true)];
  action_classes := list_to_map [
    ("read_query", {| class_risk := "LOW"; class_approval := "none" |});
    ("internal_write", {| class_risk := "LOW"; class_approval := "none" |});
    ("external_send", {| class_risk := "HIGH"; class_approval := "human_1" |});
    ("production_change", {| class_risk := "HIGH"; class_approval := "human_1" |})];
  action_specs := [
    ("tool:task_progress", {| spec_class := "internal_write"; spec_permission := "task.progress" |});
    ("tool:work_poll", {| spec_class := "read_query"; spec_permission := "work.poll" |});
    ("command:task.progress", {| spec_class := "internal_write"; spec_permission := "task.progress" |});
    ("api:task_progress", {| spec_class := "internal_write"; spec_permission := "task.progress" |});
    ("api:external_api_call", {| spec_class := "external_send"; spec_permission := "task.progress" |});
    ("api:mail_send", {| spec_class := "external_send"; spec_permission := "task.progress" |});
    ("api:backup_run", {| spec_class := "internal_write"; spec_permission := "ops.manage" |});
    ("api:maintenance_enter", {| spec_class := "production_change"; spec_permission := "ops.manage" |})];
  unclassified_default := "HIGH";
  quorums := list_to_map [("LOW", 0); ("MEDIUM", 1); ("HIGH", 1); ("CRITICAL", 2)];
  human_only_from := "HIGH";
  capabilities := [("cap.task", "task.progress")];
  roles_raw := [("role-agent-worker", no_role)] |}.

Lemma excerpt_valid : schema_valid excerpt.
Proof.
  assert (map_Forall (fun _ v => v.(class_risk) ∈ RISK_ORDER) excerpt.(action_classes)) as Hc
    by (apply (bool_decide_unpack _); vm_compute; exact I).
  split; [exact Hc|cbn..].
  - done.
  - intros r Hr. unfold RISK_ORDER in Hr.
    repeat (apply elem_of_cons in Hr as [->|Hr]; [by eexists|]). by apply elem_of_nil in Hr.
  - by apply (bool_decide_unpack _).
  - intros e [->|He]%elem_of_cons; [by apply (bool_decide_unpack _)|by apply elem_of_nil in He].
  - by apply (bool_decide_unpack _).
Qed.

Lemma catalog_classifies_witness :
  exists d, risk_for excerpt "api:reboot" true = Ok d /\ (d.(unclassified) = true -> d.(risk) = "HIGH").
Proof.
  destruct (catalog_classifies excerpt excerpt "api:reboot" true excerpt_valid eq_refl)
    as (d & _ & _ & _ & Hd & _ & _ & _ & _ & _ & Hu & _).
  exists d. split; [exact Hd|]. intros H. exact (proj1 (Hu H)).
Defined.

Lemma default_roles_in_vocabulary_witness :
  exists q, q ∈ vocabulary excerpt /\ permission_matches "task.*" q = true.
Proof.
  apply (default_roles_in_vocabulary excerpt excerpt (role_of_spec ("role-agent-worker", no_role))).
  - reflexivity.
  - left.
  - by apply (bool_decide_unpack _).
  - done.
Defined.
