(* ===== verification/Authority.v ===== *)
(** The committed policy state ([server/policy/repository.py]) and the
    authorization of a command ([server/policy/authorization.py], with the
    bridges of [server/application/authz.py] and [bus.py]). The tables are maps
    and lists of rows; a statement that breaks a key of a table raises
    "IntegrityError". SHA-256 is a parameter. *)

From S2P Require Import Prelude Policy Catalog Canonical.
Open Scope Z_scope.

(** * The authority rows *)

Record PrincipalInfo := {
  account_id : string;
  account_uuid : string;
  workspace_uuid : string;
  account_type : string;
  principal_status : string;
  agent_id : option string }.

(** The keys of a [constraints] document that [role_from_version] reads;
    [None] is an absent key. *)
Record RawConstraints := {
  raw_domains : option (list string);
  raw_side_effects : option string;
  raw_requires_human_approval : option (list string);
  raw_channels : option (list string);
  raw_resources : option (list string);
  raw_max_risk : option string }.

Record RoleRow := {
  role_workspace : string; display_name : string; current_version : Z; row_status : string }.

Record VersionRow := {
  v_permissions : list string;
  v_deny : list string;
  v_constraints : RawConstraints;
  v_policy_hash : ustr;
  v_event_id : option string;
  v_created_by : string }.

Record AssignmentRow := {
  a_account : string;
  a_role : string;
  a_scope : json;
  valid_from : Z;
  valid_to : option Z;
  assigned_by : string;
  a_event_id : option string;
  revoked_at : option Z;
  revoke_event_id : option string }.

Record Db := {
  accounts : gmap string PrincipalInfo;  (* with the agent of the account *)
  roles : gmap string RoleRow;
  role_versions : gmap (string * Z) VersionRow;
  assignments : list AssignmentRow;
  agent_capabilities : gset (string * string);
  channel_ids : gmap string string;  (* channels: id, channel_id *)
  channel_members : gmap (string * string) string (* channel, account: status *) }.

Definition with_roles (r : gmap string RoleRow) (v : gmap (string * Z) VersionRow) (db : Db) : Db := {|
  accounts := db.(accounts); roles := r; role_versions := v; assignments := db.(assignments);
  agent_capabilities := db.(agent_capabilities); channel_ids := db.(channel_ids);
  channel_members := db.(channel_members) |}.

Definition with_assignments (a : list AssignmentRow) (db : Db) : Db := {|
  accounts := db.(accounts); roles := db.(roles); role_versions := db.(role_versions); assignments := a;
  agent_capabilities := db.(agent_capabilities); channel_ids := db.(channel_ids);
  channel_members := db.(channel_members) |}.

Definition with_capabilities (c : gset (string * string)) (db : Db) : Db := {|
  accounts := db.(accounts); roles := db.(roles); role_versions := db.(role_versions);
  assignments := db.(assignments); agent_capabilities := c; channel_ids := db.(channel_ids);
  channel_members := db.(channel_members) |}.

(** ** Reads *)

Definition role_from_version (rid : string) (ver : Z) (perms dny : list string) (c : RawConstraints)
    (status : string) : Role := {|
  role_id := rid; version := ver; permissions := list_to_set perms; deny := list_to_set dny;
  constraints := {|
    domains := list_to_set <$> c.(raw_domains);
    side_effects := default "allow" c.(raw_side_effects);
    requires_human_approval := list_to_set (default [] c.(raw_requires_human_approval));
    channels := list_to_set <$> c.(raw_channels);
    resources := list_to_set <$> c.(raw_resources);
    max_risk := default "CRITICAL" c.(raw_max_risk) |};
  role_status := status |}.

Definition principal (db : Db) (acct : string) : option PrincipalInfo := db.(accounts) !! acct.

(** The assignment is in force at [now]. *)
Definition in_force (acct : string) (now : Z) (a : AssignmentRow) : bool :=
  String.eqb a.(a_account) acct && bool_decide (a.(revoked_at) = None) && (a.(valid_from) <=? now) &&
  match a.(valid_to) with None => true | Some t => now <? t end.

(** The role of an assignment at its current version, if the role is active. *)
Definition current_role (db : Db) (rid : string) : option Role :=
  r ← db.(roles) !! rid;
  v ← db.(role_versions) !! (rid, r.(current_version));
  if String.eqb r.(row_status) "active" && (0 <? r.(current_version))
  then Some (role_from_version rid r.(current_version) v.(v_permissions) v.(v_deny) v.(v_constraints)
    r.(row_status))
  else None.

Definition effective_roles (db : Db) (p : PrincipalInfo) (now : Z) : list Role :=
  py_sorted (key_leb_of role_id)
    (omap (fun a => current_role db a.(a_role))
      (List.filter (in_force p.(account_uuid) now) db.(assignments))).

Definition capability_ids (db : Db) (p : PrincipalInfo) : gset string :=
  match p.(agent_id) with
  | None => ∅
  | Some a => set_map snd (filter (fun e => e.1 = a) db.(agent_capabilities))
  end.

Definition is_channel_member (db : Db) (p : PrincipalInfo) (cid : string) : bool :=
  existsb (fun '(id, public) =>
    (String.eqb public cid || String.eqb id cid) &&
    bool_decide (db.(channel_members) !! (id, p.(account_uuid)) = Some "active"))
    (map_to_list db.(channel_ids)).

(** ** Hashes of policy *)

Definition jstr (s : string) : json := JStr (lit s).
Definition jstrs (l : list string) : json := JArr (jstr <$> l).

Definition constraints_json (c : RawConstraints) : json := JObj (
  (match c.(raw_domains) with Some l => [(lit "domains", jstrs l)] | None => [] end) ++
  (match c.(raw_side_effects) with Some s => [(lit "side_effects", jstr s)] | None => [] end) ++
  (match c.(raw_requires_human_approval) with
   | Some l => [(lit "requires_human_approval", jstrs l)] | None => [] end) ++
  (match c.(raw_channels) with Some l => [(lit "channels", jstrs l)] | None => [] end) ++
  (match c.(raw_resources) with Some l => [(lit "resources", jstrs l)] | None => [] end) ++
  (match c.(raw_max_risk) with Some s => [(lit "max_risk", jstr s)] | None => [] end)).

Definition py_sorted_str (l : list string) : list string := py_sorted String.leb l.

Definition version_leb (a b : string * Z) : bool :=
  if String.eqb a.1 b.1 then a.2 <=? b.2 else String.leb a.1 b.1.

Record PolicySnapshot := {
  snap_account : string;
  snap_role_versions : list (string * Z);
  snap_capabilities : list string;
  snap_policy_hash : ustr;
  snap_computed_at : Z }.

Definition snapshot_json (acct : string) (rvs : list (string * Z)) (caps : list string) : json := JObj [
  (lit "account_id", jstr acct);
  (lit "role_versions", JArr ((fun rv => JArr [jstr rv.1; JInt rv.2]) <$> rvs));
  (lit "capability_ids", jstrs caps)].

Section authority.
Context (sha256 : list N -> ustr).

Definition policy_hash (perms dny : list string) (c : RawConstraints) : res ustr :=
  sha256 <$> canonical_json (JObj [
    (lit "permissions", jstrs (py_sorted_str perms));
    (lit "deny", jstrs (py_sorted_str dny));
    (lit "constraints", constraints_json c)]).

Definition snapshot_of (acct : string) (rs : list Role) (caps : gset string) (now : Z) : res PolicySnapshot :=
  let rvs := py_sorted version_leb ((fun r => (r.(role_id), r.(version))) <$> rs) in
  let caps := py_sorted_str (elements caps) in
  digest ← canonical_json (snapshot_json acct rvs caps);
  Ok {| snap_account := acct; snap_role_versions := rvs; snap_capabilities := caps;
        snap_policy_hash := sha256 digest; snap_computed_at := now |}.

(** ** Writes *)

Definition create_role (ws rid name : string) (db : Db) : res Db :=
  match db.(roles) !! rid with
  | Some _ => Err "IntegrityError"
  | None => Ok (with_roles (<[rid := {| role_workspace := ws; display_name := name; current_version := 0;
      row_status := "active" |}]> db.(roles)) db.(role_versions) db)
  end.

Definition commit_role_version (rid : string) (perms dny : list string) (c : RawConstraints)
    (created_by : string) (event : option string) (db : Db) : res ((Z * ustr) * Db) :=
  match db.(roles) !! rid with
  | None => Err "ROLE_NOT_FOUND"
  | Some r =>
      let ver := r.(current_version) + 1 in
      digest ← policy_hash perms dny c;
      match db.(role_versions) !! (rid, ver) with
      | Some _ => Err "IntegrityError"
      | None =>
          let row := {| v_permissions := py_sorted_str perms; v_deny := py_sorted_str dny;
            v_constraints := c; v_policy_hash := digest; v_event_id := event;
            v_created_by := created_by |} in
          let r' := {| role_workspace := r.(role_workspace); display_name := r.(display_name);
            current_version := ver; row_status := r.(row_status) |} in
          Ok ((ver, digest), with_roles (<[rid := r']> db.(roles)) (<[(rid, ver) := row]> db.(role_versions)) db)
      end
  end.

Definition assign_role (acct rid by_ : string) (from : Z) (to : option Z) (scope : json)
    (event : option string) (db : Db) : res Db :=
  match db.(roles) !! rid with
  | None => Err "IntegrityError"
  | Some _ => Ok (with_assignments (db.(assignments) ++ [{|
      a_account := acct; a_role := rid; a_scope := scope; valid_from := from; valid_to := to;
      assigned_by := by_; a_event_id := event; revoked_at := None; revoke_event_id := None |}]) db)
  end.

Definition revoked (acct rid : string) (a : AssignmentRow) : bool :=
  String.eqb a.(a_account) acct && String.eqb a.(a_role) rid && bool_decide (a.(revoked_at) = None).

Definition revoke_row (now : Z) (event : option string) (a : AssignmentRow) : AssignmentRow := {|
  a_account := a.(a_account); a_role := a.(a_role); a_scope := a.(a_scope); valid_from := a.(valid_from);
  valid_to := a.(valid_to); assigned_by := a.(assigned_by); a_event_id := a.(a_event_id);
  revoked_at := Some now; revoke_event_id := event |}.

(** The number of rows updated, and the state. *)
Definition revoke_role (acct rid : string) (now : Z) (event : option string) (db : Db) : nat * Db :=
  (length (List.filter (revoked acct rid) db.(assignments)),
   with_assignments ((fun a => if revoked acct rid a then revoke_row now event a else a) <$> db.(assignments)) db).

Definition grant_capability (agent cap : string) (db : Db) : Db :=
  with_capabilities ({[(agent, cap)]} ∪ db.(agent_capabilities)) db.

(** * Authorization *)

Record AuthorizationRequest := {
  q_permission : string;
  q_action : option string;
  q_domain : option string;
  q_channel_id : option string;
  q_resource : option string;
  q_side_effect : bool;
  q_required_capability : option string;
  q_correlation_id : string;
  q_target_type : string;
  q_target_id : string }.

Record Authorization := {
  is_allowed : bool;
  auth_code : string;
  auth_risk : string;
  auth_class : string;
  auth_approval : string;
  approval_required : bool;
  auth_human_only : bool;
  auth_roles : list string;
  auth_snapshot : PolicySnapshot;
  audit_id : option string }.

Record AuditRecord := {
  ar_account_id : string;
  ar_account_uuid : option string;
  ar_workspace_uuid : option string;
  ar_code : string;
  ar_request : AuthorizationRequest;
  ar_roles : list string }.

(** The risk, the action class and the approval of the request. *)
Definition _classify (c : PolicyCatalog) (q : AuthorizationRequest) : res (string * string * string) :=
  let action := match q.(q_action) with
    | Some a => a
    | None =>
        let candidates := py_sorted_str
          (List.filter (fun e => String.eqb e.2.(spec_permission) q.(q_permission)) (actions c)).*1 in
        match candidates with a :: _ => a | [] => "permission:" +:+ q.(q_permission) end
    end in
  d ← risk_for c action q.(q_side_effect);
  Ok (d.(risk), d.(action_class), d.(approval)).

Fixpoint covers_risk (idx : nat) (matched : list string) (rs : list Role) : res bool :=
  match rs with
  | [] => Ok false
  | r :: rs =>
      if mem r.(role_id) matched then
        i ← risk_index r.(constraints).(max_risk);
        if (idx <=? i)%nat then Ok true else covers_risk idx matched rs
      else covers_risk idx matched rs
  end.

Definition _roles_cover_risk (rs : list Role) (matched : list string) (risk : string) : res bool :=
  idx ← risk_index risk; covers_risk idx matched rs.

(** The log of audit rows survives the exception of a denial: the sink of the
    command bus writes each record in a transaction of its own. *)
Definition audited (A : Type) : Type := list AuditRecord -> list AuditRecord * res A.

Definition raising {A B} (r : res A) (k : A -> audited B) : audited B := fun log =>
  match r with Ok a => k a log | Err e => (log, Err e) end.

Definition _deny (c : PolicyCatalog) (new_audit_id : string) (p : option PrincipalInfo) (acct : string)
    (q : AuthorizationRequest) (code : string) (rs : list Role) (matched : list string)
    (risk_class_approval : string * string * string) (now : Z) : audited Authorization :=
  let '(risk, cls, approval) := risk_class_approval in
  raising (snapshot_of acct rs ∅ now) (fun snapshot log =>
  let record := {|
    ar_account_id := acct; ar_account_uuid := account_uuid <$> p; ar_workspace_uuid := workspace_uuid <$> p;
    ar_code := code; ar_request := q; ar_roles := role_id <$> rs |} in
  raising (human_only c risk) (fun h log => (log, Ok {|
    is_allowed := false; auth_code := code; auth_risk := risk; auth_class := cls;
    auth_approval := approval; approval_required := false; auth_human_only := h; auth_roles := matched;
    auth_snapshot := snapshot; audit_id := Some new_audit_id |})) (log ++ [record])).

Definition action_request (q : AuthorizationRequest) : ActionRequest := {|
  permission := q.(q_permission); domain := q.(q_domain); side_effect := q.(q_side_effect);
  channel_id := q.(q_channel_id); resource := q.(q_resource) |}.

Definition missing_capability (q : AuthorizationRequest) (caps : gset string) : bool :=
  truthy q.(q_required_capability) &&
  match q.(q_required_capability) with Some c => bool_decide (c ∉ caps) | None => false end.

Definition not_member (db : Db) (p : PrincipalInfo) (q : AuthorizationRequest) : bool :=
  truthy q.(q_channel_id) &&
  match q.(q_channel_id) with Some c => negb (is_channel_member db p c) | None => false end.

Definition allow (c : PolicyCatalog) (acct : string) (rs : list Role) (caps : gset string)
    (d : PolicyDecision) (risk_class_approval : string * string * string) (now : Z) : audited Authorization :=
  let '(risk, cls, approval) := risk_class_approval in
  raising (human_only c risk) (fun h =>
  raising (snapshot_of acct rs caps now) (fun snapshot log => (log, Ok {|
    is_allowed := true; auth_code := "ALLOW"; auth_risk := risk; auth_class := cls;
    auth_approval := if d.(needs_human_approval) && String.eqb approval "none" then "human_1" else approval;
    approval_required := d.(needs_human_approval) || mem approval ["human_1"; "human_2"];
    auth_human_only := h || d.(needs_human_approval); auth_roles := d.(matched_roles);
    auth_snapshot := snapshot; audit_id := None |}))).

Definition authorize (c : PolicyCatalog) (new_audit_id : string) (db : Db) (now : Z) (acct : string)
    (q : AuthorizationRequest) : audited Authorization :=
  raising (_classify c q) (fun rca =>
  let denied p code rs matched := _deny c new_audit_id p acct q code rs matched rca now in
  match principal db acct with
  | None => denied None "PRINCIPAL_UNKNOWN" [] []
  | Some p =>
      if negb (String.eqb p.(principal_status) "ACTIVE")
      then denied (Some p) "PRINCIPAL_INACTIVE" [] []
      else
        let rs := effective_roles db p now in
        let d := engine c rs (action_request q) in
        if bool_decide (d.(decision) = DENY) then denied (Some p) d.(reason) rs d.(matched_roles)
        else
          let caps := capability_ids db p in
          if missing_capability q caps then denied (Some p) "CAPABILITY_MISSING" rs d.(matched_roles)
          else if not_member db p q then denied (Some p) "CHANNEL_NOT_MEMBER" rs d.(matched_roles)
          else raising (_roles_cover_risk rs d.(matched_roles) rca.1.1) (fun covered =>
            if negb covered then denied (Some p) "ROLE_MAX_RISK_EXCEEDED" rs d.(matched_roles)
            else allow c acct rs caps d rca now)
  end).

Definition require (c : PolicyCatalog) (new_audit_id : string) (db : Db) (now : Z) (acct : string)
    (q : AuthorizationRequest) : audited Authorization := fun log =>
  match authorize c new_audit_id db now acct q log with
  | (log', Ok a) => if a.(is_allowed) then (log', Ok a) else (log', Err a.(auth_code))
  | x => x
  end.

(** [BusAuthorizer.require] *)
Definition bus_require (c : PolicyCatalog) (new_audit_id : string) (db : Db) (now : Z) (acct : string)
    (q : AuthorizationRequest) : audited Authorization :=
  require c new_audit_id db now acct {|
    q_permission := q.(q_permission); q_action := q.(q_action); q_domain := q.(q_domain);
    q_channel_id := q.(q_channel_id); q_resource := q.(q_resource); q_side_effect := q.(q_side_effect);
    q_required_capability := q.(q_required_capability);
    q_correlation_id := if String.eqb q.(q_correlation_id) "" then "-" else q.(q_correlation_id);
    q_target_type := q.(q_target_type); q_target_id := q.(q_target_id) |}.

Definition require_permission (authorizer : option (AuthorizationRequest -> audited Authorization))
    (q : AuthorizationRequest) : audited unit := fun log =>
  match authorizer with
  | None => (log, Err "POLICY_DENIED")
  | Some require => let '(log', r) := require q log in (log', r ≫= fun _ => Ok tt)
  end.

(** ** Lemmas *)

Lemma jstrs_ok l : no_floats (jstrs l) = true /\ text_ok (jstrs l) = true.
Proof.
  unfold jstrs. cbn. rewrite !forallb_forall. split; intros x Hx%list_elem_of_In;
    apply list_elem_of_fmap in Hx as (s & -> & _); [done|apply lit_text].
Qed.

Lemma snapshot_ok acct rs caps now : exists s, snapshot_of acct rs caps now = Ok s.
Proof.
  unfold snapshot_of. cbn zeta.
  destruct (canonical_json_total (snapshot_json acct
    (py_sorted version_leb ((fun r => (r.(role_id), r.(version))) <$> rs))
    (py_sorted_str (elements caps)))) as [b ->]; [| |cbn; by eexists];
    cbn -[jstrs]; destruct (jstrs_ok (py_sorted_str (elements caps))) as [H1 H2];
    rewrite ?H1, ?H2, ?lit_text, ?andb_true_r; cbn; apply forallb_forall;
    intros x Hx%list_elem_of_In; apply list_elem_of_fmap in Hx as (rv & -> & _); cbn;
    by rewrite ?lit_text.
Qed.

Lemma deny_log c i p acct q code rs m rca now log log' a :
  _deny c i p acct q code rs m rca now log = (log', Ok a) ->
  a.(is_allowed) = false /\ a.(auth_code) = code /\ a.(audit_id) = Some i /\
  log' = log ++ [{| ar_account_id := acct; ar_account_uuid := account_uuid <$> p;
    ar_workspace_uuid := workspace_uuid <$> p; ar_code := code; ar_request := q;
    ar_roles := role_id <$> rs |}].
Proof.
  unfold _deny, raising. destruct rca as [[risk cls] ap].
  destruct (snapshot_of _ _ _ _); [|done]. destruct (human_only c risk); [|done]. by intros [= <- <-].
Qed.

Lemma allow_log c acct rs caps d rca now log log' a :
  allow c acct rs caps d rca now log = (log', Ok a) ->
  a.(is_allowed) = true /\ a.(auth_code) = "ALLOW" /\ log' = log /\
  a.(auth_roles) = d.(matched_roles) /\ a.(auth_risk) = rca.1.1 /\
  (a.(approval_required) = true <-> d.(needs_human_approval) = true \/ rca.2 ∈ ["human_1"; "human_2"]).
Proof.
  unfold allow, raising. destruct rca as [[risk cls] ap].
  destruct (human_only c risk); [|done]. destruct (snapshot_of _ _ _ _); [|done]. intros [= <- <-].
  cbn [approval_required is_allowed auth_code auth_roles auth_risk fst snd].
  by rewrite orb_true_iff, mem_spec.
Qed.

(** A denial leaves one audit record, a permission none. *)
Lemma authorize_log c i db now acct q log log' a :
  authorize c i db now acct q log = (log', Ok a) ->
  if a.(is_allowed) then log' = log else exists r, log' = log ++ [r].
Proof.
  assert (forall p code rs m rca, _deny c i p acct q code rs m rca now log = (log', Ok a) ->
    if a.(is_allowed) then log' = log else exists r, log' = log ++ [r]) as Hd.
  { intros p code rs m rca H. apply deny_log in H as (-> & _ & _ & ->). by eexists. }
  unfold authorize, raising at 1. destruct (_classify c q) as [rca|]; [|done].
  destruct (principal db acct) as [p|]; [|apply Hd].
  destruct (negb _); [apply Hd|]. cbn zeta. case_bool_decide; [apply Hd|].
  destruct (missing_capability _ _); [apply Hd|]. destruct (not_member _ _ _); [apply Hd|].
  unfold raising. destruct (_roles_cover_risk _ _ _) as [[]|]; [|apply Hd|done].
  cbn [negb]. intros Ha. by apply allow_log in Ha as (-> & _ & -> & _).
Qed.

Lemma covers_risk_spec idx m rs b :
  covers_risk idx m rs = Ok b ->
  (b = true <-> exists r i, r ∈ rs /\ r.(role_id) ∈ m /\ risk_index r.(constraints).(max_risk) = Ok i /\
     (idx <= i)%nat).
Proof.
  induction rs as [|r rs IH]; cbn [covers_risk].
  { intros [= <-]. split; [done|]. intros (r & _ & Hr & _). by apply elem_of_nil in Hr. }
  destruct (mem r.(role_id) m) eqn:Em.
  - apply mem_spec in Em. intros (i & Hi & H)%res_bind_ok.
    destruct (Nat.leb_spec idx i) as [Hle|Hlt].
    + injection H as <-. split; [|done]. intros _. exists r, i. split_and!; [left|done..].
    + rewrite (IH H). split.
      * intros (r' & j & ? & ? & ? & ?). exists r', j. split_and!; [by right|done..].
      * intros (r' & j & [->|?]%elem_of_cons & ? & Hj & ?); [rewrite Hi in Hj; injection Hj; lia|eauto 8].
  - apply mem_false in Em. intros H. rewrite (IH H). split.
    + intros (r' & j & ? & ? & ? & ?). exists r', j. split_and!; [by right|done..].
    + intros (r' & j & [->|?]%elem_of_cons & ? & ? & ?); [done|eauto 8].
Qed.

(** The role [r] is held at [now] through an assignment in force. *)
Definition held (db : Db) (p : PrincipalInfo) (now : Z) (r : Role) : Prop :=
  exists a, a ∈ db.(assignments) /\ a.(a_account) = p.(account_uuid) /\ a.(revoked_at) = None /\
    a.(valid_from) <= now /\ (forall t, a.(valid_to) = Some t -> now < t) /\
    current_role db a.(a_role) = Some r.

Lemma in_force_spec acct now a :
  in_force acct now a = true <-> a.(a_account) = acct /\ a.(revoked_at) = None /\
    a.(valid_from) <= now /\ forall t, a.(valid_to) = Some t -> now < t.
Proof.
  unfold in_force. rewrite !andb_true_iff, String.eqb_eq, bool_decide_eq_true, Z.leb_le.
  assert ((match a.(valid_to) with None => true | Some t => now <? t end = true) <->
    forall t, a.(valid_to) = Some t -> now < t) as ->; [|tauto].
  destruct a.(valid_to); [rewrite Z.ltb_lt|]; naive_solver.
Qed.

Lemma effective_roles_elem db p now r : r ∈ effective_roles db p now <-> held db p now r.
Proof.
  unfold effective_roles, held. rewrite py_sorted_elem, list_elem_of_omap.
  setoid_rewrite elem_filter_bool. setoid_rewrite in_force_spec. naive_solver.
Qed.

Lemma current_role_id db rid r : current_role db rid = Some r -> r.(role_id) = rid /\ active r.
Proof.
  unfold current_role. intros (row & _ & H)%bind_Some. apply bind_Some in H as (v & _ & H).
  destruct (String.eqb_spec row.(row_status) "active") as [E|]; cbn in H; [|done].
  destruct (0 <? _); [|done]. by injection H as <-.
Qed.

Lemma held_inj db p now r r' : held db p now r -> held db p now r' -> r.(role_id) = r'.(role_id) -> r = r'.
Proof.
  intros (a & _ & _ & _ & _ & _ & Ha) (b & _ & _ & _ & _ & _ & Hb) E.
  pose proof (current_role_id _ _ _ Ha) as [Ha1 _]. pose proof (current_role_id _ _ _ Hb) as [Hb1 _]. congruence.
Qed.

(** What an authorization requires of the committed state. *)
Definition entitled (c : PolicyCatalog) (db : Db) (now : Z) (acct : string) (q : AuthorizationRequest)
    (risk : string) : Prop :=
  exists p, db.(accounts) !! acct = Some p /\ p.(principal_status) = "ACTIVE" /\
    q.(q_permission) ∈ vocabulary c /\
    (forall r, held db p now r -> ~ denies r q.(q_permission)) /\
    (forall cap, q.(q_required_capability) = Some cap -> cap <> "" -> cap ∈ capability_ids db p) /\
    (forall ch, q.(q_channel_id) = Some ch -> ch <> "" -> is_channel_member db p ch = true) /\
    exists r i j, held db p now r /\ supports (action_request q) r /\
      risk_index risk = Ok i /\ risk_index r.(constraints).(max_risk) = Ok j /\ (i <= j)%nat.

Lemma missing_capability_spec q caps :
  missing_capability q caps = false <->
  forall cap, q.(q_required_capability) = Some cap -> cap <> "" -> cap ∈ caps.
Proof.
  unfold missing_capability, truthy. destruct (q_required_capability q) as [cap|]; [|naive_solver].
  destruct (String.eqb_spec cap ""); cbn; [naive_solver|]. rewrite bool_decide_eq_false. split.
  - intros H%dec_stable cap' [= <-] _. done.
  - intros H Hn. by apply Hn, H.
Qed.

Lemma not_member_spec db p q :
  not_member db p q = false <->
  forall ch, q.(q_channel_id) = Some ch -> ch <> "" -> is_channel_member db p ch = true.
Proof.
  unfold not_member, truthy. destruct (q_channel_id q) as [ch|]; [|naive_solver].
  destruct (String.eqb_spec ch ""); cbn; [naive_solver|]. rewrite negb_false_iff. naive_solver.
Qed.

Lemma engine_allows c db p now q :
  let d := engine c (effective_roles db p now) (action_request q) in
  (d.(decision) = ALLOW <-> q.(q_permission) ∈ vocabulary c /\
     (forall r, held db p now r -> ~ denies r q.(q_permission)) /\
     exists r, held db p now r /\ supports (action_request q) r) /\
  (d.(decision) = ALLOW -> forall r, held db p now r ->
     (r.(role_id) ∈ d.(matched_roles) <-> supports (action_request q) r)).
Proof.
  cbn zeta. unfold engine.
  destruct (evaluate_allowed (Some (vocabulary c)) (effective_roles db p now) (action_request q)) as [Hd Hm].
  setoid_rewrite effective_roles_elem in Hd. setoid_rewrite effective_roles_elem in Hm. split.
  - rewrite Hd. split.
    + intros (Hv & Hn & Hs). split_and!; [by apply Hv| |done]. intros r Hr. apply Hn; [done|].
      destruct Hr as (a & _ & _ & _ & _ & _ & Ha). by apply current_role_id in Ha as [_ ?].
    + intros (Hv & Hn & Hs). split_and!; [by intros v [= <-]|by eauto|done].
  - intros Ha r Hr. rewrite (Hm Ha). split; [|by eauto].
    intros (r' & Hr' & Hs & E). by rewrite <- (held_inj _ _ _ _ _ Hr' Hr E).
Qed.

(** Every stored role version has a known [max_risk]. *)
Definition risks_known (db : Db) : Prop :=
  map_Forall (fun _ v => default "CRITICAL" v.(v_constraints).(raw_max_risk) ∈ RISK_ORDER) db.(role_versions).

Lemma held_risk db p now r : risks_known db -> held db p now r -> r.(constraints).(max_risk) ∈ RISK_ORDER.
Proof.
  intros Hk (a & _ & _ & _ & _ & _ & H). unfold current_role in H.
  apply bind_Some in H as (row & _ & H). apply bind_Some in H as (v & Hv & H).
  destruct (_ && _); [|done]. injection H as <-. exact (Hk _ _ Hv).
Qed.

Lemma covers_risk_total idx m rs :
  Forall (fun r => r.(constraints).(max_risk) ∈ RISK_ORDER) rs -> exists b, covers_risk idx m rs = Ok b.
Proof.
  induction 1 as [|r rs Hr _ [b IH]]; cbn [covers_risk]; [by eexists|].
  destruct (mem _ _); [|by eexists]. apply risk_index_ok in Hr as [i ->]. cbn [mbind res_bind].
  destruct (_ <=? _)%nat; by eexists.
Qed.

Lemma deny_ok c i p acct q code rs m rca now log :
  schema_valid c -> rca.1.1 ∈ RISK_ORDER ->
  exists a, _deny c i p acct q code rs m rca now log =
    (log ++ [{| ar_account_id := acct; ar_account_uuid := account_uuid <$> p;
       ar_workspace_uuid := workspace_uuid <$> p; ar_code := code; ar_request := q;
       ar_roles := role_id <$> rs |}], Ok a) /\
    a.(is_allowed) = false /\ a.(auth_code) = code /\ a.(auth_risk) = rca.1.1.
Proof.
  intros Hs Hr. destruct rca as [[risk cls] ap]. unfold _deny, raising.
  destruct (snapshot_ok acct rs ∅ now) as [s ->]. destruct (human_only_ok c risk Hs Hr) as [h ->].
  by eexists.
Qed.

Lemma allow_ok c acct rs caps d rca now log :
  schema_valid c -> rca.1.1 ∈ RISK_ORDER ->
  exists a, allow c acct rs caps d rca now log = (log, Ok a).
Proof.
  intros Hs Hr. destruct rca as [[risk cls] ap]. unfold allow, raising.
  destruct (human_only_ok c risk Hs Hr) as [h ->]. destruct (snapshot_ok acct rs caps now) as [s ->].
  by eexists.
Qed.

Lemma classify_ok raw c q :
  schema_valid raw -> build raw = Ok c ->
  exists rca, _classify c q = Ok rca /\ rca.1.1 ∈ RISK_ORDER.
Proof.
  intros Hs Hb. unfold _classify. cbn zeta. match goal with |- context [risk_for c ?a ?se] =>
    destruct (risk_for_ok raw c a se Hs Hb) as (d & -> & Hd) end. cbn. by eexists.
Qed.

(** The outcome of an authorization: the log kept, or a denial appended. *)
Definition outcome (acct : string) (q : AuthorizationRequest) (log log' : list AuditRecord)
    (a : Authorization) : Prop :=
  if a.(is_allowed) then log' = log else exists r, log' = log ++ [r] /\
    r.(ar_account_id) = acct /\ r.(ar_code) = a.(auth_code) /\ r.(ar_request) = q.

(** The call [x] returned, with the outcome due when [P] decides. *)
Definition decides (x : list AuditRecord * res Authorization) (acct : string) (q : AuthorizationRequest)
    (log : list AuditRecord) (rca : string * string * string) (P : Prop) : Prop :=
  exists log' a, x = (log', Ok a) /\ outcome acct q log log' a /\ (a.(is_allowed) = true <-> P) /\
    a.(auth_risk) = rca.1.1 /\
    (a.(is_allowed) = true -> rca.2 ∈ ["human_1"; "human_2"] -> a.(approval_required) = true).

Lemma denied_decides c i p acct q code rs m rca now log (P : Prop) :
  schema_valid c -> rca.1.1 ∈ RISK_ORDER -> ~ P ->
  decides (_deny c i p acct q code rs m rca now log) acct q log rca P.
Proof.
  intros Hs Hr HP. destruct (deny_ok c i p acct q code rs m rca now log Hs Hr) as (b & -> & Hb & Hc & Hk).
  eexists _, b. unfold outcome. rewrite Hb. split_and!; try done. eexists. by split_and!.
Qed.

(** The part of [authorize] after the principal was found active. *)
Definition decide_active (c : PolicyCatalog) (i : string) (db : Db) (p : PrincipalInfo) (now : Z) (acct : string)
    (q : AuthorizationRequest) (rca : string * string * string) : audited Authorization :=
  let rs := effective_roles db p now in
  let d := engine c rs (action_request q) in
  let caps := capability_ids db p in
  let denied code m := _deny c i (Some p) acct q code rs m rca now in
  if bool_decide (d.(decision) = DENY) then denied d.(reason) d.(matched_roles)
  else if missing_capability q caps then denied "CAPABILITY_MISSING" d.(matched_roles)
  else if not_member db p q then denied "CHANNEL_NOT_MEMBER" d.(matched_roles)
  else raising (_roles_cover_risk rs d.(matched_roles) rca.1.1) (fun covered =>
    if negb covered then denied "ROLE_MAX_RISK_EXCEEDED" d.(matched_roles)
    else allow c acct rs caps d rca now).

(** [entitled] for the principal found. *)
Definition entitled_as (c : PolicyCatalog) (db : Db) (p : PrincipalInfo) (now : Z) (q : AuthorizationRequest)
    (risk : string) : Prop :=
  q.(q_permission) ∈ vocabulary c /\
  (forall r, held db p now r -> ~ denies r q.(q_permission)) /\
  (forall cap, q.(q_required_capability) = Some cap -> cap <> "" -> cap ∈ capability_ids db p) /\
  (forall ch, q.(q_channel_id) = Some ch -> ch <> "" -> is_channel_member db p ch = true) /\
  exists r i j, held db p now r /\ supports (action_request q) r /\
    risk_index risk = Ok i /\ risk_index r.(constraints).(max_risk) = Ok j /\ (i <= j)%nat.

Lemma covered_iff c db p now q risk idx b :
  let d := engine c (effective_roles db p now) (action_request q) in
  d.(decision) = ALLOW -> missing_capability q (capability_ids db p) = false -> not_member db p q = false ->
  risk_index risk = Ok idx -> covers_risk idx d.(matched_roles) (effective_roles db p now) = Ok b ->
  (b = true <-> entitled_as c db p now q risk).
Proof.
  cbn zeta. intros Hal Hcap Hmem Hidx Hcov%covers_risk_spec. destruct (engine_allows c db p now q) as [Hd Hm].
  specialize (Hm Hal). apply Hd in Hal as (Hv & Hn & _). rewrite Hcov. unfold entitled_as.
  rewrite missing_capability_spec in Hcap. rewrite not_member_spec in Hmem. split.
  - intros (r & j & Hh%effective_roles_elem & Hmr & Hj & Hle). split_and!; [done..|].
    exists r, idx, j. split_and!; try done. by apply Hm.
  - intros (_ & _ & _ & _ & r & i0 & j & Hh & Hsup & Hi & Hj & Hle). exists r, j.
    split_and!; [by apply effective_roles_elem|by apply Hm|done|congruence].
Qed.

Lemma decide_active_decides c i db p now acct q rca log :
  schema_valid c -> rca.1.1 ∈ RISK_ORDER -> risks_known db ->
  decides (decide_active c i db p now acct q rca log) acct q log rca (entitled_as c db p now q rca.1.1).
Proof.
  intros Hs Hr Hk. unfold decide_active. cbn zeta.
  pose proof (fun b => covered_iff c db p now q rca.1.1 (default 0%nat (match risk_index rca.1.1 with Ok i => Some i | _ => None end)) b) as Hiff.
  pose proof Hr as [idx Hidx]%risk_index_ok. rewrite Hidx in Hiff. cbn in Hiff.
  destruct (engine_allows c db p now q) as [Hd _]. cbn zeta in Hd.
  set (d := engine c _ _) in *.
  case_bool_decide as Hdec; [apply denied_decides; [done..|]|].
  { intros (Hv & Hn & _ & _ & r & i0 & j & Hh & Hsup & _).
    rewrite (proj2 Hd) in Hdec; [done|]. split_and!; eauto. }
  assert (d.(decision) = ALLOW) as Hal by (by destruct d.(decision)).
  destruct (missing_capability q _) eqn:Ecap; [apply denied_decides; [done..|]|].
  { intros (_ & _ & Hcap & _). apply missing_capability_spec in Hcap. congruence. }
  destruct (not_member db p q) eqn:Emem; [apply denied_decides; [done..|]|].
  { intros (_ & _ & _ & Hmem & _). apply not_member_spec in Hmem. congruence. }
  unfold _roles_cover_risk. rewrite Hidx. cbn [mbind res_bind].
  destruct (covers_risk_total idx d.(matched_roles) (effective_roles db p now)) as [b Hcov].
  { rewrite Forall_forall. intros r Hh%effective_roles_elem. by eapply held_risk. }
  specialize (Hiff b Hal eq_refl eq_refl eq_refl Hcov). rewrite Hcov. unfold raising at 1.
  destruct b; cbn [negb]; [|apply denied_decides; [done..|by intros ?%Hiff]].
  destruct (allow_ok c acct (effective_roles db p now) (capability_ids db p) d rca now log Hs Hr) as [a Hallow].
  apply allow_log in Hallow as Hlog. destruct Hlog as (Hia & Hac & _ & _ & Hrisk & Happ).
  exists log, a. unfold outcome. rewrite Hia. split_and!; [exact Hallow|done|done|done|].
  intros _ Hh. apply Happ. by right.
Qed.

Lemma authorize_decided raw c i db now acct q log :
  schema_valid raw -> build raw = Ok c -> risks_known db ->
  exists rca, _classify c q = Ok rca /\
    decides (authorize c i db now acct q log) acct q log rca (entitled c db now acct q rca.1.1).
Proof.
  intros Hs Hb Hk. destruct (classify_ok raw c q Hs Hb) as (rca & Hc & Hr). exists rca.
  apply build_spec in Hb as [-> _]. unfold authorize. rewrite Hc. split; [done|].
  unfold raising at 1, principal, entitled. cbn zeta.
  destruct (accounts db !! acct) as [p|];
    [|apply denied_decides; [done..|by intros (p & Hp & _)]].
  destruct (String.eqb_spec p.(principal_status) "ACTIVE") as [Ha|Ha]; cbn [negb];
    [|apply denied_decides; [done..|by intros (p' & [= <-] & Ha' & _)]].
  destruct (decide_active_decides raw i db p now acct q rca log Hs Hr Hk) as (log' & a & H1 & H2 & H3 & H4).
  exists log', a. split_and!; [exact H1|exact H2| |exact (proj1 H4)|exact (proj2 H4)].
  rewrite H3. unfold entitled_as. split; [by intros H; exists p|by intros (p' & [= <-] & _ & H)].
Qed.

(** C11. An authorization decides from the committed rows, and every denial is
    audited. With a loaded catalog and known role limits it always returns. It
    allows exactly when the account is active, its permission is in the
    vocabulary, no role assigned and in force denies it at its current version,
    the capability and the channel membership asked for are there, and one such
    role grants it in scope with a limit that reaches the classified risk. It
    then asks for an approval when the risk class says human; otherwise one
    audit record with the code and the request is appended. *)
Theorem authorize_decides raw c i db now acct q log :
  schema_valid raw -> build raw = Ok c -> risks_known db ->
  exists rca, _classify c q = Ok rca /\
    decides (authorize c i db now acct q log) acct q log rca (entitled c db now acct q rca.1.1).
Proof. apply authorize_decided. Qed.

(** ** Snapshots *)

Lemma jstrs_inj l l' : jstrs l = jstrs l' -> l = l'.
Proof.
  intros [= H]. revert l' H. induction l as [|s l IH]; intros [|s' l'] H; try done.
  injection H as H1%lit_inj H. subst s'. f_equal. by apply IH.
Qed.

Lemma snapshot_json_inj a rvs caps a' rvs' caps' :
  snapshot_json a rvs caps = snapshot_json a' rvs' caps' -> a = a' /\ rvs = rvs' /\ caps = caps'.
Proof.
  intros [= Ha%lit_inj Hr Hc]. split_and!; [done| |by apply jstrs_inj; unfold jstrs; f_equal].
  clear -Hr. revert rvs' Hr. induction rvs as [|[r n] rvs IH]; intros [|[r' n'] rvs'] H; try done.
  injection H as H1%lit_inj H2 H. subst. f_equal. by apply IH.
Qed.

Lemma snapshot_json_flat a rvs caps :
  exists l, snapshot_json a rvs caps = JObj l /\
    l.*1 = [lit "account_id"; lit "role_versions"; lit "capability_ids"] /\
    forallb (fun e => flat e.2) l = true /\ no_floats (JObj l) = true.
Proof.
  eexists. split; [reflexivity|]. split; [reflexivity|].
  assert (forallb flat (jstr <$> caps) = true /\ forallb no_floats (jstr <$> caps) = true) as [H1 H2].
  { split; apply forallb_forall; intros x Hx%list_elem_of_In; by apply list_elem_of_fmap in Hx as (? & -> & _). }
  assert (forallb flat ((fun rv => JArr [jstr rv.1; JInt rv.2]) <$> rvs) = true /\
    forallb no_floats ((fun rv => JArr [jstr rv.1; JInt rv.2]) <$> rvs) = true) as [H3 H4].
  { split; apply forallb_forall; intros x Hx%list_elem_of_In; by apply list_elem_of_fmap in Hx as (? & -> & _). }
  cbn. by rewrite H1, H2, H3, H4.
Qed.

(** A snapshot pins the policy it was computed from: if SHA-256 does not
    collide on the two documents, equal hashes mean the same account with the
    same roles at the same versions and the same capabilities, in whatever
    order the repository returned them. *)
Theorem snapshot_pins_policy acct rs caps now acct' rs' caps' now' s s' :
  snapshot_of acct rs caps now = Ok s -> snapshot_of acct' rs' caps' now' = Ok s' ->
  (forall b b', canonical_json (snapshot_json acct s.(snap_role_versions) s.(snap_capabilities)) = Ok b ->
     canonical_json (snapshot_json acct' s'.(snap_role_versions) s'.(snap_capabilities)) = Ok b' ->
     sha256 b = sha256 b' -> b = b') ->
  s.(snap_policy_hash) = s'.(snap_policy_hash) ->
  acct = acct' /\ caps = caps' /\
  (fun r => (r.(role_id), r.(version))) <$> rs ≡ₚ (fun r => (r.(role_id), r.(version))) <$> rs'.
Proof.
  unfold snapshot_of. cbn zeta. intros (b & Hb & [= <-])%res_bind_ok (b' & Hb' & [= <-])%res_bind_ok.
  cbn [snap_role_versions snap_capabilities snap_policy_hash]. intros Hinj Hh.
  rewrite (Hinj b b' Hb Hb' Hh) in Hb. clear Hinj Hh b.
  destruct (snapshot_json_flat acct (py_sorted version_leb ((fun r => (r.(role_id), r.(version))) <$> rs))
    (py_sorted_str (elements caps))) as (l & El & Hk & Hf & Hn).
  destruct (snapshot_json_flat acct' (py_sorted version_leb ((fun r => (r.(role_id), r.(version))) <$> rs'))
    (py_sorted_str (elements caps'))) as (l' & El' & Hk' & _ & Hn').
  rewrite El in Hb. rewrite El' in Hb'. pose proof (canonical_json_eq_jeq _ _ _ Hn Hn' Hb Hb') as Hj.
  apply jeq_same_keys in Hj; [|rewrite Hk; by apply (bool_decide_unpack _)|congruence].
  apply jeq_flat_entries in Hj; [|done]. rewrite Hj, <- El' in El.
  apply snapshot_json_inj in El as (-> & Hr & Hc). split; [done|]. split.
  - apply set_eq. intros x. rewrite <- (elem_of_elements caps), <- (elem_of_elements caps').
    unfold py_sorted_str in Hc. by rewrite <- (py_sorted_elem String.leb _ (elements caps)), Hc, py_sorted_elem.
  - rewrite <- (py_sorted_perm version_leb), Hr. apply py_sorted_perm.
Qed.

(** ** Histories of the authority rows *)

Inductive write :=
| CreateRole (ws rid name : string)
| CommitVersion (rid : string) (perms dny : list string) (c : RawConstraints) (by_ : string) (ev : option string)
| AssignRole (acct rid by_ : string) (from : Z) (to : option Z) (scope : json) (ev : option string)
| RevokeRole (acct rid : string) (now : Z) (ev : option string)
| GrantCapability (agent cap : string).

(** A write that raises is rolled back. *)
Definition perform (w : write) (db : Db) : Db :=
  match w with
  | CreateRole ws rid name => match create_role ws rid name db with Ok db' => db' | Err _ => db end
  | CommitVersion rid perms dny c by_ ev =>
      match commit_role_version rid perms dny c by_ ev db with Ok (_, db') => db' | Err _ => db end
  | AssignRole acct rid by_ from to scope ev =>
      match assign_role acct rid by_ from to scope ev db with Ok db' => db' | Err _ => db end
  | RevokeRole acct rid now ev => (revoke_role acct rid now ev db).2
  | GrantCapability agent cap => grant_capability agent cap db
  end.

Definition perform_all (ws : list write) (db : Db) : Db := foldl (fun db w => perform w db) db ws.

Definition assigns (acct rid : string) (w : write) : Prop :=
  match w with AssignRole a r _ _ _ _ _ => a = acct /\ r = rid | _ => False end.

(** No assignment of the role to the account is live. *)
Definition cut_off (acct rid : string) (db : Db) : Prop :=
  Forall (fun a => a.(a_account) = acct -> a.(a_role) = rid -> a.(revoked_at) <> None) db.(assignments).

Lemma perform_assignments w db :
  (perform w db).(assignments) = db.(assignments) \/
  (exists a, (perform w db).(assignments) = db.(assignments) ++ [a] /\ assigns a.(a_account) a.(a_role) w) \/
  exists acct rid now ev, w = RevokeRole acct rid now ev /\ (perform w db).(assignments) =
    (fun a => if revoked acct rid a then revoke_row now ev a else a) <$> db.(assignments).
Proof.
  destruct w; cbn [perform].
  - left. unfold create_role. by destruct (roles db !! rid).
  - left. unfold commit_role_version. destruct (roles db !! rid); [|done]. cbn zeta.
    destruct (policy_hash _ _ _); [|done]. cbn. by destruct (role_versions db !! _).
  - unfold assign_role. destruct (roles db !! rid); [|by left]. right. left. eexists. by split.
  - right. right. eauto 8.
  - by left.
Qed.

Lemma revoke_row_or acct rid now ev a :
  (if revoked acct rid a then revoke_row now ev a else a) = a \/
  (a.(a_account) = acct /\ a.(a_role) = rid /\
   (if revoked acct rid a then revoke_row now ev a else a) = revoke_row now ev a).
Proof.
  destruct (revoked acct rid a) eqn:E; [right|by left]. unfold revoked in E.
  rewrite !andb_true_iff, !String.eqb_eq in E. naive_solver.
Qed.

Lemma cut_off_perform acct rid w db : ~ assigns acct rid w -> cut_off acct rid db -> cut_off acct rid (perform w db).
Proof.
  intros Hw Hc. unfold cut_off. destruct (perform_assignments w db) as [->|[(a & -> & Ha)|(a & r & t & ev & -> & ->)]];
    [done| |].
  - apply Forall_app. split; [done|]. constructor; [|constructor]. by intros <- <-.
  - rewrite Forall_fmap. eapply Forall_impl; [exact Hc|]. intros x Hx. unfold compose.
    destruct (revoke_row_or a r t ev x) as [->|(_ & _ & ->)]; [done|]. by cbn.
Qed.

Lemma cut_off_revoke acct rid now ev db : cut_off acct rid (revoke_role acct rid now ev db).2.
Proof.
  unfold cut_off. cbn [revoke_role snd with_assignments assignments]. rewrite Forall_fmap.
  apply Forall_forall. intros x _. unfold compose. unfold revoked at 1 2 3.
  destruct (String.eqb_spec x.(a_account) acct) as [E1|]; cbn; [|done].
  destruct (String.eqb_spec x.(a_role) rid) as [E2|]; cbn; [|done].
  case_bool_decide as E3; cbn; done.
Qed.

(** A revocation is final. After [revoke_role] no history of writes gives
    the role back to the account, whatever the validity window of the old
    assignments, until the role is assigned to it anew; and the revocation
    takes nothing else away. *)
Theorem revoked_role_stays_revoked db p rid t ev later now r :
  Forall (fun w => ~ assigns p.(account_uuid) rid w) later ->
  r ∈ effective_roles (perform_all later (revoke_role p.(account_uuid) rid t ev db).2) p now ->
  r.(role_id) <> rid /\
  forall q r', q.(account_uuid) <> p.(account_uuid) \/ r'.(role_id) <> rid ->
    held (revoke_role p.(account_uuid) rid t ev db).2 q now r' <-> held db q now r'.
Proof.
  intros Hl Hr%effective_roles_elem. split.
  - assert (cut_off p.(account_uuid) rid (perform_all later (revoke_role p.(account_uuid) rid t ev db).2)) as Hc.
    { generalize (cut_off_revoke p.(account_uuid) rid t ev db). clear Hr.
      generalize (revoke_role p.(account_uuid) rid t ev db).2. induction Hl as [|w later Hw _ IH]; intros d Hd; [done|].
      apply IH. by apply cut_off_perform. }
    destruct Hr as (a & Hin & Hacct & Hrev & _ & _ & Hcur). apply current_role_id in Hcur as [Hid _].
    intros E. unfold cut_off in Hc. rewrite Forall_forall in Hc. apply (Hc a Hin Hacct); congruence.
  - intros q r' Hne. unfold held. cbn [revoke_role snd with_assignments assignments].
    assert (forall x, current_role (revoke_role p.(account_uuid) rid t ev db).2 x = current_role db x) as Hcur by done.
    cbn [revoke_role snd] in Hcur. setoid_rewrite Hcur. split.
    + intros (a & (x & -> & Hx)%list_elem_of_fmap & H).
      destruct (revoke_row_or p.(account_uuid) rid t ev x) as [E|(_ & _ & E)]; rewrite E in H; [by exists x|].
      destruct H as (_ & H & _). done.
    + intros (a & Ha & H). exists a. split; [|done]. apply list_elem_of_fmap. exists a. split; [|done].
      destruct H as (H1 & _ & _ & _ & H2). apply current_role_id in H2 as [H2 _].
      destruct (revoke_row_or p.(account_uuid) rid t ev a) as [E|(E1 & E2 & _)]; [done|]. destruct Hne; congruence.
Qed.

(** ** Role versions *)

(** The versions of a role are 1 to its current one, each with its hash. *)
Record versions_ok (db : Db) : Prop := {
  vo_range rid r n : db.(roles) !! rid = Some r ->
    0 <= r.(current_version) /\ (is_Some (db.(role_versions) !! (rid, n)) <-> 1 <= n <= r.(current_version));
  vo_row rid n v : db.(role_versions) !! (rid, n) = Some v -> is_Some (db.(roles) !! rid) /\
    policy_hash v.(v_permissions) v.(v_deny) v.(v_constraints) = Ok v.(v_policy_hash) }.

Lemma py_sorted_str_idem l : py_sorted_str (py_sorted_str l) = py_sorted_str l.
Proof.
  unfold py_sorted_str. apply py_sorted_id. apply py_sorted_sorted; intros *;
    [apply string_leb_total|apply string_leb_trans].
Qed.

Lemma policy_hash_sorted perms dny c :
  policy_hash (py_sorted_str perms) (py_sorted_str dny) c = policy_hash perms dny c.
Proof. unfold policy_hash. by rewrite !py_sorted_str_idem. Qed.

Lemma commit_cases rid perms dny c by_ ev db :
  (exists e, commit_role_version rid perms dny c by_ ev db = Err e) \/
  exists r digest, db.(roles) !! rid = Some r /\ db.(role_versions) !! (rid, r.(current_version) + 1) = None /\
    policy_hash perms dny c = Ok digest /\
    commit_role_version rid perms dny c by_ ev db = Ok ((r.(current_version) + 1, digest), with_roles
      (<[rid := {| role_workspace := r.(role_workspace); display_name := r.(display_name);
         current_version := r.(current_version) + 1; row_status := r.(row_status) |}]> db.(roles))
      (<[(rid, r.(current_version) + 1) := {| v_permissions := py_sorted_str perms;
         v_deny := py_sorted_str dny; v_constraints := c; v_policy_hash := digest; v_event_id := ev;
         v_created_by := by_ |}]> db.(role_versions)) db).
Proof.
  unfold commit_role_version. destruct (roles db !! rid) as [r|] eqn:Er; [|left; by eexists].
  cbn zeta. destruct (policy_hash perms dny c) as [digest|e]; [|left; by eexists]. cbn [mbind res_bind].
  destruct (role_versions db !! _) eqn:Ev; [left; by eexists|]. right. exists r, digest. done.
Qed.

Lemma perform_versions w db : versions_ok db -> versions_ok (perform w db) /\
  forall k v, db.(role_versions) !! k = Some v -> (perform w db).(role_versions) !! k = Some v.
Proof.
  intros Hok. destruct w as [ws rid nm|rid perms dny c by_ ev|acct rid by_ from to scope ev|acct rid t ev|ag cap];
    cbn [perform]; try (split; [by destruct Hok|done]).
  - unfold create_role. destruct (roles db !! rid) as [r|] eqn:Er; [done|]. split; [|done].
    destruct Hok as [H1 H2]. split; cbn.
    + intros x r n [[<- <-]|[_ Hr]]%lookup_insert_Some; [|by apply H1]. cbn. split; [done|]. split; [|lia].
      intros [v [[? Hv] _]%H2]. congruence.
    + intros x n v [[r Hr] Hh]%H2. split; [|done]. destruct (decide (rid = x)) as [<-|]; [by rewrite lookup_insert_eq|].
      rewrite lookup_insert_ne by done. by eexists.
  - destruct (commit_cases rid perms dny c by_ ev db) as [[e ->]|(r & d & Hr & Hnone & Hd & ->)]; [done|].
    destruct Hok as [H1 H2]. destruct (H1 rid r 0 Hr) as [Hnn _]. split.
    + split; cbn.
      * intros x r' n [[<- <-]|[Hne Hr']]%lookup_insert_Some; cbn.
        -- split; [lia|]. destruct (decide (n = r.(current_version) + 1)) as [->|Hn].
           { rewrite lookup_insert_eq. split; [lia|by eexists]. }
           rewrite lookup_insert_ne by congruence. rewrite (proj2 (H1 rid r n Hr)). lia.
        -- rewrite lookup_insert_ne by congruence. by apply H1.
      * intros x n v [[[= <- <-] <-]|[_ Hv]]%lookup_insert_Some.
        -- split; [cbn; rewrite lookup_insert_eq; by eexists|].
           change (policy_hash (py_sorted_str perms) (py_sorted_str dny) c = Ok d).
           by rewrite policy_hash_sorted.
        -- destruct (H2 _ _ _ Hv) as [[r' Hr'] Hh]. split; [|done].
           destruct (decide (rid = x)) as [<-|]; [by rewrite lookup_insert_eq|].
           rewrite lookup_insert_ne by done. by eexists.
    + cbn. intros k v Hk. rewrite lookup_insert_ne; [done|]. intros <-. congruence.
  - unfold assign_role. destruct (roles db !! rid); (split; [by destruct Hok|done]).
Qed.

Lemma perform_all_versions ws db : versions_ok db -> versions_ok (perform_all ws db) /\
  forall k v, db.(role_versions) !! k = Some v -> (perform_all ws db).(role_versions) !! k = Some v.
Proof.
  revert db. induction ws as [|w ws IH]; intros db Hok; [done|].
  destruct (perform_versions w db Hok) as [H1 H2]. destruct (IH _ H1) as [H3 H4].
  split; [exact H3|]. intros k v Hk. by apply H4, H2.
Qed.

Definition no_roles (db : Db) : Prop := db.(roles) = ∅ /\ db.(role_versions) = ∅.

(** Role versions are append-only and take effect at once. Starting
    without roles, whatever is written: a committed version row never changes
    or disappears and its stored hash is the hash of its content; the versions
    of a role are 1 to its current one; committing to a role always succeeds,
    with the next number; and from then on every holder of the active role
    holds exactly the committed permissions, denials and constraints. *)
Theorem role_versions_append_only db ws later rid perms dny c by_ ev :
  no_roles db ->
  let db1 := perform_all ws db in
  (forall k v, db1.(role_versions) !! k = Some v ->
     (perform_all later db1).(role_versions) !! k = Some v /\
     policy_hash v.(v_permissions) v.(v_deny) v.(v_constraints) = Ok v.(v_policy_hash)) /\
  (forall r, db1.(roles) !! rid = Some r -> (exists digest, policy_hash perms dny c = Ok digest) ->
     exists digest db2,
       commit_role_version rid perms dny c by_ ev db1 = Ok ((r.(current_version) + 1, digest), db2) /\
       (forall n, is_Some (db2.(role_versions) !! (rid, n)) <-> 1 <= n <= r.(current_version) + 1) /\
       forall p now h, held db2 p now h -> h.(role_id) = rid ->
         h = role_from_version rid (r.(current_version) + 1) perms dny c "active").
Proof.
  intros [Hr0 Hv0]. cbn zeta. destruct (perform_all_versions ws db) as [Hok _].
  { split; [by rewrite Hr0|by rewrite Hv0]. }
  set (db1 := perform_all ws db) in *. split.
  - intros k v Hk. split; [by apply (perform_all_versions later db1)|].
    destruct k as [x n]. by apply (vo_row _ Hok x n v).
  - intros r Hr [digest Hd]. destruct (commit_cases rid perms dny c by_ ev db1)
      as [[e He]|(r' & d & Hr' & Hnone & Hd' & E)].
    { exfalso. unfold commit_role_version in He. rewrite Hr in He. cbn zeta in He. rewrite Hd in He.
      cbn [mbind res_bind] in He. destruct (role_versions db1 !! _) eqn:Ev; [|done].
      destruct (vo_range _ Hok rid r (r.(current_version) + 1) Hr) as [_ [H _]].
      assert (1 <= r.(current_version) + 1 <= r.(current_version)); [by apply H; eexists|lia]. }
    assert (r' = r) as -> by congruence. exists d. eexists. split; [exact E|].
    destruct (perform_versions (CommitVersion rid perms dny c by_ ev) db1 Hok) as [Hok2 _].
    cbn [perform] in Hok2. rewrite E in Hok2. split.
    + intros n. exact (proj2 (vo_range _ Hok2 rid _ n (lookup_insert_eq _ _ _))).
    + intros p now h (a & _ & _ & _ & _ & _ & H) Hid. apply current_role_id in H as Hid2.
      destruct Hid2 as [Hid2 _]. rewrite <- Hid2, Hid in H. unfold current_role in H. cbn in H.
      rewrite lookup_insert_eq in H. cbn in H. rewrite lookup_insert_eq in H. cbn in H.
      destruct (String.eqb_spec r.(row_status) "active") as [Es|]; cbn in H; [|done].
      destruct (0 <? _); [|done]. injection H as <-. rewrite Es. unfold role_from_version.
      f_equal; apply set_eq; intros x; rewrite !elem_of_list_to_set; apply py_sorted_elem.
Qed.
End authority.

(** * A concrete workspace *)

Module Workspace.

Definition hash (b : list N) : ustr := b.

Definition worker : PrincipalInfo := {|
  account_id := "acct-w"; account_uuid := "uuid-w"; workspace_uuid := "ws"; account_type := "agent";
  principal_status := "ACTIVE"; agent_id := Some "agent-w" |}.

Definition raw (limit : option string) : RawConstraints := {|
  raw_domains := None; raw_side_effects := None; raw_requires_human_approval := None; raw_channels := None;
  raw_resources := None; raw_max_risk := limit |}.

Definition empty : Db := {|
  accounts := {["acct-w" := worker]}; roles := ∅; role_versions := ∅; assignments := [];
  agent_capabilities := ∅; channel_ids := ∅; channel_members := ∅ |}.

Definition set_up : list write := [
  CreateRole "ws" "role-agent-worker" "Agent Worker";
  CommitVersion "role-agent-worker" ["task.*"; "work.poll"] ["task.complete"] (raw (Some "MEDIUM")) "root" None;
  AssignRole "uuid-w" "role-agent-worker" "root" 0 None JNull None;
  CreateRole "ws" "role-ops" "Ops";
  CommitVersion "role-ops" ["ops.manage"] [] (raw None) "root" None;
  AssignRole "uuid-w" "role-ops" "root" 0 (Some 100) JNull None].

Definition db : Db := perform_all hash set_up empty.

Definition progress (action : option string) : AuthorizationRequest := {|
  q_permission := "task.progress"; q_action := action; q_domain := None; q_channel_id := None;
  q_resource := None; q_side_effect := false; q_required_capability := None; q_correlation_id := "-";
  q_target_type := "action"; q_target_id := "-" |}.

Definition verdict (q : AuthorizationRequest) : option (string * string * nat) :=
  match authorize hash excerpt "aud-1" db 5 "acct-w" q [] with
  | (log, Ok a) => Some (a.(auth_code), a.(auth_risk), length log)
  | (_, Err _) => None
  end.
End Workspace.

(** A request that names no action is classified as the alphabetically first
    action of its permission. The catalog lists [api:external_api_call] before
    [api:task_progress], so an agent worker (limit MEDIUM) is refused
    [task.progress] unless the caller names the action; [ops.manage] without
    an action counts as [api:backup_run], so entering the maintenance mode by
    that permission alone is LOW. *)
Example unnamed_action_classified_by_first :
  Workspace.verdict (Workspace.progress None) = Some ("ROLE_MAX_RISK_EXCEEDED", "HIGH", 1%nat) /\
  Workspace.verdict (Workspace.progress (Some "api:task_progress")) = Some ("ALLOW", "LOW", 0%nat) /\
  _classify excerpt {| q_permission := "ops.manage"; q_action := None; q_domain := None; q_channel_id := None;
    q_resource := None; q_side_effect := false; q_required_capability := None; q_correlation_id := "-";
    q_target_type := "action"; q_target_id := "-" |} = Ok ("LOW", "internal_write", "none").
Proof. vm_compute. done. Qed.

Lemma authorize_decides_witness :
  exists rca, _classify excerpt (Workspace.progress (Some "api:task_progress")) = Ok rca /\
    decides (authorize Workspace.hash excerpt "aud-1" Workspace.db 5 "acct-w"
      (Workspace.progress (Some "api:task_progress")) []) "acct-w"
      (Workspace.progress (Some "api:task_progress")) [] rca
      (entitled excerpt Workspace.db 5 "acct-w" (Workspace.progress (Some "api:task_progress")) rca.1.1).
Proof.
  apply (authorize_decides Workspace.hash excerpt excerpt).
  - exact excerpt_valid.
  - vm_compute. reflexivity.
  - apply (bool_decide_unpack _). vm_compute. exact I.
Defined.

Lemma revoked_role_stays_revoked_witness :
  Forall (fun r => r.(role_id) <> "role-agent-worker")
    (effective_roles (perform_all Workspace.hash [RevokeRole "uuid-w" "role-x" 9 None]
      (revoke_role "uuid-w" "role-agent-worker" 7 None Workspace.db).2) Workspace.worker 8).
Proof.
  apply Forall_forall. intros r Hr.
  refine (proj1 (revoked_role_stays_revoked Workspace.hash Workspace.db Workspace.worker
    "role-agent-worker" 7 None [RevokeRole "uuid-w" "role-x" 9 None] 8 r _ Hr)).
  constructor; [|constructor]. intros [].
Defined.

Definition roles_at (now : Z) : list Role := effective_roles Workspace.db Workspace.worker now.

Definition snap (now : Z) : PolicySnapshot :=
  match snapshot_of Workspace.hash "acct-w" (roles_at now) ∅ now with
  | Ok s => s
  | Err _ => {| snap_account := ""; snap_role_versions := []; snap_capabilities := [];
                snap_policy_hash := []; snap_computed_at := 0 |}
  end.

Lemma snapshot_pins_policy_witness :
  (fun r => (r.(role_id), r.(version))) <$> roles_at 5 ≡ₚ (fun r => (r.(role_id), r.(version))) <$> roles_at 6.
Proof.
  destruct (snapshot_pins_policy Workspace.hash "acct-w" (roles_at 5) ∅ 5 "acct-w" (roles_at 6) ∅ 6
    (snap 5) (snap 6)) as (_ & _ & H).
  - vm_compute. reflexivity.
  - vm_compute. reflexivity.
  - intros b b' _ _ E. exact E.
  - vm_compute. reflexivity.
  - exact H.
Defined.

Lemma role_versions_append_only_witness :
  map_Forall (fun k v => (perform_all Workspace.hash Workspace.set_up Workspace.db).(role_versions) !! k = Some v)
    Workspace.db.(role_versions).
Proof.
  intros k v Hk.
  destruct (role_versions_append_only Workspace.hash Workspace.empty Workspace.set_up Workspace.set_up
    "role-ops" [] [] (Workspace.raw None) "root" None) as [H _].
  - split; reflexivity.
  - exact (proj1 (H k v Hk)).
Defined.
