(* ===== verification/EventLog.v ===== *)
(** What the services promise each other. A service appends to the Event store through
    the interface [EventLogI], which states what an append does to the log of recorded
    Events, and reads what it appended through [EventReadI]. The in-memory store of
    [server/events/store.py] implements the first; a list of numbered Events, for the
    examples of the services, implements both. *)

From S2P Require Import Prelude Tx Canonical HashChain EventStore.
Open Scope Z_scope.

(** ** The log of recorded Events *)

Definition key_of (e : Event) : idem_key :=
  (e.(workspace_id), e.(actor_account_id), e.(idempotency_scope), e.(idempotency_key)).

Definition aggregate_of_request (r : AppendRequest) : ustr * ustr * ustr :=
  (r.(r_workspace_id), r.(r_aggregate_type), r.(r_aggregate_id)).

Definition in_stream (agg : ustr * ustr * ustr) (log : list Event) : list Event :=
  filter (fun e => aggregate_of e = agg) log.

(** The Event stores the request. *)
Record records (r : AppendRequest) (e : Event) : Prop := {
  rec_aggregate : aggregate_of e = aggregate_of_request r;
  rec_key : key_of e = request_key r;
  rec_type : e.(event_type) = r.(r_type) }.

(** Requests whose body has no floating-point number and nothing to encrypt: for
    them the hash of the body tells different bodies apart. *)
Definition plain (r : AppendRequest) : Prop :=
  no_floats (JObj r.(r_payload)) = true /\ r.(r_sensitive) = None.

Variant append_effect (log : list Event) (r : AppendRequest) (a : AppendResult) : list Event -> Prop :=
| effect_replayed e :
    a.(replayed) = true -> e ∈ log -> e.(event_id) = a.(a_event_id) -> records r e ->
    append_effect log r a log
| effect_recorded e :
    a.(replayed) = false -> e.(event_id) = a.(a_event_id) -> records r e ->
    e.(payload) = r.(r_payload) -> e.(aggregate_seq) = a.(a_aggregate_seq) ->
    a.(a_aggregate_seq) = Z.of_nat (length (in_stream (aggregate_of_request r) log)) + 1 ->
    (forall x, r.(r_expected_seq) = Some x -> x = a.(a_aggregate_seq)) ->
    append_effect log r a (log ++ [e]).

Class EventLogI (ES : Type) := {
  el_append : AppendRequest -> ES -> res (AppendResult * ES);
  el_log : ES -> list Event;
  el_ok : ES -> Prop;
  el_append_ok r s a s' : el_ok s -> plain r -> el_append r s = Ok (a, s') -> el_ok s';
  el_append_effect r s a s' :
    el_ok s -> plain r -> el_append r s = Ok (a, s') -> append_effect (el_log s) r a (el_log s') }.

Lemma in_stream_app agg l1 l2 : in_stream agg (l1 ++ l2) = in_stream agg l1 ++ in_stream agg l2.
Proof. apply filter_app. Qed.

Lemma in_stream_one agg e : in_stream agg [e] = if decide (aggregate_of e = agg) then [e] else [].
Proof. unfold in_stream. rewrite filter_cons, filter_nil. by case_decide. Qed.

(** ** The in-memory store behind the interface *)

Section memory.
Context (sha256_hex : list N -> ustr) (Hsha : forall b1 b2, sha256_hex b1 = sha256_hex b2 -> b1 = b2).
Context (now : ustr).

Definition memory_id (s : InMemoryEventStore) : ustr := str_int (Z.of_nat (length s.(events))).

Definition memory_append (r : AppendRequest) (s : InMemoryEventStore)
    : res (AppendResult * InMemoryEventStore) :=
  match append sha256_hex (memory_id s) now r s with
  | (s', Ok a) => Ok (a, s')
  | (_, Err e) => Err e
  end.

Record memory_ok (s : InMemoryEventStore) : Prop := {
  mem_ids i e : s.(events) !! i = Some e -> e.(event_id) = lit "evt-" ++ str_int (Z.of_nat i);
  mem_seqs agg i e : in_stream agg s.(events) !! i = Some e -> e.(aggregate_seq) = Z.of_nat i + 1;
  mem_index k bh eid : s.(_idem) !! k = Some (bh, eid) -> exists e r,
    e ∈ s.(events) /\ e.(event_id) = eid /\ request_key r = k /\ records r e /\ plain r /\
    request_body_hash sha256_hex r = Ok bh }.

Lemma memory_ok_empty : memory_ok empty_store.
Proof. split; cbn; intros; simplify_eq; done. Qed.

Lemma evt_id_inj i j : lit "evt-" ++ str_int (Z.of_nat i) = lit "evt-" ++ str_int (Z.of_nat j) -> i = j.
Proof.
  intros H%(inj (app _)). apply Nat2Z.inj.
  destruct (str_int_prefix_free (Z.of_nat i) (Z.of_nat j) [] []) as [E _]; [exact I|exact I|by rewrite H|exact E].
Qed.

Lemma memory_id_unique s e1 e2 :
  memory_ok s -> e1 ∈ s.(events) -> e2 ∈ s.(events) -> e1.(event_id) = e2.(event_id) -> e1 = e2.
Proof.
  intros Hok [i Hi]%list_elem_of_lookup [j Hj]%list_elem_of_lookup E.
  rewrite (mem_ids s Hok i e1 Hi), (mem_ids s Hok j e2 Hj) in E. apply evt_id_inj in E as ->. congruence.
Qed.

Lemma append_expected new_id r s s' a x :
  append sha256_hex new_id now r s = (s', Ok a) -> a.(replayed) = false -> r.(r_expected_seq) = Some x ->
  x = a.(a_aggregate_seq).
Proof.
  unfold append. intros H Hrep Hx. rewrite Hx in H.
  destruct (request_body_hash _ _) as [bh|]; [|done].
  destruct (s.(_idem) !! _) as [[bh' eid]|].
  - case_bool_decide; [done|]. destruct (find _ _); [|done]. injection H as <- <-. done.
  - destruct (Z.eqb_spec x (match _last (events s) (r_workspace_id r, r_aggregate_type r, r_aggregate_id r) with
      | Some l => aggregate_seq l + 1 | None => 1 end)) as [E|]; cbn [negb] in H; [|done].
    destruct (negb _); [done|]. destruct (compute_content_hash _ _); [|done]. by injection H as <- <-.
Qed.

(** Two plain requests with one body hash have the same aggregate and type. *)
Lemma body_hash_identifies r1 r2 bh :
  plain r1 -> plain r2 -> request_body_hash sha256_hex r1 = Ok bh -> request_body_hash sha256_hex r2 = Ok bh ->
  aggregate_of_request r1 = aggregate_of_request r2 /\ r1.(r_type) = r2.(r_type).
Proof.
  intros [Hf1 Hs1] [Hf2 Hs2] H1 H2. unfold request_body_hash in *. rewrite Hs1 in H1. rewrite Hs2 in H2.
  apply res_bind_ok in H1 as (b1 & H1 & E1), H2 as (b2 & H2 & E2).
  assert (b1 = b2) as <- by (apply Hsha; congruence).
  assert (forall o, no_floats (jopt o) = true) as Ho by by intros [].
  cbn [no_floats] in Hf1, Hf2.
  eapply canonical_json_eq_jeq in H1; [..|exact H2]; [|cbn; rewrite ?Hf1, ?Hf2, !Ho; done..].
  apply jeq_same_keys in H1; [|by apply (bool_decide_unpack _)|done].
  repeat match goal with
    | H : Forall2 _ (_ :: _) (_ :: _) |- _ =>
        let K := fresh "K" in apply Forall2_cons in H as [[_ K] H]; cbn [snd] in K
    end.
  repeat match goal with H : jeq (JStr _) _ |- _ => apply jeq_scalar in H; [|done] end.
  unfold aggregate_of_request. split; congruence.
Qed.

Lemma memory_ok_push s r bh e :
  memory_ok s -> plain r -> request_body_hash sha256_hex r = Ok bh -> records r e ->
  e.(event_id) = lit "evt-" ++ memory_id s ->
  e.(aggregate_seq) = Z.of_nat (length (in_stream (aggregate_of_request r) s.(events))) + 1 ->
  memory_ok {| events := s.(events) ++ [e]; _idem := <[request_key r := (bh, e.(event_id))]> s.(_idem) |}.
Proof.
  intros Hok Hpl Hb Hrec Hid Hseq. assert (aggregate_of e = aggregate_of_request r) as Hag by apply Hrec.
  split; cbn [events _idem].
  - intros i x [Hi|(Hi & Hsing)]%lookup_app_Some; [by apply (mem_ids s Hok)|].
    apply list_lookup_singleton_Some in Hsing as [Hz <-].
    replace i with (length s.(events)) by lia. exact Hid.
  - intros agg i x. rewrite in_stream_app, in_stream_one, Hag.
    case_decide as Hd; [|rewrite app_nil_r; apply (mem_seqs s Hok)].
    intros [Hi|(Hi & Hsing)]%lookup_app_Some; [by apply (mem_seqs s Hok agg)|].
    apply list_lookup_singleton_Some in Hsing as [Hz <-]. rewrite Hseq, Hd. lia.
  - intros k bh' eid. rewrite lookup_insert_Some. intros [[<- [= <- <-]]|[_ Hk]].
    + exists e, r. split_and!; try done. apply elem_of_app. right. by left.
    + destruct (mem_index s Hok _ _ _ Hk) as (x & r0 & Hx & Hrest). exists x, r0.
      split; [apply elem_of_app; by left|done].
Qed.

Lemma next_seq s agg :
  memory_ok s -> (match last (stream s agg) with Some l => l.(aggregate_seq) + 1 | None => 1 end) =
  Z.of_nat (length (in_stream agg s.(events))) + 1.
Proof.
  intros Hok. change (stream s agg) with (in_stream agg s.(events)).
  destruct (last (in_stream agg s.(events))) as [x|] eqn:Hl.
  - rewrite last_lookup in Hl. apply (mem_seqs s Hok) in Hl as Hx. rewrite Hx. apply lookup_lt_Some in Hl. lia.
  - apply last_None in Hl. by rewrite Hl.
Qed.

Lemma memory_append_ok_effect r s a s' :
  memory_ok s -> plain r -> memory_append r s = Ok (a, s') ->
  memory_ok s' /\ append_effect s.(events) r a s'.(events).
Proof.
  intros Hok Hpl. unfold memory_append.
  pose proof (append_cases sha256_hex (memory_id s) now r s) as Hc.
  destruct (append _ _ _ _ _) as [x [b|e]] eqn:Happ; [|done]. intros [= <- <-]. cbn in Hc.
  inversion Hc as [|bh prior Hb Hi Hin|bh h event Hb Hnone l Hev Hh]; subst x b.
  - split; [done|]. destruct (mem_index s Hok _ _ _ Hi) as (e & r0 & He & Heid & Hk & [Ha Hk' Ht] & Hpl0 & Hb0).
    assert (e = prior) as -> by by apply (memory_id_unique s).
    destruct (body_hash_identifies r0 r bh Hpl0 Hpl Hb0 Hb) as [Ea Et].
    apply effect_replayed with prior; [done..|]. split; congruence.
  - clear Hc Hh. assert (match l with Some l => l.(aggregate_seq) + 1 | None => 1 end =
      Z.of_nat (length (in_stream (aggregate_of_request r) s.(events))) + 1) as Hn
      by exact (next_seq s (aggregate_of_request r) Hok).
    rewrite Hn in *. split.
    + by apply memory_ok_push; subst event.
    + cbn [events]. apply effect_recorded; try done; try by subst event.
      intros x Hx. by apply (append_expected (memory_id s) r s _ _ x Happ).
Qed.

(** *** Appends that succeed *)

(** Every text of the request can be encoded. *)
Definition request_text (r : AppendRequest) : bool :=
  forallb (forallb code_point) [r.(r_workspace_id); r.(r_aggregate_type); r.(r_aggregate_id); r.(r_type); r.(r_actor_account_id);
    r.(r_correlation_id); r.(r_idempotency_scope); r.(r_idempotency_key); r.(r_policy_version)] &&
  text_ok (JObj r.(r_payload)) && text_ok (jopt r.(r_channel_id)) && text_ok (jopt r.(r_task_id)) && text_ok (jopt r.(r_caused_by)).

(** A store as [append] leaves it: every hash on record is a text. *)
Record memory_sound (s : InMemoryEventStore) : Prop := {
  ms_ok : memory_ok s;
  ms_hashes : Forall (fun e => text_ok (jopt e.(content_hash)) = true) s.(events) }.

Lemma memory_sound_empty : memory_sound empty_store.
Proof. split; [apply memory_ok_empty|constructor]. Qed.

Lemma jopt_no_floats o : no_floats (jopt o) = true.
Proof. by destruct o. Qed.

Lemma body_hash_total r : plain r -> request_text r = true -> exists bh, request_body_hash sha256_hex r = Ok bh.
Proof.
  intros [Hf Hs] Ht. unfold request_body_hash. rewrite Hs. unfold request_text in Ht. cbn [forallb] in Ht.
  rewrite !andb_true_iff in Ht. destruct Ht as [[[[(T1 & T2 & T3 & T4 & _) Tp] Tc] Tt] Tb].
  match goal with |- context [canonical_json ?v] => destruct (canonical_json_total v) as [b ->] end; [| |by eexists].
  - cbn -[no_floats jopt]. cbn [no_floats forallb fst snd]. cbn in Hf. by rewrite Hf, !jopt_no_floats.
  - cbn -[jopt text_ok]. cbn [text_ok forallb fst snd]. cbn in Tp. by rewrite T1, T2, T3, T4, Tp, Tc, Tt, Tb.
Qed.

Lemma content_hash_total new_id r seq prev :
  forallb code_point new_id = true -> forallb code_point now = true -> plain r -> request_text r = true -> text_ok (jopt prev) = true ->
  exists h, compute_content_hash sha256_hex (new_event new_id now r seq prev None None) = Ok h.
Proof.
  intros Hid Hnow [Hf _] Ht Hp. unfold compute_content_hash, hash_input, hash_body. cbn [sensitive_payload_ciphertext new_event ciphertext_digest mbind res_bind].
  unfold request_text in Ht. cbn [forallb] in Ht. rewrite !andb_true_iff in Ht.
  destruct Ht as [[[[(T1 & T2 & T3 & T4 & T5 & T6 & T7 & T8 & T9 & _) Tp] Tc] Tt] Tb]. unfold HASHED_METADATA_FIELDS. cbn [app].
  match goal with |- context [canonical_json ?v] => destruct (canonical_json_total v) as [b ->] end; [| |by eexists].
  - cbn -[jopt]. cbn in Hf. by rewrite Hf, !jopt_no_floats.
  - cbn -[jopt]. rewrite Hid. cbn in Tp. by rewrite T1, T2, T3, T4, T5, T6, T7, T8, T9, Tp, Tc, Tt, Tb, Hnow, Hp.
Qed.

(** A request without a cause and an expected number is recorded, replayed, or refused as
    another body under its key. *)
Lemma memory_append_total r s :
  (forall b, forallb code_point (sha256_hex b) = true) -> forallb code_point now = true ->
  memory_sound s -> plain r -> request_text r = true -> r.(r_caused_by) = None -> r.(r_expected_seq) = None ->
  match memory_append r s with Ok (_, s') => memory_sound s' | Err e => e = "IDEMPOTENCY_CONFLICT" end.
Proof.
  intros Hhex Hnow [Hok Hh] Hpl Ht Hc He. destruct (memory_append r s) as [[a s']|e] eqn:Happ.
  - split; [by eapply memory_append_ok_effect|]. unfold memory_append in Happ.
    pose proof (append_cases sha256_hex (memory_id s) now r s) as Hcase.
    destruct (append _ _ _ _ _) as [x [b|]]; [|done]. injection Happ as -> ->. cbn in Hcase.
    inversion Hcase as [|bh prior|bh h event Hb Hnone l Hev Hch]; subst s'; [done|]. cbn [events]. apply Forall_app. split; [done|].
    constructor; [|constructor]. subst event. cbn. unfold compute_content_hash in Hch.
    by apply res_bind_ok in Hch as (bytes & _ & [= <-]).
  - unfold memory_append, append in Happ. destruct (body_hash_total r Hpl Ht) as [bh Hbh]. rewrite Hbh in Happ.
    destruct (_idem s !! request_key r) as [[bh' eid]|] eqn:Hk.
    + case_bool_decide; [by injection Happ as <-|]. destruct (mem_index s Hok _ _ _ Hk) as (ev & _ & Hin & Hid & _).
      destruct (find _ _) eqn:Hf; [done|]. apply list_elem_of_In, (find_none _ _ Hf) in Hin.
      by rewrite bool_decide_eq_true_2 in Hin.
    + rewrite He in Happ. unfold known_cause in Happ. rewrite Hc in Happ. cbn [negb] in Happ.
      match type of Happ with context [compute_content_hash _ (new_event ?i _ _ ?q ?p _ _)] =>
        destruct (content_hash_total i r q p) as [h Hhash] end; try done.
      * apply str_int_text.
      * rewrite last_of_stream. destruct (last (stream _ _)) as [x|] eqn:Hl; [|done]. cbn [mbind option_bind].
        apply last_Some in Hl as (l' & Hl). assert (x ∈ events s) as Hx.
        { assert (x ∈ stream s (r_workspace_id r, r_aggregate_type r, r_aggregate_id r)) as Hx by (rewrite Hl; apply elem_of_app; right; by left).
          by apply list_elem_of_filter in Hx as [_ Hx]. }
        rewrite Forall_forall in Hh. by apply Hh.
      * by rewrite Hhash in Happ.
Qed.

#[local] Instance memory_log : EventLogI InMemoryEventStore.
Proof.
  refine {| el_append := memory_append; el_log := events; el_ok := memory_ok |}.
  - intros r s a s' Hok Hpl H. by apply (memory_append_ok_effect r s a s').
  - intros r s a s' Hok Hpl H. by apply (memory_append_ok_effect r s a s').
Defined.
End memory.

(** ** The smallest log

    A list of Events, for the examples of the services: a request whose key, aggregate
    and type are on record is a replay, anything else is recorded unless the caller
    expected another sequence number. *)

Definition repeats (r : AppendRequest) (e : Event) : bool :=
  bool_decide (key_of e = request_key r) && bool_decide (aggregate_of e = aggregate_of_request r) &&
  bool_decide (e.(event_type) = r.(r_type)).

Definition numbered (n : Z) (e : Event) : Event := {|
  event_id := e.(event_id); schema_version := e.(schema_version); workspace_id := e.(workspace_id);
  aggregate_type := e.(aggregate_type); aggregate_id := e.(aggregate_id); aggregate_seq := e.(aggregate_seq);
  channel_id := e.(channel_id); task_id := e.(task_id); event_type := e.(event_type);
  actor_account_id := e.(actor_account_id); caused_by := e.(caused_by); correlation_id := e.(correlation_id);
  idempotency_scope := e.(idempotency_scope); idempotency_key := e.(idempotency_key);
  policy_version := e.(policy_version); occurred_at := e.(occurred_at);
  sensitive_payload_key_ref := e.(sensitive_payload_key_ref); payload := e.(payload);
  sensitive_payload_ciphertext := e.(sensitive_payload_ciphertext); previous_hash := e.(previous_hash);
  content_hash := e.(content_hash); recorded_seq := n |}.

Definition list_append (r : AppendRequest) (l : list Event) : res (AppendResult * list Event) :=
  match find (repeats r) l with
  | Some e => Ok (result_of_event e true, l)
  | None =>
      let seq := Z.of_nat (length (in_stream (aggregate_of_request r) l)) + 1 in
      let e := numbered (Z.of_nat (length l) + 1) (new_event (str_int (Z.of_nat (length l))) (lit "t") r seq None None None) in
      if match r.(r_expected_seq) with Some x => x =? seq | None => true end
      then Ok (result_of_event e false, l ++ [e]) else Err "EXPECTED_SEQ_CONFLICT"
  end.

Lemma list_append_effect r l a l' : list_append r l = Ok (a, l') -> append_effect l r a l'.
Proof.
  unfold list_append. destruct (find _ _) as [e|] eqn:E.
  - intros [= <- <-]. apply find_some in E as [Hin Hr]. unfold repeats in Hr.
    rewrite !andb_true_iff, !bool_decide_eq_true in Hr. destruct Hr as [[Hk Ha] Ht].
    by apply effect_replayed with e; [|apply list_elem_of_In| |].
  - destruct (match r_expected_seq r with Some x => _ | None => _ end) eqn:Ex; [|done]. intros [= <- <-].
    apply effect_recorded; try done. intros x Hx. rewrite Hx in Ex. by apply Z.eqb_eq in Ex.
Qed.

Definition list_log : EventLogI (list Event) := {|
  el_append := list_append; el_log l := l; el_ok _ := True;
  el_append_ok _ _ _ _ _ _ _ := I;
  el_append_effect r l a l' _ _ H := list_append_effect r l a l' H |}.

(** ** Reading an Event back

    What a service may read of the Events it appended: the request, in the order of
    recording ([PostgresEventStore.get] and its identity column recorded_seq). *)

Record stores (r : AppendRequest) (a : AppendResult) (e : Event) : Prop := {
  st_records : records r e;
  st_id : e.(event_id) = a.(a_event_id);
  st_seq : e.(aggregate_seq) = a.(a_aggregate_seq);
  st_task : e.(task_id) = r.(r_task_id);
  st_channel : e.(channel_id) = r.(r_channel_id);
  st_payload : e.(payload) = r.(r_payload);
  st_time : e.(occurred_at) <> [];
  st_recorded : 0 < e.(recorded_seq) }.

Class EventReadI (ES : Type) {ELI : EventLogI ES} := {
  el_get : ES -> ustr -> option Event;
  el_recorded r s a s' :
    el_ok s -> plain r -> el_append r s = Ok (a, s') -> a.(replayed) = false ->
    exists e, el_log s' = el_log s ++ [e] /\ el_get s' a.(a_event_id) = Some e /\ stores r a e /\
              Forall (fun x => x.(recorded_seq) < e.(recorded_seq)) (el_log s) }.

(** The list whose Events are numbered from 1; of two Events with one id, the later. *)
Definition in_sequence (l : list Event) : Prop := forall i e, l !! i = Some e -> e.(recorded_seq) = Z.of_nat i + 1.

Definition find_event (l : list Event) (id : ustr) : option Event :=
  last (List.filter (fun e => bool_decide (e.(event_id) = id)) l).

Lemma list_append_recorded r l a l' :
  in_sequence l -> list_append r l = Ok (a, l') -> a.(replayed) = false ->
  exists e, l' = l ++ [e] /\ find_event l' a.(a_event_id) = Some e /\ stores r a e /\
            Forall (fun x => x.(recorded_seq) < e.(recorded_seq)) l.
Proof.
  intros Hl. unfold list_append. destruct (find _ _); [intros [= <- <-]; done|].
  destruct (match r_expected_seq r with Some x => _ | None => _ end); [|done]. intros [= <- <-] _.
  set (e := numbered _ _). exists e. split; [done|]. split.
  - unfold find_event. rewrite List.filter_app, last_app. cbn. by rewrite bool_decide_eq_true_2.
  - split; [split; try done; cbn; lia|]. apply Forall_forall. intros x [i Hi]%list_elem_of_lookup. rewrite (Hl i x Hi). cbn.
    apply lookup_lt_Some in Hi. lia.
Qed.

Lemma list_append_in_sequence r l a l' : in_sequence l -> list_append r l = Ok (a, l') -> in_sequence l'.
Proof.
  intros Hl. unfold list_append. destruct (find _ _); [by intros [= _ <-]|].
  destruct (match r_expected_seq r with Some x => _ | None => _ end); [|done]. intros [= _ <-].
  intros i e [Hi|[Hlen Hi]]%lookup_app_Some; [by apply Hl|]. apply list_lookup_singleton_Some in Hi as [Hz <-]. cbn. lia.
Qed.

Definition numbered_log : EventLogI (list Event) := {|
  el_append := list_append; el_log l := l; el_ok := in_sequence;
  el_append_ok r l a l' Hl _ H := list_append_in_sequence r l a l' Hl H;
  el_append_effect r l a l' _ _ H := list_append_effect r l a l' H |}.

Definition numbered_reads : @EventReadI (list Event) numbered_log :=
  @Build_EventReadI (list Event) numbered_log find_event
    (fun r l a l' Hl _ H Hr => list_append_recorded r l a l' Hl H Hr).
