(* ===== verification/Outbox.v ===== *)
(** The delivery outbox of notifications ([server/notifications/outbox.py]): rows
    written with the notification they carry, and the drain that hands the due ones
    to a provider, with a backoff between attempts. The provider is an argument: a
    state machine that takes a message or raises; it is outside of the transaction,
    so what it sent stays sent when the drain fails. *)

From S2P Require Import Prelude Tx Defaults Canonical HashChain EventStore EventLog.
Open Scope Z_scope.

Definition BACKOFF_S : list Z := [1; 5; 25; 125; 625].
Definition DEFAULT_MAX_ATTEMPTS : Z := 5.

Inductive OutboxStatus := PENDING | SENT | DEAD.
#[global] Instance OutboxStatus_eq_dec : EqDecision OutboxStatus.
Proof. solve_decision. Defined.

Definition payload_t : Type := list (ustr * json).

(** A row of [delivery_outbox]. *)
Record OutboxRow := {
  row_id : Z;
  outbox_id : string;
  o_workspace : string;
  o_kind : string;
  destination : ustr;
  dedupe_key : ustr;
  o_payload : payload_t;
  source_event_id : option ustr;
  o_status : OutboxStatus;
  attempts : Z;
  next_attempt_at : Z;
  last_error : option ustr;
  sent_at : option Z }.

Record NotificationRow := { n_id : ustr; n_status : string; n_sent_at : option Z }.

Record DrainResult := { sent : Z; failed : Z; dead : Z; events_appended : Z }.

Definition jget (k : string) (d : payload_t) : option json :=
  snd <$> find (fun kv => bool_decide (kv.1 = lit k)) d.

(** [str(d.get(k))], for the texts and the absent keys of these payloads. *)
Definition text_of (other : json -> ustr) (v : option json) : ustr :=
  match v with
  | None | Some JNull => lit "None"
  | Some (JStr s) => s
  | Some v => other v
  end.

Section outbox.
Context {ES : Type} {ELI : EventLogI ES}.
(** [str] of a value that is not a text. *)
Context (str_value : json -> ustr).

Record Db := {
  rows : list OutboxRow;
  next_row : Z;
  notifications : list NotificationRow;
  store : ES }.

Definition with_rows (r : list OutboxRow) (db : Db) : Db := {|
  rows := r; next_row := db.(next_row); notifications := db.(notifications); store := db.(store) |}.

(** ** Writing rows *)

Record EnqueueArgs := {
  e_workspace : string; e_kind : string; e_destination : ustr; e_dedupe_key : ustr; e_payload : payload_t;
  e_source : option ustr; e_next : Z }.

Definition new_row (hex : string) (a : EnqueueArgs) (id : Z) : OutboxRow := {|
  row_id := id; outbox_id := "obx-" +:+ hex; o_workspace := a.(e_workspace); o_kind := a.(e_kind);
  destination := a.(e_destination); dedupe_key := a.(e_dedupe_key); o_payload := a.(e_payload);
  source_event_id := a.(e_source); o_status := PENDING; attempts := 0; next_attempt_at := a.(e_next);
  last_error := None; sent_at := None |}.

Definition has_key (key : ustr) (r : OutboxRow) : bool := bool_decide (r.(dedupe_key) = key).

(** A conflict takes a number of the sequence too. *)
Definition enqueue (hex : string) (a : EnqueueArgs) : tx Db (option string) := fun db =>
  let r := new_row hex a db.(next_row) in
  let db' rows := {| rows := rows; next_row := db.(next_row) + 1; notifications := db.(notifications); store := db.(store) |} in
  if existsb (has_key a.(e_dedupe_key)) db.(rows) then Ok (None, db' db.(rows))
  else if existsb (fun x => String.eqb x.(outbox_id) r.(outbox_id)) db.(rows) then Err "IntegrityError"
  else Ok (Some r.(outbox_id), db' (db.(rows) ++ [r])).

Definition items (p : payload_t) : list json := match jget "items" p with Some (JArr l) => l | _ => [] end.

(** [jsonb_set(payload, '{items}', old || new)] *)
Definition with_items (l : list json) (p : payload_t) : payload_t :=
  map (fun kv => if bool_decide (kv.1 = lit "items") then (kv.1, JArr l) else kv) p.

Definition with_payload (p : payload_t) (r : OutboxRow) : OutboxRow := {|
  row_id := r.(row_id); outbox_id := r.(outbox_id); o_workspace := r.(o_workspace); o_kind := r.(o_kind);
  destination := r.(destination); dedupe_key := r.(dedupe_key); o_payload := p; source_event_id := r.(source_event_id);
  o_status := r.(o_status); attempts := r.(attempts); next_attempt_at := r.(next_attempt_at);
  last_error := r.(last_error); sent_at := r.(sent_at) |}.

Definition digest_args (workspace : string) (recipient key : ustr) (item : payload_t) (source : ustr) (deliver_at : Z)
    : EnqueueArgs := {|
  e_workspace := workspace; e_kind := "notification_digest"; e_destination := lit "mattermost:dm:" ++ recipient;
  e_dedupe_key := key; e_source := Some source; e_next := deliver_at;
  e_payload := [(lit "digest", JBool true); (lit "recipient_account_id", JStr recipient);
                (lit "items", JArr [JObj item])] |}.

Definition enqueue_digest (hex workspace : string) (recipient key : ustr) (item : payload_t) (source : ustr)
    (deliver_at : Z) : tx Db string := fun db =>
  let a := digest_args workspace recipient key item source deliver_at in
  match find (has_key key) db.(rows) with
  | Some old =>
      let add r := if has_key key r then with_payload (with_items (items r.(o_payload) ++ [JObj item]) r.(o_payload)) r else r in
      Ok (old.(outbox_id), {| rows := map add db.(rows); next_row := db.(next_row) + 1;
                              notifications := db.(notifications); store := db.(store) |})
  | None =>
      match enqueue hex a db with
      | Ok (Some id, db') => Ok (id, db')
      | Ok (None, _) => Err "AssertionError"
      | Err e => Err e
      end
  end.

(** [for tag, when in times: for channel in channels], one fresh hex text per row. *)
Fixpoint schedule_each (workspace : string) (notification recipient source : ustr) (extra : payload_t)
    (l : list ((ustr * Z) * ustr * string)) : tx Db (list string) :=
  match l with
  | [] => mret []
  | ((tag, at_), channel, hex) :: l =>
      id ← enqueue hex {|
        e_workspace := workspace; e_kind := "notification_reminder";
        e_destination := channel ++ lit ":" ++ recipient;
        e_dedupe_key := notification ++ lit "|" ++ channel ++ lit "|" ++ tag;
        e_payload := [(lit "notification_id", JStr notification); (lit "recipient_account_id", JStr recipient);
                      (lit "channel", JStr channel); (lit "reminder", JStr tag)] ++ extra;
        e_source := Some source; e_next := at_ |};
      ids ← schedule_each workspace notification recipient source extra l;
      mret (match id with Some i => i :: ids | None => ids end)
  end.

Definition schedule_reminders (workspace : string) (notification recipient : ustr) (channels : list ustr)
    (times : list (ustr * Z)) (source : ustr) (extra : payload_t) (hexes : list string) : tx Db (list string) :=
  schedule_each workspace notification recipient source extra
    (zip (t ← times; c ← channels; [(t, c)]) hexes).

Definition with_outcome (st : OutboxStatus) (n : Z) (next : Z) (err : option ustr) (at_ : option Z) (r : OutboxRow)
    : OutboxRow := {|
  row_id := r.(row_id); outbox_id := r.(outbox_id); o_workspace := r.(o_workspace); o_kind := r.(o_kind);
  destination := r.(destination); dedupe_key := r.(dedupe_key); o_payload := r.(o_payload);
  source_event_id := r.(source_event_id); o_status := st; attempts := n; next_attempt_at := next;
  last_error := err; sent_at := at_ |}.

(** A pending reminder of the notification. *)
Definition cancellable (notification : ustr) (r : OutboxRow) : bool :=
  bool_decide (r.(o_status) = PENDING) && match jget "notification_id" r.(o_payload) with Some (JStr s) => bool_decide (s = notification) | _ => false end &&
  String.eqb r.(o_kind) "notification_reminder".

Definition cancel_pending (notification reason : ustr) : tx Db nat := fun db =>
  Ok (length (List.filter (cancellable notification) db.(rows)),
      with_rows (map (fun r => if cancellable notification r
        then with_outcome DEAD r.(attempts) r.(next_attempt_at) (Some reason) r.(sent_at) r else r) db.(rows)) db).

(** ** The drain *)

Definition by_due (a b : OutboxRow) : bool :=
  if a.(next_attempt_at) =? b.(next_attempt_at) then a.(row_id) <=? b.(row_id)
  else a.(next_attempt_at) <=? b.(next_attempt_at).

(** [FOR UPDATE SKIP LOCKED]: rows another drain holds are passed over. *)
Definition is_due (locked : list Z) (ws : string) (now : Z) (r : OutboxRow) : bool :=
  String.eqb r.(o_workspace) ws && bool_decide (r.(o_status) = PENDING) && (r.(next_attempt_at) <=? now) &&
  negb (mem r.(row_id) locked).

Definition due (locked : list Z) (ws : string) (now : Z) (batch : nat) (db : Db) : list OutboxRow :=
  take batch (py_sorted by_due (List.filter (is_due locked ws now) db.(rows))).

(** [UPDATE delivery_outbox SET ... WHERE id = :i] *)
Definition update_outbox (id : Z) (f : OutboxRow -> OutboxRow) (db : Db) : Db :=
  with_rows (map (fun r => if r.(row_id) =? id then f r else r) db.(rows)) db.

Definition backoff (n : Z) : Z := nth (Z.to_nat (Z.min (n - 1) (Z.of_nat (length BACKOFF_S) - 1))) BACKOFF_S 0.

Definition mark_failed (max now : Z) (r : OutboxRow) (error : ustr) (db : Db) : Db :=
  let n := r.(attempts) + 1 in
  update_outbox r.(row_id) (fun x =>
    with_outcome (if max <=? n then DEAD else x.(o_status)) n
      (if max <=? n then x.(next_attempt_at) else now + seconds (backoff n)) (Some (take 500 error)) x.(sent_at) x) db.

Definition mark_sent (now : Z) (r : OutboxRow) (db : Db) : Db :=
  update_outbox r.(row_id) (fun x => with_outcome SENT (x.(attempts) + 1) x.(next_attempt_at) x.(last_error) (Some now) x) db.

Definition sent_request (ws actor : string) (r : OutboxRow) (notification : ustr) : AppendRequest := {|
  r_workspace_id := lit ws; r_aggregate_type := lit "notification"; r_aggregate_id := notification;
  r_type := lit "NOTIFICATION_SENT"; r_actor_account_id := lit actor;
  r_correlation_id := match jget "event_id" r.(o_payload) with
                      | Some v => text_of str_value (Some v) | None => lit r.(outbox_id) end;
  r_idempotency_scope := lit "notification:send"; r_idempotency_key := lit r.(outbox_id);
  r_payload := [(lit "notification_id", JStr notification);
                (lit "rule_id", JStr (text_of str_value (jget "rule_id" r.(o_payload))));
                (lit "recipient_account_id", JStr (text_of str_value (jget "recipient_account_id" r.(o_payload))));
                (lit "channel", JStr (text_of str_value (jget "channel" r.(o_payload))))];
  r_policy_version := lit "policy-v1"; r_channel_id := None; r_task_id := None; r_caused_by := None;
  r_expected_seq := None; r_sensitive := None; r_schema_version := 1 |}.

Definition notified (now : Z) (notification : ustr) (n : NotificationRow) : NotificationRow :=
  if bool_decide (n.(n_id) = notification) && String.eqb n.(n_status) "queued"
  then {| n_id := n.(n_id); n_status := "sent"; n_sent_at := Some now |} else n.

(** What follows a successful send; the number of Events appended. *)
Definition record_sent (ws actor : string) (now : Z) (r : OutboxRow) (db : Db) : res (Z * Db) :=
  let db := mark_sent now r db in
  match jget "notification_id" r.(o_payload) with
  | Some (JStr (c :: s)) =>
      if String.eqb r.(o_kind) "notification" then
        let notification := c :: s in
        let db := {| rows := db.(rows); next_row := db.(next_row);
                     notifications := map (notified now notification) db.(notifications); store := db.(store) |} in
        match el_append (sent_request ws actor r notification) db.(store) with
        | Ok (_, s') => Ok (1, {| rows := db.(rows); next_row := db.(next_row);
                                  notifications := db.(notifications); store := s' |})
        | Err e => if String.eqb e "IDEMPOTENCY_CONFLICT" then Ok (0, db) else Err e
        end
      else Ok (0, db)
  | _ => Ok (0, db)
  end.

(** The provider: the text of the exception it raised, if it did. *)
Context {P : Type} (send : ustr -> payload_t -> P -> P * option ustr).

Fixpoint deliver (ws actor : string) (max now : Z) (l : list OutboxRow) (p : P) (r : DrainResult) (db : Db)
    : P * res (DrainResult * Db) :=
  match l with
  | [] => (p, Ok (r, db))
  | row :: l =>
      match send row.(destination) row.(o_payload) p with
      | (p, Some error) =>
          let r' := if max <=? row.(attempts) + 1
            then {| sent := r.(sent); failed := r.(failed); dead := r.(dead) + 1; events_appended := r.(events_appended) |}
            else {| sent := r.(sent); failed := r.(failed) + 1; dead := r.(dead); events_appended := r.(events_appended) |} in
          deliver ws actor max now l p r' (mark_failed max now row error db)
      | (p, None) =>
          match record_sent ws actor now row db with
          | Ok (n, db) =>
              deliver ws actor max now l p {| sent := r.(sent) + 1; failed := r.(failed); dead := r.(dead);
                                             events_appended := r.(events_appended) + n |} db
          | Err e => (p, Err e)
          end
      end
  end.

Definition drain (locked : list Z) (ws actor : string) (now : Z) (batch : nat) (max : Z) (p : P) (db : Db)
    : P * res (DrainResult * Db) :=
  deliver ws actor max now (due locked ws now batch db) p
    {| sent := 0; failed := 0; dead := 0; events_appended := 0 |} db.

(** Drains one after the other, at the instants [ts]. *)
Fixpoint drain_at (ws actor : string) (batch : nat) (max : Z) (ts : list Z) (p : P) (db : Db) : P * res Db :=
  match ts with
  | [] => (p, Ok db)
  | t :: ts =>
      match drain [] ws actor t batch max p db with
      | (p, Ok (_, db)) => drain_at ws actor batch max ts p db
      | (p, Err e) => (p, Err e)
      end
  end.

(** ** What a drain does to the rows *)

Definition outcome_failed (max now : Z) (e : ustr) (x : OutboxRow) : OutboxRow :=
  with_outcome (if max <=? x.(attempts) + 1 then DEAD else x.(o_status)) (x.(attempts) + 1)
    (if max <=? x.(attempts) + 1 then x.(next_attempt_at) else now + seconds (backoff (x.(attempts) + 1)))
    (Some (take 500 e)) x.(sent_at) x.

Definition outcome_sent (now : Z) (x : OutboxRow) : OutboxRow :=
  with_outcome SENT (x.(attempts) + 1) x.(next_attempt_at) x.(last_error) (Some now) x.

Definition settled (max now : Z) (x x' : OutboxRow) : Prop :=
  x' = outcome_sent now x \/ exists e, x' = outcome_failed max now e x.

Definition ids_unique (db : Db) : Prop := NoDup (row_id <$> db.(rows)).

Lemma row_by_id db x y : ids_unique db -> x ∈ db.(rows) -> y ∈ db.(rows) -> x.(row_id) = y.(row_id) -> x = y.
Proof.
  intros Hnd [i Hi]%list_elem_of_lookup [j Hj]%list_elem_of_lookup E.
  assert (i = j) as ->; [|congruence].
  eapply NoDup_lookup; [exact Hnd|by rewrite list_lookup_fmap, Hi|by rewrite list_lookup_fmap, Hj, E].
Qed.

(** One row changed by its id. *)
Definition changes (db : Db) (row row' : OutboxRow) (db' : Db) : Prop :=
  db'.(rows) = (fun x => if x.(row_id) =? row.(row_id) then row' else x) <$> db.(rows).

Lemma update_changes db row f db' :
  ids_unique db -> row ∈ db.(rows) -> rows db' = rows (update_outbox row.(row_id) f db) -> changes db row (f row) db'.
Proof.
  intros Hnd Hrow Hr. unfold changes. rewrite Hr. cbn. apply map_ext_in. intros x Hx%list_elem_of_In.
  destruct (Z.eqb_spec x.(row_id) row.(row_id)) as [E|]; [|done]. by rewrite (row_by_id db x row Hnd Hx Hrow E).
Qed.

Lemma failed_changes max now row e db :
  ids_unique db -> row ∈ db.(rows) -> changes db row (outcome_failed max now e row) (mark_failed max now row e db).
Proof.
  intros Hnd Hrow. by apply (update_changes db row (fun x => with_outcome (if max <=? row.(attempts) + 1 then DEAD else x.(o_status))
    (row.(attempts) + 1) (if max <=? row.(attempts) + 1 then x.(next_attempt_at) else now + seconds (backoff (row.(attempts) + 1)))
    (Some (take 500 e)) x.(sent_at) x)).
Qed.

Lemma record_sent_rows ws actor now row db n db' :
  record_sent ws actor now row db = Ok (n, db') -> rows db' = rows (mark_sent now row db).
Proof.
  unfold record_sent. destruct (jget _ _) as [[| | | |[|c s]| |]|]; try by intros [= <- <-].
  destruct (String.eqb _ _); [|by intros [= <- <-]].
  destruct (el_append _ _) as [[a s']|x]; [by intros [= <- <-]|]. destruct (String.eqb x _); [by intros [= <- <-]|done].
Qed.

Lemma sent_changes ws actor now row db n db' :
  ids_unique db -> row ∈ db.(rows) -> record_sent ws actor now row db = Ok (n, db') ->
  changes db row (outcome_sent now row) db'.
Proof.
  intros Hnd Hrow H. apply (update_changes db row (outcome_sent now)); [done|done|]. by apply record_sent_rows in H.
Qed.

Lemma changes_ids db row row' db' : changes db row row' db' -> row'.(row_id) = row.(row_id) ->
  row_id <$> rows db' = row_id <$> rows db.
Proof.
  intros -> E. rewrite <- list_fmap_compose. apply list_fmap_ext. intros i x _. unfold compose.
  destruct (Z.eqb_spec x.(row_id) row.(row_id)); congruence.
Qed.

Lemma changes_keeps db row row' db' x : changes db row row' db' -> x ∈ rows db -> x.(row_id) <> row.(row_id) -> x ∈ rows db'.
Proof.
  intros -> Hx Hne. apply list_elem_of_fmap. exists x. split; [|done]. by rewrite (proj2 (Z.eqb_neq _ _) Hne).
Qed.

(** Each row of the batch is settled, the others stay. *)
Definition drained_row (max now : Z) (ids : list Z) (x x' : OutboxRow) : Prop :=
  (x.(row_id) ∈ ids /\ settled max now x x') \/ (x.(row_id) ∉ ids /\ x' = x).

Lemma settled_id max now x x' : settled max now x x' -> x'.(row_id) = x.(row_id).
Proof. by intros [->|[e ->]]. Qed.

Lemma drained_step max now db row row' db1 ids db2 :
  ids_unique db -> row ∈ rows db -> settled max now row row' -> changes db row row' db1 -> row.(row_id) ∉ ids ->
  Forall2 (drained_row max now ids) (rows db1) (rows db2) ->
  Forall2 (drained_row max now (row.(row_id) :: ids)) (rows db) (rows db2).
Proof.
  intros Hnd Hrow Hs Hc Hnew H. rewrite Hc in H. apply (proj1 (Forall2_fmap_l _ _ _ _)) in H.
  apply Forall2_same_length_lookup. split; [exact (Forall2_length _ _ _ H)|]. intros i x x2 Hx Hx2.
  pose proof (Forall2_lookup_lr _ _ _ _ _ _ H Hx Hx2) as Hr. unfold compose in Hr.
  destruct (Z.eqb_spec x.(row_id) row.(row_id)) as [E|E].
  - rewrite (row_by_id db x row Hnd (list_elem_of_lookup_2 _ _ _ Hx) Hrow E). left. split; [left|].
    destruct Hr as [[Hin _]|[_ ->]]; [|done]. rewrite (settled_id _ _ _ _ Hs) in Hin. done.
  - destruct Hr as [[Hin Hset]|[Hnot ->]]; [left; split; [by right|done]|right; split; [|done]].
    by rewrite not_elem_of_cons.
Qed.

Lemma deliver_settles ws actor max now l p r db p' r' db' :
  ids_unique db -> NoDup (row_id <$> l) -> (forall x, x ∈ l -> x ∈ rows db) ->
  deliver ws actor max now l p r db = (p', Ok (r', db')) ->
  Forall2 (drained_row max now (row_id <$> l)) (rows db) (rows db') /\
  r'.(sent) + r'.(failed) + r'.(dead) = r.(sent) + r.(failed) + r.(dead) + Z.of_nat (length l).
Proof.
  revert p r db. induction l as [|row l IH]; intros p r db Hnd Hl Hin H; cbn [deliver] in H.
  { injection H as <- <- <-. split; [|cbn; lia]. apply Forall2_same_length_lookup. split; [done|].
    intros i x y Hx Hy. assert (x = y) as -> by congruence. right. split; [apply not_elem_of_nil|done]. }
  cbn [fmap list_fmap] in Hl. apply NoDup_cons in Hl as [Hnew Hl]. assert (row ∈ rows db) as Hrow by (apply Hin; left).
  assert (forall row' db1 p1 r1, settled max now row row' -> changes db row row' db1 ->
    deliver ws actor max now l p1 r1 db1 = (p', Ok (r', db')) -> r1.(sent) + r1.(failed) + r1.(dead) = r.(sent) + r.(failed) + r.(dead) + 1 ->
    Forall2 (drained_row max now (row_id <$> row :: l)) (rows db) (rows db') /\
    r'.(sent) + r'.(failed) + r'.(dead) = r.(sent) + r.(failed) + r.(dead) + Z.of_nat (length (row :: l))) as Hstep.
  { intros row' db1 p1 r1 Hs Hc Hd Hr. destruct (IH p1 r1 db1) as [H1 H2]; [| | |exact Hd|].
    - unfold ids_unique. by rewrite (changes_ids _ _ _ _ Hc (settled_id _ _ _ _ Hs)).
    - exact Hl.
    - intros x Hx. eapply changes_keeps; [exact Hc|apply Hin; by right|]. intros E. destruct Hnew. rewrite <- E.
      by apply list_elem_of_fmap_2.
    - split; [by eapply drained_step|]. cbn [length]. lia. }
  destruct (send _ _ _) as [p1 [e|]].
  - eapply Hstep; [right; exists e; reflexivity|by apply failed_changes|exact H|destruct (max <=? _); cbn; lia].
  - destruct (record_sent _ _ _ _ _) as [[n db1]|] eqn:E; [|done].
    eapply Hstep; [by left|by eapply sent_changes|exact H|cbn; lia].
Qed.

Lemma due_elem locked ws now batch db x :
  x ∈ due locked ws now batch db -> x ∈ rows db /\ is_due locked ws now x = true.
Proof.
  unfold due. intros Hx%subseteq_take. apply py_sorted_elem, list_elem_of_In, filter_In in Hx as [Hx Hd].
  split; [by apply list_elem_of_In|done].
Qed.

Lemma filter_sublist {A} (f : A -> bool) (l : list A) : sublist (List.filter f l) l.
Proof. induction l as [|x l IH]; cbn; [done|]. destruct (f x); by constructor. Qed.

Lemma due_nodup locked ws now batch db : ids_unique db -> NoDup (row_id <$> due locked ws now batch db).
Proof.
  intros Hnd. unfold due. eapply sublist_NoDup; [|apply fmap_sublist, sublist_take]. rewrite py_sorted_perm.
  eapply sublist_NoDup; [exact Hnd|]. exact (fmap_sublist _ _ _ (filter_sublist _ _)).
Qed.

Lemma drain_settles locked ws actor now batch max p db p' r db' :
  ids_unique db -> drain locked ws actor now batch max p db = (p', Ok (r, db')) ->
  Forall2 (drained_row max now (row_id <$> due locked ws now batch db)) (rows db) (rows db') /\
  r.(sent) + r.(failed) + r.(dead) = Z.of_nat (length (due locked ws now batch db)).
Proof.
  intros Hnd H. apply deliver_settles in H as [H1 H2]; [|done|by apply due_nodup|by intros x [Hx _]%due_elem].
  split; [done|]. cbn in H2. lia.
Qed.

Lemma drained_ids max now ids l l' : Forall2 (drained_row max now ids) l l' -> row_id <$> l' = row_id <$> l.
Proof.
  induction 1 as [|x x' l l' [[_ Hs]|[_ ->]] _ IH]; cbn; [done| |]; f_equal; try done. by eapply settled_id.
Qed.

(** ** How much is left to send *)

(** The attempts a row may still use. *)
Definition left_of (max : Z) (r : OutboxRow) : Z := if bool_decide (r.(o_status) = PENDING) then max - r.(attempts) else 0.

Definition left_in (max : Z) (l : list OutboxRow) : Z := foldr (fun r n => left_of max r + n) 0 l.

(** Pending rows have not used up their attempts. *)
Definition fresh (max : Z) (l : list OutboxRow) : Prop :=
  Forall (fun r => r.(o_status) = PENDING -> 0 <= r.(attempts) < max) l.

Lemma settled_left max now x x' :
  o_status x = PENDING -> 0 <= x.(attempts) < max -> settled max now x x' ->
  left_of max x' + 1 <= left_of max x /\ (o_status x' = PENDING -> 0 <= x'.(attempts) < max).
Proof.
  intros Hp Ha Hs. unfold left_of. rewrite Hp. destruct Hs as [->|[e ->]]; cbn [outcome_sent outcome_failed with_outcome o_status attempts].
  - rewrite bool_decide_eq_false_2 by done. rewrite bool_decide_eq_true_2 by done. split; [lia|done].
  - rewrite (bool_decide_eq_true_2 (PENDING = PENDING)) by done. rewrite Hp. destruct (Z.leb_spec max (attempts x + 1)).
    + rewrite bool_decide_eq_false_2 by done. split; [lia|done].
    + rewrite bool_decide_eq_true_2 by done. split; [lia|intros _; lia].
Qed.

(** A drain uses one attempt per row of its batch. *)
Lemma drained_left max now ids l l' :
  NoDup (row_id <$> l) -> NoDup ids -> (forall i, i ∈ ids -> i ∈ row_id <$> l) ->
  (forall x, x ∈ l -> x.(row_id) ∈ ids -> o_status x = PENDING) ->
  fresh max l -> Forall2 (drained_row max now ids) l l' ->
  left_in max l' + Z.of_nat (length ids) <= left_in max l /\ fresh max l'.
Proof.
  intros Hnd Hids Hin Hp Hf H.
  assert (length ids = length (filter (fun i => i ∈ ids) (row_id <$> l))) as ->.
  { apply Permutation_length, NoDup_Permutation; [done|by apply NoDup_filter|].
    intros i. rewrite list_elem_of_filter. split; [auto|tauto]. }
  clear Hnd Hids Hin. induction H as [|x x' l l' Hx H IH]; [split; [cbn; lia|constructor]|].
  apply Forall_cons in Hf as [Hfx Hf]. destruct IH as [Hle Hfr]; [intros y Hy; apply Hp; by right|done|].
  cbn [left_in foldr fmap list_fmap]. fold (left_in max l) (left_in max l'). rewrite filter_cons.
  destruct Hx as [[Hi Hs]|[Hi ->]].
  - assert (o_status x = PENDING) as Hpx by (apply Hp; [left|done]).
    destruct (settled_left _ _ _ _ Hpx (Hfx Hpx) Hs) as [Hl1 Hf1].
    rewrite decide_True by done. cbn [length]. split; [|by constructor]. unfold fmap in *. lia.
  - rewrite decide_False by done. split; [|by constructor]. unfold fmap in *. lia.
Qed.

Lemma due_pending locked ws now batch db x :
  ids_unique db -> x ∈ rows db -> x.(row_id) ∈ row_id <$> due locked ws now batch db -> is_due locked ws now x = true.
Proof.
  intros Hnd Hx (y & E & [Hy Hd]%due_elem)%list_elem_of_fmap. by rewrite (row_by_id db x y Hnd Hx Hy E).
Qed.

Lemma is_due_spec locked ws now r :
  is_due locked ws now r = true <->
  r.(o_workspace) = ws /\ o_status r = PENDING /\ r.(next_attempt_at) <= now /\ r.(row_id) ∉ locked.
Proof.
  unfold is_due. rewrite !andb_true_iff, String.eqb_eq, bool_decide_eq_true, Z.leb_le, negb_true_iff, mem_false. tauto.
Qed.

Lemma drain_left locked ws actor now batch max p db p' r db' :
  ids_unique db -> fresh max (rows db) -> drain locked ws actor now batch max p db = (p', Ok (r, db')) ->
  left_in max (rows db') + (r.(sent) + r.(failed) + r.(dead)) <= left_in max (rows db) /\
  fresh max (rows db') /\ ids_unique db'.
Proof.
  intros Hnd Hf H. pose proof (drain_settles _ _ _ _ _ _ _ _ _ _ _ Hnd H) as [Hr Hc].
  destruct (drained_left max now (row_id <$> due locked ws now batch db) (rows db) (rows db')) as [Hl Hfr];
    [exact Hnd|by apply due_nodup| | |exact Hf|exact Hr|].
  - intros i (x & -> & [Hx _]%due_elem)%list_elem_of_fmap. by apply list_elem_of_fmap_2.
  - intros x Hx Hi. by apply (due_pending _ _ _ _ _ _ Hnd Hx), is_due_spec in Hi as (_ & ? & _).
  - rewrite length_fmap, <- Hc in Hl. split_and!; [lia|exact Hfr|]. unfold ids_unique. by rewrite (drained_ids _ _ _ _ _ Hr).
Qed.

(** Committed drains, whoever makes them, of whatever workspace, at whatever time and
    with whatever provider, and the number of messages they handed to a provider. *)
Inductive drained (max : Z) : Db -> Z -> Db -> Prop :=
| Drained_nil db : drained max db 0 db
| Drained_cons locked ws actor now batch p db p' r db1 n db2 :
    drain locked ws actor now batch max p db = (p', Ok (r, db1)) -> drained max db1 n db2 ->
    drained max db (r.(sent) + r.(failed) + r.(dead) + n) db2.

(** C31. Delivery ends. However often the outbox is drained, and whatever the providers
    answer, the committed drains together hand over no more messages than
    [max_attempts] for each row that was pending, and no pending row ever has used up
    its attempts: a row is delivered, or dead after [max_attempts] failures. *)
Theorem attempts_bounded max db n db' :
  drained max db n db' -> ids_unique db -> fresh max (rows db) ->
  n + left_in max (rows db') <= left_in max (rows db) /\
  n <= max * Z.of_nat (length (List.filter (fun r => bool_decide (o_status r = PENDING)) (rows db))) /\
  fresh max (rows db').
Proof.
  intros H Hnd Hf. assert (n + left_in max (rows db') <= left_in max (rows db) /\ fresh max (rows db')) as [Hl Hfr].
  { induction H as [db|locked ws actor now batch p db p' r db1 n db2 Hd _ IH]; [split; [lia|done]|].
    destruct (drain_left _ _ _ _ _ _ _ _ _ _ _ Hnd Hf Hd) as (Hl & Hf1 & Hnd1). destruct (IH Hnd1 Hf1) as [H1 H2].
    split; [lia|exact H2]. }
  split_and!; [exact Hl| |exact Hfr].
  assert (0 <= left_in max (rows db')) as Hpos.
  { clear Hl. induction Hfr as [|x l Hx _ IH]; cbn; [lia|]. fold (left_in max l). unfold left_of.
    case_bool_decide as Hp; [specialize (Hx Hp)|]; lia. }
  assert (left_in max (rows db) <= max * Z.of_nat (length (List.filter (fun r => bool_decide (o_status r = PENDING)) (rows db)))).
  { clear -Hf. induction Hf as [|x l Hx _ IH]; [cbn; lia|]. cbn. fold (left_in max l). unfold left_of.
    case_bool_decide as Hp; [specialize (Hx Hp)|]; cbn [length]; lia. }
  lia.
Qed.

(** ** Everything is delivered or given up *)

(** The Event store takes the Events of the rows [l]: in every state [I] of it, the request of
    a delivered row is recorded or replayed, to a state [I] again, or refused as another body
    under its key, which the drain passes over. *)
Definition takes (I : ES -> Prop) (ws actor : string) (l : list OutboxRow) : Prop := forall s r notification,
  I s -> r ∈ l -> jget "notification_id" r.(o_payload) = Some (JStr notification) ->
  match el_append (sent_request ws actor r notification) s with Ok (_, s') => I s' | Err e => e = "IDEMPOTENCY_CONFLICT" end.

(** What of a row its request is made of: no drain changes it. *)
Definition mail (r : OutboxRow) : string * payload_t := (r.(outbox_id), r.(o_payload)).

Lemma takes_same_mail I ws actor l l' : mail <$> l' = mail <$> l -> takes I ws actor l -> takes I ws actor l'.
Proof.
  intros E H s r n Hs Hr Hn. assert (mail r ∈ mail <$> l) as (x & [= E1 E2] & Hx)%list_elem_of_fmap by (rewrite <- E; by apply list_elem_of_fmap_2).
  specialize (H s x n Hs Hx). unfold sent_request in *. rewrite E1, E2 in *. by apply H.
Qed.

Lemma drained_mail max now ids l l' : Forall2 (drained_row max now ids) l l' -> mail <$> l' = mail <$> l.
Proof.
  induction 1 as [|x x' l l' [[_ Hs]|[_ ->]] _ IH]; cbn; [done| |]; f_equal; try done. by destruct Hs as [->|[e ->]].
Qed.

Lemma deliver_returns I ws actor max now l p r db :
  takes I ws actor l -> I (store db) -> exists p' r' db', deliver ws actor max now l p r db = (p', Ok (r', db')) /\ I (store db').
Proof.
  revert p r db. induction l as [|row l IH]; intros p r db Hl Hs; cbn [deliver]; [by eexists _, _, _|].
  assert (takes I ws actor l) as Hl' by (intros s x n H1 H2; apply Hl; [done|by right]).
  destruct (send _ _ _) as [p1 [e|]]; [by apply IH|].
  assert (exists n db1, record_sent ws actor now row db = Ok (n, db1) /\ I (store db1)) as (n & db1 & -> & Hs1); [|by apply IH].
  unfold record_sent. destruct (jget _ _) as [[| | | |[|c s]| |]|] eqn:Hn; try by eexists _, _.
  destruct (String.eqb _ _); [|by eexists _, _]. specialize (Hl (store db) row (c :: s) Hs ltac:(by left) Hn). cbn [store mark_sent update_outbox with_rows].
  destruct (el_append _ _) as [[a s']|e]; [by eexists _, _|]. rewrite Hl. by eexists _, _.
Qed.

Lemma drain_returns I locked ws actor now batch max p db :
  takes I ws actor (rows db) -> I (store db) ->
  exists p' r db', drain locked ws actor now batch max p db = (p', Ok (r, db')) /\ I (store db').
Proof. intros Hl Hs. apply deliver_returns; [|done]. intros s r n H1 [H2 _]%due_elem. by apply Hl. Qed.

(** Every pending row of the workspace has failed [k] times and is due by [t]. *)
Definition waiting (ws : string) (k : nat) (t : Z) (l : list OutboxRow) : Prop :=
  Forall (fun r => r.(o_workspace) = ws -> o_status r = PENDING -> Z.of_nat k <= r.(attempts) /\ r.(next_attempt_at) <= t) l.

Lemma backoff_bound n : 1 <= n -> backoff n <= 625.
Proof.
  intros Hn. unfold backoff. cbn [length BACKOFF_S]. destruct (Z.to_nat _) as [|[|[|[|[|m]]]]] eqn:E; cbn; try lia.
Qed.

Lemma drain_waits ws actor now batch max p db p' r db' k :
  ids_unique db -> fresh max (rows db) -> (length (rows db) <= batch)%nat -> waiting ws k now (rows db) ->
  drain [] ws actor now batch max p db = (p', Ok (r, db')) ->
  waiting ws (S k) (now + seconds 625) (rows db') /\ length (rows db') = length (rows db).
Proof.
  intros Hnd Hf Hb Hw H. pose proof (drain_settles _ _ _ _ _ _ _ _ _ _ _ Hnd H) as [Hr _].
  split; [|by apply Forall2_length in Hr].
  assert (due [] ws now batch db = py_sorted by_due (List.filter (is_due [] ws now) (rows db))) as Hdue.
  { unfold due. apply take_ge. rewrite py_sorted_perm. etrans; [|exact Hb]. apply sublist_length, filter_sublist. }
  rewrite Hdue in Hr.
  assert (forall x, x ∈ rows db -> x.(o_workspace) = ws -> o_status x = PENDING ->
    x.(row_id) ∈ row_id <$> py_sorted by_due (List.filter (is_due [] ws now) (rows db))) as Hall.
  { intros x Hx Hws Hp. apply list_elem_of_fmap_2, py_sorted_elem, list_elem_of_In, filter_In.
    split; [by apply list_elem_of_In|]. apply is_due_spec. split_and!; [done|done| |apply not_elem_of_nil].
    unfold waiting in Hw. rewrite Forall_forall in Hw. by destruct (Hw x Hx Hws Hp). }
  apply Forall_forall. intros y [i Hi]%list_elem_of_lookup Hws Hp.
  destruct (lookup_lt_is_Some_2 (rows db) i) as [x Hx].
  { rewrite (Forall2_length _ _ _ Hr). by apply lookup_lt_Some in Hi. }
  pose proof (list_elem_of_lookup_2 _ _ _ Hx) as Hxin.
  pose proof (Forall2_lookup_lr _ _ _ _ _ _ Hr Hx Hi) as [[Hin Hs]|[Hout ->]].
  - assert (o_status x = PENDING) as Hpx.
    { rewrite <- Hdue in Hin. by apply (due_pending _ _ _ _ _ _ Hnd Hxin), is_due_spec in Hin as (_ & ? & _). }
    assert (x.(o_workspace) = ws) as Hwx by (destruct Hs as [->|[e ->]]; exact Hws).
    unfold waiting, fresh in Hw, Hf. rewrite Forall_forall in Hw, Hf.
    destruct (Hw x Hxin Hwx Hpx) as [Hk _]. specialize (Hf x Hxin Hpx).
    destruct Hs as [->|[e ->]]; [done|]. unfold outcome_failed in *. cbn [with_outcome o_status attempts next_attempt_at] in Hp |- *.
    destruct (Z.leb_spec max (attempts x + 1)); [done|].
    pose proof (backoff_bound (attempts x + 1) ltac:(lia)). unfold seconds. lia.
  - destruct Hout. by apply Hall.
Qed.

(** Instants far enough apart for every backoff to have elapsed. *)
Fixpoint spaced (t : Z) (ts : list Z) : Prop :=
  match ts with [] => True | u :: ts => t <= u /\ spaced (u + seconds 625) ts end.


(** A refused Event undoes its drain, not its message. When the first due row is handed over
    and the store refuses its Event with a code other than IDEMPOTENCY_CONFLICT, the drain
    raises: its transaction rolls back, the row is due again, and the next drain hands the
    same message over once more and raises again. *)
Theorem refused_event_is_sent_again locked ws actor now batch max p p' db row rest notification e :
  due locked ws now batch db = row :: rest -> row.(o_kind) = "notification" ->
  jget "notification_id" row.(o_payload) = Some (JStr notification) -> notification <> [] ->
  send row.(destination) row.(o_payload) p = (p', None) ->
  el_append (sent_request ws actor row notification) db.(store) = Err e -> e <> "IDEMPOTENCY_CONFLICT" ->
  drain locked ws actor now batch max p db = (p', Err e).
Proof.
  intros Hd Hk Hn Hne Hs Ha He. unfold drain. rewrite Hd. cbn [deliver]. rewrite Hs. unfold record_sent. rewrite Hn.
  destruct notification as [|c n]; [done|]. rewrite Hk. cbn [String.eqb Ascii.eqb Bool.eqb]. cbn [store mark_sent update_outbox with_rows].
  rewrite Ha.
  by rewrite (proj2 (String.eqb_neq _ _) He).
Qed.

(** A digest that was delivered takes no more items. When an item arrives for a
    digest whose row is no longer pending - it was sent, or given up - the item is
    appended to that row, the caller is told the row will carry it, and no later drain
    hands it to a provider. *)
Theorem late_digest_item_lost hex ws recipient key item source at_ old db id db' :
  find (has_key key) (rows db) = Some old -> o_status old <> PENDING -> NoDup (dedupe_key <$> rows db) ->
  enqueue_digest hex ws recipient key item source at_ db = Ok (id, db') ->
  id = old.(outbox_id) /\
  Forall (fun r => r.(dedupe_key) = key -> o_status r <> PENDING) (rows db') /\
  forall locked ws' now batch, Forall (fun r => r.(dedupe_key) <> key) (due locked ws' now batch db').
Proof.
  unfold enqueue_digest. intros Hf Hs Hnd. rewrite Hf. intros [= <- <-]. split; [done|].
  assert (Forall (fun r => r.(dedupe_key) = key -> o_status r <> PENDING) (rows db)) as Hall.
  { apply find_some in Hf as [Hin%list_elem_of_In Hk%bool_decide_eq_true]. apply Forall_forall. intros r Hr E.
    apply list_elem_of_lookup in Hin as [i Hi], Hr as [j Hj].
    assert (i = j) as ->; [|congruence].
    eapply NoDup_lookup; [exact Hnd|by rewrite list_lookup_fmap, Hi|rewrite list_lookup_fmap, Hj; cbn; congruence]. }
  match goal with |- Forall _ (rows ?d) /\ _ => assert (Forall (fun r => r.(dedupe_key) = key -> o_status r <> PENDING) (rows d)) as Hall' end.
  { cbn. apply Forall_map. eapply Forall_impl; [exact Hall|]. intros r Hr. by destruct (has_key key r). }
  split; [exact Hall'|]. intros locked ws' now batch. apply Forall_forall. intros r [Hr (_ & Hp & _)%is_due_spec]%due_elem E.
  rewrite Forall_forall in Hall'. exact (Hall' r Hr E Hp).
Qed.

End outbox.

Arguments Db : clear implicits.

(** The in-memory store takes the Events of rows whose texts can be encoded. *)
Section memory.
Context (sha256_hex : list N -> ustr) (Hsha : forall b1 b2, sha256_hex b1 = sha256_hex b2 -> b1 = b2) (stamp : ustr).
Context (hex_text : forall b, forallb code_point (sha256_hex b) = true) (stamp_text : forallb code_point stamp = true).
Context (str_value : json -> ustr) (str_value_text : forall v, forallb code_point (str_value v) = true).

Lemma text_of_text (v : option json) : (forall x, v = Some x -> text_ok x = true) -> forallb code_point (text_of str_value v) = true.
Proof. intros H. destruct v as [[]|]; first [done|apply str_value_text|exact (H _ eq_refl)]. Qed.

Lemma jget_text k (d : payload_t) v : text_ok (JObj d) = true -> jget k d = Some v -> text_ok v = true.
Proof.
  cbn. rewrite forallb_forall. intros H. unfold jget. destruct (find _ d) as [[k' v']|] eqn:Hf; [|done]. intros [= <-].
  apply find_some in Hf as [Hin _]. apply H in Hin. by apply andb_true_iff in Hin as [_ ?].
Qed.

Lemma memory_takes ws actor l :
  Forall (fun r => text_ok (JObj r.(o_payload)) = true) l ->
  @takes _ (memory_log sha256_hex Hsha stamp) str_value (memory_sound sha256_hex) ws actor l.
Proof.
  intros Hl s r n Hs Hr Hn. rewrite Forall_forall in Hl. specialize (Hl r Hr).
  apply (memory_append_total sha256_hex Hsha stamp); try done.
  assert (forall k, forallb code_point (text_of str_value (jget k r.(o_payload))) = true) as Hk.
  { intros k. apply text_of_text. intros x. by apply jget_text. }
  unfold request_text, sent_request. cbn -[text_of jget]. rewrite !Hk, !lit_text, (jget_text _ _ _ Hl Hn : forallb code_point n = true).
  cbn -[text_of jget]. rewrite !andb_true_r. destruct (jget "event_id" r.(o_payload)) as [v|] eqn:Hv; [|apply lit_text].
  apply text_of_text. intros x [= <-]. by eapply jget_text.
Qed.
End memory.

(** * Three rows *)

Module Sample.

#[local] Instance log : EventLogI (list Event) := list_log.

Definition row (n : Z) (kind : string) (dest key : string) (next : Z) : OutboxRow := {|
  row_id := n; outbox_id := "obx-" +:+ key; o_workspace := "ws"; o_kind := kind; destination := lit dest;
  dedupe_key := lit key; o_payload := [(lit "notification_id", JStr (lit "ntf-1")); (lit "items", JArr [])];
  source_event_id := None; o_status := PENDING; attempts := 0; next_attempt_at := next; last_error := None;
  sent_at := None |}.

Definition start : Db (list Event) := {|
  rows := [row 1 "notification" "mattermost:dm:a" "k1" 0; row 2 "notification" "broken" "k2" 0;
           row 3 "notification_digest" "mattermost:dm:b" "k3" 0];
  next_row := 4; notifications := [{| n_id := lit "ntf-1"; n_status := "queued"; n_sent_at := None |}]; store := [] |}.

Definition str_value (v : json) : ustr := [].

(** It counts its messages and raises for one destination. *)
Definition send (d : ustr) (p : payload_t) (n : nat) : nat * option ustr :=
  (S n, if bool_decide (d = lit "broken") then Some (lit "boom") else None).

Definition day (i : Z) : Z := seconds (1000 * i).
Definition ts : list Z := [day 0; day 1; day 2; day 3; day 4].

Definition result : nat * res (Db (list Event)) := drain_at str_value send "ws" "svc" 50 DEFAULT_MAX_ATTEMPTS ts 0%nat start.

(** Two messages in the first drain, and five attempts for the broken destination. *)
Example run :
  match result with
  | (n, Ok db) => (n, map (fun r => (r.(o_status), r.(attempts))) (rows db), length (store db), map n_status (notifications db))
  | _ => (0%nat, [], 0%nat, [])
  end = (7%nat, [(SENT, 1); (DEAD, 5); (SENT, 1)], 1%nat, ["sent"]).
Proof. vm_compute. reflexivity. Qed.

Definition first : Db (list Event) := Eval vm_compute in
  match drain str_value send [] "ws" "svc" 0 50 DEFAULT_MAX_ATTEMPTS 0%nat start with (_, Ok (_, db)) => db | _ => start end.
Definition counts : DrainResult := {| sent := 2; failed := 1; dead := 0; events_appended := 1 |}.

Lemma first_drain_ok : drain str_value send [] "ws" "svc" 0 50 DEFAULT_MAX_ATTEMPTS 0%nat start = (3%nat, Ok (counts, first)).
Proof. vm_compute. reflexivity. Qed.

Lemma start_unique : ids_unique start.
Proof. by apply (bool_decide_unpack _). Qed.

Lemma start_fresh : fresh DEFAULT_MAX_ATTEMPTS (rows start).
Proof. repeat constructor; cbn; discriminate. Qed.

Lemma start_waiting : waiting "ws" 0 0 (rows start).
Proof. repeat constructor; cbn; lia. Qed.

(** An injective text of bytes, in the place of SHA-256. *)
Definition decimals (b : list N) : ustr := concat ((fun n => str_int (Z.of_N n) ++ [44%N]) <$> b).

Lemma decimals_inj b1 b2 : decimals b1 = decimals b2 -> b1 = b2.
Proof.
  revert b2. induction b1 as [|n b1 IH]; intros [|m b2] H; cbn in H; [done| | |].
  - by destruct (str_int (Z.of_N m)).
  - by destruct (str_int (Z.of_N n)).
  - rewrite <- !app_assoc in H. apply str_int_prefix_free in H as [E H]; [|cbn; lia|cbn; lia]. injection H as H.
    f_equal; [lia|by apply IH].
Qed.

Lemma decimals_text b : forallb code_point (decimals b) = true.
Proof. induction b as [|n b IH]; [done|]. unfold decimals in *. cbn [fmap list_fmap concat]. by rewrite !forallb_app, str_int_text, IH. Qed.

#[local] Instance memory : EventLogI InMemoryEventStore := memory_log decimals decimals_inj (lit "t").

(** The same rows over the in-memory store. *)
Definition memory_start : Db InMemoryEventStore :=
  {| rows := rows start; next_row := 4; notifications := notifications start; store := empty_store |}.

Lemma start_takes : takes str_value (memory_sound decimals) "ws" "svc" (rows memory_start).
Proof. apply memory_takes; [apply decimals_text|done|done|]. repeat constructor. Qed.

(** A store that refuses every Event. *)
Definition refusing : EventLogI unit.
Proof. by refine {| el_append _ _ := Err "SCHEMA_INVALID"; el_log _ := []; el_ok _ := True |}. Defined.

Definition refused_start : Db unit := {| rows := rows start; next_row := 4; notifications := notifications start; store := tt |}.

End Sample.

#[local] Existing Instance Sample.log.

Lemma attempts_bounded_witness : 3 + left_in 5 (rows Sample.first) <= left_in 5 (rows Sample.start).
Proof.
  exact (proj1 (attempts_bounded Sample.str_value Sample.send 5 Sample.start _ Sample.first
    (Drained_cons _ _ _ _ _ _ _ _ _ _ _ _ _ _ _ Sample.first_drain_ok (Drained_nil _ _ _ _)) Sample.start_unique Sample.start_fresh)).
Defined.


(** Two drains send the first message twice, and the store has nothing. *)
Lemma refused_event_is_sent_again_witness :
  let again p := @drain _ Sample.refusing Sample.str_value _ Sample.send [] "ws" "svc" 0 50 5 p Sample.refused_start in
  again 0%nat = (1%nat, Err "SCHEMA_INVALID") /\ again 1%nat = (2%nat, Err "SCHEMA_INVALID").
Proof.
  split; apply (@refused_event_is_sent_again _ Sample.refusing Sample.str_value _ Sample.send [] "ws" "svc" 0 50 5 _ _ Sample.refused_start
    (Sample.row 1 "notification" "mattermost:dm:a" "k1" 0)
    [Sample.row 2 "notification" "broken" "k2" 0; Sample.row 3 "notification_digest" "mattermost:dm:b" "k3" 0] (lit "ntf-1")); done.
Defined.

Lemma late_digest_item_lost_witness :
  exists id db', enqueue_digest "hex" "ws" (lit "b") (lit "k3") [] (lit "evt") 0 Sample.first = Ok (id, db') /\ id = "obx-k3".
Proof.
  destruct (enqueue_digest "hex" "ws" (lit "b") (lit "k3") [] (lit "evt") 0 Sample.first) as [[id db']|] eqn:E; [|discriminate].
  exists id, db'. split; [reflexivity|].
  destruct (find (has_key (lit "k3")) (rows Sample.first)) as [old|] eqn:Ho; [|discriminate].
  assert (o_status old <> PENDING /\ old.(outbox_id) = "obx-k3") as [Hs <-] by (cbn in Ho; injection Ho as <-; done).
  assert (NoDup (dedupe_key <$> rows Sample.first)) as Hnd by by apply (bool_decide_unpack _).
  exact (proj1 (late_digest_item_lost "hex" "ws" (lit "b") (lit "k3") [] (lit "evt") 0 old Sample.first id db' Ho Hs Hnd E)).
Defined.
