(* ===== verification/Bus.v ===== *)
(** The command bus ([server/application/bus.py]): what a handler is given and
    the permission check it starts with. *)

From S2P Require Import Prelude Policy Catalog Authority Tx EventLog.

Record Principal := {
  p_account_id : string;
  p_account_uuid : string;
  p_credential_fingerprint : string;
  mfa_verified : bool }.

Record CommandContext := {
  ctx_principal : Principal;
  ctx_workspace_id : string;
  ctx_correlation_id : string;
  ctx_idempotency_key : string;
  ctx_expected_seq : option Z;
  reauth_verified : bool (* of [extras] *) }.

(** The request [BusAuthorizer.require] builds from the arguments of a handler. *)
Definition permission_request (ctx : CommandContext) (permission : string) (action channel_id : option string)
    : AuthorizationRequest := {|
  q_permission := permission; q_action := action; q_domain := None; q_channel_id := channel_id;
  q_resource := None; q_side_effect := false; q_required_capability := None;
  q_correlation_id := ctx.(ctx_correlation_id); q_target_type := "action"; q_target_id := "-" |}.

(** The bus gives a command to its handler only with an idempotency key. *)
Definition execute {L D A} (handler : CommandContext -> atx L D A) (ctx : CommandContext) : atx L D A :=
  if String.eqb ctx.(ctx_idempotency_key) EmptyString then in_tx (raise "IDEMPOTENCY_KEY_REQUIRED")
  else handler ctx.
