(* ===== verification/Brainstorm.v ===== *)
(** Brainstorm sessions ([server/brainstorm]): the limits of a session, its
    participants and the round-robin order of the Agents, and the rows a turn
    writes. Counters are integers without the bound of their column; elapsed
    minutes are compared exactly. *)

From S2P Require Import Prelude Defaults Canonical Text.
Open Scope Z_scope.

(** ** Limits ([limits.py]) *)

Record Limits := {
  turns_per_agent : Z; max_consecutive : Z; total_turns : Z; budget_cost_units : Z; time_limit_minutes : Z }.

Definition DEFAULTS : Limits := {|
  turns_per_agent := BRAINSTORM_TURNS_PER_AGENT; max_consecutive := BRAINSTORM_MAX_CONSECUTIVE;
  total_turns := BRAINSTORM_TOTAL_TURNS; budget_cost_units := 0; time_limit_minutes := 0 |}.

Definition LIMIT_KEYS : list string :=
  ["turns_per_agent"; "max_consecutive"; "total_turns"; "budget_cost_units"; "time_limit_minutes"].

Definition get_limit (l : Limits) (key : string) : Z :=
  if String.eqb key "turns_per_agent" then l.(turns_per_agent)
  else if String.eqb key "max_consecutive" then l.(max_consecutive)
  else if String.eqb key "total_turns" then l.(total_turns)
  else if String.eqb key "budget_cost_units" then l.(budget_cost_units)
  else l.(time_limit_minutes).

(** [values[key] = value], for a key of [LIMIT_KEYS] *)
Definition set_limit (key : string) (v : Z) (l : Limits) : Limits := {|
  turns_per_agent := if String.eqb key "turns_per_agent" then v else l.(turns_per_agent);
  max_consecutive := if String.eqb key "max_consecutive" then v else l.(max_consecutive);
  total_turns := if String.eqb key "total_turns" then v else l.(total_turns);
  budget_cost_units := if String.eqb key "budget_cost_units" then v else l.(budget_cost_units);
  time_limit_minutes := if String.eqb key "time_limit_minutes" then v else l.(time_limit_minutes) |}.

Definition as_dict (l : Limits) : list (ustr * json) := (fun k => (lit k, JInt (get_limit l k))) <$> LIMIT_KEYS.

Definition limit_key (k : ustr) : option string := find (fun s => bool_decide (lit s = k)) LIMIT_KEYS.

Definition limit_floor (key : string) : Z := if mem key ["budget_cost_units"; "time_limit_minutes"] then 0 else 1.

Fixpoint parse_items (items : list (ustr * json)) (values : Limits) : res Limits :=
  match items with
  | [] => Ok values
  | (k, JInt v) :: items =>
      match limit_key k with
      | None => Err "BRAINSTORM_LIMITS_INVALID"
      | Some key => if v <? limit_floor key then Err "BRAINSTORM_LIMITS_INVALID"
                    else parse_items items (set_limit key v values)
      end
  | _ :: _ => Err "BRAINSTORM_LIMITS_INVALID"
  end.

(** [if raw:] *)
Definition json_falsy (v : json) : bool :=
  match v with
  | JNull | JBool false | JInt 0 | JStr [] | JArr [] | JObj [] => true
  | JFloat (FFinite _ ip fp _) => forallb (fun c => (c =? 48)%N) (ip ++ fp)
  | _ => false
  end.

Definition parse (raw : json) : res Limits :=
  if json_falsy raw then Ok DEFAULTS
  else match raw with JObj items => parse_items items DEFAULTS | _ => Err "BRAINSTORM_LIMITS_INVALID" end.

Inductive BreachCode :=
| TURNS_PER_AGENT_EXCEEDED | MAX_CONSECUTIVE_EXCEEDED | TOTAL_TURNS_EXCEEDED | BUDGET_EXCEEDED | TIME_LIMIT_EXCEEDED.

#[global] Instance BreachCode_eq_dec : EqDecision BreachCode.
Proof. solve_decision. Defined.

Definition code_value (c : BreachCode) : string :=
  match c with
  | TURNS_PER_AGENT_EXCEEDED => "TURNS_PER_AGENT_EXCEEDED"
  | MAX_CONSECUTIVE_EXCEEDED => "MAX_CONSECUTIVE_EXCEEDED"
  | TOTAL_TURNS_EXCEEDED => "TOTAL_TURNS_EXCEEDED"
  | BUDGET_EXCEEDED => "BUDGET_EXCEEDED"
  | TIME_LIMIT_EXCEEDED => "TIME_LIMIT_EXCEEDED"
  end.

Record TurnState := {
  ts_total : Z; ts_contributor : Z; ts_consecutive : Z; ts_is_last : bool; ts_spent : Z;
  ts_started : Z; ts_now : Z }.

Definition consecutive_after (s : TurnState) : Z := if s.(ts_is_last) then s.(ts_consecutive) + 1 else 1.

Definition check (l : Limits) (s : TurnState) (is_agent : bool) : option BreachCode :=
  if negb (l.(max_consecutive) =? 0) && (l.(max_consecutive) <? consecutive_after s) then Some MAX_CONSECUTIVE_EXCEEDED
  else if is_agent && negb (l.(turns_per_agent) =? 0) && (l.(turns_per_agent) <? s.(ts_contributor) + 1)
  then Some TURNS_PER_AGENT_EXCEEDED
  else if negb (l.(total_turns) =? 0) && (l.(total_turns) <? s.(ts_total) + 1) then Some TOTAL_TURNS_EXCEEDED
  else if negb (l.(budget_cost_units) =? 0) && (l.(budget_cost_units) <? s.(ts_spent)) then Some BUDGET_EXCEEDED
  else if negb (l.(time_limit_minutes) =? 0) && (minutes l.(time_limit_minutes) <? s.(ts_now) - s.(ts_started))
  then Some TIME_LIMIT_EXCEEDED
  else None.

(** ** The tables ([engine.py], [turns.py]) *)

Inductive Status := OPEN | PAUSED | CLOSED.
#[global] Instance Status_eq_dec : EqDecision Status.
Proof. solve_decision. Defined.

Definition CONTRIBUTION_TYPES : list string := ["IDEA"; "CHALLENGE"; "QUESTION"; "GUIDANCE"].

(** A row of [brainstorm_participants], with the public id of the account. *)
Record Participant := {
  p_session : string;
  p_account : string;
  p_public_id : string;
  p_role : string;
  p_agent : option string;
  seat : Z;
  turns_taken : Z }.

Record BrainstormRow := {
  b_workspace : string;
  b_channel : string;
  b_topic : ustr;
  facilitator : string;
  b_status : Status;
  b_limits : json;
  turn_no : Z;
  turn_index : Z;
  last_contributor : option string;
  consecutive_turns : Z;
  paused_reason : option string;
  started_at : Z;
  closed_at : option Z;
  last_event_id : option ustr;
  b_updated_at : Z }.

Record TurnRow := {
  t_session : string; t_seq : Z; t_account : string; t_type : string; t_body : ustr;
  t_work_item : option string; t_event : ustr; t_at : Z }.

Record Tables := {
  sessions : gmap string BrainstormRow;
  participants : list Participant;
  turns : list TurnRow;
  costs : list (string * Z) (* usage_records: brainstorm_id, cost_units *) }.

Definition with_sessions (s : gmap string BrainstormRow) (t : Tables) : Tables := {|
  sessions := s; participants := t.(participants); turns := t.(turns); costs := t.(costs) |}.
Definition with_participants (p : list Participant) (t : Tables) : Tables := {|
  sessions := t.(sessions); participants := p; turns := t.(turns); costs := t.(costs) |}.
Definition with_turns (x : list TurnRow) (t : Tables) : Tables := {|
  sessions := t.(sessions); participants := t.(participants); turns := x; costs := t.(costs) |}.

(** [BrainstormState]: the row with its limits parsed and its participants by seat. *)
Record BrainstormState := {
  st_id : string; st_row : BrainstormRow; st_limits : Limits; st_participants : list Participant }.

Definition by_seat (a b : Participant) : bool := a.(seat) <=? b.(seat).

Definition participants_of (id : string) (t : Tables) : list Participant :=
  py_sorted by_seat (List.filter (fun p => String.eqb p.(p_session) id) t.(participants)).

Definition load (workspace id : string) (t : Tables) : res (option BrainstormState) :=
  match t.(sessions) !! id with
  | Some row =>
      if String.eqb row.(b_workspace) workspace then
        l ← parse row.(b_limits);
        Ok (Some {| st_id := id; st_row := row; st_limits := l; st_participants := participants_of id t |})
      else Ok None
  | None => Ok None
  end.

Definition require (workspace id : string) (t : Tables) : res BrainstormState :=
  s ← load workspace id t; match s with Some s => Ok s | None => Err "BRAINSTORM_NOT_FOUND" end.

Definition agents (s : BrainstormState) : list Participant :=
  List.filter (fun p => String.eqb p.(p_role) "agent") s.(st_participants).

Definition participant (s : BrainstormState) (account : string) : option Participant :=
  find (fun p => String.eqb p.(p_account) account) s.(st_participants).

Definition next_agent (s : BrainstormState) : option Participant :=
  match agents s with
  | [] => None
  | l => l !! Z.to_nat (s.(st_row).(turn_index) mod Z.of_nat (length l))
  end.

Definition insert (id workspace channel : string) (topic : ustr) (facilitator : string) (l : Limits) (now : Z)
    (t : Tables) : res Tables :=
  match t.(sessions) !! id with
  | Some _ => Err "IntegrityError"
  | None => Ok (with_sessions (<[id := {|
      b_workspace := workspace; b_channel := channel; b_topic := topic; facilitator := facilitator; b_status := OPEN;
      b_limits := JObj (as_dict l); turn_no := 0; turn_index := 0; last_contributor := None; consecutive_turns := 0;
      paused_reason := None; started_at := now; closed_at := None; last_event_id := None; b_updated_at := now |}]>
      t.(sessions)) t)
  end.

(** [coalesce(max(seat), -1) + 1] *)
Definition new_seat (id : string) (t : Tables) : Z :=
  foldr Z.max (-1) (seat <$> List.filter (fun p => String.eqb p.(p_session) id) t.(participants)) + 1.

Definition seated (id account : string) (t : Tables) : bool :=
  existsb (fun p => String.eqb p.(p_session) id && String.eqb p.(p_account) account) t.(participants).

Definition add_participant (id account public role : string) (agent : option string) (t : Tables) : Z * Tables :=
  let n := new_seat id t in
  (n, if seated id account t then t
      else with_participants (t.(participants) ++ [{| p_session := id; p_account := account; p_public_id := public;
             p_role := role; p_agent := agent; seat := n; turns_taken := 0 |}]) t).

(** [UPDATE brainstorms ... WHERE brainstorm_id = :b] *)
Definition update_row (id : string) (f : BrainstormRow -> BrainstormRow) (t : Tables) : Tables :=
  with_sessions (alter f id t.(sessions)) t.

Definition with_turn (account : string) (index consecutive now : Z) (r : BrainstormRow) : BrainstormRow := {|
  b_workspace := r.(b_workspace); b_channel := r.(b_channel); b_topic := r.(b_topic); facilitator := r.(facilitator);
  b_status := r.(b_status); b_limits := r.(b_limits); turn_no := r.(turn_no) + 1; turn_index := index;
  last_contributor := Some account; consecutive_turns := consecutive; paused_reason := r.(paused_reason);
  started_at := r.(started_at); closed_at := r.(closed_at); last_event_id := r.(last_event_id); b_updated_at := now |}.

Definition took_turn (id account : string) (p : Participant) : Participant :=
  if String.eqb p.(p_session) id && String.eqb p.(p_account) account then {|
    p_session := p.(p_session); p_account := p.(p_account); p_public_id := p.(p_public_id); p_role := p.(p_role);
    p_agent := p.(p_agent); seat := p.(seat); turns_taken := p.(turns_taken) + 1 |} else p.

Definition is_last (s : BrainstormState) (account : string) : bool :=
  bool_decide (s.(st_row).(last_contributor) = Some account).

Definition advance (s : BrainstormState) (contributor : string) (is_agent : bool) (now : Z) (t : Tables) : Tables :=
  let consecutive := if is_last s contributor then s.(st_row).(consecutive_turns) + 1 else 1 in
  let index := if is_agent then s.(st_row).(turn_index) + 1 else s.(st_row).(turn_index) in
  let t := update_row s.(st_id) (with_turn contributor index consecutive now) t in
  with_participants (map (took_turn s.(st_id) contributor) t.(participants)) t.

Definition with_status (st : Status) (reason : option string) (event : option ustr) (now : Z) (r : BrainstormRow)
    : BrainstormRow := {|
  b_workspace := r.(b_workspace); b_channel := r.(b_channel); b_topic := r.(b_topic); facilitator := r.(facilitator);
  b_status := st; b_limits := r.(b_limits); turn_no := r.(turn_no); turn_index := r.(turn_index);
  last_contributor := r.(last_contributor); consecutive_turns := r.(consecutive_turns); paused_reason := reason;
  started_at := r.(started_at); closed_at := if bool_decide (st = CLOSED) then Some now else r.(closed_at);
  last_event_id := match event with Some e => Some e | None => r.(last_event_id) end; b_updated_at := now |}.

Definition set_status (id : string) (st : Status) (now : Z) (reason : option string) (event : option ustr) (t : Tables)
    : Tables := update_row id (with_status st reason event now) t.

Definition spent_cost_units (id : string) (t : Tables) : Z :=
  foldr (fun c n => if String.eqb c.1 id then c.2 + n else n) 0 t.(costs).

Definition remaining_turns (s : BrainstormState) (p : Participant) : Z :=
  let per_agent := s.(st_limits).(turns_per_agent) in
  let total := s.(st_limits).(total_turns) in
  Z.min (if per_agent =? 0 then Z.shiftl 1 30 else Z.max (per_agent - p.(turns_taken)) 0)
        (if total =? 0 then Z.shiftl 1 30 else Z.max (total - s.(st_row).(turn_no)) 0).

Definition turn_payload (s : BrainstormState) (channel_id : string) (p : Participant) : list (ustr * json) := [
  (lit "brainstorm_id", jtext s.(st_id));
  (lit "topic", JStr s.(st_row).(b_topic));
  (lit "channel_id", jtext channel_id);
  (lit "transcript_ref", jtext ("colab://brainstorm/" +:+ s.(st_id) +:+ "/transcript"));
  (lit "turn_no", JInt (s.(st_row).(turn_no) + 1));
  (lit "remaining_turns", JInt (remaining_turns s p));
  (lit "expected_contribution_type", jtext "IDEA");
  (lit "contribution_types", JArr (jtext <$> CONTRIBUTION_TYPES))].

(** The sequence number is unique in its session. *)
Definition record (s : BrainstormState) (account ctype : string) (body : ustr) (event : ustr)
    (work_item : option string) (now : Z) (t : Tables) : res Tables :=
  let seq := s.(st_row).(turn_no) + 1 in
  if existsb (fun r => String.eqb r.(t_session) s.(st_id) && (r.(t_seq) =? seq)) t.(turns) then Err "IntegrityError"
  else Ok (with_turns (t.(turns) ++ [{| t_session := s.(st_id); t_seq := seq; t_account := account; t_type := ctype;
         t_body := body; t_work_item := work_item; t_event := event; t_at := now |}]) t).

(** ** The limits of a session *)

Definition valid (l : Limits) : Prop := Forall (fun k => limit_floor k <= get_limit l k) LIMIT_KEYS.

Lemma limit_key_in k key : limit_key k = Some key -> key ∈ LIMIT_KEYS.
Proof. unfold limit_key. intros [H _]%find_some. by apply list_elem_of_In. Qed.

Lemma get_set_limit key key' v l :
  key ∈ LIMIT_KEYS -> key' ∈ LIMIT_KEYS -> get_limit (set_limit key v l) key' = if String.eqb key key' then v else get_limit l key'.
Proof.
  unfold LIMIT_KEYS. intros H H'.
  repeat (apply elem_of_cons in H as [->|H]); try by apply elem_of_nil in H.
  all: repeat (apply elem_of_cons in H' as [->|H']); try by apply elem_of_nil in H'.
  all: reflexivity.
Qed.

Lemma parse_items_valid items l l' : valid l -> parse_items items l = Ok l' -> valid l'.
Proof.
  revert l. induction items as [|[k v] items IH]; intros l Hv; cbn [parse_items]; [by intros [= <-]|].
  destruct v as [|?|z|?|?|?|?]; try done. destruct (limit_key k) as [key|] eqn:Hk; [|done].
  destruct (Z.ltb_spec z (limit_floor key)) as [|Hz]; [done|]. apply IH. unfold valid in *. rewrite Forall_forall in Hv |- *.
  intros key' Hin. rewrite get_set_limit by (done || by apply limit_key_in in Hk).
  destruct (String.eqb_spec key key') as [<-|]; [done|by apply Hv].
Qed.

Lemma default_valid : valid DEFAULTS.
Proof. unfold valid. by apply (bool_decide_unpack _). Qed.

Lemma parse_valid raw l : parse raw = Ok l -> valid l.
Proof.
  unfold parse. destruct (json_falsy raw); [intros [= <-]; apply default_valid|].
  destruct raw; try done. apply parse_items_valid, default_valid.
Qed.

Lemma parse_total raw l : parse raw = Ok l -> 0 < l.(total_turns).
Proof.
  intros H%parse_valid. unfold valid in H. rewrite Forall_forall in H.
  assert ("total_turns" ∈ LIMIT_KEYS) as Hin by by apply (bool_decide_unpack _). specialize (H _ Hin). change (1 <= l.(total_turns)) in H. lia.
Qed.

(** C39. Limits survive their storage. Whatever a client sends for the limits of a session,
    if it is accepted at all then every bound is an integer in its range - at least one
    turn per Agent, in a row and in total, no negative budget or time - and the JSON
    document that is stored parses to the same limits when the session is loaded. So 0,
    which docs/architecture/brainstorm-engine.md lists as unlimited for all five limits, can
    only be set for the budget and the time: the three bounds on turns refuse it. *)
Theorem limits_round_trip raw l :
  parse raw = Ok l -> valid l /\ parse (JObj (as_dict l)) = Ok l.
Proof.
  intros H%parse_valid. split; [exact H|]. unfold valid, LIMIT_KEYS in H.
  apply Forall_cons in H as [H1 H]. apply Forall_cons in H as [H2 H]. apply Forall_cons in H as [H3 H].
  apply Forall_cons in H as [H4 H]. apply Forall_cons in H as [H5 _]. destruct l as [a b c d e].
  change (1 <= a) in H1. change (1 <= b) in H2. change (1 <= c) in H3. change (0 <= d) in H4. change (0 <= e) in H5.
  change (parse_items (as_dict {| turns_per_agent := a; max_consecutive := b; total_turns := c; budget_cost_units := d;
    time_limit_minutes := e |}) DEFAULTS = Ok {| turns_per_agent := a; max_consecutive := b; total_turns := c;
    budget_cost_units := d; time_limit_minutes := e |}).
  unfold as_dict, LIMIT_KEYS. cbn [fmap list_fmap parse_items].
  repeat match goal with |- context [limit_key (lit ?k)] => replace (limit_key (lit k)) with (Some k) by reflexivity end.
  change (limit_floor "turns_per_agent") with 1. change (limit_floor "max_consecutive") with 1.
  change (limit_floor "total_turns") with 1. change (limit_floor "budget_cost_units") with 0.
  change (limit_floor "time_limit_minutes") with 0. cbn -[Z.ltb].
  repeat rewrite (proj2 (Z.ltb_ge _ _)) by assumption. reflexivity.
Qed.

Lemma limits_round_trip_witness :
  parse (JObj (as_dict {| turns_per_agent := 5; max_consecutive := 2; total_turns := 40; budget_cost_units := 0;
    time_limit_minutes := 0 |})) = Ok {| turns_per_agent := 5; max_consecutive := 2; total_turns := 40; budget_cost_units := 0;
    time_limit_minutes := 0 |}.
Proof. exact (proj2 (limits_round_trip (JObj [(lit "max_consecutive", JInt 2)]) _ eq_refl)). Defined.

(** A person may not speak twice in a row either. The module promises Humans that they
    speak freely, bounded by the total, the budget and the time of the session alone;
    but the limit of consecutive turns is not restricted to Agents, so the second
    message in a row of a Human is refused, with nothing else against it, when the
    session has the default limits. *)
Theorem human_consecutive_refused s :
  s.(ts_is_last) = true -> 1 <= s.(ts_consecutive) -> check DEFAULTS s false = Some MAX_CONSECUTIVE_EXCEEDED.
Proof.
  intros Hl Hc. unfold check, consecutive_after. rewrite Hl. cbn -[Z.ltb Z.add].
  by rewrite (proj2 (Z.ltb_lt _ _)) by (unfold BRAINSTORM_MAX_CONSECUTIVE; lia).
Qed.

Lemma human_consecutive_refused_witness :
  check DEFAULTS {| ts_total := 1; ts_contributor := 1; ts_consecutive := 1; ts_is_last := true; ts_spent := 0;
    ts_started := 0; ts_now := 0 |} false = Some MAX_CONSECUTIVE_EXCEEDED.
Proof. apply human_consecutive_refused; [reflexivity|cbn; lia]. Defined.

(** ** Sorting by seat, finding a participant *)

Lemma sort_insert_map {A} (leb : A -> A -> bool) (f : A -> A) x l :
  (forall a b, leb (f a) (f b) = leb a b) -> sort_insert leb (f x) (map f l) = map f (sort_insert leb x l).
Proof. intros Hf. induction l as [|y l IH]; cbn; [done|]. rewrite Hf. destruct (leb x y); cbn; by rewrite ?IH. Qed.

Lemma py_sorted_map {A} (leb : A -> A -> bool) (f : A -> A) l :
  (forall a b, leb (f a) (f b) = leb a b) -> py_sorted leb (map f l) = map f (py_sorted leb l).
Proof. intros Hf. unfold py_sorted. induction l as [|x l IH]; cbn; [done|]. by rewrite IH, sort_insert_map. Qed.

Lemma took_turn_keeps id account p :
  let p' := took_turn id account p in
  p'.(p_session) = p.(p_session) /\ p'.(p_account) = p.(p_account) /\ p'.(p_role) = p.(p_role) /\ p'.(seat) = p.(seat) /\
  p'.(p_agent) = p.(p_agent) /\ p'.(p_public_id) = p.(p_public_id).
Proof. unfold took_turn. by destruct (_ && _). Qed.

Lemma filter_map_same {A} (f : A -> bool) (g : A -> A) l :
  (forall x, f (g x) = f x) -> List.filter f (map g l) = map g (List.filter f l).
Proof. intros H. induction l as [|x l IH]; cbn; [done|]. rewrite H. destruct (f x); cbn; by rewrite IH. Qed.

Lemma participants_took_turn id account t :
  participants_of id (with_participants (map (took_turn id account) t.(participants)) t) =
  map (took_turn id account) (participants_of id t).
Proof.
  unfold participants_of. cbn [participants with_participants]. rewrite filter_map_same.
  - apply py_sorted_map. intros a b. unfold by_seat. by rewrite (proj1 (proj2 (proj2 (proj2 (took_turn_keeps id account a))))),
      (proj1 (proj2 (proj2 (proj2 (took_turn_keeps id account b))))).
  - intros x. by rewrite (proj1 (took_turn_keeps id account x)).
Qed.

Lemma find_took_turn id account who l p :
  find (fun p => String.eqb p.(p_account) who) l = Some p ->
  find (fun p => String.eqb p.(p_account) who) (map (took_turn id account) l) = Some (took_turn id account p).
Proof.
  induction l as [|x l IH]; cbn; [done|]. rewrite (proj1 (proj2 (took_turn_keeps id account x))).
  destruct (String.eqb _ _); [by intros [= ->]|done].
Qed.

(** ** What the counters count *)

Definition in_session (id : string) (p : Participant) : bool := String.eqb p.(p_session) id.

(** The turns taken by the participants of a session that satisfy [f]. *)
Definition taken (f : Participant -> bool) (id : string) (l : list Participant) : Z :=
  foldr (fun p n => if in_session id p && f p then p.(turns_taken) + n else n) 0 l.

Definition is_agent (p : Participant) : bool := String.eqb p.(p_role) "agent".

Record row_counts (t : Tables) (id : string) (row : BrainstormRow) : Prop := {
  rc_speakers : row.(turn_no) = taken (fun _ => true) id t.(participants);
  rc_agents : row.(turn_index) = taken is_agent id t.(participants);
  rc_turns : row.(turn_no) = Z.of_nat (length (List.filter (fun r => String.eqb r.(t_session) id) t.(turns))) }.

Record counted (t : Tables) : Prop := {
  c_rows id row : t.(sessions) !! id = Some row -> row_counts t id row;
  c_once : NoDup ((fun p => (p.(p_session), p.(p_account))) <$> t.(participants));
  c_seats : NoDup ((fun p => (p.(p_session), p.(seat))) <$> t.(participants));
  c_known : Forall (fun p => is_Some (t.(sessions) !! p.(p_session))) t.(participants);
  c_known_turns : Forall (fun r => is_Some (t.(sessions) !! r.(t_session))) t.(turns) }.

Lemma taken_app f id l1 l2 : taken f id (l1 ++ l2) = taken f id l1 + taken f id l2.
Proof. induction l1 as [|p l IH]; [done|]. cbn. fold (taken f id l) (taken f id (l ++ l2)). rewrite IH. destruct (_ && _); lia. Qed.

Lemma taken_none f id l : Forall (fun p => p.(p_session) <> id) l -> taken f id l = 0.
Proof.
  induction 1 as [|p l Hp _ IH]; [done|]. cbn. fold (taken f id l). unfold in_session.
  by rewrite (proj2 (String.eqb_neq _ _) Hp).
Qed.

Lemma taken_took_turn f id account l p :
  (forall x, f (took_turn id account x) = f x) ->
  NoDup ((fun p => (p.(p_session), p.(p_account))) <$> l) -> p ∈ l -> p.(p_session) = id -> p.(p_account) = account ->
  taken f id (map (took_turn id account) l) = taken f id l + (if f p then 1 else 0).
Proof.
  intros Hf Hnd Hp <- <-. revert Hnd Hp. induction l as [|x l IH]; intros Hnd Hp; [by apply elem_of_nil in Hp|].
  cbn [fmap list_fmap] in Hnd. apply NoDup_cons in Hnd as [Hx Hnd].
  cbn [map taken foldr]. fold (taken f (p_session p) l) (taken f (p_session p) (map (took_turn (p_session p) (p_account p)) l)).
  rewrite Hf. assert (in_session (p_session p) (took_turn (p_session p) (p_account p) x) = in_session (p_session p) x) as ->
    by (unfold in_session; by rewrite (proj1 (took_turn_keeps _ _ x))).
  apply elem_of_cons in Hp as [<-|Hp].
  - assert (map (took_turn (p_session p) (p_account p)) l = l) as ->.
    { rewrite <- (map_id l) at 2. apply map_ext_in. intros y Hy%list_elem_of_In. unfold took_turn.
      destruct (String.eqb_spec (p_session y) (p_session p)) as [E1|]; [|done].
      destruct (String.eqb_spec (p_account y) (p_account p)) as [E2|]; [|done].
      destruct Hx. rewrite <- E1, <- E2. by apply (list_elem_of_fmap_2 (fun p => (p_session p, p_account p))). }
    unfold in_session, took_turn. rewrite !String.eqb_refl. cbn. destruct (f p); lia.
  - rewrite (IH Hnd Hp). assert (turns_taken (took_turn (p_session p) (p_account p) x) = turns_taken x) as ->.
    { unfold took_turn. destruct (String.eqb_spec (p_session x) (p_session p)) as [E1|]; [|done].
      destruct (String.eqb_spec (p_account x) (p_account p)) as [E2|]; [|done]. destruct Hx.
      rewrite E1, E2. by apply (list_elem_of_fmap_2 (fun p => (p_session p, p_account p))). }
    destruct (_ && f x); lia.
Qed.

Lemma counted_update id f t :
  (forall r, turn_no (f r) = turn_no r /\ turn_index (f r) = turn_index r) -> counted t -> counted (update_row id f t).
Proof.
  intros Hf [H1 H2 H3 H4 H5].
  assert (forall i, is_Some (t.(sessions) !! i) -> is_Some (alter f id t.(sessions) !! i)) as Hsome.
  { intros i [r Hr]. destruct (decide (i = id)) as [->|Hne]; [rewrite lookup_alter_eq, Hr|rewrite lookup_alter_ne, Hr by done]; by eexists. }
  split; cbn; [|done|done| |].
  - intros i row Hi. destruct (decide (i = id)) as [->|Hne].
    + rewrite lookup_alter_eq in Hi. apply fmap_Some in Hi as (r & Hr & ->). destruct (H1 _ _ Hr) as [A B C].
      destruct (Hf r) as [E1 E2]. split; cbn; [by rewrite E1|by rewrite E2|by rewrite E1].
    + rewrite lookup_alter_ne in Hi by done. destruct (H1 _ _ Hi) as [A B C]. by split.
  - eapply Forall_impl; [exact H4|]. intros p; apply Hsome.
  - eapply Forall_impl; [exact H5|]. intros p; apply Hsome.
Qed.

Lemma counted_insert id ws ch topic fac l now t t' :
  counted t -> insert id ws ch topic fac l now t = Ok t' -> counted t' /\ is_Some (t'.(sessions) !! id).
Proof.
  unfold insert. intros [H1 H2 H3 H4 H5]. destruct (sessions t !! id) eqn:E; [done|]. intros [= <-].
  assert (forall i, is_Some (sessions t !! i) -> i <> id) as Hne by (intros i [r Hr] ->; congruence).
  split; [|cbn; rewrite lookup_insert_eq; by eexists]. split; cbn; [|done|done| |].
  - intros i row. rewrite lookup_insert_Some. intros [[<- <-]|[Hi Hr]]; [|by destruct (H1 _ _ Hr); split].
    assert (Forall (fun p => p.(p_session) <> id) (participants t)) as Hp by (eapply Forall_impl; [exact H4|]; intros p; apply Hne).
    split; [exact (eq_sym (taken_none _ _ _ Hp))|exact (eq_sym (taken_none _ _ _ Hp))|]. cbn.
    assert (List.filter (fun r => String.eqb (t_session r) id) (turns t) = []) as ->; [|done].
    clear -H5 Hne. induction H5 as [|r l Hr _ IH]; cbn; [done|]. by rewrite (proj2 (String.eqb_neq _ _) (Hne _ Hr)).
  - eapply Forall_impl; [exact H4|]. intros p Hp. rewrite lookup_insert_ne; [done|]. intros Heq. by apply (Hne _ Hp).
  - eapply Forall_impl; [exact H5|]. intros p Hp. rewrite lookup_insert_ne; [done|]. intros Heq. by apply (Hne _ Hp).
Qed.

Lemma new_seat_above id t p : p ∈ participants t -> p.(p_session) = id -> p.(seat) < new_seat id t.
Proof.
  intros Hp Hs. unfold new_seat.
  assert (forall l, p.(seat) ∈ l -> p.(seat) <= foldr Z.max (-1) l) as Hmax.
  { intros l. induction l as [|x l IH]; [by intros ?%elem_of_nil|]. cbn. intros [->|Hx]%elem_of_cons; [lia|].
    specialize (IH Hx). lia. }
  specialize (Hmax (seat <$> List.filter (fun p => String.eqb p.(p_session) id) (participants t))).
  assert (p.(seat) ∈ seat <$> List.filter (fun p => String.eqb p.(p_session) id) (participants t)) as Hin; [|specialize (Hmax Hin); lia].
  apply list_elem_of_fmap_2, list_elem_of_In, filter_In. split; [by apply list_elem_of_In|by apply String.eqb_eq].
Qed.

Lemma counted_add id account public role agent t :
  counted t -> is_Some (sessions t !! id) -> counted (add_participant id account public role agent t).2 /\
  sessions (add_participant id account public role agent t).2 = sessions t.
Proof.
  intros [H1 H2 H3 H4 H5] Hid. unfold add_participant. destruct (seated id account t) eqn:E; cbn; [done|]. split; [|done].
  set (p := {| p_session := id; p_account := account; p_public_id := public; p_role := role; p_agent := agent;
               seat := new_seat id t; turns_taken := 0 |}).
  assert (forall f i, taken f i [p] = 0) as H0.
  { intros f i. unfold taken. cbn. by destruct (_ && _). }
  split; cbn; [| | |apply Forall_app; split; [done|by apply Forall_singleton]|done].
  - intros i row Hi. destruct (H1 _ _ Hi) as [A B C].
    split; cbn [participants with_participants turns]; rewrite ?taken_app, ?H0; [lia|lia|done].
  - rewrite fmap_app. apply NoDup_app. split_and!; [done| |by apply NoDup_singleton].
    intros x (q & -> & Hq)%list_elem_of_fmap. cbn. intros [= E1 E2]%list_elem_of_singleton.
    assert (seated id account t = true) as Hs; [|congruence]. unfold seated. apply existsb_exists. exists q.
    split; [by apply list_elem_of_In|]. by rewrite E1, E2, !String.eqb_refl.
  - rewrite fmap_app. apply NoDup_app. split_and!; [done| |by apply NoDup_singleton].
    intros x (q & -> & Hq)%list_elem_of_fmap. cbn. intros [= E1 E2]%list_elem_of_singleton.
    pose proof (new_seat_above id t q Hq E1). lia.
Qed.

(** A participant seated already is given a seat that nobody holds. *)
Lemma rejoin_reports_free_seat id account public role agent t :
  seated id account t = true ->
  (add_participant id account public role agent t).2 = t /\
  Forall (fun p => p.(p_session) = id -> p.(seat) <> (add_participant id account public role agent t).1) (participants t).
Proof.
  intros Hs. unfold add_participant. rewrite Hs. split; [done|]. apply Forall_forall. intros p Hp E. cbn.
  pose proof (new_seat_above id t p Hp E). lia.
Qed.

Lemma counted_speak s p ct body event wi now t t1 ws :
  counted t -> require ws s.(st_id) t = Ok s -> p ∈ participants t -> p.(p_session) = s.(st_id) ->
  record s p.(p_account) ct body event wi now t = Ok t1 ->
  counted (advance s p.(p_account) (is_agent p) now t1).
Proof.
  intros [H1 H2 H3 H4 H5] Hreq Hp Hs. unfold record. destruct (existsb _ _) eqn:Eseq; [done|]. intros [= <-].
  unfold require, load in Hreq. destruct (sessions t !! st_id s) as [row|] eqn:Hrow; [|done].
  destruct (String.eqb _ ws); [|done]. destruct (parse _); [|done]. cbn in Hreq.
  assert (st_row s = row) as Hst by (by injection Hreq as <-). clear Hreq.
  assert (forall i, is_Some (sessions t !! i) -> forall f, is_Some (alter f (st_id s) (sessions t) !! i)) as Hsome.
  { intros i [r Hr] f. destruct (decide (i = st_id s)) as [->|Hne]; [rewrite lookup_alter_eq, Hr|rewrite lookup_alter_ne, Hr by done]; by eexists. }
  assert (forall x, is_agent (took_turn (st_id s) (p_account p) x) = is_agent x) as Hag.
  { intros x. unfold is_agent. by rewrite (proj1 (proj2 (proj2 (took_turn_keeps (st_id s) (p_account p) x)))). }
  destruct (H1 _ _ Hrow) as [A B C].
  split; cbn [advance update_row with_participants with_sessions with_turns sessions participants turns].
  - intros i r Hi. destruct (decide (i = st_id s)) as [->|Hne].
    + rewrite lookup_alter_eq, Hrow in Hi. cbn in Hi. injection Hi as <-. split; cbn [advance with_turn turn_no turn_index participants with_participants with_sessions with_turns turns sessions update_row].
      * rewrite (taken_took_turn (fun _ => true) _ _ _ p) by done. lia.
      * rewrite (taken_took_turn is_agent _ _ _ p) by done. rewrite Hst. destruct (is_agent p); lia.
      * rewrite List.filter_app, length_app. cbn. rewrite String.eqb_refl. cbn. lia.
    + rewrite lookup_alter_ne in Hi by done. destruct (H1 _ _ Hi) as [A' B' C'].
      assert (forall f, (forall x, f (took_turn (st_id s) (p_account p) x) = f x) ->
        taken f i (map (took_turn (st_id s) (p_account p)) (participants t)) = taken f i (participants t)) as Hsame.
      { intros f Hf. clear -Hne Hf. induction (participants t) as [|x l IH]; [done|]. cbn. fold (taken f i l).
        fold (taken f i (map (took_turn (st_id s) (p_account p)) l)). rewrite IH, Hf. unfold in_session.
        rewrite (proj1 (took_turn_keeps _ _ x)). destruct (String.eqb_spec (p_session x) i) as [<-|]; [|done].
        unfold took_turn. by rewrite (proj2 (String.eqb_neq _ _) Hne). }
      split; cbn [advance with_turn turn_no turn_index participants with_participants with_sessions with_turns turns sessions update_row]; [by rewrite Hsame|by rewrite Hsame|]. rewrite List.filter_app, length_app. cbn.
      rewrite (proj2 (String.eqb_neq (st_id s) i)) by congruence. cbn. lia.
  - rewrite <- list_fmap_compose. erewrite list_fmap_ext; [exact H2|]. intros k x _. unfold compose.
    by destruct (took_turn_keeps (st_id s) (p_account p) x) as (-> & -> & _).
  - rewrite <- list_fmap_compose. erewrite list_fmap_ext; [exact H3|]. intros k x _. unfold compose.
    by destruct (took_turn_keeps (st_id s) (p_account p) x) as (-> & _ & _ & -> & _).
  - apply Forall_map. eapply Forall_impl; [exact H4|]. intros x Hx. cbn.
    rewrite (proj1 (took_turn_keeps _ _ x)). by apply Hsome.
  - apply Forall_app. split; [eapply Forall_impl; [exact H5|]; intros x Hx; by apply Hsome|].
    apply Forall_singleton. apply Hsome. cbn. by exists row.
Qed.
