(* ===== verification/BrainstormCommands.v ===== *)
(** The commands of a brainstorm session ([server/application/brainstorm.py]): start,
    join, contribute, pause, resume and close, with the turns they queue in the work
    inbox and the guidance they ask for through the notification outbox. A
    contribution beyond a limit is refused, and its session is paused in a
    transaction of its own. A handler reads the clock several times: [clk i] is its
    [i]-th reading. The closing document, whose failures are swallowed, is an argument;
    summaries and decisions are not modelled. *)

From S2P Require Import Prelude Tx Defaults Canonical Text HashChain Policy Catalog Authority EventStore EventLog Bus Outbox Inbox Brainstorm.
Open Scope Z_scope.

Definition upper_ascii (c : ascii) : ascii :=
  let n := N_of_ascii c in if ((97 <=? n) && (n <=? 122))%N then ascii_of_N (n - 32) else c.
Fixpoint upper (s : string) : string :=
  match s with EmptyString => EmptyString | String c s => String (upper_ascii c) (upper s) end.

Record StartBrainstorm := {
  sb_channel : string; sb_topic : ustr; sb_participants : list string; sb_limits : json; sb_id : option string }.

Record ContributeTurn := {
  ct_id : string; ct_body : ustr; ct_type : option string (* ASCII text *); ct_work_item : option string }.

Record CommandResult := {
  res_id : string; res_event : ustr; res_seq : Z; res_replayed : bool; res_data : list (ustr * json) }.

Definition exceeds (n : Z) (what : string) (limit : Z) : ustr :=
  str_int n ++ lit what ++ str_int limit.

(** The detail of a breach; the elapsed minutes with one decimal are rendered by [minutes_text]. *)
Definition breach_detail (minutes_text : Z -> ustr) (l : Limits) (s : TurnState) (c : BreachCode) : ustr :=
  match c with
  | MAX_CONSECUTIVE_EXCEEDED => exceeds (consecutive_after s) " consecutive turns exceeds " l.(max_consecutive)
  | TURNS_PER_AGENT_EXCEEDED => lit "turn " ++ exceeds (s.(ts_contributor) + 1) " exceeds " l.(turns_per_agent)
  | TOTAL_TURNS_EXCEEDED => lit "turn " ++ exceeds (s.(ts_total) + 1) " exceeds " l.(total_turns)
  | BUDGET_EXCEEDED => exceeds s.(ts_spent) " cost_units exceeds " l.(budget_cost_units)
  | TIME_LIMIT_EXCEEDED => minutes_text (s.(ts_now) - s.(ts_started)) ++ lit " minutes exceeds " ++ str_int l.(time_limit_minutes)
  end.

(** [merged.update(items)] *)
Definition dict_update (d items : list (ustr * json)) : list (ustr * json) :=
  foldl (fun d kv => if existsb (fun x => bool_decide (x.1 = kv.1)) d
                     then map (fun x => if bool_decide (x.1 = kv.1) then kv else x) d else d ++ [kv]) d items.

Section commands.
Context {ES : Type} {ELI : EventLogI ES} {W : Type}.
Context (sha256 : list N -> ustr) (isoformat_utc : Z -> ustr) (catalog : PolicyCatalog).
(** [documents.on_brainstorm_closed], any exception swallowed. *)
Context (on_brainstorm_closed : string -> W * ES -> W * ES).
(** [f"{elapsed:.1f}"] of a duration in microseconds, in minutes. *)
Context (minutes_text : Z -> ustr).

(** The store behind the interface the inbox asks for. *)
#[local] Instance inbox_store : EventStoreI ES := {|
  es_append := el_append; es_recorded _ _ := True;
  es_append_recorded _ _ _ _ _ := I; es_append_keeps _ _ _ _ _ _ _ := I |}.

Record Db := {
  tables : Tables;
  guidance : Outbox.Db unit;         (* delivery_outbox *)
  authority : Authority.Db;
  inbox : Inbox.Db (ES := ES);       (* with the audit rows and the Event store *)
  decisions : list string;           (* brainstorm_decisions: brainstorm_id *)
  world : W }.

Definition with_tables (t : Tables) (db : Db) : Db := {|
  tables := t; guidance := db.(guidance); authority := db.(authority); inbox := db.(inbox);
  decisions := db.(decisions); world := db.(world) |}.
Definition with_guidance (g : Outbox.Db unit) (db : Db) : Db := {|
  tables := db.(tables); guidance := g; authority := db.(authority); inbox := db.(inbox);
  decisions := db.(decisions); world := db.(world) |}.
Definition with_inbox (i : Inbox.Db) (db : Db) : Db := {|
  tables := db.(tables); guidance := db.(guidance); authority := db.(authority); inbox := i;
  decisions := db.(decisions); world := db.(world) |}.

Definition put_store (s : ES) (db : Db) : Db := with_inbox {|
  work_items := db.(inbox).(work_items); receipts := db.(inbox).(receipts);
  next_receipt_id := db.(inbox).(next_receipt_id); audit_events := db.(inbox).(audit_events); event_store := s |} db.

(** What a command draws from outside: its clock, the time of its authorizer and fresh ids. *)
Record Env := {
  clk : nat -> Z; authorized_at : Z; audit_id : string; work_item_hex : string; outbox_hex : string; new_id : string }.

Definition change (f : Tables -> Tables) : tx Db unit := modify (fun db => with_tables (f db.(tables)) db).
Definition try_change (f : Tables -> res Tables) : tx Db unit := fun db =>
  t ← f db.(tables); Ok (tt, with_tables t db).

(** ** Helpers *)

Definition _state (ctx : CommandContext) (id : string) : tx Db (BrainstormState * string) := fun db =>
  s ← require ctx.(ctx_workspace_id) id db.(tables);
  match db.(authority).(channel_ids) !! s.(st_row).(b_channel) with
  | Some c => Ok ((s, c), db)
  | None => Err "BRAINSTORM_NOT_FOUND"
  end.

(** [members.account_ref] with the agent of the account *)
Definition _account (ctx : CommandContext) (id : string) : tx Db PrincipalInfo := fun db =>
  match db.(authority).(accounts) !! id with
  | Some a => if String.eqb a.(workspace_uuid) ctx.(ctx_workspace_id) && String.eqb a.(principal_status) "ACTIVE"
              then Ok (a, db) else Err "ACCOUNT_NOT_FOUND"
  | None => Err "ACCOUNT_NOT_FOUND"
  end.

(** [members.channel_ref]: the id of the channel; [channel_ids] are the channels of the
    workspace of the command. *)
Definition channel_ref (channel : string) : tx Db string := fun db =>
  match find (fun kv => String.eqb kv.2 channel) (map_to_list db.(authority).(channel_ids)) with
  | Some kv => Ok (kv.1, db)
  | None => Err "CHANNEL_NOT_FOUND"
  end.

Definition permit (env : Env) (ctx : CommandContext) (permission action channel : string)
    : atx AuditRecord Db unit := fun db log =>
  let '(rows, r) := require_permission
    (Some (fun q => bus_require sha256 catalog env.(audit_id) db.(authority) env.(authorized_at) ctx.(ctx_principal).(p_account_id) q))
    (permission_request ctx permission (Some action) (Some channel)) [] in
  (log ++ rows, r ≫= fun _ => Ok (tt, db)).

Definition _facilitator_only (ctx : CommandContext) (s : BrainstormState) : tx Db unit :=
  guard_tx (negb (String.eqb s.(st_row).(facilitator) ctx.(ctx_principal).(p_account_uuid))) "BRAINSTORM_FACILITATOR_ONLY".

Definition stream_key (workspace id : string) : ustr * ustr * ustr := (lit workspace, lit "brainstorm", lit id).

Definition request (ctx : CommandContext) (scope key : string) (id event_type : string) (body : list (ustr * json))
    (channel : string) (seq : Z) : AppendRequest := {|
  r_workspace_id := lit ctx.(ctx_workspace_id); r_aggregate_type := lit "brainstorm"; r_aggregate_id := lit id;
  r_type := lit event_type; r_actor_account_id := lit ctx.(ctx_principal).(p_account_uuid);
  r_correlation_id := lit ctx.(ctx_correlation_id); r_idempotency_scope := lit scope; r_idempotency_key := lit key;
  r_payload := body; r_policy_version := lit "policy-v1"; r_channel_id := Some (lit channel); r_task_id := None;
  r_caused_by := None; r_expected_seq := Some seq; r_sensitive := None; r_schema_version := 1 |}.

Definition _append (ctx : CommandContext) (scope key id event_type : string) (body : list (ustr * json)) (channel : string)
    : tx Db AppendResult := fun db =>
  let s := db.(inbox).(event_store) in
  let seq := Z.of_nat (length (in_stream (stream_key ctx.(ctx_workspace_id) id) (el_log s))) + 1 in
  match el_append (request ctx scope key id event_type body channel seq) s with
  | Ok (a, s') => Ok (a, put_store s' db)
  | Err e => Err e
  end.

Definition _audit (ctx : CommandContext) (action id : string) (meta : list (ustr * json)) : tx Db unit :=
  zoom inbox with_inbox (append_audit {| ar_action := action; ar_target_id := id; ar_result := "OK"; ar_error_code := None;
    ar_actor_label := ctx.(ctx_principal).(p_account_id); ar_metadata := meta |}).

Definition turn_args (env : Env) (ctx : CommandContext) (s : BrainstormState) (channel agent : string) (p : Participant)
    (deadline : Z) : EnqueueArgs := {|
  q_workspace_id := ctx.(ctx_workspace_id); q_kind := "brainstorm_turn"; q_agent_id := agent;
  q_payload := turn_payload s channel p; q_deadline := deadline; q_expected_result_schema := "colab.work-result.v1";
  q_correlation_id := ctx.(ctx_correlation_id);
  q_idempotency_key := s.(st_id) +:+ ":turn:" +:+ int_text (s.(st_row).(turn_no) + 1);
  q_actor_account_id := ctx.(ctx_principal).(p_account_uuid); q_task_id := None; q_brainstorm_id := Some s.(st_id);
  q_secret_handles := None; q_work_item_id := None |}.

(** [n]: the readings of the clock before it. *)
Definition _deliver_next_turn (env : Env) (n : nat) (ctx : CommandContext) (id : string) : tx Db (option string) :=
  fresh ← _state ctx id;
  let s := fresh.1 in
  if negb (bool_decide (s.(st_row).(b_status) = OPEN)) then mret None
  else match next_agent s with
  | Some p =>
      match p.(p_agent) with
      | Some agent =>
          item ← zoom inbox with_inbox (Inbox.enqueue isoformat_utc env.(work_item_hex) (env.(clk) (S n))
                   (turn_args env ctx s fresh.2 agent p (env.(clk) n + seconds 600)));
          mret (Some item.(work_item_id))
      | None => mret None
      end
  | None => mret None
  end.

Definition _request_guidance (env : Env) (ctx : CommandContext) (s : BrainstormState) (channel reason : string)
    (detail event : ustr) (now : Z) : tx Db unit :=
  _ ← zoom guidance with_guidance (Outbox.enqueue env.(outbox_hex) {|
    e_workspace := ctx.(ctx_workspace_id); e_kind := "notification";
    e_destination := lit ("account:" +:+ s.(st_row).(facilitator));
    e_dedupe_key := lit ("bs-guidance:" +:+ s.(st_id) +:+ ":") ++ event;
    e_payload := [(lit "reason", jtext "BRAINSTORM_GUIDANCE_REQUESTED"); (lit "brainstorm_id", jtext s.(st_id));
                  (lit "reason_code", jtext reason); (lit "detail", JStr detail); (lit "topic", JStr s.(st_row).(b_topic));
                  (lit "channel_id", jtext channel)];
    e_source := Some event; e_next := now |});
  mret tt.

(** It reads the clock twice. *)
Definition _pause (env : Env) (n : nat) (ctx : CommandContext) (scope key : string) (s : BrainstormState)
    (channel reason : string) (detail : ustr) : tx Db AppendResult :=
  let now := env.(clk) n in
  a ← _append ctx scope key s.(st_id) "BRAINSTORM_PAUSED"
    [(lit "brainstorm_id", jtext s.(st_id)); (lit "reason_code", jtext reason); (lit "detail", JStr detail)]
    s.(st_row).(b_channel);
  _ ← change (set_status s.(st_id) PAUSED now (Some reason) (Some a.(a_event_id)));
  _ ← _request_guidance env ctx s channel reason detail a.(a_event_id) (env.(clk) (S n));
  _ ← _audit ctx "brainstorm.paused" s.(st_id) [(lit "reason_code", jtext reason)];
  mret a.

(** In a transaction of its own; another breach may have paused the session already. *)
Definition _pause_on_breach (env : Env) (ctx : CommandContext) (id reason : string) (detail : ustr) : tx Db unit := fun db =>
  match _state ctx id db with
  | Ok ((s, channel), _) =>
      if bool_decide (s.(st_row).(b_status) = OPEN) then
        match _pause env 1 ctx "brainstorm:contribute" (ctx.(ctx_idempotency_key) +:+ ":pause") s channel reason detail db with
        | Ok (_, db') => Ok (tt, db')
        | Err e => Err e
        end
      else Ok (tt, db)
  | Err e => if String.eqb e "BRAINSTORM_NOT_FOUND" then Ok (tt, db) else Err e
  end.

Definition result (id : string) (a : AppendResult) (data : list (ustr * json)) : CommandResult := {|
  res_id := id; res_event := a.(a_event_id); res_seq := a.(a_aggregate_seq); res_replayed := a.(replayed); res_data := data |}.

Definition replay (id : string) (a : AppendResult) : CommandResult := result id a [(lit "replayed", JBool true)].

Definition jwork (w : option string) : ustr * json :=
  (lit "next_work_item_id", match w with Some w => jtext w | None => JNull end).

(** ** Handlers *)

Definition role_of (a : PrincipalInfo) : string := if String.eqb a.(account_type) "agent" then "agent" else "human".

(** Seat an account; its seat as [add_participant] returns it. *)
Definition seat_account (ctx : CommandContext) (id account : string) : tx Db (Z * string) :=
  a ← _account ctx account;
  let role := role_of a in
  let agent := if String.eqb role "agent" then a.(Authority.agent_id) else None in
  n ← gets (fun db => (add_participant id a.(account_uuid) account role agent db.(tables)).1);
  _ ← change (fun t => (add_participant id a.(account_uuid) account role agent t).2);
  mret (n, role).

Fixpoint seat_all (ctx : CommandContext) (id : string) (l : list string) : tx Db unit :=
  match l with
  | [] => mret tt
  | account :: l => _ ← seat_account ctx id account; seat_all ctx id l
  end.

Definition start_tx (env : Env) (ctx : CommandContext) (cmd : StartBrainstorm) : tx Db CommandResult :=
  _ ← guard_tx (blank cmd.(sb_topic)) "BRAINSTORM_TOPIC_REQUIRED";
  channel ← channel_ref cmd.(sb_channel);
  limits ← lift (parse cmd.(sb_limits));
  let id := match py_or cmd.(sb_id) None with Some i => i | None => "bs-" +:+ env.(new_id) end in
  let now := env.(clk) 0%nat in
  a ← _append ctx "brainstorm:open" ctx.(ctx_idempotency_key) id "BRAINSTORM_OPENED" [
    (lit "brainstorm_id", jtext id); (lit "channel_id", jtext cmd.(sb_channel)); (lit "topic", JStr cmd.(sb_topic));
    (lit "facilitator_account_id", jtext ctx.(ctx_principal).(p_account_id)); (lit "limits", JObj (as_dict limits));
    (lit "participants", JArr (jtext <$> cmd.(sb_participants)))] channel;
  if a.(replayed) then mret (replay id a)
  else
    _ ← try_change (insert id ctx.(ctx_workspace_id) channel cmd.(sb_topic) ctx.(ctx_principal).(p_account_uuid) limits now);
    _ ← seat_all ctx id cmd.(sb_participants);
    _ ← change (set_status id OPEN now None (Some a.(a_event_id)));
    _ ← _state ctx id;
    work ← _deliver_next_turn env 1 ctx id;
    _ ← _audit ctx "brainstorm.opened" id
      [(lit "participants", JArr (jtext <$> cmd.(sb_participants))); (lit "topic", JStr cmd.(sb_topic))];
    mret (result id a [(lit "participants", JArr (jtext <$> cmd.(sb_participants))); jwork work]).

Definition start_brainstorm (env : Env) (cmd : StartBrainstorm) (ctx : CommandContext) : atx AuditRecord Db CommandResult :=
  _ ← permit env ctx "brainstorm.open" "command:brainstorm.start" cmd.(sb_channel);
  in_tx (start_tx env ctx cmd).

(** The session, with the permission of a command on it. *)
Definition facilitated (env : Env) (ctx : CommandContext) (action id : string) : atx AuditRecord Db (BrainstormState * string) :=
  s ← in_tx (_state ctx id);
  _ ← permit env ctx "brainstorm.facilitate" action s.2;
  _ ← in_tx (_facilitator_only ctx s.1);
  mret s.

Definition join_brainstorm (env : Env) (id account : string) (ctx : CommandContext) : atx AuditRecord Db CommandResult :=
  s ← facilitated env ctx "command:brainstorm.start" id;
  in_tx (_ ← guard_tx (bool_decide (s.1.(st_row).(b_status) = CLOSED)) "BRAINSTORM_CLOSED";
         seat ← seat_account ctx id account;
         _ ← _audit ctx "brainstorm.joined" id [(lit "account_id", jtext account); (lit "role", jtext seat.2)];
         mret {| res_id := id; res_event := []; res_seq := 0; res_replayed := false;
                 res_data := [(lit "seat", JInt seat.1); (lit "role", jtext seat.2)] |}).

(** The contribution as the limits see it. *)
Definition turn_state (env : Env) (s : BrainstormState) (p : Participant) (t : Tables) : TurnState := {|
  ts_total := s.(st_row).(turn_no); ts_contributor := p.(turns_taken); ts_consecutive := s.(st_row).(consecutive_turns);
  ts_is_last := is_last s p.(p_account); ts_spent := spent_cost_units s.(st_id) t; ts_started := s.(st_row).(started_at);
  ts_now := env.(clk) 0%nat |}.

Definition contribution_type (cmd : ContributeTurn) (p : Participant) : string :=
  upper (match py_or cmd.(ct_type) None with Some c => c | None => if is_agent p then EmptyString else "IDEA" end).

(** The recording of an accepted turn. *)
Definition record_turn (env : Env) (ctx : CommandContext) (cmd : ContributeTurn) (s : BrainstormState) (p : Participant)
    : tx Db CommandResult :=
  let ctype := contribution_type cmd p in
  let now := env.(clk) 1%nat in
  a ← _append ctx "brainstorm:contribute" ctx.(ctx_idempotency_key) s.(st_id) "IDEA_RECORDED" [
    (lit "brainstorm_id", jtext s.(st_id)); (lit "contribution_type", jtext ctype);
    (lit "contributor_account_id", jtext ctx.(ctx_principal).(p_account_id));
    (lit "turn_no", JInt (s.(st_row).(turn_no) + 1)); (lit "body", JStr cmd.(ct_body))] s.(st_row).(b_channel);
  if a.(replayed) then mret (replay s.(st_id) a)
  else
    _ ← try_change (record s p.(p_account) ctype cmd.(ct_body) a.(a_event_id) cmd.(ct_work_item) now);
    _ ← change (advance s p.(p_account) (is_agent p) now);
    work ← _deliver_next_turn env 2 ctx s.(st_id);
    mret (result s.(st_id) a [(lit "turn_id", jtext ("bst-" +:+ env.(new_id))); (lit "turn_no", JInt (s.(st_row).(turn_no) + 1));
                              (lit "contribution_type", jtext ctype); jwork work]).

(** The checks of a contribution; a breach of a limit is a result of its own. *)
Definition contribute_tx (env : Env) (ctx : CommandContext) (cmd : ContributeTurn) (s : BrainstormState)
    : tx Db (BreachCode * ustr + CommandResult) :=
  _ ← guard_tx (negb (bool_decide (s.(st_row).(b_status) = OPEN))) "BRAINSTORM_NOT_OPEN";
  _ ← guard_tx (blank cmd.(ct_body)) "BRAINSTORM_BODY_REQUIRED";
  match participant s ctx.(ctx_principal).(p_account_uuid) with
  | None => raise "BRAINSTORM_NOT_A_PARTICIPANT"
  | Some p =>
      _ ← guard_tx (is_agent p && negb (truthy cmd.(ct_type))) "BRAINSTORM_CONTRIBUTION_TYPE_REQUIRED";
      _ ← guard_tx (negb (mem (contribution_type cmd p) CONTRIBUTION_TYPES)) "BRAINSTORM_CONTRIBUTION_TYPE_INVALID";
      t ← gets tables;
      let ts := turn_state env s p t in
      match check s.(st_limits) ts (is_agent p) with
      | Some c => mret (inl (c, breach_detail minutes_text s.(st_limits) ts c))
      | None =>
          _ ← guard_tx (is_agent p && match next_agent s with
                | Some expected => negb (String.eqb expected.(p_account) p.(p_account)) | None => false end)
              "BRAINSTORM_NOT_YOUR_TURN";
          r ← record_turn env ctx cmd s p; mret (inr r)
      end
  end.

Definition contribute_body (env : Env) (ctx : CommandContext) (cmd : ContributeTurn)
    : atx AuditRecord Db (BreachCode * ustr + CommandResult) :=
  s ← in_tx (_state ctx cmd.(ct_id));
  _ ← permit env ctx "brainstorm.contribute" "command:brainstorm.contribute" s.2;
  in_tx (contribute_tx env ctx cmd s.1).

(** The audit rows of the denials, the state after the command - an exception rolls it
    back, but for the pause of a breach - and its result. *)
Definition contribute_turn (env : Env) (cmd : ContributeTurn) (ctx : CommandContext) (db : Db) (log : list AuditRecord)
    : list AuditRecord * Db * res CommandResult :=
  match contribute_body env ctx cmd db log with
  | (log, Ok (inr r, db')) => (log, db', Ok r)
  | (log, Ok (inl (code, detail), _)) =>
      match _pause_on_breach env ctx cmd.(ct_id) (code_value code) detail db with
      | Ok (_, db') => (log, db', Err (code_value code))
      | Err e => (log, db, Err e)
      end
  | (log, Err e) => (log, db, Err e)
  end.

Definition pause_brainstorm (env : Env) (id reason : string) (ctx : CommandContext) : atx AuditRecord Db CommandResult :=
  s ← facilitated env ctx "command:brainstorm.pause" id;
  in_tx (_ ← guard_tx (negb (bool_decide (s.1.(st_row).(b_status) = OPEN))) "BRAINSTORM_NOT_OPEN";
         a ← _pause env 0 ctx "brainstorm:pause" ctx.(ctx_idempotency_key) s.1 s.2 reason
               (lit "facilitator paused the session");
         mret (result s.1.(st_id) a [(lit "status", jtext "PAUSED")])).

Definition with_limits (l : Limits) (now : Z) (r : BrainstormRow) : BrainstormRow := {|
  b_workspace := r.(b_workspace); b_channel := r.(b_channel); b_topic := r.(b_topic); facilitator := r.(facilitator);
  b_status := r.(b_status); b_limits := JObj (as_dict l); turn_no := r.(turn_no); turn_index := r.(turn_index);
  last_contributor := r.(last_contributor); consecutive_turns := 0; paused_reason := r.(paused_reason);
  started_at := r.(started_at); closed_at := r.(closed_at); last_event_id := r.(last_event_id); b_updated_at := now |}.

Definition resume_tx (env : Env) (ctx : CommandContext) (items : list (ustr * json)) (s : BrainstormState)
    : tx Db CommandResult :=
  _ ← guard_tx (negb (bool_decide (s.(st_row).(b_status) = PAUSED))) "BRAINSTORM_NOT_PAUSED";
  limits ← lift (parse (JObj (dict_update (as_dict s.(st_limits)) items)));
  let now := env.(clk) 0%nat in
  a ← _append ctx "brainstorm:resume" ctx.(ctx_idempotency_key) s.(st_id) "BRAINSTORM_RESUMED"
    [(lit "brainstorm_id", jtext s.(st_id)); (lit "limits", JObj (as_dict limits))] s.(st_row).(b_channel);
  if a.(replayed) then mret (replay s.(st_id) a)
  else
    _ ← change (update_row s.(st_id) (with_limits limits now));
    _ ← change (set_status s.(st_id) OPEN now None (Some a.(a_event_id)));
    work ← _deliver_next_turn env 1 ctx s.(st_id);
    _ ← _audit ctx "brainstorm.resumed" s.(st_id) [(lit "limits", JObj (as_dict limits))];
    mret (result s.(st_id) a [(lit "status", jtext "OPEN"); (lit "limits", JObj (as_dict limits)); jwork work]).

Definition resume_brainstorm (env : Env) (id : string) (items : list (ustr * json)) (ctx : CommandContext)
    : atx AuditRecord Db CommandResult :=
  s ← facilitated env ctx "command:brainstorm.resume" id;
  in_tx (resume_tx env ctx items s.1).

(** The document of a closed session is written from the store and the rest of the database. *)
Definition draft_closing (id : string) : tx Db unit := fun db =>
  let '(w, s) := on_brainstorm_closed id (db.(world), db.(inbox).(event_store)) in
  let db := put_store s db in
  Ok (tt, {| tables := db.(tables); guidance := db.(guidance); authority := db.(authority); inbox := db.(inbox);
             decisions := db.(decisions); world := w |}).

Definition close_tx (env : Env) (ctx : CommandContext) (s : BrainstormState) : tx Db CommandResult :=
  _ ← guard_tx (bool_decide (s.(st_row).(b_status) = CLOSED)) "BRAINSTORM_CLOSED";
  let now := env.(clk) 0%nat in
  decided ← gets (fun db => List.filter (String.eqb s.(st_id)) db.(decisions));
  a ← _append ctx "brainstorm:close" ctx.(ctx_idempotency_key) s.(st_id) "BRAINSTORM_CLOSED"
    [(lit "brainstorm_id", jtext s.(st_id)); (lit "turn_count", JInt s.(st_row).(turn_no));
     (lit "decision_count", JInt (Z.of_nat (length decided)))] s.(st_row).(b_channel);
  if a.(replayed) then mret (replay s.(st_id) a)
  else
    _ ← change (set_status s.(st_id) CLOSED now None (Some a.(a_event_id)));
    _ ← _audit ctx "brainstorm.closed" s.(st_id) [(lit "turn_count", JInt s.(st_row).(turn_no))];
    _ ← draft_closing s.(st_id);
    mret (result s.(st_id) a [(lit "status", jtext "CLOSED")]).

Definition close_brainstorm (env : Env) (id : string) (ctx : CommandContext) : atx AuditRecord Db CommandResult :=
  s ← facilitated env ctx "command:brainstorm.close" id;
  in_tx (close_tx env ctx s.1).

(** ** What a contribution does *)

Definition keeps_tables {A} (m : tx Db A) : Prop := forall db a db', m db = Ok (a, db') -> tables db' = tables db.

Lemma append_keeps_tables ctx scope key id ty body channel : keeps_tables (_append ctx scope key id ty body channel).
Proof. intros db a db'. unfold _append. by destruct (el_append _ _) as [[x s]|]; [intros [= _ <-]|]. Qed.

Lemma keeps_inbox {A} (m : tx Inbox.Db A) : keeps_tables (zoom inbox with_inbox m).
Proof. by intros db a db' (i & _ & ->)%zoom_ok. Qed.

Lemma keeps_guidance {A} (m : tx (Outbox.Db unit) A) : keeps_tables (zoom guidance with_guidance m).
Proof. by intros db a db' (i & _ & ->)%zoom_ok. Qed.

Lemma keeps_bind_tables {A B} (m : tx Db A) (f : A -> tx Db B) :
  keeps_tables m -> (forall a, keeps_tables (f a)) -> keeps_tables (m ≫= f).
Proof. intros Hm Hf db b db' (a & db1 & H1 & H2)%tx_bind_ok. by rewrite (Hf _ _ _ _ H2), (Hm _ _ _ H1). Qed.

Lemma keeps_ret_tables {A} (a : A) : keeps_tables (mret a).
Proof. by intros db b db' [_ <-]%tx_ret_ok. Qed.

Lemma state_ok ctx id db x db' :
  _state ctx id db = Ok (x, db') -> db' = db /\ require ctx.(ctx_workspace_id) id (tables db) = Ok x.1.
Proof.
  unfold _state. destruct (require _ _ _) as [s|] eqn:E; [|done]. cbn. destruct (_ !! _); [|done].
  by intros [= <- <-].
Qed.

Lemma keeps_state ctx id : keeps_tables (_state ctx id).
Proof. by intros db a db' [-> _]%state_ok. Qed.

Lemma keeps_deliver env n ctx id : keeps_tables (_deliver_next_turn env n ctx id).
Proof.
  unfold _deliver_next_turn. apply keeps_bind_tables; [apply keeps_state|]. intros fresh. cbv zeta.
  repeat case_match; try apply keeps_ret_tables.
  apply keeps_bind_tables; [apply keeps_inbox|intros ?; apply keeps_ret_tables].
Qed.

Lemma require_spec ws id t s :
  require ws id t = Ok s <-> exists row, sessions t !! id = Some row /\ row.(b_workspace) = ws /\
    s.(st_id) = id /\ s.(st_row) = row /\ parse row.(b_limits) = Ok s.(st_limits) /\ s.(st_participants) = participants_of id t.
Proof.
  unfold require, load. destruct (sessions t !! id) as [row|] eqn:E; cbn; [|split; [done|by intros (? & [=] & _)]].
  destruct (String.eqb_spec row.(b_workspace) ws) as [Hw|Hw]; cbn; [|split; [done|by intros (? & [= <-] & ? & _)]].
  destruct (parse _) as [l|] eqn:Hp; cbn; [|split; [done|intros (? & [= <-] & _ & _ & _ & H & _); congruence]]. split.
  - intros [= <-]. by exists row.
  - intros (? & [= <-] & _ & H1 & H2 & H3 & H4). destruct s; cbn in *. rewrite Hp in H3. injection H3 as <-. by subst.
Qed.

(** The session, its participant and the limits of a contribution that was checked. *)
Record checked (env : Env) (ctx : CommandContext) (cmd : ContributeTurn) (t : Tables) (s : BrainstormState) (p : Participant) : Prop := {
  ck_state : require ctx.(ctx_workspace_id) cmd.(ct_id) t = Ok s;
  ck_open : s.(st_row).(b_status) = OPEN;
  ck_body : blank cmd.(ct_body) = false;
  ck_participant : participant s ctx.(ctx_principal).(p_account_uuid) = Some p;
  ck_type : contribution_type cmd p ∈ CONTRIBUTION_TYPES }.

Lemma contribute_tx_ok env ctx cmd s db x db' :
  require ctx.(ctx_workspace_id) cmd.(ct_id) (tables db) = Ok s -> contribute_tx env ctx cmd s db = Ok (x, db') ->
  exists p, checked env ctx cmd (tables db) s p /\
    let ts := turn_state env s p (tables db) in
    match check s.(st_limits) ts (is_agent p) with
    | Some c => x = inl (c, breach_detail minutes_text s.(st_limits) ts c) /\ db' = db
    | None => exists r, x = inr r /\ record_turn env ctx cmd s p db = Ok (r, db') /\
        (is_agent p = true -> forall e, next_agent s = Some e -> e.(p_account) = p.(p_account))
    end.
Proof.
  intros Hreq. unfold contribute_tx. intros (? & db1 & [Ho <-]%guard_tx_ok & H)%tx_bind_ok.
  apply tx_bind_ok in H as (? & db1 & [Hb <-]%guard_tx_ok & H). destruct (participant _ _) as [p|] eqn:Hp; [|done].
  apply tx_bind_ok in H as (? & db1 & [_ <-]%guard_tx_ok & H). apply tx_bind_ok in H as (? & db1 & [Ht <-]%guard_tx_ok & H).
  apply tx_bind_ok in H as (t & db1 & [<- <-]%gets_ok & H). apply negb_false_iff, bool_decide_eq_true in Ho.
  apply negb_false_iff, mem_spec in Ht. exists p. split; [by constructor|]. cbv zeta in *.
  destruct (check _ _ _) as [c|]; [by apply tx_ret_ok in H as [<- <-]|].
  apply tx_bind_ok in H as (? & db1 & [Hn <-]%guard_tx_ok & H). apply tx_bind_ok in H as (r & db1 & Hr & [<- <-]%tx_ret_ok).
  exists r. split_and!; [done|exact Hr|]. intros Ha e He. rewrite Ha, He in Hn. cbn in Hn.
  by apply negb_false_iff, String.eqb_eq in Hn.
Qed.

Lemma record_turn_ok env ctx cmd s p db r db' :
  record_turn env ctx cmd s p db = Ok (r, db') ->
  (r.(res_replayed) = true /\ tables db' = tables db) \/
  (r.(res_replayed) = false /\ exists event t', record s p.(p_account) (contribution_type cmd p) cmd.(ct_body) event
     cmd.(ct_work_item) (env.(clk) 1%nat) (tables db) = Ok t' /\
   tables db' = advance s p.(p_account) (is_agent p) (env.(clk) 1%nat) t').
Proof.
  unfold record_turn. intros (a & db1 & E%append_keeps_tables & H)%tx_bind_ok. destruct (replayed a) eqn:Ha.
  { left. apply tx_ret_ok in H as [<- <-]. by split. }
  right. apply tx_bind_ok in H as (? & db2 & H2 & H). unfold try_change in H2.
  destruct (record _ _ _ _ _ _ _ _) as [t'|] eqn:Hr; [|done]. cbn in H2. injection H2 as _ <-.
  apply tx_bind_ok in H as (? & db3 & <-%modify_ok & H). apply tx_bind_ok in H as (w & db4 & E4%keeps_deliver & [<- <-]%tx_ret_ok).
  split; [exact Ha|]. exists (a_event_id a), t'. rewrite E in Hr. split; [exact Hr|]. exact E4.
Qed.

Lemma pause_ok env n ctx scope key s channel reason detail db a db' :
  _pause env n ctx scope key s channel reason detail db = Ok (a, db') ->
  exists event, tables db' = set_status s.(st_id) PAUSED (env.(clk) n) (Some reason) (Some event) (tables db).
Proof.
  unfold _pause. intros (x & db1 & E1%append_keeps_tables & H)%tx_bind_ok.
  apply tx_bind_ok in H as (? & db2 & <-%modify_ok & H). apply tx_bind_ok in H as (? & db3 & H3 & H).
  apply tx_bind_ok in H as (? & db4 & E4%keeps_inbox & [_ <-]%tx_ret_ok).
  unfold _request_guidance in H3. apply tx_bind_ok in H3 as (? & db5 & E5%keeps_guidance & [_ <-]%tx_ret_ok).
  exists (a_event_id x). rewrite E4, E5. cbn [tables with_tables]. by rewrite E1.
Qed.

(** A breach pauses the session: nothing can close it between the check and the pause. *)
Lemma pause_on_breach_ok env ctx id reason detail db u db' s :
  require ctx.(ctx_workspace_id) id (tables db) = Ok s -> s.(st_row).(b_status) = OPEN ->
  _pause_on_breach env ctx id reason detail db = Ok (u, db') ->
  tables db' = tables db \/
  exists event, tables db' = set_status id PAUSED (env.(clk) 1%nat) (Some reason) (Some event) (tables db).
Proof.
  unfold _pause_on_breach. intros Hr Ho. destruct (_state ctx id db) as [[[s' ch] d]|e] eqn:E.
  - apply state_ok in E as [_ Hs]. rewrite Hr in Hs. injection Hs as <-. rewrite Ho. cbn.
    destruct (_pause _ _ _ _ _ _ _ _ _ _) as [[a d']|] eqn:Ep; [|done]. intros [= _ <-]. right.
    apply pause_ok in Ep as [event Ep]. exists event. apply require_spec in Hr as (row & _ & _ & Hid & _). by rewrite <- Hid.
  - destruct (String.eqb _ _); [|done]. intros [= _ <-]. by left.
Qed.

Definition turn_check (env : Env) (s : BrainstormState) (p : Participant) (t : Tables) : option BreachCode :=
  check s.(st_limits) (turn_state env s p t) (is_agent p).

(** What a contribution leaves: a turn, a paused session, or the tables as they were. *)
Inductive contributed (env : Env) (ctx : CommandContext) (cmd : ContributeTurn) (t t' : Tables) : res CommandResult -> Prop :=
| Did_nothing r : t' = t -> (forall x, r = Ok x -> x.(res_replayed) = true) -> contributed env ctx cmd t t' r
| Did_pause s p c event : checked env ctx cmd t s p -> turn_check env s p t = Some c ->
    t' = set_status cmd.(ct_id) PAUSED (env.(clk) 1%nat) (Some (code_value c)) (Some event) t ->
    contributed env ctx cmd t t' (Err (code_value c))
| Did_speak s p event t1 x : checked env ctx cmd t s p -> turn_check env s p t = None ->
    (is_agent p = true -> forall e, next_agent s = Some e -> e.(p_account) = p.(p_account)) ->
    record s p.(p_account) (contribution_type cmd p) cmd.(ct_body) event cmd.(ct_work_item) (env.(clk) 1%nat) t = Ok t1 ->
    t' = advance s p.(p_account) (is_agent p) (env.(clk) 1%nat) t1 -> x.(res_replayed) = false ->
    contributed env ctx cmd t t' (Ok x).

Lemma permit_ok env ctx permission action channel db log log' u db' :
  permit env ctx permission action channel db log = (log', Ok (u, db')) -> db' = db.
Proof.
  unfold permit. destruct (require_permission _ _ _) as [rows [x|e]]; cbn; [by intros [= _ _ <-]|done].
Qed.

Lemma contribute_cases env cmd ctx db log log' db' r :
  contribute_turn env cmd ctx db log = (log', db', r) -> contributed env ctx cmd (tables db) (tables db') r.
Proof.
  unfold contribute_turn. destruct (contribute_body _ _ _ _ _) as [log1 [[x d]|e]] eqn:E; last first.
  { intros [= _ <- <-]. by apply Did_nothing. }
  unfold contribute_body in E. apply atx_bind_ok in E as ([s ch] & d1 & l1 & [_ H1]%in_tx_ok & E).
  apply state_ok in H1 as [-> Hreq]. cbn [fst snd] in *.
  apply atx_bind_ok in E as (u & d2 & l2 & ->%permit_ok & [_ H2]%in_tx_ok).
  destruct (contribute_tx_ok _ _ _ _ _ _ _ Hreq H2) as (p & Hck & H3). cbv zeta in H3. fold (turn_check env s p (tables db)) in H3.
  destruct (turn_check _ _ _ _) as [c|] eqn:Hc.
  - destruct H3 as [-> ->]. destruct (_pause_on_breach _ _ _ _ _ _) as [[u' d']|e] eqn:Ep.
    + intros [= _ <- <-]. destruct (pause_on_breach_ok _ _ _ _ _ _ _ _ _ Hreq (ck_open _ _ _ _ _ _ Hck) Ep) as [->|[event ->]];
        [by apply Did_nothing|by eapply Did_pause].
    + intros [= _ <- <-]. by apply Did_nothing.
  - destruct H3 as (r0 & -> & Hr & Hn). intros [= _ <- <-].
    apply record_turn_ok in Hr as [[Hrep ->]|(Hrep & event & t' & Hrec & ->)].
    + apply Did_nothing; [done|]. by intros x [= <-].
    + by eapply Did_speak.
Qed.

(** ** The session comes to an end *)

(** Contributions one after the other, and how many turns they recorded in one session. *)
Fixpoint talk (id : string) (l : list (Env * ContributeTurn * CommandContext)) (db : Db) (log : list AuditRecord)
    : Z * Db :=
  match l with
  | [] => (0, db)
  | (env, cmd, ctx) :: l =>
      let '(log, db, r) := contribute_turn env cmd ctx db log in
      let '(n, db) := talk id l db log in
      ((match r with Ok x => if String.eqb cmd.(ct_id) id && negb x.(res_replayed) then 1 else 0 | Err _ => 0 end) + n, db)
  end.

Lemma speak_row s account ct body event wi now agent t t1 :
  record s account ct body event wi now t = Ok t1 ->
  sessions (advance s account agent now t1) !! s.(st_id) =
  with_turn account (if agent then s.(st_row).(turn_index) + 1 else s.(st_row).(turn_index))
    (if is_last s account then s.(st_row).(consecutive_turns) + 1 else 1) now <$> sessions t !! s.(st_id) /\
  forall id, id <> s.(st_id) -> sessions (advance s account agent now t1) !! id = sessions t !! id.
Proof.
  unfold record. destruct (existsb _ _); [done|]. intros [= <-]. cbn. split; [by rewrite lookup_alter_eq|].
  intros id Hne. by rewrite lookup_alter_ne.
Qed.

(** The limits of the row and the turns it counts, before and after a contribution. *)
Lemma contributed_row env ctx cmd t t' r id row :
  contributed env ctx cmd t t' r -> sessions t !! id = Some row -> exists row', sessions t' !! id = Some row' /\
    row'.(b_limits) = row.(b_limits) /\
    (row'.(turn_no) = row.(turn_no) /\ (forall x, r = Ok x -> cmd.(ct_id) = id -> x.(res_replayed) = true) \/
     cmd.(ct_id) = id /\ row'.(turn_no) = row.(turn_no) + 1 /\ row.(b_status) = OPEN /\ exists x l, r = Ok x /\ x.(res_replayed) = false /\
       parse row.(b_limits) = Ok l /\ (l.(total_turns) <> 0 -> row.(turn_no) + 1 <= l.(total_turns))).
Proof.
  intros H Hrow. destruct H as [r -> Hr|s p c event Hck Hc ->|s p event t1 x Hck Hc Hn Hrec -> Hx].
  - exists row. split_and!; [done|done|]. left. split; [done|]. intros x Hx _. by apply Hr.
  - unfold set_status, update_row, with_sessions. cbn.
    destruct (decide (cmd.(ct_id) = id)) as [<-|Hne].
    + exists (with_status PAUSED (Some (code_value c)) (Some event) (env.(clk) 1%nat) row).
      rewrite lookup_alter_eq, Hrow. split_and!; [done|done|]. left. by split.
    + exists row. rewrite lookup_alter_ne by done. split_and!; [done|done|]. left. by split.
  - pose proof (ck_state _ _ _ _ _ _ Hck) as (row0 & Hrow0 & _ & Hid & Hst & Hl & _)%require_spec.
    destruct (speak_row _ _ _ _ _ _ _ (is_agent p) _ _ Hrec) as [Hown Hother]. rewrite Hid in *.
    destruct (decide (cmd.(ct_id) = id)) as [<-|Hne].
    + rewrite Hrow0 in Hrow. injection Hrow as <-. rewrite Hrow0 in Hown. eexists. split; [exact Hown|]. split; [done|]. right.
      split_and!; [done|done|rewrite <- Hst; apply Hck|]. exists x, s.(st_limits). split_and!; [done|done|exact Hl|].
      intros Hz. unfold turn_check, check in Hc. cbn in Hc. rewrite Hst in Hc.
      destruct (negb _ && _); [done|]. destruct (is_agent p && _ && _); [done|].
      destruct (negb (total_turns (st_limits s) =? 0) && _) eqn:Ht; [done|].
      rewrite (proj2 (Z.eqb_neq _ _) Hz) in Ht. cbn in Ht. apply Z.ltb_ge in Ht. exact Ht.
    + exists row. rewrite Hother by congruence. split_and!; [done|done|]. left. split; [done|]. by intros ? _ ?.
Qed.

(** A session comes to an end. Until its facilitator resumes it with other limits,
    contributions of any kind and in any number record no more turns in a session than
    its total allows; limits cannot be stored without such a total. *)
Theorem talk_ends id l db log n db' row lim :
  talk id l db log = (n, db') -> sessions (tables db) !! id = Some row -> parse row.(b_limits) = Ok lim ->
  n <= Z.max 0 (lim.(total_turns) - row.(turn_no)) /\
  exists row', sessions (tables db') !! id = Some row' /\ row'.(turn_no) = row.(turn_no) + n.
Proof.
  intros H Hrow Hp. pose proof (parse_total _ _ Hp) as Hpos. revert H Hrow Hp.
  revert db log n db' row. induction l as [|[[env cmd] ctx] l IH]; intros db log n db' row H Hrow Hp; cbn [talk] in H.
  { injection H as <- <-. split; [lia|]. exists row. split; [done|lia]. }
  destruct (contribute_turn env cmd ctx db log) as [[log1 db1] r] eqn:E. destruct (talk id l db1 log1) as [m d] eqn:Et.
  injection H as <- <-. apply contribute_cases in E.
  destruct (contributed_row _ _ _ _ _ _ id row E Hrow) as (row1 & Hrow1 & Hl1 & Hcase).
  rewrite <- Hl1 in Hp. destruct (IH _ _ _ _ _ Et Hrow1 Hp) as (Hm & row' & Hrow' & Hn').
  destruct Hcase as [[Hno Hrep]|(Hid & Hno & _ & x & l' & -> & Hx & Hl' & Hbound)].
  - assert (match r with Ok x => if String.eqb (ct_id cmd) id && negb (res_replayed x) then 1 else 0 | Err _ => 0 end = 0) as ->.
    { destruct r as [x|]; [|done]. destruct (String.eqb_spec (ct_id cmd) id) as [Hi|]; [|done]. by rewrite (Hrep x eq_refl Hi). }
    split; [lia|]. exists row'. split; [done|lia].
  - rewrite (proj2 (String.eqb_eq _ _) Hid), Hx. cbn [andb negb]. rewrite Hl1 in Hp. rewrite Hp in Hl'. injection Hl' as <-.
    specialize (Hbound ltac:(lia)). split; [lia|]. exists row'. split; [done|lia].
Qed.

(** An accepted contribution is within every limit and in turn. It records one turn
    row numbered after the last, counts it for its session and its speaker, and then:
    the speaker's turns in a row, an Agent's own turns, the turns of the session, the
    budget spent so far and the time elapsed are all within the limits; and an Agent
    only speaks when the round robin names it, after which the cursor moves on by one. *)
Theorem accepted_turn env cmd ctx db log log' db' x :
  contribute_turn env cmd ctx db log = (log', db', Ok x) -> x.(res_replayed) = false ->
  exists s p turn row', require ctx.(ctx_workspace_id) cmd.(ct_id) (tables db) = Ok s /\ s.(st_row).(b_status) = OPEN /\
    participant s ctx.(ctx_principal).(p_account_uuid) = Some p /\
    turns (tables db') = turns (tables db) ++ [turn] /\ turn.(t_seq) = s.(st_row).(turn_no) + 1 /\ turn.(t_account) = p.(p_account) /\
    participants (tables db') = map (took_turn cmd.(ct_id) p.(p_account)) (participants (tables db)) /\
    sessions (tables db') !! cmd.(ct_id) = Some row' /\ row'.(turn_no) = s.(st_row).(turn_no) + 1 /\
    (let l := s.(st_limits) in
     row'.(consecutive_turns) <= l.(max_consecutive) /\ row'.(turn_no) <= l.(total_turns) /\
     (is_agent p = true -> p.(turns_taken) + 1 <= l.(turns_per_agent)) /\
     (l.(budget_cost_units) <> 0 -> spent_cost_units cmd.(ct_id) (tables db) <= l.(budget_cost_units)) /\
     (l.(time_limit_minutes) <> 0 -> env.(clk) 0%nat - s.(st_row).(started_at) <= minutes l.(time_limit_minutes))) /\
    (is_agent p = true -> (forall e, next_agent s = Some e -> e.(p_account) = p.(p_account)) /\
                          row'.(turn_index) = s.(st_row).(turn_index) + 1) /\
    (is_agent p = false -> row'.(turn_index) = s.(st_row).(turn_index)).
Proof.
  intros H Hx. apply contribute_cases in H. remember (Ok x) as r eqn:Er.
  destruct H as [r -> Hr|s p c event Hck Hc ->|s p event t1 x' Hck Hc Hn Hrec Ht Hx']; [|done|].
  { specialize (Hr x Er). congruence. }
  injection Er as ->. pose proof (ck_state _ _ _ _ _ _ Hck) as Hs. pose proof Hs as (row & Hrow & _ & Hid & Hst & Hl & _)%require_spec.
  destruct (speak_row _ _ _ _ _ _ _ (is_agent p) _ _ Hrec) as [Hown _]. rewrite Hid, Hrow in Hown. cbn in Hown.
  pose proof (parse_valid _ _ Hl) as Hv. unfold valid in Hv. rewrite Forall_forall in Hv.
  assert (1 <= max_consecutive (st_limits s) /\ 1 <= turns_per_agent (st_limits s) /\ 1 <= total_turns (st_limits s)) as (V1 & V2 & V3).
  { split_and!; [apply (Hv "max_consecutive")|apply (Hv "turns_per_agent")|apply (Hv "total_turns")]; by apply (bool_decide_unpack _). }
  unfold turn_check, check in Hc. cbn [turn_state ts_total ts_contributor ts_spent ts_started ts_now] in Hc.
  destruct (negb (max_consecutive _ =? 0) && _) eqn:C1; [done|]. destruct (is_agent p && _ && _) eqn:C2; [done|].
  destruct (negb (total_turns _ =? 0) && _) eqn:C3; [done|]. destruct (negb (budget_cost_units _ =? 0) && _) eqn:C4; [done|].
  destruct (negb (time_limit_minutes _ =? 0) && _) eqn:C5; [done|].
  assert (forall l n : Z, 1 <= l -> negb (l =? 0) && (l <? n) = false -> n <= l) as Hcheck.
  { intros l n Hl1 E. apply andb_false_iff in E as [E|E]; [apply negb_false_iff, Z.eqb_eq in E|apply Z.ltb_ge in E]; lia. }
  assert (forall l n : Z, negb (l =? 0) && (l <? n) = false -> l <> 0 -> n <= l) as Hcheck0.
  { intros l n E Hne. apply andb_false_iff in E as [E|E]; [apply negb_false_iff, Z.eqb_eq in E|apply Z.ltb_ge in E]; lia. }
  unfold record in Hrec. destruct (existsb _ _); [done|]. injection Hrec as <-. rewrite Ht in *. subst row.
  exists s, p. eexists _, _. split_and!; [exact Hs|apply Hck|apply Hck|reflexivity|reflexivity|reflexivity|cbn; by rewrite Hid|exact Hown|reflexivity| |..].
  - cbv zeta. cbn [with_turn consecutive_turns turn_no]. split_and!.
    + apply (Hcheck _ _ V1 C1).
    + apply (Hcheck _ _ V3 C3).
    + intros Ha. rewrite Ha in C2. cbn in C2. apply (Hcheck _ _ V2 C2).
    + rewrite <- Hid. exact (Hcheck0 _ _ C4).
    + intros Hne. apply andb_false_iff in C5 as [C|C]; [apply negb_false_iff, Z.eqb_eq in C; lia|by apply Z.ltb_ge in C].
  - intros Ha. split; [exact (Hn Ha)|]. cbn. by rewrite Ha.
  - intros Ha. cbn. by rewrite Ha.
Qed.

(** ** Retries and joins *)

Lemma spoken_state s ws id p ct body event wi now agent t t1 :
  require ws id t = Ok s -> record s p ct body event wi now t = Ok t1 ->
  forall s1, require ws id (advance s p agent now t1) = Ok s1 ->
  s1.(st_limits) = s.(st_limits) /\ s1.(st_participants) = map (took_turn id p) s.(st_participants) /\
  s1.(st_row) = with_turn p (if agent then s.(st_row).(turn_index) + 1 else s.(st_row).(turn_index))
    (if is_last s p then s.(st_row).(consecutive_turns) + 1 else 1) now s.(st_row).
Proof.
  intros (row & Hrow & _ & Hid & Hst & Hl & Hp)%require_spec Hrec s1 (row1 & Hrow1 & _ & _ & Hst1 & Hl1 & Hp1)%require_spec.
  destruct (speak_row _ _ _ _ _ _ _ agent _ _ Hrec) as [Hown _]. rewrite Hid, Hrow in Hown. rewrite Hown in Hrow1.
  injection Hrow1 as <-. rewrite Hst. split_and!.
  - cbn in Hl1. rewrite Hl in Hl1. by injection Hl1.
  - rewrite Hp1, Hp. unfold record in Hrec. destruct (existsb _ _); [done|]. injection Hrec as <-.
    unfold advance. rewrite Hid. apply (participants_took_turn id p (update_row id _ (with_turns _ t))).
  - rewrite Hst1. by rewrite Hst.
Qed.

(** A retry is punished. The limits are checked before the idempotency key is looked
    up, so when the answer to an accepted contribution is lost and the client sends
    the very same command again, it is taken for a second turn in a row: with the
    default limit it is refused as MAX_CONSECUTIVE_EXCEEDED instead of being answered
    with the recorded turn, and the session is paused for everybody. *)
Theorem retry_pauses_session env ctx cmd s db x db1 env2 s1 channel :
  require ctx.(ctx_workspace_id) cmd.(ct_id) (tables db) = Ok s -> s.(st_limits).(max_consecutive) = 1 ->
  0 <= s.(st_row).(consecutive_turns) ->
  contribute_tx env ctx cmd s db = Ok (inr x, db1) -> x.(res_replayed) = false ->
  _state ctx cmd.(ct_id) db1 = Ok ((s1, channel), db1) -> exists detail,
    contribute_tx env2 ctx cmd s1 db1 = Ok (inl (MAX_CONSECUTIVE_EXCEEDED, detail), db1) /\
    forall u db2, _pause_on_breach env2 ctx cmd.(ct_id) "MAX_CONSECUTIVE_EXCEEDED" detail db1 = Ok (u, db2) ->
      exists row, sessions (tables db2) !! cmd.(ct_id) = Some row /\ row.(b_status) = PAUSED.
Proof.
  intros Hreq Hmax Hpos Hct Hx Hst1. pose proof Hst1 as [_ Hreq1]%state_ok. cbn [fst] in Hreq1.
  destruct (contribute_tx_ok _ _ _ _ _ _ _ Hreq Hct) as (p & Hck & H). cbv zeta in H.
  destruct (check _ _ _) eqn:Hc; [by destruct H as [? _]|]. destruct H as (r & [= <-] & Hrec & _).
  apply record_turn_ok in Hrec as [[? _]|(_ & event & t' & Hrec & Ht)]; [congruence|]. rewrite Ht in Hreq1.
  destruct (spoken_state _ _ _ _ _ _ _ _ _ _ _ _ Hreq Hrec _ Hreq1) as (Hl & Hp & Hrow). rewrite <- Ht in Hreq1.
  assert (participant s1 (p_account_uuid (ctx_principal ctx)) = Some (took_turn (ct_id cmd) (p_account p) p)) as Hp1.
  { unfold participant. rewrite Hp. apply find_took_turn. exact (ck_participant _ _ _ _ _ _ Hck). }
  set (p1 := took_turn (ct_id cmd) (p_account p) p) in *.
  destruct (took_turn_keeps (ct_id cmd) (p_account p) p) as (_ & Ha & Hr & _). fold p1 in Ha, Hr.
  assert (is_agent p1 = is_agent p) as Hag by (unfold is_agent; by rewrite Hr).
  assert (contribution_type cmd p1 = contribution_type cmd p) as Hty by (unfold contribution_type; by rewrite Hag).
  assert (check (st_limits s1) (turn_state env2 s1 p1 (tables db1)) (is_agent p1) = Some MAX_CONSECUTIVE_EXCEEDED) as Hc1.
  { unfold check, turn_state. cbn [ts_consecutive ts_is_last]. rewrite Hl, Hmax. unfold consecutive_after. cbn [ts_is_last ts_consecutive].
    unfold is_last at 1. rewrite Hrow, Ha. cbn [with_turn last_contributor consecutive_turns]. rewrite bool_decide_eq_true_2 by done.
    cbn [negb Z.eqb andb]. assert (1 <? (if is_last s (p_account p) then consecutive_turns (st_row s) + 1 else 1) + 1 = true) as ->; [|done].
    apply Z.ltb_lt. destruct (is_last _ _); lia. }
  exists (breach_detail minutes_text (st_limits s1) (turn_state env2 s1 p1 (tables db1)) MAX_CONSECUTIVE_EXCEEDED). split.
  - revert Hct. unfold contribute_tx. rewrite Hrow. cbn [with_turn b_status].
    rewrite (ck_open _ _ _ _ _ _ Hck), (ck_body _ _ _ _ _ _ Hck), (ck_participant _ _ _ _ _ _ Hck), Hp1, Hty, Hag. cbn [negb].
    rewrite bool_decide_eq_true_2 by done. cbn [negb guard_tx]. rewrite Hag in Hc1.
    intros H. apply tx_bind_ok in H as (? & d1 & _ & H). apply tx_bind_ok in H as (? & d2 & _ & H).
    apply tx_bind_ok in H as (? & d3 & [Hg _]%guard_tx_ok & _). rewrite Hg.
    rewrite (proj2 (mem_spec _ _) (ck_type _ _ _ _ _ _ Hck)). unfold mbind, tx_bind, gets, mret, tx_ret. cbn -[check turn_state breach_detail]. by rewrite Hc1.
  - intros u db2 Hpause. unfold _pause_on_breach in Hpause. rewrite Hst1, Hrow in Hpause. cbn [with_turn b_status] in Hpause.
    rewrite (ck_open _ _ _ _ _ _ Hck) in Hpause. rewrite bool_decide_eq_true_2 in Hpause by done.
    destruct (_pause _ _ _ _ _ _ _ _ _ _) as [[a d]|] eqn:Ep; [|done]. injection Hpause as _ <-.
    apply pause_ok in Ep as [ev Ep]. apply require_spec in Hreq1 as (row1 & Hrow1 & _ & Hid1 & _). rewrite Ep, Hid1.
    cbn. rewrite lookup_alter_eq, Hrow1. by eexists.
Qed.

Lemma next_agent_same s s' :
  s'.(st_participants) = s.(st_participants) -> s'.(st_row).(turn_index) = s.(st_row).(turn_index) -> next_agent s' = next_agent s.
Proof. unfold next_agent, agents. by intros -> ->. Qed.

(** A session that an Agent joined may never be resumed. The work item of a turn has a
    key made of the session and the number of the turn, but the Agent it is for depends
    on how many Agents there are. When an Agent who joined changes whose turn it is, the
    item already queued for the next turn belongs to somebody else, and every attempt to
    resume the session, whatever limits it comes with, ends in an error; only the retry of
    a resumption of the past is answered, and does nothing. *)
Theorem join_blocks_resume env ctx items s db agent p x db' :
  require ctx.(ctx_workspace_id) s.(st_id) (tables db) = Ok s ->
  next_agent s = Some p -> p.(p_agent) = Some agent ->
  (exists i, i ∈ rows_where (fun i => String.eqb i.(wi_idempotency_key)
      (s.(st_id) +:+ ":turn:" +:+ int_text (s.(st_row).(turn_no) + 1))) db.(inbox)) ->
  Forall (fun i => i.(Inbox.agent_id) <> agent) (rows_where (fun i => String.eqb i.(wi_idempotency_key)
      (s.(st_id) +:+ ":turn:" +:+ int_text (s.(st_row).(turn_no) + 1))) db.(inbox)) ->
  resume_tx env ctx items s db = Ok (x, db') -> x.(res_replayed) = true /\ tables db' = tables db.
Proof.
  intros Hreq Hnext Hag [i Hi] Hother. unfold resume_tx. intros (? & d0 & [_ <-]%guard_tx_ok & H)%tx_bind_ok.
  apply tx_bind_ok in H as (lim & d0 & [_ <-]%lift_ok & H). apply tx_bind_ok in H as (a & db1 & Ha & H).
  pose proof (append_keeps_tables _ _ _ _ _ _ _ _ _ _ Ha) as E1.
  destruct (replayed a) eqn:Hrep; [by apply tx_ret_ok in H as [<- <-]|exfalso].
  assert (work_items (inbox db1) = work_items (inbox db)) as Ei.
  { unfold _append in Ha. destruct (el_append _ _) as [[y s']|]; [|done]. by injection Ha as _ <-. }
  apply tx_bind_ok in H as (? & db2 & <-%modify_ok & H). apply tx_bind_ok in H as (? & db3 & <-%modify_ok & H).
  apply tx_bind_ok in H as (w & db4 & Hd & _). unfold _deliver_next_turn in Hd.
  apply tx_bind_ok in Hd as ([s2 ch] & db5 & [-> Hreq2]%state_ok & Hd). cbn [fst snd] in *.
  apply require_spec in Hreq as (row & Hrow & _ & Hid & Hst & Hl & Hp).
  apply require_spec in Hreq2 as (row2 & Hrow2 & _ & Hid2 & Hst2 & _ & Hp2).
  cbn [tables with_tables update_row set_status with_sessions sessions] in Hrow2. rewrite E1, !lookup_alter_eq, Hrow in Hrow2.
  cbn in Hrow2. injection Hrow2 as <-.
  assert (st_participants s2 = st_participants s) as Eps.
  { rewrite Hp2, Hp. unfold participants_of. cbn [tables with_tables update_row set_status with_sessions participants]. by rewrite E1. }
  rewrite (next_agent_same s s2) in Hd; [|exact Eps|by rewrite Hst2, Hst]. rewrite Hst2, Hnext, Hag in Hd.
  rewrite bool_decide_eq_true_2 in Hd by done. cbn [negb] in Hd.
  apply tx_bind_ok in Hd as (item & db6 & (inb & Hq & _)%zoom_ok & _). unfold Inbox.enqueue in Hq.
  apply tx_bind_ok in Hq as (? & i1 & [_ <-]%guard_tx_ok & Hq). apply tx_bind_ok in Hq as (? & i1 & [_ <-]%guard_tx_ok & Hq).
  apply tx_bind_ok in Hq as (existing & i1 & [<- <-]%gets_ok & Hq).
  cbn [turn_args q_idempotency_key q_agent_id q_kind] in Hq. rewrite Hid2, Hst2 in Hq. cbn [with_status with_limits turn_no] in Hq.
  rewrite Hst in Hi, Hother.
  unfold rows_where in Hi, Hother, Hq. cbn [inbox with_tables] in Hq. rewrite Ei in Hq.
  destruct (filter _ (snd <$> map_to_list (work_items (inbox db)))) as [|j l] eqn:El; [by apply elem_of_nil in Hi|].
  cbn [head] in Hq. apply tx_bind_ok in Hq as (? & i2 & [Hg _]%guard_tx_ok & _).
  apply Forall_cons in Hother as [Hj _]. apply orb_false_iff in Hg as [Hg _]. apply negb_false_iff, String.eqb_eq in Hg. done.
Qed.

(** ** Histories of sessions *)

(** A committed command, whoever gives it. *)
Inductive commanded : Db -> Db -> Prop :=
| C_start env cmd ctx db log log' x db' : start_brainstorm env cmd ctx db log = (log', Ok (x, db')) -> commanded db db'
| C_join env id account ctx db log log' x db' : join_brainstorm env id account ctx db log = (log', Ok (x, db')) -> commanded db db'
| C_contribute env cmd ctx db log log' db' r : contribute_turn env cmd ctx db log = (log', db', r) -> commanded db db'
| C_pause env id reason ctx db log log' x db' : pause_brainstorm env id reason ctx db log = (log', Ok (x, db')) -> commanded db db'
| C_resume env id items ctx db log log' x db' : resume_brainstorm env id items ctx db log = (log', Ok (x, db')) -> commanded db db'
| C_close env id ctx db log log' x db' : close_brainstorm env id ctx db log = (log', Ok (x, db')) -> commanded db db'.

Lemma facilitated_ok env ctx action id db log log' x db' :
  facilitated env ctx action id db log = (log', Ok (x, db')) -> db' = db /\ require ctx.(ctx_workspace_id) id (tables db) = Ok x.1.
Proof.
  unfold facilitated. intros (s & d1 & l1 & [_ H1]%in_tx_ok & H)%atx_bind_ok. apply state_ok in H1 as [-> Hs].
  apply atx_bind_ok in H as (? & d2 & l2 & ->%permit_ok & H).
  apply atx_bind_ok in H as (? & d3 & l3 & [_ [_ <-]%guard_tx_ok]%in_tx_ok & H). injection H as _ <- <-. done.
Qed.

Lemma seat_account_counted ctx id account db x db' :
  counted (tables db) -> is_Some (sessions (tables db) !! id) -> seat_account ctx id account db = Ok (x, db') ->
  counted (tables db') /\ is_Some (sessions (tables db') !! id).
Proof.
  unfold seat_account. intros Hc Hid (a & d1 & Ha & H)%tx_bind_ok.
  assert (d1 = db) as ->.
  { clear -Ha. unfold _account in Ha. repeat case_match; by simplify_eq. }
  apply tx_bind_ok in H as (n & d2 & [_ <-]%gets_ok & H). apply tx_bind_ok in H as (? & d3 & <-%modify_ok & [_ <-]%tx_ret_ok).
  cbn [tables with_tables].
  destruct (counted_add id (account_uuid a) account (role_of a) (if String.eqb (role_of a) "agent" then Authority.agent_id a else None) _ Hc Hid)
    as [H1 H2]. by rewrite H2.
Qed.

Lemma seat_all_counted ctx id l db x db' :
  counted (tables db) -> is_Some (sessions (tables db) !! id) -> seat_all ctx id l db = Ok (x, db') -> counted (tables db').
Proof.
  revert db. induction l as [|account l IH]; intros db Hc Hid; cbn [seat_all]; [by intros [_ <-]%tx_ret_ok|].
  intros (y & d1 & H1 & H)%tx_bind_ok. destruct (seat_account_counted _ _ _ _ _ _ Hc Hid H1). by eapply IH.
Qed.

Lemma participant_in s who p ws id t :
  require ws id t = Ok s -> participant s who = Some p -> p ∈ participants t /\ p.(p_session) = id.
Proof.
  intros (row & _ & _ & _ & _ & _ & Hp)%require_spec [Hin _]%find_some. rewrite Hp in Hin.
  apply list_elem_of_In, py_sorted_elem, list_elem_of_In, filter_In in Hin as [Hin Hs%String.eqb_eq].
  split; [by apply list_elem_of_In|done].
Qed.

(** C38. The counters of the sessions are what they count. Whatever commands are given,
    accepted or refused, the number of turns of a session is the number of its turn
    rows and the sum of the turns its participants took, the cursor of its round robin
    is the number of turns its Agents took, an account has one place in a session and
    no two participants share a seat. *)
Theorem session_counts db db' :
  rtc commanded db db' -> counted (tables db) -> counted (tables db').
Proof.
  induction 1 as [db|db db1 db2 Hstep _ IH]; [done|]. intros Hc. apply IH. clear IH db2.
  assert (forall id st now reason event t, counted t -> counted (set_status id st now reason event t)) as Hstatus
    by (intros; by apply counted_update).
  destruct Hstep as [env cmd ctx db log log' x db' H|env id account ctx db log log' x db' H|env cmd ctx db log log' db' r H
    |env id reason ctx db log log' x db' H|env id items ctx db log log' x db' H|env id ctx db log log' x db' H].
  - unfold start_brainstorm in H. apply atx_bind_ok in H as (? & d1 & l1 & ->%permit_ok & [_ H]%in_tx_ok).
    unfold start_tx in H. apply tx_bind_ok in H as (? & d1 & [_ <-]%guard_tx_ok & H).
    apply tx_bind_ok in H as (ch & d1 & Hch & H).
    assert (d1 = db) as -> by (unfold channel_ref in Hch; destruct (find _ _); [by injection Hch|done]).
    apply tx_bind_ok in H as (lim & d1 & [_ <-]%lift_ok & H). cbv zeta in H.
    apply tx_bind_ok in H as (a & d1 & E1%append_keeps_tables & H). rewrite <- E1 in Hc.
    destruct (replayed a); [by apply tx_ret_ok in H as [_ <-]|].
    apply tx_bind_ok in H as (? & d2 & H2 & H). unfold try_change in H2. destruct (insert _ _ _ _ _ _ _ _) as [t'|] eqn:Hi; [|done].
    cbn in H2. injection H2 as _ <-. apply counted_insert in Hi as [Hc1 Hid]; [|done].
    apply tx_bind_ok in H as (? & d3 & H3%seat_all_counted & H); [|done..].
    apply tx_bind_ok in H as (? & d4 & <-%modify_ok & H). apply tx_bind_ok in H as (? & d5 & E5%keeps_state & H).
    apply tx_bind_ok in H as (w & d6 & E6%keeps_deliver & H). apply tx_bind_ok in H as (? & d7 & E7%keeps_inbox & [_ <-]%tx_ret_ok).
    rewrite E7, E6, E5. by apply Hstatus.
  - unfold join_brainstorm in H. apply atx_bind_ok in H as (s & d1 & l1 & [-> Hs]%facilitated_ok & [_ H]%in_tx_ok).
    apply tx_bind_ok in H as (? & d1 & [_ <-]%guard_tx_ok & H). apply tx_bind_ok in H as (y & d1 & H1 & H).
    apply tx_bind_ok in H as (? & d2 & E2%keeps_inbox & [_ <-]%tx_ret_ok). rewrite E2.
    apply require_spec in Hs as (row & Hrow & _). by eapply seat_account_counted.
  - apply contribute_cases in H. destruct H as [r -> _|s p c event _ _ ->|s p event t1 y Hck _ _ Hrec -> _]; [done|by apply Hstatus|].
    pose proof (ck_state _ _ _ _ _ _ Hck) as Hreq. destruct (participant_in _ _ _ _ _ _ Hreq (ck_participant _ _ _ _ _ _ Hck)) as [Hp Hps].
    pose proof Hreq as (_ & _ & _ & Hid & _)%require_spec. rewrite <- Hid in Hreq, Hps. by eapply counted_speak.
  - unfold pause_brainstorm in H. apply atx_bind_ok in H as (s & d1 & l1 & [-> Hs]%facilitated_ok & [_ H]%in_tx_ok).
    apply tx_bind_ok in H as (? & d1 & [_ <-]%guard_tx_ok & H). apply tx_bind_ok in H as (a & d1 & [event E]%pause_ok & [_ <-]%tx_ret_ok).
    rewrite E. by apply Hstatus.
  - unfold resume_brainstorm in H. apply atx_bind_ok in H as (s & d1 & l1 & [-> Hs]%facilitated_ok & [_ H]%in_tx_ok).
    unfold resume_tx in H. apply tx_bind_ok in H as (? & d1 & [_ <-]%guard_tx_ok & H).
    apply tx_bind_ok in H as (lim & d1 & [_ <-]%lift_ok & H). apply tx_bind_ok in H as (a & d1 & E1%append_keeps_tables & H). rewrite <- E1 in Hc.
    destruct (replayed a); [by apply tx_ret_ok in H as [_ <-]|].
    apply tx_bind_ok in H as (? & d2 & <-%modify_ok & H). apply tx_bind_ok in H as (? & d3 & <-%modify_ok & H).
    apply tx_bind_ok in H as (w & d4 & E4%keeps_deliver & H). apply tx_bind_ok in H as (? & d5 & E5%keeps_inbox & [_ <-]%tx_ret_ok).
    rewrite E5, E4. apply Hstatus. by apply counted_update.
  - unfold close_brainstorm in H. apply atx_bind_ok in H as (s & d1 & l1 & [-> Hs]%facilitated_ok & [_ H]%in_tx_ok).
    unfold close_tx in H. apply tx_bind_ok in H as (? & d1 & [_ <-]%guard_tx_ok & H).
    apply tx_bind_ok in H as (n & d1 & [_ <-]%gets_ok & H). apply tx_bind_ok in H as (a & d1 & E1%append_keeps_tables & H). rewrite <- E1 in Hc.
    destruct (replayed a); [by apply tx_ret_ok in H as [_ <-]|].
    apply tx_bind_ok in H as (? & d2 & <-%modify_ok & H). apply tx_bind_ok in H as (? & d3 & E3%keeps_inbox & H).
    apply tx_bind_ok in H as (? & d4 & H4 & [_ <-]%tx_ret_ok).
    assert (tables d4 = tables d3) as -> by (unfold draft_closing in H4; destruct (on_brainstorm_closed _ _); by injection H4 as _ <-).
    rewrite E3. by apply Hstatus.
Qed.

End commands.

(** * A session of two Agents *)

Module Sample.

#[local] Instance log : EventLogI (list Event) := list_log.

Definition catalog : PolicyCatalog := {|
  listed := [("brainstorm.open", false); ("brainstorm.facilitate", false); ("brainstorm.contribute", true)];
  action_classes := list_to_map [("internal_write", {| class_risk := "LOW"; class_approval := "none" |})];
  action_specs := (fun a => (a.1, {| spec_class := "internal_write"; spec_permission := a.2 |})) <$> [
    ("command:brainstorm.start", "brainstorm.open"); ("command:brainstorm.contribute", "brainstorm.contribute");
    ("command:brainstorm.pause", "brainstorm.facilitate"); ("command:brainstorm.resume", "brainstorm.facilitate");
    ("command:brainstorm.close", "brainstorm.facilitate")];
  unclassified_default := "HIGH"; quorums := list_to_map [("LOW", 0)]; human_only_from := "HIGH";
  capabilities := []; roles_raw := [] |}.

Definition account (name type : string) : PrincipalInfo := {|
  account_id := "acct-" +:+ name; account_uuid := "uuid-" +:+ name; workspace_uuid := "ws"; account_type := type;
  principal_status := "ACTIVE"; Authority.agent_id := if String.eqb type "agent" then Some ("agent-" +:+ name) else None |}.

Definition unrestricted : RawConstraints := {|
  raw_domains := None; raw_side_effects := None; raw_requires_human_approval := None; raw_channels := None;
  raw_resources := None; raw_max_risk := None |}.

Definition authority_ : Authority.Db := {|
  accounts := list_to_map [("acct-h", account "h" "human"); ("acct-a", account "a" "agent");
                           ("acct-b", account "b" "agent"); ("acct-c", account "c" "agent")];
  roles := {["role" := {| role_workspace := "ws"; Authority.display_name := "Member"; current_version := 1; row_status := "active" |}]};
  role_versions := {[("role", 1) := {| v_permissions := ["brainstorm.*"]; v_deny := []; v_constraints := unrestricted;
                                       v_policy_hash := []; v_event_id := None; v_created_by := "root" |}]};
  assignments := (fun n => {| a_account := n; a_role := "role"; a_scope := JNull; valid_from := 0; valid_to := None;
    assigned_by := "root"; Authority.a_event_id := None; revoked_at := None; revoke_event_id := None |})
    <$> ["uuid-h"; "uuid-a"; "uuid-b"; "uuid-c"];
  agent_capabilities := ∅; channel_ids := {["uuid-ch" := "ch"]};
  channel_members := list_to_map ((fun n => (("uuid-ch", n), "active")) <$> ["uuid-h"; "uuid-a"; "uuid-b"; "uuid-c"]) |}.

#[local] Notation Db := (@BrainstormCommands.Db (list Event) unit).

Definition empty_tables : Tables := {| sessions := ∅; participants := []; turns := []; costs := [] |}.

Definition nothing : Db := {|
  tables := empty_tables; guidance := {| rows := []; next_row := 1; notifications := []; store := tt |};
  authority := authority_;
  inbox := {| work_items := ∅; receipts := []; next_receipt_id := 1; audit_events := []; event_store := [] |};
  decisions := []; world := tt |}.

Definition env (n : string) : Env := {|
  clk i := Z.of_nat i; authorized_at := 5; audit_id := "aud"; work_item_hex := "wi-" +:+ n; outbox_hex := n; new_id := "1" |}.

Definition by_ (name key : string) : CommandContext := {|
  ctx_principal := {| p_account_id := "acct-" +:+ name; p_account_uuid := "uuid-" +:+ name;
                      p_credential_fingerprint := EmptyString; mfa_verified := false |};
  ctx_workspace_id := "ws"; ctx_correlation_id := "c"; ctx_idempotency_key := key; ctx_expected_seq := None;
  reauth_verified := false |}.

Definition sha (b : list N) : ustr := [].
Definition iso (t : Z) : ustr := [].
Definition drafted (id : string) (w : unit * list Event) : unit * list Event := w.

Definition opening : StartBrainstorm := {|
  sb_channel := "ch"; sb_topic := lit "names"; sb_participants := ["acct-a"; "acct-b"]; sb_limits := JNull;
  sb_id := Some "bs-1" |}.

Definition say (text : string) : ContributeTurn := {|
  ct_id := "bs-1"; ct_body := lit text; ct_type := Some "idea"; ct_work_item := None |}.

#[local] Notation start_ e c x := (start_brainstorm (W := unit) sha iso catalog e c x).
#[local] Notation join_ e i a x := (join_brainstorm (W := unit) sha catalog e i a x).
#[local] Notation contribute_ e c x := (contribute_turn (W := unit) sha iso catalog iso e c x).
#[local] Notation pause_ e i r x := (pause_brainstorm (W := unit) sha catalog e i r x).
#[local] Notation resume_ e i l x := (resume_brainstorm (W := unit) sha iso catalog e i l x).

Definition state (r : list AuditRecord * res (CommandResult * Db)) : Db := match r with (_, Ok (_, db)) => db | _ => nothing end.

Definition opened : Db := Eval vm_compute in state (start_ (env "0") opening (by_ "h" "k0") nothing []).
Definition first : Db := Eval vm_compute in (contribute_ (env "1") (say "one") (by_ "a" "k1") opened []).1.2.
Definition second : Db := Eval vm_compute in (contribute_ (env "2") (say "two") (by_ "b" "k2") first []).1.2.
Definition joined : Db := Eval vm_compute in state (join_ (env "3") "bs-1" "acct-c" (by_ "h" "k3") second []).
Definition paused : Db := Eval vm_compute in state (pause_ (env "4") "bs-1" "WAIT" (by_ "h" "k4") joined []).

(** The session was resumed once before the Agent joined. *)
Definition resumed : Db := Eval vm_compute in
  state (resume_ (env "4") "bs-1" [] (by_ "h" "k5") (state (pause_ (env "3") "bs-1" "WAIT" (by_ "h" "k3") second [])) []).
Definition blocked : Db := Eval vm_compute in
  state (pause_ (env "6") "bs-1" "WAIT" (by_ "h" "k7") (state (join_ (env "5") "bs-1" "acct-c" (by_ "h" "k6") resumed [])) []).

Definition no_result : CommandResult := {| res_id := ""; res_event := []; res_seq := 0; res_replayed := false; res_data := [] |}.
Definition session_in (db : Db) : res BrainstormState := require "ws" "bs-1" (tables db).
Definition no_state : BrainstormState := {| st_id := ""; st_participants := []; st_limits := DEFAULTS;
  st_row := {| b_workspace := ""; b_channel := ""; b_topic := []; facilitator := ""; b_status := OPEN; b_limits := JNull; turn_no := 0;
    turn_index := 0; last_contributor := None; consecutive_turns := 0; paused_reason := None; started_at := 0; closed_at := None;
    last_event_id := None; b_updated_at := 0 |} |}.
#[local] Notation value r d := (match r with Ok x => x | Err _ => d end).

Definition one_ok : CommandResult := Eval vm_compute in value (contribute_ (env "1") (say "one") (by_ "a" "k1") opened []).2 no_result.
Definition opened_state : BrainstormState := Eval vm_compute in value (session_in opened) no_state.
Definition first_state : BrainstormState := Eval vm_compute in value (session_in first) no_state.
Definition blocked_state : BrainstormState := Eval vm_compute in value (session_in blocked) no_state.
Definition old_resumption : CommandResult := Eval vm_compute in
  (value (resume_tx (W := unit) iso (env "7") (by_ "h" "k5") [] blocked_state blocked) (no_result, nothing)).1.

Lemma first_turn : contribute_ (env "1") (say "one") (by_ "a" "k1") opened [] = ([], first, Ok one_ok).
Proof. vm_compute. reflexivity. Qed.

Lemma first_turn_tx :
  contribute_tx (W := unit) iso iso (env "1") (by_ "a" "k1") (say "one") opened_state opened = Ok (inr one_ok, first).
Proof. vm_compute. reflexivity. Qed.

Lemma after_first : _state (W := unit) (by_ "a" "k1") "bs-1" first = Ok ((first_state, "ch"), first).
Proof. vm_compute. reflexivity. Qed.

Lemma resumed_again :
  resume_tx (W := unit) iso (env "7") (by_ "h" "k5") [] blocked_state blocked = Ok (old_resumption, blocked).
Proof. vm_compute. reflexivity. Qed.

(** The item of the third turn is [agent-a]'s, the turn is [agent-c]'s. *)
Lemma queued : (Inbox.agent_id <$> rows_where (fun i => String.eqb i.(wi_idempotency_key)
    (blocked_state.(st_id) +:+ ":turn:" +:+ int_text (blocked_state.(st_row).(turn_no) + 1))) (inbox blocked)) = ["agent-a"].
Proof. vm_compute. reflexivity. Qed.

Lemma opened_now : exists log x, start_ (env "0") opening (by_ "h" "k0") nothing [] = (log, Ok (x, opened)).
Proof. eexists _, _. vm_compute. reflexivity. Qed.

Lemma two_turns : talk (W := unit) sha iso catalog iso "bs-1" [(env "1", say "one", by_ "a" "k1"); (env "2", say "two", by_ "b" "k2");
    (env "6", say "two", by_ "b" "k2")] opened [] =
  (2, (contribute_ (env "6") (say "two") (by_ "b" "k2") second []).1.2).
Proof. vm_compute. reflexivity. Qed.

Example story :
  (b_status <$> sessions (tables paused) !! "bs-1", turn_no <$> sessions (tables second) !! "bs-1",
   length (participants (tables joined)),
   (resume_ (env "5") "bs-1" [] (by_ "h" "k5") paused []).2,
   (contribute_ (env "6") (say "one") (by_ "a" "k1") first []).2) =
  (Some PAUSED, Some 2, 3%nat, Err "IDEMPOTENCY_CONFLICT", Err "MAX_CONSECUTIVE_EXCEEDED").
Proof. vm_compute. reflexivity. Qed.

End Sample.

#[local] Existing Instance Sample.log.

Example talk_ends_witness : 2 <= Z.max 0 (total_turns Sample.opened_state.(st_limits) - 0).
Proof.
  refine (proj1 (talk_ends (W := unit) Sample.sha Sample.iso Sample.catalog Sample.iso "bs-1" _ Sample.opened [] 2 _
    Sample.opened_state.(st_row) Sample.opened_state.(st_limits) Sample.two_turns _ _)); reflexivity.
Defined.

Example accepted_turn_witness : exists turn, turns (tables Sample.first) = turns (tables Sample.opened) ++ [turn].
Proof.
  destruct (accepted_turn (W := unit) _ _ _ _ _ _ _ _ _ _ _ _ Sample.first_turn eq_refl) as (s & p & turn & row & _ & _ & _ & H & _).
  exists turn. exact H.
Defined.

Example retry_pauses_session_witness : exists detail,
  contribute_tx (W := unit) Sample.iso Sample.iso (Sample.env "2") (Sample.by_ "a" "k1") (Sample.say "one") Sample.first_state
    Sample.first = Ok (inl (MAX_CONSECUTIVE_EXCEEDED, detail), Sample.first).
Proof.
  destruct (retry_pauses_session (W := unit) Sample.iso Sample.iso (Sample.env "1") (Sample.by_ "a" "k1") (Sample.say "one")
    Sample.opened_state Sample.opened Sample.one_ok Sample.first (Sample.env "2") Sample.first_state "ch"
    eq_refl eq_refl ltac:(done) Sample.first_turn_tx eq_refl Sample.after_first) as [detail [H _]].
  exists detail. exact H.
Defined.

Example join_blocks_resume_witness :
  b_status Sample.blocked_state.(st_row) = PAUSED /\ res_replayed Sample.old_resumption = true.
Proof.
  split; [reflexivity|].
  refine (proj1 (join_blocks_resume (W := unit) Sample.iso (Sample.env "7") (Sample.by_ "h" "k5") [] Sample.blocked_state
    Sample.blocked "agent-c" _ Sample.old_resumption Sample.blocked eq_refl eq_refl eq_refl _ _ Sample.resumed_again)).
  all: pose proof Sample.queued as Hq; revert Hq; generalize (rows_where (fun i => String.eqb i.(wi_idempotency_key)
    (Sample.blocked_state.(st_id) +:+ ":turn:" +:+ int_text (Sample.blocked_state.(st_row).(turn_no) + 1))) (inbox Sample.blocked)).
  all: intros [|i [|j l]] Hq; try discriminate Hq.
  - exists i. left.
  - injection Hq as Hi. repeat constructor. by rewrite Hi.
Defined.

Example session_counts_witness : counted (tables Sample.opened).
Proof.
  refine (session_counts (W := unit) Sample.sha Sample.iso Sample.catalog Sample.drafted Sample.iso Sample.nothing _ _ _).
  - destruct Sample.opened_now as (log & x & H). eapply rtc_l; [|apply rtc_refl]. exact (C_start _ _ _ _ _ _ _ _ _ _ _ _ _ H).
  - split; try constructor; done.
Defined.
