(* ===== verification/Criteria.v ===== *)
(** The acceptance criteria of a Task: validation, revisions and evidence
    ([server/domain/criteria.py]) and the rows of [task_acceptance_criteria] with the
    gates on delegation and submission ([server/application/criteria.py]). The JSON
    Schema of a revision (acceptance-criteria.v1) is written out; the hash of an id and
    [str()] of a statement that is no text are parameters. *)

From S2P Require Import Prelude Canonical Text.
Open Scope Z_scope.

Definition CHECK_TYPES : list string := ["evidence"; "test_command"; "artifact_hash"; "human_attest"].
Definition STATEMENT_MAX_CHARS : Z := 2000.
Definition CRITERIA_MAX : Z := 50.
Definition CRITERIA_ID_PREFIX : string := "crit-".

Record AcceptanceCriterion := { criteria_id : string; statement : ustr; check_type : string; required : bool }.

Definition as_dict (c : AcceptanceCriterion) : list (ustr * json) := [
  (lit "criteria_id", jtext c.(criteria_id)); (lit "statement", JStr c.(statement));
  (lit "check_type", jtext c.(check_type)); (lit "required", JBool c.(required))].

(** An entry as the client sends it: the members of a JSON object. *)
Definition entry : Type := list (ustr * json).

Section criteria.
(** [hashlib.sha256(...).hexdigest()] of the bytes; [str(v)] of a value that is no text. *)
Context (sha256 : list N -> ustr) (py_str : json -> ustr).

Definition str_of (v : json) : ustr := match v with JStr s => s | _ => py_str v end.

(** [{**e, "statement": str(e.get("statement", "")).strip()}] *)
Definition with_statement (s : ustr) (e : entry) : entry :=
  if existsb (fun kv => bool_decide (kv.1 = lit "statement")) e
  then map (fun kv => if bool_decide (kv.1 = lit "statement") then (kv.1, JStr s) else kv) e
  else e ++ [(lit "statement", JStr s)].

Definition stripped (e : entry) : entry :=
  with_statement (strip (match dict_get e "statement" with Some v => str_of v | None => [] end)) e.

Definition hex_char (c : N) : bool := (((48 <=? c) && (c <=? 57)) || ((97 <=? c) && (c <=? 102)))%N.

(** [^crit-[0-9a-f]{16}$]; [$] also matches before a final line feed. *)
Definition id_pattern (s : ustr) : bool :=
  bool_decide (take 5 s = lit CRITERIA_ID_PREFIX) && (16 <=? Z.of_nat (length (drop 5 s))) &&
  forallb hex_char (take 16 (drop 5 s)) && bool_decide (drop 21 s = [] \/ drop 21 s = [10%N]).

(** One item against the schema. *)
Definition valid_member (kv : ustr * json) : bool :=
  if bool_decide (kv.1 = lit "criteria_id") then match kv.2 with JStr s => id_pattern s | _ => false end
  else if bool_decide (kv.1 = lit "statement") then
    match kv.2 with JStr s => (1 <=? Z.of_nat (length s)) && (Z.of_nat (length s) <=? STATEMENT_MAX_CHARS) | _ => false end
  else if bool_decide (kv.1 = lit "check_type") then
    match kv.2 with JStr s => existsb (fun t => bool_decide (s = lit t)) CHECK_TYPES | _ => false end
  else if bool_decide (kv.1 = lit "required") then match kv.2 with JBool _ => true | _ => false end
  else false.

Definition valid_entry (e : entry) : bool :=
  forallb valid_member e && bool_decide (is_Some (dict_get e "statement")) && bool_decide (is_Some (dict_get e "check_type")).

(** What is kept of a valid entry. *)
Definition normalized (e : entry) : ustr * string * bool :=
  (match dict_get e "statement" with Some (JStr s) => s | _ => [] end,
   default EmptyString (get_str e "check_type"),
   match dict_get e "required" with Some (JBool b) => b | _ => true end).

Definition validate_criteria (raw : list entry) : res (list (ustr * string * bool)) :=
  guard_err (bool_decide (raw = [])) "ACCEPTANCE_CRITERIA_REQUIRED" $
  let entries := stripped <$> raw in
  guard_err (negb (forallb valid_entry entries) || (CRITERIA_MAX <? Z.of_nat (length entries)))
    "ACCEPTANCE_CRITERIA_INVALID" $
  Ok (normalized <$> entries).

Definition criteria_id_of (task_id : string) (revision : Z) (index : nat) (statement : ustr) : res string :=
  bytes ← utf8 (lit task_id ++ lit "|" ++ str_int revision ++ lit "|" ++ str_int (Z.of_nat index) ++ lit "|" ++ statement);
  Ok (CRITERIA_ID_PREFIX +:+ text (take 16 (sha256 bytes))).

Fixpoint numbered (task_id : string) (revision : Z) (i : nat) (l : list (ustr * string * bool))
    : res (list AcceptanceCriterion) :=
  match l with
  | [] => Ok []
  | (s, t, r) :: l =>
      cid ← criteria_id_of task_id revision i s;
      cs ← numbered task_id revision (S i) l;
      Ok ({| criteria_id := cid; statement := s; check_type := t; required := r |} :: cs)
  end.

Definition build_revision (task_id : string) (revision : Z) (raw : list entry) : res (list AcceptanceCriterion) :=
  guard_err (revision <? 1) "ACCEPTANCE_CRITERIA_INVALID" $
  entries ← validate_criteria raw;
  numbered task_id revision 0 entries.

(** [prepare_initial]: nothing is pinned without criteria. *)
Definition prepare_initial (task_id : string) (raw : list entry) : res (list AcceptanceCriterion) :=
  if bool_decide (raw = []) then Ok [] else build_revision task_id 1 raw.

End criteria.

(** ** Evidence *)

(** [ref.partition(":")]: the text before the first colon and after it. *)
Fixpoint partition_colon (s : string) : string * option string :=
  match s with
  | EmptyString => (EmptyString, None)
  | String c s => if Ascii.eqb c ":" then (EmptyString, Some s)
                  else let '(h, t) := partition_colon s in (String c h, t)
  end.

(** The criterion a reference is evidence for, and the reference itself. *)
Definition evidence_ref (ref : string) : option (string * string) :=
  let '(head, tail) := partition_colon ref in
  match tail with
  | Some t => if starts_with CRITERIA_ID_PREFIX head && truthy (Some t) then Some (head, t) else None
  | None => None
  end.

(** [by_criterion.get(cid, ())] *)
Definition evidence_for (refs : list string) (cid : string) : list string :=
  omap (fun r => match evidence_ref r with Some (h, t) => if String.eqb h cid then Some t else None | None => None end) refs.

Definition evidence_satisfies (criteria : list AcceptanceCriterion) (refs : list string) : list string :=
  criteria_id <$> List.filter (fun c =>
    c.(required) && bool_decide (List.filter (fun r => negb (blank (lit r))) (evidence_for refs c.(criteria_id)) = [])) criteria.

(** ** The rows *)

Record CriterionRow := { cr_task : string; cr_revision : Z; cr_criterion : AcceptanceCriterion; cr_event : ustr }.

Definition crit_leb (a b : AcceptanceCriterion) : bool := String.leb a.(criteria_id) b.(criteria_id).

Definition rows_of (rows : list CriterionRow) (task : string) : list CriterionRow :=
  List.filter (fun r => String.eqb r.(cr_task) task) rows.

Definition max_revision (rows : list CriterionRow) : Z := foldr (fun r m => Z.max r.(cr_revision) m) 0 rows.

(** [current_criteria]: the latest revision; revision 0 without rows. *)
Definition current_criteria (rows : list CriterionRow) (task : string) : Z * list AcceptanceCriterion :=
  let mine := rows_of rows task in
  let rev := max_revision mine in
  (rev, py_sorted crit_leb (cr_criterion <$> List.filter (fun r => r.(cr_revision) =? rev) mine)).

(** [_insert_rows]; criteria_id is the primary key. *)
Fixpoint _insert_rows (task : string) (revision : Z) (cs : list AcceptanceCriterion) (event : ustr) (rows : list CriterionRow)
    : res (list CriterionRow) :=
  match cs with
  | [] => Ok rows
  | c :: cs =>
      if existsb (fun r => String.eqb r.(cr_criterion).(criteria_id) c.(criteria_id)) rows then Err "IntegrityError"
      else _insert_rows task revision cs event
             (rows ++ [{| cr_task := task; cr_revision := revision; cr_criterion := c; cr_event := event |}])
  end.

(** ** The gates *)

Definition delegate_requires_criteria (rows : list CriterionRow) (task : string) : res unit :=
  guard_err ((current_criteria rows task).1 =? 0) "ACCEPTANCE_CRITERIA_REQUIRED" $ Ok tt.

Definition submit_requires_evidence (rows : list CriterionRow) (task : string) (revision : Z) (refs : list string) : res unit :=
  let '(rev, cs) := current_criteria rows task in
  guard_err (rev =? 0) "ACCEPTANCE_CRITERIA_REQUIRED" $
  guard_err (negb (revision =? rev)) "CRITERIA_REVISION_STALE" $
  guard_err (negb (bool_decide (evidence_satisfies cs refs = []))) "EVIDENCE_REQUIRED" $ Ok tt.

(** * Theorems *)

Lemma partition_colon_spec s h t : partition_colon s = (h, Some t) -> s = h +:+ String ":" t /\ ":"%char ∉ String.list_ascii_of_string h.
Proof.
  revert h. induction s as [|c s IH]; intros h; cbn; [done|]. destruct (Ascii.eqb_spec c ":") as [->|Hne].
  { intros [= <- <-]. split; [done|]. apply not_elem_of_nil. }
  destruct (partition_colon s) as [h' t']. intros [= <- ->]. destruct (IH h' eq_refl) as [-> Hh]. split; [done|].
  cbn. apply not_elem_of_cons. split; [congruence|done].
Qed.

Lemma evidence_ref_spec r h t :
  evidence_ref r = Some (h, t) -> r = h +:+ String ":" t /\ t <> EmptyString /\ starts_with CRITERIA_ID_PREFIX h = true.
Proof.
  unfold evidence_ref. destruct (partition_colon r) as [h' [t'|]] eqn:E; [|done].
  destruct (starts_with _ _) eqn:Hs; [|done]. destruct (truthy _) eqn:Ht; [|done]. intros [= <- <-].
  apply partition_colon_spec in E as [-> _]. split_and!; [done|by intros ->|done].
Qed.

Lemma evidence_for_elem refs cid t : t ∈ evidence_for refs cid <-> exists r, r ∈ refs /\ evidence_ref r = Some (cid, t).
Proof.
  unfold evidence_for. rewrite list_elem_of_omap. split; intros (r & Hr & H); exists r; (split; [done|]).
  - destruct (evidence_ref r) as [[h x]|]; [|done]. destruct (String.eqb_spec h cid) as [->|]; [|done]. congruence.
  - by rewrite H, String.eqb_refl.
Qed.

Lemma list_filter_nil {A} (f : A -> bool) l : List.filter f l = [] <-> forall x, x ∈ l -> f x = false.
Proof.
  induction l as [|x l IH]; cbn; [split; [by intros _ y []%elem_of_nil|done]|].
  destruct (f x) eqn:E.
  - split; [done|]. intros H. rewrite (H x) in E; [done|by left].
  - rewrite IH. split; intros H y; [intros [->|Hy]%elem_of_cons; auto|]. intros Hy. apply H. by right.
Qed.

Lemma fmap_nil_iff {A B} (f : A -> B) l : f <$> l = [] <-> l = [].
Proof. by destruct l. Qed.

(** A submission passes the gate exactly when it is complete. It must name the current
    revision of the criteria, there must be one, and every required criterion of that
    revision needs a reference of the form "<criteria id>:<ref>" whose ref is not blank;
    anything else is refused: evidence of an earlier revision, a bare reference, or a
    reference for another criterion never counts. *)
Theorem submission_gate rows task revision refs :
  submit_requires_evidence rows task revision refs = Ok tt <->
  (current_criteria rows task).1 <> 0 /\ revision = (current_criteria rows task).1 /\
  forall c, c ∈ (current_criteria rows task).2 -> c.(required) = true ->
    exists r t, r ∈ refs /\ evidence_ref r = Some (c.(criteria_id), t) /\ blank (lit t) = false /\
      r = c.(criteria_id) +:+ String ":" t.
Proof.
  unfold submit_requires_evidence. destruct (current_criteria rows task) as [rev cs]. cbn [fst snd].
  rewrite !guard_err_ok, Z.eqb_neq, !negb_false_iff, Z.eqb_eq, bool_decide_eq_true.
  unfold evidence_satisfies. rewrite fmap_nil_iff, list_filter_nil. split.
  - intros (H0 & Hr & Hc & _). split_and!; [done|done|]. intros c Hin Hreq. specialize (Hc c Hin). rewrite Hreq in Hc. cbn in Hc.
    apply bool_decide_eq_false in Hc. destruct (List.filter _ _) as [|t l] eqn:E; [done|].
    assert (t ∈ evidence_for refs (criteria_id c) /\ negb (blank (lit t)) = true) as [Ht Hb].
    { rewrite list_elem_of_In. apply (filter_In (fun r => negb (blank (lit r)))). rewrite E. by left. }
    apply evidence_for_elem in Ht as (r & Hr' & He). exists r, t. split_and!; [done|done|by apply negb_true_iff|].
    by apply evidence_ref_spec in He as [-> _].
  - intros (H0 & Hr & Hc). split_and!; [done|done| |done]. intros c Hin. destruct (required c) eqn:Hreq; [|done]. cbn.
    apply bool_decide_eq_false. intros E. rewrite list_filter_nil in E. destruct (Hc c Hin Hreq) as (r & t & Hr' & He & Hb & _).
    specialize (E t). rewrite Hb in E. discriminate E. apply evidence_for_elem. by exists r.
Qed.

Section typed.
Context (sha256 : list N -> ustr) (py_str : json -> ustr).
Context (Hsha : forall b, length (sha256 b) = 64%nat /\ forallb hex_char (sha256 b) = true).

Lemma hex_take n s : forallb hex_char s = true -> forallb hex_char (take n s) = true.
Proof. rewrite !forallb_forall. intros H x Hx. apply H. rewrite <- (take_drop n s). apply in_or_app. by left. Qed.

Lemma hex_text s : forallb hex_char s = true -> lit (text s) = s.
Proof.
  induction s as [|c s IH]; [done|]. cbn. intros [Hc Hs]%andb_true_iff. rewrite (IH Hs), N_ascii_embedding; [done|].
  unfold hex_char in Hc. rewrite orb_true_iff, !andb_true_iff, !N.leb_le in Hc. lia.
Qed.

Lemma id_valid task rev i s c : criteria_id_of sha256 task rev i s = Ok c -> id_pattern (lit c) = true.
Proof.
  unfold criteria_id_of. intros (b & _ & [= <-])%res_bind_ok. destruct (Hsha b) as [Hl Hh].
  rewrite lit_append, hex_text by (by apply hex_take). unfold id_pattern.
  change (lit CRITERIA_ID_PREFIX) with (lit "crit-"). set (h := take 16 (sha256 b)).
  assert (length h = 16%nat) as Hlen by (unfold h; rewrite length_take; lia).
  rewrite take_app_length', drop_app_length' by done. rewrite take_ge by lia.
  rewrite (drop_app_ge _ _ 21) by (cbn; lia). rewrite drop_ge by (cbn; lia). rewrite Hlen. unfold h.
  rewrite (hex_take _ _ Hh). rewrite !bool_decide_eq_true_2 by (done || by left). done.
Qed.

Definition fields_ok (x : ustr * string * bool) : bool :=
  ((1 <=? Z.of_nat (length x.1.1)) && (Z.of_nat (length x.1.1) <=? STATEMENT_MAX_CHARS)) &&
  existsb (fun t => bool_decide (lit x.1.2 = lit t)) CHECK_TYPES.

Lemma valid_as_dict c :
  valid_entry (as_dict c) = id_pattern (lit c.(criteria_id)) && fields_ok (c.(statement), c.(check_type), c.(required)).
Proof.
  unfold valid_entry, as_dict. cbn [forallb].
  change (valid_member (lit "criteria_id", jtext (criteria_id c))) with (id_pattern (lit (criteria_id c))).
  change (valid_member (lit "statement", JStr (statement c)))
    with ((1 <=? Z.of_nat (length (statement c))) && (Z.of_nat (length (statement c)) <=? STATEMENT_MAX_CHARS)).
  change (valid_member (lit "check_type", jtext (check_type c)))
    with (existsb (fun t => bool_decide (lit (check_type c) = lit t)) CHECK_TYPES).
  change (valid_member (lit "required", JBool (required c))) with true.
  rewrite !(bool_decide_eq_true_2 (is_Some _)) by (by eexists). unfold fields_ok. cbn [fst snd].
  by rewrite !andb_true_r, andb_assoc.
Qed.

(** A valid entry is normalized to valid fields. *)
Lemma normalized_ok e : valid_entry e = true -> fields_ok (normalized e) = true.
Proof.
  unfold valid_entry. rewrite !andb_true_iff, !bool_decide_eq_true, forallb_forall. intros [[Hall [v Hs]] [w Ht]].
  assert (forall k x, dict_get e k = Some x -> valid_member (lit k, x) = true) as Hm.
  { intros k x Hx. unfold dict_get in Hx. destruct (find _ e) as [[k' x']|] eqn:E; [|done]. injection Hx as <-.
    apply find_some in E as [Hin Hk%bool_decide_eq_true]. cbn in Hk. subst k'. by apply Hall. }
  pose proof (Hm _ _ Hs) as Vs. pose proof (Hm _ _ Ht) as Vt. unfold normalized, fields_ok, get_str. cbn [fst snd].
  rewrite Hs, Ht. apply andb_true_iff. split.
  - destruct v; try discriminate Vs. exact Vs.
  - destruct w; try discriminate Vt. change (existsb (fun t => bool_decide (lit (text s) = lit t)) CHECK_TYPES = true).
    assert (existsb (fun t => bool_decide (s = lit t)) CHECK_TYPES = true) as Vt' by exact Vt.
    apply existsb_exists in Vt' as (t & Hin & ->%bool_decide_eq_true). apply existsb_exists. exists t. split; [done|].
    by rewrite text_lit, bool_decide_eq_true_2.
Qed.

Lemma numbered_valid task rev l : forall i cs,
  numbered sha256 task rev i l = Ok cs -> Forall (fun x => fields_ok x = true) l ->
  Forall (fun c => valid_entry (as_dict c) = true) cs /\ length cs = length l.
Proof.
  induction l as [|[[s t] r] l IH]; intros i cs H Hl; cbn in H; [by injection H as <-|].
  apply res_bind_ok in H as (c & Hc & H). apply res_bind_ok in H as (cs' & Hcs & [= <-]).
  apply Forall_cons in Hl as [Hx Hl]. destruct (IH _ _ Hcs Hl) as [H1 H2]. split; [|cbn; by rewrite H2]. constructor; [|done].
  rewrite valid_as_dict. cbn [criteria_id statement check_type required]. by rewrite (id_valid _ _ _ _ _ Hc).
Qed.

Lemma statement_set s e : dict_get (with_statement s e) "statement" = Some (JStr s).
Proof.
  unfold with_statement, dict_get. generalize (lit "statement") as key. intros key. destruct (existsb _ e) eqn:E.
  - induction e as [|[k v] e IH]; [done|]. cbn in E |- *. destruct (bool_decide (k = key)) eqn:Hk; cbn; rewrite Hk; [done|by apply IH].
  - induction e as [|[k v] e IH]; cbn in E |- *; [by rewrite bool_decide_eq_true_2|].
    apply orb_false_iff in E as [Hk E]. rewrite Hk. by apply IH.
Qed.

Lemma validated_ok raw l :
  validate_criteria py_str raw = Ok l ->
  Forall (fun x => fields_ok x = true /\ strip x.1.1 = x.1.1) l /\ (1 <= length l <= 50)%nat /\ length l = length raw.
Proof.
  unfold validate_criteria. cbv zeta. rewrite !guard_err_ok, orb_false_iff, negb_false_iff, forallb_forall.
  intros (Hne & [Hv Hlen] & [= <-]). apply bool_decide_eq_false in Hne. rewrite !length_fmap in *. split_and!.
  - apply Forall_fmap, Forall_fmap, Forall_forall. intros e He. cbn. split.
    + apply normalized_ok, Hv, list_elem_of_In, list_elem_of_fmap. by exists e.
    + unfold normalized, stripped. rewrite statement_set. apply strip_strip.
  - destruct raw; [done|cbn; lia].
  - unfold CRITERIA_MAX in Hlen. lia.
  - done.
Qed.

Lemma numbered_statements task rev l : forall i cs,
  numbered sha256 task rev i l = Ok cs -> statement <$> cs = (fun x => x.1.1) <$> l.
Proof.
  induction l as [|[[s t] r] l IH]; intros i cs H; cbn in H; [by injection H as <-|].
  apply res_bind_ok in H as (c & Hc & H). apply res_bind_ok in H as (cs' & Hcs & [= <-]). cbn. by rewrite (IH _ _ Hcs).
Qed.

(** C6. Pinned criteria satisfy their own schema. Whatever entries a client sends, the
    criteria of the revision built from them, written to the Event with the ids the
    server gives, are between 1 and 50 objects with the members the published schema
    asks for: a trimmed statement of 1 to 2000 characters, a known check type, a
    boolean and an id of 16 hexadecimal digits; so a revision read back from the
    Event can be validated again. *)
Theorem pinned_criteria_typed task rev raw cs :
  build_revision sha256 py_str task rev raw = Ok cs ->
  Forall (fun c => valid_entry (as_dict c) = true) cs /\ (1 <= length cs <= 50)%nat /\ length cs = length raw /\
  Forall (fun s => strip s = s) (statement <$> cs).
Proof.
  unfold build_revision. intros [_ (l & Hl & Hcs)%res_bind_ok]%guard_err_ok.
  apply validated_ok in Hl as (Hok & Hlen & Hraw). apply Forall_and in Hok as [Hf Hs].
  destruct (numbered_valid _ _ _ _ _ Hcs Hf) as [Hv Hn]. rewrite Hn. split_and!; [done|lia..|].
  rewrite (numbered_statements _ _ _ _ _ Hcs). by apply Forall_fmap.
Qed.
End typed.

(** * Examples *)

Module Sample.

Definition sha (b : list N) : ustr := replicate 64 (97 + N.of_nat (length b) mod 6)%N.
Definition no_str (v : json) : ustr := [].

Definition raw : list entry := [
  [(lit "statement", JStr (lit "  tests pass ")); (lit "check_type", jtext "test_command")];
  [(lit "statement", JStr (lit "notes")); (lit "check_type", jtext "evidence"); (lit "required", JBool false)]].

Definition built : list AcceptanceCriterion := Eval vm_compute in
  match build_revision sha no_str "task-1" 1 raw with Ok cs => cs | Err _ => [] end.

Lemma raw_built : build_revision sha no_str "task-1" 1 raw = Ok built.
Proof. vm_compute. reflexivity. Qed.

Lemma sha_hex b : length (sha b) = 64%nat /\ forallb hex_char (sha b) = true.
Proof.
  unfold sha. split; [apply length_replicate|]. apply forallb_forall. intros x Hx%list_elem_of_In.
  apply elem_of_replicate in Hx as [-> _]. unfold hex_char. pose proof (N.mod_upper_bound (N.of_nat (length b)) 6 ltac:(done)).
  rewrite orb_true_iff, !andb_true_iff, !N.leb_le. right. split; [apply N.le_add_r|]. apply N.lt_succ_r. change (N.succ 102) with (97 + 6)%N. by apply N.add_lt_mono_l.
Qed.

Definition rows : list CriterionRow := (fun c => {| cr_task := "task-1"; cr_revision := 1; cr_criterion := c; cr_event := [] |}) <$> built.

Example gate :
  (submit_requires_evidence rows "task-1" 1 [], submit_requires_evidence rows "task-1" 2 [], submit_requires_evidence rows "task-2" 1 [],
   submit_requires_evidence rows "task-1" 1 ["crit-" +:+ text (take 16 (sha (lit "task-1|1|0|tests pass"))) +:+ ":log.txt"]) =
  (Err "EVIDENCE_REQUIRED", Err "CRITERIA_REVISION_STALE", Err "ACCEPTANCE_CRITERIA_REQUIRED", Ok tt).
Proof. vm_compute. reflexivity. Qed.

End Sample.

Example pinned_criteria_typed_witness : Forall (fun c => valid_entry (as_dict c) = true) Sample.built.
Proof. exact (proj1 (pinned_criteria_typed Sample.sha Sample.no_str Sample.sha_hex "task-1" 1 Sample.raw Sample.built Sample.raw_built)). Defined.
