(* ===== verification/TaskProjection.v ===== *)
(** The read model of the Tasks: how a recorded Event is read ([payload] fields as the
    fold of [server/domain/task.py] takes them), the row of [tasks_projection] with
    [write_state] and [load_state], the projector ([server/projections/tasks.py]) and the
    batched replay of [server/projections/runner.py]. Columns of type uuid and timestamptz
    are kept as the text of the Event; the foreign keys of the table are not modelled. *)

From S2P Require Import Prelude Canonical Text HashChain EventStore EventLog TaskGraph TaskState.
Open Scope Z_scope.

(** ** Reading an Event *)

(** [str(v)] of an entry that should name a mode; a value that is not text is no mode. *)
Definition mode_text (v : json) : string :=
  match v with
  | JStr s => text s
  | JNull => "None" | JBool true => "True" | JBool false => "False" | JInt z => text (str_int z)
  | _ => EmptyString
  end.

Definition scalar_of (v : json) : pyscalar :=
  match v with
  | JNull => PNone | JBool b => PBool b | JInt z => PInt z | JStr s => PStr (text s) | _ => POther
  end.

Definition join_policy_of (d : list (ustr * json)) : JoinPolicy := {|
  jp_mode := mode_text <$> dict_get d "mode"; jp_join := mode_text <$> dict_get d "join";
  jp_quorum := default PNone (scalar_of <$> dict_get d "quorum");
  jp_required := default [] (get_strs d "required") |}.

Definition payload_of (p : list (ustr * json)) : Payload := {|
  p_root_task_id := get_str p "root_task_id"; p_parent_task_id := get_str p "parent_task_id";
  p_channel_id := get_str p "channel_id"; p_title := get_str p "title"; p_domain := get_str p "domain";
  p_risk := get_str p "risk"; p_depth := get_int p "depth";
  p_join_policy := match dict_get p "join_policy" with Some (JObj d) => Some (join_policy_of d) | _ => None end;
  p_verification_id := get_str p "verification_id"; p_satisfied_children := get_strs p "satisfied_children";
  p_assignee_account_id := get_str p "assignee_account_id"; p_assignment_revision := get_int p "assignment_revision";
  p_policy_snapshot_hash := get_str p "policy_snapshot_hash"; p_summary := get_str p "summary";
  p_criteria_revision := get_int p "criteria_revision" |}.

(** The Event as the fold reads it. *)
Definition task_event (e : HashChain.Event) : Event := {|
  e_type := text e.(event_type); e_aggregate_type := Some (text e.(aggregate_type));
  e_aggregate_id := Some (text e.(aggregate_id)); e_task_id := text <$> e.(HashChain.task_id);
  e_workspace_id := Some (text e.(HashChain.workspace_id)); e_channel_id := text <$> e.(HashChain.channel_id);
  e_actor_account_id := Some (text e.(actor_account_id)); e_event_id := Some (text e.(event_id));
  e_aggregate_seq := Some e.(aggregate_seq); e_recorded_seq := Some e.(recorded_seq);
  e_occurred_at := Some (text e.(occurred_at)); e_payload := payload_of e.(payload) |}.

(** ** The rows *)

Record TaskRow := {
  c_workspace_id : option string; c_root_task_id : string; c_parent_task_id : option string;
  c_channel_id : option string; c_title : string; c_domain : string; c_risk : string; c_status : TaskStatus;
  c_verification_status : option string; c_assignee_account_id : option string; c_delegated_by : option string;
  c_delegation_depth : Z; c_join_policy : JoinPolicy; c_policy_snapshot : option string (* active_verification_id *);
  c_policy_snapshot_hash : option string; c_criteria_revision : Z; c_latest_progress : option string;
  c_last_event_id : option string; c_last_aggregate_seq : Z; c_created_at : option string; c_updated_at : option string }.

Definition _uuid_or_none (v : option string) : option string := py_or v None.

(** The row [write_state] inserts for a state. *)
Definition new_row (s : TaskState) (occurred_at : option string) : TaskRow := {|
  c_workspace_id := _uuid_or_none s.(workspace_id);
  c_root_task_id := default s.(task_id) (py_or s.(root_task_id) None);
  c_parent_task_id := s.(parent_task_id); c_channel_id := _uuid_or_none s.(channel_id); c_title := s.(title);
  c_domain := s.(domain); c_risk := s.(risk); c_status := s.(status); c_verification_status := s.(verification_status);
  c_assignee_account_id := _uuid_or_none s.(assignee_account_id); c_delegated_by := _uuid_or_none s.(delegated_by);
  c_delegation_depth := s.(delegation_depth); c_join_policy := s.(join_policy);
  c_policy_snapshot := s.(active_verification_id); c_policy_snapshot_hash := s.(policy_snapshot_hash);
  c_criteria_revision := s.(criteria_revision); c_latest_progress := s.(latest_progress);
  c_last_event_id := s.(last_event_id); c_last_aggregate_seq := s.(last_aggregate_seq);
  c_created_at := py_or s.(created_at) occurred_at; c_updated_at := occurred_at |}.

(** [ON CONFLICT (task_id) DO UPDATE SET ...] *)
Definition merge_row (old new : TaskRow) : TaskRow := {|
  c_workspace_id := old.(c_workspace_id); c_root_task_id := old.(c_root_task_id); c_parent_task_id := old.(c_parent_task_id);
  c_channel_id := old.(c_channel_id); c_title := old.(c_title); c_domain := old.(c_domain); c_risk := old.(c_risk);
  c_status := new.(c_status); c_verification_status := new.(c_verification_status);
  c_assignee_account_id := new.(c_assignee_account_id); c_delegated_by := new.(c_delegated_by);
  c_delegation_depth := new.(c_delegation_depth); c_join_policy := new.(c_join_policy);
  c_policy_snapshot := new.(c_policy_snapshot); c_policy_snapshot_hash := new.(c_policy_snapshot_hash);
  c_criteria_revision := new.(c_criteria_revision); c_latest_progress := new.(c_latest_progress);
  c_last_event_id := new.(c_last_event_id); c_last_aggregate_seq := new.(c_last_aggregate_seq);
  c_created_at := old.(c_created_at); c_updated_at := new.(c_updated_at) |}.

#[global] Notation Rows := (gmap string TaskRow).

Definition write_state (s : TaskState) (occurred_at : option string) (rows : Rows) : Rows :=
  let new := new_row s occurred_at in
  <[s.(task_id) := match rows !! s.(task_id) with Some old => merge_row old new | None => new end]> rows.

Definition state_of_row (id : string) (r : TaskRow) : TaskState := {|
  task_id := id; exists_ := true; status := r.(c_status); workspace_id := r.(c_workspace_id);
  root_task_id := Some r.(c_root_task_id); parent_task_id := r.(c_parent_task_id); channel_id := r.(c_channel_id);
  title := r.(c_title); domain := r.(c_domain); risk := r.(c_risk); assignee_account_id := r.(c_assignee_account_id);
  delegated_by := r.(c_delegated_by); delegation_depth := r.(c_delegation_depth); assignment_revision := 0;
  policy_snapshot_hash := r.(c_policy_snapshot_hash); criteria_revision := r.(c_criteria_revision);
  latest_progress := r.(c_latest_progress); active_verification_id := r.(c_policy_snapshot);
  verification_status := r.(c_verification_status); last_event_id := r.(c_last_event_id);
  last_aggregate_seq := r.(c_last_aggregate_seq); created_at := r.(c_created_at); updated_at := r.(c_updated_at);
  join_policy := r.(c_join_policy); join_satisfied := false; join_satisfied_children := [] |}.

Definition load_state (id : string) (rows : Rows) : TaskState :=
  match rows !! id with Some r => state_of_row id r | None => initial_state id end.

(** ** The projector *)

(** The Task an Event is about. *)
Definition concerned (e : HashChain.Event) : option string :=
  if String.eqb (text e.(aggregate_type)) "task" then Some (text e.(aggregate_id))
  else if mem (text e.(event_type)) VERIFICATION_RESULT_EVENTS
  then py_or (text <$> e.(HashChain.task_id)) None else None.

(** [TasksProjector.apply]: the rows, and the Events skipped with their error. *)
Definition project (e : HashChain.Event) (acc : Rows * list (string * string)) : Rows * list (string * string) :=
  let '(rows, skipped) := acc in
  match concerned e with
  | None => acc
  | Some id =>
      let s := load_state id rows in
      if negb s.(exists_) && negb (mem (text e.(event_type)) CREATION_EVENTS) then acc
      else match apply_event s (task_event e) with
           | Ok s' => (write_state s' (Some (text e.(occurred_at))) rows, skipped)
           | Err code => (rows, skipped ++ [(text e.(event_id), code)])
           end
  end.

Definition project_all (evs : list HashChain.Event) (acc : Rows * list (string * string)) :=
  foldl (fun acc e => project e acc) acc evs.

(** ** The batched replay ([runner.rebuild]) *)

Definition BATCH : nat := 500.

(** [SELECT ... WHERE recorded_seq > :after ORDER BY recorded_seq LIMIT :lim] over the log
    in the order of recording. *)
Definition batch (after : Z) (log : list HashChain.Event) : list HashChain.Event :=
  take BATCH (List.filter (fun e => after <? e.(recorded_seq)) log).

(** The loop over the batches; [None] when the fuel runs out. *)
Fixpoint replay_loop (fuel : nat) (log : list HashChain.Event) (after : Z) (acc : Rows * list (string * string))
    : option (Z * (Rows * list (string * string))) :=
  match fuel with
  | O => None
  | S fuel =>
      match batch after log with
      | [] => Some (after, acc)
      | evs => replay_loop fuel log (match last evs with Some e => e.(recorded_seq) | None => after end)
                 (project_all evs acc)
      end
  end.

(** [rebuild] of one workspace or of all of them: the last recorded sequence number of the
    checkpoint, the rows and the skipped Events. *)
Definition rebuild (workspace : option string) (log : list HashChain.Event) (rows : Rows)
    : option (Z * (Rows * list (string * string))) :=
  let of_other (r : TaskRow) := match workspace with Some w => bool_decide (r.(c_workspace_id) <> Some w) | None => false end in
  let log := List.filter (fun e => match workspace with Some w => String.eqb (text e.(HashChain.workspace_id)) w | None => true end) log in
  replay_loop (S (length log)) log 0 (filter (fun kr => of_other kr.2 = true) rows, []).

(** * Lemmas *)

(** ** The replay visits every Event once, in order *)

Definition recorded_in_order (log : list HashChain.Event) : Prop :=
  StronglySorted (fun a b => a.(recorded_seq) < b.(recorded_seq)) log.

Lemma project_all_app l1 l2 acc : project_all (l1 ++ l2) acc = project_all l2 (project_all l1 acc).
Proof. apply foldl_app. Qed.

Lemma filter_after (l1 l2 : list HashChain.Event) after :
  Forall (fun e => e.(recorded_seq) <= after) l1 -> Forall (fun e => after < e.(recorded_seq)) l2 ->
  List.filter (fun e => after <? e.(recorded_seq)) (l1 ++ l2) = l2.
Proof.
  intros H1 H2. rewrite List.filter_app.
  assert (List.filter (fun e => after <? recorded_seq e) l1 = []) as ->.
  { induction H1 as [|e l He _ IH]; [done|]. cbn. by rewrite (proj2 (Z.ltb_ge _ _)). }
  induction H2 as [|e l He _ IH]; [done|]. cbn. rewrite (proj2 (Z.ltb_lt _ _)) by done. cbn in IH. by rewrite IH.
Qed.

Lemma in_order_split l1 l2 :
  recorded_in_order (l1 ++ l2) -> recorded_in_order l1 /\ recorded_in_order l2 /\
    forall a b, a ∈ l1 -> b ∈ l2 -> a.(recorded_seq) < b.(recorded_seq).
Proof.
  induction l1 as [|x l1 IH]; cbn.
  { intros H. split; [constructor|]. split; [done|]. by intros ? ? []%elem_of_nil. }
  intros H. apply StronglySorted_inv in H as [H Hx]. destruct (IH H) as (Ho1 & Ho2 & Hlt).
  apply Forall_app in Hx as [Hx1 Hx2]. rewrite Forall_forall in Hx2. split_and!; [by constructor|done|].
  intros a b [->|Ha]%elem_of_cons Hb; [by apply Hx2|by apply Hlt].
Qed.

Lemma last_is_max l e :
  recorded_in_order l -> last l = Some e -> Forall (fun x => x.(recorded_seq) <= e.(recorded_seq)) l.
Proof.
  intros Ho (l' & ->)%last_Some. apply in_order_split in Ho as (_ & _ & Hlt). apply Forall_app. split; [|by constructor].
  apply Forall_forall. intros x Hx. apply Z.lt_le_incl, Hlt; [done|by left].
Qed.

Lemma replay_loop_complete fuel l1 l2 after acc :
  recorded_in_order (l1 ++ l2) -> Forall (fun e => e.(recorded_seq) <= after) l1 ->
  Forall (fun e => after < e.(recorded_seq)) l2 -> (length l2 < fuel)%nat ->
  replay_loop fuel (l1 ++ l2) after acc =
  Some (match last l2 with Some e => e.(recorded_seq) | None => after end, project_all l2 acc).
Proof.
  revert l1 l2 after acc. induction fuel as [|fuel IH]; intros l1 l2 after acc Ho H1 H2 Hf; [lia|].
  cbn [replay_loop]. unfold batch. rewrite filter_after by done.
  destruct (decide (l2 = [])) as [->|Hne]; [done|].
  assert (exists x b, take BATCH l2 = x :: b) as (x & b & Eb) by (destruct l2; [done|by eexists _, _]).
  rewrite Eb, <- Eb. assert (l1 ++ l2 = (l1 ++ take BATCH l2) ++ drop BATCH l2) as El by (by rewrite <- app_assoc, take_drop).
  assert (length (drop BATCH l2) < length l2)%nat as Hlen.
  { rewrite length_drop. destruct l2; [done|]. cbn [length]. unfold BATCH. lia. }
  destruct (last (take BATCH l2)) as [e|] eqn:Elast; [|apply last_None in Elast; congruence].
  pose proof Ho as Ho'. rewrite El in Ho'. rewrite El.
  assert (recorded_in_order (take BATCH l2)) as Hot.
  { apply in_order_split in Ho as (_ & Ho & _). rewrite <- (take_drop BATCH l2) in Ho. by apply in_order_split in Ho as [Ho _]. }
  apply in_order_split in Ho' as (_ & _ & Hlt). pose proof (last_is_max _ _ Hot Elast) as Hmax.
  assert (e ∈ take BATCH l2) as He by (apply last_Some in Elast as [l' ->]; apply elem_of_app; right; by left).
  rewrite IH.
  - rewrite <- project_all_app, take_drop. do 2 f_equal. rewrite <- (take_drop BATCH l2) at 2. rewrite last_app.
    by destruct (last (drop BATCH l2)); [|rewrite Elast].
  - by rewrite <- El.
  - apply Forall_app. split; [|done]. rewrite Forall_forall in H1, H2. apply Forall_forall. intros y Hy.
    apply H1 in Hy. assert (after < recorded_seq e) by (apply H2; by apply elem_of_take in He as (i & He & _); apply list_elem_of_lookup_2 in He). lia.
  - apply Forall_forall. intros y Hy. apply Hlt; [|done]. apply elem_of_app. by right.
  - lia.
Qed.

(** ** One Task at a time *)

Definition about (id : string) (e : HashChain.Event) : bool := bool_decide (concerned e = Some id).

(** What an Event about a Task does to its row. *)
Definition row_step (id : string) (r : option TaskRow) (e : HashChain.Event) : option TaskRow :=
  let s := match r with Some r => state_of_row id r | None => initial_state id end in
  if negb s.(exists_) && negb (mem (text e.(event_type)) CREATION_EVENTS) then r
  else match apply_event s (task_event e) with
       | Ok s' => let new := new_row s' (Some (text e.(occurred_at))) in
                  Some (match r with Some old => merge_row old new | None => new end)
       | Err _ => r
       end.

Lemma apply_event_task_id s e s' : apply_event s e = Ok s' -> task_id s' = task_id s.
Proof. intros H. eapply acts_task_id, apply_event_acts, H. Qed.

Lemma project_lookup e acc id :
  (project e acc).1 !! id = if about id e then row_step id (acc.1 !! id) e else acc.1 !! id.
Proof.
  destruct acc as [rows sk]. unfold project, about. destruct (concerned e) as [i|] eqn:Hc; [|by rewrite bool_decide_eq_false_2].
  unfold row_step, load_state. cbn [fst].
  assert (task_id (match rows !! i with Some r => state_of_row i r | None => initial_state i end) = i) as Hid
    by (by destruct (rows !! i)).
  destruct (decide (i = id)) as [->|Hne].
  - rewrite bool_decide_eq_true_2 by done.
    destruct (negb _ && _); [done|]. destruct (apply_event _ _) as [s'|] eqn:Ha; [|done].
    apply apply_event_task_id in Ha. rewrite Hid in Ha. unfold write_state. cbn [fst].
    by rewrite Ha, lookup_insert_eq.
  - rewrite bool_decide_eq_false_2 by congruence.
    destruct (negb _ && _); [done|]. destruct (apply_event _ _) as [s'|] eqn:Ha; [|done].
    apply apply_event_task_id in Ha. rewrite Hid in Ha. unfold write_state. cbn [fst].
    rewrite Ha. by rewrite lookup_insert_ne.
Qed.

Lemma project_all_lookup evs acc id :
  (project_all evs acc).1 !! id = foldl (row_step id) (acc.1 !! id) (List.filter (about id) evs).
Proof.
  revert acc. induction evs as [|e evs IH]; intros acc; [done|]. cbn [project_all foldl List.filter].
  fold (project_all evs (project e acc)). rewrite IH, project_lookup. by destruct (about id e).
Qed.

(** ** The row of a state *)

(** Two states with one row, whenever it is written. *)
Record same_row (a b : TaskState) : Prop := {
  sr_exists : a.(exists_) = b.(exists_); sr_id : a.(task_id) = b.(task_id); sr_status : a.(status) = b.(status);
  sr_active : a.(active_verification_id) = b.(active_verification_id); sr_seq : a.(last_aggregate_seq) = b.(last_aggregate_seq);
  sr_event : a.(last_event_id) = b.(last_event_id); sr_hash : a.(policy_snapshot_hash) = b.(policy_snapshot_hash);
  sr_criteria : a.(criteria_revision) = b.(criteria_revision); sr_progress : a.(latest_progress) = b.(latest_progress);
  sr_row : forall at_, new_row a at_ = new_row b at_ }.

Definition is_creation (e : HashChain.Event) : bool := mem (text e.(event_type)) CREATION_EVENTS.

(** The columns an Event other than a creation leaves. *)
Lemma same_row_event a b e :
  same_row a b -> is_creation e = false ->
  match apply_event a (task_event e), apply_event b (task_event e) with
  | Ok a', Ok b' => same_row a' b'
  | Err c, Err c' => c = c'
  | _, _ => False
  end.
Proof.
  intros [H1 H2 H3 H4 H5 H6 H7 H8 H9 H10] Hc. unfold is_creation in Hc. unfold apply_event.
  change (e_type (task_event e)) with (text (event_type e)). rewrite Hc.
  assert (same_row a b) as Hab by (by constructor).
  pose proof (H10 None) as E. injection E as E1 E2 E3 E4 E5 E6 E7 E8 E9 E10 E11 E12 E13 E14 E15.
  assert (forall at_, py_or (created_at a) at_ = py_or (created_at b) at_) as Hcr
    by (intros at_; pose proof (H10 at_) as E; by injection E).
  rewrite H1, H2, H3, H4. destruct (negb (exists_ b)); [done|].
  destruct (mem _ VERIFICATION_RESULT_EVENTS).
  - destruct (negb _); [done|]. destruct (negb _); [done|]. destruct (transition_get _ _); [|done].
    constructor; cbn; try congruence. intros at_. unfold new_row; cbn. by rewrite !Hcr; f_equal.
  - destruct (negb _ || _); [done|]. destruct (mem _ ANNOTATION_EVENTS).
    + destruct (String.eqb _ _); (constructor; cbn; try congruence; intros at_; unfold new_row; cbn; by rewrite !Hcr; f_equal).
    + destruct (next_status _ _) as [st|c]; cbn; [|done]. unfold apply_details, touch.
      change (e_type (task_event e)) with (text (event_type e)).
      repeat case_match; (constructor; cbn; try congruence; intros at_; unfold new_row; cbn; rewrite ?Hcr; f_equal; congruence).
Qed.

(** [r] is the row of [s], whenever it was last written. *)
Record row_shows (r : TaskRow) (s : TaskState) : Prop := {
  rs_row : r = new_row s r.(c_updated_at);
  rs_exists : s.(exists_) = true;
  rs_created : truthy s.(created_at) = true }.

Lemma py_or_twice a b c : truthy a = true -> py_or (py_or a b) c = py_or a c.
Proof. intros H. unfold py_or. by rewrite H, H. Qed.

Lemma py_or_none_twice a : py_or (py_or a None) None = py_or a None.
Proof. unfold py_or. destruct (truthy a) eqn:E; [by rewrite E|done]. Qed.

Lemma default_py_or id a : default id (py_or (Some (default id (py_or a None))) None) = default id (py_or a None).
Proof.
  assert (forall x, default x (py_or (Some x) None) = x) as Hx by (intros x; unfold py_or; by destruct (truthy (Some x))).
  destruct (truthy a) eqn:E; [|assert (py_or a None = None) as -> by (unfold py_or; by rewrite E); apply Hx].
  destruct a as [x|]; [|done]. assert (py_or (Some x) None = Some x) as Hp by (unfold py_or; by rewrite E).
  rewrite Hp. change (default id (Some x)) with x. by rewrite Hp.
Qed.

Lemma loaded_same_row r s id : row_shows r s -> s.(task_id) = id -> same_row (state_of_row id r) s.
Proof.
  intros [Hr He Hc] <-. rewrite Hr. constructor; try done. intros at_. unfold new_row, state_of_row. cbn.
  unfold _uuid_or_none. by rewrite !py_or_none_twice, default_py_or, py_or_twice.
Qed.

(** What an Event after the creation leaves alone. *)
Lemma apply_event_fixed s e s' :
  is_creation e = false -> apply_event s (task_event e) = Ok s' ->
  s'.(workspace_id) = s.(workspace_id) /\ s'.(root_task_id) = s.(root_task_id) /\ s'.(parent_task_id) = s.(parent_task_id) /\
  s'.(channel_id) = s.(channel_id) /\ s'.(title) = s.(title) /\ s'.(domain) = s.(domain) /\ s'.(risk) = s.(risk) /\
  s'.(created_at) = s.(created_at) /\ s'.(exists_) = s.(exists_) /\ s'.(delegation_depth) = s.(delegation_depth) /\
  s'.(join_policy) = s.(join_policy).
Proof.
  intros Hc. unfold apply_event. change (e_type (task_event e)) with (text (event_type e)). unfold is_creation in Hc. rewrite Hc.
  destruct (negb (exists_ s)); [by intros [= <-]|]. destruct (mem _ VERIFICATION_RESULT_EVENTS).
  - repeat case_match; by intros [= <-].
  - destruct (negb _ || _); [by intros [= <-]|]. destruct (mem _ ANNOTATION_EVENTS).
    + destruct (String.eqb _ _); by intros [= <-].
    + destruct (next_status _ _) as [st|]; [|done]. cbn. intros [= <-]. unfold apply_details. by repeat case_match.
Qed.

(** Writing the next state over the row of a state. *)
Lemma merge_shows r s e s' at_ :
  row_shows r s -> is_creation e = false -> apply_event s (task_event e) = Ok s' ->
  row_shows (merge_row r (new_row s' at_)) s'.
Proof.
  intros [Hr He Hcr] Hc Ha.
  pose proof (apply_event_fixed _ _ _ Hc Ha) as (F1 & F2 & F3 & F4 & F5 & F6 & F7 & F8 & F9 & _).
  pose proof (apply_event_task_id _ _ _ Ha) as Hid.
  split; [|by rewrite F9|by rewrite F8]. rewrite Hr. unfold merge_row, new_row. cbn.
  rewrite F1, F2, F3, F4, F5, F6, F7, F8, Hid. f_equal. unfold py_or. by rewrite Hcr.
Qed.

Lemma row_step_shows id r s e s' :
  row_shows r s -> s.(task_id) = id -> is_creation e = false -> apply_event s (task_event e) = Ok s' ->
  exists r', row_step id (Some r) e = Some r' /\ row_shows r' s' /\ r'.(c_updated_at) = Some (text e.(occurred_at)).
Proof.
  intros Hr Hid Hc Ha. pose proof (loaded_same_row r s id Hr Hid) as Hsame.
  pose proof (same_row_event _ _ e Hsame Hc) as Hev. rewrite Ha in Hev.
  unfold row_step. cbn [state_of_row exists_ negb andb].
  destruct (apply_event (state_of_row id r) (task_event e)) as [a'|]; [|done].
  eexists. split; [reflexivity|]. rewrite (sr_row _ _ Hev). split; [|done]. by eapply merge_shows.
Qed.

Lemma row_step_creation id e :
  about id e = true -> is_creation e = true -> truthy (Some (text e.(occurred_at))) = true ->
  text e.(aggregate_type) = "task" ->
  exists s r, apply_event (initial_state id) (task_event e) = Ok s /\ row_step id None e = Some r /\ row_shows r s /\
    r.(c_updated_at) = Some (text e.(occurred_at)).
Proof.
  intros Hab Hc Ht Hag. unfold about, concerned in Hab. rewrite Hag in Hab. cbn in Hab.
  apply bool_decide_eq_true in Hab. injection Hab as Hid. unfold is_creation in Hc.
  assert (apply_event (initial_state id) (task_event e) = Ok (apply_creation (initial_state id) (task_event e))) as Ha.
  { unfold apply_event. change (e_type (task_event e)) with (text (event_type e)). rewrite Hc. cbn.
    by rewrite Hid, bool_decide_eq_true_2. }
  exists (apply_creation (initial_state id) (task_event e)). eexists. split; [exact Ha|]. unfold row_step.
  rewrite Hc, andb_false_r, Ha. split; [reflexivity|]. split; [|done]. by split.
Qed.

(** The Events of a Task that was created once. *)
Record born (evs : list HashChain.Event) : Prop := {
  born_first : exists c rest, evs = c :: rest /\ is_creation c = true /\ text c.(aggregate_type) = "task" /\
    truthy (Some (text c.(occurred_at))) = true /\ Forall (fun e => is_creation e = false) rest }.

Lemma rows_follow id r s evs s' :
  row_shows r s -> s.(task_id) = id -> Forall (fun e => is_creation e = false) evs ->
  apply_events s (task_event <$> evs) = Ok s' ->
  exists r', foldl (row_step id) (Some r) evs = Some r' /\ row_shows r' s' /\
    forall e, last evs = Some e -> r'.(c_updated_at) = Some (text e.(occurred_at)).
Proof.
  revert r s. induction evs as [|e evs IH]; intros r s Hr Hid Hc H; cbn in H.
  { injection H as <-. by exists r. }
  apply Forall_cons in Hc as [Hce Hc]. apply res_bind_ok in H as (s1 & Ha & H).
  destruct (row_step_shows _ _ _ _ _ Hr Hid Hce Ha) as (r1 & Hr1 & Hs1 & Ht1).
  assert (s1.(task_id) = id) as Hid1 by (by rewrite (apply_event_task_id _ _ _ Ha)).
  destruct (IH r1 s1 Hs1 Hid1 Hc H) as (r2 & Hr2 & Hs2 & Ht2). exists r2. cbn [foldl]. rewrite Hr1. split_and!; [done|done|].
  intros x Hx. destruct evs as [|y evs]; [|by apply Ht2]. injection Hx as <-. cbn in Hr2. by injection Hr2 as <-.
Qed.

(** The replay gives the fold: [rebuild] processes the log in batches of 500 in its
    recorded order and loses no Event between them, whatever the length of the log; and
    although the projector keeps only the columns of the row between two Events, the row
    it leaves for a Task is the row of the state that folding all the Events about the
    Task gives, written at the time of the last of them. *)
Theorem rebuild_gives_fold log rows0 id s :
  recorded_in_order log -> Forall (fun e => 0 < e.(recorded_seq)) log -> born (List.filter (about id) log) ->
  apply_events (initial_state id) (task_event <$> List.filter (about id) log) = Ok s ->
  exists last_seq rows skipped at_, rebuild None log rows0 = Some (last_seq, (rows, skipped)) /\
    rows !! id = Some (new_row s (Some at_)) /\
    (exists e, last (List.filter (about id) log) = Some e /\ at_ = text e.(occurred_at)) /\
    (forall e, last log = Some e -> last_seq = e.(recorded_seq)).
Proof.
  intros Ho Hpos [(c & rest & Hf & Hcc & Hag & Ht & Hrest)] H. unfold rebuild.
  assert (List.filter (fun _ => true) log = log) as -> by (clear; induction log; cbn; congruence).
  assert (filter (fun kr : string * TaskRow => false = true) rows0 = ∅) as ->
    by (apply map_empty; intros i; apply map_lookup_filter_None; by right).
  rewrite (replay_loop_complete _ [] log 0); [|done|constructor|done|lia].
  destruct (project_all log (∅, [])) as [rows sk] eqn:E. eexists _, rows, sk.
  pose proof (project_all_lookup log (∅, []) id) as Hl. rewrite E in Hl. cbn [fst] in Hl. rewrite lookup_empty, Hf in Hl.
  rewrite Hf in H |- *. cbn [foldl] in Hl. cbn in H. apply res_bind_ok in H as (s0 & Ha & H).
  assert (about id c = true) as Hab.
  { apply (proj2 (proj1 (List.filter_In (about id) c log) ltac:(rewrite Hf; by left))). }
  destruct (row_step_creation id c Hab Hcc Ht Hag) as (s0' & r0 & Ha' & Hr0 & Hs0 & Ht0).
  rewrite Ha in Ha'. injection Ha' as <-. rewrite Hr0 in Hl.
  assert (s0.(task_id) = id) as Hid by (by rewrite (apply_event_task_id _ _ _ Ha)).
  destruct (rows_follow id r0 s0 rest s Hs0 Hid Hrest H) as (r & Hr & [Hrow _ _] & Hlast). rewrite Hr in Hl.
  destruct (last (c :: rest)) as [e|] eqn:El; [|by apply last_None in El].
  assert (r.(c_updated_at) = Some (text e.(occurred_at))) as Hu.
  { destruct rest as [|y rest]; [|by apply Hlast]. injection El as <-. cbn in Hr. by injection Hr as <-. }
  exists (text e.(occurred_at)). split; [reflexivity|]. split; [by rewrite Hl, Hrow, Hu|]. split; [by exists e|].
  intros x Hx. by rewrite Hx.
Qed.
