(* ===== verification/TaskCommands.v ===== *)
(** The Task commands ([server/application/tasks.py]) with the orchestration of sub-Tasks
    ([server/application/orchestration.py]) and the criteria commands
    ([server/application/criteria.py]): every handler checks the permission on the Task
    folded from the Events, appends one Event and updates the row of the read model.
    The hooks of other components - secret leases, documents, Runs of schedules, Agent
    limits - are arguments. *)

From S2P Require Import Prelude Tx Defaults Canonical Text HashChain Policy Catalog Authority EventStore EventLog Bus WorkState Inbox TaskGraph TaskState Criteria TaskProjection.
Open Scope Z_scope.

(** ** Commands *)

Record CreateTask := {
  ct_title : string; ct_channel_id : string; ct_domain : string; ct_risk : string; ct_task_id : option string;
  ct_join_policy : list (ustr * json); ct_criteria : list entry }.

Record CreateSubtask := {
  cs_parent : string; cs_title : string; cs_domain : string; cs_risk : string; cs_task_id : option string;
  cs_criteria : list entry }.

Record RecordVerificationResult := {
  rv_task : string; rv_verification : string; rv_result : string; rv_revision : Z; rv_evidence : list string;
  rv_findings : list string; rv_reason : string }.

(** ** The database *)

Record EdgeRow := { ed_parent : string; ed_root : string; ed_workspace : string; ed_depth : Z; ed_event : ustr }.

Record AssignmentRow := {
  as_task : string; as_revision : Z; as_delegator : string; as_assignee : option string; as_reason : string;
  as_policy_hash : string; as_resume : json; as_event : ustr }.

Record JoinRow := { jn_policy : JoinPolicy; jn_mode : string; jn_children : list string; jn_event : ustr; jn_updated : Z }.

Record TaskResult := {
  tr_task : string; tr_event : ustr; tr_seq : Z; tr_replayed : bool; tr_status : TaskStatus; tr_data : list (ustr * json) }.

Definition status_value (s : TaskStatus) : string :=
  match s with
  | OPEN => "OPEN" | DELEGATED => "DELEGATED" | ACCEPTED => "ACCEPTED" | RUNNING => "RUNNING" | WAITING => "WAITING"
  | IMPLEMENTED => "IMPLEMENTED" | VERIFYING => "VERIFYING" | VERIFIED => "VERIFIED" | COMPLETED => "COMPLETED"
  | CANCEL_REQUESTED => "CANCEL_REQUESTED" | CANCELLED => "CANCELLED"
  end.

(** The walk of the trigger [agent_colab_task_edges_no_cycle] before an edge is inserted. *)
Fixpoint no_cycle (fuel : nat) (edges : gmap string EdgeRow) (child : string) (cur : option string) : res unit :=
  match cur with
  | None => Ok tt
  | Some c =>
      if String.eqb c child then Err "TASK_GRAPH_CYCLE"
      else match fuel with
      | O => Err "TASK_GRAPH_CYCLE" (* TASK_GRAPH_TOO_DEEP *)
      | S fuel => no_cycle fuel edges child (ed_parent <$> edges !! c)
      end
  end.

(** [INSERT INTO task_edges]: the trigger, the primary key and the check of the depth. *)
Definition insert_edge (child : string) (e : EdgeRow) (edges : gmap string EdgeRow) : res (gmap string EdgeRow) :=
  _ ← no_cycle 64 edges child (Some e.(ed_parent));
  guard_err (bool_decide (is_Some (edges !! child)) || negb (0 <? e.(ed_depth))) "TASK_EDGE_INVALID" $
  Ok (<[child := e]> edges).

Fixpoint ancestors_of (fuel : nat) (edges : gmap string EdgeRow) (cur : string) (out : list string) : list string :=
  match fuel with
  | O => out
  | S fuel =>
      match edges !! cur with
      | None => out
      | Some e => if mem e.(ed_parent) out then out else ancestors_of fuel edges e.(ed_parent) (out ++ [e.(ed_parent)])
      end
  end.

Definition cv_leb (a b : ChildView) : bool := String.leb a.(cv_task_id) b.(cv_task_id).

Definition children_of (edges : gmap string EdgeRow) (rows : Rows) (parent : string) : list ChildView :=
  py_sorted cv_leb ((fun kv => {|
    cv_task_id := kv.1;
    cv_status := match rows !! kv.1 with Some r => status_value r.(c_status) | None => "OPEN" end;
    cv_verification_status := rows !! kv.1 ≫= c_verification_status |}) <$>
    List.filter (fun kv => String.eqb kv.2.(ed_parent) parent) (map_to_list edges)).

Section commands.
Context {ES : Type} {ELI : EventLogI ES} {ERI : EventReadI ES} {W : Type}.
Context (sha256 : list N -> ustr) (py_str : json -> ustr) (isoformat_utc : Z -> ustr) (catalog : PolicyCatalog).
(** The hooks after a terminal transition (secret leases, documents, Runs) and after a
    submission; the document a completion must name; the Agent limits on acceptance. *)
Context (terminal_hooks : string -> tx (W * ES) unit) (on_implementation_submitted : string -> tx (W * ES) unit).
Context (expected_document_id : string -> W -> option string) (enforce_limits : string -> string -> tx W unit).

#[local] Instance inbox_store : EventStoreI ES := {|
  es_append := el_append; es_recorded _ _ := True;
  es_append_recorded _ _ _ _ _ := I; es_append_keeps _ _ _ _ _ _ _ := I |}.

Record Db := {
  projection : Rows;
  edges : gmap string EdgeRow;
  task_assignments : list AssignmentRow;
  criteria_rows : list CriterionRow;
  joins : gmap string JoinRow;
  authority : Authority.Db;
  agents : gmap string string;                           (* account uuid: agent_id *)
  channel_templates : gmap string (gmap string pyscalar); (* channel: limits of its active template *)
  inbox : Inbox.Db (ES := ES);                           (* with the audit rows and the Event store *)
  world : W }.

Definition with_projection (x : Rows) (db : Db) : Db := {|
  projection := x; edges := db.(edges); task_assignments := db.(task_assignments); criteria_rows := db.(criteria_rows);
  joins := db.(joins); authority := db.(authority); agents := db.(agents); channel_templates := db.(channel_templates);
  inbox := db.(inbox); world := db.(world) |}.
Definition with_edges (x : gmap string EdgeRow) (db : Db) : Db := {|
  projection := db.(projection); edges := x; task_assignments := db.(task_assignments); criteria_rows := db.(criteria_rows);
  joins := db.(joins); authority := db.(authority); agents := db.(agents); channel_templates := db.(channel_templates);
  inbox := db.(inbox); world := db.(world) |}.
Definition with_assignments (x : list AssignmentRow) (db : Db) : Db := {|
  projection := db.(projection); edges := db.(edges); task_assignments := x; criteria_rows := db.(criteria_rows);
  joins := db.(joins); authority := db.(authority); agents := db.(agents); channel_templates := db.(channel_templates);
  inbox := db.(inbox); world := db.(world) |}.
Definition with_criteria (x : list CriterionRow) (db : Db) : Db := {|
  projection := db.(projection); edges := db.(edges); task_assignments := db.(task_assignments); criteria_rows := x;
  joins := db.(joins); authority := db.(authority); agents := db.(agents); channel_templates := db.(channel_templates);
  inbox := db.(inbox); world := db.(world) |}.
Definition with_joins (x : gmap string JoinRow) (db : Db) : Db := {|
  projection := db.(projection); edges := db.(edges); task_assignments := db.(task_assignments); criteria_rows := db.(criteria_rows);
  joins := x; authority := db.(authority); agents := db.(agents); channel_templates := db.(channel_templates);
  inbox := db.(inbox); world := db.(world) |}.
Definition with_inbox (x : Inbox.Db) (db : Db) : Db := {|
  projection := db.(projection); edges := db.(edges); task_assignments := db.(task_assignments); criteria_rows := db.(criteria_rows);
  joins := db.(joins); authority := db.(authority); agents := db.(agents); channel_templates := db.(channel_templates);
  inbox := x; world := db.(world) |}.
Definition with_audit (rows : list AuditRow) (x : Db) : Db := with_inbox {|
  work_items := x.(inbox).(work_items); receipts := x.(inbox).(receipts);
  next_receipt_id := x.(inbox).(next_receipt_id); Inbox.audit_events := rows; event_store := x.(inbox).(event_store) |} x.
Definition with_world (x : W) (db : Db) : Db := {|
  projection := db.(projection); edges := db.(edges); task_assignments := db.(task_assignments); criteria_rows := db.(criteria_rows);
  joins := db.(joins); authority := db.(authority); agents := db.(agents); channel_templates := db.(channel_templates);
  inbox := db.(inbox); world := x |}.

Definition store (db : Db) : ES := db.(inbox).(event_store).
Definition with_store (s : ES) (db : Db) : Db := with_inbox {|
  work_items := db.(inbox).(work_items); receipts := db.(inbox).(receipts);
  next_receipt_id := db.(inbox).(next_receipt_id); audit_events := db.(inbox).(audit_events); event_store := s |} db.
Definition log (db : Db) : list HashChain.Event := el_log (store db).

(** A hook of another component. *)
Definition hook {A} (m : tx (W * ES) A) : tx Db A :=
  zoom (fun db => (db.(world), store db)) (fun ws db => with_store ws.2 (with_world ws.1 db)) m.

(** What a command draws from outside: the readings of the clock, the time of its
    authorizer, fresh ids and the policy snapshot among the extras of its context. *)
Record Env := { clk : nat -> Z; authorized_at : Z; audit_id : string; work_item_hex : string; policy_snapshot : json }.

(** ** Helpers *)

Definition permit (env : Env) (ctx : CommandContext) (permission : string) (channel domain : option string)
    : atx AuditRecord Db unit := fun db l =>
  let '(rows, r) := require_permission
    (Some (fun q => bus_require sha256 catalog env.(audit_id) db.(authority) env.(authorized_at) ctx.(ctx_principal).(p_account_id) q)) {|
      q_permission := permission; q_action := None; q_domain := domain; q_channel_id := channel;
      q_resource := None; q_side_effect := false; q_required_capability := None;
      Authority.q_correlation_id := ctx.(ctx_correlation_id); q_target_type := "action"; q_target_id := "-" |} [] in
  (l ++ rows, r ≫= fun _ => Ok (tt, db)).

Definition _new_task_id (ctx : CommandContext) (scope : string) : res string :=
  bytes ← utf8 (lit (ctx.(ctx_workspace_id) +:+ "|" +:+ ctx.(ctx_principal).(p_account_uuid) +:+ "|" +:+ scope +:+ "|" +:+
                     ctx.(ctx_idempotency_key)));
  Ok ("task-" +:+ text (take 16 (sha256 bytes))).

Definition stream (ctx : CommandContext) (aggregate id : string) (db : Db) : list HashChain.Event :=
  in_stream (lit ctx.(ctx_workspace_id), lit aggregate, lit id) (log db).

Definition verification_ids (events : list HashChain.Event) : list string :=
  omap (fun e => if String.eqb (text e.(event_type)) "TASK_VERIFICATION_STARTED"
                 then py_or (get_str e.(payload) "verification_id") None else None) events.

(** The Events [load_task] folds. *)
Definition task_events (ctx : CommandContext) (id : string) (db : Db) : list HashChain.Event :=
  let events := stream ctx "task" id db in
  events ++ concat ((fun v => List.filter (fun e => bool_decide (e.(HashChain.task_id) = Some (lit id)))
                                (stream ctx "verification_run" v db)) <$> verification_ids events).

Definition load_task (ctx : CommandContext) (id : string) : tx Db TaskState := fun db =>
  match stream ctx "task" id db with
  | [] => Err "TASK_NOT_FOUND"
  | _ => s ← fold id (task_event <$> task_events ctx id db); Ok (s, db)
  end.

Definition result_of (e : HashChain.Event) : AppendResult := result_of_event e true.

(** The Event this exact command already produced. *)
Definition same_command (ctx : CommandContext) (scope : string) (e : HashChain.Event) : bool :=
  bool_decide (e.(idempotency_scope) = lit scope) && bool_decide (e.(idempotency_key) = lit ctx.(ctx_idempotency_key)) &&
  bool_decide (e.(actor_account_id) = lit ctx.(ctx_principal).(p_account_uuid)).

Definition _replay_from_stream (ctx : CommandContext) (id scope : string) (db : Db) : option AppendResult :=
  result_of <$> find (same_command ctx scope) (stream ctx "task" id db).

Definition request (ctx : CommandContext) (aggregate id ty scope key : string) (body : list (ustr * json))
    (channel task caused_by : option string) (seq : Z) : AppendRequest := {|
  r_workspace_id := lit ctx.(ctx_workspace_id); r_aggregate_type := lit aggregate; r_aggregate_id := lit id;
  r_type := lit ty; r_actor_account_id := lit ctx.(ctx_principal).(p_account_uuid);
  r_correlation_id := lit ctx.(ctx_correlation_id); r_idempotency_scope := lit scope; r_idempotency_key := lit key;
  r_payload := body; r_policy_version := lit "policy-v1"; r_channel_id := lit <$> channel; r_task_id := lit <$> task;
  r_caused_by := lit <$> caused_by; r_expected_seq := Some seq; r_sensitive := None; r_schema_version := 1 |}.

Definition _append (r : AppendRequest) : tx Db AppendResult := fun db =>
  match el_append r (store db) with
  | Ok (a, s) => Ok (a, with_store s db)
  | Err e => Err e
  end.

(** [_occurred_at] *)
Definition _occurred_at (env : Env) (n : nat) (event_id : ustr) (db : Db) : option string :=
  match el_get (store db) event_id with
  | Some e => Some (text e.(occurred_at))
  | None => Some (text (isoformat_utc (env.(clk) n)))
  end.

Definition write (s : TaskState) (occurred_at : option string) : tx Db unit :=
  modify (fun db => with_projection (write_state s occurred_at db.(projection)) db).

(** The Event a transition folds when the store cannot return it. *)
Definition fallback_event (env : Env) (ctx : CommandContext) (s : TaskState) (ty : string) (a : AppendResult)
    (body : list (ustr * json)) : Event := {|
  e_type := ty; e_aggregate_type := Some "task"; e_aggregate_id := Some s.(task_id); e_task_id := Some s.(task_id);
  e_workspace_id := None; e_channel_id := None; e_actor_account_id := Some ctx.(ctx_principal).(p_account_uuid);
  e_event_id := Some (text a.(a_event_id)); e_aggregate_seq := Some a.(a_aggregate_seq);
  e_recorded_seq := Some a.(a_recorded_seq); e_occurred_at := Some (text (isoformat_utc (env.(clk) 0%nat)));
  e_payload := payload_of body |}.

Definition run_terminal_hooks (st : TaskStatus) (id : string) : tx Db unit :=
  if mem st TERMINAL then hook (terminal_hooks id) else mret tt.

Definition _transition (env : Env) (ctx : CommandContext) (scope : string) (s : TaskState) (ty : string)
    (body : list (ustr * json)) : tx Db (AppendResult * TaskState) := fun db =>
  match _replay_from_stream ctx s.(task_id) scope db with
  | Some a => Ok ((a, s), db)
  | None =>
      (new_status ← lift (next_status s.(status) ty);
       let body := (lit "task_id", jtext s.(task_id)) :: body in
       a ← _append (request ctx "task" s.(task_id) ty scope ctx.(ctx_idempotency_key) body
             s.(channel_id) (Some s.(task_id)) s.(last_event_id) (s.(last_aggregate_seq) + 1));
       if a.(replayed) then mret (a, s)
       else
         event ← gets (fun db => match el_get (store db) a.(a_event_id) with
                                 | Some e => task_event e | None => fallback_event env ctx s ty a body end);
         s' ← lift (apply_event s event);
         let s' := with_status new_status s' in
         _ ← run_terminal_hooks new_status s'.(task_id);
         _ ← write s' event.(e_occurred_at);
         mret (a, s')) db
  end.

Definition _result (a : AppendResult) (id : string) (s : TaskState) (data : list (ustr * json)) : TaskResult := {|
  tr_task := id; tr_event := a.(a_event_id); tr_seq := a.(a_aggregate_seq); tr_replayed := a.(replayed);
  tr_status := s.(status); tr_data := data |}.

Definition _policy_snapshot_hash (env : Env) : res string :=
  bytes ← canonical_json env.(policy_snapshot); Ok (text (sha256 bytes)).

Definition _account_uuid (ctx : CommandContext) (public_id : string) : tx Db string := fun db =>
  match db.(authority).(accounts) !! public_id with
  | Some a => if String.eqb a.(workspace_uuid) ctx.(ctx_workspace_id) then Ok (a.(account_uuid), db) else Err "ACCOUNT_NOT_FOUND"
  | None => Err "ACCOUNT_NOT_FOUND"
  end.

Definition _record_assignment (ctx : CommandContext) (s : TaskState) (reason : string) (resume : json) (event : ustr)
    : tx Db unit := fun db =>
  if existsb (fun r => String.eqb r.(as_task) s.(task_id) && (r.(as_revision) =? s.(assignment_revision))) db.(task_assignments)
  then Err "IntegrityError"
  else Ok (tt, with_assignments (db.(task_assignments) ++ [{|
    as_task := s.(task_id); as_revision := s.(assignment_revision); as_delegator := ctx.(ctx_principal).(p_account_uuid);
    as_assignee := s.(assignee_account_id); as_reason := reason;
    as_policy_hash := default EmptyString (py_or s.(policy_snapshot_hash) None); as_resume := resume; as_event := event |}]) db).

(** ** Orchestration *)

Definition channel_limits (channel : option string) (db : Db) : GraphLimits :=
  match py_or channel None ≫= fun c => db.(channel_templates) !! c with
  | Some limits => limits_from_policy limits
  | None => {| TaskGraph.delegation_depth := DEFAULT_DELEGATION_DEPTH; max_fan_out := DEFAULT_MAX_FAN_OUT;
               concurrent_subtasks := DEFAULT_CONCURRENT_SUBTASKS |}
  end.

Definition check_subtask_creation (ctx : CommandContext) (parent : TaskState) (child : string) (db : Db) : res unit :=
  let siblings := children_of db.(edges) db.(projection) parent.(task_id) in
  let active := List.filter (fun c => negb (mem c.(cv_status) ["COMPLETED"; "CANCELLED"])) siblings in
  validate_new_child {|
      pv_task_id := parent.(task_id);
      pv_workspace_id := match py_or parent.(workspace_id) None with Some w => w | None => ctx.(ctx_workspace_id) end;
      pv_depth := parent.(delegation_depth); pv_status := status_value parent.(status) |}
    child ctx.(ctx_workspace_id) (ancestors_of 128 db.(edges) parent.(task_id) [] ++ [parent.(task_id)])
    (Z.of_nat (length siblings)) (Z.of_nat (length active)) (channel_limits parent.(channel_id) db).

(** The open assignment items of other Agents, cancelled one by one. An item that may not
    be cancelled any more is passed over. *)
Fixpoint cancel_each (env : Env) (n : nat) (actor reason : string) (items : list WorkItem) : tx Db unit :=
  match items with
  | [] => mret tt
  | i :: items =>
      if is_ok (transition i.(Inbox.status) "cancel") then
        _ ← zoom inbox with_inbox (Inbox.cancel i.(work_item_id) reason actor (env.(clk) n));
        cancel_each env (S n) actor reason items
      else cancel_each env n actor reason items
  end.

Definition superseded (id agent : string) (i : WorkItem) : bool :=
  bool_decide (i.(wi_task_id) = Some id) && mem i.(kind) ["task_assignment"; "subtask_assignment"] &&
  negb (String.eqb i.(Inbox.agent_id) agent).

Definition assignment_payload (s : TaskState) (event : ustr) (resume : json) : list (ustr * json) := [
  (lit "task_id", jtext s.(task_id)); (lit "root_task_id", jopt_text s.(root_task_id));
  (lit "parent_task_id", jopt_text s.(parent_task_id)); (lit "channel_id", jopt_text s.(channel_id));
  (lit "title", jtext s.(title)); (lit "domain", jtext s.(domain)); (lit "risk", jtext s.(risk));
  (lit "assignment_revision", JInt s.(assignment_revision)); (lit "criteria_revision", JInt s.(criteria_revision));
  (lit "assignment_event_id", JStr event); (lit "resume_context", resume)].

(** [resume_context or {}] *)
Definition or_empty (v : json) : json :=
  match v with JNull => JObj [] | _ => v end.

(** The work item of an assignment to an Agent; [len items] readings of the clock before. *)
Definition after_assignment (env : Env) (ctx : CommandContext) (s : TaskState) (event : ustr) (resume : json) : tx Db unit := fun db =>
  match s.(assignee_account_id) ≫= fun a => db.(agents) !! a with
  | None => Ok (tt, db)
  | Some agent =>
      let items := List.filter (superseded s.(task_id) agent) (open_items None None db.(inbox)) in
      (_ ← cancel_each env 0 ctx.(ctx_principal).(p_account_uuid) "REASSIGNED" items;
       _ ← zoom inbox with_inbox (Inbox.enqueue isoformat_utc env.(work_item_hex) (env.(clk) (S (length items))) {|
             q_workspace_id := ctx.(ctx_workspace_id);
             q_kind := if truthy s.(parent_task_id) then "subtask_assignment" else "task_assignment";
             q_agent_id := agent; q_payload := assignment_payload s event (or_empty resume);
             q_deadline := env.(clk) (length items) + hours 24; q_expected_result_schema := "colab.work-result.v1";
             Inbox.q_correlation_id := ctx.(ctx_correlation_id);
             q_idempotency_key := "assign:" +:+ s.(task_id) +:+ ":" +:+ int_text s.(assignment_revision);
             q_actor_account_id := ctx.(ctx_principal).(p_account_uuid); q_task_id := Some s.(task_id);
             q_brainstorm_id := None; q_secret_handles := None; q_work_item_id := None |});
       mret tt) db
  end.

Definition evaluate_parent_join (parent : TaskState) (db : Db) : res JoinResult :=
  evaluate_join parent.(join_policy) (children_of db.(edges) db.(projection) parent.(task_id)).

Definition _join_policy_label (r : JoinResult) : string :=
  if String.eqb r.(jr_mode) "QUORUM"
  then "QUORUM(" +:+ match r.(jr_quorum) with Some q => text (str_int q) | None => "None" end +:+ ")"
  else r.(jr_mode).

Definition catch_conflict {A} (m : tx Db A) : tx Db (option A) := fun db =>
  match m db with
  | Ok (a, db') => Ok (Some a, db')
  | Err e => if String.eqb e "IDEMPOTENCY_CONFLICT" then Ok (None, db) else Err e
  end.

Definition record_join_if_satisfied (env : Env) (ctx : CommandContext) (id : string) : tx Db unit :=
  parent ← load_task ctx id;
  if negb parent.(exists_) then mret tt
  else
    db ← gets (fun db => db);
    r ← lift (evaluate_parent_join parent db);
    if negb r.(jr_satisfied) || parent.(join_satisfied) then mret tt
    else
      a ← catch_conflict (_append (request ctx "task" parent.(task_id) "TASK_JOIN_SATISFIED" "task:join" ("join:" +:+ parent.(task_id)) [
            (lit "task_id", jtext parent.(task_id)); (lit "join_policy", jtext (_join_policy_label r));
            (lit "satisfied_children", JArr (jtext <$> r.(jr_satisfied_children)))]
            parent.(channel_id) (Some parent.(task_id)) parent.(last_event_id) (parent.(last_aggregate_seq) + 1)));
      match a with
      | None => mret tt
      | Some a =>
          let now := env.(clk) 1%nat in
          _ ← modify (fun db => with_joins (<[parent.(task_id) := {|
                jn_policy := parent.(join_policy); jn_mode := r.(jr_mode); jn_children := r.(jr_satisfied_children);
                jn_event := a.(a_event_id); jn_updated := now |}]> db.(joins)) db);
          parent ← load_task ctx id;
          write parent (Some (text (isoformat_utc now)))
      end.

Definition on_child_terminal (env : Env) (ctx : CommandContext) (child : TaskState) : tx Db unit :=
  match py_or child.(parent_task_id) None with
  | Some p => record_join_if_satisfied env ctx p
  | None => mret tt
  end.

Definition parent_join_check (s : TaskState) (db : Db) : res (option string) :=
  let children := children_of db.(edges) db.(projection) s.(task_id) in
  if bool_decide (children = []) then Ok None
  else if negb (mem s.(status) [VERIFIED; COMPLETED]) then Ok None
  else r ← evaluate_join s.(join_policy) children;
       Ok (if r.(jr_satisfied) then None else Some "TASK_JOIN_UNSATISFIED").

Definition finalized_document_check (s : TaskState) (db : Db) : option string :=
  if truthy (expected_document_id s.(task_id) db.(world)) then None else Some "COMPLETION_PREREQUISITE_MISSING".

(** ** Handlers *)

Definition create (env : Env) (ctx : CommandContext) (scope id ty : string) (body : list (ustr * json)) (channel : option string)
    : tx Db (AppendResult * TaskState) :=
  a ← _append (request ctx "task" id ty scope ctx.(ctx_idempotency_key) body channel (Some id) None 1);
  s ← load_task ctx id;
  _ ← (if a.(replayed) then mret tt else at_ ← gets (_occurred_at env 0 a.(a_event_id)); write s at_);
  mret (a, s).

Definition pin_rows (id : string) (revision : Z) (cs : list AcceptanceCriterion) (event : ustr) : tx Db unit := fun db =>
  rows ← _insert_rows id revision cs event db.(criteria_rows); Ok (tt, with_criteria rows db).

Definition persist_initial (id : string) (event : ustr) (cs : list AcceptanceCriterion) : tx Db unit :=
  pin_rows id 1 cs event.

Definition jcriteria (cs : list AcceptanceCriterion) : json := JArr (JObj ∘ as_dict <$> cs).

Definition create_task (env : Env) (cmd : CreateTask) (ctx : CommandContext) : atx AuditRecord Db TaskResult :=
  _ ← permit env ctx "task.create" (Some cmd.(ct_channel_id)) (Some cmd.(ct_domain));
  in_tx (
    _ ← guard_tx (negb (mem cmd.(ct_risk) ["LOW"; "MEDIUM"; "HIGH"; "CRITICAL"])) "TASK_RISK_INVALID";
    _ ← guard_tx (blank (lit cmd.(ct_title))) "TASK_TITLE_REQUIRED";
    id ← lift (match py_or cmd.(ct_task_id) None with Some i => Ok i | None => _new_task_id ctx "task:create" end);
    pinned ← lift (prepare_initial sha256 py_str id cmd.(ct_criteria));
    hash ← lift (_policy_snapshot_hash env);
    r ← create env ctx "task:create" id "TASK_CREATED" [
      (lit "task_id", jtext id); (lit "root_task_id", jtext id); (lit "channel_id", jtext cmd.(ct_channel_id));
      (lit "title", jtext cmd.(ct_title)); (lit "domain", jtext cmd.(ct_domain)); (lit "risk", jtext cmd.(ct_risk));
      (lit "join_policy", JObj cmd.(ct_join_policy)); (lit "policy_snapshot_hash", jtext hash);
      (lit "criteria", jcriteria pinned)] (Some cmd.(ct_channel_id));
    let '(a, s) := r in
    _ ← (if a.(replayed) then mret tt else persist_initial id a.(a_event_id) pinned);
    mret (_result a id s [])).

Definition link_subtask_edge (ctx : CommandContext) (child parent root : string) (depth : Z) (event : ustr) : tx Db unit := fun db =>
  m ← insert_edge child {| ed_parent := parent; ed_root := root; ed_workspace := ctx.(ctx_workspace_id);
                           ed_depth := depth; ed_event := event |} db.(edges);
  Ok (tt, with_edges m db).

Definition create_subtask_tx (env : Env) (ctx : CommandContext) (cmd : CreateSubtask) (parent : TaskState) : tx Db TaskResult :=
  _ ← guard_tx (mem parent.(status) TERMINAL) "TASK_TERMINAL";
  id ← lift (match py_or cmd.(cs_task_id) None with Some i => Ok i | None => _new_task_id ctx "task:create_subtask" end);
  _ ← guard_tx (String.eqb id cmd.(cs_parent)) "TASK_GRAPH_CYCLE";
  _ ← (fun db => match _replay_from_stream ctx id "task:create_subtask" db with
                 | None => _ ← check_subtask_creation ctx parent id db; Ok (tt, db)
                 | Some _ => Ok (tt, db)
                 end);
  let root := default cmd.(cs_parent) (py_or parent.(root_task_id) None) in
  let depth := parent.(delegation_depth) + 1 in
  pinned ← lift (prepare_initial sha256 py_str id cmd.(cs_criteria));
  hash ← lift (_policy_snapshot_hash env);
  r ← create env ctx "task:create_subtask" id "SUBTASK_CREATED" [
    (lit "task_id", jtext id); (lit "parent_task_id", jtext cmd.(cs_parent)); (lit "root_task_id", jtext root);
    (lit "depth", JInt depth); (lit "channel_id", jopt_text parent.(channel_id)); (lit "title", jtext cmd.(cs_title));
    (lit "domain", jtext cmd.(cs_domain)); (lit "risk", jtext cmd.(cs_risk)); (lit "policy_snapshot_hash", jtext hash);
    (lit "criteria", jcriteria pinned)] parent.(channel_id);
  let '(a, s) := r in
  _ ← (if a.(replayed) then mret tt
       else _ ← persist_initial id a.(a_event_id) pinned;
            link_subtask_edge ctx id cmd.(cs_parent) root depth a.(a_event_id));
  mret (_result a id s [(lit "parent_task_id", jtext cmd.(cs_parent))]).

(** The Task of a command, with the permission on its channel and domain. *)
Definition on_task (env : Env) (ctx : CommandContext) (id permission : string) : atx AuditRecord Db TaskState :=
  s ← in_tx (load_task ctx id);
  _ ← permit env ctx permission s.(channel_id) (Some s.(domain));
  mret s.

Definition create_subtask (env : Env) (cmd : CreateSubtask) (ctx : CommandContext) : atx AuditRecord Db TaskResult :=
  parent ← in_tx (load_task ctx cmd.(cs_parent));
  _ ← permit env ctx "task.delegate" parent.(channel_id) (Some cmd.(cs_domain));
  in_tx (create_subtask_tx env ctx cmd parent).

(** A check that only a first execution makes. *)
Definition unless_replay (ctx : CommandContext) (id scope : string) (m : tx Db unit) : tx Db unit := fun db =>
  match _replay_from_stream ctx id scope db with Some _ => Ok (tt, db) | None => m db end.

Definition delegate_tx (env : Env) (ctx : CommandContext) (s : TaskState) (id assignee_id reason : string) : tx Db TaskResult :=
  assignee ← _account_uuid ctx assignee_id;
  _ ← unless_replay ctx id "task:delegate" (
        _ ← lift (next_status s.(status) "TASK_DELEGATED");
        db ← gets (fun db => db); lift (delegate_requires_criteria db.(criteria_rows) s.(task_id)));
  hash ← lift (_policy_snapshot_hash env);
  r ← _transition env ctx "task:delegate" s "TASK_DELEGATED" [
    (lit "assignee_account_id", jtext assignee); (lit "assignment_revision", JInt (s.(assignment_revision) + 1));
    (lit "policy_snapshot_hash", jtext hash); (lit "reason_code", jtext reason)];
  let '(a, s) := r in
  _ ← (if a.(replayed) then mret tt
       else _ ← _record_assignment ctx s reason JNull a.(a_event_id); after_assignment env ctx s a.(a_event_id) JNull);
  mret (_result a id s [(lit "assignee_account_id", jtext assignee)]).

Definition delegate_task (env : Env) (id assignee_id reason : string) (ctx : CommandContext) : atx AuditRecord Db TaskResult :=
  s ← on_task env ctx id "task.delegate"; in_tx (delegate_tx env ctx s id assignee_id reason).

Definition reassign_tx (env : Env) (ctx : CommandContext) (s : TaskState) (id assignee_id reason : string) (resume : json)
    : tx Db TaskResult :=
  assignee ← _account_uuid ctx assignee_id;
  hash ← lift (match py_or s.(policy_snapshot_hash) None with Some h => Ok h | None => _policy_snapshot_hash env end);
  r ← _transition env ctx "task:reassign" s "TASK_REASSIGNED" [
    (lit "assignee_account_id", jtext assignee); (lit "assignment_revision", JInt (s.(assignment_revision) + 1));
    (lit "reason_code", jtext reason); (lit "policy_snapshot_hash", jtext hash)];
  let '(a, s) := r in
  _ ← (if a.(replayed) then mret tt
       else _ ← _record_assignment ctx s reason resume a.(a_event_id); after_assignment env ctx s a.(a_event_id) resume);
  mret (_result a id s [(lit "assignee_account_id", jtext assignee)]).

Definition reassign_task (env : Env) (id assignee_id reason : string) (resume : json) (ctx : CommandContext)
    : atx AuditRecord Db TaskResult :=
  s ← on_task env ctx id "task.reassign"; in_tx (reassign_tx env ctx s id assignee_id reason resume).

Definition _enforce_agent_limits (ctx : CommandContext) (id : string) : tx Db unit := fun db =>
  match db.(authority).(accounts) !! ctx.(ctx_principal).(p_account_id) with
  | Some p => if negb (String.eqb p.(account_type) "agent") then Ok (tt, db)
              else match db.(agents) !! ctx.(ctx_principal).(p_account_uuid) with
              | Some agent => zoom world with_world (enforce_limits agent id) db
              | None => Ok (tt, db)
              end
  | None => Ok (tt, db)
  end.

(** A command that is one transition of the Task. *)
Definition simple_tx (env : Env) (ctx : CommandContext) (s : TaskState) (id scope ty : string) (body : list (ustr * json))
    : tx Db TaskResult :=
  r ← _transition env ctx scope s ty body; let '(a, s) := r in mret (_result a id s []).

Definition accept_tx (env : Env) (ctx : CommandContext) (s : TaskState) (id : string) : tx Db TaskResult :=
  _ ← unless_replay ctx id "task:accept" (
        _ ← lift (next_status s.(status) "TASK_ACCEPTED");
        _ ← guard_tx (negb (bool_decide (s.(assignee_account_id) = Some ctx.(ctx_principal).(p_account_uuid)))) "TASK_NOT_ASSIGNEE";
        _enforce_agent_limits ctx id);
  simple_tx env ctx s id "task:accept" "TASK_ACCEPTED" [(lit "assignee_account_id", jtext ctx.(ctx_principal).(p_account_uuid))].

Definition accept_task (env : Env) (id : string) (ctx : CommandContext) : atx AuditRecord Db TaskResult :=
  s ← on_task env ctx id "task.accept"; in_tx (accept_tx env ctx s id).

Definition start_task (env : Env) (id : string) (ctx : CommandContext) : atx AuditRecord Db TaskResult :=
  s ← on_task env ctx id "task.progress"; in_tx (simple_tx env ctx s id "task:start" "TASK_STARTED" []).

Definition report_progress (env : Env) (id summary : string) (ctx : CommandContext) : atx AuditRecord Db TaskResult :=
  s ← on_task env ctx id "task.progress";
  in_tx (simple_tx env ctx s id "task:progress" "TASK_PROGRESS_REPORTED" [(lit "summary", jtext summary)]).

Definition mark_waiting (env : Env) (id reason : string) (ctx : CommandContext) : atx AuditRecord Db TaskResult :=
  s ← on_task env ctx id "task.progress";
  in_tx (simple_tx env ctx s id "task:wait" "TASK_WAITING" [(lit "reason_code", jtext reason)]).

Definition submit_tx (env : Env) (ctx : CommandContext) (s : TaskState) (id : string) (refs : list string) (revision : Z)
    : tx Db TaskResult :=
  _ ← unless_replay ctx id "task:submit" (
        _ ← lift (next_status s.(status) "IMPLEMENTATION_SUBMITTED");
        db ← gets (fun db => db); lift (submit_requires_evidence db.(criteria_rows) s.(task_id) revision refs));
  r ← _transition env ctx "task:submit" s "IMPLEMENTATION_SUBMITTED"
        [(lit "evidence_refs", JArr (jtext <$> refs)); (lit "criteria_revision", JInt revision)];
  let '(a, s) := r in
  _ ← (if a.(replayed) then mret tt else hook (on_implementation_submitted id));
  mret (_result a id s []).

Definition submit_implementation (env : Env) (id : string) (refs : list string) (revision : Z) (ctx : CommandContext)
    : atx AuditRecord Db TaskResult :=
  s ← on_task env ctx id "task.submit"; in_tx (submit_tx env ctx s id refs revision).

Definition start_verification (env : Env) (id verification : string) (ctx : CommandContext) : atx AuditRecord Db TaskResult :=
  s ← on_task env ctx id "verification.assign";
  in_tx (simple_tx env ctx s id "task:verify" "TASK_VERIFICATION_STARTED" [(lit "verification_id", jtext verification)]).

Definition result_payload (cmd : RecordVerificationResult) : list (ustr * json) :=
  [(lit "verification_id", jtext cmd.(rv_verification)); (lit "revision", JInt cmd.(rv_revision))] ++
  (if String.eqb cmd.(rv_result) "PASSED" then [(lit "evidence_refs", JArr (jtext <$> cmd.(rv_evidence)))]
   else if String.eqb cmd.(rv_result) "FAILED" then [(lit "finding_ids", JArr (jtext <$> cmd.(rv_findings)))]
   else [(lit "reason_code", jtext cmd.(rv_reason))]).

(** The verification stream already carries this command, whoever gave it. *)
Definition result_recorded (ctx : CommandContext) (e : HashChain.Event) : bool :=
  bool_decide (e.(idempotency_scope) = lit "verification_run:result") &&
  bool_decide (e.(idempotency_key) = lit ctx.(ctx_idempotency_key)).

Definition result_tx (env : Env) (ctx : CommandContext) (cmd : RecordVerificationResult) (s : TaskState) : tx Db TaskResult := fun db =>
  if negb (mem cmd.(rv_result) ["PASSED"; "FAILED"; "BLOCKED"]) then Err "VERIFICATION_RESULT_INVALID"
  else
    let vr := stream ctx "verification_run" cmd.(rv_verification) db in
    match find (result_recorded ctx) vr with
    | Some e => Ok (_result {| a_event_id := e.(event_id); a_aggregate_seq := e.(aggregate_seq);
                               a_content_hash := e.(content_hash); a_recorded_seq := 0; replayed := true |} cmd.(rv_task) s [], db)
    | None =>
        (_ ← guard_tx (negb (bool_decide (s.(status) = VERIFYING)) ||
                       negb (bool_decide (s.(active_verification_id) = Some cmd.(rv_verification)))) "TASK_TRANSITION_INVALID";
         a ← _append (request ctx "verification_run" cmd.(rv_verification) ("VERIFICATION_" +:+ cmd.(rv_result))
               "verification_run:result" ctx.(ctx_idempotency_key) (result_payload cmd) s.(channel_id) (Some cmd.(rv_task))
               s.(last_event_id) (match last vr with Some e => e.(aggregate_seq) + 1 | None => 1 end));
         s ← load_task ctx cmd.(rv_task);
         at_ ← gets (_occurred_at env 0 a.(a_event_id));
         _ ← write s at_;
         _ ← (if String.eqb cmd.(rv_result) "PASSED" then on_child_terminal env ctx s else mret tt);
         mret (_result a cmd.(rv_task) s [(lit "verification_id", jtext cmd.(rv_verification))])) db
    end.

Definition record_verification_result (env : Env) (cmd : RecordVerificationResult) (ctx : CommandContext)
    : atx AuditRecord Db TaskResult :=
  s ← on_task env ctx cmd.(rv_task) "verification.submit"; in_tx (result_tx env ctx cmd s).

(** The codes of the unmet prerequisites of a completion. *)
Definition missing_prerequisites (s : TaskState) (document : string) (db : Db) : res (list string) :=
  join ← parent_join_check s db;
  let missing := completion_prerequisites [fun _ => join; fun s => finalized_document_check s db] s in
  Ok (if bool_decide (missing = []) &&
         negb (bool_decide (expected_document_id s.(task_id) db.(world) = Some document))
      then ["COMPLETION_PREREQUISITE_MISSING"] else missing).

Definition complete_check (s : TaskState) (document : string) : tx Db unit := fun db =>
  guard_err (mem s.(status) TERMINAL) "TASK_TERMINAL" $
  missing ← missing_prerequisites s document db;
  match missing with
  | [] => Ok (tt, db)
  | c :: _ => Err (if mem c ["VERIFICATION_REQUIRED"; "COMPLETION_PREREQUISITE_MISSING"]
                   then "COMPLETION_PREREQUISITE_MISSING" else c)
  end.

Definition complete_tx (env : Env) (ctx : CommandContext) (s : TaskState) (id document : string) : tx Db TaskResult :=
  _ ← unless_replay ctx id "task:complete" (complete_check s document);
  r ← _transition env ctx "task:complete" s "TASK_COMPLETED" [
    (lit "verification_id", jtext (default EmptyString s.(active_verification_id))); (lit "document_id", jtext document)];
  let '(a, s) := r in
  _ ← (if a.(replayed) then mret tt else on_child_terminal env ctx s);
  mret (_result a id s []).

Definition complete_task (env : Env) (id document : string) (ctx : CommandContext) : atx AuditRecord Db TaskResult :=
  s ← on_task env ctx id "task.complete"; in_tx (complete_tx env ctx s id document).

Definition request_cancel (env : Env) (id reason : string) (ctx : CommandContext) : atx AuditRecord Db TaskResult :=
  s ← on_task env ctx id "task.cancel";
  in_tx (simple_tx env ctx s id "task:cancel_request" "TASK_CANCEL_REQUESTED" [(lit "reason_code", jtext reason)]).

Definition cancel_task (env : Env) (id reason : string) (ctx : CommandContext) : atx AuditRecord Db TaskResult :=
  s ← on_task env ctx id "task.cancel";
  in_tx (simple_tx env ctx s id "task:cancel" "TASK_CANCELLED" [(lit "reason_code", jtext reason)]).

(** ** Criteria revisions *)

Definition revise_tx (env : Env) (ctx : CommandContext) (s : TaskState) (id : string) (raw : list entry) : tx Db (AppendResult * Z) := fun db =>
  guard_err (mem s.(status) TERMINAL) "TASK_TERMINAL" $
  let events := stream ctx "task_criteria" id db in
  match find (same_command ctx "task_criteria:revise") events with
  | Some e => Ok ((result_of e, default 0 (get_int e.(payload) "criteria_revision")), db)
  | None =>
      let revision := (current_criteria db.(criteria_rows) id).1 + 1 in
      (cs ← lift (build_revision sha256 py_str id revision raw);
       a ← _append (request ctx "task_criteria" id "ACCEPTANCE_CRITERIA_REVISED" "task_criteria:revise" ctx.(ctx_idempotency_key) [
             (lit "task_id", jtext id); (lit "criteria_revision", JInt revision);
             (lit "criteria_ids", JArr (jtext ∘ criteria_id <$> cs)); (lit "criteria", jcriteria cs)]
             s.(channel_id) (Some id) s.(last_event_id) (Z.of_nat (length events) + 1));
       _ ← (if a.(replayed) then mret tt else pin_rows id revision cs a.(a_event_id));
       mret (a, revision)) db
  end.

Definition revise_criteria (env : Env) (id : string) (raw : list entry) (ctx : CommandContext) : atx AuditRecord Db (AppendResult * Z) :=
  s ← on_task env ctx id "task.delegate"; in_tx (revise_tx env ctx s id raw).
End commands.
