(* ===== verification/TaskHistory.v ===== *)
(** What histories of Task commands keep: the Events of a Task fold to a state, the read
    model shows that state, [load_task] gives it back, and what follows for the Tasks that
    are verified, completed, joined or retried. One workspace; the hooks of the other
    components may append Events of their own aggregates. *)

From S2P Require Import Prelude Tx Defaults Canonical Text HashChain Policy Catalog Authority EventStore EventLog Bus WorkState Inbox TaskGraph TaskState Criteria TaskProjection TaskCommands.
Open Scope Z_scope.

(** ** The Events of a Task *)

Section events.
Context (ws : string).

Definition task_key (t : string) : ustr * ustr * ustr := (lit ws, lit "task", lit t).
Definition run_key (v : string) : ustr * ustr * ustr := (lit ws, lit "verification_run", lit v).

Definition is_result (e : HashChain.Event) : bool := mem (text e.(event_type)) VERIFICATION_RESULT_EVENTS.

(** An Event of another component: the read model and the fold of a Task pass it over. *)
Record foreign (e : HashChain.Event) : Prop := {
  fo_concerned : concerned e = None;
  fo_creation : is_creation e = false }.

(** An Event about the Task [t]. *)
Inductive placed (e : HashChain.Event) (t : string) : Prop :=
| Placed_task : aggregate_of e = task_key t -> is_result e = false -> placed e t
| Placed_result v : aggregate_of e = run_key v -> is_result e = true -> e.(HashChain.task_id) = Some (lit t) ->
    v <> EmptyString -> get_str e.(payload) "verification_id" = Some v -> placed e t.

Definition well_placed (e : HashChain.Event) : Prop := foreign e \/ exists t, t <> EmptyString /\ placed e t.

Lemma aggregate_fields e (a b c : ustr) :
  aggregate_of e = (a, b, c) -> e.(HashChain.workspace_id) = a /\ e.(aggregate_type) = b /\ e.(aggregate_id) = c.
Proof. unfold aggregate_of. by intros [= -> -> ->]. Qed.

Lemma placed_concerned e t : t <> EmptyString -> placed e t -> concerned e = Some t.
Proof.
  intros Ht [Ha _|v Ha Hr Hid _ _]; unfold concerned; apply aggregate_fields in Ha as (_ & -> & Hi); rewrite text_lit.
  - cbn iota beta. rewrite Hi, text_lit. done.
  - change (String.eqb "verification_run" "task") with false. cbn iota. unfold is_result in Hr. rewrite Hr, Hid.
    change (text <$> Some (lit t)) with (Some (text (lit t))).
    rewrite text_lit. unfold py_or, truthy. by rewrite (proj2 (String.eqb_neq _ _) Ht).
Qed.

Lemma about_placed e t : well_placed e -> about t e = true -> t <> EmptyString /\ placed e t.
Proof.
  unfold about. rewrite bool_decide_eq_true. intros [[Hc _]|(t' & Hne & Hp)] H; [congruence|].
  rewrite (placed_concerned _ _ Hne Hp) in H. by injection H as <-.
Qed.

Lemma placed_about e t : t <> EmptyString -> placed e t -> about t e = true.
Proof. intros Ht H. unfold about. by rewrite (placed_concerned _ _ Ht H), bool_decide_eq_true_2. Qed.

(** An Event about no Task, or about another one, is ignored by the fold. *)
Lemma ignored s e :
  foreign e -> s.(task_id) <> EmptyString -> apply_event s (task_event e) = Ok s.
Proof.
  intros [Hc Hcr] Ht. unfold apply_event. change (e_type (task_event e)) with (text (event_type e)).
  unfold is_creation in Hcr. rewrite Hcr. destruct (negb (exists_ s)); [done|]. unfold concerned in Hc.
  destruct (String.eqb_spec (text (aggregate_type e)) "task") as [|Hne]; [done|]. cbn iota in Hc.
  assert (bool_decide (e_aggregate_type (task_event e) = Some "task") = false) as Hag
    by (apply bool_decide_eq_false; cbn; congruence).
  destruct (mem (text (event_type e)) VERIFICATION_RESULT_EVENTS).
  - destruct (bool_decide_reflect (e_task_id (task_event e) = Some (task_id s))) as [Hid|]; [|done]. cbn in Hid.
    rewrite Hid in Hc. unfold py_or, truthy in Hc. by rewrite (proj2 (String.eqb_neq _ _) Ht) in Hc.
  - by rewrite Hag, orb_true_r.
Qed.

(** A verification result read twice counts once. *)
Lemma result_twice s e s' :
  is_result e = true -> is_creation e = false -> apply_event s (task_event e) = Ok s' -> apply_event s' (task_event e) = Ok s'.
Proof.
  intros Hr Hc. unfold apply_event. change (e_type (task_event e)) with (text (event_type e)).
  unfold is_result in Hr. unfold is_creation in Hc. rewrite Hr, Hc. destruct (negb (exists_ s)) eqn:He; [intros [= <-]; by rewrite He|].
  destruct (negb (bool_decide (e_task_id _ = _))) eqn:H1; [intros [= <-]; by rewrite He, H1|].
  destruct (negb (bool_decide (p_verification_id _ = _))) eqn:H2; [intros [= <-]; by rewrite He, H1, H2|].
  destruct (transition_get (status s) _) as [st|] eqn:H3; [|intros [= <-]; by rewrite He, H1, H2, H3].
  intros [= <-]. cbn [exists_ task_id active_verification_id status with_last_event with_verification with_status].
  rewrite He, H1, H2. destruct (transition_get st (text (event_type e))) eqn:H4; [|done]. exfalso.
  clear Hc H1 H2. revert Hr H3 H4. generalize (text (event_type e)) as ty. intros ty Hr H3 H4.
  transition_cases H3; try discriminate H4; discriminate Hr.
Qed.

(** ** What [load_task] reads *)

Definition events_of (t : string) (l : list HashChain.Event) : list HashChain.Event := List.filter (about t) l.

Definition started (t : string) (l : list HashChain.Event) : list string := verification_ids (in_stream (task_key t) l).

Definition of_run (t v : string) (e : HashChain.Event) : bool :=
  bool_decide (aggregate_of e = run_key v) && bool_decide (e.(HashChain.task_id) = Some (lit t)).

Definition of_task (t : string) (e : HashChain.Event) : bool := bool_decide (aggregate_of e = task_key t).

(** How often [load_task] reads an Event. *)
Definition copies (t : string) (vs : list string) (e : HashChain.Event) : nat :=
  ((if of_task t e then 1 else 0) + length (List.filter (fun v => of_run t v e) vs))%nat.

Definition read (t : string) (vs : list string) (l : list HashChain.Event) : list HashChain.Event :=
  List.filter (of_task t) l ++ concat ((fun v => List.filter (of_run t v) l) <$> vs).

Definition unfolded (t : string) (vs : list string) (l : list HashChain.Event) : list HashChain.Event :=
  concat ((fun e => replicate (copies t vs e) e) <$> l).

Lemma filter_swap (f : string -> HashChain.Event -> bool) e l vs :
  concat ((fun v => List.filter (f v) (e :: l)) <$> vs) ≡ₚ
  replicate (length (List.filter (fun v => f v e) vs)) e ++ concat ((fun v => List.filter (f v) l) <$> vs).
Proof.
  induction vs as [|v vs IH]; [done|]. cbn [fmap list_fmap concat]. rewrite IH. cbn [List.filter].
  destruct (f v e); cbn [length replicate app].
  - constructor. by rewrite !app_assoc, (Permutation_app_comm (List.filter _ l)).
  - by rewrite !app_assoc, (Permutation_app_comm (List.filter _ l)).
Qed.

Lemma read_unfolded t vs l : read t vs l ≡ₚ unfolded t vs l.
Proof.
  unfold read, unfolded. induction l as [|e l IH]; [cbn; induction vs; [done|exact IHvs]|].
  rewrite filter_swap. cbn [fmap list_fmap concat]. rewrite <- IH. unfold copies. cbn [List.filter].
  destruct (of_task t e); cbn [app Nat.add replicate].
  - constructor. by rewrite !app_assoc, (Permutation_app_comm (List.filter _ l)).
  - by rewrite !app_assoc, (Permutation_app_comm (List.filter _ l)).
Qed.

Lemma unfolded_elem t vs l e : e ∈ unfolded t vs l -> e ∈ l.
Proof.
  unfold unfolded. induction l as [|x l IH]; cbn; [done|]. intros [H|H]%elem_of_app; [|right; by apply IH].
  apply elem_of_replicate in H as [-> _]. by left.
Qed.

Lemma recorded_le_task a b : recorded_le (task_event a) (task_event b) = (a.(recorded_seq) <=? b.(recorded_seq)).
Proof. done. Qed.

Lemma sorted_app_map l1 l2 :
  StronglySorted (fun x y => recorded_le x y = true) (task_event <$> l2) ->
  (forall a b, a ∈ l1 -> b ∈ l1 ++ l2 -> a.(recorded_seq) <= b.(recorded_seq)) ->
  StronglySorted (fun x y => recorded_le x y = true) (task_event <$> l1 ++ l2).
Proof.
  intros H2 H1. induction l1 as [|x l1 IH]; [done|]. cbn [app fmap list_fmap]. constructor.
  - apply IH. intros a b Ha Hb. apply H1; by right.
  - apply Forall_fmap, Forall_forall. intros b Hb. unfold compose. rewrite recorded_le_task. apply Z.leb_le, H1; [by left|by right].
Qed.

Lemma unfolded_sorted t vs l :
  recorded_in_order l -> StronglySorted (fun x y => recorded_le x y = true) (task_event <$> unfolded t vs l).
Proof.
  induction l as [|e l IH]; intros H; [constructor|]. apply StronglySorted_inv in H as [H He].
  unfold unfolded. cbn [fmap list_fmap concat]. apply sorted_app_map; [by apply IH|].
  intros a b [-> _]%elem_of_replicate [[-> _]%elem_of_replicate|Hb]%elem_of_app; [done|].
  apply unfolded_elem in Hb. rewrite Forall_forall in He. by apply Z.lt_le_incl, He.
Qed.

Lemma in_order_inj l a b :
  recorded_in_order l -> a ∈ l -> b ∈ l -> a.(recorded_seq) = b.(recorded_seq) -> a = b.
Proof.
  induction 1 as [|e l Hl IH He]; [by intros ?%elem_of_nil|]. rewrite Forall_forall in He.
  intros [->|Ha]%elem_of_cons [->|Hb]%elem_of_cons E; [done| | |by apply IH].
  - specialize (He b Hb). lia.
  - specialize (He a Ha). lia.
Qed.

Lemma fold_read t vs l :
  recorded_in_order l ->
  fold t (task_event <$> read t vs l) = apply_events (initial_state t) (task_event <$> unfolded t vs l).
Proof.
  intros Ho. unfold fold. f_equal.
  apply (strongly_sorted_perm_eq (fun x y => recorded_le x y = true)).
  - intros x y Hx Hy. apply py_sorted_elem, list_elem_of_fmap in Hx as (a & -> & Ha).
    apply py_sorted_elem, list_elem_of_fmap in Hy as (b & -> & Hb). rewrite read_unfolded in Ha, Hb.
    apply unfolded_elem in Ha, Hb. rewrite !recorded_le_task, !Z.leb_le. intros H1 H2.
    by rewrite (in_order_inj l a b Ho Ha Hb ltac:(lia)).
  - apply py_sorted_sorted; [apply recorded_le_total|apply recorded_le_trans].
  - by apply unfolded_sorted.
  - rewrite py_sorted_perm. apply fmap_Permutation, read_unfolded.
Qed.

Lemma result_not_creation e : is_result e = true -> is_creation e = false.
Proof.
  unfold is_result, is_creation. rewrite mem_spec, mem_false. generalize (text (event_type e)). intros ty H.
  unfold VERIFICATION_RESULT_EVENTS in H. unfold CREATION_EVENTS. set_solver.
Qed.

Lemma apply_repeat s e n :
  apply_event s (task_event e) = Ok s -> apply_events s (task_event <$> replicate n e) = Ok s.
Proof. intros H. induction n as [|n IH]; [done|]. cbn [replicate fmap list_fmap apply_events]. rewrite H. exact IH. Qed.

(** The runs that [load_task] reads are those the Task started. *)
Definition starts_read (t : string) (vs : list string) (l : list HashChain.Event) : Prop :=
  forall e v, e ∈ l -> aggregate_of e = task_key t -> text e.(event_type) = "TASK_VERIFICATION_STARTED" ->
    get_str e.(payload) "verification_id" = Some v -> v <> EmptyString -> v ∈ vs.

Lemma started_read t l : starts_read t (started t l) l.
Proof.
  intros e v He Hk Hty Hv Hne. apply list_elem_of_omap. exists e. split; [by apply list_elem_of_filter|].
  rewrite Hty, Hv. cbn. unfold py_or, truthy. by rewrite (proj2 (String.eqb_neq _ _) Hne).
Qed.

(** A Task waits only on a run that it started. *)
Definition waits_in (vs : list string) (s : TaskState) : Prop :=
  forall v, s.(active_verification_id) = Some v -> v <> EmptyString -> v ∈ vs.

(** What an Event does to the verification on which a Task waits. *)
Lemma apply_active s e s' :
  apply_event s (task_event e) = Ok s' ->
  s'.(active_verification_id) = s.(active_verification_id) \/
  (text e.(event_type) = "TASK_VERIFICATION_STARTED" /\ s'.(active_verification_id) = get_str e.(payload) "verification_id").
Proof.
  unfold apply_event. change (e_type (task_event e)) with (text (event_type e)).
  destruct (mem _ CREATION_EVENTS); [destruct (negb _); intros [= <-]; by left|].
  destruct (negb (exists_ s)); [intros [= <-]; by left|].
  destruct (mem _ VERIFICATION_RESULT_EVENTS).
  - repeat case_match; intros [= <-]; by left.
  - destruct (negb _ || _); [intros [= <-]; by left|]. destruct (mem _ ANNOTATION_EVENTS).
    + destruct (String.eqb _ _); intros [= <-]; by left.
    + destruct (next_status _ _) as [st|]; [|done]. cbn. intros [= <-]. unfold apply_details. cbv zeta.
      change (e_type (task_event e)) with (text (event_type e)).
      destruct (mem (text (event_type e)) ["TASK_DELEGATED"; "TASK_REASSIGNED"]); [by left|].
      destruct (String.eqb (text (event_type e)) "TASK_PROGRESS_REPORTED"); [by left|].
      destruct (String.eqb (text (event_type e)) "IMPLEMENTATION_SUBMITTED"); [by left|].
      destruct (String.eqb_spec (text (event_type e)) "TASK_VERIFICATION_STARTED"); [right; by split|by left].
Qed.

Lemma waits_next t vs l s e s' :
  starts_read t vs l -> e ∈ l -> placed e t -> apply_event s (task_event e) = Ok s' -> waits_in vs s -> waits_in vs s'.
Proof.
  intros Hst He Hp Ha Hw v Hv Hne. destruct (apply_active _ _ _ Ha) as [E|[Hty E]]; rewrite E in Hv; [by apply Hw|].
  destruct Hp as [Hk _|w _ Hr _ _ _]; [by eapply Hst|]. unfold is_result in Hr. by rewrite Hty in Hr.
Qed.

(** The result of a run on which the Task does not wait. *)
Lemma result_of_other s e :
  is_result e = true -> get_str e.(payload) "verification_id" <> s.(active_verification_id) -> apply_event s (task_event e) = Ok s.
Proof.
  intros Hr Hv. pose proof (result_not_creation e Hr) as Hc. unfold apply_event.
  change (e_type (task_event e)) with (text (event_type e)). unfold is_result in Hr. unfold is_creation in Hc. rewrite Hr, Hc.
  destruct (negb (exists_ s)); [done|]. destruct (negb (bool_decide (e_task_id _ = _))); [done|].
  change (p_verification_id (e_payload (task_event e))) with (get_str e.(payload) "verification_id").
  by rewrite bool_decide_eq_false_2.
Qed.

Lemma keys_differ t v : task_key t <> run_key v.
Proof. unfold task_key, run_key. intros [= H _]. Qed.

Lemma run_key_inj v w : run_key v = run_key w -> v = w.
Proof. unfold run_key. intros H. apply lit_inj. congruence. Qed.

Lemma unfolded_events t vs l s :
  Forall well_placed l -> starts_read t vs l -> t <> EmptyString -> s.(task_id) = t -> waits_in vs s ->
  apply_events s (task_event <$> unfolded t vs l) = apply_events s (task_event <$> events_of t l).
Proof.
  intros Hw Hv Ht Hid Hact. revert s Hid Hact. induction Hw as [|e l He Hw IH]; intros s Hid Hact; [done|].
  assert (starts_read t vs l) as Hv' by (intros x v Hx; apply Hv; by right). specialize (IH Hv').
  unfold unfolded, events_of. cbn [fmap list_fmap concat List.filter]. fold (unfolded t vs l). fold (events_of t l).
  rewrite fmap_app, apply_events_app. unfold copies.
  destruct (about t e) eqn:Hab.
  - destruct (about_placed _ _ He Hab) as [_ Hpl]. pose proof Hpl as [Hk Hr|v Hk Hr Htid Hne Hp].
    + unfold of_task. rewrite Hk, bool_decide_eq_true_2 by done.
      assert (List.filter (fun v => of_run t v e) vs = []) as ->.
      { apply list_filter_nil. intros v _. unfold of_run. rewrite Hk, bool_decide_eq_false_2; [done|apply keys_differ]. }
      cbn [length Nat.add replicate fmap list_fmap apply_events]. destruct (apply_event s (task_event e)) as [s'|] eqn:Ha; [|done].
      cbn. apply IH; [by rewrite (apply_event_task_id _ _ _ Ha)|]. by eapply waits_next; [exact Hv|left| | |].
    + unfold of_task. rewrite bool_decide_eq_false_2 by (rewrite Hk; intros E; by apply (keys_differ t v)). cbn [Nat.add].
      destruct (length (List.filter (fun v => of_run t v e) vs)) as [|n] eqn:Hn; cbn [replicate fmap list_fmap apply_events app].
      * rewrite (result_of_other s e Hr); [by apply IH|]. rewrite Hp. intros E. apply length_zero_iff_nil in Hn.
        assert (v ∈ List.filter (fun v => of_run t v e) vs) as Hin; [|rewrite Hn in Hin; by apply elem_of_nil in Hin].
        apply list_elem_of_In, filter_In. split; [|unfold of_run; by rewrite Hk, Htid, !bool_decide_eq_true_2].
        by apply list_elem_of_In, Hact.
      * destruct (apply_event s (task_event e)) as [s'|] eqn:Ha; [|done].
        cbn [mbind res_bind]. rewrite (apply_repeat s' e n (result_twice s e s' Hr (result_not_creation e Hr) Ha)).
        cbn. apply IH; [by rewrite (apply_event_task_id _ _ _ Ha)|]. by eapply waits_next; [exact Hv|left| | |].
  - assert (replicate ((if of_task t e then 1 else 0) + length (List.filter (fun v => of_run t v e) vs)) e = [] \/ foreign e) as [->|Hf].
    { destruct He as [Hf|(t' & Hne & Hp)]; [by right|left].
      assert (of_task t e = false) as ->.
      { apply bool_decide_eq_false. intros Hk. destruct Hp as [Hk' Hr|v Hk' _ _ _ _]; rewrite Hk in Hk'.
        - assert (t = t') as <- by (apply lit_inj; unfold task_key in Hk'; congruence).
          rewrite (placed_about e t Hne) in Hab; [done|]. by apply Placed_task.
        - by apply (keys_differ t v). }
      assert (List.filter (fun v => of_run t v e) vs = []) as ->; [|done].
      apply list_filter_nil. intros v _. unfold of_run. apply andb_false_iff.
      destruct (bool_decide_reflect (aggregate_of e = run_key v)) as [Hk|]; [right|by left]. apply bool_decide_eq_false. intros Htid.
      pose proof (placed_concerned e t' Hne Hp) as Hco.
      destruct Hp as [Hk' _|v' Hk' _ Htid' _ _]; rewrite Hk in Hk'; [by apply (keys_differ t' v)|].
      assert (t = t') as <- by (apply lit_inj; congruence).
      unfold about in Hab. apply bool_decide_eq_false in Hab. congruence. }
    + by apply IH.
    + rewrite apply_repeat by (apply ignored; [done|by rewrite Hid]). cbn. by apply IH.
Qed.

(** [load_task] folds the Events about the Task. *)
Lemma load_fold t l :
  recorded_in_order l -> Forall well_placed l -> t <> EmptyString ->
  fold t (task_event <$> read t (started t l) l) = apply_events (initial_state t) (task_event <$> events_of t l).
Proof. intros Ho Hw Ht. rewrite fold_read by done. by apply unfolded_events; [|apply started_read| | |]. Qed.

(** ** The invariant *)

Definition is_join (e : HashChain.Event) : bool := String.eqb (text e.(event_type)) "TASK_JOIN_SATISFIED".

Record task_ok (t : string) (l : list HashChain.Event) (rows : Rows) (s : TaskState) : Prop := {
  ok_born : born (events_of t l);
  ok_fold : apply_events (initial_state t) (task_event <$> events_of t l) = Ok s;
  ok_row : exists r, rows !! t = Some r /\ row_shows r s;
  ok_active : forall v, s.(active_verification_id) = Some v -> v <> EmptyString /\ v ∈ started t l;
  ok_joined : length (List.filter is_join (events_of t l)) = if s.(join_satisfied) then 1%nat else 0%nat }.

Record inv (l : list HashChain.Event) (rows : Rows) : Prop := {
  inv_order : recorded_in_order l;
  inv_positive : Forall (fun e => 0 < e.(recorded_seq)) l;
  inv_placed : Forall well_placed l;
  inv_tasks t : t <> EmptyString -> (events_of t l = [] /\ rows !! t = None) \/ exists s, task_ok t l rows s }.

Lemma about_events_app t l1 l2 : events_of t (l1 ++ l2) = events_of t l1 ++ events_of t l2.
Proof. apply List.filter_app. Qed.

Lemma started_app t l1 l2 : started t (l1 ++ l2) = started t l1 ++ started t l2.
Proof. unfold started, verification_ids. by rewrite in_stream_app, omap_app. Qed.

Lemma foreign_not_task e t : foreign e -> aggregate_of e <> task_key t.
Proof.
  intros [Hc _] (_ & Ha & _)%aggregate_fields. unfold concerned in Hc. rewrite Ha, text_lit in Hc. done.
Qed.

Lemma foreign_not_about e t : foreign e -> about t e = false.
Proof. intros [Hc _]. unfold about. by rewrite Hc, bool_decide_eq_false_2. Qed.

Lemma events_of_foreign t l : Forall foreign l -> events_of t l = [].
Proof. intros H. apply list_filter_nil. intros e He. rewrite Forall_forall in H. by apply foreign_not_about, H. Qed.

Lemma in_stream_foreign t l : Forall foreign l -> in_stream (task_key t) l = [].
Proof.
  intros H. unfold in_stream. induction H as [|e l He _ IH]; [done|]. rewrite filter_cons, decide_False; [done|].
  by apply foreign_not_task.
Qed.

Lemma foreign_not_result e t v :
  foreign e -> t <> EmptyString -> aggregate_of e = run_key v -> is_result e = true -> e.(HashChain.task_id) <> Some (lit t).
Proof.
  intros [Hc _] Ht (_ & Ha & _)%aggregate_fields Hr Hid. unfold concerned in Hc. rewrite Ha, text_lit, Hid in Hc.
  change (String.eqb "verification_run" "task") with false in Hc. cbn iota in Hc. unfold is_result in Hr. rewrite Hr in Hc.
  change (text <$> Some (lit t)) with (Some (text (lit t))) in Hc. rewrite text_lit in Hc. unfold py_or, truthy in Hc.
  by rewrite (proj2 (String.eqb_neq _ _) Ht) in Hc.
Qed.

Lemma started_foreign t l : Forall foreign l -> started t l = [].
Proof. intros H. unfold started. by rewrite in_stream_foreign. Qed.

Lemma task_ok_foreign t l f rows s : task_ok t l rows s -> Forall foreign f -> task_ok t (l ++ f) rows s.
Proof.
  intros [H1 H2 H3 H4 H5] Hf. split; rewrite ?about_events_app, ?(events_of_foreign t f Hf), ?app_nil_r; try done.
  by rewrite started_app, (started_foreign t f Hf), app_nil_r.
Qed.

Lemma inv_foreign l f rows :
  inv l rows -> Forall foreign f -> recorded_in_order (l ++ f) -> Forall (fun e => 0 < e.(recorded_seq)) f -> inv (l ++ f) rows.
Proof.
  intros [H1 H2 H3 H5] Hf Ho Hp. split; [done|by apply Forall_app| |].
  - apply Forall_app. split; [done|]. eapply Forall_impl; [exact Hf|]. intros e He. by left.
  - intros t Ht. destruct (H5 t Ht) as [[He Hr]|[s Hs]].
    + left. by rewrite about_events_app, He, (events_of_foreign t f Hf).
    + right. exists s. by apply task_ok_foreign.
Qed.

Lemma apply_events_task_id s evs s' : apply_events s evs = Ok s' -> s'.(task_id) = s.(task_id).
Proof.
  revert s. induction evs as [|e evs IH]; intros s; cbn; [by intros [= <-]|].
  intros (s1 & H1 & H2)%res_bind_ok. by rewrite (IH _ H2), (apply_event_task_id _ _ _ H1).
Qed.

Lemma task_ok_id t l rows s : task_ok t l rows s -> s.(task_id) = t.
Proof. intros H. by rewrite (apply_events_task_id _ _ _ (ok_fold _ _ _ _ H)). Qed.

Lemma task_ok_exists t l rows s : task_ok t l rows s -> s.(exists_) = true.
Proof. intros H. destruct (ok_row _ _ _ _ H) as (r & _ & Hr). apply Hr. Qed.

Lemma in_order_snoc l e :
  recorded_in_order l -> Forall (fun x => x.(recorded_seq) < e.(recorded_seq)) l -> recorded_in_order (l ++ [e]).
Proof.
  induction 1 as [|x l Hl IH Hx]; intros H; cbn; [repeat constructor|]. apply Forall_cons in H as [H1 H2].
  constructor; [by apply IH|]. apply Forall_app. split; [done|by repeat constructor].
Qed.

Lemma apply_joined s e s' t :
  apply_event s (task_event e) = Ok s' -> is_creation e = false -> placed e t -> s.(task_id) = t -> s.(exists_) = true ->
  s'.(join_satisfied) = s.(join_satisfied) || is_join e.
Proof.
  intros H Hc Hp Hid He. revert H. unfold apply_event. change (e_type (task_event e)) with (text (event_type e)).
  unfold is_creation in Hc. rewrite Hc, He. cbn [negb]. destruct Hp as [Hk Hr|v Hk Hr _ _ _]; unfold is_result in Hr; rewrite Hr.
  - apply aggregate_fields in Hk as (_ & Hty & Hag). cbn [task_event e_aggregate_id e_aggregate_type].
    rewrite Hty, Hag, !text_lit, Hid, !bool_decide_eq_true_2 by done. cbn [negb orb].
    change (mem (text (event_type e)) ANNOTATION_EVENTS) with (bool_decide (text (event_type e) ∈ ["TASK_JOIN_SATISFIED"])).
    rewrite (bool_decide_ext _ (text (event_type e) = "TASK_JOIN_SATISFIED")) by (by rewrite list_elem_of_singleton).
    unfold is_join. destruct (String.eqb_spec (text (event_type e)) "TASK_JOIN_SATISFIED") as [Hj|Hj].
    + rewrite bool_decide_eq_true_2 by done. intros [= <-]. by rewrite orb_true_r.
    + rewrite bool_decide_eq_false_2 by done. destruct (next_status _ _) as [st|]; [|done]. cbn. intros [= <-]. rewrite orb_false_r.
      unfold apply_details. by repeat case_match.
  - assert (is_join e = false) as ->.
    { unfold is_join. apply String.eqb_neq. intros E. rewrite E in Hr. done. }
    rewrite orb_false_r. repeat case_match; by intros [= <-].
Qed.

Lemma started_snoc t e v :
  aggregate_of e = task_key t -> text e.(event_type) = "TASK_VERIFICATION_STARTED" ->
  get_str e.(payload) "verification_id" = Some v -> v <> EmptyString -> started t [e] = [v].
Proof.
  intros Hk Hty Hv Hne. unfold started, verification_ids. rewrite in_stream_one, Hk, decide_True by done.
  cbn [omap list_omap]. rewrite Hty, Hv. cbn. unfold py_or, truthy. by rewrite (proj2 (String.eqb_neq _ _) Hne).
Qed.

(** One more Event of a Task, and its row. *)
Lemma inv_push l rows e t s s' at_ :
  inv l rows -> t <> EmptyString -> task_ok t l rows s -> placed e t -> is_creation e = false ->
  apply_event s (task_event e) = Ok s' ->
  Forall (fun x => x.(recorded_seq) < e.(recorded_seq)) l -> 0 < e.(recorded_seq) ->
  (text e.(event_type) = "TASK_VERIFICATION_STARTED" -> forall v, get_str e.(payload) "verification_id" = Some v -> v <> EmptyString) ->
  (is_join e = true -> s.(join_satisfied) = false) ->
  inv (l ++ [e]) (write_state s' at_ rows).
Proof.
  intros [H1 H2 H3 H5] Ht Hok Hp Hc Ha Hlt Hpos Hstart Hjoin.
  pose proof (task_ok_id _ _ _ _ Hok) as Hid. pose proof (task_ok_exists _ _ _ _ Hok) as Hex.
  assert (s'.(task_id) = t) as Hid' by (by rewrite (apply_event_task_id _ _ _ Ha)).
  assert (events_of t [e] = [e]) as Hev by (unfold events_of; cbn [List.filter]; by rewrite (placed_about e t Ht Hp)).
  split; [by apply in_order_snoc|apply Forall_app; by split; [|constructor]|apply Forall_app; split; [done|]|].
  { constructor; [|constructor]. right. by exists t. }
  - intros u Hu. destruct (decide (u = t)) as [->|Hne]; [right; exists s'|].
    + destruct Hok as [[(c & rest & Hb & Hcc & Hag & Htm & Hrest)] Hf (r & Hr & Hs) Hact Hj]. split.
      * split. exists c, (rest ++ [e]). rewrite about_events_app, Hev, Hb. split_and!; try done.
        apply Forall_app. split; [done|by repeat constructor].
      * rewrite about_events_app, Hev, fmap_app, apply_events_app, Hf. cbn. by rewrite Ha.
      * unfold write_state. rewrite Hid', lookup_insert_eq, Hr. eexists. split; [reflexivity|]. by eapply merge_shows.
      * intros v Hv. destruct (apply_active _ _ _ Ha) as [Eq|[Hty Eq]]; rewrite Eq in Hv.
        -- destruct (Hact v Hv) as [Hne Hin]. split; [done|]. rewrite started_app. apply elem_of_app. by left.
        -- pose proof (Hstart Hty v Hv) as Hne. split; [done|]. rewrite started_app. apply elem_of_app. right.
           destruct Hp as [Hk _|w Hk Hr' _ _ _]; [|unfold is_result in Hr'; rewrite Hty in Hr'; done].
           rewrite (started_snoc t e v) by done. by left.
      * rewrite about_events_app, Hev, List.filter_app, length_app, Hj, (apply_joined _ _ _ _ Ha Hc Hp Hid Hex). cbn [List.filter].
        destruct (is_join e) eqn:Hje; [rewrite (Hjoin eq_refl); done|rewrite orb_false_r; cbn; lia].
    + assert (events_of u [e] = []) as Heu.
      { unfold events_of. cbn [List.filter]. unfold about. rewrite (placed_concerned e t Ht Hp), bool_decide_eq_false_2; [done|congruence]. }
      assert (write_state s' at_ rows !! u = rows !! u) as Hrow
        by (unfold write_state; rewrite Hid'; by rewrite lookup_insert_ne by done).
      destruct (H5 u Hu) as [[He Hr]|[su [Hb Hf (r & Hr & Hs) Hact Hj]]]; [left; by rewrite about_events_app, He, Heu, Hrow|right].
      exists su. split; rewrite ?about_events_app, ?Heu, ?app_nil_r, ?Hrow; try done; [by exists r|].
      intros v Hv. destruct (Hact v Hv) as [Hn Hin]. split; [done|]. rewrite started_app. apply elem_of_app. by left.
Qed.

(** A result that the fold of the Task passes over, recorded without writing the row. *)
Lemma inv_judged l rows e t s :
  inv l rows -> t <> EmptyString -> task_ok t l rows s -> placed e t -> is_result e = true -> apply_event s (task_event e) = Ok s ->
  Forall (fun x => x.(recorded_seq) < e.(recorded_seq)) l -> 0 < e.(recorded_seq) -> inv (l ++ [e]) rows.
Proof.
  intros [H1 H2 H3 H5] Ht Hok Hp Hr Ha Hlt Hpos. pose proof (result_not_creation e Hr) as Hc.
  split; [by apply in_order_snoc|apply Forall_app; by split; [|constructor]|apply Forall_app; split; [done|]|].
  { constructor; [|constructor]. right. by exists t. }
  assert (is_join e = false) as Hj.
  { unfold is_join. apply String.eqb_neq. intros E. unfold is_result in Hr. by rewrite E in Hr. }
  intros u Hu. destruct (decide (u = t)) as [->|Hne]; [right; exists s|].
  - assert (events_of t [e] = [e]) as Hev by (unfold events_of; cbn [List.filter]; by rewrite (placed_about e t Ht Hp)).
    destruct Hok as [[(c & rest & Hb & Hcc & Hag & Htm & Hrest)] Hf Hrow Hact Hjn]. split; try done.
    + split. exists c, (rest ++ [e]). rewrite about_events_app, Hev, Hb. split_and!; try done.
      apply Forall_app. split; [done|by repeat constructor].
    + rewrite about_events_app, Hev, fmap_app, apply_events_app, Hf. cbn. by rewrite Ha.
    + intros v Hv. destruct (Hact v Hv) as [Hne Hin]. split; [done|]. rewrite started_app. apply elem_of_app. by left.
    + rewrite about_events_app, Hev, List.filter_app, length_app, Hjn. cbn [List.filter]. rewrite Hj. cbn. lia.
  - assert (events_of u [e] = []) as Heu.
    { unfold events_of. cbn [List.filter]. unfold about. rewrite (placed_concerned e t Ht Hp), bool_decide_eq_false_2; [done|congruence]. }
    destruct (H5 u Hu) as [[He Hr0]|[su [Hb Hf Hrow Hact Hjn]]]; [left; by rewrite about_events_app, He, Heu|right].
    exists su. split; rewrite ?about_events_app, ?Heu, ?app_nil_r; try done.
    intros v Hv. destruct (Hact v Hv) as [Hn Hin]. split; [done|]. rewrite started_app. apply elem_of_app. by left.
Qed.

(** The first Event of a Task, and its row. *)
Lemma inv_create l rows e t :
  inv l rows -> t <> EmptyString -> events_of t l = [] -> rows !! t = None -> aggregate_of e = task_key t -> is_creation e = true ->
  truthy (Some (text e.(occurred_at))) = true -> Forall (fun x => x.(recorded_seq) < e.(recorded_seq)) l -> 0 < e.(recorded_seq) ->
  inv (l ++ [e]) (write_state (apply_creation (initial_state t) (task_event e)) (Some (text e.(occurred_at))) rows).
Proof.
  intros [H1 H2 H3 H5] Ht Hnil Hrow Hk Hc Htm Hlt Hpos. set (s := apply_creation _ _).
  assert (is_result e = false) as Hr by (destruct (is_result e) eqn:E; [by rewrite (result_not_creation e E) in Hc|done]).
  assert (placed e t) as Hp by (by apply Placed_task). assert (is_join e = false) as Hj.
  { unfold is_join, is_creation in *. apply String.eqb_neq. intros E. rewrite E in Hc. done. }
  assert (events_of t [e] = [e]) as Hev by (unfold events_of; cbn [List.filter]; by rewrite (placed_about e t Ht Hp)).
  split; [by apply in_order_snoc|apply Forall_app; by split; [|constructor]|apply Forall_app; split; [done|]|].
  { constructor; [|constructor]. right. by exists t. }
  - intros u Hu. destruct (decide (u = t)) as [->|Hne].
    + right. exists s.
      destruct (row_step_creation t e (placed_about e t Ht Hp) Hc Htm) as (s' & r & Ha & Hr0 & Hs & _).
      { apply aggregate_fields in Hk as (_ & -> & _). apply text_lit. }
      assert (s' = s) as ->.
      { revert Ha. unfold apply_event. change (e_type (task_event e)) with (text (event_type e)). unfold is_creation in Hc. rewrite Hc.
        destruct (negb _) eqn:E; [|by intros [= <-]]. apply negb_true_iff, bool_decide_eq_false in E. destruct E. cbn.
        apply aggregate_fields in Hk as (_ & _ & ->). by rewrite text_lit. }
      split.
      * split. exists e, []. rewrite about_events_app, Hnil, Hev. split_and!; try done.
        apply aggregate_fields in Hk as (_ & -> & _). apply text_lit.
      * rewrite about_events_app, Hnil, Hev. cbn [app fmap list_fmap apply_events]. by rewrite Ha.
      * unfold write_state. change (task_id s) with t. rewrite lookup_insert_eq, Hrow. eexists. split; [reflexivity|].
        by destruct Hs as [_ Hex Hcr]; split.
      * intros v [=].
      * rewrite about_events_app, Hnil, Hev. cbn [app List.filter]. by rewrite Hj.
    + assert (events_of u [e] = []) as Heu.
      { unfold events_of. cbn [List.filter]. unfold about. rewrite (placed_concerned e t Ht Hp), bool_decide_eq_false_2; [done|congruence]. }
      assert (write_state s (Some (text (occurred_at e))) rows !! u = rows !! u) as Hrow'
        by (unfold write_state; change (task_id s) with t; by rewrite lookup_insert_ne by done).
      destruct (H5 u Hu) as [[He Hr0]|[su [Hb Hf (r & Hr0 & Hs) Hact Hjn]]]; [left; by rewrite about_events_app, He, Heu, Hrow'|right].
      exists su. split; rewrite ?about_events_app, ?Heu, ?app_nil_r, ?Hrow'; try done; [by exists r|].
      intros v Hv. destruct (Hact v Hv) as [Hn Hin]. split; [done|]. rewrite started_app. apply elem_of_app. by left.
Qed.

Lemma in_stream_filter k l : in_stream k l = List.filter (fun e => bool_decide (aggregate_of e = k)) l.
Proof.
  unfold in_stream. induction l as [|e l IH]; [done|]. rewrite filter_cons. cbn [List.filter]. rewrite IH.
  case_decide; [by rewrite bool_decide_eq_true_2|by rewrite bool_decide_eq_false_2].
Qed.

Lemma filter_filter {A} (f g : A -> bool) l : List.filter f (List.filter g l) = List.filter (fun x => g x && f x) l.
Proof. induction l as [|x l IH]; [done|]. cbn. destruct (g x); cbn; by rewrite IH. Qed.

Lemma read_stream t l :
  in_stream (task_key t) l ++ concat ((fun v => List.filter (fun e => bool_decide (e.(HashChain.task_id) = Some (lit t)))
    (in_stream (run_key v) l)) <$> verification_ids (in_stream (task_key t) l)) = read t (started t l) l.
Proof.
  unfold read, started. f_equal; [apply in_stream_filter|]. f_equal. apply list_fmap_ext. intros i v _.
  by rewrite in_stream_filter, filter_filter.
Qed.

Lemma stream_about t l e : t <> EmptyString -> Forall well_placed l -> e ∈ in_stream (task_key t) l -> e ∈ events_of t l.
Proof.
  intros Ht Hw [Hk He]%list_elem_of_filter. apply list_elem_of_In, filter_In. split; [by apply list_elem_of_In|].
  rewrite Forall_forall in Hw. destruct (Hw e He) as [Hf|(t' & Hne & Hp)]; [by destruct (foreign_not_task e t Hf)|].
  assert (t' = t) as ->; [|by apply placed_about]. destruct Hp as [Hk' _|v Hk' _ _ _ _]; rewrite Hk in Hk'.
  - apply lit_inj. unfold task_key in Hk'. congruence.
  - by destruct (keys_differ t v).
Qed.
End events.

(** ** The commands *)

Section commands.
Context {ES : Type} {ELI : EventLogI ES} {ERI : EventReadI ES} {W : Type}.
Context (sha256 : list N -> ustr) (py_str : json -> ustr) (isoformat_utc : Z -> ustr) (catalog : PolicyCatalog).
Context (terminal_hooks : string -> tx (W * ES) unit) (on_implementation_submitted : string -> tx (W * ES) unit).
Context (expected_document_id : string -> W -> option string) (enforce_limits : string -> string -> tx W unit).
Context (ws : string).

#[local] Notation Db := (@TaskCommands.Db ES W).
#[local] Notation rows db := (db.(projection)).

(** Events of other aggregates were recorded after [l]. *)
Record appends (l l' : list HashChain.Event) : Prop := {
  ap_log : exists f, l' = l ++ f /\ Forall foreign f /\ Forall (fun e => 0 < e.(recorded_seq)) f;
  ap_order : recorded_in_order l -> recorded_in_order l' }.

Lemma appends_refl l : appends l l.
Proof. split; [exists []; by rewrite app_nil_r|done]. Qed.

Lemma appends_trans l1 l2 l3 : appends l1 l2 -> appends l2 l3 -> appends l1 l3.
Proof.
  intros [(f & -> & H1 & H2) Ho1] [(g & -> & H3 & H4) Ho2]. split; [|by auto].
  exists (f ++ g). rewrite app_assoc. split_and!; [done|by apply Forall_app..].
Qed.

Lemma appends_inv l l' r : inv ws l r -> appends l l' -> inv ws l' r.
Proof. intros Hi [(f & -> & Hf & Hp) Ho]. apply inv_foreign; try done. apply Ho, Hi. Qed.

(** What a hook may do: append Events of its own. *)
Definition well_behaved {A} (m : tx (W * ES) A) : Prop := forall w s a w' s',
  el_ok s -> m (w, s) = Ok (a, (w', s')) -> el_ok s' /\ appends (el_log s) (el_log s').

(** A step that leaves the Tasks alone. *)
Definition quiet {A} (m : tx Db A) : Prop := forall db a db',
  el_ok (store db) -> m db = Ok (a, db') ->
  el_ok (store db') /\ rows db' = rows db /\ edges db' = edges db /\ appends (log db) (log db').

Lemma quiet_bind {A B} (m : tx Db A) (f : A -> tx Db B) : quiet m -> (forall a, quiet (f a)) -> quiet (m ≫= f).
Proof.
  intros Hm Hf db b db' Hok (a & db1 & H1 & H2)%tx_bind_ok. destruct (Hm _ _ _ Hok H1) as (Hok1 & Hr1 & He1 & Ha1).
  destruct (Hf _ _ _ _ Hok1 H2) as (Hok2 & Hr2 & He2 & Ha2). split_and!; [done|by rewrite Hr2|by rewrite He2|by eapply appends_trans].
Qed.

Lemma quiet_same {A} (m : tx Db A) :
  (forall db a db', m db = Ok (a, db') -> store db' = store db /\ rows db' = rows db /\ edges db' = edges db) -> quiet m.
Proof.
  intros H db a db' Hok Hm. destruct (H _ _ _ Hm) as (Hs & Hr & He). unfold log. rewrite Hs. split_and!; [done..|apply appends_refl].
Qed.

Lemma quiet_ret {A} (a : A) : quiet (mret a).
Proof. apply quiet_same. by intros db b db' [_ <-]%tx_ret_ok. Qed.

Lemma quiet_hook {A} (m : tx (W * ES) A) : well_behaved m -> quiet (hook m).
Proof.
  intros Hm db a db' Hok ([w s] & H & ->)%zoom_ok. destruct (Hm _ _ _ _ _ Hok H) as [H1 H2]. by split_and!.
Qed.

(** Appending to the Event store. *)
Lemma task_append_ok r (db : Db) a db' :
  el_ok (store db) -> plain r -> TaskCommands._append r db = Ok (a, db') ->
  exists s', db' = with_store s' db /\ el_ok s' /\
    (a.(replayed) = true /\ el_log s' = log db \/
     a.(replayed) = false /\ exists e, el_log s' = log db ++ [e] /\ el_get s' a.(a_event_id) = Some e /\ stores r a e /\
       Forall (fun x => x.(recorded_seq) < e.(recorded_seq)) (log db)) /\
    (a.(replayed) = false -> forall x, r.(r_expected_seq) = Some x ->
       x = Z.of_nat (length (in_stream (aggregate_of_request r) (log db))) + 1).
Proof.
  intros Hok Hp. unfold TaskCommands._append. destruct (el_append r (store db)) as [[x s']|] eqn:E; [|done].
  intros [= <- <-]. exists s'. split; [done|]. split; [by eapply el_append_ok|].
  pose proof (el_append_effect _ _ _ _ Hok Hp E) as Heff. unfold log.
  destruct (replayed x) eqn:Hr; (split; [|intros Hf]).
  - left. split; [done|]. inversion Heff; congruence.
  - done.
  - right. split; [done|]. by eapply el_recorded.
  - inversion Heff as [|e _ _ _ _ _ Hseq Hexp]; [congruence|]. intros y Hy. by rewrite (Hexp y Hy), Hseq.
Qed.

Lemma foreign_stored r a e ty agg :
  stores r a e -> r.(r_aggregate_type) = lit agg -> r.(r_type) = lit ty -> agg <> "task" ->
  ty ∉ VERIFICATION_RESULT_EVENTS -> ty ∉ CREATION_EVENTS -> foreign e.
Proof.
  intros [[Hag _ Hty] _ _ _ _ _ _ _] Ha Ht Hne Hr Hc. apply aggregate_fields in Hag as (_ & Hag & _). rewrite Ha in Hag. rewrite Ht in Hty.
  split.
  - unfold concerned. rewrite Hag, Hty, !text_lit, (proj2 (String.eqb_neq _ _) Hne). cbn iota. by rewrite (proj2 (mem_false _ _) Hr).
  - unfold is_creation. rewrite Hty, text_lit. by apply mem_false.
Qed.

Lemma appends_one l e :
  foreign e -> 0 < e.(recorded_seq) -> Forall (fun x => x.(recorded_seq) < e.(recorded_seq)) l -> appends l (l ++ [e]).
Proof. intros Hf Hp Hlt. split; [exists [e]; split_and!; [done|by constructor|by constructor]|]. intros Ho. by apply in_order_snoc. Qed.

Lemma quiet_append r ty agg :
  plain r -> r.(r_aggregate_type) = lit agg -> r.(r_type) = lit ty -> agg <> "task" ->
  ty ∉ VERIFICATION_RESULT_EVENTS -> ty ∉ CREATION_EVENTS -> quiet (TaskCommands._append r).
Proof.
  intros Hp Ha Ht Hne Hr Hc db a db' Hok H. destruct (task_append_ok _ _ _ _ Hok Hp H) as (s' & -> & Hok' & Hcase & _).
  split; [done|]. split; [done|]. split; [done|]. unfold log at 2. cbn [store with_store with_inbox TaskCommands.inbox event_store].
  destruct Hcase as [[_ ->]|(_ & e & -> & _ & Hst & Hlt)]; [apply appends_refl|].
  apply appends_one; [by eapply foreign_stored|by apply Hst|done].
Qed.

(** The same for the work inbox. *)
#[local] Existing Instance inbox_store.

Definition quiet_inbox {A} (m : tx (Inbox.Db (ES := ES)) A) : Prop := forall db a db',
  el_ok db.(event_store) -> m db = Ok (a, db') ->
  el_ok db'.(event_store) /\ appends (el_log db.(event_store)) (el_log db'.(event_store)).

Lemma quiet_zoom {A} (m : tx Inbox.Db A) : quiet_inbox m -> quiet (zoom TaskCommands.inbox with_inbox m).
Proof. intros Hm db a db' Hok (i & H & ->)%zoom_ok. destruct (Hm _ _ _ Hok H) as [H1 H2]. by split_and!. Qed.

Lemma inbox_bind {A B} (m : tx Inbox.Db A) (f : A -> tx Inbox.Db B) :
  quiet_inbox m -> (forall a, quiet_inbox (f a)) -> quiet_inbox (m ≫= f).
Proof.
  intros Hm Hf db b db' Hok (a & db1 & H1 & H2)%tx_bind_ok. destruct (Hm _ _ _ Hok H1) as [Hok1 Ha1].
  destruct (Hf _ _ _ _ Hok1 H2) as [Hok2 Ha2]. split; [done|by eapply appends_trans].
Qed.

Lemma inbox_same {A} (m : tx Inbox.Db A) :
  (forall db a db', m db = Ok (a, db') -> db'.(event_store) = db.(event_store)) -> quiet_inbox m.
Proof. intros H db a db' Hok Hm. rewrite (H _ _ _ Hm). split; [done|apply appends_refl]. Qed.

Lemma inbox_append item ty actor op key body :
  no_floats (JObj body) = true -> ty ∉ VERIFICATION_RESULT_EVENTS -> ty ∉ CREATION_EVENTS ->
  quiet_inbox (Inbox._append item ty actor op key body).
Proof.
  intros Hnf Hr Hc db a db' Hok. unfold Inbox._append. cbn [es_append inbox_store].
  destruct (el_append _ _) as [[x s']|] eqn:E; [|done]. intros [= <- <-]. cbn [event_store].
  assert (plain (append_request item ty actor op key body)) as Hp by done. split; [by eapply el_append_ok|].
  destruct (replayed x) eqn:Hrep.
  - pose proof (el_append_effect _ _ _ _ Hok Hp E) as Heff. inversion Heff; [apply appends_refl|congruence].
  - destruct (el_recorded _ _ _ _ Hok Hp E Hrep) as (e & -> & _ & Hst & Hlt). apply appends_one; [|by apply Hst|done].
    by eapply (foreign_stored _ _ _ ty "work_item").
Qed.

Lemma inbox_load w : quiet_inbox (Inbox.load w).
Proof. apply inbox_same. intros db a db'. unfold Inbox.load. by destruct (_ !! _); [intros [= _ <-]|]. Qed.

Lemma inbox_cancel w reason actor now : quiet_inbox (Inbox.cancel w reason actor now).
Proof.
  unfold Inbox.cancel. apply inbox_bind; [apply inbox_load|intros item]. apply inbox_bind; [apply inbox_same; by intros ??? [_ <-]%lift_ok|intros st].
  apply inbox_bind; [apply inbox_same; by intros ??? [= _ <-]|intros _].
  apply inbox_bind; [|intros _; apply inbox_load]. apply inbox_append; [done|by apply (bool_decide_unpack _)..].
Qed.

Lemma inbox_guard b code : quiet_inbox (guard_tx b code).
Proof. apply inbox_same. by intros ??? [_ <-]%guard_tx_ok. Qed.

Lemma inbox_enqueue hex now q : quiet_inbox (Inbox.enqueue isoformat_utc hex now q).
Proof.
  unfold Inbox.enqueue. do 2 (apply inbox_bind; [apply inbox_guard|intros _]).
  apply inbox_bind; [apply inbox_same; by intros ??? [_ <-]%gets_ok|intros [item|]].
  { apply inbox_bind; [apply inbox_guard|intros _]. apply inbox_same. by intros ??? [_ <-]%tx_ret_ok. }
  apply inbox_bind; [apply inbox_same; by intros ??? [_ <-]%lift_ok|intros bytes].
  apply inbox_bind; [apply inbox_guard|intros _]. cbv zeta.
  apply inbox_bind; [apply inbox_same; intros db a db'; unfold insert_item; by destruct (_ !! _); [|intros [= _ <-]]|intros _].
  apply inbox_bind; [apply inbox_load|intros item].
  apply inbox_bind; [|intros _; try apply inbox_load; apply inbox_same; by intros ??? [_ <-]%tx_ret_ok].
  apply inbox_append; [|by apply (bool_decide_unpack _)..]. cbn. by destruct (q_task_id q), (q_brainstorm_id q).
Qed.

(** ** What a command keeps *)

Record good (db : Db) : Prop := { good_store : el_ok (store db); good_inv : inv ws (log db) (rows db) }.

(** The log grew by Events that create no Task; no edge was inserted. *)
Record grows (db db' : Db) : Prop := {
  gr_log : exists x, log db' = log db ++ x /\ Forall (fun e => is_creation e = false) x;
  gr_edges : edges db' = edges db }.

Lemma task_grows_refl db db' : log db' = log db -> edges db' = edges db -> grows db db'.
Proof. intros E ?. split; [|done]. exists []. by rewrite app_nil_r. Qed.

Lemma task_grows_trans db1 db2 db3 : grows db1 db2 -> grows db2 db3 -> grows db1 db3.
Proof.
  intros [(x & E1 & H1) F1] [(y & E2 & H2) F2]. split; [|congruence]. exists (x ++ y). rewrite E2, E1, app_assoc.
  split; [done|by apply Forall_app].
Qed.

Lemma appends_grows db db' : appends (log db) (log db') -> edges db' = edges db -> grows db db'.
Proof.
  intros [(f & E & Hf & _) _] He. split; [|done]. exists f. split; [done|]. eapply Forall_impl; [exact Hf|]. by intros e [].
Qed.

Definition keeps {A} (m : tx Db A) : Prop := forall db a db', good db -> m db = Ok (a, db') -> good db' /\ grows db db'.

Lemma quiet_good {A} (m : tx Db A) db a db' : quiet m -> good db -> m db = Ok (a, db') -> good db' /\ grows db db'.
Proof.
  intros Hm [Hok Hi] H. destruct (Hm _ _ _ Hok H) as (Hok' & Hr & He & Ha). split; [|by apply appends_grows].
  split; [done|]. rewrite Hr. by eapply appends_inv.
Qed.

Lemma quiet_keeps {A} (m : tx Db A) : quiet m -> keeps m.
Proof. intros Hm db a db'. by apply quiet_good. Qed.

Lemma task_keeps_bind {A B} (m : tx Db A) (f : A -> tx Db B) : keeps m -> (forall a, keeps (f a)) -> keeps (m ≫= f).
Proof.
  intros Hm Hf db b db' Hg (a & db1 & H1 & H2)%tx_bind_ok. destruct (Hm _ _ _ Hg H1) as [Hg1 G1], (Hf _ _ _ _ Hg1 H2) as [Hg2 G2].
  split; [done|by eapply task_grows_trans].
Qed.

Lemma keeps_same {A} (m : tx Db A) : (forall db a db', m db = Ok (a, db') -> db' = db) -> keeps m.
Proof. intros H db a db' Hg Hm. rewrite (H _ _ _ Hm). split; [done|by apply task_grows_refl]. Qed.

Lemma load_shows ctx t (db : Db) s db' :
  good db -> ctx.(ctx_workspace_id) = ws -> t <> EmptyString -> load_task ctx t db = Ok (s, db') ->
  db' = db /\ task_ok ws t (log db) (rows db) s.
Proof.
  intros [_ Hi] Hw Ht. unfold load_task. unfold stream at 1. rewrite Hw. change (lit ws, lit "task", lit t) with (task_key ws t).
  destruct (in_stream (task_key ws t) (log db)) as [|e0 l0] eqn:Es; [done|]. intros (s' & Hf & [= <- <-])%res_bind_ok.
  split; [done|]. unfold task_events, stream in Hf. rewrite Hw in Hf.
  change (lit ws, lit "task", lit t) with (task_key ws t) in Hf.
  change (fun v => List.filter (fun e => bool_decide (HashChain.task_id e = Some (lit t))) (in_stream (lit ws, lit "verification_run", lit v) (log db)))
    with (fun v => List.filter (fun e => bool_decide (HashChain.task_id e = Some (lit t))) (in_stream (run_key ws v) (log db))) in Hf.
  rewrite (read_stream ws t (log db)) in Hf. rewrite (load_fold ws) in Hf; [|apply Hi|apply Hi|done].
  destruct (inv_tasks _ _ _ Hi t Ht) as [[He _]|[s Hs]].
  - exfalso. assert (e0 ∈ events_of t (log db)) as Hin.
    { apply (stream_about ws); [done|apply Hi|]. rewrite Es. by left. }
    rewrite He in Hin. by apply elem_of_nil in Hin.
  - pose proof (ok_fold _ _ _ _ _ Hs) as Hf'. rewrite Hf in Hf'. by injection Hf' as ->.
Qed.

(** The events of a transition of the Task. *)
Record task_event_type (ty : string) : Prop := {
  tt_creation : ty ∉ CREATION_EVENTS; tt_result : ty ∉ VERIFICATION_RESULT_EVENTS; tt_join : ty <> "TASK_JOIN_SATISFIED" }.

Lemma stored_task r a e ty t :
  stores r a e -> aggregate_of_request r = task_key ws t -> r.(r_type) = lit ty -> ty ∉ VERIFICATION_RESULT_EVENTS ->
  placed ws e t /\ text e.(event_type) = ty /\ is_creation e = mem ty CREATION_EVENTS /\ is_join e = String.eqb ty "TASK_JOIN_SATISFIED".
Proof.
  intros [[Hag _ Hty] _ _ _ _ _ _ _] Ha Ht Hr. rewrite Ht in Hty. rewrite Ha in Hag.
  assert (text (event_type e) = ty) as E by (by rewrite Hty, text_lit). unfold is_creation, is_join. rewrite E.
  split_and!; try done. apply Placed_task; [done|]. unfold is_result. rewrite E. by apply mem_false.
Qed.

Lemma next_status_apply s e t st :
  placed ws e t -> s.(task_id) = t -> s.(exists_) = true -> task_event_type (text e.(event_type)) ->
  next_status s.(status) (text e.(event_type)) = Ok st ->
  exists s', apply_event s (task_event e) = Ok s' /\ with_status st s' = s'.
Proof.
  intros Hp Hid He [Hc Hr Hj] Hn. unfold apply_event. change (e_type (task_event e)) with (text (event_type e)).
  rewrite (proj2 (mem_false _ _) Hc), He, (proj2 (mem_false _ _) Hr). cbn [negb].
  destruct Hp as [Hk _|v _ Hr' _ _ _]; [|unfold is_result in Hr'; apply mem_spec in Hr'; done].
  apply aggregate_fields in Hk as (_ & Hty & Hag). cbn [task_event e_aggregate_id e_aggregate_type].
  rewrite Hty, Hag, !text_lit, Hid, !bool_decide_eq_true_2 by done. cbn [negb orb].
  rewrite (proj2 (mem_false _ ANNOTATION_EVENTS)) by (unfold ANNOTATION_EVENTS; by rewrite list_elem_of_singleton).
  rewrite Hn. cbn [mbind res_bind]. eexists. split; [reflexivity|]. unfold apply_details. by repeat case_match.
Qed.

(** A transition: the Event it records folds onto the state, and the row follows. *)
Lemma task_transition_ok env ctx scope s ty body (db : Db) a s' db' :
  (forall id, well_behaved (terminal_hooks id)) ->
  good db -> ctx.(ctx_workspace_id) = ws -> s.(task_id) <> EmptyString -> task_ok ws s.(task_id) (log db) (rows db) s ->
  task_event_type ty -> no_floats (JObj body) = true ->
  (ty = "TASK_VERIFICATION_STARTED" -> forall v, get_str body "verification_id" = Some v -> v <> EmptyString) ->
  _transition isoformat_utc terminal_hooks env ctx scope s ty body db = Ok ((a, s'), db') ->
  good db' /\ grows db db' /\
  (a.(replayed) = true /\ s' = s \/
   a.(replayed) = false /\ exists e f, log db' = log db ++ e :: f /\
     stores (request ctx "task" s.(task_id) ty scope ctx.(ctx_idempotency_key) ((lit "task_id", jtext s.(task_id)) :: body)
       s.(channel_id) (Some s.(task_id)) s.(last_event_id) (s.(last_aggregate_seq) + 1)) a e /\
     apply_event s (task_event e) = Ok s').
Proof.
  intros Hhook Hg Hw Ht Hs Hty Hnf Hstart. pose proof Hg as [Hok Hi]. unfold _transition.
  destruct (_replay_from_stream ctx (task_id s) scope db) as [x|] eqn:Erep.
  { intros [= <- <- <-]. split; [done|]. split; [by apply task_grows_refl|]. left. split; [|done]. unfold _replay_from_stream in Erep.
    destruct (find _ _); [|done]. by injection Erep as <-. }
  intros (st & d0 & [Hn <-]%lift_ok & H)%tx_bind_ok. cbv zeta in H. set (body' := (lit "task_id", _) :: body) in *.
  set (r := request _ _ _ _ _ _ _ _ _ _ _) in *. apply tx_bind_ok in H as (x & d1 & Ha & H).
  assert (plain r) as Hpl by (split; [|done]; exact Hnf).
  destruct (task_append_ok _ _ _ _ Hok Hpl Ha) as (s1 & -> & Hok1 & [[Hrep Hlog]|(Hrep & e & Hlog & Hget & Hst & Hlt)] & _); rewrite Hrep in H.
  { apply tx_ret_ok in H as [[= <- <-] <-]. split; [|split; [by apply task_grows_refl|by left]]. split; [done|].
    unfold log. cbn [store with_store with_inbox TaskCommands.inbox event_store]. by rewrite Hlog. }
  apply tx_bind_ok in H as (ev & d2 & [Hev <-]%gets_ok & H). cbn [store with_store with_inbox TaskCommands.inbox event_store] in Hev.
  rewrite Hget in Hev. subst ev. apply tx_bind_ok in H as (s'' & d2 & [Happ <-]%lift_ok & H). cbv zeta in H.
  assert (aggregate_of_request r = task_key ws (task_id s)) as Hagg by (unfold aggregate_of_request, task_key; cbn; by rewrite Hw).
  destruct (stored_task r x e ty (task_id s) Hst Hagg eq_refl (tt_result _ Hty)) as (Hp & Htext & Hcre & Hjn).
  rewrite (proj2 (mem_false _ _) (tt_creation _ Hty)) in Hcre. rewrite (proj2 (String.eqb_neq _ _) (tt_join _ Hty)) in Hjn.
  pose proof (task_ok_exists _ _ _ _ _ Hs) as Hex.
  destruct (next_status_apply s e (task_id s) st Hp eq_refl Hex) as (s0 & Happ0 & Hst0); [by rewrite Htext|by rewrite Htext|].
  rewrite Happ in Happ0. injection Happ0 as <-. rewrite Hst0 in H.
  apply tx_bind_ok in H as (? & d3 & Hh & H). apply tx_bind_ok in H as (? & d4 & <-%modify_ok & [[= <- <-] <-]%tx_ret_ok).
  assert (quiet (run_terminal_hooks terminal_hooks st (task_id s''))) as Hq.
  { unfold run_terminal_hooks. destruct (mem _ _); [by apply quiet_hook|apply quiet_ret]. }
  destruct (Hq (with_store s1 db) _ _ Hok1 Hh) as (Hok3 & Hr3 & He3 & Ha3). unfold log at 1 in Ha3.
  cbn [store with_store with_inbox TaskCommands.inbox event_store TaskCommands.projection] in Ha3, Hr3. rewrite Hlog in Ha3.
  assert (inv ws (log db ++ [e]) (write_state s'' (Some (text (occurred_at e))) (rows db))) as Hi'.
  { eapply (inv_push ws (log db) (rows db) e (task_id s) s s''); try done.
    - apply Hst.
    - intros Hty' v. rewrite Htext in Hty'. rewrite (st_payload _ _ _ Hst). exact (Hstart Hty' v).
    - by rewrite Hjn. }
  split; [split; [done|]|].
  - cbn [TaskCommands.projection with_projection]. rewrite Hr3. by eapply appends_inv.
  - destruct Ha3 as [(f & Hf & Hfo & _) _]. rewrite <- app_assoc in Hf. split.
    + split; [|exact He3]. exists (e :: f). split; [exact Hf|]. constructor; [done|]. eapply Forall_impl; [exact Hfo|]. by intros ? [].
    + right. split; [exact Hrep|]. exists e, f. split_and!; [exact Hf|exact Hst|exact Happ].
Qed.

Lemma text_nonempty (u : ustr) : u <> [] -> truthy (Some (text u)) = true.
Proof. by destruct u. Qed.

(** A Task without Events in its stream has none at all. *)
Lemma no_stream t (l : list HashChain.Event) r :
  inv ws l r -> t <> EmptyString -> in_stream (task_key ws t) l = [] -> events_of t l = [] /\ r !! t = None.
Proof.
  intros Hi Ht Hn. destruct (inv_tasks _ _ _ Hi t Ht) as [H|[s Hs]]; [done|exfalso].
  destruct (ok_born _ _ _ _ _ Hs) as [(c & rest & Hb & Hc & _)].
  assert (c ∈ events_of t l) as Hin by (rewrite Hb; by left). apply list_elem_of_In, filter_In in Hin as [Hin Hab].
  pose proof (inv_placed _ _ _ Hi) as Hpl. rewrite Forall_forall in Hpl. apply list_elem_of_In in Hin.
  destruct (about_placed ws c t (Hpl c Hin) Hab) as [_ [Hk _|v _ Hr _ _ _]].
  - assert (c ∈ in_stream (task_key ws t) l) as Hx by (by apply list_elem_of_filter). rewrite Hn in Hx. by apply elem_of_nil in Hx.
  - by rewrite (result_not_creation c Hr) in Hc.
Qed.

Lemma load_projection ctx t (db : Db) r s db' :
  load_task ctx t db = Ok (s, db') -> load_task ctx t (with_projection r db) = Ok (s, with_projection r db).
Proof.
  unfold load_task. change (stream ctx "task" t (with_projection r db)) with (stream ctx "task" t db).
  change (task_events ctx t (with_projection r db)) with (task_events ctx t db).
  destruct (stream ctx "task" t db); [done|]. intros (x & -> & [= <- _])%res_bind_ok. done.
Qed.

(** Loading a Task right after its next Event gives the next state. *)
Lemma load_next ctx t (db : Db) r s s' db' :
  el_ok (store db) -> inv ws (log db) r -> ctx.(ctx_workspace_id) = ws -> t <> EmptyString ->
  apply_events (initial_state t) (task_event <$> events_of t (log db)) = Ok s' ->
  load_task ctx t db = Ok (s, db') -> s = s' /\ db' = db.
Proof.
  intros Hok Hi Hw Ht Hf Hl. assert (good (with_projection r db)) as Hg by (by split).
  pose proof (load_projection _ _ _ r _ _ Hl) as Hl'. destruct (load_shows _ _ _ _ _ Hg Hw Ht Hl') as [_ Hs].
  pose proof (ok_fold _ _ _ _ _ Hs) as Hf'. change (log (with_projection r db)) with (log db) in Hf'. rewrite Hf in Hf'. split; [congruence|].
  unfold load_task in Hl. destruct (stream _ _ _ _); [done|]. by apply res_bind_ok in Hl as (x & _ & [= _ <-]).
Qed.

Lemma merge_same r s at_ : row_shows r s -> row_shows (merge_row r (new_row s at_)) s.
Proof. intros [Hr He Hc]. split; [|done|done]. rewrite Hr. unfold merge_row, new_row. cbn. f_equal. unfold py_or. by rewrite Hc. Qed.

(** Writing the row of a Task again. *)
Lemma inv_rewrite l r t s at_ : inv ws l r -> task_ok ws t l r s -> inv ws l (write_state s at_ r).
Proof.
  intros [H1 H2 H3 H5] Hs. split; try done. intros u Hu. pose proof (task_ok_id _ _ _ _ _ Hs) as Hid.
  destruct (decide (u = t)) as [->|Hne].
  - right. exists s. destruct Hs as [A B (x & C & D) F G]. split; try done. unfold write_state. rewrite Hid, lookup_insert_eq, C.
    eexists. split; [reflexivity|]. by apply merge_same.
  - assert (write_state s at_ r !! u = r !! u) as Hrow by (unfold write_state; rewrite Hid; by rewrite lookup_insert_ne by done).
    destruct (H5 u Hu) as [?|[su [A B C D F]]]; [left; by rewrite Hrow|right]. exists su. split; rewrite ?Hrow; done.
Qed.

Lemma task_next t (l : list HashChain.Event) r s e s' :
  task_ok ws t l r s -> t <> EmptyString -> placed ws e t -> apply_event s (task_event e) = Ok s' ->
  apply_events (initial_state t) (task_event <$> events_of t (l ++ [e])) = Ok s'.
Proof.
  intros Hs Ht Hp Ha. unfold events_of. rewrite List.filter_app. cbn [List.filter]. rewrite (placed_about ws e t Ht Hp).
  rewrite fmap_app, apply_events_app. fold (events_of t l). rewrite (ok_fold _ _ _ _ _ Hs). cbn. by rewrite Ha.
Qed.

(** The state of a Task is the one its Events fold to. *)
Lemma inv_task_state l r t s :
  inv ws l r -> t <> EmptyString -> apply_events (initial_state t) (task_event <$> events_of t l) = Ok s -> s.(exists_) = true ->
  task_ok ws t l r s.
Proof.
  intros Hi Ht Hf He. destruct (inv_tasks _ _ _ Hi t Ht) as [[Hn _]|[s0 Hs]].
  - rewrite Hn in Hf. injection Hf as <-. done.
  - pose proof (ok_fold _ _ _ _ _ Hs) as E. rewrite Hf in E. by injection E as ->.
Qed.

Lemma create_keeps env ctx scope id ty body channel :
  ctx.(ctx_workspace_id) = ws -> id <> EmptyString -> ty ∈ CREATION_EVENTS -> no_floats (JObj body) = true ->
  forall db a s db', good db -> create isoformat_utc env ctx scope id ty body channel db = Ok ((a, s), db') ->
  good db' /\ edges db' = edges db /\ task_ok ws id (log db') (rows db') s /\
  (a.(replayed) = true /\ log db' = log db \/
   a.(replayed) = false /\ exists e, log db' = log db ++ [e] /\ placed ws e id /\ e.(payload) = body /\
     s = apply_creation (initial_state id) (task_event e) /\ events_of id (log db) = []).
Proof.
  clear terminal_hooks on_implementation_submitted expected_document_id enforce_limits.
  intros Hw Hid Hty Hnf db a s db' Hg. pose proof Hg as [Hok Hi]. unfold create. set (r := request _ _ _ _ _ _ _ _ _ _ _).
  intros (x & d1 & Ha & H)%tx_bind_ok. assert (plain r) as Hpl by (by split).
  assert (aggregate_of_request r = task_key ws id) as Hagg by (unfold aggregate_of_request, task_key; cbn; by rewrite Hw).
  assert (ty ∉ VERIFICATION_RESULT_EVENTS) as Hnr.
  { unfold CREATION_EVENTS in Hty. unfold VERIFICATION_RESULT_EVENTS. set_solver. }
  destruct (task_append_ok _ _ _ _ Hok Hpl Ha) as (s1 & -> & Hok1 & [[Hrep Hlog]|(Hrep & e & Hlog & Hget & Hst & Hlt)] & Hseq).
  - apply tx_bind_ok in H as (y & d2 & Hl & H). rewrite Hrep in H.
    assert (good (with_store s1 db)) as Hg1.
    { split; [done|]. unfold log. cbn [store with_store with_inbox TaskCommands.inbox event_store]. by rewrite Hlog. }
    destruct (load_shows _ _ _ _ _ Hg1 Hw Hid Hl) as [-> Hy]. apply tx_bind_ok in H as (? & ? & [_ <-]%tx_ret_ok & [[= <- <-] <-]%tx_ret_ok).
    split_and!; [done|done|done|by left].
  - specialize (Hseq Hrep 1 eq_refl). rewrite Hagg in Hseq.
    assert (in_stream (task_key ws id) (log db) = []) as Hnil by (apply length_zero_iff_nil; lia).
    destruct (no_stream id _ _ Hi Hid Hnil) as [Hev Hrow].
    destruct (stored_task r x e ty id Hst Hagg eq_refl Hnr) as (Hp & Htext & Hcre & _). rewrite (proj2 (mem_spec _ _) Hty) in Hcre.
    assert (aggregate_of e = task_key ws id) as Hke by (by rewrite (rec_aggregate _ _ (st_records _ _ _ Hst))).
    pose proof (inv_create ws (log db) (rows db) e id Hi Hid Hev Hrow Hke Hcre (text_nonempty _ (st_time _ _ _ Hst)) Hlt (st_recorded _ _ _ Hst)) as Hi1.
    rewrite <- Hlog in Hi1. apply tx_bind_ok in H as (y & d2 & Hl & H). rewrite Hrep in H.
    assert (apply_events (initial_state id) (task_event <$> events_of id (el_log s1)) = Ok (apply_creation (initial_state id) (task_event e))) as Hfold.
    { rewrite Hlog. unfold events_of in *.
      rewrite List.filter_app, Hev. cbn [List.filter]. rewrite (placed_about ws e id Hid Hp). cbn [app fmap list_fmap apply_events].
      destruct (row_step_creation id e (placed_about ws e id Hid Hp) Hcre (text_nonempty _ (st_time _ _ _ Hst))) as (s0 & r0 & H0 & _).
      { apply aggregate_fields in Hke as (_ & -> & _). apply text_lit. }
      rewrite H0. cbn. revert H0. unfold apply_event. change (e_type (task_event e)) with (text (event_type e)). rewrite Htext.
      rewrite (proj2 (mem_spec _ _) Hty). cbn [task_event e_aggregate_id]. apply aggregate_fields in Hke as (_ & _ & ->).
      rewrite text_lit, bool_decide_eq_true_2 by done. by intros [= <-]. }
    destruct (load_next ctx id (with_store s1 db) _ y (apply_creation (initial_state id) (task_event e)) d2 Hok1 Hi1 Hw Hid) as [-> ->].
    { exact Hfold. }
    { exact Hl. }
    apply tx_bind_ok in H as (? & d3 & Hwr & [[= <- <-] <-]%tx_ret_ok). apply tx_bind_ok in Hwr as (at_ & d4 & [Hat <-]%gets_ok & <-%modify_ok).
    unfold _occurred_at in Hat. cbn [store with_store with_inbox TaskCommands.inbox event_store] in Hat. rewrite Hget in Hat. subst at_.
    split; [by split|]. split; [done|]. split; [by apply (inv_task_state _ _ _ _ Hi1)|].
    right. split; [done|]. exists e. split_and!; [exact Hlog|done|by rewrite (st_payload _ _ _ Hst)|done|done].
Qed.

Lemma texts_no_floats (l : list string) : forallb no_floats (jtext <$> l) = true.
Proof. apply forallb_forall. intros x Hx%list_elem_of_In. by apply list_elem_of_fmap in Hx as (y & -> & _). Qed.

Lemma no_empty_task ctx (db : Db) s db' :
  good db -> ctx.(ctx_workspace_id) = ws -> load_task ctx EmptyString db <> Ok (s, db').
Proof.
  intros [_ Hi] Hw. unfold load_task, stream. rewrite Hw. change (lit ws, lit "task", lit "") with (task_key ws "").
  destruct (in_stream (task_key ws "") (log db)) as [|e l] eqn:E; [done|]. exfalso.
  assert (e ∈ in_stream (task_key ws "") (log db)) as [Hk He]%list_elem_of_filter by (rewrite E; by left).
  pose proof (inv_placed _ _ _ Hi) as Hp. rewrite Forall_forall in Hp. destruct (Hp e He) as [Hf|(t & Ht & [Hk' _|v Hk' _ _ _ _])].
  - by destruct (foreign_not_task ws e "" Hf).
  - rewrite Hk in Hk'. destruct Ht. apply lit_inj. unfold task_key in Hk'. congruence.
  - rewrite Hk in Hk'. by destruct (keys_differ ws "" v).
Qed.

Lemma load_task_ok ctx t (db : Db) s db' :
  good db -> ctx.(ctx_workspace_id) = ws -> load_task ctx t db = Ok (s, db') ->
  db' = db /\ t <> EmptyString /\ s.(task_id) = t /\ task_ok ws t (log db) (rows db) s.
Proof.
  intros Hg Hw Hl. destruct (decide (t = EmptyString)) as [->|Ht]; [by destruct (no_empty_task _ _ _ _ Hg Hw Hl)|].
  destruct (load_shows _ _ _ _ _ Hg Hw Ht Hl) as [-> Hs]. split_and!; [done|done|by eapply task_ok_id|done].
Qed.

(** The join of a parent is recorded at most once. *)
Lemma join_keeps env ctx p :
  ctx.(ctx_workspace_id) = ws -> keeps (record_join_if_satisfied isoformat_utc env ctx p).
Proof.
  intros Hw db u db' Hg. unfold record_join_if_satisfied. intros (s & d0 & Hl & H)%tx_bind_ok.
  destruct (load_task_ok _ _ _ _ _ Hg Hw Hl) as (-> & Hp & Hid & Hs). destruct (negb (exists_ s)); [apply tx_ret_ok in H as [_ <-]; by split; [|apply task_grows_refl]|].
  apply tx_bind_ok in H as (d0 & d1 & [<- <-]%gets_ok & H). apply tx_bind_ok in H as (j & d1 & [_ <-]%lift_ok & H).
  destruct (negb (jr_satisfied j) || join_satisfied s) eqn:Hj; [apply tx_ret_ok in H as [_ <-]; by split; [|apply task_grows_refl]|].
  apply orb_false_iff in Hj as [_ Hj]. apply tx_bind_ok in H as (a & d1 & Ha & H). unfold catch_conflict in Ha.
  set (r := request _ _ _ _ _ _ _ _ _ _ _) in *. destruct (TaskCommands._append r db) as [[x d2]|c] eqn:Eap; last first.
  { destruct (String.eqb _ _); [|done]. injection Ha as <- <-. apply tx_ret_ok in H as [_ <-]. by split; [|apply task_grows_refl]. }
  injection Ha as <- <-. pose proof Hg as [Hok Hi].
  assert (plain r) as Hpl by (split; [|done]; cbn; by rewrite texts_no_floats).
  assert (aggregate_of_request r = task_key ws p) as Hagg by (unfold aggregate_of_request, task_key; cbn; by rewrite Hw, Hid).
  apply tx_bind_ok in H as (? & d3 & <-%modify_ok & H). apply tx_bind_ok in H as (s2 & d4 & Hl2 & <-%modify_ok).
  destruct (task_append_ok _ _ _ _ Hok Hpl Eap) as (s1 & -> & Hok1 & [[Hrep Hlog]|(Hrep & e & Hlog & Hget & Hst & Hlt)] & _).
  - match type of Hl2 with load_task _ _ ?d = _ => assert (good d) as Hg1 end.
    { split; [done|]. unfold log. cbn [store with_store with_inbox TaskCommands.inbox event_store with_joins]. by rewrite Hlog. }
    destruct (load_task_ok _ _ _ _ _ Hg1 Hw Hl2) as (-> & _ & _ & Hs2). destruct Hg1 as [Hok2 Hi2]. split; [|by apply task_grows_refl].
    split; [done|]. by apply (inv_rewrite _ _ p).
  - destruct (stored_task r x e "TASK_JOIN_SATISFIED" p Hst Hagg eq_refl) as (Hpl' & Htext & Hcre & _); [by apply (bool_decide_unpack _)|].
    change (is_creation e = false) in Hcre.
    assert (exists s', apply_event s (task_event e) = Ok s') as [s' Happ].
    { unfold apply_event. change (e_type (task_event e)) with (text (event_type e)). rewrite Htext. cbn -[touch].
      repeat case_match; first [done|by eexists]. }
    assert (inv ws (log db ++ [e]) (write_state s' (Some (text (isoformat_utc (clk env 1)))) (rows db))) as Hi'.
    { eapply (inv_push ws _ _ e p s s'); try done; [apply Hst|by rewrite Htext]. }
    match type of Hl2 with load_task _ _ ?d = _ =>
      destruct (load_next ctx p d (write_state s' (Some (text (isoformat_utc (clk env 1)))) (rows db)) s2 s' d4 Hok1) as [-> ->] end.
    { unfold log. cbn [store with_store with_inbox TaskCommands.inbox event_store with_joins]. by rewrite Hlog. }
    { done. }
    { done. }
    { unfold log. cbn [store with_store with_inbox TaskCommands.inbox event_store with_joins]. rewrite Hlog. by eapply task_next. }
    { exact Hl2. }
    split; [split; [done|]|split; [by exists [e]; split; [|constructor]|done]]. unfold log.
    cbn [store with_store with_inbox TaskCommands.inbox event_store with_joins with_projection TaskCommands.projection].
    by rewrite Hlog.
Qed.

Lemma on_child_keeps env ctx child : ctx.(ctx_workspace_id) = ws -> keeps (on_child_terminal isoformat_utc env ctx child).
Proof. intros Hw. unfold on_child_terminal. destruct (py_or _ _); [by apply join_keeps|apply quiet_keeps, quiet_ret]. Qed.

Lemma result_applies s e : is_result e = true -> is_creation e = false -> exists s', apply_event s (task_event e) = Ok s'.
Proof.
  intros Hr Hc. unfold apply_event. change (e_type (task_event e)) with (text (event_type e)).
  unfold is_result in Hr. unfold is_creation in Hc. rewrite Hr, Hc. repeat case_match; by eexists.
Qed.

Lemma result_no_floats cmd : no_floats (JObj (result_payload cmd)) = true.
Proof.
  unfold result_payload. destruct (String.eqb _ _); [cbn; by rewrite texts_no_floats|].
  destruct (String.eqb _ _); [cbn; by rewrite texts_no_floats|done].
Qed.

(** The Event of a verdict is placed at its Task, whatever its idempotency key. *)
Lemma stored_result ctx cmd r a e :
  stores r a e -> ctx.(ctx_workspace_id) = ws -> rv_verification cmd <> EmptyString -> rv_result cmd ∈ ["PASSED"; "FAILED"; "BLOCKED"] ->
  aggregate_of_request r = (lit ctx.(ctx_workspace_id), lit "verification_run", lit (rv_verification cmd)) ->
  r.(r_type) = lit ("VERIFICATION_" +:+ rv_result cmd) -> r.(r_payload) = result_payload cmd -> r.(r_task_id) = Some (lit (rv_task cmd)) ->
  placed ws e (rv_task cmd) /\ is_result e = true /\ get_str e.(payload) "verification_id" = Some (rv_verification cmd).
Proof.
  intros Hst Hw Hne Hres Hag Hty Hpay Htask. assert (is_result e = true) as Hr.
  { unfold is_result. rewrite (rec_type _ _ (st_records _ _ _ Hst)), Hty, text_lit. clear -Hres. unfold VERIFICATION_RESULT_EVENTS.
    rewrite !elem_of_cons in Hres. by destruct Hres as [->|[->|[->|Hres%elem_of_nil]]]. }
  assert (get_str (HashChain.payload e) "verification_id" = Some (rv_verification cmd)) as Hv.
  { rewrite (st_payload _ _ _ Hst), Hpay. unfold get_str, result_payload. cbn [app].
    change (Some (text (lit (rv_verification cmd))) = Some (rv_verification cmd)). by rewrite text_lit. }
  split_and!; [|done|done]. apply (Placed_result ws e (rv_task cmd) (rv_verification cmd)); [|done|by rewrite (st_task _ _ _ Hst)|done|done].
  by rewrite (rec_aggregate _ _ (st_records _ _ _ Hst)), Hag, Hw.
Qed.

(** The fold passes over the result of a run on which the Task does not wait. *)
Lemma result_ignored s e :
  is_result e = true -> ~ (s.(status) = VERIFYING /\ s.(active_verification_id) = get_str e.(payload) "verification_id") ->
  apply_event s (task_event e) = Ok s.
Proof.
  intros Hr Hn. destruct (decide (s.(active_verification_id) = get_str e.(payload) "verification_id")) as [E|E];
    [|by apply result_of_other; [|congruence]].
  pose proof (result_not_creation e Hr) as Hc. unfold apply_event. change (e_type (task_event e)) with (text (event_type e)).
  unfold is_creation in Hc. rewrite Hc. destruct (negb (exists_ s)); [done|]. unfold is_result in Hr. rewrite Hr.
  destruct (negb (bool_decide (e_task_id _ = _))); [done|]. destruct (negb (bool_decide (p_verification_id _ = _))); [done|].
  destruct (transition_get (status s) (text (event_type e))) eqn:Ht; [|done]. destruct Hn. split; [|done].
  clear Hc E. revert Hr Ht. generalize (text (event_type e)) as ty. intros ty Hr Ht. transition_cases Ht; first [done|discriminate Hr].
Qed.

Lemma result_recorded env ctx cmd s db x db' :
  good db -> ctx.(ctx_workspace_id) = ws -> rv_task cmd <> EmptyString -> task_ok ws (rv_task cmd) (log db) (rows db) s ->
  result_tx isoformat_utc env ctx cmd s db = Ok (x, db') ->
  x.(tr_replayed) = true /\ db' = db \/
  exists d s' u, good d /\ grows db d /\ task_ok ws (rv_task cmd) (log d) (rows d) s' /\
    (if String.eqb (rv_result cmd) "PASSED" then on_child_terminal isoformat_utc env ctx s' else mret tt) d = Ok (u, db').
Proof.
  intros Hg Hw Ht Hs. unfold result_tx. destruct (negb (mem (rv_result cmd) _)) eqn:Hres; [done|].
  apply negb_false_iff, mem_spec in Hres.
  destruct (find _ _); [intros [= <- <-]; by left|]. intros (? & d0 & [Hgd <-]%guard_tx_ok & H)%tx_bind_ok.
  apply orb_false_iff in Hgd as [_ Hact]. apply negb_false_iff, bool_decide_eq_true in Hact.
  destruct (ok_active _ _ _ _ _ Hs _ Hact) as [Hne Hstarted]. pose proof Hg as [Hok Hi].
  apply tx_bind_ok in H as (a & d1 & Ha & H). set (r := request _ _ _ _ _ _ _ _ _ _ _) in *.
  assert (plain r) as Hpl by (split; [apply result_no_floats|done]).
  apply tx_bind_ok in H as (s2 & d2 & Hl & H).
  apply tx_bind_ok in H as (at_ & d3 & [_ <-]%gets_ok & H). apply tx_bind_ok in H as (? & d4 & <-%modify_ok & H).
  apply tx_bind_ok in H as (u & d5 & Hj & [_ <-]%tx_ret_ok). right.
  destruct (task_append_ok _ _ _ _ Hok Hpl Ha) as (s1 & -> & Hok1 & [[Hrep Hlog]|(Hrep & e & Hlog & Hget & Hst & Hlt)] & _).
  - assert (good (with_store s1 db)) as Hg1.
    { split; [done|]. unfold log. cbn [store with_store with_inbox TaskCommands.inbox event_store]. by rewrite Hlog. }
    destruct (load_task_ok _ _ _ _ _ Hg1 Hw Hl) as (-> & _ & _ & Hs2). destruct Hg1 as [Hok2 Hi2].
    assert (inv ws (log (with_store s1 db)) (write_state s2 at_ (rows db))) as Hi3 by (by apply (inv_rewrite _ _ (rv_task cmd))).
    exists (with_projection (write_state s2 at_ (rows db)) (with_store s1 db)), s2, u. split_and!; [|by apply task_grows_refl| |exact Hj]; [by split|].
    apply (inv_task_state _ _ _ _ Hi3); [done|by apply Hs2|by eapply task_ok_exists].
  - destruct (stored_result ctx cmd r a e Hst Hw Hne Hres eq_refl eq_refl eq_refl eq_refl) as (Hp & Hr & Hv).
    pose proof (result_not_creation e Hr) as Hc. destruct (result_applies s e Hr Hc) as [s' Happ].
    assert (is_join e = false) as Hjn.
    { unfold is_join. apply String.eqb_neq. intros E. unfold is_result in Hr. rewrite E in Hr. done. }
    assert (inv ws (log db ++ [e]) (write_state s' at_ (rows db))) as Hi'.
    { eapply (inv_push ws _ _ e (rv_task cmd) s s'); try done; [apply Hst| |by rewrite Hjn].
      - intros Hty. unfold is_result in Hr. rewrite Hty in Hr. done. }
    destruct (load_next ctx (rv_task cmd) (with_store s1 db) (write_state s' at_ (rows db)) s2 s' d2 Hok1) as [-> ->].
    { unfold log. cbn [store with_store with_inbox TaskCommands.inbox event_store]. by rewrite Hlog. }
    { done. }
    { done. }
    { unfold log. cbn [store with_store with_inbox TaskCommands.inbox event_store]. rewrite Hlog. by eapply task_next. }
    { exact Hl. }
    assert (inv ws (log (with_store s1 db)) (write_state s' at_ (rows db))) as Hi3.
    { unfold log. cbn [store with_store with_inbox TaskCommands.inbox event_store]. by rewrite Hlog. }
    exists (with_projection (write_state s' at_ (rows db)) (with_store s1 db)), s', u. split_and!; [| | |exact Hj].
    + by split.
    + split; [by exists [e]; split; [|constructor]|done].
    + apply (inv_task_state _ _ _ _ Hi3); [done| |].
      * unfold log. cbn [store with_store with_inbox TaskCommands.inbox event_store]. rewrite Hlog. by eapply task_next.
      * destruct (inv_tasks _ _ _ Hi' (rv_task cmd) Ht) as [[Hn _]|[s0 Hs0]].
        { rewrite about_events_app in Hn. apply app_nil in Hn as [_ Hn]. unfold events_of in Hn. cbn [List.filter] in Hn.
          by rewrite (placed_about ws e (rv_task cmd) Ht Hp) in Hn. }
        pose proof (ok_fold _ _ _ _ _ Hs0) as Hf0. rewrite (task_next _ _ _ _ _ _ Hs Ht Hp Happ) in Hf0. injection Hf0 as ->.
        by eapply task_ok_exists.
Qed.

Lemma result_keeps env ctx cmd s db x db' :
  good db -> ctx.(ctx_workspace_id) = ws -> rv_task cmd <> EmptyString -> task_ok ws (rv_task cmd) (log db) (rows db) s ->
  result_tx isoformat_utc env ctx cmd s db = Ok (x, db') -> good db' /\ grows db db'.
Proof.
  intros Hg Hw Ht Hs [[_ ->]|(d & s' & u & Hgd & G & _ & H)]%result_recorded; try done; [by split; [|apply task_grows_refl]|].
  destruct (String.eqb _ _); [|by apply tx_ret_ok in H as [_ <-]].
  destruct (on_child_keeps _ _ _ Hw _ _ _ Hgd H) as [? ?]. split; [done|by eapply task_grows_trans].
Qed.
End commands.
