(* ===== verification/TaskTraces.v ===== *)
(** Histories of Task commands: every command keeps the invariant of [TaskHistory], so
    after any sequence of them the read model is the one a rebuild gives, [load_task]
    gives the state it shows, a verified Task has the Event of its verification, the
    edges of sub-Tasks form a forest and a join is recorded once. *)

From S2P Require Import Prelude Tx Defaults Canonical Text HashChain Policy Catalog Authority EventStore EventLog Bus WorkState Inbox TaskGraph TaskState Criteria TaskProjection TaskCommands TaskHistory.
Open Scope Z_scope.

Section traces.
Context {ES : Type} {ELI : EventLogI ES} {ERI : EventReadI ES} {W : Type}.
Context (sha256 : list N -> ustr) (py_str : json -> ustr) (isoformat_utc : Z -> ustr) (catalog : PolicyCatalog).
Context (terminal_hooks : string -> tx (W * ES) unit) (on_implementation_submitted : string -> tx (W * ES) unit).
Context (expected_document_id : string -> W -> option string) (enforce_limits : string -> string -> tx W unit).
Context (ws : string).
Hypothesis hooks_quiet : forall id, well_behaved (terminal_hooks id).
Hypothesis submitted_quiet : forall id, well_behaved (on_implementation_submitted id).

#[local] Notation Db := (@TaskCommands.Db ES W).
#[local] Notation rows db := (db.(projection)).
#[local] Notation good := (TaskHistory.good ws (ES := ES) (W := W)).
#[local] Notation keeps := (TaskHistory.keeps ws (ES := ES) (W := W)).
#[local] Notation in_ws ctx := (ctx.(ctx_workspace_id) = ws).
#[local] Notation transition := (_transition isoformat_utc terminal_hooks).
#[local] Notation create := (create isoformat_utc).
#[local] Notation on_task := (on_task sha256 catalog).

(** ** Steps that read, steps of one Task *)

(** A check leaves the Events and the read model alone. *)
Definition checks {A} (m : tx Db A) : Prop := forall db a db',
  m db = Ok (a, db') -> store db' = store db /\ rows db' = rows db /\ edges db' = edges db.

Lemma checks_same {A} (m : tx Db A) : (forall db a db', m db = Ok (a, db') -> db' = db) -> checks m.
Proof. intros H db a db' Hm. by rewrite (H _ _ _ Hm). Qed.

Lemma checks_bind {A B} (m : tx Db A) (f : A -> tx Db B) : checks m -> (forall a, checks (f a)) -> checks (m ≫= f).
Proof.
  intros Hm Hf db b db' (a & db1 & H1 & H2)%tx_bind_ok. destruct (Hm _ _ _ H1) as (E1 & E2 & E3), (Hf _ _ _ _ H2) as (E4 & E5 & E6).
  by rewrite E4, E5, E6.
Qed.

Lemma checks_lift {A} (r : res A) : checks (lift r).
Proof. apply checks_same. by intros ??? [_ <-]%lift_ok. Qed.

Lemma checks_guard b code : checks (guard_tx b code).
Proof. apply checks_same. by intros ??? [_ <-]%guard_tx_ok. Qed.

Lemma checks_gets {A} (f : Db -> A) : checks (gets f).
Proof. apply checks_same. by intros ??? [_ <-]%gets_ok. Qed.

Lemma checks_ret {A} (a : A) : checks (mret a).
Proof. apply checks_same. by intros ??? [_ <-]%tx_ret_ok. Qed.

Lemma checks_unless ctx id scope (m : tx Db unit) : checks m -> checks (unless_replay ctx id scope m).
Proof. intros Hm db a db'. unfold unless_replay. destruct (_replay_from_stream _ _ _ _); [by intros [= _ <-]|apply Hm]. Qed.

Lemma checks_account ctx who : checks (_account_uuid ctx who : tx Db string).
Proof. apply checks_same. intros db a db'. unfold _account_uuid. repeat case_match; try done. by intros [= _ <-]. Qed.

Lemma checks_limits ctx id : checks (_enforce_agent_limits enforce_limits ctx id : tx Db unit).
Proof.
  intros db a db'. unfold _enforce_agent_limits. destruct (_ !! _) as [p|]; [|by intros [= _ <-]].
  destruct (negb _); [by intros [= _ <-]|]. destruct (agents db !! _); [|by intros [= _ <-]]. by intros (w & _ & ->)%zoom_ok.
Qed.

Lemma checks_quiet {A} (m : tx Db A) : checks m -> quiet m.
Proof. exact (quiet_same m). Qed.

(** A step that may write Events of the Task [s], just loaded. *)
Definition on_ok {A} (s : TaskState) (m : tx Db A) : Prop := forall db a db',
  good db -> s.(task_id) <> EmptyString -> task_ok ws s.(task_id) (log db) (rows db) s -> m db = Ok (a, db') ->
  good db' /\ grows db db'.

Lemma on_keeps {A} s (m : tx Db A) : keeps m -> on_ok s m.
Proof. intros Hm db a db' Hg _ _. by apply Hm. Qed.

Lemma on_check {A B} s (m : tx Db A) (f : A -> tx Db B) : checks m -> (forall a, on_ok s (f a)) -> on_ok s (m ≫= f).
Proof.
  intros Hm Hf db b db' Hg Hne Hs (a & db1 & H1 & H2)%tx_bind_ok. destruct (Hm _ _ _ H1) as (E1 & E2 & _).
  destruct (quiet_good ws m _ _ _ (checks_quiet m Hm) Hg H1) as [Hg1 G1]. destruct (Hf a db1 b db' Hg1 Hne) as [Hg2 G2]; [|exact H2|].
  - unfold log. rewrite E1, E2. exact Hs.
  - split; [done|by eapply task_grows_trans].
Qed.

Lemma on_transition {B} env ctx scope s ty body (f : AppendResult * TaskState -> tx Db B) :
  in_ws ctx -> task_event_type ty -> no_floats (JObj body) = true ->
  (ty = "TASK_VERIFICATION_STARTED" -> forall v, get_str body "verification_id" = Some v -> v <> EmptyString) ->
  (forall r, keeps (f r)) -> on_ok s (transition env ctx scope s ty body ≫= f).
Proof.
  intros Hw Hty Hnf Hstart Hf db b db' Hg Hne Hs ([a s'] & db1 & H1 & H2)%tx_bind_ok.
  destruct (task_transition_ok isoformat_utc terminal_hooks ws env ctx scope s ty body db a s' db1) as (Hg1 & G1 & _); try done.
  destruct (Hf _ _ _ _ Hg1 H2) as [Hg2 G2]. split; [done|by eapply task_grows_trans].
Qed.

Definition akeeps {A} (m : atx AuditRecord Db A) : Prop := forall db l l' a db', good db -> m db l = (l', Ok (a, db')) ->
  good db' /\ grows db db'.

Lemma permit_same env ctx p ch dom (db : Db) l l' u db' :
  permit sha256 catalog env ctx p ch dom db l = (l', Ok (u, db')) -> db' = db.
Proof. unfold permit. destruct (require_permission _ _ _) as [rs [x|]]; [|done]. by intros [= _ _ <-]. Qed.

Lemma on_task_ok env ctx id p (db : Db) l l' s db' :
  on_task env ctx id p db l = (l', Ok (s, db')) -> load_task ctx id db = Ok (s, db').
Proof.
  unfold TaskCommands.on_task. intros (s0 & d & l1 & [_ Hl]%in_tx_ok & (u & d1 & l2 & ->%permit_same & H)%atx_bind_ok)%atx_bind_ok.
  by injection H as _ -> ->.
Qed.

Lemma on_task_keeps {A} env ctx id p (f : TaskState -> tx Db A) :
  in_ws ctx -> (forall s, s.(task_id) = id -> on_ok s (f s)) -> akeeps (s ← on_task env ctx id p; in_tx (f s)).
Proof.
  intros Hw Hf db l l' a db' Hg (s & d & l1 & Hl%on_task_ok & [_ H]%in_tx_ok)%atx_bind_ok.
  destruct (load_task_ok ws _ _ _ _ _ Hg Hw Hl) as (-> & Hne & Hid & Hs). by apply (Hf s Hid db a db'); rewrite ?Hid.
Qed.

(** ** The handlers *)

Lemma task_keeps_ret {A} (a : A) : keeps (mret a).
Proof. apply keeps_same. by intros ??? [_ <-]%tx_ret_ok. Qed.

Lemma quiet_assignment ctx s reason resume ev : quiet (_record_assignment ctx s reason resume ev : tx Db unit).
Proof. apply quiet_same. intros db a db'. unfold _record_assignment. destruct (existsb _ _); [done|]. by intros [= _ <-]. Qed.

Lemma quiet_pin id rev cs ev : quiet (pin_rows id rev cs ev : tx Db unit).
Proof. apply quiet_same. intros db a db'. unfold pin_rows. intros (x & _ & [= _ <-])%res_bind_ok. done. Qed.

Lemma quiet_cancel_each env actor reason items : forall n, quiet (cancel_each env n actor reason items : tx Db unit).
Proof.
  induction items as [|i items IH]; intros n; [apply quiet_ret|]. cbn [cancel_each]. destruct (is_ok _); [|apply IH].
  apply quiet_bind; [apply quiet_zoom, inbox_cancel|intros _; apply IH].
Qed.

Lemma quiet_after env ctx s ev resume : quiet (after_assignment isoformat_utc env ctx s ev resume : tx Db unit).
Proof.
  intros db u db' Hok. unfold after_assignment. destruct (_ ≫= _) as [agent|]; [|intros H; exact (quiet_ret tt _ _ _ Hok H)].
  match goal with |- ?m db = _ -> _ => enough (quiet m) as Hq by (intros H; exact (Hq _ _ _ Hok H)) end.
  apply quiet_bind; [apply quiet_cancel_each|intros _]. apply quiet_bind; [apply quiet_zoom, inbox_enqueue|intros _; apply quiet_ret].
Qed.

Lemma keeps_unless_replayed (b : bool) (m : tx Db unit) : keeps m -> keeps (if b then mret tt else m).
Proof. destruct b; [intros _; apply task_keeps_ret|done]. Qed.

(** The types and bodies of the transitions. *)
Ltac plain_type := by split; [apply (bool_decide_unpack _); vm_compute|apply (bool_decide_unpack _); vm_compute|].

Lemma simple_ok env ctx s id scope ty body :
  in_ws ctx -> task_event_type ty -> no_floats (JObj body) = true ->
  (ty = "TASK_VERIFICATION_STARTED" -> forall v, get_str body "verification_id" = Some v -> v <> EmptyString) ->
  on_ok s (simple_tx isoformat_utc terminal_hooks env ctx s id scope ty body).
Proof. intros. apply on_transition; try done. intros [a s']. apply task_keeps_ret. Qed.

Lemma simple_keeps env ctx id p scope ty body :
  in_ws ctx -> task_event_type ty -> no_floats (JObj body) = true ->
  (ty = "TASK_VERIFICATION_STARTED" -> forall v, get_str body "verification_id" = Some v -> v <> EmptyString) ->
  akeeps (s ← on_task env ctx id p; in_tx (simple_tx isoformat_utc terminal_hooks env ctx s id scope ty body)).
Proof. intros. apply on_task_keeps; [done|]. intros s _. by apply simple_ok. Qed.

Lemma assignment_keeps env ctx s reason resume a id data :
  keeps (_ ← (if a.(replayed) then mret tt
              else _ ← _record_assignment ctx s reason resume a.(a_event_id); after_assignment isoformat_utc env ctx s a.(a_event_id) resume);
         mret (_result a id s data)).
Proof.
  apply task_keeps_bind; [|intros _; apply task_keeps_ret]. apply keeps_unless_replayed.
  apply quiet_keeps, quiet_bind; [apply quiet_assignment|intros _; apply quiet_after].
Qed.

Lemma delegate_keeps env id assignee reason ctx :
  in_ws ctx -> akeeps (delegate_task sha256 isoformat_utc catalog terminal_hooks env id assignee reason ctx).
Proof.
  intros Hw. apply on_task_keeps; [done|]. intros s _. apply on_check; [apply checks_account|intros who].
  apply on_check; [|intros _].
  - apply checks_unless, checks_bind; [apply checks_lift|intros _]. apply checks_bind; [apply checks_gets|intros ?; apply checks_lift].
  - apply on_check; [apply checks_lift|intros hash].
    apply on_transition; [done|plain_type|done|done|]. intros [a s']. apply assignment_keeps.
Qed.

Lemma reassign_keeps env id assignee reason resume ctx :
  in_ws ctx -> akeeps (reassign_task sha256 isoformat_utc catalog terminal_hooks env id assignee reason resume ctx).
Proof.
  intros Hw. apply on_task_keeps; [done|]. intros s _. apply on_check; [apply checks_account|intros who].
  apply on_check; [apply checks_lift|intros hash].
  apply on_transition; [done|plain_type|done|done|]. intros [a s']. apply assignment_keeps.
Qed.

Lemma accept_task_keeps env id ctx :
  in_ws ctx -> akeeps (accept_task sha256 isoformat_utc catalog terminal_hooks enforce_limits env id ctx).
Proof.
  intros Hw. apply on_task_keeps; [done|]. intros s _. apply on_check; [|intros _; apply simple_ok; [done|plain_type|done|done]].
  apply checks_unless, checks_bind; [apply checks_lift|intros _]. apply checks_bind; [apply checks_guard|intros _; apply checks_limits].
Qed.

Lemma submit_keeps env id refs revision ctx :
  in_ws ctx -> akeeps (submit_implementation sha256 isoformat_utc catalog terminal_hooks on_implementation_submitted env id refs revision ctx).
Proof.
  intros Hw. apply on_task_keeps; [done|]. intros s _. apply on_check; [|intros _].
  - apply checks_unless, checks_bind; [apply checks_lift|intros _]. apply checks_bind; [apply checks_gets|intros ?; apply checks_lift].
  - apply on_transition; [done|plain_type|cbn; by rewrite texts_no_floats|done|]. intros [a s'].
    apply task_keeps_bind; [|intros _; apply task_keeps_ret]. by apply keeps_unless_replayed, quiet_keeps, quiet_hook.
Qed.

Lemma complete_keeps env id document ctx :
  in_ws ctx -> akeeps (complete_task sha256 isoformat_utc catalog terminal_hooks expected_document_id env id document ctx).
Proof.
  intros Hw. apply on_task_keeps; [done|]. intros s _. apply on_check; [|intros _].
  - apply checks_unless, checks_same. intros db u db'. unfold complete_check. destruct (mem _ _); [done|].
    intros (x & _ & H)%res_bind_ok. destruct x; [by injection H as _ <-|done].
  - apply on_transition; [done|plain_type|done|done|]. intros [a s'].
    apply task_keeps_bind; [|intros _; apply task_keeps_ret]. by apply keeps_unless_replayed, on_child_keeps.
Qed.

Lemma verification_keeps env cmd ctx :
  in_ws ctx -> akeeps (record_verification_result sha256 isoformat_utc catalog env cmd ctx).
Proof.
  intros Hw. apply on_task_keeps; [done|]. intros s Hid db x db' Hg Hne Hs H. rewrite Hid in *. by eapply result_keeps.
Qed.

Lemma criteria_no_floats cs : forallb no_floats (JObj ∘ as_dict <$> cs) = true.
Proof. apply forallb_forall. intros x Hx%list_elem_of_In. by apply list_elem_of_fmap in Hx as (y & -> & _). Qed.

Lemma revise_keeps env id raw ctx :
  in_ws ctx -> akeeps (revise_criteria sha256 py_str catalog env id raw ctx).
Proof.
  intros Hw. apply on_task_keeps; [done|]. intros s _. apply on_keeps, quiet_keeps. intros db x db' Hok. unfold revise_tx.
  intros [_ H]%guard_err_ok. destruct (find _ _); [injection H as _ <-; by apply (quiet_ret tt db tt db)|]. revert H.
  match goal with |- ?m db = _ -> _ => enough (quiet m) as Hq by (intros H; exact (Hq _ _ _ Hok H)) end.
  apply quiet_bind; [apply checks_quiet, checks_lift|intros cs]. apply quiet_bind.
  - apply (quiet_append _ "ACCEPTANCE_CRITERIA_REVISED" "task_criteria"); try done; [|by apply (bool_decide_unpack _)..].
    split; [|done]. cbn. rewrite criteria_no_floats, andb_true_r. apply forallb_forall. intros y Hy%list_elem_of_In. by apply list_elem_of_fmap in Hy as (z & -> & _).
  - intros a. apply quiet_bind; [|intros _; apply quiet_ret]. destruct (replayed a); [apply quiet_ret|apply quiet_pin].
Qed.

(** ** The forest of sub-Tasks *)

#[local] Notation depth := TaskState.delegation_depth.

(** A Task as its first Event made it. *)
Definition origin (t : string) (l : list HashChain.Event) : option TaskState :=
  (fun c => apply_creation (initial_state t) (task_event c)) <$> head (events_of t l).

Lemma origin_app t l x : origin t (l ++ x) = match origin t l with Some o => Some o | None => origin t x end.
Proof. unfold origin. rewrite about_events_app. by destruct (events_of t l). Qed.

Lemma born_head t l : born (events_of t l) -> exists c, head (events_of t l) = Some c /\ is_creation c = true.
Proof. intros [(c & rest & -> & Hc & _)]. by exists c. Qed.

Lemma origin_grows (db db' : Db) t :
  good db -> good db' -> grows db db' -> t <> EmptyString -> origin t (log db') = origin t (log db).
Proof.
  intros Hg [_ Hi'] [(x & Ex & Hx) _] Ht. rewrite Ex, origin_app. destruct (origin t (log db)) as [o|] eqn:E; [done|].
  assert (events_of t (log db) = []) as Hn by (unfold origin in E; by destruct (events_of t (log db))).
  destruct (inv_tasks _ _ _ Hi' t Ht) as [[Hn' _]|[s Hs]].
  - rewrite Ex, about_events_app in Hn'. apply app_nil in Hn' as [_ Hn']. unfold origin. by rewrite Hn'.
  - destruct (born_head t _ (ok_born _ _ _ _ _ Hs)) as (c & Hc & Hcc). rewrite Ex, about_events_app, Hn in Hc. cbn [app] in Hc.
    destruct (events_of t x) as [|c' ?] eqn:Eq; [done|]. injection Hc as ->.
    assert (c ∈ List.filter (about t) x) as Hin by (unfold events_of in Eq; rewrite Eq; by left).
    apply list_elem_of_In, filter_In in Hin as [Hin _]. rewrite Forall_forall in Hx. by rewrite Hx in Hcc by by apply list_elem_of_In.
Qed.

(** Only the first Event decides parent, root, depth and join policy. *)
Record kin (a b : TaskState) : Prop := {
  kin_parent : a.(parent_task_id) = b.(parent_task_id); kin_root : a.(root_task_id) = b.(root_task_id); kin_depth : depth a = depth b;
  kin_policy : a.(join_policy) = b.(join_policy) }.

Lemma kin_event s e s' : apply_event s (task_event e) = Ok s' -> is_creation e = false -> kin s' s.
Proof.
  unfold apply_event. change (e_type (task_event e)) with (text (event_type e)). intros H Hc. unfold is_creation in Hc. rewrite Hc in H.
  revert H. destruct (negb (exists_ s)); [by intros [= <-]|]. destruct (mem _ VERIFICATION_RESULT_EVENTS).
  - repeat case_match; by intros [= <-].
  - destruct (negb _ || _); [by intros [= <-]|]. destruct (mem _ ANNOTATION_EVENTS); [destruct (String.eqb _ _); by intros [= <-]|].
    intros (st & _ & [= <-])%res_bind_ok. unfold apply_details. by repeat case_match.
Qed.

Lemma kin_events s evs s' :
  apply_events s (task_event <$> evs) = Ok s' -> Forall (fun e => is_creation e = false) evs -> kin s' s.
Proof.
  intros H Hc. revert s H. induction Hc as [|e evs He _ IH]; intros s; cbn; [by intros [= <-]|].
  intros (s1 & H1 & H2)%res_bind_ok. destruct (IH _ H2), (kin_event _ _ _ H1 He). split; congruence.
Qed.

Lemma creation_applies t e :
  about t e = true -> is_creation e = true -> text e.(aggregate_type) = "task" ->
  apply_event (initial_state t) (task_event e) = Ok (apply_creation (initial_state t) (task_event e)).
Proof.
  intros Hab Hc Hag. unfold about, concerned in Hab. rewrite Hag in Hab. apply bool_decide_eq_true in Hab. injection Hab as Hid.
  unfold apply_event. change (e_type (task_event e)) with (text (event_type e)). unfold is_creation in Hc. rewrite Hc. cbn.
  by rewrite Hid, bool_decide_eq_true_2.
Qed.

Lemma origin_kin t l r s : task_ok ws t l r s -> exists o, origin t l = Some o /\ kin s o.
Proof.
  intros [[(c & rest & Hb & Hc & Hag & _ & Hrest)] Hf _ _ _].
  assert (about t c = true) as Hab by (apply (proj2 (proj1 (List.filter_In (about t) c l) ltac:(fold (events_of t l); rewrite Hb; by left)))).
  unfold origin. rewrite Hb in *. eexists. split; [reflexivity|].
  cbn [fmap list_fmap apply_events] in Hf. rewrite (creation_applies t c Hab Hc Hag) in Hf. by eapply kin_events.
Qed.

Definition node (edges : gmap string EdgeRow) (l : list HashChain.Event) (t : string) (o : TaskState) : Prop :=
  0 <= depth o <= 64 /\ (exists r, o.(root_task_id) = Some r /\ r <> EmptyString) /\
  match edges !! t with
  | None => depth o = 0 /\ o.(root_task_id) = Some t /\ o.(parent_task_id) = None
  | Some e => o.(parent_task_id) = Some e.(ed_parent) /\ o.(root_task_id) = Some e.(ed_root) /\ depth o = e.(ed_depth) /\
              e.(ed_parent) <> EmptyString /\
              exists p, origin e.(ed_parent) l = Some p /\ depth o = depth p + 1 /\ o.(root_task_id) = p.(root_task_id)
  end.

(** Every edge joins a Task to its parent, one deeper and under the same root. *)
Record forest (edges : gmap string EdgeRow) (l : list HashChain.Event) : Prop := {
  fr_named : edges !! EmptyString = None;
  fr_node t : t <> EmptyString -> match origin t l with Some o => node edges l t o | None => edges !! t = None end }.

Lemma forest_same edges l l' :
  (forall t, t <> EmptyString -> origin t l' = origin t l) -> forest edges l -> forest edges l'.
Proof.
  intros E [H1 H2]. split; [done|]. intros t Ht. rewrite E by done. specialize (H2 t Ht). destruct (origin t l) as [o|]; [|done].
  destruct H2 as (Ha & Hb & Hc). split; [done|]. split; [done|]. destruct (edges !! t) as [e|]; [|done].
  destruct Hc as (? & ? & ? & Hne & ?). by rewrite E.
Qed.

(** A new Task, with its edge when it has a parent. *)
Lemma forest_add edges edges' l x t o :
  forest edges l -> t <> EmptyString -> origin t l = None -> origin t (l ++ x) = Some o ->
  (forall u, u <> t -> u <> EmptyString -> origin u (l ++ x) = origin u l) ->
  (forall u, u <> t -> edges' !! u = edges !! u) -> node edges' (l ++ x) t o -> forest edges' (l ++ x).
Proof.
  intros [H1 H2] Ht Hn Ho Hu He Hnode. split; [by rewrite He|]. intros u Hne. destruct (decide (u = t)) as [->|Hd]; [by rewrite Ho|].
  rewrite Hu by done. specialize (H2 u Hne). destruct (origin u l) as [ou|]; [|by rewrite He].
  destruct H2 as (Ha & Hb & Hc). split; [done|]. split; [done|]. rewrite He by done. destruct (edges !! u) as [e|]; [|done].
  destruct Hc as (? & ? & ? & Hp & p & Hpo & ? & ?). split_and!; try done. exists p. rewrite Hu; [done| |done]. intros E. by rewrite E, Hn in Hpo.
Qed.

(** The walk of the trigger bounds the depth. *)
Lemma no_cycle_depth edges l child c o : forall fuel,
  forest edges l -> c <> EmptyString -> origin c l = Some o -> no_cycle fuel edges child (Some c) = Ok tt -> depth o < Z.of_nat fuel.
Proof.
  intros fuel Hf. revert c o. induction fuel as [|fuel IH]; intros c o Hc Ho; cbn [no_cycle]; (destruct (String.eqb c child); [done|]); [done|].
  pose proof (fr_node _ _ Hf c Hc) as Hn. rewrite Ho in Hn. destruct Hn as (_ & _ & Hn). destruct (edges !! c) as [e|]; cbn [fmap option_fmap option_map].
  - destruct Hn as (_ & _ & _ & Hne & p & Hp & Hd & _). intros H. specialize (IH _ _ Hne Hp H). lia.
  - intros _. lia.
Qed.

(** The walk of [ancestors_of] meets every ancestor once and ends at the root. *)
Lemma ancestors_walk edges l (n : nat) : forall t o fuel out,
  forest edges l -> t <> EmptyString -> origin t l = Some o -> depth o = Z.of_nat n -> (n <= fuel)%nat ->
  (forall x, x ∈ out -> exists ox, origin x l = Some ox /\ depth o <= depth ox) ->
  exists anc, ancestors_of fuel edges t out = out ++ anc /\ length anc = n /\ NoDup anc /\
    (forall x, x ∈ anc -> exists ox, origin x l = Some ox /\ depth ox < depth o) /\ o.(root_task_id) = Some (default t (last anc)) /\
    o.(parent_task_id) = head anc.
Proof.
  induction n as [|n IH]; intros t o fuel out Hf Ht Ho Hd Hle Hout; pose proof (fr_node _ _ Hf t Ht) as Hn; rewrite Ho in Hn;
    destruct Hn as (_ & _ & Hn); destruct (edges !! t) as [e|] eqn:Ee.
  - destruct Hn as (_ & _ & _ & Hne & p & Hp & Hdp & _). pose proof (fr_node _ _ Hf _ Hne) as Hpn. rewrite Hp in Hpn. destruct Hpn as [? _]. lia.
  - exists []. rewrite app_nil_r. split_and!; [|done|constructor|by intros ? ?%elem_of_nil|apply Hn|apply Hn]. destruct fuel; [done|]. cbn. by rewrite Ee.
  - destruct Hn as (Hpar & Hr & _ & Hne & p & Hp & Hdp & Hrp). destruct fuel as [|fuel]; [lia|]. cbn [ancestors_of]. rewrite Ee.
    assert (mem (ed_parent e) out = false) as ->.
    { apply mem_false. intros Hin. destruct (Hout _ Hin) as (ox & Hox & ?). rewrite Hp in Hox. injection Hox as <-. lia. }
    destruct (IH (ed_parent e) p fuel (out ++ [ed_parent e]) Hf Hne Hp ltac:(lia) ltac:(lia)) as (anc & E & Hlen & Hnd & Hanc & Hroot & _).
    { intros x [Hx| ->%list_elem_of_singleton]%elem_of_app; [destruct (Hout x Hx) as (ox & ? & ?); exists ox; split; [done|lia]|by exists p]. }
    exists (ed_parent e :: anc). rewrite E, <- app_assoc. split_and!; [done|by cbn; f_equal| | | |done].
    + constructor; [|done]. intros Hin. destruct (Hanc _ Hin) as (ox & Hox & ?). rewrite Hp in Hox. injection Hox as <-. lia.
    + intros x [->|Hx]%elem_of_cons; [exists p; split; [done|lia]|]. destruct (Hanc x Hx) as (ox & ? & ?). exists ox. split; [done|lia].
    + rewrite Hrp, Hroot. by destruct anc as [|? ?] using rev_ind; [|rewrite app_comm_cons, !last_snoc].
  - destruct Hn as [? _]. lia.
Qed.

(** ** New Tasks *)

Lemma py_or_nonempty x y : py_or x None = Some y -> y <> EmptyString.
Proof. unfold py_or. destruct (truthy x) eqn:E; [|done]. intros -> ->. done. Qed.

Lemma new_id_nonempty ctx scope id : _new_task_id sha256 ctx scope = Ok id -> id <> EmptyString.
Proof. unfold _new_task_id. by intros (b & _ & [= <-])%res_bind_ok. Qed.

Lemma id_nonempty ctx scope x id :
  match py_or x None with Some i => Ok i | None => _new_task_id sha256 ctx scope end = Ok id -> id <> EmptyString.
Proof. destruct (py_or x None) as [i|] eqn:E; [intros [= <-]; by eapply py_or_nonempty|apply new_id_nonempty]. Qed.

(** The Events of the other Tasks, when a new one is created. *)
Lemma origin_new t u (e : HashChain.Event) l :
  t <> EmptyString -> placed ws e t -> u <> t -> origin u (l ++ [e]) = origin u l.
Proof.
  intros Ht Hp Hne. rewrite origin_app. destruct (origin u l) as [o|] eqn:E; [done|]. unfold origin, events_of. cbn [List.filter].
  unfold about. rewrite (placed_concerned ws e t Ht Hp), bool_decide_eq_false_2 by congruence. done.
Qed.

Lemma origin_none t (l : list HashChain.Event) : events_of t l = [] -> origin t l = None.
Proof. intros H. unfold origin. by rewrite H. Qed.

Lemma origin_first t (e : HashChain.Event) l :
  t <> EmptyString -> placed ws e t -> events_of t l = [] -> origin t (l ++ [e]) = Some (apply_creation (initial_state t) (task_event e)).
Proof.
  intros Ht Hp Hn. rewrite origin_app, (origin_none t l Hn). unfold origin, events_of. cbn [List.filter].
  by rewrite (placed_about ws e t Ht Hp).
Qed.

Record sound (db : Db) : Prop := { sound_good : good db; sound_forest : forest (edges db) (log db) }.

Lemma grows_sound db db' : sound db -> good db' -> grows db db' -> sound db'.
Proof.
  intros [Hg Hf] Hg' G. split; [done|]. rewrite (gr_edges _ _ G). apply (forest_same _ (log db)); [|done].
  intros t Ht. by apply origin_grows.
Qed.

Lemma grows_prefix (db db' : Db) : grows db db' -> log db `prefix_of` log db'.
Proof. intros [(x & Ex & _) _]. by exists x. Qed.

Lemma quiet_sound {A} (m : tx Db A) db a db' : quiet m -> sound db -> m db = Ok (a, db') -> sound db'.
Proof. intros Hm Hs H. destruct (quiet_good ws m db a db' Hm (sound_good _ Hs) H). by eapply grows_sound. Qed.

Lemma akeeps_sound {A} (m : atx AuditRecord Db A) db l l' a db' :
  akeeps m -> sound db -> m db l = (l', Ok (a, db')) -> sound db' /\ log db `prefix_of` log db'.
Proof. intros Hm Hs H. destruct (Hm _ _ _ _ _ (sound_good _ Hs) H). split; [by eapply grows_sound|by apply grows_prefix]. Qed.

Lemma create_task_sound env cmd ctx (db : Db) l l' x db' :
  in_ws ctx -> no_floats (JObj cmd.(ct_join_policy)) = true -> sound db ->
  create_task sha256 py_str isoformat_utc catalog env cmd ctx db l = (l', Ok (x, db')) -> sound db' /\ log db `prefix_of` log db'.
Proof.
  intros Hw Hnf Hs. unfold create_task. intros (u & d & l1 & ->%permit_same & [_ H]%in_tx_ok)%atx_bind_ok.
  apply tx_bind_ok in H as (? & ? & [_ <-]%guard_tx_ok & H). apply tx_bind_ok in H as (? & ? & [_ <-]%guard_tx_ok & H).
  apply tx_bind_ok in H as (id & ? & [Hid <-]%lift_ok & H). apply id_nonempty in Hid.
  apply tx_bind_ok in H as (pinned & ? & [_ <-]%lift_ok & H). apply tx_bind_ok in H as (hash & ? & [_ <-]%lift_ok & H).
  apply tx_bind_ok in H as ([a s] & d & Hc & H).
  apply (create_keeps isoformat_utc ws) in Hc as (Hg1 & He1 & Hs1 & Hcase);
    [|done|done|by left|cbn in Hnf |- *; by rewrite Hnf, criteria_no_floats|apply Hs].
  assert (log db `prefix_of` log d) as Hpre.
  { destruct Hcase as [[_ ->]|(_ & e & -> & _)]; [done|by exists [e]]. }
  assert (sound d) as Hd.
  { split; [done|]. rewrite He1. destruct Hcase as [[_ ->]|(_ & e & -> & Hp & Hpay & _ & Hn)]; [apply Hs|].
    eapply (forest_add _ _ _ _ id); [apply Hs|done|by apply origin_none|by apply origin_first|by intros v Hv _; apply (origin_new id)|done|].
    pose proof (fr_node _ _ (sound_forest _ Hs) id Hid) as Hnone. rewrite (origin_none id (log db) Hn) in Hnone.
    unfold node, apply_creation, task_event, payload_of. rewrite Hnone, Hpay.
    change (get_str _ "root_task_id") with (Some (text (lit id))). rewrite text_lit. cbn. split_and!; try lia; try done. by exists id. }
  apply tx_bind_ok in H as (? & d2 & Hp & [_ <-]%tx_ret_ok). destruct (replayed a); [by apply tx_ret_ok in Hp as [_ <-]|].
  assert (quiet (persist_initial id (a_event_id a) pinned)) as Hq by apply quiet_pin.
  split; [by eapply quiet_sound|]. destruct (quiet_good ws _ _ _ _ Hq Hg1 Hp) as [_ G]. etrans; [exact Hpre|by apply grows_prefix].
Qed.

(** The child of a Task: its Event, then its edge. *)
Lemma link_sound ctx id parent root n ev (db d1 d2 : Db) u (e : HashChain.Event) p o :
  sound db -> good d1 -> edges d1 = edges db -> log d1 = log db ++ [e] -> placed ws e id -> id <> EmptyString ->
  events_of id (log db) = [] -> parent <> EmptyString -> origin parent (log db) = Some p -> n = depth p + 1 ->
  root = default parent (py_or p.(root_task_id) None) ->
  o = apply_creation (initial_state id) (task_event e) -> o.(parent_task_id) = Some parent -> o.(root_task_id) = Some root -> depth o = n ->
  link_subtask_edge ctx id parent root n ev d1 = Ok (u, d2) -> sound d2.
Proof.
  intros Hs Hg Ed El Hp Hid Hn Hpar Ho En Er Eo Hop Hor Hod. unfold link_subtask_edge.
  intros (m & Hm & [= <- <-])%res_bind_ok. unfold insert_edge in Hm. cbn [ed_parent ed_depth] in Hm.
  apply res_bind_ok in Hm as ([] & Hcyc & Hm). apply guard_err_ok in Hm as [Hg' [= <-]].
  apply orb_false_iff in Hg' as [_ _]. rewrite Ed in Hcyc.
  pose proof (no_cycle_depth _ _ _ _ _ 64 (sound_forest _ Hs) Hpar Ho Hcyc) as Hlt.
  pose proof (fr_node _ _ (sound_forest _ Hs) parent Hpar) as Hnp. rewrite Ho in Hnp. destruct Hnp as (Hdp & (r & Hr & Hrne) & _).
  assert (root = r) as ->. { rewrite Er, Hr. unfold py_or, truthy. by rewrite (proj2 (String.eqb_neq _ _) Hrne). }
  split; [by destruct Hg; split|]. change (log (with_edges _ d1)) with (log d1). rewrite El. cbn [edges with_edges]. rewrite Ed.
  eapply (forest_add (edges db) _ _ _ id o); [apply Hs|done|by apply origin_none|rewrite Eo; by apply origin_first| | |].
  - intros v Hv _. by apply (origin_new id).
  - intros v Hv. by rewrite lookup_insert_ne.
  - unfold node. rewrite lookup_insert_eq. cbn [ed_parent ed_root ed_depth]. split; [lia|]. split; [by exists r|].
    split_and!; try done. exists p. split_and!; [by rewrite origin_app, Ho|lia|by rewrite Hor, Hr].
Qed.

Lemma create_subtask_sound env cmd ctx (db : Db) l l' x db' :
  in_ws ctx -> sound db ->
  create_subtask sha256 py_str isoformat_utc catalog env cmd ctx db l = (l', Ok (x, db')) -> sound db' /\ log db `prefix_of` log db'.
Proof.
  intros Hw Hs. unfold create_subtask. intros (s & d & l1 & [_ Hl]%in_tx_ok & H)%atx_bind_ok.
  destruct (load_task_ok ws _ _ _ _ _ (sound_good _ Hs) Hw Hl) as (-> & Hpne & Hpid & Hps).
  apply atx_bind_ok in H as (u & d1 & l2 & ->%permit_same & [_ H]%in_tx_ok). unfold create_subtask_tx in H.
  apply tx_bind_ok in H as (? & ? & [_ <-]%guard_tx_ok & H). apply tx_bind_ok in H as (id & ? & [Hid <-]%lift_ok & H).
  apply id_nonempty in Hid. apply tx_bind_ok in H as (? & ? & [_ <-]%guard_tx_ok & H).
  apply tx_bind_ok in H as (? & d & Hchk & H).
  assert (d = db) as ->. { destruct (_replay_from_stream _ _ _ _); [by injection Hchk as _ <-|by apply res_bind_ok in Hchk as (? & _ & [= _ <-])]. }
  cbv zeta in H. apply tx_bind_ok in H as (pinned & ? & [_ <-]%lift_ok & H). apply tx_bind_ok in H as (hash & ? & [_ <-]%lift_ok & H).
  apply tx_bind_ok in H as ([a st] & d & Hc & H). set (root := default (cs_parent cmd) _) in *.
  apply (create_keeps isoformat_utc ws) in Hc as (Hg1 & He1 & Hs1 & Hcase);
    [|done|done|right; by left|cbn; rewrite criteria_no_floats; by destruct (TaskState.channel_id s)|apply Hs].
  apply tx_bind_ok in H as (? & d2 & Hp & [_ <-]%tx_ret_ok).
  destruct Hcase as [[Hr El]|(Hr & e & El & Hpl & Hpay & _ & Hn)]; rewrite Hr in Hp.
  { apply tx_ret_ok in Hp as [_ <-]. split; [|by rewrite El]. eapply grows_sound; [exact Hs|exact Hg1|by apply task_grows_refl]. }
  apply tx_bind_ok in Hp as (? & d3 & Hpin & Hlink). destruct (origin_kin _ _ _ _ Hps) as (p & Hp & [_ Hkr Hkd _]).
  assert (store d3 = store d /\ rows d3 = rows d /\ edges d3 = edges d) as (E1 & E2 & E3).
  { unfold persist_initial, pin_rows in Hpin. by apply res_bind_ok in Hpin as (y & _ & [= _ <-]). }
  assert (get_str e.(payload) "parent_task_id" = Some (cs_parent cmd)) as P1.
  { rewrite Hpay. change (Some (text (lit (cs_parent cmd))) = Some (cs_parent cmd)). by rewrite text_lit. }
  assert (get_str e.(payload) "root_task_id" = Some root) as P2.
  { rewrite Hpay. change (Some (text (lit root)) = Some root). by rewrite text_lit. }
  assert (get_int e.(payload) "depth" = Some (depth s + 1)) as P3 by (by rewrite Hpay).
  assert (log d3 = log db ++ [e]) as El3 by (unfold log at 1; rewrite E1; exact El).
  split; [|apply res_bind_ok in Hlink as (m & _ & [= <- <-]); exists [e]; exact El3].
  eapply (link_sound ctx id (cs_parent cmd) root _ _ db d3 d2 _ e p); [done| | | |done|done|done|done|done| | |reflexivity| | | |exact Hlink].
  - destruct Hg1 as [Hok Hi]. split; [by rewrite E1|]. unfold log. by rewrite E1, E2.
  - by rewrite E3.
  - exact El3.
  - by rewrite Hkd.
  - by rewrite <- Hkr.
  - unfold apply_creation, task_event, payload_of. cbn. by rewrite P1.
  - unfold apply_creation, task_event, payload_of. cbn. by rewrite P2.
  - unfold apply_creation, task_event, payload_of. cbn. by rewrite P3.
Qed.

(** ** Histories *)

#[local] Notation committed m db l := (committed (m db l) db).

(** The Event of a verdict on a run that is no run of the Task [cmd.(rv_task)] but names it: it
    writes no row, as [submit_verdict] has it for a run of a phase. *)
Definition verdict_of_another_run (ctx : CommandContext) (cmd : RecordVerificationResult) (key : string) (caused_by : option string) (seq : Z)
    : AppendRequest :=
  request ctx "verification_run" cmd.(rv_verification) ("VERIFICATION_" +:+ cmd.(rv_result)) "verification_run:result" key
    (result_payload cmd) None (Some cmd.(rv_task)) caused_by seq.

(** The row of the Task waits on the verification [v]. *)
Definition row_waits_on (v : string) (r : TaskRow) : Prop := r.(c_status) = VERIFYING /\ r.(c_policy_snapshot) = Some v.

(** A step: a command that the bus commits, a verdict on another run that names a Task, or
    another component appending Events that concern no Task. *)
Inductive step (db : Db) : Db -> Prop :=
| Create env cmd ctx l : in_ws ctx -> no_floats (JObj cmd.(ct_join_policy)) = true ->
    step db (committed (create_task sha256 py_str isoformat_utc catalog env cmd ctx) db l)
| Create_subtask env cmd ctx l : in_ws ctx ->
    step db (committed (create_subtask sha256 py_str isoformat_utc catalog env cmd ctx) db l)
| Delegate env id who reason ctx l : in_ws ctx ->
    step db (committed (delegate_task sha256 isoformat_utc catalog terminal_hooks env id who reason ctx) db l)
| Reassign env id who reason resume ctx l : in_ws ctx ->
    step db (committed (reassign_task sha256 isoformat_utc catalog terminal_hooks env id who reason resume ctx) db l)
| Accept env id ctx l : in_ws ctx ->
    step db (committed (accept_task sha256 isoformat_utc catalog terminal_hooks enforce_limits env id ctx) db l)
| Start env id ctx l : in_ws ctx -> step db (committed (start_task sha256 isoformat_utc catalog terminal_hooks env id ctx) db l)
| Progress env id summary ctx l : in_ws ctx ->
    step db (committed (report_progress sha256 isoformat_utc catalog terminal_hooks env id summary ctx) db l)
| Wait env id reason ctx l : in_ws ctx ->
    step db (committed (mark_waiting sha256 isoformat_utc catalog terminal_hooks env id reason ctx) db l)
| Submit env id refs revision ctx l : in_ws ctx ->
    step db (committed (submit_implementation sha256 isoformat_utc catalog terminal_hooks on_implementation_submitted env id refs revision ctx) db l)
| Verify env id verification ctx l : in_ws ctx -> verification <> EmptyString ->
    step db (committed (start_verification sha256 isoformat_utc catalog terminal_hooks env id verification ctx) db l)
| Result_ env cmd ctx l : in_ws ctx -> step db (committed (record_verification_result sha256 isoformat_utc catalog env cmd ctx) db l)
| Complete env id document ctx l : in_ws ctx ->
    step db (committed (complete_task sha256 isoformat_utc catalog terminal_hooks expected_document_id env id document ctx) db l)
| Request_cancel env id reason ctx l : in_ws ctx ->
    step db (committed (request_cancel sha256 isoformat_utc catalog terminal_hooks env id reason ctx) db l)
| Cancel env id reason ctx l : in_ws ctx ->
    step db (committed (cancel_task sha256 isoformat_utc catalog terminal_hooks env id reason ctx) db l)
| Revise env id raw ctx l : in_ws ctx -> step db (committed (revise_criteria sha256 py_str catalog env id raw ctx) db l)
| Judged ctx cmd key caused_by seq a db' r : in_ws ctx -> cmd.(rv_task) <> EmptyString -> cmd.(rv_verification) <> EmptyString ->
    cmd.(rv_result) ∈ ["PASSED"; "FAILED"; "BLOCKED"] ->
    rows db !! cmd.(rv_task) = Some r -> ~ row_waits_on cmd.(rv_verification) r ->
    TaskCommands._append (verdict_of_another_run ctx cmd key caused_by seq) db = Ok (a, db') -> step db db'
| Other db' : el_ok (store db') -> rows db' = rows db -> edges db' = edges db -> appends (log db) (log db') -> step db db'.

Record fresh (db : Db) : Prop := {
  fresh_ok : el_ok (store db); fresh_log : log db = []; fresh_rows : rows db = ∅; fresh_edges : edges db = ∅ }.

Definition history (db : Db) : Prop := exists db0, fresh db0 /\ rtc step db0 db.

Lemma fresh_sound db : fresh db -> sound db.
Proof.
  intros [H1 H2 H3 H4]. split; [split; [done|]|].
  - rewrite H2, H3. split; try constructor; try done.
  - rewrite H2, H4. split; [by rewrite lookup_empty|]. intros t _. by cbn; rewrite lookup_empty.
Qed.

(** What a step does to a sound state. *)
Definition extends (db db' : Db) : Prop := sound db' /\ log db `prefix_of` log db'.

Lemma committed_sound {A} (m : atx AuditRecord Db A) db l :
  sound db -> (forall l' a db', m db l = (l', Ok (a, db')) -> extends db db') -> extends db (committed m db l).
Proof. intros Hs Hm. unfold Tx.committed. destruct (m db l) as [l' [[a db']|]] eqn:E; [by eapply Hm|done]. Qed.

Lemma committed_keeps {A} (m : atx AuditRecord Db A) db l : akeeps m -> sound db -> extends db (committed m db l).
Proof. intros Hm Hs. apply committed_sound; [done|]. intros l' a db'. by apply akeeps_sound. Qed.

(** A PASSED result of the verification on which a Task waits verifies it. *)
Lemma passed_verifies s (e : HashChain.Event) :
  text e.(event_type) = "VERIFICATION_PASSED" -> s.(exists_) = true -> e.(HashChain.task_id) = Some (lit s.(task_id)) ->
  s.(status) = VERIFYING -> s.(active_verification_id) = get_str e.(payload) "verification_id" ->
  exists s', apply_event s (task_event e) = Ok s' /\ s'.(status) = VERIFIED.
Proof.
  intros Hty He Hid Hst Hact. unfold apply_event. change (e_type (task_event e)) with (text (event_type e)). rewrite Hty, He, Hst.
  change (p_verification_id (e_payload (task_event e))) with (get_str e.(payload) "verification_id").
  cbn [task_event e_task_id]. rewrite Hid, Hact. change (text <$> Some (lit (task_id s))) with (Some (text (lit (task_id s)))).
  rewrite text_lit, (bool_decide_eq_true_2 (Some (task_id s) = Some (task_id s))) by done.
  rewrite (bool_decide_eq_true_2 (get_str _ _ = get_str _ _)) by done. by eexists.
Qed.

Lemma judged_sound ctx cmd key caused_by seq (db : Db) a db' r :
  in_ws ctx -> cmd.(rv_task) <> EmptyString -> cmd.(rv_verification) <> EmptyString ->
  cmd.(rv_result) ∈ ["PASSED"; "FAILED"; "BLOCKED"] -> rows db !! cmd.(rv_task) = Some r -> ~ row_waits_on cmd.(rv_verification) r ->
  TaskCommands._append (verdict_of_another_run ctx cmd key caused_by seq) db = Ok (a, db') -> sound db -> extends db db'.
Proof.
  intros Hw Ht Hv Hres Hrow Hwait Ha Hs. pose proof (sound_good _ Hs) as [Hok Hi].
  assert (plain (verdict_of_another_run ctx cmd key caused_by seq)) as Hpl by (split; [apply result_no_floats|done]).
  destruct (task_append_ok _ _ _ _ Hok Hpl Ha) as (s1 & -> & Hok1 & [[_ Hlog]|(_ & e & Hlog & _ & Hst & Hlt)] & _).
  { assert (grows db (with_store s1 db)) as G by (apply task_grows_refl; [exact Hlog|done]). split; [|by apply grows_prefix].
    eapply grows_sound; [exact Hs| |exact G]. split; [done|]. unfold log. cbn [store with_store with_inbox TaskCommands.inbox event_store].
    by rewrite Hlog. }
  destruct (stored_result ws ctx cmd _ a e Hst Hw Hv Hres eq_refl eq_refl eq_refl eq_refl) as (Hp & Hr & Hid).
  destruct (inv_tasks _ _ _ Hi _ Ht) as [[_ Hn]|[s Hok_s]]; [congruence|].
  assert (apply_event s (task_event e) = Ok s) as Hignored.
  { apply result_ignored; [done|]. intros [Hst1 Hact]. destruct (ok_row _ _ _ _ _ Hok_s) as (r' & Hr' & [Er _ _]).
    rewrite Hrow in Hr'. injection Hr' as <-. apply Hwait. rewrite Er. split; [exact Hst1|]. cbn. congruence. }
  assert (grows db (with_store s1 db)) as G.
  { split; [|done]. exists [e]. split; [exact Hlog|]. constructor; [by apply result_not_creation|done]. }
  split; [|by apply grows_prefix]. eapply grows_sound; [exact Hs| |exact G]. split; [done|]. unfold log.
  cbn [store with_store with_inbox TaskCommands.inbox event_store TaskCommands.projection]. rewrite Hlog.
  eapply (inv_judged ws _ _ _ (rv_task cmd) s); try done. apply Hst.
Qed.

Lemma step_sound db db' : step db db' -> sound db -> extends db db'.
Proof.
  destruct 1; intros Hs.
  - apply committed_sound; [done|]. intros l' x db'. by apply create_task_sound.
  - apply committed_sound; [done|]. intros l' x db'. by apply create_subtask_sound.
  - by apply committed_keeps; [apply delegate_keeps|].
  - by apply committed_keeps; [apply reassign_keeps|].
  - by apply committed_keeps; [apply accept_task_keeps|].
  - apply committed_keeps; [|done]. apply simple_keeps; [done|plain_type|done|done].
  - apply committed_keeps; [|done]. apply simple_keeps; [done|plain_type|done|done].
  - apply committed_keeps; [|done]. apply simple_keeps; [done|plain_type|done|done].
  - by apply committed_keeps; [apply submit_keeps|].
  - apply committed_keeps; [|done]. apply simple_keeps; [done|plain_type|done|].
    intros _ v. change (get_str _ _) with (Some (text (lit verification))). rewrite text_lit. by intros [= <-].
  - by apply committed_keeps; [apply verification_keeps|].
  - by apply committed_keeps; [apply complete_keeps|].
  - apply committed_keeps; [|done]. apply simple_keeps; [done|plain_type|done|done].
  - apply committed_keeps; [|done]. apply simple_keeps; [done|plain_type|done|done].
  - by apply committed_keeps; [apply revise_keeps|].
  - by eapply judged_sound.
  - pose proof (sound_good _ Hs) as [Hok Hi]. split; [|by apply grows_prefix, appends_grows].
    eapply grows_sound; [exact Hs| |by apply appends_grows]. split; [done|]. rewrite H0. by eapply appends_inv.
Qed.

Lemma steps_sound db db' : rtc step db db' -> sound db -> extends db db'.
Proof.
  induction 1 as [|db1 db2 db3 H1 _ IH]; intros Hs; [done|]. destruct (step_sound _ _ H1 Hs) as [Hs2 P1], (IH Hs2) as [Hs3 P2].
  split; [done|by etrans].
Qed.

Lemma history_sound db : history db -> sound db.
Proof. intros (db0 & H0 & H). by apply (steps_sound db0), fresh_sound. Qed.

(** ** What [load_task] answers *)

Lemma load_eq ctx t (db : Db) :
  good db -> in_ws ctx -> t <> EmptyString ->
  load_task ctx t db =
  match in_stream (task_key ws t) (log db) with
  | [] => Err "TASK_NOT_FOUND"
  | _ => s ← apply_events (initial_state t) (task_event <$> events_of t (log db)); Ok (s, db)
  end.
Proof.
  intros [_ Hi] Hw Ht. unfold load_task. unfold stream at 1. rewrite Hw. change (lit ws, lit "task", lit t) with (task_key ws t).
  destruct (in_stream (task_key ws t) (log db)) as [|e0 l0]; [done|]. unfold task_events, stream. rewrite Hw.
  change (lit ws, lit "task", lit t) with (task_key ws t).
  change (fun v => List.filter (fun e => bool_decide (HashChain.task_id e = Some (lit t))) (in_stream (lit ws, lit "verification_run", lit v) (log db)))
    with (fun v => List.filter (fun e => bool_decide (HashChain.task_id e = Some (lit t))) (in_stream (run_key ws v) (log db))).
  rewrite (read_stream ws t (log db)). by rewrite (load_fold ws) by (try apply Hi; done).
Qed.

Lemma load_found ctx t (db : Db) r s :
  good db -> in_ws ctx -> t <> EmptyString -> task_ok ws t (log db) r s -> load_task ctx t db = Ok (s, db).
Proof.
  intros Hg Hw Ht Hs. rewrite load_eq by done. destruct (in_stream (task_key ws t) (log db)) eqn:E.
  - destruct (no_stream ws t _ _ (good_inv _ _ Hg) Ht E) as [Hn _]. destruct (born_head t _ (ok_born _ _ _ _ _ Hs)) as (c & Hc & _).
    by rewrite Hn in Hc.
  - by rewrite (ok_fold _ _ _ _ _ Hs).
Qed.

(** ** The theorems *)

(** C1. The read model is what a rebuild gives. In any history of Task commands - retries,
    refused commands, verdicts on runs of other targets that name a Task, and the Events of
    other components included - for every Task id either there is no row and [load_task] raises
    TASK_NOT_FOUND, or [load_task] folds the Task's Events without error to a state whose columns
    the row shows, and replaying the whole log into the emptied table gives a row of the same
    columns; the two may differ in updated_at only. Left out of the histories: the verdict on a
    run that is no run of the Task (application/verification.py:578-581, a phase target with a
    task_id) when the Task it names does not exist, or when its run is the very verification on
    which that Task waits. In the second case the claim fails ([verdict_of_another_run_diverges]):
    the Event carries the Task's id, the fold takes it, and no row is written. Histories also
    start from an empty Workspace, and join policies hold no floats. *)
Theorem read_model_is_rebuild (db : Db) ctx t :
  history db -> in_ws ctx -> t <> EmptyString ->
  (load_task ctx t db = Err "TASK_NOT_FOUND" /\ rows db !! t = None) \/
  exists s at_ last_seq rebuilt skipped at',
    load_task ctx t db = Ok (s, db) /\ rows db !! t = Some (new_row s at_) /\
    rebuild None (log db) (rows db) = Some (last_seq, (rebuilt, skipped)) /\ rebuilt !! t = Some (new_row s (Some at')).
Proof.
  intros [Hg _]%history_sound Hw Ht. pose proof (good_inv _ _ Hg) as Hi. destruct (inv_tasks _ _ _ Hi t Ht) as [[Hn Hr]|[s Hs]].
  - left. split; [|done]. rewrite load_eq by done. destruct (in_stream (task_key ws t) (log db)) as [|e l] eqn:E; [done|].
    exfalso. assert (e ∈ events_of t (log db)) as Hin by (apply (stream_about ws); [done|apply Hi|rewrite E; by left]).
    rewrite Hn in Hin. by apply elem_of_nil in Hin.
  - right. destruct (ok_row _ _ _ _ _ Hs) as (r & Hr & Hshow). exists s, r.(c_updated_at).
    destruct (rebuild_gives_fold (log db) (rows db) t s) as (seq & rs & sk & at' & H1 & H2 & _);
      [apply Hi|apply Hi|apply Hs|apply Hs|].
    exists seq, rs, sk, at'. split_and!; [by eapply load_found|by rewrite Hr, (rs_row _ _ Hshow) at 1|done|done].
Qed.

Lemma placed_of t l r e : inv ws l r -> e ∈ events_of t l -> e ∈ l /\ placed ws e t.
Proof.
  intros Hi Hin. apply list_elem_of_In, filter_In in Hin as [Hin Hab]. apply list_elem_of_In in Hin. split; [done|].
  pose proof (inv_placed _ _ _ Hi) as Hp. rewrite Forall_forall in Hp. by destruct (about_placed ws e t (Hp e Hin) Hab).
Qed.

(** C2. A Task shown as VERIFIED or COMPLETED was verified. In any history, the row of such
    a Task carries verification_status PASSED and names a verification; the log holds the
    Event that started this verification of this Task, and a VERIFICATION_PASSED Event of
    this verification recorded for this Task. *)
Theorem verified_was_verified (db : Db) t r :
  history db -> t <> EmptyString -> rows db !! t = Some r -> r.(c_status) = VERIFIED \/ r.(c_status) = COMPLETED ->
  r.(c_verification_status) = Some "PASSED" /\
  exists v started passed, r.(c_policy_snapshot) = Some v /\ v <> EmptyString /\ started ∈ log db /\ passed ∈ log db /\
    aggregate_of started = task_key ws t /\ text started.(event_type) = "TASK_VERIFICATION_STARTED" /\
    get_str started.(payload) "verification_id" = Some v /\
    aggregate_of passed = run_key ws v /\ text passed.(event_type) = "VERIFICATION_PASSED" /\ passed.(HashChain.task_id) = Some (lit t).
Proof.
  intros [Hg _]%history_sound Ht Hr Hst. pose proof (good_inv _ _ Hg) as Hi.
  destruct (inv_tasks _ _ _ Hi t Ht) as [[_ Hn]|[s Hs]]; [congruence|]. destruct (ok_row _ _ _ _ _ Hs) as (r' & Hr' & [Hrow _ _]).
  rewrite Hr in Hr'. injection Hr' as <-. rewrite Hrow in Hst |- *. cbn [c_status c_verification_status c_policy_snapshot new_row] in *.
  destruct (apply_events_evidence _ _ _ (ok_fold _ _ _ _ _ Hs)) as [_ [_ He]]. destruct (He Hst) as (Hv & Hstart & Hpass). clear He.
  split; [done|]. rewrite (task_ok_id _ _ _ _ _ Hs) in *. apply Exists_exists in Hstart as (a & Ha & Ha1 & Ha2 & Ha3).
  apply Exists_exists in Hpass as (b & Hb & Hb1 & Hb2 & Hb3). apply list_elem_of_fmap in Ha as (x & -> & Hx), Hb as (y & -> & Hy).
  apply (placed_of _ _ _ _ Hi) in Hx as [Hx Hpx], Hy as [Hy Hpy].
  cbn [task_event e_type e_aggregate_id e_task_id e_payload payload_of p_verification_id] in *.
  destruct Hpy as [_ Hry|v Hky Hry Hid Hne Hpay]; [unfold is_result in Hry; by rewrite Hb1 in Hry|].
  destruct Hpx as [Hkx _|w _ Hrx _ _ _]; [|unfold is_result in Hrx; by rewrite Ha1 in Hrx].
  exists v, x, y. split_and!; try done; congruence.
Qed.

(** C4. Sub-Tasks form a forest of bounded depth. In any history, a Task lies at most 64
    levels deep, and the walk that the creation of a sub-Task makes over task_edges finds
    exactly as many ancestors as the depth its own Events record: each once, never the Task
    itself, the first its recorded parent and the last its recorded root. *)
Theorem sub_tasks_form_forest (db : Db) ctx t s db' :
  history db -> in_ws ctx -> load_task ctx t db = Ok (s, db') ->
  0 <= depth s <= 64 /\
  exists anc, ancestors_of 128 (edges db) t [] = anc /\ Z.of_nat (length anc) = depth s /\ NoDup (t :: anc) /\
    s.(parent_task_id) = head anc /\ s.(root_task_id) = Some (default t (last anc)).
Proof.
  intros [Hg Hf]%history_sound Hw Hl. destruct (load_task_ok ws _ _ _ _ _ Hg Hw Hl) as (-> & Ht & _ & Hs).
  destruct (origin_kin _ _ _ _ Hs) as (o & Ho & [Kp Kr Kd _]). pose proof (fr_node _ _ Hf t Ht) as Hn. rewrite Ho in Hn.
  destruct Hn as (Hd & _). rewrite Kd, Kp, Kr. split; [done|].
  destruct (ancestors_walk (edges db) (log db) (Z.to_nat (depth o)) t o 128 [] Hf Ht Ho) as (anc & E & Hlen & Hnd & Hanc & Hroot & Hpar);
    [lia|lia|by intros ? ?%elem_of_nil|].
  exists anc. split_and!; [exact E|lia| |done|done]. constructor; [|done]. intros Hin. destruct (Hanc t Hin) as (ox & Hox & ?).
  rewrite Ho in Hox. injection Hox as <-. lia.
Qed.

(** A join is recorded once. In any history, the log holds one TASK_JOIN_SATISFIED Event
    of a Task whose state says that its join is satisfied and none of any other, however
    often the results of its sub-Tasks were recorded, repeated or completed. *)
Theorem join_recorded_once (db : Db) ctx t s db' :
  history db -> in_ws ctx -> load_task ctx t db = Ok (s, db') ->
  length (List.filter (fun e => is_join e && bool_decide (aggregate_of e = task_key ws t)) (log db)) = if join_satisfied s then 1%nat else 0%nat.
Proof.
  intros [Hg _]%history_sound Hw Hl. destruct (load_task_ok ws _ _ _ _ _ Hg Hw Hl) as (-> & Ht & _ & Hs).
  rewrite <- (ok_joined _ _ _ _ _ Hs). unfold events_of. rewrite filter_filter. f_equal. apply List.filter_ext_in.
  intros e He%list_elem_of_In. pose proof (inv_placed _ _ _ (good_inv _ _ Hg)) as Hp. rewrite Forall_forall in Hp.
  destruct (is_join e) eqn:Hj; [|by rewrite andb_false_r]. rewrite andb_true_r. cbn [andb]. apply Bool.eq_iff_eq_true. rewrite bool_decide_eq_true. split.
  - intros Hk. apply placed_about with ws; [done|]. apply Placed_task; [done|]. unfold is_join in Hj. apply String.eqb_eq in Hj.
    unfold is_result. by rewrite Hj.
  - intros Hab. destruct (about_placed ws e t (Hp e He) Hab) as [_ [Hk _|v _ Hr _ _ _]]; [done|]. unfold is_result, is_join in *.
    apply String.eqb_eq in Hj. by rewrite Hj in Hr.
Qed.

(** ** Completion *)

(** The prerequisites are met. *)
Record completable (s : TaskState) (document : string) (db : Db) : Prop := {
  cp_status : s.(status) = VERIFIED;
  cp_passed : s.(verification_status) = Some "PASSED";
  cp_document : expected_document_id s.(task_id) (world db) = Some document;
  cp_join : children_of (edges db) (rows db) s.(task_id) = [] \/
            exists j, evaluate_join s.(join_policy) (children_of (edges db) (rows db) s.(task_id)) = Ok j /\ j.(jr_satisfied) = true }.

Lemma prerequisites_met s document db :
  missing_prerequisites expected_document_id s document db = Ok [] -> completable s document db.
Proof.
  unfold missing_prerequisites. intros (join & Hj & H)%res_bind_ok. cbv zeta in H.
  destruct (decide (completion_prerequisites [fun _ => join; fun s => finalized_document_check expected_document_id s db] s = [])) as [E|E];
    [|by rewrite bool_decide_eq_false_2 in H by done; injection H].
  rewrite bool_decide_eq_true_2 in H by done. cbn [andb] in H.
  destruct (bool_decide_reflect (expected_document_id (task_id s) (world db) = Some document)) as [Hd|]; [|done]. clear H.
  unfold completion_prerequisites, _verification_passed in E. cbn [fmap list_fmap omap list_omap] in E.
  destruct (bool_decide_reflect (status s = VERIFIED)) as [Hs|]; [|done].
  destruct (bool_decide_reflect (verification_status s = Some "PASSED")) as [Hv|]; [|done]. cbn in E.
  split; [done..|]. unfold parent_join_check in Hj. case_bool_decide as Hch; [by left|right]. rewrite Hs in Hj. cbn [negb mem] in Hj.
  change (negb (mem VERIFIED [VERIFIED; COMPLETED])) with false in Hj. cbn iota in Hj.
  apply res_bind_ok in Hj as (j & Hj & [= <-]). exists j. split; [done|]. by destruct (jr_satisfied j).
Qed.

Lemma complete_check_met s document db u db' :
  complete_check expected_document_id s document db = Ok (u, db') -> db' = db /\ completable s document db.
Proof.
  unfold complete_check. intros [_ (m & Hm & H)%res_bind_ok]%guard_err_ok. destruct m; [|done]. injection H as _ <-.
  split; [done|by apply prerequisites_met].
Qed.

(** A transition that is not a replay was not recorded before. *)
Lemma not_replayed env ctx scope s ty body (db : Db) a s' db' :
  transition env ctx scope s ty body db = Ok ((a, s'), db') -> a.(replayed) = false -> _replay_from_stream ctx s.(task_id) scope db = None.
Proof.
  unfold _transition. destruct (_replay_from_stream ctx (task_id s) scope db) as [x|] eqn:E; [|done]. intros [= <- <- <-].
  unfold _replay_from_stream in E. destruct (find _ _); [|done]. by injection E as <-.
Qed.

Lemma in_order_not_elem (l f : list HashChain.Event) e : recorded_in_order (l ++ e :: f) -> e ∉ l.
Proof. intros (_ & _ & H)%in_order_split Hin. specialize (H e e Hin ltac:(by left)). lia. Qed.

(** C5. What a completion needs. A first execution of [complete_task] succeeds only on a Task
    that is VERIFIED with verification_status PASSED, whose expected document is the named
    one, and whose sub-Tasks, if it has any, satisfy its join policy; it then records one
    TASK_COMPLETED Event of the Task. *)
Theorem completion_needs (db : Db) env id document ctx l l' r db' :
  history db -> in_ws ctx ->
  complete_task sha256 isoformat_utc catalog terminal_hooks expected_document_id env id document ctx db l = (l', Ok (r, db')) ->
  r.(tr_replayed) = false ->
  exists s, load_task ctx id db = Ok (s, db) /\ s.(status) = VERIFIED /\ s.(verification_status) = Some "PASSED" /\
    expected_document_id id (world db) = Some document /\
    (children_of (edges db) (rows db) id = [] \/
     exists j, evaluate_join s.(join_policy) (children_of (edges db) (rows db) id) = Ok j /\ j.(jr_satisfied) = true) /\
    exists e, e ∈ log db' /\ e ∉ log db /\ e.(event_id) = r.(tr_event) /\ aggregate_of e = task_key ws id /\ text e.(event_type) = "TASK_COMPLETED".
Proof.
  intros [Hg _]%history_sound Hw H Hrep. unfold complete_task in H. apply atx_bind_ok in H as (s & d & l1 & Hl%on_task_ok & [_ H]%in_tx_ok).
  destruct (load_task_ok ws _ _ _ _ _ Hg Hw Hl) as (-> & Ht & Hid & Hs). exists s. split; [done|]. unfold complete_tx in H.
  apply tx_bind_ok in H as (u & d & Hc & H). apply tx_bind_ok in H as ([a s'] & d1 & Htr & H).
  apply tx_bind_ok in H as (? & d2 & Hch & [<- <-]%tx_ret_ok). cbn [tr_replayed _result tr_event] in *. rewrite Hrep in Hch.
  assert (d = db) as ->.
  { unfold unless_replay in Hc. destruct (_replay_from_stream _ _ _ _); [by injection Hc as _ <-|by apply complete_check_met in Hc as [-> _]]. }
  pose proof (not_replayed _ _ _ _ _ _ _ _ _ _ Htr Hrep) as Hnone. rewrite Hid in Hnone.
  unfold unless_replay in Hc. rewrite Hnone in Hc. apply complete_check_met in Hc as [_ [C1 C2 C3 C4]]. rewrite Hid in C3, C4.
  apply (task_transition_ok isoformat_utc terminal_hooks ws) in Htr as (Hg1 & _ & [[Hx _]|(_ & e & f & El & Hst & _)]);
    [congruence| |exact hooks_quiet|done|done|by rewrite Hid|by rewrite Hid|plain_type|done|done].
  split_and!; try done. exists e. pose proof (inv_order _ _ _ (good_inv _ _ Hg1)) as Ho. rewrite El in Ho.
  destruct (on_child_keeps isoformat_utc ws _ _ _ Hw _ _ _ Hg1 Hch) as [_ [(more & Ex & _) _]]. rewrite Ex, El. split_and!.
  - apply elem_of_app. left. apply elem_of_app. right. by left.
  - by eapply in_order_not_elem.
  - apply Hst.
  - rewrite (rec_aggregate _ _ (st_records _ _ _ Hst)). unfold aggregate_of_request, task_key. cbn. by rewrite Hw, Hid.
  - rewrite (rec_type _ _ (st_records _ _ _ Hst)). apply text_lit.
Qed.

(** ** Retries *)

(** The Event a result names, and nothing after a replay. *)
Definition reports (a : AppendResult) (r : TaskResult) : Prop :=
  r.(tr_event) = a.(a_event_id) /\ r.(tr_seq) = a.(a_aggregate_seq) /\ r.(tr_replayed) = a.(replayed).

(** What is left of a command after its transition: a replay has nothing left to do. *)
Record finishes (f : AppendResult * TaskState -> tx Db TaskResult) : Prop := {
  fi_reports a s db r db' : f (a, s) db = Ok (r, db') -> reports a r /\ (good db -> grows db db');
  fi_replay a s db : a.(replayed) = true -> exists r, f (a, s) db = Ok (r, db) /\ reports a r }.

(** A command on the Task [s]: its first execution records the Event that a replay finds; a
    replay makes the checks [args] of the arguments and reports that Event. *)
Record idempotent (s : TaskState) (scope : string) (ctx : CommandContext) (args : Db -> res unit) (m : tx Db TaskResult) : Prop := {
  id_first db r db' : good db -> s.(task_id) <> EmptyString -> task_ok ws s.(task_id) (log db) (rows db) s ->
    m db = Ok (r, db') -> r.(tr_replayed) = false ->
    find (same_command ctx scope) (stream ctx "task" s.(task_id) db) = None /\
    exists e f, log db' = log db ++ e :: f /\ aggregate_of e = task_key ws s.(task_id) /\ same_command ctx scope e = true /\
      e.(event_id) = r.(tr_event) /\ e.(aggregate_seq) = r.(tr_seq);
  id_again db x : _replay_from_stream ctx s.(task_id) scope db = Some x ->
    match args db with Ok _ => exists r, m db = Ok (r, db) /\ reports x r | Err e => m db = Err e end }.

Lemma idempotent_check {A} s scope ctx (m : tx Db A) (f : A -> tx Db TaskResult) (arg : Db -> res A) (args : A -> Db -> res unit) :
  checks m -> (forall db x, _replay_from_stream ctx s.(task_id) scope db = Some x -> m db = (a ← arg db; Ok (a, db))) ->
  (forall a, idempotent s scope ctx (args a) (f a)) -> idempotent s scope ctx (fun db => a ← arg db; args a db) (m ≫= f).
Proof.
  intros Hm Hsame Hf. split.
  - intros db r db' Hg Ht Hs (a & d & H1 & H2)%tx_bind_ok Hr. destruct (Hm _ _ _ H1) as (E1 & E2 & _).
    assert (log d = log db) as El by (unfold log; by rewrite E1).
    destruct (quiet_good ws m _ _ _ (checks_quiet m Hm) Hg H1) as [Hg1 _].
    destruct (id_first _ _ _ _ _ (Hf a) d r db' Hg1 Ht) as (Hn & e & g & E & Hrest); [by rewrite El, E2|done|done|].
    split; [|exists e, g; by rewrite <- El]. unfold stream in *. by rewrite <- El.
  - intros db x Hx. change ((m ≫= f) db) with (match m db with Ok (a, d) => f a d | Err e => Err e end). rewrite (Hsame _ _ Hx). destruct (arg db) as [a|e]; [|done].
    exact (id_again _ _ _ _ _ (Hf a) db x Hx).
Qed.

Lemma idempotent_transition env s scope ctx ty body f :
  in_ws ctx -> task_event_type ty -> no_floats (JObj body) = true ->
  (ty = "TASK_VERIFICATION_STARTED" -> forall v, get_str body "verification_id" = Some v -> v <> EmptyString) ->
  finishes f -> idempotent s scope ctx (fun _ => Ok tt) (transition env ctx scope s ty body ≫= f).
Proof.
  intros Hw Hty Hnf Hstart Hf. split.
  - intros db r db' Hg Ht Hs ([a s'] & d & H1 & H2)%tx_bind_ok Hr. destruct (fi_reports _ Hf _ _ _ _ _ H2) as ((R1 & R2 & R3) & G). rewrite R3 in Hr.
    pose proof (not_replayed _ _ _ _ _ _ _ _ _ _ H1 Hr) as Hn.
    apply (task_transition_ok isoformat_utc terminal_hooks ws) in H1 as (Hg1 & _ & [[Hx _]|(_ & e & g & El & Hst & _)]); try done; [congruence|].
    destruct (G Hg1) as [(y & Ey & _) _]. split.
    { unfold _replay_from_stream in Hn. by destruct (find _ _). }
    exists e, (g ++ y). rewrite Ey, El, R1, R2, <- app_assoc. split_and!; [done| | |apply Hst|apply Hst].
    + rewrite (rec_aggregate _ _ (st_records _ _ _ Hst)). unfold aggregate_of_request, task_key. cbn. by rewrite Hw.
    + pose proof (rec_key _ _ (st_records _ _ _ Hst)) as Hk. unfold key_of, request_key in Hk. injection Hk as K1 K2 K3 K4.
      unfold same_command. cbn [r_idempotency_scope r_idempotency_key r_actor_account_id request] in *.
      by rewrite !bool_decide_eq_true_2 by congruence.
  - intros db x Hx. unfold mbind, tx_bind, _transition. rewrite Hx. apply (fi_replay _ Hf). unfold _replay_from_stream in Hx.
    destruct (find _ _); [|done]. by injection Hx as <-.
Qed.

Lemma finishes_result id data : finishes (fun '(a, s) => mret (_result a id s data)).
Proof.
  split; [intros a s db r db' [<- <-]%tx_ret_ok; split; [done|intros _; by apply task_grows_refl]|].
  intros a s db _. by eexists.
Qed.

Lemma finishes_after id (m : AppendResult -> TaskState -> tx Db unit) data :
  (forall a s, keeps (m a s)) ->
  finishes (fun '(a, s) => _ ← (if a.(replayed) then mret tt else m a s); mret (_result a id s data)).
Proof.
  intros Hm. split; [|intros a s db Hr; rewrite Hr; by eexists].
  intros a s db r db' (u & d & H1 & [<- <-]%tx_ret_ok)%tx_bind_ok. split; [done|]. destruct (replayed a).
  - apply tx_ret_ok in H1 as [_ <-]. intros _. by apply task_grows_refl.
  - intros Hg. by apply (Hm a s _ _ _ Hg) in H1 as [_ G].
Qed.

(** A check that a replay skips. *)
Lemma unless_skips ctx id scope (m : tx Db unit) db x :
  _replay_from_stream ctx id scope db = Some x -> unless_replay ctx id scope m db = Ok (tt, db).
Proof. intros Hx. unfold unless_replay. by rewrite Hx. Qed.

(** The checks that a command makes of its arguments, in a retry too: the account of an
    assignee, and a policy snapshot with a canonical form where it is hashed. *)
Definition Arguments_ := Env -> CommandContext -> TaskState -> Db -> res unit.

Definition no_arguments : Arguments_ := fun _ _ _ _ => Ok tt.

Definition account_of (ctx : CommandContext) (who : string) (db : Db) : res string := fst <$> _account_uuid ctx who db.

Definition delegate_arguments (who : string) : Arguments_ := fun env ctx _ db =>
  _ ← account_of ctx who db; _ ← _policy_snapshot_hash sha256 env; Ok tt.

Definition reassign_arguments (who : string) : Arguments_ := fun env ctx s db =>
  _ ← account_of ctx who db;
  _ ← match py_or s.(policy_snapshot_hash) None with Some h => Ok h | None => _policy_snapshot_hash sha256 env end; Ok tt.

(** The commands that are a transition of the Task: scope, permission, checks of the
    arguments, and handler. *)
Inductive transition_command (id : string) : string -> string -> Arguments_ -> (Env -> CommandContext -> atx AuditRecord Db TaskResult) -> Prop :=
| C_delegate who reason : transition_command id "task:delegate" "task.delegate" (delegate_arguments who) (fun env =>
    delegate_task sha256 isoformat_utc catalog terminal_hooks env id who reason)
| C_reassign who reason resume : transition_command id "task:reassign" "task.reassign" (reassign_arguments who) (fun env =>
    reassign_task sha256 isoformat_utc catalog terminal_hooks env id who reason resume)
| C_accept : transition_command id "task:accept" "task.accept" no_arguments (fun env =>
    accept_task sha256 isoformat_utc catalog terminal_hooks enforce_limits env id)
| C_start : transition_command id "task:start" "task.progress" no_arguments (fun env =>
    start_task sha256 isoformat_utc catalog terminal_hooks env id)
| C_progress summary : transition_command id "task:progress" "task.progress" no_arguments (fun env =>
    report_progress sha256 isoformat_utc catalog terminal_hooks env id summary)
| C_wait reason : transition_command id "task:wait" "task.progress" no_arguments (fun env =>
    mark_waiting sha256 isoformat_utc catalog terminal_hooks env id reason)
| C_submit refs revision : transition_command id "task:submit" "task.submit" no_arguments (fun env =>
    submit_implementation sha256 isoformat_utc catalog terminal_hooks on_implementation_submitted env id refs revision)
| C_verify verification : verification <> EmptyString -> transition_command id "task:verify" "verification.assign" no_arguments (fun env =>
    start_verification sha256 isoformat_utc catalog terminal_hooks env id verification)
| C_complete document : transition_command id "task:complete" "task.complete" no_arguments (fun env =>
    complete_task sha256 isoformat_utc catalog terminal_hooks expected_document_id env id document)
| C_request_cancel reason : transition_command id "task:cancel_request" "task.cancel" no_arguments (fun env =>
    request_cancel sha256 isoformat_utc catalog terminal_hooks env id reason)
| C_cancel reason : transition_command id "task:cancel" "task.cancel" no_arguments (fun env =>
    cancel_task sha256 isoformat_utc catalog terminal_hooks env id reason).

Lemma simple_idempotent env ctx s id scope ty body :
  in_ws ctx -> task_event_type ty -> no_floats (JObj body) = true ->
  (ty = "TASK_VERIFICATION_STARTED" -> forall v, get_str body "verification_id" = Some v -> v <> EmptyString) ->
  idempotent s scope ctx (fun _ => Ok tt) (simple_tx isoformat_utc terminal_hooks env ctx s id scope ty body).
Proof. intros. apply idempotent_transition; [done..|apply finishes_result]. Qed.

Lemma account_arg ctx who (db : Db) : _account_uuid ctx who db = (a ← account_of ctx who db; Ok (a, db)).
Proof. unfold account_of, _account_uuid. by repeat case_match. Qed.

(** A check that a replay skips, before the rest. *)
Lemma idempotent_unless s scope ctx id (m : tx Db unit) (r : res unit) (f : unit -> tx Db TaskResult) :
  s.(task_id) = id -> checks m -> (forall u, idempotent s scope ctx (fun _ => r) (f u)) ->
  idempotent s scope ctx (fun _ => r) (unless_replay ctx id scope m ≫= f).
Proof.
  intros <- Hm Hf. apply (idempotent_check s scope ctx _ f (fun _ => Ok tt) (fun _ _ => r)); [by apply checks_unless| |done].
  intros db x Hx. by rewrite (unless_skips _ _ _ _ _ _ Hx).
Qed.

Lemma idempotent_lift {A} s scope ctx (r : res A) (f : A -> tx Db TaskResult) :
  (forall a, idempotent s scope ctx (fun _ => Ok tt) (f a)) -> idempotent s scope ctx (fun _ => _ ← r; Ok tt) (lift r ≫= f).
Proof.
  intros Hf. apply (idempotent_check s scope ctx _ f (fun _ => r) (fun _ _ => Ok tt)); [apply checks_lift| |done].
  intros db x _. by destruct r.
Qed.

Lemma idempotent_account s scope ctx who (r : res unit) (f : string -> tx Db TaskResult) :
  (forall a, idempotent s scope ctx (fun _ => r) (f a)) ->
  idempotent s scope ctx (fun db => _ ← account_of ctx who db; r) (_account_uuid ctx who ≫= f).
Proof.
  intros Hf. apply (idempotent_check s scope ctx _ f (account_of ctx who) (fun _ _ => r)); [apply checks_account| |done].
  intros db x _. apply account_arg.
Qed.

(** Every such command is a permission check and an idempotent transaction. *)
Lemma command_shape id scope p args c :
  transition_command id scope p args c -> exists h, (forall env ctx, c env ctx = (s ← on_task env ctx id p; in_tx (h env ctx s))) /\
    forall env ctx s, in_ws ctx -> s.(task_id) = id -> idempotent s scope ctx (args env ctx s) (h env ctx s).
Proof.
  destruct 1; (eexists (fun env ctx s => _); split; [intros env ctx; reflexivity|]; intros env ctx s Hw Hid; cbv beta; try unfold no_arguments).
  - apply idempotent_account. intros uuid.
    apply idempotent_unless; [done| |].
    + apply checks_bind; [apply checks_lift|intros _]. apply checks_bind; [apply checks_gets|intros ?; apply checks_lift].
    + intros _. apply idempotent_lift. intros hash. apply idempotent_transition; [done|plain_type|done|done|].
      apply finishes_after. intros a s'. apply quiet_keeps, quiet_bind; [apply quiet_assignment|intros _; apply quiet_after].
  - apply idempotent_account. intros uuid. apply idempotent_lift. intros hash.
    apply idempotent_transition; [done|plain_type|done|done|].
    apply finishes_after. intros a s'. apply quiet_keeps, quiet_bind; [apply quiet_assignment|intros _; apply quiet_after].
  - apply idempotent_unless; [done| |intros _; apply simple_idempotent; [done|plain_type|done|done]].
    apply checks_bind; [apply checks_lift|intros _]. apply checks_bind; [apply checks_guard|intros _; apply checks_limits].
  - by apply simple_idempotent; [|plain_type| |].
  - by apply simple_idempotent; [|plain_type| |].
  - by apply simple_idempotent; [|plain_type| |].
  - apply idempotent_unless; [done| |intros _].
    + apply checks_bind; [apply checks_lift|intros _]. apply checks_bind; [apply checks_gets|intros ?; apply checks_lift].
    + apply idempotent_transition; [done|plain_type|cbn; by rewrite texts_no_floats|done|].
      apply (finishes_after _ (fun _ _ => hook (on_implementation_submitted id))). intros a s'. by apply quiet_keeps, quiet_hook.
  - apply simple_idempotent; [done|plain_type|done|]. intros _ v. change (get_str _ _) with (Some (text (lit verification))).
    rewrite text_lit. by intros [= <-].
  - apply idempotent_unless; [done| |intros _].
    + apply checks_same. by intros db u db' [-> _]%complete_check_met.
    + apply idempotent_transition; [done|plain_type|done|done|]. apply finishes_after. intros a s'. by apply on_child_keeps.
  - by apply simple_idempotent; [|plain_type| |].
  - by apply simple_idempotent; [|plain_type| |].
Qed.

Lemma command_keeps id scope p args c env ctx : transition_command id scope p args c -> in_ws ctx -> akeeps (c env ctx).
Proof.
  destruct 1; intros Hw; [by apply delegate_keeps|by apply reassign_keeps|by apply accept_task_keeps| | | |by apply submit_keeps| |by apply complete_keeps| |];
    (apply simple_keeps; [done|plain_type|done|try done]).
  intros _ v. change (get_str _ _) with (Some (text (lit verification))). rewrite text_lit. by intros [= <-].
Qed.

(** A command on a Task that is there: the permission check, then the transaction. *)
Lemma retry_runs {A} env ctx id p (h : TaskState -> tx Db A) (db : Db) l s :
  load_task ctx id db = Ok (s, db) ->
  ((s ← on_task env ctx id p; in_tx (h s)) db l).2 =
  match (permit sha256 catalog env ctx p s.(channel_id) (Some s.(domain)) db l).2 with
  | Ok (_, d) => h s d | Err e => Err e end.
Proof.
  intros Hl. unfold mbind at 1, atx_bind at 1. unfold TaskCommands.on_task. rewrite (atx_bind_step _ _ _ _ s db l) by (unfold in_tx; by rewrite Hl).
  unfold mbind, atx_bind. destruct (permit _ _ _ _ _ _ _ db l) as [l1 [[u d]|]]; [|done]. cbn. by destruct (h s d) as [[]|].
Qed.

Lemma find_first {A} (f : A -> bool) l1 x l2 : find f l1 = None -> f x = true -> find f (l1 ++ x :: l2) = Some x.
Proof. intros H Hx. induction l1 as [|y l1 IH]; cbn in *; [by rewrite Hx|]. destruct (f y); [done|by apply IH]. Qed.

(** The answer to a retry: the Event [e] of the first execution, and no change. *)
Record replayed_as (e : TaskResult) (db : Db) (x : res (TaskResult * Db)) : Prop := {
  ra_result : exists r, x = Ok (r, db) /\ r.(tr_replayed) = true /\ r.(tr_event) = e.(tr_event) /\ r.(tr_seq) = e.(tr_seq) }.

(** C3. A command given again is answered with what the first one did. In any history, when a
    command that is a transition of a Task (delegate, reassign, accept, start, progress, wait,
    submit, start verification, complete, request cancel, cancel) was executed, the same account
    gives a command of the same scope and idempotency key on the same Task, after any number of
    further commands and whatever state the Task is in by then. It is refused only when the
    account may no longer do it (the error of the permission check), or, for a delegation, when
    the assignee it names is no account of the Workspace or the policy snapshot has no canonical
    form; otherwise it returns the same Event and sequence number, marked as replayed, and
    changes nothing: no Event, no row, no work item, no hook. This holds for other arguments
    too: the other body that docs/protocol/event-contract.md answers with IDEMPOTENCY_CONFLICT
    gets the result of the first. *)
Theorem retry_answered (db db1 db2 : Db) id scope p p' args args' c c' env env' ctx ctx' l l1 l2 r :
  history db -> transition_command id scope p args c -> transition_command id scope p' args' c' -> in_ws ctx -> in_ws ctx' ->
  ctx'.(ctx_idempotency_key) = ctx.(ctx_idempotency_key) ->
  ctx'.(ctx_principal).(p_account_uuid) = ctx.(ctx_principal).(p_account_uuid) ->
  c env ctx db l = (l1, Ok (r, db1)) -> r.(tr_replayed) = false -> rtc step db1 db2 ->
  exists s, load_task ctx' id db2 = Ok (s, db2) /\
    match (permit sha256 catalog env' ctx' p' s.(channel_id) (Some s.(domain)) db2 l2).2 ≫= (fun _ => args' env' ctx' s db2) with
    | Ok _ => replayed_as r db2 (c' env' ctx' db2 l2).2
    | Err e => (c' env' ctx' db2 l2).2 = Err e
    end.
Proof.
  intros Hs%history_sound Hc Hc' Hw Hw' Hkey Hac H1 Hrep Hsteps. pose proof (sound_good _ Hs) as Hg.
  destruct (command_shape _ _ _ _ _ Hc) as (h & E & Hh), (command_shape _ _ _ _ _ Hc') as (h' & E' & Hh').
  destruct (akeeps_sound _ _ _ _ _ _ (command_keeps _ _ _ _ _ env ctx Hc Hw) Hs H1) as [Hs1 _].
  destruct (steps_sound _ _ Hsteps Hs1) as [Hs2 [more Emore]]. pose proof (sound_good _ Hs2) as Hg2.
  rewrite E in H1. apply atx_bind_ok in H1 as (s & d & k & Hl%on_task_ok & [_ H1]%in_tx_ok).
  destruct (load_task_ok ws _ _ _ _ _ Hg Hw Hl) as (-> & Ht & Hid & Hok). rewrite <- Hid in Ht, Hok.
  destruct (id_first _ _ _ _ _ (Hh env ctx s Hw Hid) db r db1 Hg Ht Hok H1 Hrep) as (Hn & e & f & El & Hk & Hsame & Hev & Hseq). rewrite Hid in *.
  destruct (inv_tasks _ _ _ (good_inv _ _ Hg2) id Ht) as [[Hnone _]|[s2 Hok2]].
  { assert (e ∈ events_of id (log db2)) as Hin; [|rewrite Hnone in Hin; by apply elem_of_nil in Hin].
    apply (stream_about ws); [done|apply Hg2|]. apply list_elem_of_filter. split; [done|]. rewrite Emore, El. set_solver. }
  exists s2. assert (load_task ctx' id db2 = Ok (s2, db2)) as Hl2 by (by eapply load_found). split; [done|].
  pose proof (task_ok_id _ _ _ _ _ Hok2) as Hid2.
  assert (_replay_from_stream ctx' (task_id s2) scope db2 = Some (result_of e)) as Hx.
  { unfold _replay_from_stream, stream. rewrite Hid2, Hw'. change (lit ws, lit "task", lit id) with (task_key ws id).
    rewrite Emore, El, <- app_assoc, in_stream_app. cbn [app]. change (e :: f ++ more) with ([e] ++ f ++ more).
    rewrite in_stream_app, in_stream_one, Hk, decide_True by done. unfold stream in Hn. rewrite Hw in Hn.
    change (lit ws, lit "task", lit id) with (task_key ws id) in Hn.
    assert (same_command ctx' scope = same_command ctx scope) as -> by (unfold same_command; by rewrite Hkey, Hac).
    cbn [app]. by rewrite (find_first _ _ e _ Hn Hsame). }
  pose proof (id_again _ _ _ _ _ (Hh' env' ctx' s2 Hw' Hid2) _ _ Hx) as Hagain. rewrite E'.
  rewrite (retry_runs _ _ _ _ _ _ _ _ Hl2). destruct (permit _ _ _ _ _ _ _ db2 l2) as [l3 [[u d]|]] eqn:Hp; [|done].
  apply permit_same in Hp as ->. cbn [snd mbind res_bind] in *. destruct (args' env' ctx' s2 db2) as [u'|]; [|done].
  destruct Hagain as (r' & Hr' & R1 & R2 & R3). split. exists r'. by rewrite R1, R2, R3, <- Hev, <- Hseq.
Qed.

(** ** The verdict that no history has *)

(** A verdict on a run of a phase, recorded under the id of the verification on which the Task
    it names waits, verifies the Task and leaves its row behind: [load_task] folds the Event to
    VERIFIED, and the row still says VERIFYING. *)
Theorem verdict_of_another_run_diverges (db db' : Db) ctx cmd key caused_by seq a r :
  history db -> in_ws ctx -> cmd.(rv_task) <> EmptyString -> cmd.(rv_verification) <> EmptyString -> cmd.(rv_result) = "PASSED" ->
  rows db !! cmd.(rv_task) = Some r -> row_waits_on cmd.(rv_verification) r ->
  TaskCommands._append (verdict_of_another_run ctx cmd key caused_by seq) db = Ok (a, db') -> a.(replayed) = false ->
  rows db' !! cmd.(rv_task) = Some r /\ exists s, load_task ctx cmd.(rv_task) db' = Ok (s, db') /\ s.(status) = VERIFIED.
Proof.
  intros [Hg _]%history_sound Hw Ht Hv Hres Hrow [Hwait1 Hwait2] Ha Hrep. pose proof Hg as [Hok Hi].
  assert (plain (verdict_of_another_run ctx cmd key caused_by seq)) as Hpl by (split; [apply result_no_floats|done]).
  destruct (task_append_ok _ _ _ _ Hok Hpl Ha) as (s1 & -> & Hok1 & [[? _]|(_ & e & Hlog & _ & Hst & Hlt)] & _); [congruence|].
  split; [done|]. assert (cmd.(rv_result) ∈ ["PASSED"; "FAILED"; "BLOCKED"]) as Hin by (rewrite Hres; by left).
  destruct (stored_result ws ctx cmd _ a e Hst Hw Hv Hin eq_refl eq_refl eq_refl eq_refl) as (Hp & Hr & Hid).
  destruct (inv_tasks _ _ _ Hi _ Ht) as [[_ Hn]|[s Hs]]; [congruence|].
  destruct (ok_row _ _ _ _ _ Hs) as (r' & Hr' & [Er He _]). rewrite Hrow in Hr'. injection Hr' as <-.
  rewrite Er in Hwait1, Hwait2. cbn in Hwait1, Hwait2. pose proof (result_not_creation e Hr) as Hc.
  assert (exists s', apply_event s (task_event e) = Ok s' /\ s'.(status) = VERIFIED) as (s' & Happ & Hver).
  { eapply passed_verifies; try done; [|by rewrite (task_ok_id _ _ _ _ _ Hs), (st_task _ _ _ Hst)|by rewrite Hid].
    rewrite (rec_type _ _ (st_records _ _ _ Hst)). cbn. by rewrite text_lit, Hres. }
  assert (inv ws (log db ++ [e]) (write_state s' None (rows db))) as Hi'.
  { assert (is_join e = false) as Hj by (unfold is_join; apply String.eqb_neq; intros E; unfold is_result in Hr; by rewrite E in Hr).
    eapply (inv_push ws _ _ e (rv_task cmd) s s'); try done; [apply Hst| |by rewrite Hj].
    intros Hty. unfold is_result in Hr. by rewrite Hty in Hr. }
  set (d := with_projection (write_state s' None (rows db)) (with_store s1 db)).
  assert (log d = log db ++ [e]) as El by exact Hlog.
  assert (good d) as Hgd by (split; [done|by rewrite El]).
  assert (task_ok ws cmd.(rv_task) (log d) (rows d) s') as Hs'.
  { apply (inv_task_state ws _ _ _ _ (good_inv _ _ Hgd)); [done|rewrite El; by eapply task_next|].
    by destruct (apply_event_fixed _ _ _ Hc Happ) as (_ & _ & _ & _ & _ & _ & _ & _ & -> & _). }
  pose proof (load_found ctx _ d _ _ Hgd Hw Ht Hs') as Hload.
  apply (load_projection _ _ _ (rows db)) in Hload. exists s'. split; [|done]. by destruct db.
Qed.

(** ** Join policies *)

(** A Task keeps its parent and its join policy. *)
Lemma grows_kin (db db' : Db) t s s' :
  good db -> good db' -> grows db db' -> t <> EmptyString ->
  task_ok ws t (log db) (rows db) s -> task_ok ws t (log db') (rows db') s' -> kin s' s.
Proof.
  intros Hg Hg' G Ht Hs Hs'. destruct (origin_kin _ _ _ _ Hs) as (o & Ho & [A1 A2 A3 A4]), (origin_kin _ _ _ _ Hs') as (o' & Ho' & [B1 B2 B3 B4]).
  rewrite (origin_grows db db' t Hg Hg' G Ht), Ho in Ho'. injection Ho' as <-. split; congruence.
Qed.

(** A join policy that cannot be read stops the sub-Tasks. [create_task] stores the join
    policy it is given; when its mode is unknown or its quorum is not a positive number, then
    in any later history no PASSED result of a sub-Task is recorded and no sub-Task is
    completed: the commands fail, and only what was recorded before can be repeated. *)
Theorem unreadable_policy_stops_children (db : Db) ctx parent child sp sc code :
  history db -> in_ws ctx -> load_task ctx parent db = Ok (sp, db) -> join_mode sp.(join_policy) = Err code ->
  load_task ctx child db = Ok (sc, db) -> sc.(parent_task_id) = Some parent ->
  (forall env cmd l l' r db', cmd.(rv_task) = child -> cmd.(rv_result) = "PASSED" ->
     record_verification_result sha256 isoformat_utc catalog env cmd ctx db l = (l', Ok (r, db')) -> r.(tr_replayed) = true) /\
  (forall env document l l' r db',
     complete_task sha256 isoformat_utc catalog terminal_hooks expected_document_id env child document ctx db l = (l', Ok (r, db')) ->
     r.(tr_replayed) = true).
Proof.
  intros [Hg _]%history_sound Hw Hlp Hmode Hlc Hpar.
  destruct (load_task_ok ws _ _ _ _ _ Hg Hw Hlp) as (_ & Hp & _ & Hsp), (load_task_ok ws _ _ _ _ _ Hg Hw Hlc) as (_ & Hc & Hcid & Hsc).
  assert (forall env d s' u d', good d -> grows db d -> kin s' sc -> on_child_terminal isoformat_utc env ctx s' d <> Ok (u, d')) as Hno.
  { intros env d s' u d' Hgd G [Kp _ _ _] H. unfold on_child_terminal in H.
    rewrite Kp, Hpar in H. unfold py_or in H. cbn [truthy] in H. rewrite (proj2 (String.eqb_neq _ _) Hp) in H. cbn [negb] in H.
    unfold record_join_if_satisfied in H. apply tx_bind_ok in H as (q & d1 & Hl & H).
    destruct (load_task_ok ws _ _ _ _ _ Hgd Hw Hl) as (-> & _ & _ & Hq). rewrite (task_ok_exists _ _ _ _ _ Hq) in H. cbn [negb] in H.
    apply tx_bind_ok in H as (d1 & d2 & [<- <-]%gets_ok & H). apply tx_bind_ok in H as (j & d2 & [Hj _]%lift_ok & _).
    unfold evaluate_parent_join, evaluate_join in Hj. rewrite (kin_policy _ _ (grows_kin db d parent sp q Hg Hgd G Hp Hsp Hq)), Hmode in Hj. done. }
  split.
  - intros env cmd l l' r db' Ht Hres H. unfold record_verification_result in H. rewrite Ht in H.
    apply atx_bind_ok in H as (s & d & k & Hl%on_task_ok & [_ H]%in_tx_ok). rewrite Hlc in Hl. injection Hl as <- <-.
    apply (result_recorded isoformat_utc ws) in H as [[Hr _]|(d & s' & u & Hgd & G & Hs' & H)]; try done; rewrite ?Ht; try done.
    rewrite Hres in H. rewrite Ht in Hs'. by destruct (Hno env d s' u db' Hgd G (grows_kin db d child sc s' Hg Hgd G Hc Hsc Hs')).
  - intros env document l l' r db' H. unfold complete_task in H.
    apply atx_bind_ok in H as (s & d & k & Hl%on_task_ok & [_ H]%in_tx_ok). rewrite Hlc in Hl. injection Hl as <- <-. unfold complete_tx in H.
    apply tx_bind_ok in H as (u & d & Hcheck & H). apply tx_bind_ok in H as ([a s'] & d1 & Htr & H).
    apply tx_bind_ok in H as (? & d2 & Hch & [<- <-]%tx_ret_ok). cbn [tr_replayed _result].
    assert (d = db) as ->.
    { unfold unless_replay in Hcheck. destruct (_replay_from_stream _ _ _ _); [by injection Hcheck as _ <-|by apply complete_check_met in Hcheck as [-> _]]. }
    apply (task_transition_ok isoformat_utc terminal_hooks ws) in Htr as (Hg1 & G & Hcase);
      [|exact hooks_quiet|done|done|by rewrite Hcid|by rewrite Hcid|plain_type|done|done].
    destruct Hcase as [[Hr _]|(Hr & e & f & El & _ & Happ)]; [done|]. rewrite Hr in Hch. exfalso.
    pose proof (gr_log _ _ G) as (y & Ey & Hy). rewrite El in Ey. apply app_inv_head in Ey as <-. apply Forall_cons in Hy as [He _].
    by eapply (Hno env d1 s' _ d2 Hg1 G (kin_event _ _ _ Happ He)).
Qed.
End traces.

(** ** An example *)

Module Sample.
#[local] Existing Instance numbered_log.
#[local] Existing Instance numbered_reads.

Definition permissions : list string := [
  "task.create"; "task.delegate"; "task.accept"; "task.progress"; "task.submit"; "verification.assign"; "verification.submit";
  "task.complete"].

Definition catalog : PolicyCatalog := {|
  listed := (fun p => (p, false)) <$> permissions;
  action_classes := list_to_map [("internal_write", {| class_risk := "LOW"; class_approval := "none" |})];
  action_specs := (fun p => ("command:" +:+ p, {| spec_class := "internal_write"; spec_permission := p |})) <$> permissions;
  unclassified_default := "HIGH"; quorums := list_to_map [("LOW", 0)]; human_only_from := "HIGH";
  capabilities := []; roles_raw := [] |}.

Definition account (name type : string) : PrincipalInfo := {|
  account_id := "acct-" +:+ name; account_uuid := "uuid-" +:+ name; workspace_uuid := "ws"; account_type := type;
  principal_status := "ACTIVE"; Authority.agent_id := None |}.

Definition unrestricted : RawConstraints := {|
  raw_domains := None; raw_side_effects := None; raw_requires_human_approval := None; raw_channels := None;
  raw_resources := None; raw_max_risk := None |}.

Definition members : Authority.Db := {|
  accounts := list_to_map [("acct-h", account "h" "human"); ("acct-a", account "a" "agent")];
  roles := {["role" := {| role_workspace := "ws"; Authority.display_name := "Member"; current_version := 1; row_status := "active" |}]};
  role_versions := {[("role", 1) := {| v_permissions := ["task.*"; "verification.*"]; v_deny := []; v_constraints := unrestricted;
                                       v_policy_hash := []; v_event_id := None; v_created_by := "root" |}]};
  assignments := (fun n => {| a_account := n; a_role := "role"; a_scope := JNull; valid_from := 0; valid_to := None;
    assigned_by := "root"; Authority.a_event_id := None; revoked_at := None; revoke_event_id := None |}) <$> ["uuid-h"; "uuid-a"];
  agent_capabilities := ∅; channel_ids := {["ch" := "ch"]};
  channel_members := list_to_map ((fun n => (("ch", n), "active")) <$> ["uuid-h"; "uuid-a"]) |}.

Definition sha (b : list N) : ustr := lit "0123456789abcdef".
Definition no_str (v : json) : ustr := [].

#[local] Notation State := (@TaskCommands.Db (list HashChain.Event) unit).

Definition nothing : State := {|
  projection := ∅; edges := ∅; task_assignments := []; criteria_rows := []; joins := ∅; authority := members;
  agents := {["uuid-a" := "agent-a"]}; channel_templates := ∅;
  inbox := {| work_items := ∅; receipts := []; next_receipt_id := 1; audit_events := []; event_store := [] |}; world := tt |}.

Definition env : Env := {|
  clk i := Z.of_nat i; authorized_at := 5; audit_id := "aud"; work_item_hex := "wi-1"; policy_snapshot := JObj [] |}.

Definition by_ (name key : string) : CommandContext := {|
  ctx_principal := {| p_account_id := "acct-" +:+ name; p_account_uuid := "uuid-" +:+ name;
                      p_credential_fingerprint := EmptyString; mfa_verified := false |};
  ctx_workspace_id := "ws"; ctx_correlation_id := "c"; ctx_idempotency_key := key; ctx_expected_seq := None;
  reauth_verified := false |}.

Definition nohook (_ : string) : tx (unit * list HashChain.Event) unit := mret tt.
Definition nolimit (_ _ : string) : tx unit unit := mret tt.
Definition report_of (_ : string) (_ : unit) : option string := Some "doc-1".

Lemma nohook_quiet id : well_behaved (nohook id).
Proof. intros w s u w' s' H [= _ <- <-]. split; [done|apply appends_refl]. Qed.

Definition criteria : list entry := [[(lit "statement", JStr (lit "tests pass")); (lit "check_type", jtext "test_command")]].

Definition parent (policy : list (ustr * json)) : CreateTask := {|
  ct_title := "parent"; ct_channel_id := "ch"; ct_domain := "d"; ct_risk := "LOW"; ct_task_id := Some "t1"; ct_join_policy := policy;
  ct_criteria := [] |}.
Definition child : CreateSubtask := {|
  cs_parent := "t1"; cs_title := "child"; cs_domain := "d"; cs_risk := "LOW"; cs_task_id := Some "t2"; cs_criteria := criteria |}.
Definition passed : RecordVerificationResult := {|
  rv_task := "t2"; rv_verification := "v1"; rv_result := "PASSED"; rv_revision := 1; rv_evidence := []; rv_findings := []; rv_reason := "" |}.

(** The commands, by a human and by the Agent. *)
#[local] Notation create_parent p := (create_task sha no_str str_int catalog env (parent p) (by_ "h" "k1")).
#[local] Notation create_child := (create_subtask sha no_str str_int catalog env child (by_ "h" "k2")).
#[local] Notation delegate := (delegate_task sha str_int catalog nohook env "t2" "acct-a" "SKILL" (by_ "h" "k3")).
#[local] Notation accept := (accept_task sha str_int catalog nohook nolimit env "t2" (by_ "a" "k4")).
#[local] Notation start := (start_task sha str_int catalog nohook env "t2" (by_ "a" "k5")).
#[local] Notation submit :=
  (submit_implementation sha str_int catalog nohook nohook env "t2" ["crit-0123456789abcdef:log"] 1 (by_ "a" "k6")).
#[local] Notation verify := (start_verification sha str_int catalog nohook env "t2" "v1" (by_ "h" "k7")).
#[local] Notation result := (record_verification_result sha str_int catalog env passed (by_ "h" "k8")).
#[local] Notation complete := (complete_task sha str_int catalog nohook report_of env "t2" "doc-1" (by_ "h" "k9")).

#[local] Notation after m db := (Tx.committed (m db []) db).

Definition unreadable : list (ustr * json) := [(lit "mode", jtext "QUORUM")].

Definition verifying (policy : list (ustr * json)) : State :=
  let d := after (create_parent policy) nothing in let d := after create_child d in let d := after delegate d in
  let d := after accept d in let d := after start d in let d := after submit d in after verify d.

Definition waiting : State := Eval vm_compute in verifying [].
Definition verified : State := Eval vm_compute in after result waiting.
Definition completed : State := Eval vm_compute in after complete verified.
Definition stuck : State := Eval vm_compute in verifying unreadable.

#[local] Notation step := (step sha no_str str_int catalog nohook nohook report_of nolimit "ws").
#[local] Notation history := (history sha no_str str_int catalog nohook nohook report_of nolimit "ws").

Lemma verifying_history policy : no_floats (JObj policy) = true -> history (verifying policy).
Proof.
  intros Hp. exists nothing. split; [by split|]. unfold verifying. cbv zeta.
  eapply rtc_r; [|by apply Verify]. eapply rtc_r; [|by apply Submit]. eapply rtc_r; [|by apply Start].
  eapply rtc_r; [|by apply Accept]. eapply rtc_r; [|by apply Delegate]. eapply rtc_r; [|by apply Create_subtask].
  apply rtc_once. by apply Create.
Qed.

Lemma completed_history : history verified /\ history completed /\ history stuck.
Proof.
  assert (history verified) as Hv.
  { destruct (verifying_history []) as (d & Hd & H); [done|]. exists d. split; [done|]. eapply rtc_r; [exact H|].
    replace verified with (after result (verifying [])) by (vm_compute; reflexivity). by apply Result_. }
  split; [done|]. split.
  - destruct Hv as (d & Hd & H). exists d. split; [done|]. eapply rtc_r; [exact H|].
    replace completed with (after complete verified) by (vm_compute; reflexivity). by apply Complete.
  - replace stuck with (verifying unreadable) by (vm_compute; reflexivity). by apply verifying_history.
Qed.

Definition row_status (db : State) (t : string) : option TaskStatus := c_status <$> db.(projection) !! t.

Lemma t1_joined : exists s, load_task (by_ "h" "k") "t1" completed = Ok (s, completed) /\ join_satisfied s = true.
Proof. eexists. vm_compute. split; reflexivity. Qed.

Lemma read_model_is_rebuild_witness :
  exists s at_ last_seq rebuilt skipped at',
    load_task (by_ "h" "k") "t1" completed = Ok (s, completed) /\ s.(join_satisfied) = true /\
    completed.(projection) !! "t1" = Some (new_row s at_) /\
    rebuild None (log completed) completed.(projection) = Some (last_seq, (rebuilt, skipped)) /\ rebuilt !! "t1" = Some (new_row s (Some at')).
Proof.
  destruct (read_model_is_rebuild sha no_str str_int catalog nohook nohook report_of nolimit "ws" nohook_quiet nohook_quiet completed
    (by_ "h" "k") "t1") as [[_ H]|(s & at_ & n & rs & sk & at' & H1 & H2 & H3 & H4)];
    [apply completed_history|reflexivity|done|by vm_compute in H|].
  exists s, at_, n, rs, sk, at'. split; [exact H1|]. split; [|split; [exact H2|split; [exact H3|exact H4]]].
  destruct t1_joined as (s' & Hs' & Hj). rewrite H1 in Hs'. by injection Hs' as ->.
Defined.

Lemma verified_was_verified_witness :
  exists r, completed.(projection) !! "t2" = Some r /\ r.(c_status) = COMPLETED /\ r.(c_verification_status) = Some "PASSED".
Proof.
  assert (exists r, completed.(projection) !! "t2" = Some r /\ r.(c_status) = COMPLETED) as (r & Hr & Hs)
    by (eexists; split; vm_compute; reflexivity).
  exists r. split_and!; [exact Hr|exact Hs|].
  exact (proj1 (verified_was_verified sha no_str str_int catalog nohook nohook report_of nolimit "ws" nohook_quiet nohook_quiet completed
    "t2" r (proj1 (proj2 completed_history)) ltac:(done) Hr (or_intror Hs))).
Defined.

(** A verdict on the run of a phase that names the Task "t2" while it waits on this very id. *)
Definition phase_verdict : AppendRequest :=
  verdict_of_another_run (by_ "h" "k8") passed "k8" None 1.

Definition overtaken : State := Eval vm_compute in
  match TaskCommands._append phase_verdict waiting with Ok (_, db) => db | Err _ => waiting end.

Lemma verdict_of_another_run_diverges_witness :
  (c_status <$> overtaken.(projection) !! "t2") = Some VERIFYING /\
  exists s, load_task (by_ "h" "k8") "t2" overtaken = Ok (s, overtaken) /\ s.(status) = VERIFIED.
Proof.
  assert (exists a, TaskCommands._append phase_verdict waiting = Ok (a, overtaken) /\ a.(replayed) = false) as (a & Ha & Hr)
    by (eexists; split; vm_compute; reflexivity).
  assert (exists r, waiting.(projection) !! "t2" = Some r /\ c_status r = VERIFYING /\ c_policy_snapshot r = Some "v1") as (r & H1 & H2 & H3)
    by (eexists; split_and!; vm_compute; reflexivity).
  assert (history waiting) as Hh by (replace waiting with (verifying []) by (vm_compute; reflexivity); by apply verifying_history).
  destruct (verdict_of_another_run_diverges sha no_str str_int catalog nohook nohook report_of nolimit "ws" nohook_quiet nohook_quiet
    waiting overtaken (by_ "h" "k8") passed "k8" None 1 a r Hh eq_refl ltac:(done) ltac:(done) eq_refl H1 (conj H2 H3) Ha Hr) as [H4 H5].
  split; [exact (eq_trans (f_equal (fmap c_status) H4) (f_equal Some H2))|exact H5].
Defined.

Lemma t2_loads : exists s, load_task (by_ "h" "k") "t2" completed = Ok (s, completed).
Proof. eexists. vm_compute. reflexivity. Qed.

Lemma sub_tasks_form_forest_witness :
  exists s, load_task (by_ "h" "k") "t2" completed = Ok (s, completed) /\ 0 <= TaskState.delegation_depth s <= 64.
Proof.
  destruct t2_loads as [s Hs]. exists s. split; [exact Hs|].
  exact (proj1 (sub_tasks_form_forest sha no_str str_int catalog nohook nohook report_of nolimit "ws" nohook_quiet nohook_quiet completed
    (by_ "h" "k") "t2" s completed (proj1 (proj2 completed_history)) eq_refl Hs)).
Defined.

Lemma join_recorded_once_witness :
  length (List.filter (fun e => is_join e && bool_decide (aggregate_of e = task_key "ws" "t1")) (log completed)) = 1%nat.
Proof.
  destruct t1_joined as (s & Hs & Hj).
  rewrite (join_recorded_once sha no_str str_int catalog nohook nohook report_of nolimit "ws" nohook_quiet nohook_quiet completed
    (by_ "h" "k") "t1" s completed (proj1 (proj2 completed_history)) eq_refl Hs). by rewrite Hj.
Defined.

Lemma completes : exists l r, complete verified [] = (l, Ok (r, completed)) /\ r.(tr_replayed) = false.
Proof. eexists _, _. vm_compute. split; reflexivity. Qed.

Lemma completion_needs_witness :
  exists s, load_task (by_ "h" "k9") "t2" verified = Ok (s, verified) /\ s.(status) = VERIFIED.
Proof.
  destruct completes as (l & r & H & Hr).
  destruct (completion_needs sha no_str str_int catalog nohook nohook report_of nolimit "ws" nohook_quiet nohook_quiet verified
    env "t2" "doc-1" (by_ "h" "k9") [] l r completed (proj1 completed_history) eq_refl H Hr) as (s & H1 & H2 & _).
  exists s. split; [exact H1|exact H2].
Defined.

Definition state_of (t : string) (db : State) : TaskState :=
  match load_task (by_ "h" "k8") t db with Ok (s, _) => s | Err _ => initial_state t end.

(** The acceptance, given again after the completion. *)
Definition delegated : State := Eval vm_compute in after delegate (after create_child (after (create_parent []) nothing)).
Definition accepted : State := Eval vm_compute in after accept delegated.

Lemma accepts : exists l r, accept delegated [] = (l, Ok (r, accepted)) /\ r.(tr_replayed) = false.
Proof. eexists _, _. vm_compute. split; reflexivity. Qed.

Lemma delegated_history : history delegated.
Proof.
  exists nothing. split; [by split|].
  replace delegated with (after delegate (after create_child (after (create_parent []) nothing))) by (vm_compute; reflexivity).
  eapply rtc_r; [|by apply Delegate]. eapply rtc_r; [|by apply Create_subtask]. apply rtc_once. by apply Create.
Qed.

Lemma accepted_to_completed : rtc step accepted completed.
Proof.
  replace completed with (after complete (after result (after verify (after submit (after start accepted))))) by (vm_compute; reflexivity).
  eapply rtc_r; [|by apply Complete]. eapply rtc_r; [|by apply Result_]. eapply rtc_r; [|by apply Verify].
  eapply rtc_r; [|by apply Submit]. apply rtc_once. by apply Start.
Qed.

Definition final : TaskState := Eval vm_compute in state_of "t2" completed.

Lemma final_loads : load_task (by_ "a" "k4") "t2" completed = Ok (final, completed).
Proof. vm_compute. reflexivity. Qed.

Lemma final_permitted :
  (permit sha catalog env (by_ "a" "k4") "task.accept" final.(channel_id) (Some final.(domain)) completed []).2 = Ok (tt, completed).
Proof. vm_compute. reflexivity. Qed.

Lemma retry_answered_witness :
  exists l1 r, accept delegated [] = (l1, Ok (r, accepted)) /\
    exists r', (accept completed []).2 = Ok (r', completed) /\ r'.(tr_replayed) = true /\ r'.(tr_event) = r.(tr_event).
Proof.
  destruct accepts as (l1 & r & H1 & Hr). exists l1, r. split; [exact H1|].
  destruct (retry_answered sha no_str str_int catalog nohook nohook report_of nolimit "ws" nohook_quiet nohook_quiet
    delegated accepted completed "t2" "task:accept" "task.accept" "task.accept" _ _ _ _ env env (by_ "a" "k4") (by_ "a" "k4") [] l1 [] r
    delegated_history (C_accept sha str_int catalog nohook nohook report_of nolimit "t2")
    (C_accept sha str_int catalog nohook nohook report_of nolimit "t2") eq_refl eq_refl eq_refl eq_refl H1 Hr accepted_to_completed)
    as (s & Hl & H).
  rewrite final_loads in Hl. assert (s = final) as -> by congruence. rewrite final_permitted in H.
  destruct H as [(r' & H2 & H3 & H4 & _)]. exists r'. split; [exact H2|]. split; [exact H3|exact H4].
Defined.

(** The same Tasks under a quorum without a number. *)
Definition stuck_parent : TaskState := Eval vm_compute in state_of "t1" stuck.
Definition stuck_child : TaskState := Eval vm_compute in state_of "t2" stuck.

Lemma stuck_parent_loads : load_task (by_ "h" "k8") "t1" stuck = Ok (stuck_parent, stuck).
Proof. vm_compute. reflexivity. Qed.

Lemma stuck_child_loads : load_task (by_ "h" "k8") "t2" stuck = Ok (stuck_child, stuck).
Proof. vm_compute. reflexivity. Qed.

Lemma unreadable_policy_stops_children_witness :
  (result stuck []).2 = Err "TASK_JOIN_POLICY_INVALID" /\
  forall l l' r db', result stuck l = (l', Ok (r, db')) -> r.(tr_replayed) = true.
Proof.
  split; [vm_compute; reflexivity|].
  exact (fun l l' r db' => proj1 (unreadable_policy_stops_children sha no_str str_int catalog nohook nohook report_of nolimit "ws"
    nohook_quiet nohook_quiet stuck (by_ "h" "k8") "t1" "t2" stuck_parent stuck_child "TASK_JOIN_POLICY_INVALID" (proj2 (proj2 completed_history)) eq_refl
    stuck_parent_loads eq_refl stuck_child_loads eq_refl)
    env passed l l' r db' eq_refl eq_refl).
Defined.
End Sample.
