(* ===== verification/Routing.v ===== *)
(** Which Agent a Task is given to ([server/agents/routing.py]): the eligible Agents, their
    order, and the recorded decision. The policy engine is asked for every Agent that passes
    the tables; a refusal is audited by [independent_audit_sink] in a transaction of its own,
    which waits for the lock of the audit chain. The lock is held by the first transaction
    that appended an audit row until it ends, so a caller that has appended one waits for
    itself. *)

From S2P Require Import Prelude Tx Canonical Policy Catalog Authority Inbox TaskState TaskProjection.
Open Scope Z_scope.

Definition ACTIVE_TASK_STATUSES : list TaskStatus := [DELEGATED; ACCEPTED; RUNNING; WAITING; IMPLEMENTED; VERIFYING].

Definition supports_secret_handles (adapter_type : string) : bool := negb (String.eqb adapter_type "mattermost_bot").

(** ** Tables *)

(** A row of [agents]; of its [limits] only [concurrent_tasks] is read. *)
Record AgentRow := {
  ag_workspace : string; ag_agent_id : string; ag_account : string; ag_adapter_type : string; ag_capacity : option Z;
  ag_concurrent_tasks : pyscalar; ag_online : bool; ag_status : string }.

Record Candidate := {
  cd_agent_id : string; cd_account_uuid : string; cd_account_id : string; cd_adapter_type : string;
  cd_score : Z; cd_capacity : Z; cd_load : Z; cd_domain_match : bool }.

(** A row of [routing_decisions]. *)
Record Decision := {
  rd_workspace : string; rd_purpose : string; rd_task : option string; rd_verification : option string;
  rd_capability : option string; rd_domain : option string; rd_candidates : list Candidate;
  rd_selected : option Candidate; rd_reason : string; rd_correlation : string; rd_decided_at : Z }.

(** [writers]: the memberships whose permissions contain "write". [audit_locked]: the
    transaction holds the lock of the audit chain. *)
Record Tables := {
  agent_rows : list AgentRow;
  writers : gset (string * string);
  capability_domains : gmap string string;
  routing_decisions : list Decision;
  audit_events : list AuditRow;
  audit_locked : bool }.

(** What a selection asks for. *)
Record Query := {
  rq_workspace : string; rq_channel : option string; rq_capability : option string; rq_dom : option string;
  rq_secret_handles : bool; rq_exclude : list string; rq_permission : string; rq_correlation : string }.

(** The code of a call that never returns. *)
Definition HANGS : string := "<waits for its own lock>".

(** A step whose audit rows need the lock of the audit chain. *)
Definition through_sink {L D A} (locked : bool) (m : atx L D A) : atx L D A := fun db l =>
  let '(rows, r) := m db [] in
  if locked && negb (bool_decide (rows = [])) then (l, Err HANGS) else (l ++ rows, r).

Section routing.
Context (sha256 : list N -> ustr) (catalog : PolicyCatalog).
(** The rows the selection reads; the time and the audit id of each authorization. *)
Context (authority : Authority.Db) (projection : Rows) (authorized_at : string -> Z) (new_audit_id : string -> string).

(** [JOIN accounts ac ON ac.id = ag.account_id] *)
Definition account_of (a : AgentRow) : option PrincipalInfo :=
  find (fun p => String.eqb p.(account_uuid) a.(ag_account)) (snd <$> map_to_list authority.(accounts)).

Definition load_of (account_uuid : string) : Z :=
  Z.of_nat (length (List.filter (fun r => bool_decide (r.(c_assignee_account_id) = Some account_uuid) &&
    mem r.(c_status) ACTIVE_TASK_STATUSES) (snd <$> map_to_list projection))).

Definition is_writer (t : Tables) (channel account : string) : bool :=
  bool_decide (authority.(channel_members) !! (channel, account) = Some "active") &&
  bool_decide ((channel, account) ∈ t.(writers)).

Definition has_capability (agent : string) (cap : option string) : bool :=
  match cap with Some c => bool_decide ((agent, c) ∈ authority.(agent_capabilities)) | None => false end.

Definition in_domain (t : Tables) (agent : string) (dom : option string) : bool :=
  existsb (fun e => String.eqb e.1 agent && bool_decide (is_Some dom) && bool_decide (t.(capability_domains) !! e.2 = dom))
    (elements authority.(agent_capabilities)).

(** Why a row is not eligible. *)
Definition reasons (t : Tables) (q : Query) (a : AgentRow) : list string :=
  (if negb (String.eqb a.(ag_status) "active") then ["status:" +:+ a.(ag_status)] else []) ++
  (if negb a.(ag_online) then ["offline"] else []) ++
  (if truthy q.(rq_channel) && negb (is_writer t (default EmptyString q.(rq_channel)) a.(ag_account)) then ["not_member"] else []) ++
  (if truthy q.(rq_capability) && negb (has_capability a.(ag_agent_id) q.(rq_capability)) then ["capability_missing"] else []) ++
  (if q.(rq_secret_handles) && negb (supports_secret_handles a.(ag_adapter_type)) then ["secret_handles_unsupported"] else []).

Definition effective_capacity (a : AgentRow) : Z :=
  let c := default 0 a.(ag_capacity) in
  match py_int a.(ag_concurrent_tasks) with
  | Some n => if 0 <? n then Z.min c n else c
  | None => c
  end.

(** [_policy_allows], with the engine behind [BusAuthorizer]. *)
Definition _policy_allows (q : Query) (account_id : string) : audited bool := fun log =>
  let '(log, r) := authorize sha256 catalog (new_audit_id account_id) authority (authorized_at account_id) account_id {|
    Authority.q_permission := q.(rq_permission); q_action := None; q_domain := q.(rq_dom); q_channel_id := q.(rq_channel);
    q_resource := None; q_side_effect := false; q_required_capability := q.(rq_capability);
    Authority.q_correlation_id := q.(rq_correlation); q_target_type := "routing"; q_target_id := account_id |} log in
  (log, r ≫= fun a => Ok a.(is_allowed)).

Definition candidate (t : Tables) (q : Query) (a : AgentRow) (p : PrincipalInfo) : Candidate :=
  let load := load_of a.(ag_account) in
  let matches := in_domain t a.(ag_agent_id) q.(rq_dom) in {|
  cd_agent_id := a.(ag_agent_id); cd_account_uuid := a.(ag_account); cd_account_id := p.(account_id);
  cd_adapter_type := a.(ag_adapter_type); cd_score := (if matches then 2 else 0) + (if load =? 0 then 1 else 0);
  cd_capacity := effective_capacity a; cd_load := load; cd_domain_match := matches |}.

(** The row passes the tables: the account, the reasons and the room left. *)
Definition passes (t : Tables) (q : Query) (a : AgentRow) : option PrincipalInfo :=
  p ← account_of a;
  if mem a.(ag_account) q.(rq_exclude) || mem p.(account_id) q.(rq_exclude) then None
  else if negb (bool_decide (reasons t q a = [])) then None
  else if effective_capacity a - load_of a.(ag_account) <=? 0 then None
  else Some p.

Fixpoint scan (t : Tables) (q : Query) (rows : list AgentRow) : atx AuditRecord unit (list Candidate) :=
  match rows with
  | [] => mret []
  | a :: rows =>
      match passes t q a with
      | None => scan t q rows
      | Some p =>
          allowed ← through_sink t.(audit_locked) (fun _ l =>
            let '(l, r) := _policy_allows q p.(account_id) l in (l, r ≫= fun b => Ok (b, tt)));
          rest ← scan t q rows;
          mret (if allowed : bool then candidate t q a p :: rest else rest)
      end
  end.

(** [(-score, agent_id)] *)
Definition candidate_leb (x y : Candidate) : bool :=
  if cd_score x =? cd_score y then String.leb x.(cd_agent_id) y.(cd_agent_id) else cd_score y <? cd_score x.

(** The rows of the query, in its order. *)
Definition pool (t : Tables) (q : Query) : list AgentRow :=
  py_sorted (key_leb_of ag_agent_id) (List.filter (fun a => String.eqb a.(ag_workspace) q.(rq_workspace)) t.(agent_rows)).

Definition candidates (t : Tables) (q : Query) : atx AuditRecord unit (list Candidate) :=
  found ← scan t q (pool t q);
  mret (py_sorted candidate_leb found).

(** ** Decisions *)

Definition jtext_opt (s : option string) : json := match s with Some s => JStr (lit s) | None => JNull end.

Record Recording := {
  rc_purpose : string; rc_task : option string; rc_verification : option string; rc_actor_label : string; rc_now : Z }.

Definition record_decision (q : Query) (rc : Recording) (found : list Candidate) (selected : option Candidate)
    (reason : string) : tx Tables unit := modify (fun t => {|
  agent_rows := t.(agent_rows); writers := t.(writers); capability_domains := t.(capability_domains);
  routing_decisions := t.(routing_decisions) ++ [{|
    rd_workspace := q.(rq_workspace); rd_purpose := rc.(rc_purpose); rd_task := rc.(rc_task);
    rd_verification := rc.(rc_verification); rd_capability := q.(rq_capability); rd_domain := q.(rq_dom);
    rd_candidates := found; rd_selected := selected; rd_reason := reason; rd_correlation := q.(rq_correlation);
    rd_decided_at := rc.(rc_now) |}];
  audit_events := t.(audit_events) ++ [{|
    ar_action := "routing.select";
    ar_target_id := default (default "-" (py_or rc.(rc_verification) None)) (py_or rc.(rc_task) None);
    ar_result := match selected with Some _ => "SELECTED" | None => "NO_CANDIDATE" end;
    ar_error_code := match selected with Some _ => None | None => Some reason end;
    ar_actor_label := rc.(rc_actor_label);
    ar_metadata := [
      (lit "purpose", JStr (lit rc.(rc_purpose)));
      (lit "candidates", JArr ((fun c => JStr (lit c.(cd_agent_id))) <$> found));
      (lit "selected", jtext_opt (cd_agent_id <$> selected));
      (lit "required_capability", jtext_opt q.(rq_capability));
      (lit "domain", jtext_opt q.(rq_dom))] |}];
  audit_locked := true |}).

Definition select_assignee (q : Query) (rc : Recording) : atx AuditRecord Tables (option Candidate) :=
  found ← (fun t l => let '(l, r) := candidates t q tt l in (l, r ≫= fun x => Ok (x.1, t)));
  let chosen := head found in
  _ ← in_tx (record_decision q rc found chosen (match chosen with Some _ => "SELECTED" | None => "NO_CANDIDATE" end));
  mret chosen.

(** ** The scan *)

Definition verdict (q : Query) (p : PrincipalInfo) : list AuditRecord * res bool := _policy_allows q p.(account_id) [].

(** An Agent that may take the Task, with its account. *)
Record suitable (t : Tables) (q : Query) (a : AgentRow) (p : PrincipalInfo) : Prop := {
  su_row : a ∈ t.(agent_rows); su_workspace : a.(ag_workspace) = q.(rq_workspace); su_account : account_of a = Some p;
  su_not_excluded : a.(ag_account) ∉ q.(rq_exclude) /\ p.(account_id) ∉ q.(rq_exclude);
  su_active : a.(ag_status) = "active"; su_online : a.(ag_online) = true;
  su_member : forall c, q.(rq_channel) = Some c -> c <> EmptyString -> is_writer t c a.(ag_account) = true;
  su_capability : forall c, q.(rq_capability) = Some c -> c <> EmptyString -> (a.(ag_agent_id), c) ∈ authority.(agent_capabilities);
  su_handles : q.(rq_secret_handles) = true -> a.(ag_adapter_type) <> "mattermost_bot";
  su_room : load_of a.(ag_account) + 1 <= effective_capacity a }.

(** [x] comes before [y], or is as good. *)
Definition at_least (x y : Candidate) : Prop :=
  cd_score y < cd_score x \/ (cd_score x = cd_score y /\ String.leb x.(cd_agent_id) y.(cd_agent_id) = true).

Lemma only_if_nil (b : bool) (x : string) : (if b then [x] else []) = [] <-> b = false.
Proof. by destruct b. Qed.

Lemma truthy_guard (s : option string) (f : string -> bool) :
  truthy s && negb (f (default EmptyString s)) = false <-> forall c, s = Some c -> c <> EmptyString -> f c = true.
Proof.
  destruct s as [c|]; [|by split]. cbn. rewrite andb_false_iff, !negb_false_iff, String.eqb_eq. split.
  - intros [->|H] c' [= <-]; [done|by intros _].
  - intros H. destruct (decide (c = EmptyString)); [by left|right; by apply H].
Qed.

Lemma reasons_nil t q a :
  reasons t q a = [] <->
  a.(ag_status) = "active" /\ a.(ag_online) = true /\
  (forall c, q.(rq_channel) = Some c -> c <> EmptyString -> is_writer t c a.(ag_account) = true) /\
  (forall c, q.(rq_capability) = Some c -> c <> EmptyString -> (a.(ag_agent_id), c) ∈ authority.(agent_capabilities)) /\
  (q.(rq_secret_handles) = true -> a.(ag_adapter_type) <> "mattermost_bot").
Proof.
  assert (truthy q.(rq_capability) && negb (has_capability a.(ag_agent_id) q.(rq_capability)) = false <->
    forall c, q.(rq_capability) = Some c -> c <> EmptyString -> (a.(ag_agent_id), c) ∈ authority.(agent_capabilities)) as Hcap.
  { assert (forall c, bool_decide ((a.(ag_agent_id), c) ∈ authority.(agent_capabilities)) = true <->
      (a.(ag_agent_id), c) ∈ authority.(agent_capabilities)) as E by (intros c; apply bool_decide_eq_true).
    setoid_rewrite <- E. rewrite <- (truthy_guard _ (fun c => bool_decide ((a.(ag_agent_id), c) ∈ authority.(agent_capabilities)))).
    by destruct (rq_capability q). }
  unfold reasons. rewrite !app_nil, !only_if_nil, Hcap, (truthy_guard _ (fun c => is_writer t c a.(ag_account))).
  unfold supports_secret_handles. rewrite !negb_false_iff, String.eqb_eq, andb_false_iff, negb_involutive.
  assert (q.(rq_secret_handles) = false \/ String.eqb (ag_adapter_type a) "mattermost_bot" = false <->
    (q.(rq_secret_handles) = true -> a.(ag_adapter_type) <> "mattermost_bot")) as ->; [|tauto].
  rewrite String.eqb_neq. destruct (rq_secret_handles q); naive_solver.
Qed.

Lemma passes_spec t q a p :
  a ∈ t.(agent_rows) -> a.(ag_workspace) = q.(rq_workspace) -> (passes t q a = Some p <-> suitable t q a p).
Proof.
  intros Ha Hw. unfold passes. split.
  - intros (p' & Hp & H)%bind_Some. destruct (mem _ _ || mem _ _) eqn:E1; [done|].
    destruct (negb (bool_decide _)) eqn:E2; [done|]. destruct (_ <=? 0) eqn:E3; [done|]. injection H as ->.
    apply orb_false_iff in E1 as [?%mem_false ?%mem_false]. apply negb_false_iff, bool_decide_eq_true, reasons_nil in E2 as (? & ? & ? & ? & ?).
    split; try done. apply Z.leb_gt in E3. lia.
  - intros [_ _ Hp [He1 He2] ? ? ? ? ? Hroom]. rewrite Hp. cbn. rewrite (proj2 (mem_false _ _) He1), (proj2 (mem_false _ _) He2). cbn.
    rewrite bool_decide_eq_true_2 by (by apply reasons_nil). cbn. by rewrite (proj2 (Z.leb_gt _ _)) by lia.
Qed.

Lemma verdict_rows q p rows b : verdict q p = (rows, Ok b) -> if b then rows = [] else rows <> [].
Proof.
  unfold verdict, _policy_allows. destruct (authorize _ _ _ _ _ _ _ _) as [r0 [au|]] eqn:Ea; [|done].
  intros [= <- <-]. apply authorize_log in Ea. destruct (is_allowed au); [done|]. by destruct Ea as [r ->].
Qed.

Definition chosen_of (t : Tables) (q : Query) (a : AgentRow) : option Candidate :=
  p ← passes t q a; match (verdict q p).2 with Ok true => Some (candidate t q a p) | _ => None end.

(** A completed scan asked about every Agent that passes the tables. *)
Lemma scan_ok t q rows : forall l l' cs u,
  scan t q rows tt l = (l', Ok (cs, u)) ->
  cs = omap (chosen_of t q) rows /\
  forall a p, a ∈ rows -> passes t q a = Some p -> is_ok (verdict q p).2 = true /\
    (t.(audit_locked) = true -> (verdict q p).2 = Ok true).
Proof.
  induction rows as [|a rows IH]; intros l l' cs u; cbn [scan].
  { intros [= <- <- _]. split; [done|]. by intros a p Ha%elem_of_nil. }
  cbn [omap list_omap]. unfold chosen_of at 1. destruct (passes t q a) as [p|] eqn:Ep; cbn.
  - intros (b & v & l1 & Hb & H)%atx_bind_ok. unfold through_sink in Hb.
    fold (verdict q p) in Hb. destruct (verdict q p) as [rs [x|]] eqn:Ev; cbn in Hb;
      [|by destruct (audit_locked t && _)]. destruct v, u.
    assert (b = x /\ (t.(audit_locked) = true -> x = true)) as [-> Hx].
    { destruct (audit_locked t) eqn:El; cbn in Hb; [|by injection Hb as _ <-].
      destruct (negb _) eqn:En; [done|]. injection Hb as _ <-. split; [done|]. intros _.
      apply verdict_rows in Ev. destruct x; [done|]. by rewrite bool_decide_eq_false_2 in En. }
    apply atx_bind_ok in H as (rest & [] & l2 & Hs & H). injection H as _ <-. destruct (IH _ _ _ _ Hs) as [-> Hall]. split.
    + by destruct x.
    + intros a' p' [->|Ha]%elem_of_cons Hp; [|by eapply Hall].
      rewrite Ep in Hp. injection Hp as <-. rewrite Ev. split; [done|]. intros Hl. cbn. by rewrite (Hx Hl).
  - intros H. destruct (IH _ _ _ _ H) as [-> Hall]. split; [done|].
    intros a' p' [->|Ha]%elem_of_cons Hp; [by rewrite Ep in Hp|by eapply Hall].
Qed.

Lemma scan_hangs t q rows : forall l a p,
  t.(audit_locked) = true -> a ∈ rows -> passes t q a = Some p -> (verdict q p).2 = Ok false ->
  (forall a' p', a' ∈ rows -> passes t q a' = Some p' -> is_ok (verdict q p').2 = true) ->
  exists l', scan t q rows tt l = (l', Err HANGS).
Proof.
  induction rows as [|a0 rows IH]; intros l a p Hl Ha Hp Hv Hall; [by apply elem_of_nil in Ha|]. cbn [scan].
  destruct (passes t q a0) as [p0|] eqn:E0.
  - pose proof (Hall a0 p0 ltac:(by left) E0) as Hok. unfold through_sink, mbind, atx_bind. rewrite Hl. fold (verdict q p0).
    destruct (verdict q p0) as [rs [x|]] eqn:Ev; [|done]. pose proof (verdict_rows _ _ _ _ Ev) as Hr. destruct x.
    + rewrite Hr. cbn. rewrite app_nil_r. apply elem_of_cons in Ha as [->|Ha].
      { rewrite E0 in Hp. injection Hp as ->. by rewrite Ev in Hv. }
      destruct (IH l a p Hl Ha Hp Hv) as [l' ->]; [|by exists l']. intros a' p' Ha'. apply Hall. by right.
    + rewrite bool_decide_eq_false_2 by done. by exists l.
  - apply elem_of_cons in Ha as [->|Ha]; [by rewrite E0 in Hp|]. apply (IH l a p); try done. intros a' p' Ha'. apply Hall. by right.
Qed.

Lemma candidate_leb_spec x y : candidate_leb x y = true <-> at_least x y.
Proof.
  unfold candidate_leb, at_least. destruct (Z.eqb_spec (cd_score x) (cd_score y)) as [E|E]; [naive_solver lia|].
  rewrite Z.ltb_lt. naive_solver lia.
Qed.

Lemma candidate_leb_total x y : candidate_leb x y = false -> candidate_leb y x = true.
Proof.
  unfold candidate_leb. rewrite Z.eqb_sym. destruct (cd_score y =? cd_score x) eqn:E; [apply string_leb_total|].
  rewrite Z.ltb_ge, Z.ltb_lt. apply Z.eqb_neq in E. lia.
Qed.

Lemma candidate_leb_trans x y z : candidate_leb x y = true -> candidate_leb y z = true -> candidate_leb x z = true.
Proof.
  rewrite !candidate_leb_spec. intros [H1|[H1 L1]] [H2|[H2 L2]]; [left; lia|left; lia|left; lia|].
  right. split; [lia|by eapply string_leb_trans].
Qed.

Lemma pool_elem t q a : a ∈ pool t q <-> a ∈ t.(agent_rows) /\ a.(ag_workspace) = q.(rq_workspace).
Proof. unfold pool. rewrite py_sorted_elem, elem_filter_bool, String.eqb_eq. tauto. Qed.

Lemma candidates_ok t q l l' cs u :
  candidates t q tt l = (l', Ok (cs, u)) ->
  StronglySorted (fun x y => candidate_leb x y = true) cs /\
  (forall c, c ∈ cs <-> exists a p, suitable t q a p /\ (verdict q p).2 = Ok true /\ c = candidate t q a p) /\
  (forall a p, suitable t q a p -> is_ok (verdict q p).2 = true /\ (t.(audit_locked) = true -> (verdict q p).2 = Ok true)).
Proof.
  intros (found & [] & l1 & Hs & H)%atx_bind_ok. injection H as _ <- _.  apply scan_ok in Hs as [-> Hall]. split_and!.
  - apply py_sorted_sorted; intros *; [apply candidate_leb_total|apply candidate_leb_trans].
  - intros c. rewrite py_sorted_elem, list_elem_of_omap. split.
    + intros (a & Ha & (p & Hp & Hc)%bind_Some). apply pool_elem in Ha as [Ha Hw]. exists a, p. rewrite (passes_spec t q a p Ha Hw) in Hp.
      destruct (verdict q p).2 as [[]|]; [|done..]. by injection Hc as <-.
    + intros (a & p & Hsu & Hv & ->). exists a. split; [apply pool_elem; split; apply Hsu|]. unfold chosen_of.
      rewrite (proj2 (passes_spec t q a p (su_row _ _ _ _ Hsu) (su_workspace _ _ _ _ Hsu)) Hsu). cbn. by rewrite Hv.
  - intros a p Hsu. apply (Hall a p); [apply pool_elem; split; apply Hsu|]. apply (proj2 (passes_spec t q a p (su_row _ _ _ _ Hsu) (su_workspace _ _ _ _ Hsu))); done.
Qed.

(** C18. A selection is exact. When [select_assignee] returns an Agent, that Agent is suitable
    (active, online, a writing member of the channel, with the capability, with room for one
    more Task), the policy engine allows it, and no other such Agent has a higher score, or the
    same score and a smaller id; when it returns none, there is no such Agent. Either way the
    decision is recorded with all of them, and audited. *)
Theorem selection_exact t q rc l l' chosen t' :
  select_assignee q rc t l = (l', Ok (chosen, t')) ->
  (match chosen with
   | Some c => (exists a p, suitable t q a p /\ (verdict q p).2 = Ok true /\ c = candidate t q a p) /\
       forall a p, suitable t q a p -> (verdict q p).2 = Ok true -> candidate t q a p = c \/ at_least c (candidate t q a p)
   | None => forall a p, suitable t q a p -> (verdict q p).2 = Ok false
   end) /\
  exists d r, t'.(routing_decisions) = t.(routing_decisions) ++ [d] /\ t'.(audit_events) = t.(audit_events) ++ [r] /\
    d.(rd_selected) = chosen /\ r.(ar_result) = (if bool_decide (chosen = None) then "NO_CANDIDATE" else "SELECTED") /\
    forall c, c ∈ d.(rd_candidates) <-> exists a p, suitable t q a p /\ (verdict q p).2 = Ok true /\ c = candidate t q a p.
Proof.
  unfold select_assignee. intros (cs & t1 & l1 & Hc & H)%atx_bind_ok. destruct (candidates t q tt l) as [l2 [[cs' []]|]] eqn:Ec; [|done].
  injection Hc as <- <- <-. apply atx_bind_ok in H as (u & t2 & l3 & [_ Hr]%in_tx_ok & H). injection H as _ <- <-. injection Hr as _ <-.
  apply candidates_ok in Ec as (Hs & Hin & Hall). split.
  - destruct cs' as [|c cs']; cbn.
    + intros a p Hsu. destruct (Hall a p Hsu) as [Hok _]. destruct (verdict q p).2 as [[]|] eqn:Ev; [exfalso|done..].
      apply (elem_of_nil (candidate t q a p)), Hin. by exists a, p.
    + split; [apply Hin; by left|]. intros a p Hsu Hv. assert (candidate t q a p ∈ c :: cs') as [->|Hc]%elem_of_cons by (apply Hin; by exists a, p); [by left|right].
      apply StronglySorted_inv in Hs as [_ Hf]. rewrite Forall_forall in Hf. by apply candidate_leb_spec, Hf.
  - eexists _, _. split; [reflexivity|]. split; [reflexivity|]. cbn. split_and!; [done|by destruct cs'|exact Hin].
Qed.

(** The audit of a refusal waits for its own caller. [independent_audit_sink] writes the row of
    a refusal in a transaction of its own, which needs the lock of the audit chain; when the
    caller's transaction has already appended an audit row - as suspending an Agent does before
    its Tasks are given to others - and the policy engine refuses a suitable Agent, the selection
    never returns. *)
Theorem refusal_after_audit_hangs t q rc l a p :
  t.(audit_locked) = true -> suitable t q a p -> (verdict q p).2 = Ok false ->
  (forall a' p', suitable t q a' p' -> is_ok (verdict q p').2 = true) ->
  exists l', select_assignee q rc t l = (l', Err HANGS).
Proof.
  intros Hl Hsu Hv Hall. unfold select_assignee, candidates.
  destruct (scan_hangs t q (pool t q) l a p Hl) as [l' Hs]; [by apply pool_elem; split; apply Hsu|apply (proj2 (passes_spec t q a p (su_row _ _ _ _ Hsu) (su_workspace _ _ _ _ Hsu))); done|done| |].
  - intros a' p' Ha Hp. apply pool_elem in Ha as [Ha Hw]. apply (Hall a'). by apply passes_spec.
  - exists l'. unfold mbind, atx_bind. by rewrite Hs.
Qed.
End routing.

(** ** An example *)

(** Agents a and b may take Tasks of the channel, b knows the domain; c has no role. *)
Module Team.

Definition catalog : PolicyCatalog := {|
  listed := [("task.accept", false)];
  action_classes := list_to_map [("internal_write", {| class_risk := "LOW"; class_approval := "none" |})];
  action_specs := [("command:task.accept", {| spec_class := "internal_write"; spec_permission := "task.accept" |})];
  unclassified_default := "HIGH"; quorums := list_to_map [("LOW", 0)]; human_only_from := "HIGH"; capabilities := []; roles_raw := [] |}.

Definition account (name : string) : PrincipalInfo := {|
  account_id := "acct-" +:+ name; account_uuid := "uuid-" +:+ name; workspace_uuid := "ws"; account_type := "agent";
  principal_status := "ACTIVE"; Authority.agent_id := Some ("agent-" +:+ name) |}.

Definition members : Authority.Db := {|
  accounts := list_to_map ((fun n => ("acct-" +:+ n, account n)) <$> ["a"; "b"; "c"]);
  roles := {["role" := {| role_workspace := "ws"; Authority.display_name := "Worker"; current_version := 1; row_status := "active" |}]};
  role_versions := {[("role", 1) := {| v_permissions := ["task.accept"]; v_deny := []; v_constraints := {|
    raw_domains := None; raw_side_effects := None; raw_requires_human_approval := None; raw_channels := None;
    raw_resources := None; raw_max_risk := None |}; v_policy_hash := []; v_event_id := None; v_created_by := "root" |}]};
  assignments := (fun n => {| a_account := n; a_role := "role"; a_scope := JNull; valid_from := 0; valid_to := None;
    assigned_by := "root"; Authority.a_event_id := None; revoked_at := None; revoke_event_id := None |}) <$> ["uuid-a"; "uuid-b"];
  agent_capabilities := {[("agent-b", "cap-py")]}; channel_ids := {["ch" := "ch"]};
  channel_members := list_to_map ((fun n => (("ch", n), "active")) <$> ["uuid-a"; "uuid-b"; "uuid-c"]) |}.

Definition agent (name : string) : AgentRow := {|
  ag_workspace := "ws"; ag_agent_id := "agent-" +:+ name; ag_account := "uuid-" +:+ name; ag_adapter_type := "mcp";
  ag_capacity := Some 2; ag_concurrent_tasks := PInt 1; ag_online := true; ag_status := "active" |}.

Definition tables (names : list string) (locked : bool) : Tables := {|
  agent_rows := agent <$> names; writers := list_to_set ((fun n => ("ch", "uuid-" +:+ n)) <$> names);
  capability_domains := {["cap-py" := "python"]}; routing_decisions := []; audit_events := []; audit_locked := locked |}.

Definition query : Query := {|
  rq_workspace := "ws"; rq_channel := Some "ch"; rq_capability := None; rq_dom := Some "python"; rq_secret_handles := false;
  rq_exclude := []; rq_permission := "task.accept"; rq_correlation := "c" |}.

Definition recording : Recording := {|
  rc_purpose := "assignment"; rc_task := Some "t1"; rc_verification := None; rc_actor_label := "acct-h"; rc_now := 7 |}.

Definition hash (b : list N) : ustr := lit "0".
Definition at_five (_ : string) : Z := 5.
Definition audit_of (a : string) : string := "aud-" +:+ a.

#[local] Notation select := (select_assignee hash catalog members ∅ at_five audit_of query recording).

Definition chosen : option Candidate := Some {|
  cd_agent_id := "agent-b"; cd_account_uuid := "uuid-b"; cd_account_id := "acct-b"; cd_adapter_type := "mcp";
  cd_score := 3; cd_capacity := 1; cd_load := 0; cd_domain_match := true |}.

Lemma chooses : exists l t', select (tables ["a"; "b"; "c"] false) [] = (l, Ok (chosen, t')) /\ length l = 1%nat.
Proof. eexists _, _. vm_compute. split; reflexivity. Qed.

Lemma selection_exact_witness :
  exists a p, suitable members ∅ (tables ["a"; "b"; "c"] false) query a p /\
    candidate members ∅ (tables ["a"; "b"; "c"] false) query a p = default (candidate members ∅ (tables [] false) query a p) chosen.
Proof.
  destruct chooses as (l & t' & H & _).
  destruct (selection_exact hash catalog members ∅ at_five audit_of (tables ["a"; "b"; "c"] false) query recording [] l chosen t' H)
    as [[(a & p & Hs & _ & Hc) _] _].
  exists a, p. split; [exact Hs|]. exact (eq_sym Hc).
Defined.

(** The Agent c is suitable, and refused. *)
Lemma c_suitable : suitable members ∅ (tables ["a"; "b"; "c"] true) query (agent "c") (account "c").
Proof.
  apply passes_spec; [|reflexivity|vm_compute; reflexivity].
  change (agent "c" ∈ agent <$> ["a"; "b"; "c"]). apply list_elem_of_fmap. exists "c". split; [done|by right; right; left].
Qed.

Lemma verdicts_ok (a : AgentRow) p :
  suitable members ∅ (tables ["a"; "b"; "c"] true) query a p ->
  is_ok (verdict hash catalog members at_five audit_of query p).2 = true.
Proof.
  intros [Ha _ Hp _ _ _ _ _ _ _]. assert (a ∈ agent <$> ["a"; "b"; "c"]) as Ha' by exact Ha. clear Ha.
  apply list_elem_of_fmap in Ha' as (n & -> & Hn).
  repeat (apply elem_of_cons in Hn as [->|Hn]; [vm_compute in Hp; injection Hp as <-; vm_compute; reflexivity|]).
  exfalso. by apply elem_of_nil in Hn.
Qed.

Lemma refusal_after_audit_hangs_witness : exists l', select (tables ["a"; "b"; "c"] true) [] = (l', Err HANGS).
Proof.
  apply (refusal_after_audit_hangs hash catalog members ∅ at_five audit_of (tables ["a"; "b"; "c"] true) query recording []
    (agent "c") (account "c") eq_refl c_suitable).
  - vm_compute. reflexivity.
  - exact verdicts_ok.
Defined.
End Team.
