(* ===== verification/Rerouting.v ===== *)
(** Re-routing ([server/agents/rerouting.py]): a Task whose Agent rejected it, fell silent,
    became unavailable or ran out of budget is given once to another Agent, else it waits. The
    state is that of the Task commands with the tables of routing; the audit rows of both are
    one table. The commands run in the caller's transaction, after the selection has
    appended its audit row. *)

From S2P Require Import Prelude Tx Defaults Canonical Text HashChain Policy Catalog Authority EventStore EventLog Bus WorkState Inbox TaskGraph TaskState Criteria TaskProjection TaskCommands TaskHistory TaskTraces Routing.
Open Scope Z_scope.

Definition REROUTE_REASONS : list string := [
  "CAPABILITY_UNSUPPORTED"; "CAPACITY"; "POLICY"; "OTHER"; "ACCEPT_TIMEOUT"; "AGENT_OFFLINE"; "AGENT_REVOKED";
  "AGENT_SUSPENDED"; "BUDGET_EXCEEDED"].

Definition REROUTABLE : list TaskStatus := [DELEGATED; ACCEPTED; RUNNING; WAITING].

Definition REROUTE_PREFIX : string := "REROUTE_".

(** [reason_code LIKE 'REROUTE_%']: the underscore stands for any character. *)
Definition rerouted_reason (reason : string) : bool :=
  String.prefix "REROUTE" reason && (8 <=? String.length reason)%nat.

Record RerouteOutcome := {
  ro_task_id : string; code : string; ro_reason : string; ro_assignee : option string; ro_event : option ustr;
  ro_work_item : option string; ro_resume : option json }.

Definition outcome (task code reason : string) (event : option ustr) : RerouteOutcome := {|
  ro_task_id := task; code := code; ro_reason := reason; ro_assignee := None; ro_event := event; ro_work_item := None;
  ro_resume := None |}.

(** [str.lower] on ASCII. *)
Fixpoint lower (s : string) : string :=
  match s with
  | EmptyString => EmptyString
  | String c s => String (let n := nat_of_ascii c in if (65 <=? n)%nat && (n <=? 90)%nat then ascii_of_nat (n + 32) else c) (lower s)
  end.

Section rerouting.
Context {ES : Type} {ELI : EventLogI ES} {ERI : EventReadI ES} {W : Type}.
Context (sha256 : list N -> ustr) (py_str : json -> ustr) (isoformat_utc : Z -> ustr) (catalog : PolicyCatalog).
Context (terminal_hooks : string -> tx (W * ES) unit).

#[local] Notation Tasks := (@TaskCommands.Db ES W).

(** The audit rows are those of [tasks]; [artifact_rows]: artifact_id, source_event_id. *)
Record Db := { tasks : Tasks; routing : Tables; artifact_rows : list (string * ustr) }.

Definition with_tasks (x : Tasks) (db : Db) : Db := {|
  tasks := x; routing := db.(routing); artifact_rows := db.(artifact_rows) |}.

Definition get_tables (db : Db) : Tables := {|
  agent_rows := db.(routing).(agent_rows); writers := db.(routing).(writers);
  capability_domains := db.(routing).(capability_domains); routing_decisions := db.(routing).(routing_decisions);
  audit_events := db.(tasks).(inbox).(Inbox.audit_events); audit_locked := db.(routing).(audit_locked) |}.
Definition put_tables (t : Tables) (db : Db) : Db := {|
  tasks := with_audit t.(audit_events) db.(tasks); routing := t; artifact_rows := db.(artifact_rows) |}.

(** What one re-routing draws from outside: the instants of the cancellations, of the
    decision and of each authorization, and the draws of its command. *)
Record REnv := {
  cancel_env : Env; command_env : Env; decided_at : Z; routed_at : string -> Z; routed_audit : string -> string }.

(** ** Reads *)

Definition as_principal (p : PrincipalInfo) : Principal := {|
  p_account_id := p.(account_id); p_account_uuid := p.(account_uuid);
  p_credential_fingerprint := "system:" +:+ p.(account_id); mfa_verified := false |}.

(** The service Account of the Workspace with the lowest id. *)
Definition system_principal (ws : string) (db : Db) : res Principal :=
  match py_sorted (key_leb_of account_id) (List.filter (fun p => String.eqb p.(workspace_uuid) ws &&
          String.eqb p.(account_type) "service") (snd <$> map_to_list db.(tasks).(authority).(accounts))) with
  | [] => Err "SYSTEM_ACCOUNT_MISSING"
  | p :: _ => Ok (as_principal p)
  end.

Definition _ctx (ws : string) (actor : Principal) (correlation key : string) : CommandContext := {|
  ctx_principal := actor; ctx_workspace_id := ws; ctx_correlation_id := correlation; ctx_idempotency_key := key;
  ctx_expected_seq := None; reauth_verified := false |}.

Definition assignments_of (t : string) (db : Db) : list TaskCommands.AssignmentRow :=
  List.filter (fun r => String.eqb r.(as_task) t) db.(tasks).(task_assignments).

Definition reroute_count (t : string) (db : Db) : Z :=
  Z.of_nat (length (List.filter (fun r => rerouted_reason r.(as_reason)) (assignments_of t db))).

Definition previous_assignees (t : string) (db : Db) : list string :=
  (fun r => default "None" r.(as_assignee)) <$> assignments_of t db.

Definition _channel_uuid (channel : option string) (db : Db) : option string :=
  c ← py_or channel None;
  fst <$> find (fun kv => String.eqb kv.2 c || String.eqb kv.1 c) (map_to_list db.(tasks).(authority).(channel_ids)).

(** [str(payload.get("summary", ""))] *)
Definition summary_of (e : HashChain.Event) : ustr :=
  match dict_get e.(payload) "summary" with None => [] | Some (JStr s) => s | Some v => py_str v end.

Definition artifacts_of (t : string) (db : Db) : list string :=
  py_sorted String.leb (fst <$> List.filter (fun a => existsb (fun e => bool_decide (e.(event_id) = a.2) &&
    bool_decide (e.(HashChain.task_id) = Some (lit t))) (log db.(tasks))) db.(artifact_rows)).

Definition build_resume_context (ctx : CommandContext) (t : string) (db : Db) : list (ustr * json) :=
  let events := stream ctx "task" t db.(tasks) in
  let steps := List.filter (fun e => String.eqb (text e.(event_type)) "TASK_PROGRESS_REPORTED") events in [
  (lit "started", JBool (existsb (fun e => String.eqb (text e.(event_type)) "TASK_STARTED") events));
  (lit "completed_steps", JArr ((fun e => JObj [(lit "event_id", JStr e.(event_id)); (lit "summary", JStr (summary_of e))]) <$> steps));
  (lit "artifacts", JArr (jtext <$> artifacts_of t db));
  (lit "last_progress", match last steps with Some e => JStr (summary_of e) | None => JNull end);
  (lit "handover", jtext "do not repeat completed steps; continue from last_progress")].

Definition is_assignment (i : WorkItem) : bool := mem i.(kind) ["task_assignment"; "subtask_assignment"].

Definition _open_assignment_for (t agent : string) (db : Db) : option string :=
  work_item_id <$> find (fun i => bool_decide (i.(wi_task_id) = Some t) && is_assignment i)
    (open_items (Some agent) None db.(tasks).(inbox)).

(** ** Steps *)

Definition on_tasks {A} (m : tx Tasks A) : tx Db A := zoom tasks with_tasks m.

(** A command of the bus: its refusals are audited behind the lock of the audit chain. *)
Definition run {A} (handler : CommandContext -> atx AuditRecord Tasks A) (ctx : CommandContext) : atx AuditRecord Db A := fun db =>
  azoom tasks with_tasks (through_sink db.(routing).(audit_locked) (execute handler ctx)) db.

Definition _cancel_assignments (env : REnv) (t reason : string) (actor : Principal) : tx Db unit := fun db =>
  on_tasks (cancel_each env.(cancel_env) 0 actor.(p_account_uuid) reason
    (List.filter (fun i => bool_decide (i.(wi_task_id) = Some t) && is_assignment i)
      (open_items None None db.(tasks).(inbox)))) db.

Record Request := {
  rr_workspace : string; rr_task : string; rr_reason : string; rr_correlation : string; rr_capability : option string;
  rr_secret_handles : bool; rr_exclude : list string }.

Definition query_of (rr : Request) (s : TaskState) (exclude : list string) (db : Db) : Query := {|
  rq_workspace := rr.(rr_workspace); rq_channel := _channel_uuid s.(TaskState.channel_id) db; rq_capability := rr.(rr_capability);
  rq_dom := if String.eqb s.(TaskState.domain) EmptyString then None else Some s.(TaskState.domain);
  rq_secret_handles := rr.(rr_secret_handles); rq_exclude := exclude; rq_permission := "task.accept";
  rq_correlation := rr.(rr_correlation) |}.

(** The decision recorded at the limit names neither capability nor domain. *)
Definition limit_query (q : Query) : Query := {|
  rq_workspace := q.(rq_workspace); rq_channel := None; rq_capability := None; rq_dom := None; rq_secret_handles := false;
  rq_exclude := []; rq_permission := q.(rq_permission); rq_correlation := q.(rq_correlation) |}.

(** Everyone the Task was given to. *)
Definition excluded (rr : Request) (s : TaskState) (db : Db) : list string :=
  previous_assignees rr.(rr_task) db ++ rr.(rr_exclude) ++
  match py_or s.(assignee_account_id) None with Some a => [a] | None => [] end.

Definition choose (env : REnv) (rr : Request) (s : TaskState) (actor : Principal) : atx AuditRecord Db (option Candidate) := fun db =>
  let q := query_of rr s (excluded rr s db) db in
  let rc := {| rc_purpose := "reroute"; rc_task := Some rr.(rr_task); rc_verification := None;
               rc_actor_label := actor.(p_account_id); rc_now := env.(decided_at) |} in
  azoom get_tables put_tables
    (if reroute_count rr.(rr_task) db <? TASK_ASSIGNMENT_REROUTES
     then select_assignee sha256 catalog db.(tasks).(authority) db.(tasks).(projection) env.(routed_at) env.(routed_audit) q rc
     else _ ← in_tx (record_decision (limit_query q) rc [] None "REROUTE_LIMIT"); mret None) db.

Definition revision_key (name t : string) (s : TaskState) : string :=
  name +:+ ":" +:+ t +:+ ":" +:+ int_text (s.(assignment_revision) + 1).

Definition assign (env : REnv) (rr : Request) (s : TaskState) (actor : Principal) (c : Candidate) : atx AuditRecord Db RerouteOutcome := fun db =>
  let ctx := _ctx rr.(rr_workspace) actor rr.(rr_correlation) (revision_key "reroute" rr.(rr_task) s) in
  let resume := JObj (build_resume_context ctx rr.(rr_task) db ++ [
    (lit "previous_assignee_account_id", jopt_text s.(assignee_account_id));
    (lit "reroute_reason", jtext rr.(rr_reason))]) in
  (r ← run (reassign_task sha256 isoformat_utc catalog terminal_hooks env.(command_env) rr.(rr_task) c.(cd_account_id)
              (REROUTE_PREFIX +:+ rr.(rr_reason)) resume) ctx;
   item ← in_tx (gets (_open_assignment_for rr.(rr_task) c.(cd_agent_id)));
   mret {| ro_task_id := rr.(rr_task); code := "REASSIGNED"; ro_reason := rr.(rr_reason);
           ro_assignee := Some c.(cd_account_uuid); ro_event := Some r.(tr_event); ro_work_item := item;
           ro_resume := Some resume |}) db.

Definition wait (env : REnv) (rr : Request) (s : TaskState) (actor : Principal) : atx AuditRecord Db RerouteOutcome :=
  _ ← in_tx (_cancel_assignments env rr.(rr_task) (REROUTE_PREFIX +:+ rr.(rr_reason)) actor);
  if bool_decide (s.(TaskState.status) = WAITING) then mret (outcome rr.(rr_task) "WAITING" rr.(rr_reason) None)
  else
    r ← run (mark_waiting sha256 isoformat_utc catalog terminal_hooks env.(command_env) rr.(rr_task)
               ("NO_CANDIDATE_" +:+ rr.(rr_reason)))
            (_ctx rr.(rr_workspace) actor rr.(rr_correlation) (revision_key "reroute-wait" rr.(rr_task) s));
    mret (outcome rr.(rr_task) "WAITING" rr.(rr_reason) (Some r.(tr_event))).

Definition reroute_task (env : REnv) (rr : Request) (actor : Principal) : atx AuditRecord Db RerouteOutcome :=
  _ ← in_tx (guard_tx (negb (mem rr.(rr_reason) REROUTE_REASONS)) "REROUTE_REASON_INVALID");
  s ← in_tx (on_tasks (load_task (_ctx rr.(rr_workspace) actor rr.(rr_correlation) ("reroute-probe:" +:+ rr.(rr_task))) rr.(rr_task)));
  if negb s.(exists_) || negb (mem s.(TaskState.status) REROUTABLE) then mret (outcome rr.(rr_task) "NOOP" rr.(rr_reason) None)
  else
    chosen ← choose env rr s actor;
    match chosen with
    | Some c => assign env rr s actor c
    | None => wait env rr s actor
    end.

(** ** Triggers *)

Definition request_for (ws task reason correlation : string) : Request := {|
  rr_workspace := ws; rr_task := task; rr_reason := reason; rr_correlation := correlation; rr_capability := None;
  rr_secret_handles := false; rr_exclude := [] |}.

Fixpoint reroute_each (env : nat -> REnv) (n : nat) (actor : Principal) (requests : list Request) : atx AuditRecord Db (list RerouteOutcome) :=
  match requests with
  | [] => mret []
  | r :: rest => o ← reroute_task (env n) r actor; os ← reroute_each env (S n) actor rest; mret (o :: os)
  end.

(** An item that is gone is passed over; each re-routing may change the next item. *)
Fixpoint process_sweep (env : nat -> REnv) (n : nat) (ws : string) (actor : Principal) (report : list SweepOutcome)
    : atx AuditRecord Db (list RerouteOutcome) :=
  match report with
  | [] => mret []
  | so :: rest =>
      db ← in_tx (gets (fun db => db));
      match db.(tasks).(inbox).(work_items) !! so.(so_work_item_id) with
      | Some i =>
          match i.(wi_task_id) with
          | Some t =>
              o ← reroute_task (env n) (request_for ws t "ACCEPT_TIMEOUT" i.(wi_correlation_id)) actor;
              os ← process_sweep env (S n) ws actor rest; mret (o :: os)
          | None => process_sweep env n ws actor rest
          end
      | None => process_sweep env n ws actor rest
      end
  end.

(** A re-routing whose Task is gone is no failure. *)
Definition unless_gone {A} (m : atx AuditRecord Db A) : atx AuditRecord Db (option A) := fun db l =>
  match m db l with
  | (l', Ok (a, db')) => (l', Ok (Some a, db'))
  | (l', Err e) => if String.eqb e "TASK_NOT_FOUND" then (l', Ok (None, db)) else (l', Err e)
  end.

Definition on_work_rejected (env : REnv) (ws : string) (item : WorkItem) (reason : string) (actor : Principal)
    : atx AuditRecord Db (option RerouteOutcome) :=
  match item.(wi_task_id) with
  | Some t => if is_assignment item then unless_gone (reroute_task env (request_for ws t reason item.(wi_correlation_id)) actor)
              else mret None
  | None => mret None
  end.

(** The rows of the read model, in the order of their Tasks. *)
Definition tasks_given_to (account : string) (db : Db) : list string :=
  py_sorted String.leb (fst <$> List.filter (fun kv => bool_decide (kv.2.(c_assignee_account_id) = Some account) &&
    mem kv.2.(c_status) REROUTABLE) (map_to_list db.(tasks).(projection))).

Definition on_agent_unavailable (env : nat -> REnv) (agent reason : string) (actor : option Principal)
    : atx AuditRecord Db (list RerouteOutcome) := fun db =>
  match find (fun a => String.eqb a.(ag_agent_id) agent) db.(routing).(agent_rows) with
  | None => (mret [] : atx AuditRecord Db _) db
  | Some a =>
      (principal ← in_tx (lift (match actor with Some p => Ok p | None => system_principal a.(ag_workspace) db end));
       reroute_each env 0 principal ((fun t => request_for a.(ag_workspace) t reason
         ("agent-" +:+ lower reason +:+ ":" +:+ agent)) <$> tasks_given_to a.(ag_account) db)) db
  end.

Definition on_budget_exceeded (env : REnv) (ws task correlation : string) (actor : option Principal) : atx AuditRecord Db RerouteOutcome := fun db =>
  (principal ← in_tx (lift (match actor with Some p => Ok p | None => system_principal ws db end));
   reroute_task env (request_for ws task "BUDGET_EXCEEDED" correlation) principal) db.

(** Without a system Account the rejection stays as it is. *)
Definition _rejection_hook (env : REnv) (ws : string) (item : WorkItem) (reason : string) : atx AuditRecord Db unit := fun db =>
  if is_assignment item then
    match system_principal ws db with
    | Ok actor => (_ ← on_work_rejected env ws item reason actor; mret tt) db
    | Err _ => (mret tt : atx AuditRecord Db unit) db
    end
  else (mret tt : atx AuditRecord Db unit) db.

(** ** Re-routing is a sequence of Task commands *)

Section moves.
Context (on_implementation_submitted : string -> tx (W * ES) unit) (expected_document_id : string -> W -> option string).
Context (enforce_limits : string -> string -> tx W unit) (ws : string).
Hypothesis hooks_quiet : forall id, well_behaved (terminal_hooks id).
Hypothesis submitted_quiet : forall id, well_behaved (on_implementation_submitted id).

#[local] Notation step :=
  (step sha256 py_str isoformat_utc catalog terminal_hooks on_implementation_submitted expected_document_id enforce_limits ws).
#[local] Notation history :=
  (history sha256 py_str isoformat_utc catalog terminal_hooks on_implementation_submitted expected_document_id enforce_limits ws).

(** A call that leaves the Tasks as a sequence of Task commands does. *)
Definition refines {A} (m : atx AuditRecord Db A) : Prop := forall db l l' a db',
  history db.(tasks) -> m db l = (l', Ok (a, db')) -> rtc step db.(tasks) db'.(tasks).

Lemma history_steps (d d' : Tasks) : history d -> rtc step d d' -> history d'.
Proof. intros (d0 & H0 & H) H'. exists d0. split; [done|by etrans]. Qed.

Lemma refines_bind {A B} (m : atx AuditRecord Db A) (f : A -> atx AuditRecord Db B) :
  refines m -> (forall a, refines (f a)) -> refines (m ≫= f).
Proof.
  intros Hm Hf db l l' b db' Hh (a & d & l1 & H1 & H2)%atx_bind_ok. pose proof (Hm _ _ _ _ _ Hh H1) as S1.
  etrans; [exact S1|]. apply (Hf a d l1 l' b db'); [by eapply history_steps|done].
Qed.

Lemma refines_same {A} (m : atx AuditRecord Db A) :
  (forall db l l' a db', m db l = (l', Ok (a, db')) -> db'.(tasks) = db.(tasks)) -> refines m.
Proof. intros H db l l' a db' _ Hm. by rewrite (H _ _ _ _ _ Hm). Qed.

Lemma refines_ret {A} (a : A) : refines (mret a).
Proof. apply refines_same. by intros db l l' b db' [= _ _ <-]. Qed.

(** A step of the inbox, or one that only writes audit rows. *)
Lemma quiet_step {A} (m : tx Tasks A) d a d' : quiet m -> history d -> m d = Ok (a, d') -> step d d'.
Proof.
  intros Hq Hh H. apply (history_sound sha256 py_str isoformat_utc catalog terminal_hooks on_implementation_submitted
    expected_document_id enforce_limits ws hooks_quiet submitted_quiet) in Hh.
  destruct (Hq _ _ _ (good_store _ _ (sound_good _ _ Hh)) H) as (H1 & H2 & H3 & H4). by apply Other.
Qed.

Lemma refines_quiet {A} (m : tx Tasks A) : quiet m -> refines (in_tx (on_tasks m)).
Proof.
  intros Hq db l l' a db' Hh [_ H]%in_tx_ok. apply zoom_ok in H as (d & H & ->). by eapply rtc_once, quiet_step.
Qed.

Lemma refines_routing {A} (m : Db -> atx AuditRecord Tables A) : refines (fun db => azoom get_tables put_tables (m db) db).
Proof.
  intros db l l' a db' Hh. unfold azoom. destruct (m db _ l) as [l1 [[x t]|]]; [|done]. intros [= _ _ <-]. apply rtc_once.
  apply (quiet_step (modify (with_audit t.(audit_events))) db.(tasks) tt); [|done|done].
  apply quiet_same. by intros d u d' <-%modify_ok.
Qed.

Lemma run_ok {A} (handler : CommandContext -> atx AuditRecord Tasks A) ctx db l l' a db' :
  run handler ctx db l = (l', Ok (a, db')) ->
  exists rows, handler ctx db.(tasks) [] = (rows, Ok (a, db'.(tasks))) /\ db' = with_tasks db'.(tasks) db.
Proof.
  unfold run, azoom, through_sink, execute. destruct (String.eqb _ _); [by destruct (audit_locked _)|].
  destruct (handler ctx db.(tasks) []) as [rows [[x d]|]]; (destruct (_ && _); [done|]); [|done].
  intros [= _ <- <-]. by exists rows.
Qed.

Lemma refines_run {A} (handler : CommandContext -> atx AuditRecord Tasks A) ctx :
  (forall d, step d (Tx.committed (handler ctx d []) d)) -> refines (run handler ctx).
Proof.
  intros Hs db l l' a db' _ (rows & H & _)%run_ok. apply rtc_once. pose proof (Hs db.(tasks)) as Hc.
  unfold Tx.committed in Hc. by rewrite H in Hc.
Qed.

Lemma refines_cancel env t reason actor : refines (in_tx (_cancel_assignments env t reason actor)).
Proof.
  intros db l l' u db' Hh [_ H]%in_tx_ok. unfold _cancel_assignments in H.
  apply zoom_ok in H as (d & H & ->). eapply rtc_once, quiet_step; [|exact Hh|exact H]. apply quiet_cancel_each.
Qed.

Lemma reroute_refines env rr actor : rr.(rr_workspace) = ws -> refines (reroute_task env rr actor).
Proof.
  intros Hw. unfold reroute_task. apply refines_bind.
  { apply refines_same. by intros db l l' a db' [_ [_ <-]%guard_tx_ok]%in_tx_ok. }
  intros _. apply refines_bind.
  { apply refines_quiet, quiet_same. intros d a d'. unfold load_task. destruct (stream _ _ _ _); [done|].
    by intros (x & _ & [= _ <-])%res_bind_ok. }
  intros s. destruct (_ || _); [apply refines_ret|]. apply refines_bind.
  { exact (refines_routing (fun db => _)). }
  intros [c|].
  - intros db l l' o db' Hh H. unfold assign in H. revert l l' o db' Hh H.
    set (ctx := _ctx _ _ _ _). set (resume := JObj _). clearbody resume. intros l l' o db' Hh H. revert Hh H.
    match goal with |- _ -> ?m db l = _ -> _ => enough (refines m) as Hm by (intros Hh H; by eapply Hm) end.
    apply refines_bind; [apply refines_run; intros d; by apply Reassign|]. intros r.
    apply refines_bind; [|intros item; apply refines_ret].
    apply refines_same. by intros db1 l1 l2 x db2 [_ [_ <-]%gets_ok]%in_tx_ok.
  - unfold wait. apply refines_bind; [apply refines_cancel|intros _]. case_bool_decide; [apply refines_ret|].
    apply refines_bind; [apply refines_run; intros d; by apply Wait|]. intros r. apply refines_ret.
Qed.

Lemma refines_at {A} (m : Db -> atx AuditRecord Db A) : (forall db, refines (m db)) -> refines (fun db => m db db).
Proof. intros H db l l' a db' Hh Hm. exact (H db db l l' a db' Hh Hm). Qed.

Lemma reroute_each_refines env actor requests : forall n,
  Forall (fun r => r.(rr_workspace) = ws) requests -> refines (reroute_each env n actor requests).
Proof.
  induction requests as [|r rest IH]; intros n Hw; [apply refines_ret|]. apply Forall_cons in Hw as [Hr Hw]. cbn [reroute_each].
  apply refines_bind; [by apply reroute_refines|intros o]. apply refines_bind; [by apply IH|intros os; apply refines_ret].
Qed.

Lemma sweep_refines env actor report : forall n, refines (process_sweep env n ws actor report).
Proof.
  induction report as [|so rest IH]; intros n; [apply refines_ret|]. cbn [process_sweep]. apply refines_bind.
  { apply refines_same. by intros db l l' a db' [_ [_ <-]%gets_ok]%in_tx_ok. }
  intros d. destruct (_ !! _) as [i|]; [|apply IH]. destruct (wi_task_id i); [|apply IH].
  apply refines_bind; [by apply reroute_refines|intros o]. apply refines_bind; [apply IH|intros os; apply refines_ret].
Qed.

Lemma unavailable_refines env agent reason actor (db : Db) l l' os db' :
  (forall a, a ∈ db.(routing).(agent_rows) -> a.(ag_workspace) = ws) -> history db.(tasks) ->
  on_agent_unavailable env agent reason actor db l = (l', Ok (os, db')) -> rtc step db.(tasks) db'.(tasks).
Proof.
  intros Hw Hh. unfold on_agent_unavailable. destruct (find _ _) as [a|] eqn:Ea; [|by intros [= _ _ <-]].
  assert (a.(ag_workspace) = ws) as Ha by (apply Hw; apply find_some in Ea as [Hin _]; by apply list_elem_of_In).
  match goal with |- ?m db l = _ -> _ => enough (refines m) as Hm by (intros H; by eapply Hm) end.
  apply refines_bind; [|intros principal; apply reroute_each_refines; by apply Forall_fmap, Forall_true].
  apply refines_same. by intros d k k' p d' [_ [_ <-]%lift_ok]%in_tx_ok.
Qed.

Lemma budget_refines env task correlation actor : refines (on_budget_exceeded env ws task correlation actor).
Proof.
  apply (refines_at (fun db => _ ≫= _)). intros db. apply refines_bind; [|intros principal; by apply reroute_refines].
  apply refines_same. by intros d k k' p d' [_ [_ <-]%lift_ok]%in_tx_ok.
Qed.

Lemma rejected_refines env item reason actor : refines (on_work_rejected env ws item reason actor).
Proof.
  unfold on_work_rejected. destruct (wi_task_id item); [|apply refines_ret]. destruct (is_assignment item); [|apply refines_ret].
  intros db l l' o db' Hh. unfold unless_gone. destruct (reroute_task _ _ _ _ _) as [l1 [[o1 d1]|e]] eqn:E.
  - intros [= _ _ <-]. by eapply (reroute_refines env (request_for ws s reason (wi_correlation_id item)) actor eq_refl).
  - destruct (String.eqb e _); [|done]. by intros [= _ _ <-].
Qed.

Lemma hook_refines env item reason : refines (_rejection_hook env ws item reason).
Proof.
  intros db l l' u db' Hh. unfold _rejection_hook. destruct (is_assignment item); [|by intros [= _ _ <-]].
  destruct (system_principal ws db) as [actor|]; [|by intros [= _ _ <-]].
  match goal with |- ?m db l = _ -> _ => enough (refines m) as Hm by (intros H; by eapply Hm) end.
  apply refines_bind; [apply rejected_refines|intros o; apply refines_ret].
Qed.

(** What happens to a Workspace: Task commands, other components, and the five triggers of a
    re-routing, each committed or undone as a whole. *)
Inductive move (db : Db) : Db -> Prop :=
| Command db' : step db.(tasks) db'.(tasks) -> move db db'
| Elsewhere db' : db'.(tasks) = db.(tasks) -> move db db'
| Reroute env rr actor l : rr.(rr_workspace) = ws -> move db (Tx.committed (reroute_task env rr actor db l) db)
| Sweep env n actor report l : move db (Tx.committed (process_sweep env n ws actor report db l) db)
| Rejected env item reason l : move db (Tx.committed (_rejection_hook env ws item reason db l) db)
| Unavailable env agent reason actor l : (forall a, a ∈ db.(routing).(agent_rows) -> a.(ag_workspace) = ws) ->
    move db (Tx.committed (on_agent_unavailable env agent reason actor db l) db)
| Over_budget env task correlation actor l : move db (Tx.committed (on_budget_exceeded env ws task correlation actor db l) db).

Lemma committed_refines {A} (m : atx AuditRecord Db A) db l :
  (forall l' a db', m db l = (l', Ok (a, db')) -> rtc step db.(tasks) db'.(tasks)) ->
  rtc step db.(tasks) (Tx.committed (m db l) db).(tasks).
Proof. intros H. unfold Tx.committed. destruct (m db l) as [l' [[a db']|]] eqn:E; [by eapply H|done]. Qed.

Lemma move_steps db db' : move db db' -> history db.(tasks) -> rtc step db.(tasks) db'.(tasks).
Proof.
  intros H Hh. destruct H as [db' Hs|db' ->|env rr actor l Hw|env n actor report l|env item reason l|env agent reason actor l Hw|env task corr actor l].
  - by apply rtc_once.
  - done.
  - apply committed_refines. intros l' a db'. by apply reroute_refines.
  - apply committed_refines. intros l' a db'. by apply sweep_refines.
  - apply committed_refines. intros l' a db'. by apply hook_refines.
  - apply committed_refines. intros l' a db'. by apply unavailable_refines.
  - apply committed_refines. intros l' a db'. by apply budget_refines.
Qed.

(** C16. Re-routing is made of Task commands. Whatever triggers it - a rejection, the sweep of
    silent Agents, an Agent that became unavailable, a budget overrun - a re-routing changes the
    Tasks as a sequence of the commands of [TaskTraces] and of steps of other components does:
    a Workspace with re-routing has no history of Tasks that the commands alone do not have. *)
Theorem rerouting_refines_commands db db' :
  rtc move db db' -> history db.(tasks) -> rtc step db.(tasks) db'.(tasks) /\ history db'.(tasks).
Proof.
  induction 1 as [|db1 db2 db3 H1 _ IH]; intros Hh; [done|]. pose proof (move_steps _ _ H1 Hh) as S1.
  destruct IH as [S2 H3]; [by eapply history_steps|]. split; [by etrans|done].
Qed.

(** ** To whom a Task is given *)

(** A step that leaves the assignments alone. *)
Definition same_rows {A} (m : tx Tasks A) : Prop := forall d a d', m d = Ok (a, d') -> d'.(task_assignments) = d.(task_assignments).

Lemma same_rows_bind {A B} (m : tx Tasks A) (f : A -> tx Tasks B) : same_rows m -> (forall a, same_rows (f a)) -> same_rows (m ≫= f).
Proof. intros Hm Hf d b d' (a & d1 & H1 & H2)%tx_bind_ok. by rewrite (Hf _ _ _ _ H2), (Hm _ _ _ H1). Qed.

Lemma same_rows_ret {A} (a : A) : same_rows (mret a).
Proof. by intros d b d' [_ <-]%tx_ret_ok. Qed.

Lemma same_rows_lift {A} (r : res A) : same_rows (lift r).
Proof. by intros d b d' [_ <-]%lift_ok. Qed.

Lemma same_rows_gets {A} (f : Tasks -> A) : same_rows (gets f).
Proof. by intros d b d' [_ <-]%gets_ok. Qed.

Lemma same_rows_inbox {A} (m : tx Inbox.Db A) : same_rows (zoom inbox with_inbox m).
Proof. by intros d a d' (x & _ & ->)%zoom_ok. Qed.

Lemma same_rows_transition env ctx scope s ty body : same_rows (_transition isoformat_utc terminal_hooks env ctx scope s ty body).
Proof.
  intros d [a s'] d'. unfold _transition. destruct (_replay_from_stream _ _ _ _); [by intros [= _ _ <-]|]. revert d a s' d'.
  match goal with |- forall d a s' d', ?m d = _ -> _ => enough (same_rows m) as H by (intros d a s' d'; apply H) end.
  apply same_rows_bind; [apply same_rows_lift|intros st]. apply same_rows_bind.
  { intros d a d'. unfold TaskCommands._append. destruct (el_append _ _) as [[x e]|]; [|done]. by intros [= _ <-]. }
  intros a. destruct (replayed a); [apply same_rows_ret|]. apply same_rows_bind; [apply same_rows_gets|intros e].
  apply same_rows_bind; [apply same_rows_lift|intros s']. apply same_rows_bind.
  { unfold run_terminal_hooks. destruct (mem _ _); [|apply same_rows_ret]. by intros d u d' (x & _ & ->)%zoom_ok. }
  intros _. apply same_rows_bind; [|intros _; apply same_rows_ret]. by intros d u d' <-%modify_ok.
Qed.

Lemma same_rows_cancel env actor reason items : forall n, same_rows (cancel_each env n actor reason items : tx Tasks unit).
Proof.
  induction items as [|i items IH]; intros n; cbn [cancel_each]; [apply same_rows_ret|]. destruct (is_ok _); [|apply IH].
  apply same_rows_bind; [apply same_rows_inbox|intros _; apply IH].
Qed.

Lemma same_rows_after env ctx s ev resume : same_rows (after_assignment isoformat_utc env ctx s ev resume : tx Tasks unit).
Proof.
  intros d u d'. unfold after_assignment. destruct (_ ≫= _) as [agent|]; [|by intros [= _ <-]].
  match goal with |- ?m d = _ -> _ => enough (same_rows m) as H by apply H end.
  apply same_rows_bind; [apply same_rows_cancel|intros _]. apply same_rows_bind; [apply same_rows_inbox|intros _; apply same_rows_ret].
Qed.

Lemma reassigned_to s e s' u :
  apply_event s (task_event e) = Ok s' -> s.(exists_) = true -> text e.(event_type) = "TASK_REASSIGNED" ->
  text e.(HashChain.aggregate_type) = "task" -> text e.(HashChain.aggregate_id) = s.(TaskState.task_id) ->
  get_str e.(payload) "assignee_account_id" = Some u -> s'.(assignee_account_id) = Some u.
Proof.
  intros H Hex Hty Hag Hid Hu. unfold apply_event in H. change (e_type (task_event e)) with (text (event_type e)) in H.
  rewrite Hty, Hex in H.
  change (e_aggregate_id (task_event e)) with (Some (text (HashChain.aggregate_id e))) in H.
  change (e_aggregate_type (task_event e)) with (Some (text (HashChain.aggregate_type e))) in H. rewrite Hag, Hid in H.
  change (mem "TASK_REASSIGNED" CREATION_EVENTS) with false in H. change (mem "TASK_REASSIGNED" VERIFICATION_RESULT_EVENTS) with false in H.
  change (mem "TASK_REASSIGNED" ANNOTATION_EVENTS) with false in H. rewrite !bool_decide_eq_true_2 in H by done. cbn [negb orb] in H.
  apply res_bind_ok in H as (st & _ & H). injection H as <-. unfold apply_details.
  change (e_type (task_event e)) with (text (event_type e)). rewrite Hty. exact Hu.
Qed.

(** What a recorded reassignment leaves behind. *)
Lemma reassign_row env id who reason resume ctx (d : Tasks) l l' r d' :
  history d -> ctx.(ctx_workspace_id) = ws ->
  reassign_task sha256 isoformat_utc catalog terminal_hooks env id who reason resume ctx d l = (l', Ok (r, d')) ->
  d'.(task_assignments) = d.(task_assignments) /\ r.(tr_replayed) = true \/
  exists p row, d.(authority).(accounts) !! who = Some p /\ d'.(task_assignments) = d.(task_assignments) ++ [row] /\
    row.(as_task) = id /\ row.(as_reason) = reason /\ row.(as_assignee) = Some p.(account_uuid).
Proof.
  intros Hh Hw. apply (history_sound sha256 py_str isoformat_utc catalog terminal_hooks on_implementation_submitted
    expected_document_id enforce_limits ws hooks_quiet submitted_quiet) in Hh as [Hg _].
  intros (s & d0 & l1 & Hl%on_task_ok & [_ H]%in_tx_ok)%atx_bind_ok.
  destruct (load_task_ok ws _ _ _ _ _ Hg Hw Hl) as (-> & Hne & Hid & Hs). unfold reassign_tx in H.
  apply tx_bind_ok in H as (u & d1 & Hacc & H).
  assert (d1 = d /\ exists p, d.(authority).(accounts) !! who = Some p /\ u = p.(account_uuid)) as (-> & p & Hp & Hu).
  { unfold _account_uuid in Hacc. destruct (_ !! who) as [p|] eqn:E; [|done]. destruct (String.eqb _ _); [|done].
    injection Hacc as <- <-. split; [done|]. by exists p. }
  apply tx_bind_ok in H as (hash & d1 & [_ <-]%lift_ok & H). apply tx_bind_ok in H as ([a s'] & d1 & Htr & H).
  pose proof (same_rows_transition _ _ _ _ _ _ _ _ _ Htr) as E1.
  apply (task_transition_ok isoformat_utc terminal_hooks ws) in Htr as (_ & _ & Hcase);
    [|exact hooks_quiet|done|done|by rewrite Hid|by rewrite Hid|by split; [apply (bool_decide_unpack _); vm_compute|apply (bool_decide_unpack _); vm_compute|]|done|done].
  apply tx_bind_ok in H as (? & d2 & H & [<- <-]%tx_ret_ok).
  destruct Hcase as [[Hr _]|(Hr & e & f & _ & Hst & Happ)]; rewrite Hr in H.
  { apply tx_ret_ok in H as [_ <-]. left. by rewrite E1. }
  right. exists p. apply tx_bind_ok in H as (? & d3 & Hrec & Haft). pose proof (same_rows_after _ _ _ _ _ _ _ _ Haft) as E2.
  unfold _record_assignment in Hrec. destruct (existsb _ _); [done|]. injection Hrec as _ <-.
  eexists. split; [done|]. split; [rewrite E2; cbn; by rewrite E1|]. cbn. split_and!; [|done|].
  - by rewrite (apply_event_task_id _ _ _ Happ), Hid.
  - pose proof (st_records _ _ _ Hst) as [Hag _ Hty]. unfold aggregate_of, aggregate_of_request in Hag. injection Hag as _ Ha1 Ha2.
    apply (reassigned_to s e s' _ Happ (task_ok_exists _ _ _ _ _ Hs)).
    + rewrite Hty. exact (text_lit "TASK_REASSIGNED").
    + rewrite Ha1. exact (text_lit "task").
    + rewrite Ha2. exact (text_lit _).
    + rewrite (st_payload _ _ _ Hst). change (Some (text (lit u)) = Some (account_uuid p)). by rewrite text_lit, Hu.
Qed.

#[local] Notation probe rr actor := (_ctx rr.(rr_workspace) actor rr.(rr_correlation) ("reroute-probe:" +:+ rr.(rr_task))).
#[local] Notation suitable_for rr s db := (suitable db.(tasks).(authority) db.(tasks).(projection) (get_tables db)
  (query_of rr s (excluded rr s db) db)).

Lemma choose_refines env rr s actor : refines (choose env rr s actor).
Proof. exact (refines_routing (fun db => _)). Qed.

Lemma choose_ok env rr s actor db l l' chosen db' :
  choose env rr s actor db l = (l', Ok (chosen, db')) ->
  db'.(tasks).(task_assignments) = db.(tasks).(task_assignments) /\ db'.(tasks).(authority) = db.(tasks).(authority) /\
  db'.(routing).(audit_locked) = true /\ db'.(tasks).(projection) = db.(tasks).(projection) /\ store db'.(tasks) = store db.(tasks) /\
  match chosen with
  | Some c => reroute_count rr.(rr_task) db < 1 /\ exists a p, suitable_for rr s db a p /\
      c.(cd_account_uuid) = a.(ag_account) /\ c.(cd_account_id) = p.(account_id)
  | None => True
  end.
Proof.
  unfold choose, azoom. destruct (Z.ltb_spec (reroute_count (rr_task rr) db) TASK_ASSIGNMENT_REROUTES) as [Hc|Hc].
  - destruct (select_assignee _ _ _ _ _ _ _ _ _ _) as [l1 [[x t]|]] eqn:E; [|done]. intros [= _ <- <-]. cbn.
    unfold select_assignee in E. apply atx_bind_ok in E as (cs & t1 & l2 & Hcs & E).
    destruct (candidates _ _ _ _ _ _ _ _ tt l) as [l3 [[cs' []]|]] eqn:Ec; [|done]. injection Hcs as _ <- <-.
    apply atx_bind_ok in E as (u & t2 & l4 & [_ Hr]%in_tx_ok & E). injection E as _ <- <-. injection Hr as _ <-.
    split_and!; try done. destruct (head cs') as [c|] eqn:Eh; [|done]. split; [exact Hc|].
    apply candidates_ok in Ec as (_ & Hin & _). destruct cs' as [|c' cs']; [done|]. injection Eh as ->.
    destruct (proj1 (Hin c) ltac:(by left)) as (a & p & Hs & _ & ->). by exists a, p.
  - by intros [= _ <- <-].
Qed.

Lemma wait_code env rr s actor db l l' o db' : wait env rr s actor db l = (l', Ok (o, db')) -> o.(code) = "WAITING".
Proof.
  intros (? & ? & ? & _ & H)%atx_bind_ok. case_bool_decide; [by injection H as _ <- _|].
  apply atx_bind_ok in H as (? & ? & ? & _ & H). by injection H as _ <- _.
Qed.

(** The ways a re-routing ends. *)
Lemma reroute_ok env rr actor db l l' o db' :
  reroute_task env rr actor db l = (l', Ok (o, db')) ->
  exists s, load_task (probe rr actor) rr.(rr_task) db.(tasks) = Ok (s, db.(tasks)) /\
    (o = outcome rr.(rr_task) "NOOP" rr.(rr_reason) None /\ db' = db \/
     exists chosen d l1, choose env rr s actor db l = (l1, Ok (chosen, d)) /\
       match chosen with Some c => assign env rr s actor c d l1 | None => wait env rr s actor d l1 end = (l', Ok (o, db'))).
Proof.
  unfold reroute_task. intros (u & d & l1 & [<- [_ <-]%guard_tx_ok]%in_tx_ok & H)%atx_bind_ok.
  apply atx_bind_ok in H as (s & d & l2 & [<- Hl]%in_tx_ok & H). apply zoom_ok in Hl as (x & Hl & ->).
  assert (x = db.(tasks)) as ->.
  { unfold load_task in Hl. destruct (stream _ _ _ _); [done|]. by apply res_bind_ok in Hl as (y & _ & [= _ <-]). }
  assert (with_tasks db.(tasks) db = db) as E by (by destruct db). rewrite E in H. exists s. split; [done|].
  destruct (_ || _); [left; by injection H as _ <- <-|right]. apply atx_bind_ok in H as (chosen & d & l3 & Hch & H).
  exists chosen, d, l3. split; [done|]. by destruct chosen.
Qed.

(** C17. A Task is given to another Agent at most once, and to a new one. In any history, when
    [reroute_task] answers REASSIGNED then the Task had never been re-routed, and the Agent it
    names is suitable and was neither the current assignee nor any earlier one; unless the
    command repeats an earlier one, exactly one assignment is recorded, of this Agent, and it
    counts as the re-routing: the next one finds the limit reached. *)
Theorem rerouted_once_to_a_new_agent env rr actor db l l' o db' :
  history db.(tasks) -> rr.(rr_workspace) = ws ->
  (forall id p, db.(tasks).(authority).(accounts) !! id = Some p -> p.(account_id) = id) ->
  reroute_task env rr actor db l = (l', Ok (o, db')) -> o.(code) = "REASSIGNED" ->
  reroute_count rr.(rr_task) db = 0 /\
  exists s a p, load_task (probe rr actor) rr.(rr_task) db.(tasks) = Ok (s, db.(tasks)) /\ suitable_for rr s db a p /\
    o.(ro_assignee) = Some a.(ag_account) /\ a.(ag_account) ∉ previous_assignees rr.(rr_task) db /\
    py_or s.(assignee_account_id) None <> Some a.(ag_account) /\
    (db'.(tasks).(task_assignments) = db.(tasks).(task_assignments) \/
     reroute_count rr.(rr_task) db' = 1 /\ exists row, db'.(tasks).(task_assignments) = db.(tasks).(task_assignments) ++ [row] /\
       row.(as_task) = rr.(rr_task) /\ row.(as_assignee) = Some a.(ag_account)).
Proof.
  intros Hh Hw Hkey (s & Hl & [[-> _]|(chosen & d & l3 & Hch & H)])%reroute_ok Hcode; [done|].
  pose proof (choose_refines _ _ _ _ _ _ _ _ _ Hh Hch) as Hsteps. apply choose_ok in Hch as (Ea & Eau & _ & _ & _ & Hc).
  destruct chosen as [c|].
  2:{ apply wait_code in H. by rewrite Hcode in H. }
  destruct Hc as (Hcount & a & p & Hsu & Hcu & Hci). assert (reroute_count (rr_task rr) db = 0) as H0 by (unfold reroute_count in *; lia).
  split; [done|]. exists s, a, p. split; [done|]. split; [done|].
  pose proof (su_not_excluded _ _ _ _ _ _ Hsu) as [Hex _]. unfold query_of, excluded in Hex. cbn [rq_exclude] in Hex.
  rewrite !not_elem_of_app in Hex. destruct Hex as (Hprev & _ & Hcur). unfold assign in H.
  apply atx_bind_ok in H as (r & d1 & l4 & Hrun & H). apply atx_bind_ok in H as (item & d2 & l5 & [_ [_ <-]%gets_ok]%in_tx_ok & H).
  injection H as _ <- <-. cbn [ro_assignee]. apply run_ok in Hrun as (rows & Hrun & _).
  split; [by rewrite Hcu|]. split; [done|]. split; [intros E; rewrite E in Hcur; by apply Hcur; left|].
  apply reassign_row in Hrun as [[Er _]|(p' & row & Hp & Er & Ht & Hre & Has)]; [| |by eapply history_steps|done].
  - left. by rewrite Er.
  - right. rewrite Eau, Hci in Hp. assert (account_uuid p' = ag_account a) as Hu.
    { pose proof (su_account _ _ _ _ _ _ Hsu) as Hac. unfold account_of in Hac. apply find_some in Hac as [Hin Hid].
      apply list_elem_of_In, list_elem_of_fmap in Hin as ([k v] & -> & Hin%elem_of_map_to_list). cbn [snd] in *.
      pose proof (Hkey _ _ Hin) as Hk. rewrite Hk, Hin in Hp. injection Hp as <-. by apply String.eqb_eq in Hid. }
    split; [|exists row; split_and!; [by rewrite Er, Ea|done|by rewrite Has, Hu]].
    unfold reroute_count, assignments_of. rewrite Er, Ea, List.filter_app. cbn [List.filter].
    rewrite Ht, String.eqb_refl, List.filter_app. cbn [List.filter]. rewrite Hre.
    change (rerouted_reason (REROUTE_PREFIX +:+ rr_reason rr)) with true. cbv iota. rewrite length_app. cbn [length].
    unfold reroute_count, assignments_of in H0. lia.
Qed.

(** At the limit no Agent is chosen. *)
Lemma limit_reached env rr actor db l l' o db' :
  1 <= reroute_count rr.(rr_task) db -> reroute_task env rr actor db l = (l', Ok (o, db')) -> o.(code) <> "REASSIGNED".
Proof.
  intros Hc (s & Hl & [[-> _]|(chosen & d & l3 & Hch & H)])%reroute_ok Hcode; [done|].
  apply choose_ok in Hch as (_ & _ & _ & _ & _ & Hx). destruct chosen as [c|]; [lia|].
  apply wait_code in H. by rewrite Hcode in H.
Qed.

(** ** A wait that is not recorded again *)

Lemma good_of (d : Tasks) : history d -> TaskHistory.good ws d.
Proof.
  intros Hh. by apply (history_sound sha256 py_str isoformat_utc catalog terminal_hooks on_implementation_submitted
    expected_document_id enforce_limits ws hooks_quiet submitted_quiet) in Hh as [Hg _].
Qed.

Lemma load_after ctx t (d d' : Tasks) s :
  history d -> history d' -> ctx.(ctx_workspace_id) = ws -> load_task ctx t d = Ok (s, d) ->
  d'.(projection) = d.(projection) -> appends (log d) (log d') ->
  load_task ctx t d' = Ok (s, d') /\ stream ctx "task" t d' = stream ctx "task" t d.
Proof.
  intros Hh Hh' Hw Hl Hr [(f & El & Hf & _) _]. destruct (load_task_ok ws _ _ _ _ _ (good_of _ Hh) Hw Hl) as (_ & Hne & _ & Hs). split.
  - eapply (load_found ws); [by apply good_of|done|done|]. rewrite El. apply (task_ok_foreign ws); [|done]. exact Hs.
  - unfold stream. rewrite Hw, El, in_stream_app. change (lit ws, lit "task", lit t) with (task_key ws t).
    by rewrite (in_stream_foreign ws t f Hf), app_nil_r.
Qed.

(** The second wait of an assignment is lost. The command that makes a re-routed Task wait
    carries a key made of the Task and its assignment revision; when such a command was
    recorded, the Task was started again and the revision is still the same, [reroute_task]
    without a candidate answers WAITING, has cancelled the open assignment items, and leaves
    the Task as it was: not waiting, and nobody is told. *)
Theorem second_wait_lost env rr actor db l l' o db' s e :
  history db.(tasks) -> rr.(rr_workspace) = ws ->
  load_task (probe rr actor) rr.(rr_task) db.(tasks) = Ok (s, db.(tasks)) -> s.(TaskState.status) <> WAITING ->
  find (same_command (_ctx ws actor rr.(rr_correlation) (revision_key "reroute-wait" rr.(rr_task) s)) "task:wait")
    (stream (probe rr actor) "task" rr.(rr_task) db.(tasks)) = Some e ->
  reroute_task env rr actor db l = (l', Ok (o, db')) -> o.(code) = "WAITING" ->
  load_task (probe rr actor) rr.(rr_task) db'.(tasks) = Ok (s, db'.(tasks)) /\
  stream (probe rr actor) "task" rr.(rr_task) db'.(tasks) = stream (probe rr actor) "task" rr.(rr_task) db.(tasks).
Proof.
  intros Hh Hw Hl Hst Hfind H Hcode. pose proof H as Hall. apply reroute_ok in H as (s' & Hl' & H). rewrite Hl in Hl'. injection Hl' as <-.
  destruct H as [[-> _]|(chosen & d & l1 & Hch & H)]; [done|]. pose proof (choose_refines _ _ _ _ _ _ _ _ _ Hh Hch) as Hs1.
  apply choose_ok in Hch as (_ & _ & _ & Hp1 & Hst1 & _). assert (history d.(tasks)) as Hh1 by (by eapply history_steps).
  destruct chosen as [c|].
  { unfold assign in H. apply atx_bind_ok in H as (? & ? & ? & _ & H). apply atx_bind_ok in H as (? & ? & ? & _ & H).
    injection H as _ <- _. done. }
  unfold wait in H. apply atx_bind_ok in H as (u & d2 & l2 & [<- Hc]%in_tx_ok & H).
  assert (rtc step d.(tasks) d2.(tasks)) as Hs2 by (eapply (refines_cancel env rr.(rr_task) _ actor d l1 l1 u d2 Hh1); by rewrite in_tx_ok).
  assert (history d2.(tasks)) as Hh2 by (by eapply history_steps).
  assert (projection d2.(tasks) = projection d.(tasks) /\ appends (log d.(tasks)) (log d2.(tasks))) as [Hp2 Ha2].
  { unfold _cancel_assignments in Hc. apply zoom_ok in Hc as (x & Hc & ->).
    destruct (quiet_cancel_each _ _ _ _ _ _ _ _ (good_store _ _ (good_of _ Hh1)) Hc) as (_ & ? & _ & ?). done. }
  assert (log d.(tasks) = log db.(tasks)) as Hlog by (unfold log; by rewrite Hst1). rewrite Hlog in Ha2.
  destruct (load_after (probe rr actor) rr.(rr_task) db.(tasks) d2.(tasks) s Hh Hh2 Hw Hl) as [Hl2 Hstr]; [by rewrite Hp2, Hp1|done|].
  rewrite bool_decide_eq_false_2 in H by done.
  apply atx_bind_ok in H as (r & d3 & l3 & Hrun & H). injection H as _ _ <-. apply run_ok in Hrun as (rows & Hrun & _).
  unfold mark_waiting in Hrun. apply atx_bind_ok in Hrun as (s2 & x & l4 & Hon%on_task_ok & [_ Hrun]%in_tx_ok).
  change (load_task (probe rr actor) rr.(rr_task) d2.(tasks) = Ok (s2, x)) in Hon. rewrite Hl2 in Hon. injection Hon as <- <-.
  unfold simple_tx in Hrun. apply tx_bind_ok in Hrun as ([a s3] & x & Htr & Hrun). unfold _transition in Htr.
  destruct (load_task_ok ws (probe rr actor) _ _ _ _ (good_of _ Hh) Hw Hl) as (_ & _ & Hid & _). rewrite Hid in Htr.
  unfold _replay_from_stream in Htr.
  change (stream (_ctx rr.(rr_workspace) actor rr.(rr_correlation) (revision_key "reroute-wait" rr.(rr_task) s)) "task" rr.(rr_task) d2.(tasks))
    with (stream (probe rr actor) "task" rr.(rr_task) d2.(tasks)) in Htr. rewrite Hstr in Htr. rewrite Hw in Htr at 1. rewrite Hfind in Htr.
  injection Htr as <- <- <-. apply tx_ret_ok in Hrun as [_ <-]. by split.
Qed.

(** A refusal of the system Account never comes back. Choosing the Agent appended an audit row,
    so the transaction holds the lock of the audit chain; when the policy then refuses
    task.reassign to the actor, the row of this refusal waits for that lock in a transaction of
    its own, and [reroute_task] neither returns nor raises. *)
Theorem refused_reassignment_hangs env rr actor db l l1 s c d rows e :
  history db.(tasks) -> rr.(rr_workspace) = ws -> rr.(rr_reason) ∈ REROUTE_REASONS ->
  load_task (probe rr actor) rr.(rr_task) db.(tasks) = Ok (s, db.(tasks)) -> s.(TaskState.status) ∈ REROUTABLE ->
  choose env rr s actor db l = (l1, Ok (Some c, d)) ->
  permit sha256 catalog env.(command_env) (probe rr actor) "task.reassign" s.(TaskState.channel_id) (Some s.(TaskState.domain))
    db.(tasks) [] = (rows, Err e) -> rows <> [] ->
  reroute_task env rr actor db l = (l1, Err HANGS).
Proof.
  intros Hh Hw Hre Hl Hst Hch Hperm Hrows. destruct (load_task_ok ws (probe rr actor) _ _ _ _ (good_of _ Hh) Hw Hl) as (_ & Hne & _ & Hs).
  pose proof (choose_refines _ _ _ _ _ _ _ _ _ Hh Hch) as Hsteps. assert (history d.(tasks)) as Hh1 by (by eapply history_steps).
  pose proof Hch as Hc. apply choose_ok in Hc as (_ & Hau & Hlock & Hp & Hsto & _).
  destruct (load_after (probe rr actor) rr.(rr_task) db.(tasks) d.(tasks) s Hh Hh1 Hw Hl Hp) as [Hl1 _].
  { unfold log. rewrite Hsto. apply appends_refl. }
  unfold reroute_task. erewrite atx_bind_step; [|by rewrite (proj2 (mem_spec _ _) Hre)].
  erewrite atx_bind_step; [|unfold in_tx, on_tasks, zoom; by rewrite Hl].
  assert (with_tasks db.(tasks) db = db) as -> by (by destruct db).
  rewrite (task_ok_exists _ _ _ _ _ Hs), (proj2 (mem_spec _ _) Hst). cbn [negb orb]. rewrite (atx_bind_step _ _ _ _ _ _ _ Hch).
  unfold assign. apply atx_bind_err. unfold run, azoom, through_sink. rewrite Hlock. unfold execute.
  change (String.eqb _ EmptyString) with false. cbv iota. unfold reassign_task.
  erewrite (atx_bind_err _ _ _ _ rows e).
  - cbn [andb]. rewrite bool_decide_eq_false_2 by done. done.
  - unfold TaskCommands.on_task. erewrite atx_bind_step; [|unfold in_tx; exact (f_equal (pair []) Hl1)].
    apply atx_bind_err. revert Hperm. unfold permit. rewrite Hau. cbn [ctx_principal ctx_correlation_id _ctx].
    by destruct (require_permission _ _ _) as [rs [x|]].
Qed.
End moves.
End rerouting.

(** ** An example *)

(** The human h gives the Task t1 to the Agent a; the Account s is the system of the Workspace. *)
Module Reassignment.
#[local] Existing Instance numbered_log.
#[local] Existing Instance numbered_reads.
#[local] Notation Tasks := (@TaskCommands.Db (list HashChain.Event) unit).
#[local] Notation State := (@Rerouting.Db (list HashChain.Event) unit).

Definition catalog : PolicyCatalog := {|
  listed := (fun p => (p, false)) <$> ("task.reassign" :: Sample.permissions);
  action_classes := list_to_map [("internal_write", {| class_risk := "LOW"; class_approval := "none" |})];
  action_specs := (fun p => ("command:" +:+ p, {| spec_class := "internal_write"; spec_permission := p |})) <$>
    ("task.reassign" :: Sample.permissions);
  unclassified_default := "HIGH"; quorums := list_to_map [("LOW", 0)]; human_only_from := "HIGH"; capabilities := []; roles_raw := [] |}.

Definition names : list string := ["h"; "a"; "b"; "s"].
Definition type_of (n : string) : string := if String.eqb n "h" then "human" else if String.eqb n "s" then "service" else "agent".

(** [granted]: the Accounts that hold the role. *)
Definition members (granted : list string) : Authority.Db := {|
  accounts := list_to_map ((fun n => ("acct-" +:+ n, Sample.account n (type_of n))) <$> names);
  roles := roles Sample.members; role_versions := role_versions Sample.members;
  assignments := (fun n => {| a_account := "uuid-" +:+ n; a_role := "role"; a_scope := JNull; valid_from := 0; valid_to := None;
    assigned_by := "root"; Authority.a_event_id := None; revoked_at := None; revoke_event_id := None |}) <$> granted;
  agent_capabilities := ∅; channel_ids := {["ch" := "ch"]};
  channel_members := list_to_map ((fun n => (("ch", "uuid-" +:+ n), "active")) <$> names) |}.

Definition nothing (granted : list string) : Tasks := {|
  projection := ∅; edges := ∅; task_assignments := []; criteria_rows := []; joins := ∅; authority := members granted;
  agents := {["uuid-a" := "agent-a"; "uuid-b" := "agent-b"]}; channel_templates := ∅;
  inbox := {| work_items := ∅; receipts := []; next_receipt_id := 1; Inbox.audit_events := []; event_store := [] |}; world := tt |}.

Definition task : CreateTask := {|
  ct_title := "task"; ct_channel_id := "ch"; ct_domain := "d"; ct_risk := "LOW"; ct_task_id := Some "t1"; ct_join_policy := [];
  ct_criteria := Sample.criteria |}.

Definition env_of (hex : string) : Env := {|
  clk i := Z.of_nat i; authorized_at := 5; audit_id := "aud"; work_item_hex := hex; policy_snapshot := JObj [] |}.

Notation sha := Sample.sha.
Notation by_ := Sample.by_.
Notation nohook := Sample.nohook.
#[local] Notation after m db := (Tx.committed (m db []) db).
#[local] Notation create := (create_task sha Sample.no_str str_int catalog (env_of "wi-0") task (by_ "h" "k1")).
#[local] Notation delegate := (delegate_task sha str_int catalog nohook (env_of "wi-1") "t1" "acct-a" "SKILL" (by_ "h" "k2")).
#[local] Notation start key := (start_task sha str_int catalog nohook (env_of "wi-2") "t1" (by_ "a" key)).
#[local] Notation accept := (accept_task sha str_int catalog nohook Sample.nolimit (env_of "wi-3") "t1" (by_ "a" "k3")).
#[local] Notation history := (history sha Sample.no_str str_int catalog nohook nohook Sample.report_of Sample.nolimit "ws").

Definition given (granted : list string) : Tasks := let d := after create (nothing granted) in after delegate d.
Definition running (granted : list string) : Tasks := let d := after accept (given granted) in after (start "k4") d.

Definition tables (agents : list string) : Tables := {|
  agent_rows := (fun n => {| ag_workspace := "ws"; ag_agent_id := "agent-" +:+ n; ag_account := "uuid-" +:+ n; ag_adapter_type := "mcp";
    ag_capacity := Some 2; ag_concurrent_tasks := PNone; ag_online := true; ag_status := "active" |}) <$> agents;
  writers := list_to_set ((fun n => ("ch", "uuid-" +:+ n)) <$> agents); capability_domains := ∅; routing_decisions := [];
  Routing.audit_events := []; audit_locked := false |}.

Definition state (d : Tasks) (agents : list string) : State := {| tasks := d; routing := tables agents; artifact_rows := [] |}.

Definition renv (hex : string) : REnv := {|
  cancel_env := env_of "wi-c"; command_env := env_of hex; decided_at := 6; routed_at _ := 5; routed_audit a := "aud-" +:+ a |}.

Definition offline : Request := request_for "ws" "t1" "AGENT_OFFLINE" "c".
Definition system : Principal := as_principal (Sample.account "s" "service").

#[local] Notation reroute := (reroute_task sha Sample.no_str str_int catalog nohook (renv "wi-9") offline system).

Lemma given_history granted : history (given granted).
Proof.
  exists (nothing granted). split; [by split|]. unfold given. cbv zeta. eapply rtc_r; [|by apply Delegate]. apply rtc_once. by apply Create.
Qed.

Lemma running_history granted : history (running granted).
Proof.
  destruct (given_history granted) as (d & Hd & H). exists d. split; [done|]. unfold running. cbv zeta.
  eapply rtc_r; [|by apply Start]. eapply rtc_r; [exact H|]. by apply Accept.
Qed.

(** The Agent b takes over. *)
Definition two : State := Eval vm_compute in state (running names) ["a"; "b"].
Definition taken : State := Eval vm_compute in after reroute two.

Lemma takes_over : exists l o, reroute two [] = (l, Ok (o, taken)) /\ o.(code) = "REASSIGNED" /\ o.(ro_assignee) = Some "uuid-b" /\
  o.(ro_work_item) = Some "wi-9".
Proof. eexists _, _. vm_compute. split_and!; reflexivity. Qed.

#[local] Notation step := (step sha Sample.no_str str_int catalog nohook nohook Sample.report_of Sample.nolimit "ws").

Lemma two_history : history two.(tasks).
Proof. replace two.(tasks) with (running names) by (vm_compute; reflexivity). apply running_history. Qed.

Lemma rerouting_refines_commands_witness : rtc step two.(tasks) taken.(tasks) /\ history taken.(tasks).
Proof.
  refine (rerouting_refines_commands sha Sample.no_str str_int catalog nohook nohook Sample.report_of Sample.nolimit "ws"
    Sample.nohook_quiet Sample.nohook_quiet two taken _ two_history).
  apply rtc_once. replace taken with (after reroute two) by (vm_compute; reflexivity). by apply Reroute.
Defined.

Lemma accounts_keyed id p : two.(tasks).(authority).(accounts) !! id = Some p -> p.(account_id) = id.
Proof.
  intros H. change (authority (tasks two)) with (members names) in H. unfold members in H. cbn [accounts] in H.
  apply elem_of_list_to_map_2, list_elem_of_fmap in H as (n & [= -> ->] & _). reflexivity.
Qed.

Lemma rerouted_once_to_a_new_agent_witness :
  exists l o, reroute two [] = (l, Ok (o, taken)) /\ reroute_count "t1" taken = 1 /\ "uuid-b" ∉ previous_assignees "t1" two.
Proof.
  destruct takes_over as (l & o & H & Hc & Ha & _). exists l, o. split; [exact H|].
  destruct (rerouted_once_to_a_new_agent sha Sample.no_str str_int catalog nohook nohook Sample.report_of Sample.nolimit "ws"
    Sample.nohook_quiet Sample.nohook_quiet (renv "wi-9") offline system two [] l o taken two_history eq_refl accounts_keyed H Hc)
    as (_ & s & a & p & _ & _ & Ho & Hprev & _ & Hrow).
  rewrite Ha in Ho. injection Ho as Eo. rewrite <- Eo in Hprev. split; [|exact Hprev].
  destruct Hrow as [Hsame|[Hone _]]; [|exact Hone]. vm_compute in Hsame. discriminate Hsame.
Defined.

(** Only the Agent a is there: the Task waits, is started again by a, and should wait again. *)
Definition alone : State := Eval vm_compute in state (running names) ["a"].
Definition waits : State := Eval vm_compute in after reroute alone.
Definition again : State := Eval vm_compute in with_tasks (after (start "k5") waits.(tasks)) waits.
Definition not_waiting : State := Eval vm_compute in after reroute again.

#[local] Notation probe := (_ctx offline.(rr_workspace) system offline.(rr_correlation) ("reroute-probe:" +:+ offline.(rr_task))).

Definition status_in (d : Tasks) : option TaskStatus :=
  match load_task (by_ "h" "k") "t1" d with Ok (s, _) => Some s.(TaskState.status) | Err _ => None end.

Definition open_in (d : Tasks) : list string := work_item_id <$> open_items None None d.(inbox).

Lemma waits_then_does_not :
  status_in waits.(tasks) = Some WAITING /\ status_in again.(tasks) = Some RUNNING /\
  status_in not_waiting.(tasks) = Some RUNNING /\ open_in not_waiting.(tasks) = [].
Proof. vm_compute. split_and!; reflexivity. Qed.

Lemma again_history : history again.(tasks).
Proof.
  assert (history alone.(tasks)) as (d & Hd & H).
  { replace alone.(tasks) with (running names) by (vm_compute; reflexivity). apply running_history. }
  assert (rtc step alone.(tasks) waits.(tasks)) as Hw.
  { replace waits with (after reroute alone) by (vm_compute; reflexivity).
    apply (move_steps sha Sample.no_str str_int catalog nohook nohook Sample.report_of Sample.nolimit "ws" Sample.nohook_quiet
      Sample.nohook_quiet); [by apply Reroute|by exists d]. }
  exists d. split; [done|]. eapply rtc_r; [etrans; [exact H|exact Hw]|].
  replace again.(tasks) with (after (start "k5") waits.(tasks)) by (vm_compute; reflexivity). by apply Start.
Qed.

Definition started_again : TaskState := Eval vm_compute in
  match load_task (by_ "h" "k") "t1" again.(tasks) with Ok (s, _) => s | Err _ => initial_state "t1" end.
Definition first_wait : option HashChain.Event := Eval vm_compute in
  find (same_command (_ctx "ws" system "c" (revision_key "reroute-wait" "t1" started_again)) "task:wait")
    (stream (by_ "h" "k") "task" "t1" again.(tasks)).

Lemma again_loads : load_task probe offline.(rr_task) again.(tasks) = Ok (started_again, again.(tasks)).
Proof. vm_compute. reflexivity. Qed.

Lemma again_waits : exists l o, reroute again [] = (l, Ok (o, not_waiting)) /\ o.(code) = "WAITING".
Proof. eexists _, _. vm_compute. split; reflexivity. Qed.

Lemma wait_recorded : exists e,
  find (same_command (_ctx "ws" system offline.(rr_correlation) (revision_key "reroute-wait" offline.(rr_task) started_again)) "task:wait")
    (stream probe "task" offline.(rr_task) again.(tasks)) = Some e.
Proof. eexists. vm_compute. reflexivity. Qed.

Lemma second_wait_lost_witness :
  exists l o, reroute again [] = (l, Ok (o, not_waiting)) /\ o.(code) = "WAITING" /\
    load_task probe offline.(rr_task) not_waiting.(tasks) = Ok (started_again, not_waiting.(tasks)) /\
    started_again.(TaskState.status) = RUNNING.
Proof.
  destruct again_waits as (l & o & H & Hc). destruct wait_recorded as [e He].
  exists l, o. split; [exact H|]. split; [exact Hc|]. split; [|reflexivity].
  exact (proj1 (second_wait_lost sha Sample.no_str str_int catalog nohook nohook Sample.report_of Sample.nolimit "ws"
    Sample.nohook_quiet Sample.nohook_quiet (renv "wi-9") offline system again [] l o not_waiting started_again e
    again_history eq_refl again_loads ltac:(discriminate) He H Hc)).
Defined.

(** The system Account does not hold the role. *)
Definition powerless : State := Eval vm_compute in state (running ["h"; "a"; "b"]) ["a"; "b"].

Definition powerless_task : TaskState := Eval vm_compute in
  match load_task (by_ "h" "k") "t1" powerless.(tasks) with Ok (s, _) => s | Err _ => initial_state "t1" end.

Lemma powerless_history : history powerless.(tasks).
Proof. replace powerless.(tasks) with (running ["h"; "a"; "b"]) by (vm_compute; reflexivity). apply running_history. Qed.

Lemma powerless_loads : load_task probe offline.(rr_task) powerless.(tasks) = Ok (powerless_task, powerless.(tasks)).
Proof. vm_compute. reflexivity. Qed.

Lemma powerless_chooses : exists l c d, choose sha catalog (renv "wi-9") offline powerless_task system powerless [] = (l, Ok (Some c, d)).
Proof. eexists _, _, _. vm_compute. reflexivity. Qed.

Lemma powerless_refused : exists rows e, rows <> [] /\
  permit sha catalog (renv "wi-9").(command_env) probe "task.reassign" powerless_task.(TaskState.channel_id)
    (Some powerless_task.(TaskState.domain)) powerless.(tasks) [] = (rows, Err e).
Proof. eexists _, _. split; [|vm_compute; reflexivity]. discriminate. Qed.

Lemma refused_reassignment_hangs_witness : exists l, reroute powerless [] = (l, Err HANGS).
Proof.
  destruct powerless_chooses as (l & c & d & Hc), powerless_refused as (rows & e & Hr & Hp). exists l.
  exact (refused_reassignment_hangs sha Sample.no_str str_int catalog nohook nohook Sample.report_of Sample.nolimit "ws"
    Sample.nohook_quiet Sample.nohook_quiet (renv "wi-9") offline system powerless [] l powerless_task c d rows e
    powerless_history eq_refl ltac:(apply mem_spec; reflexivity) powerless_loads ltac:(apply mem_spec; reflexivity) Hc Hp Hr).
Defined.
End Reassignment.
