(* ===== verification/Independence.v ===== *)
(** The independence of implementer and verifier
    ([server/verification/independence.py]): the account an alias chain leads
    to, and the check before a verification is assigned. *)

From S2P Require Import Prelude.

Record Identity := {
  account_id : string; credential_fingerprint : string; agent_id : option string }.

(** [min] of a non-empty list of strings. *)
Definition py_min (x : string) (l : list string) : string :=
  foldl (fun m y => if String.leb m y then m else y) x l.

(** The [while] loop and the two returns after it; [None] is out of fuel. *)
Fixpoint principal_loop (graph : gmap string string) (fuel : nat) (seen : list string)
    (current : string) : option string :=
  match graph !! current with
  | Some next =>
      if mem current seen then Some (py_min (default current (head seen)) (tail seen))
      else match fuel with
           | O => None
           | S fuel => principal_loop graph fuel (seen ++ [current]) next
           end
  | None => Some (if mem current seen then py_min (default current (head seen)) (tail seen) else current)
  end.

(** One round per account with an alias edge is enough: [principal_loop_total]. *)
Definition effective_principal (account : string) (graph : gmap string string) : string :=
  default account (principal_loop graph (S (size graph)) [] account).

Definition both_equal (a b : option string) : bool := truthy a && truthy b && bool_decide (a = b).

Definition check_independence (implementer verifier : Identity) (graph : gmap string string)
    (verifier_permissions : option (gset string)) (commit_author : option string) : res unit :=
  guard_err (String.eqb implementer.(account_id) verifier.(account_id)) "VERIFIER_SAME_ACCOUNT"
  (guard_err (both_equal implementer.(agent_id) verifier.(agent_id)) "VERIFIER_SAME_AGENT"
  (guard_err (String.eqb implementer.(credential_fingerprint) verifier.(credential_fingerprint))
    "VERIFIER_SAME_CREDENTIAL"
  (guard_err (String.eqb (effective_principal implementer.(account_id) graph)
      (effective_principal verifier.(account_id) graph)) "VERIFIER_ALIAS_OF_IMPLEMENTER"
  (guard_err (bool_decide (commit_author = Some verifier.(account_id))) "VERIFIER_IS_COMMIT_AUTHOR"
  (guard_err (match verifier_permissions with
              | Some ps => bool_decide ("verification.submit" ∉ ps)
              | None => false
              end) "VERIFIER_NOT_ELIGIBLE"
  (Ok tt)))))).

(** * Alias chains *)

Section Chains.
Context (graph : gmap string string).

Definition alias (a b : string) : Prop := graph !! a = Some b.

Definition acyclic : Prop := forall a, ~ tc alias a a.

Lemma principal_loop_total fuel seen current :
  NoDup seen -> Forall (fun x => is_Some (graph !! x)) seen ->
  (size graph < fuel + length seen)%nat -> is_Some (principal_loop graph fuel seen current).
Proof.
  revert seen current. induction fuel as [|fuel IH]; intros seen current Hnd Hdom Hlen; cbn.
  - exfalso. assert (length seen <= size (dom graph))%nat; [|rewrite size_dom in *; lia].
    rewrite <- (size_list_to_set (C := gset string) seen) by done. apply subseteq_size.
    intros x Hx%elem_of_list_to_set. rewrite Forall_forall in Hdom. by apply elem_of_dom, Hdom.
  - destruct (graph !! current) as [next|] eqn:En; [|by eexists].
    destruct (mem current seen) eqn:Em; [by eexists|]. apply mem_false in Em. apply IH.
    + apply NoDup_app; split_and!; [done| |apply NoDup_singleton].
      by intros x Hx ->%list_elem_of_singleton.
    + apply Forall_app; split; [done|]. by repeat constructor.
    + rewrite length_app. cbn. lia.
Qed.

(** Without cycles the loop ends in the account without an alias at the end of
    the chain. *)
Lemma principal_loop_end fuel seen current r :
  acyclic -> Forall (fun x => tc alias x current) seen ->
  principal_loop graph fuel seen current = Some r -> rtc alias current r /\ graph !! r = None.
Proof.
  intros Hac. revert seen current. induction fuel as [|fuel IH]; intros seen current Hseen.
  all: assert (mem current seen = false) as Hm
    by (apply mem_false; intros Hin; rewrite Forall_forall in Hseen; by apply (Hac current), Hseen).
  all: cbn; rewrite Hm; destruct (graph !! current) as [next|] eqn:En; intros H; simplify_eq.
  all: try (split; [apply rtc_refl|done]).
  apply IH in H as [Hr Hn].
  - split; [|done]. exact (rtc_l _ _ _ _ En Hr).
  - apply Forall_app; split.
    + eapply Forall_impl; [done|]. intros x Hx. exact (tc_r _ _ _ Hx En).
    + apply Forall_singleton, tc_once. exact En.
Qed.

Lemma effective_principal_end a :
  acyclic -> rtc alias a (effective_principal a graph) /\ graph !! effective_principal a graph = None.
Proof.
  intros Hac. unfold effective_principal.
  destruct (principal_loop_total (S (size graph)) [] a) as [r Hr]; [constructor|constructor|cbn; lia|].
  rewrite Hr. by eapply principal_loop_end.
Qed.

(** Aliases are deterministic, so a chain has one end. *)
Lemma chain_end_unique a x y : rtc alias a x -> graph !! x = None -> rtc alias a y -> graph !! y = None -> x = y.
Proof.
  intros Hx Nx. induction Hx as [x|a b x Hab _ IH]; intros Hy Ny;
    (destruct Hy as [|a' b' y Hab' Hy]; [|unfold alias in *; simplify_eq]); unfold alias in *; simplify_eq; auto.
Qed.

Lemma same_principal_iff a b :
  acyclic -> effective_principal a graph = effective_principal b graph <-> rtsc alias a b.
Proof.
  intros Hac. destruct (effective_principal_end a Hac) as [Ha Na], (effective_principal_end b Hac) as [Hb Nb].
  split.
  - intros E. rewrite E in Ha. transitivity (effective_principal b graph); [by apply rtc_rtsc_rl|].
    symmetry. by apply rtc_rtsc_rl.
  - clear Ha Hb Na Nb. intros H. induction H as [|a c b Hac' _ IH]; [done|]. rewrite <- IH.
    destruct (effective_principal_end a Hac) as [Ha Na], (effective_principal_end c Hac) as [Hc Nc].
    destruct Hac' as [E|E].
    + apply (chain_end_unique a); try done. by eapply rtc_l.
    + symmetry. apply (chain_end_unique c); try done. by eapply rtc_l.
Qed.
End Chains.

Lemma both_equal_spec a b :
  both_equal a b = true <-> exists x, x <> EmptyString /\ a = Some x /\ b = Some x.
Proof.
  unfold both_equal. rewrite !andb_true_iff, bool_decide_eq_true. split.
  - intros [[Ha _] <-]. destruct a as [[|c x]|]; try discriminate Ha. by exists (String c x).
  - intros ([|c x] & Hx & -> & ->); [by destruct Hx|done].
Qed.

(** Independence means different people. With alias chains that do not cycle,
    the check accepts a verifier exactly when no chain of aliases, in either
    direction, connects his account with the implementer's, the two share neither
    an Agent nor a credential, he did not author the commit, and his permissions,
    where they are known, contain [verification.submit]. *)
Theorem independence_exact implementer verifier graph permissions author :
  acyclic graph ->
  check_independence implementer verifier graph permissions author = Ok tt <->
  ~ rtsc (alias graph) implementer.(account_id) verifier.(account_id) /\
  ~ (exists a, a <> EmptyString /\ implementer.(agent_id) = Some a /\ verifier.(agent_id) = Some a) /\
  implementer.(credential_fingerprint) <> verifier.(credential_fingerprint) /\
  author <> Some verifier.(account_id) /\
  (forall ps, permissions = Some ps -> "verification.submit" ∈ ps).
Proof.
  intros Hac. rewrite <- (same_principal_iff graph) by done. unfold check_independence.
  rewrite !guard_err_ok, !String.eqb_neq, !bool_decide_eq_false.
  assert (both_equal implementer.(agent_id) verifier.(agent_id) = false <->
    ~ (exists a, a <> EmptyString /\ implementer.(agent_id) = Some a /\ verifier.(agent_id) = Some a)) as ->.
  { rewrite <- both_equal_spec. by destruct (both_equal _ _). }
  assert (match permissions with Some ps => bool_decide ("verification.submit" ∉ ps) | None => false end = false <->
    forall ps, permissions = Some ps -> "verification.submit" ∈ ps) as ->.
  { destruct permissions as [ps|]; [case_bool_decide|]; naive_solver. }
  assert (effective_principal implementer.(account_id) graph <> effective_principal verifier.(account_id) graph ->
    implementer.(account_id) <> verifier.(account_id)) by congruence.
  naive_solver.
Qed.

Module Sample.
Definition worker : Identity := {| account_id := "a1"; credential_fingerprint := "f1"; agent_id := Some "agent-1" |}.
Definition checker : Identity := {| account_id := "h1"; credential_fingerprint := "f2"; agent_id := None |}.
Definition graph : gmap string string := {["a1" := "owner"; "a2" := "owner"]}.

Lemma graph_acyclic : acyclic graph.
Proof.
  assert (forall x y, alias graph x y -> y = "owner" /\ x <> "owner") as He.
  { unfold alias, graph. intros x y. rewrite lookup_insert, lookup_singleton.
    repeat case_decide; intros ?; simplify_eq; done. }
  assert (forall x y, tc (alias graph) x y -> y = "owner" /\ x <> "owner") as Ht.
  { intros x y H. induction H as [x y H|x y z H1 H2 IH]; [by apply He|]. by split; [apply IH|apply (He x y)]. }
  intros a [??]%Ht. by subst.
Qed.
End Sample.

Lemma independence_exact_witness :
  check_independence Sample.worker Sample.checker Sample.graph None None = Ok tt <->
  ~ rtsc (alias Sample.graph) "a1" "h1" /\
  ~ (exists a, a <> EmptyString /\ Some "agent-1" = Some a /\ None = Some a) /\ "f1" <> "f2" /\
  None <> Some "h1" /\ (forall ps : gset string, None = Some ps -> "verification.submit" ∈ ps).
Proof.
  apply (independence_exact Sample.worker Sample.checker Sample.graph None None). exact Sample.graph_acyclic.
Defined.

(** A chain into a cycle ends in the smallest account of the chain and the cycle,
    not of the cycle: an alias of a cyclic alias is not recognised. *)
Example alias_of_cycle_unrecognised :
  let graph : gmap string string := {["a" := "b"; "b" := "c"; "c" := "b"]} in
  effective_principal "a" graph = "a" /\ effective_principal "b" graph = "b" /\ graph !! "a" = Some "b".
Proof. vm_compute. done. Qed.
