(* ===== verification/VerificationRuns.v ===== *)
(** Verification runs ([server/verification/runs.py], [server/verification/gate.py]): the state
    machine of a run, the identities pinned at its creation, the verdict report and the chained
    revisions. The tables keep their constraints; SHA-256 and the text of an instant are
    parameters. The identity columns of a run never change (the trigger of migration 0001). *)

From S2P Require Import Prelude Tx Canonical Text HashChain Independence.
Open Scope Z_scope.

Inductive VerificationStatus :=
| PLANNED | ASSIGNED | RUNNING | PASSED | FAILED | BLOCKED | CANCELLED | FIX_SUBMITTED | RECHECK_ASSIGNED.

Inductive VerificationOp := ASSIGN | START | VERDICT | FIX | RECHECK | CANCEL.

#[global] Instance verification_status_eq_dec : EqDecision VerificationStatus.
Proof. solve_decision. Defined.
#[global] Instance verification_op_eq_dec : EqDecision VerificationOp.
Proof. solve_decision. Defined.

Definition status_value (s : VerificationStatus) : string :=
  match s with
  | PLANNED => "PLANNED" | ASSIGNED => "ASSIGNED" | RUNNING => "RUNNING" | PASSED => "PASSED" | FAILED => "FAILED"
  | BLOCKED => "BLOCKED" | CANCELLED => "CANCELLED" | FIX_SUBMITTED => "FIX_SUBMITTED" | RECHECK_ASSIGNED => "RECHECK_ASSIGNED"
  end.

Definition op_value (o : VerificationOp) : string :=
  match o with
  | ASSIGN => "assign" | START => "start" | VERDICT => "verdict" | FIX => "fix" | RECHECK => "recheck" | CANCEL => "cancel"
  end.

Definition TERMINAL : list VerificationStatus := [PASSED; CANCELLED].

(** [None]: the submitted result. *)
Definition TRANSITIONS : list ((VerificationStatus * VerificationOp) * option VerificationStatus) := [
  ((PLANNED, ASSIGN), Some ASSIGNED);
  ((ASSIGNED, START), Some RUNNING);
  ((RECHECK_ASSIGNED, START), Some RUNNING);
  ((RUNNING, VERDICT), None);
  ((FAILED, FIX), Some FIX_SUBMITTED);
  ((BLOCKED, FIX), Some FIX_SUBMITTED);
  ((FIX_SUBMITTED, RECHECK), Some RECHECK_ASSIGNED);
  ((BLOCKED, RECHECK), Some RECHECK_ASSIGNED);
  ((PLANNED, CANCEL), Some CANCELLED);
  ((ASSIGNED, CANCEL), Some CANCELLED);
  ((RUNNING, CANCEL), Some CANCELLED);
  ((FAILED, CANCEL), Some CANCELLED);
  ((BLOCKED, CANCEL), Some CANCELLED);
  ((FIX_SUBMITTED, CANCEL), Some CANCELLED);
  ((RECHECK_ASSIGNED, CANCEL), Some CANCELLED)].

(** The status a verdict leads to. *)
Definition status_of_result (r : string) : option VerificationStatus :=
  if String.eqb r "PASSED" then Some PASSED else if String.eqb r "FAILED" then Some FAILED
  else if String.eqb r "BLOCKED" then Some BLOCKED else None.

Definition next_status (current : VerificationStatus) (op : VerificationOp) (result : option string) : res VerificationStatus :=
  guard_err (mem current TERMINAL) "VERIFICATION_TERMINAL" $
  match find (fun t => bool_decide (t.1 = (current, op))) TRANSITIONS with
  | None => Err "VERIFICATION_TRANSITION_INVALID"
  | Some (_, Some target) => Ok target
  | Some (_, None) =>
      match result ≫= status_of_result with Some s => Ok s | None => Err "VERIFICATION_RESULT_INVALID" end
  end.

(** ** Rows *)

(** [created_at] and [row_id] order the runs. *)
Record VerificationRun := {
  verification_id : string; workspace_id : string; target_type : string; target_id : string; phase : option Z;
  task_id : option string; implementer_account_id : string; verifier_account_id : string;
  implementer_agent_id : option string; verifier_agent_id : option string;
  implementer_credential_fingerprint : string; verifier_credential_fingerprint : string;
  identity_graph_version : string; effective_policy_hash : string; criteria_version : string; target_commit : string;
  status : VerificationStatus; current_revision : Z; result : option string; snapshot_hash : ustr;
  created_by_account_id : string; created_at : Z; row_id : string }.

Definition with_status (s : VerificationStatus) (r : VerificationRun) : VerificationRun := {|
  verification_id := r.(verification_id); workspace_id := r.(workspace_id); target_type := r.(target_type);
  target_id := r.(target_id); phase := r.(phase); task_id := r.(task_id);
  implementer_account_id := r.(implementer_account_id); verifier_account_id := r.(verifier_account_id);
  implementer_agent_id := r.(implementer_agent_id); verifier_agent_id := r.(verifier_agent_id);
  implementer_credential_fingerprint := r.(implementer_credential_fingerprint);
  verifier_credential_fingerprint := r.(verifier_credential_fingerprint);
  identity_graph_version := r.(identity_graph_version); effective_policy_hash := r.(effective_policy_hash);
  criteria_version := r.(criteria_version); target_commit := r.(target_commit); status := s;
  current_revision := r.(current_revision); result := r.(result); snapshot_hash := r.(snapshot_hash);
  created_by_account_id := r.(created_by_account_id); created_at := r.(created_at); row_id := r.(row_id) |}.

Definition with_verdict (n : Z) (res : string) (s : VerificationStatus) (r : VerificationRun) : VerificationRun := {|
  verification_id := r.(verification_id); workspace_id := r.(workspace_id); target_type := r.(target_type);
  target_id := r.(target_id); phase := r.(phase); task_id := r.(task_id);
  implementer_account_id := r.(implementer_account_id); verifier_account_id := r.(verifier_account_id);
  implementer_agent_id := r.(implementer_agent_id); verifier_agent_id := r.(verifier_agent_id);
  implementer_credential_fingerprint := r.(implementer_credential_fingerprint);
  verifier_credential_fingerprint := r.(verifier_credential_fingerprint);
  identity_graph_version := r.(identity_graph_version); effective_policy_hash := r.(effective_policy_hash);
  criteria_version := r.(criteria_version); target_commit := r.(target_commit); status := s;
  current_revision := n; result := Some res; snapshot_hash := r.(snapshot_hash);
  created_by_account_id := r.(created_by_account_id); created_at := r.(created_at); row_id := r.(row_id) |}.

Definition identity_of_implementer (r : VerificationRun) : Identity := {|
  account_id := r.(implementer_account_id); credential_fingerprint := r.(implementer_credential_fingerprint);
  agent_id := r.(implementer_agent_id) |}.
Definition identity_of_verifier (r : VerificationRun) : Identity := {|
  account_id := r.(verifier_account_id); credential_fingerprint := r.(verifier_credential_fingerprint);
  agent_id := r.(verifier_agent_id) |}.

(** What [build_snapshot] pins. *)
Record Snapshot := {
  sn_implementer : Identity; sn_verifier : Identity; sn_graph_version : string; sn_edges : list (string * string);
  sn_policy_hash : string; sn_criteria : string; sn_commit : string }.

Record Revision := {
  revision_id : ustr; rv_verification : string; revision : Z; rv_result : string; submitted_by : string;
  submitter_fingerprint : string; report_sha256 : ustr; rv_event : ustr; previous_hash : option ustr;
  content_hash : ustr; rv_created_at : Z }.

Record Finding := { finding_id : ustr; fi_verification : string; fi_revision : Z; fi_severity : ustr; fi_summary : ustr }.

Record Evidence := {
  ev_verification : string; ev_revision : Z; evidence_ref : string; ev_sha256 : option string; ev_by : string }.

Record Tables := {
  runs : gmap string VerificationRun;
  snapshots : list (string * Snapshot * ustr);   (* credential_identity_snapshots *)
  revisions : list Revision;                     (* in the order of their ids *)
  findings : list Finding;
  evidence : list Evidence;
  account_aliases : list (string * string) }.

Definition with_runs (x : gmap string VerificationRun) (t : Tables) : Tables := {|
  runs := x; snapshots := t.(snapshots); revisions := t.(revisions); findings := t.(findings); evidence := t.(evidence);
  account_aliases := t.(account_aliases) |}.

Definition load_run (id : string) (t : Tables) : res VerificationRun :=
  match t.(runs) !! id with Some r => Ok r | None => Err "VERIFICATION_NOT_FOUND" end.

Definition set_status (id : string) (s : VerificationStatus) (t : Tables) : Tables := with_runs (alter (with_status s) id t.(runs)) t.

(** ** Alias graph and snapshots *)

(** One edge per account: of several rows the last one read stays. [known]: the accounts of
    the Workspace. *)
Definition alias_graph (known : string -> bool) (t : Tables) : gmap string string :=
  foldl (fun g e => if known e.1 then <[e.1 := e.2]> g else g) ∅ t.(account_aliases).

(** The edges the [while] loop meets from [cur]. *)
Fixpoint chain_edges (fuel : nat) (graph : gmap string string) (seen : list string) (cur : string) : list (string * string) :=
  match fuel with
  | O => []
  | S fuel =>
      match graph !! cur with
      | Some next => if mem cur seen then [] else (cur, next) :: chain_edges fuel graph (seen ++ [cur]) next
      | None => []
      end
  end.

Definition edge_leb (a b : string * string) : bool :=
  if String.eqb a.1 b.1 then String.leb a.2 b.2 else String.leb a.1 b.1.

(** A round per edge is enough: [chain_edges_enough]. *)
Definition relevant_alias_edges (graph : gmap string string) (accounts : list string) : list (string * string) :=
  py_sorted edge_leb (remove_dups (concat ((fun a =>
    chain_edges (S (size graph)) graph [] a ++ List.filter (fun e => String.eqb e.2 a) (map_to_list graph)) <$> accounts))).

Definition snapshot_fields (s : Snapshot) : list (ustr * json) := [
  (lit "implementer_account_id", jtext s.(sn_implementer).(account_id));
  (lit "verifier_account_id", jtext s.(sn_verifier).(account_id));
  (lit "implementer_agent_id", jopt_text s.(sn_implementer).(agent_id));
  (lit "verifier_agent_id", jopt_text s.(sn_verifier).(agent_id));
  (lit "implementer_credential_fingerprint", jtext s.(sn_implementer).(credential_fingerprint));
  (lit "verifier_credential_fingerprint", jtext s.(sn_verifier).(credential_fingerprint));
  (lit "identity_graph_version", jtext s.(sn_graph_version));
  (lit "alias_edges", JArr ((fun e => JArr [jtext e.1; jtext e.2]) <$> s.(sn_edges)));
  (lit "effective_policy_hash", jtext s.(sn_policy_hash));
  (lit "criteria_version", jtext s.(sn_criteria));
  (lit "target_commit", jtext s.(sn_commit))].

Definition independence_from_snapshot (s : Snapshot) : res unit :=
  check_independence s.(sn_implementer) s.(sn_verifier) (list_to_map (reverse s.(sn_edges))) None None.

Definition load_snapshot (id : string) (t : Tables) : res (Snapshot * ustr) :=
  match find (fun x => String.eqb x.1.1 id) t.(snapshots) with
  | Some (_, s, h) => Ok (s, h)
  | None => Err "VERIFICATION_SNAPSHOT_MISSING"
  end.

(** ** Who may submit *)

Definition check_submitter (r : VerificationRun) (account fingerprint : string) (graph : gmap string string) : res unit :=
  guard_err (String.eqb account r.(implementer_account_id) ||
             String.eqb (effective_principal account graph) (effective_principal r.(implementer_account_id) graph) ||
             String.eqb fingerprint r.(implementer_credential_fingerprint)) "SELF_VERIFICATION_FORBIDDEN" $
  guard_err (negb (String.eqb account r.(verifier_account_id))) "VERIFIER_MISMATCH" $ Ok tt.

(** ** The verdict report, against verification-verdict.v1.schema.json *)

Notation report := (list (ustr * json)).

Definition is_text (v : json) : bool := match v with JStr _ => true | _ => false end.
Definition non_empty (v : json) : bool := match v with JStr (_ :: _) => true | _ => false end.
Definition one_of (l : list string) (v : json) : bool := match v with JStr s => existsb (fun x => bool_decide (s = lit x)) l | _ => false end.
Definition array_of (p : json -> bool) (v : json) : bool := match v with JArr l => forallb p l | _ => false end.
Definition required (o : report) (k : string) (p : json -> bool) : bool := match dict_get o k with Some v => p v | None => false end.
Definition allowed (o : report) (k : string) (p : json -> bool) : bool := match dict_get o k with Some v => p v | None => true end.

Definition valid_test (v : json) : bool :=
  match v with
  | JObj o => required o "id" non_empty && required o "result" (one_of ["PASS"; "FAIL"; "NOT_RUN"; "NOT_APPLICABLE"]) &&
              required o "evidence_ref" is_text && allowed o "note" is_text
  | _ => false
  end.

Definition valid_finding (v : json) : bool :=
  match v with
  | JObj o => required o "id" non_empty && required o "severity" (one_of ["Critical"; "High"; "Medium"; "Low"]) &&
              required o "summary" non_empty && allowed o "affected" (array_of is_text) && allowed o "reproduction" (array_of is_text) &&
              forallb (fun k => allowed o k is_text) ["expected"; "actual"; "evidence_ref"; "impact"; "fix_condition"]
  | _ => false
  end.

Definition verdict_schema (o : report) : bool :=
  required o "result" (one_of ["PASSED"; "FAILED"; "BLOCKED"]) && required o "criteria_version" non_empty &&
  forallb (fun k => allowed o k is_text) ["environment_fingerprint"; "started_at"; "completed_at"] &&
  required o "tests" (array_of valid_test) && required o "findings" (array_of valid_finding) &&
  required o "residual_risks" (array_of is_text).

(** The objects of an array of the report. *)
Definition objects (o : report) (k : string) : list report :=
  match dict_get o k with Some (JArr l) => omap (fun v => match v with JObj m => Some m | _ => None end) l | _ => [] end.

Definition member (o : report) (k : string) : ustr := match dict_get o k with Some (JStr s) => s | _ => [] end.

Definition blocking (o : report) : bool := existsb (fun s => bool_decide (member o "severity" = lit s)) ["Critical"; "High"; "Medium"].
Definition unsettled (o : report) : bool := negb (existsb (fun s => bool_decide (member o "result" = lit s)) ["PASS"; "NOT_APPLICABLE"]).

Definition validate_verdict (o : report) (res : string) : Prelude.res unit :=
  guard_err (negb (verdict_schema o)) "VERDICT_REPORT_INVALID" $
  guard_err (negb (bool_decide (member o "result" = lit res))) "VERDICT_RESULT_MISMATCH" $
  guard_err (String.eqb res "PASSED" && (existsb blocking (objects o "findings") || existsb unsettled (objects o "tests")))
    "VERDICT_PASS_NOT_JUSTIFIED" $ Ok tt.

(** ** Storing *)

Section storing.
Context (sha256 : list N -> ustr) (isoformat : Z -> ustr).

Definition hash_of (fields : list (ustr * json)) : Prelude.res ustr := sha256 <$> canonical_json (JObj fields).

(** [INSERT INTO verification_runs] and its snapshot, with the constraints of the table. *)
Definition insert_run (r : VerificationRun) (s : Snapshot) (t : Tables) : Prelude.res Tables :=
  guard_err (bool_decide (is_Some (t.(runs) !! r.(verification_id))) ||
             String.eqb r.(implementer_account_id) r.(verifier_account_id) ||
             bool_decide (is_Some r.(implementer_agent_id) /\ r.(implementer_agent_id) = r.(verifier_agent_id)) ||
             String.eqb r.(implementer_credential_fingerprint) r.(verifier_credential_fingerprint))
    "VERIFIER_NOT_INDEPENDENT_DB" $
  Ok {| runs := <[r.(verification_id) := r]> t.(runs); snapshots := t.(snapshots) ++ [(r.(verification_id), s, r.(snapshot_hash))];
        revisions := t.(revisions); findings := t.(findings); evidence := t.(evidence); account_aliases := t.(account_aliases) |}.

(** [f"{revision:03d}"] *)
Definition three_digits (n : Z) : ustr :=
  let d := str_int n in if (length d =? 1)%nat then lit "00" ++ d else if (length d =? 2)%nat then lit "0" ++ d else d.

Definition last_hash (l : list Revision) : option ustr := content_hash <$> last l.

Definition revision_fields (rid : ustr) (id : string) (n : Z) (res who fingerprint : string) (digest event : ustr) (now : Z) : list (ustr * json) := [
  (lit "revision_id", JStr rid); (lit "verification_id", jtext id); (lit "revision", JInt n); (lit "result", jtext res);
  (lit "submitted_by_account_id", jtext who); (lit "submitter_credential_fingerprint", jtext fingerprint);
  (lit "report_sha256", JStr digest); (lit "event_id", JStr event); (lit "created_at", JStr (isoformat now))].

Definition new_findings (id : string) (n : Z) (o : report) : list Finding :=
  (fun f => {| finding_id := lit (id +:+ ":") ++ str_int n ++ lit ":" ++ member f "id"; fi_verification := id; fi_revision := n;
               fi_severity := member f "severity"; fi_summary := member f "summary" |}) <$> objects o "findings".

(** The guard of the INSERT: the row of the run as it is stored. *)
Definition guarded (id who fingerprint : string) (t : Tables) : bool :=
  match t.(runs) !! id with
  | Some r => String.eqb r.(implementer_account_id) who || String.eqb r.(implementer_credential_fingerprint) fingerprint
  | None => false
  end.

Definition append_revision (r : VerificationRun) (res who fingerprint : string) (o : report) (event : ustr) (now : Z) (t : Tables)
    : Prelude.res (Revision * Tables) :=
  let id := r.(verification_id) in
  let previous := last_hash t.(revisions) in
  let n := r.(current_revision) + 1 in
  let rid := lit ("vrr-" +:+ id +:+ "-") ++ three_digits n in
  digest ← hash_of o;
  hash ← chain_hash sha256 (revision_fields rid id n res who fingerprint digest event now) previous;
  guard_err (guarded id who fingerprint t) "SELF_VERIFICATION_FORBIDDEN" $
  guard_err (existsb (fun x => bool_decide (x.(revision_id) = rid) ||
                               (String.eqb x.(rv_verification) id && (x.(revision) =? n))) t.(revisions)) "IntegrityError" $
  let fs := new_findings id n o in
  guard_err (negb (bool_decide (NoDup (finding_id <$> (t.(findings) ++ fs))))) "IntegrityError" $
  match status_of_result res with
  | None => Err "IntegrityError"
  | Some s =>
      let row := {| revision_id := rid; rv_verification := id; revision := n; rv_result := res; submitted_by := who;
                    submitter_fingerprint := fingerprint; report_sha256 := digest; rv_event := event; previous_hash := previous;
                    content_hash := hash; rv_created_at := now |} in
      Ok (row, {| runs := alter (with_verdict n res s) id t.(runs); snapshots := t.(snapshots); revisions := t.(revisions) ++ [row];
                  findings := t.(findings) ++ fs; evidence := t.(evidence); account_aliases := t.(account_aliases) |})
  end.

Definition list_revisions (id : string) (t : Tables) : list Revision :=
  py_sorted (fun a b => a.(revision) <=? b.(revision)) (List.filter (fun r => String.eqb r.(rv_verification) id) t.(revisions)).
End storing.

(** ** The completion gate *)

Record VerificationGate := { passed : bool; vg_verification : option string; vg_revision : Z; vg_result : option string }.

Definition newer (a b : VerificationRun) : bool :=
  if a.(created_at) =? b.(created_at) then String.leb b.(row_id) a.(row_id) else b.(created_at) <? a.(created_at).

Definition verification_gate (ty id : string) (t : Tables) : VerificationGate :=
  match py_sorted newer (List.filter (fun r => String.eqb r.(target_type) ty && String.eqb r.(target_id) id &&
          negb (bool_decide (r.(status) = CANCELLED))) (snd <$> map_to_list t.(runs))) with
  | [] => {| passed := false; vg_verification := None; vg_revision := 0; vg_result := None |}
  | r :: _ => {| passed := bool_decide (r.(result) = Some "PASSED"); vg_verification := Some r.(verification_id);
                 vg_revision := r.(current_revision); vg_result := r.(result) |}
  end.

Definition require_verified (ty id : string) (t : Tables) : res VerificationGate :=
  let gate := verification_gate ty id t in
  guard_err (negb gate.(passed)) "VERIFICATION_REQUIRED" $ Ok gate.

(** ** Lemmas *)

Lemma run_next_status s op r s' :
  next_status s op r = Ok s' ->
  s <> PASSED /\ s <> CANCELLED /\
  match op with
  | VERDICT => s = RUNNING /\ exists x, r = Some x /\ status_of_result x = Some s'
  | START => (s = ASSIGNED \/ s = RECHECK_ASSIGNED) /\ s' = RUNNING
  | ASSIGN => s = PLANNED /\ s' = ASSIGNED
  | FIX => (s = FAILED \/ s = BLOCKED) /\ s' = FIX_SUBMITTED
  | RECHECK => (s = FIX_SUBMITTED \/ s = BLOCKED) /\ s' = RECHECK_ASSIGNED
  | CANCEL => s' = CANCELLED
  end.
Proof.
  unfold next_status. intros [Ht H]%guard_err_ok. apply mem_false in Ht.
  assert (s <> PASSED /\ s <> CANCELLED) as [H1 H2] by (split; intros ->; apply Ht; by repeat constructor).
  split; [done|]. split; [done|]. destruct (decide (s = RUNNING /\ op = VERDICT)) as [[-> ->]|Hne].
  - split; [done|]. cbn in H. destruct r as [x|]; [|done]. cbn in H. exists x. split; [done|].
    by destruct (status_of_result x); [injection H as ->|].
  - destruct s, op; try (by destruct Hne); vm_compute in H; try done; injection H as <-; naive_solver.
Qed.

Lemma status_of_result_value x s : status_of_result x = Some s -> status_value s = x.
Proof.
  unfold status_of_result. destruct (String.eqb_spec x "PASSED") as [->|]; [by intros [= <-]|].
  destruct (String.eqb_spec x "FAILED") as [->|]; [by intros [= <-]|].
  destruct (String.eqb_spec x "BLOCKED") as [->|]; [by intros [= <-]|done].
Qed.

(** ** The completion gate *)

Lemma newer_total a b : newer a b = false -> newer b a = true.
Proof.
  unfold newer. rewrite Z.eqb_sym. destruct (created_at b =? created_at a) eqn:E; [apply string_leb_total|].
  rewrite Z.ltb_ge, Z.ltb_lt. apply Z.eqb_neq in E. lia.
Qed.

Lemma newer_refl a : newer a a = true.
Proof. destruct (newer a a) eqn:E; [done|]. apply newer_total in E as E'. congruence. Qed.

Lemma newer_trans a b c : newer a b = true -> newer b c = true -> newer a c = true.
Proof.
  unfold newer. destruct (Z.eqb_spec (created_at a) (created_at b)) as [E1|E1], (Z.eqb_spec (created_at b) (created_at c)) as [E2|E2],
    (Z.eqb_spec (created_at a) (created_at c)) as [E3|E3]; rewrite ?Z.ltb_lt; try lia. intros H1 H2. by eapply string_leb_trans.
Qed.

(** The gate shows the newest run of the target that was not cancelled. *)
Lemma gate_newest ty id t :
  (verification_gate ty id t).(passed) = true -> exists r, r ∈ (snd <$> map_to_list t.(runs)) /\ r.(target_type) = ty /\ r.(target_id) = id /\
    r.(result) = Some "PASSED" /\ (verification_gate ty id t).(vg_verification) = Some r.(verification_id) /\
    forall r', r' ∈ (snd <$> map_to_list t.(runs)) -> r'.(target_type) = ty -> r'.(target_id) = id -> r'.(status) <> CANCELLED -> newer r r' = true.
Proof.
  unfold verification_gate. set (l := List.filter _ _).
  assert (forall r, r ∈ py_sorted newer l <-> r ∈ (snd <$> map_to_list t.(runs)) /\ r.(target_type) = ty /\ r.(target_id) = id /\ r.(status) <> CANCELLED) as Hl.
  { intros r. rewrite py_sorted_elem. subst l. rewrite list_elem_of_In, filter_In, <- list_elem_of_In, !andb_true_iff, !String.eqb_eq, negb_true_iff,
      bool_decide_eq_false. naive_solver. }
  pose proof (py_sorted_sorted newer newer_total newer_trans l) as Hs.
  destruct (py_sorted newer l) as [|r rest]; [done|]. cbn [passed vg_verification]. intros Hp%bool_decide_eq_true.
  exists r. apply StronglySorted_inv in Hs as [_ Hs]. rewrite Forall_forall in Hs. destruct (proj1 (Hl r) ltac:(by left)) as (H1 & H2 & H3 & _).
  split_and!; try done. intros r' G1 G2 G3 G4. pose proof (proj2 (Hl r') (conj G1 (conj G2 (conj G3 G4)))) as [->|Hin]%elem_of_cons;
    [apply newer_refl|by apply Hs].
Qed.

(** ** The pinned alias edges *)

Section aliases.
Context (g g' : gmap string string).
Hypothesis sub : g' ⊆ g.

Lemma loop_more (graph : gmap string string) fuel k : forall seen cur r,
  principal_loop graph fuel seen cur = Some r -> principal_loop graph (fuel + k) seen cur = Some r.
Proof.
  induction fuel as [|fuel IH]; intros seen cur r; destruct (graph !! cur) as [next|] eqn:E.
  - cbn. rewrite E. destruct (mem cur seen) eqn:Em; [|done]. destruct k; cbn; by rewrite E, Em.
  - cbn. rewrite E. destruct k; cbn; by rewrite E.
  - cbn. rewrite E. destruct (mem cur seen); [done|]. apply IH.
  - cbn. by rewrite E.
Qed.

(** A part of the graph with the edges of a chain resolves the account of the chain alike. *)
Lemma loop_agrees fuel : forall seen cur r,
  (forall a b, (a, b) ∈ chain_edges fuel g seen cur -> g' !! a = Some b) ->
  principal_loop g fuel seen cur = Some r -> principal_loop g' fuel seen cur = Some r.
Proof.
  induction fuel as [|fuel IH]; intros seen cur r Hin; cbn; destruct (g !! cur) as [next|] eqn:E.
  - destruct (mem cur seen) eqn:Em; [|done]. by destruct (g' !! cur).
  - assert (g' !! cur = None) as -> by (by eapply lookup_weaken_None). done.
  - cbn [chain_edges] in Hin. rewrite E in Hin. destruct (mem cur seen) eqn:Em; [by destruct (g' !! cur)|].
    rewrite (Hin cur next) by (by left). intros H. apply IH; [|done]. intros a b Hab. apply Hin. by right.
  - assert (g' !! cur = None) as -> by (by eapply lookup_weaken_None). done.
Qed.

Lemma principal_agrees a :
  (forall x y, (x, y) ∈ chain_edges (S (size g)) g [] a -> g' !! x = Some y) -> effective_principal a g' = effective_principal a g.
Proof.
  intros Hin. unfold effective_principal.
  destruct (principal_loop_total g (S (size g)) [] a) as [r Hr]; [constructor|constructor|cbn; lia|].
  destruct (principal_loop_total g' (S (size g')) [] a) as [r' Hr']; [constructor|constructor|cbn; lia|].
  rewrite Hr, Hr'. cbn. apply (loop_agrees _ _ _ _ Hin) in Hr.
  assert (size g' <= size g)%nat as Hle by (rewrite <- !size_dom; by apply subseteq_size, subseteq_dom).
  apply (loop_more _ _ (size g - size g')) in Hr'. replace (S (size g') + (size g - size g'))%nat with (S (size g)) in Hr' by lia. congruence.
Qed.
End aliases.

Lemma chain_edges_in (graph : gmap string string) fuel : forall seen cur a b,
  (a, b) ∈ chain_edges fuel graph seen cur -> graph !! a = Some b.
Proof.
  induction fuel as [|fuel IH]; intros seen cur a b; cbn; [by intros ?%elem_of_nil|].
  destruct (graph !! cur) as [next|] eqn:E; [|by intros ?%elem_of_nil]. destruct (mem cur seen); [by intros ?%elem_of_nil|].
  intros [[= -> ->]|H]%elem_of_cons; [done|by eapply IH].
Qed.

Lemma relevant_edges_spec graph accounts a b :
  (a, b) ∈ relevant_alias_edges graph accounts <->
  exists x, x ∈ accounts /\ ((a, b) ∈ chain_edges (S (size graph)) graph [] x \/ (graph !! a = Some b /\ b = x)).
Proof.
  unfold relevant_alias_edges. rewrite py_sorted_elem, elem_of_remove_dups, list_elem_of_In, in_concat. setoid_rewrite <- list_elem_of_In.
  assert (forall x, (a, b) ∈ List.filter (fun e => String.eqb e.2 x) (map_to_list graph) <-> graph !! a = Some b /\ b = x) as Hf.
  { intros x. rewrite list_elem_of_In, filter_In, <- list_elem_of_In, elem_of_map_to_list, String.eqb_eq. done. }
  split.
  - intros (l & (x & -> & Hx)%list_elem_of_fmap & [H|H]%elem_of_app); exists x; (split; [done|]); [by left|right]. by apply Hf.
  - intros (x & Hx & H). eexists. split; [apply list_elem_of_fmap; exists x; split; [reflexivity|done]|].
    apply elem_of_app. destruct H as [H|H]; [by left|right; by apply Hf].
Qed.

Lemma pinned_lookup graph accounts a b :
  (list_to_map (reverse (relevant_alias_edges graph accounts)) : gmap string string) !! a = Some b <->
  (a, b) ∈ relevant_alias_edges graph accounts.
Proof.
  assert (forall x y, (x, y) ∈ relevant_alias_edges graph accounts -> graph !! x = Some y) as Hin.
  { intros x y (z & _ & [H|[H _]])%relevant_edges_spec; [by eapply chain_edges_in|done]. }
  assert (NoDup (relevant_alias_edges graph accounts)) as Hnd by (unfold relevant_alias_edges; rewrite py_sorted_perm; apply NoDup_remove_dups).
  assert (NoDup (reverse (relevant_alias_edges graph accounts)).*1) as Hk.
  { rewrite fmap_reverse, reverse_Permutation. apply NoDup_fmap_2_strong; [|done]. intros [x y] [x' y'] H1 H2 E. cbn in E. subst x'.
    apply Hin in H1, H2. rewrite H1 in H2. by injection H2 as ->. }
  rewrite <- elem_of_list_to_map by done. by rewrite elem_of_reverse.
Qed.

Lemma independence_pinned s graph :
  s.(sn_edges) = relevant_alias_edges graph [s.(sn_implementer).(account_id); s.(sn_verifier).(account_id)] ->
  independence_from_snapshot s = check_independence s.(sn_implementer) s.(sn_verifier) graph None None.
Proof.
  intros He. unfold independence_from_snapshot, check_independence. rewrite He.
  set (accounts := [account_id (sn_implementer s); account_id (sn_verifier s)]). set (g' := list_to_map _ : gmap string string).
  assert (g' ⊆ graph) as Hsub.
  { apply map_subseteq_spec. intros a b. subst g'. rewrite pinned_lookup. intros (x & _ & [H|[H _]])%relevant_edges_spec; [by eapply chain_edges_in|done]. }
  assert (forall x, x ∈ accounts -> effective_principal x g' = effective_principal x graph) as Hp.
  { intros x Hx. apply principal_agrees; [done|]. intros a b Hab. subst g'. apply pinned_lookup, relevant_edges_spec. exists x. split; [done|by left]. }
  by rewrite !Hp by (by repeat constructor).
Qed.

(** C25. The pinned identities reproduce the decision. [build_snapshot] keeps of the alias graph only
    the edges that touch the two accounts or their chains; checking the independence again from
    the stored snapshot gives exactly what the check at the creation of the run gave, whatever
    the graph - also with cycles - and whatever code it raised. *)
Theorem snapshot_reproduces_independence implementer verifier graph v policy criteria commit :
  independence_from_snapshot {|
    sn_implementer := implementer; sn_verifier := verifier; sn_graph_version := v;
    sn_edges := relevant_alias_edges graph [implementer.(account_id); verifier.(account_id)];
    sn_policy_hash := policy; sn_criteria := criteria; sn_commit := commit |} =
  check_independence implementer verifier graph None None.
Proof. by apply independence_pinned. Qed.

(** ** The invariant of the tables *)

Section invariant.
Context (sha256 : list N -> ustr) (isoformat : Z -> ustr).

Definition of_run (id : string) (l : list Revision) : list Revision := List.filter (fun r => String.eqb r.(rv_verification) id) l.

(** The hashed fields of a stored revision. *)
Definition fields_of (r : Revision) : list (ustr * json) :=
  revision_fields isoformat r.(revision_id) r.(rv_verification) r.(revision) r.(rv_result) r.(submitted_by) r.(submitter_fingerprint)
    r.(report_sha256) r.(rv_event) r.(rv_created_at).

(** Every row hashes its fields and the hash of the row before. *)
Fixpoint chained (prev : option ustr) (l : list Revision) : Prop :=
  match l with
  | [] => True
  | r :: l => r.(previous_hash) = prev /\ chain_hash sha256 (fields_of r) prev = Ok r.(content_hash) /\ chained (Some r.(content_hash)) l
  end.

Record run_ok (t : Tables) (id : string) (r : VerificationRun) : Prop := {
  ro_id : r.(verification_id) = id;
  ro_independent : exists s, List.filter (fun x => String.eqb x.1.1 id) t.(snapshots) = [(id, s, r.(snapshot_hash))] /\
    s.(sn_implementer) = identity_of_implementer r /\ s.(sn_verifier) = identity_of_verifier r /\
    s.(sn_criteria) = r.(criteria_version) /\ s.(sn_commit) = r.(target_commit) /\ s.(sn_policy_hash) = r.(effective_policy_hash) /\
    independence_from_snapshot s = Ok tt /\ hash_of sha256 (snapshot_fields s) = Ok r.(snapshot_hash);
  ro_numbered : revision <$> of_run id t.(revisions) = seqZ 1 r.(current_revision);
  ro_count : 0 <= r.(current_revision);
  ro_result : r.(result) = rv_result <$> last (of_run id t.(revisions));
  ro_status : forall s, status_of_result (status_value r.(status)) = Some s -> r.(result) = Some (status_value r.(status));
  ro_final : r.(result) = Some "PASSED" -> r.(status) = PASSED;
  ro_submitters : Forall (fun x => x.(submitted_by) = r.(verifier_account_id) /\ x.(submitted_by) <> r.(implementer_account_id) /\
    x.(submitter_fingerprint) <> r.(implementer_credential_fingerprint)) (of_run id t.(revisions)) }.

Record tables_ok (t : Tables) : Prop := {
  tk_runs : forall id r, t.(runs) !! id = Some r -> run_ok t id r;
  tk_orphans : forall id, t.(runs) !! id = None ->
    of_run id t.(revisions) = [] /\ List.filter (fun x => String.eqb x.1.1 id) t.(snapshots) = [];
  tk_chain : chained None t.(revisions) }.

Lemma of_run_snoc id l x : of_run id (l ++ [x]) = of_run id l ++ (if String.eqb x.(rv_verification) id then [x] else []).
Proof. unfold of_run. rewrite List.filter_app. cbn. by destruct (String.eqb _ _). Qed.

Lemma chained_snoc l x : forall prev,
  chained prev l -> x.(previous_hash) = match last l with Some y => Some y.(content_hash) | None => prev end ->
  chain_hash sha256 (fields_of x) x.(previous_hash) = Ok x.(content_hash) -> chained prev (l ++ [x]).
Proof.
  induction l as [|y l IH]; intros prev; cbn; [intros _ E H; by rewrite <- E|]. intros (H1 & H2 & H3) E H. split; [done|]. split; [done|].
  apply IH; [done| |done]. rewrite E. destruct l as [|z l]; [done|]. cbn. by destruct (last (z :: l)) eqn:El; [|by apply last_None in El].
Qed.

Lemma set_status_ok t id r s' op x :
  tables_ok t -> t.(runs) !! id = Some r -> op <> VERDICT -> next_status r.(status) op x = Ok s' -> tables_ok (set_status id s' t).
Proof.
  intros [Hr Ho Hc] Hid Hop Hn. apply run_next_status in Hn as (Hp & _ & Hn).
  split; cbn [set_status with_runs runs revisions snapshots]; [| |done].
  - intros k q Hq. destruct (decide (k = id)) as [->|Hne].
    + rewrite lookup_alter_eq, Hid in Hq. injection Hq as <-. destruct (Hr id r Hid) as [H1 H2 H3 H4 H5 H6 H7 H8].
      split; try done; cbn [with_status status result].
      * intros s Hs. exfalso. destruct op; try done; first [subst s'|destruct Hn as [_ ->]]; vm_compute in Hs; discriminate Hs.
      * intros Hres. by apply H7 in Hres.
    + rewrite lookup_alter_ne in Hq by done. by destruct (Hr k q Hq) as [H1 H2 H3 H4 H5 H6 H7 H8].
  - intros k Hk. apply Ho. destruct (decide (k = id)) as [->|Hne]; [by rewrite lookup_alter_eq, Hid in Hk|by rewrite lookup_alter_ne in Hk].
Qed.

Lemma run_inserted_ok t t' r s :
  tables_ok t -> insert_run r s t = Ok t' ->
  r.(status) = PLANNED -> r.(current_revision) = 0 -> r.(result) = None ->
  s.(sn_implementer) = identity_of_implementer r -> s.(sn_verifier) = identity_of_verifier r -> s.(sn_criteria) = r.(criteria_version) ->
  s.(sn_commit) = r.(target_commit) -> s.(sn_policy_hash) = r.(effective_policy_hash) -> independence_from_snapshot s = Ok tt ->
  hash_of sha256 (snapshot_fields s) = Ok r.(snapshot_hash) -> tables_ok t'.
Proof.
  intros [Hr Ho Hc] [Hg [= <-]]%guard_err_ok H1 H2 H3 H4 H5 H6 H7 H8 H9 H10. rewrite !orb_false_iff, bool_decide_eq_false in Hg.
  destruct Hg as [[[Hnew _] _] _]. assert (t.(runs) !! r.(verification_id) = None) as Hn by (by destruct (runs t !! _); [destruct Hnew|]).
  destruct (Ho _ Hn) as [Hrev Hsn]. split; cbn [runs revisions snapshots]; [| |done].
  - intros k q Hq. destruct (decide (k = r.(verification_id))) as [->|Hne].
    + rewrite lookup_insert_eq in Hq. injection Hq as <-. split; cbn [revisions snapshots]; rewrite ?Hrev; try done.
      * exists s. split_and!; try done. rewrite List.filter_app, Hsn. cbn. by rewrite String.eqb_refl.
      * by rewrite H2.
      * by rewrite H2.
      * rewrite H1. by intros ? [=].
      * by rewrite H3.
    + rewrite lookup_insert_ne in Hq by done. destruct (Hr k q Hq) as [G1 (s' & G2) G3 G4 G5 G6 G7 G8]. split; try done.
      exists s'. cbn [snapshots]. rewrite List.filter_app. cbn. rewrite (proj2 (String.eqb_neq _ _)) by done. by rewrite app_nil_r.
  - intros k Hk. destruct (decide (k = r.(verification_id))) as [->|Hne]; [by rewrite lookup_insert_eq in Hk|].
    rewrite lookup_insert_ne in Hk by done. destruct (Ho k Hk) as [G1 G2]. split; [done|].
    rewrite List.filter_app, G2. cbn. by rewrite (proj2 (String.eqb_neq _ _)).
Qed.

Lemma append_revision_ok t t' r rev graph res who fingerprint o event now :
  tables_ok t -> t.(runs) !! r.(verification_id) = Some r -> r.(status) = RUNNING ->
  check_submitter r who fingerprint graph = Ok tt ->
  append_revision sha256 isoformat r res who fingerprint o event now t = Ok (rev, t') -> tables_ok t' /\
  rev.(rv_verification) = r.(verification_id) /\ rev.(revision) = r.(current_revision) + 1 /\ rev.(rv_event) = event /\ rev.(rv_result) = res /\ rev.(submitted_by) = who /\
  t'.(revisions) = t.(revisions) ++ [rev] /\ exists s, status_of_result res = Some s /\
    t'.(runs) = alter (with_verdict (r.(current_revision) + 1) res s) r.(verification_id) t.(runs).
Proof.
  intros [Hr Ho Hc] Hid Hst [Hself [Hver _]%guard_err_ok]%guard_err_ok. rewrite !orb_false_iff, !String.eqb_neq in Hself.
  destruct Hself as [[Hs1 _] Hs3]. apply negb_false_iff, String.eqb_eq in Hver.
  unfold append_revision. cbv zeta. intros (digest & Hd & H)%res_bind_ok. apply res_bind_ok in H as (hash & Hh & H).
  apply guard_err_ok in H as [_ H]. apply guard_err_ok in H as [_ H]. apply guard_err_ok in H as [_ H].
  destruct (status_of_result res) as [s|] eqn:Es; [|done]. injection H as <- <-. split; [|split_and!; try done; by exists s].
  set (id := r.(verification_id)) in *. destruct (Hr id r Hid) as [H1 H2 H3 H4 H5 H6 H7 H8].
  split; cbn [runs revisions snapshots].
  - intros k q Hq. destruct (decide (k = id)) as [->|Hne].
    + rewrite lookup_alter_eq, Hid in Hq. injection Hq as <-.
      assert (status_value s = res) as Hsv by (by apply status_of_result_value).
      split; cbn [with_verdict verification_id status current_revision result revisions snapshots verifier_account_id implementer_account_id
        implementer_credential_fingerprint]; rewrite ?of_run_snoc; cbn [rv_verification]; rewrite ?String.eqb_refl; try done.
      * rewrite fmap_app, H3. cbn [fmap list_fmap revision]. by rewrite seqZ_app, Z.add_comm by lia.
      * lia.
      * by rewrite last_snoc.
      * by rewrite Hsv.
      * intros [= ->]. by injection Es as <-.
      * apply Forall_app. split; [exact H8|]. by repeat constructor.
    + rewrite lookup_alter_ne in Hq by done. destruct (Hr k q Hq) as [G1 G2 G3 G4 G5 G6 G7 G8].
      split; cbn [revisions snapshots]; rewrite ?of_run_snoc; cbn [rv_verification];
        rewrite ?(proj2 (String.eqb_neq _ _)) by done; rewrite ?app_nil_r; done.
  - intros k Hk. destruct (decide (k = id)) as [->|Hne]; [by rewrite lookup_alter_eq, Hid in Hk|].
    rewrite lookup_alter_ne in Hk by done. destruct (Ho k Hk) as [G1 G2]. split; [|done].
    rewrite of_run_snoc. cbn [rv_verification]. rewrite (proj2 (String.eqb_neq _ _)) by done. by rewrite app_nil_r.
  - apply chained_snoc; [done| |exact Hh]. cbn [previous_hash]. unfold last_hash. by destruct (last _).
Qed.
End invariant.
