(* ===== verification/Verification.v ===== *)
(** The commands of a verification run ([server/application/verification.py]) over the tables of
    [VerificationRuns] and the state of the Task commands. A refusal, and the rejection of a
    submitter, are audited in transactions of their own, which need the lock of the audit
    chain; the transaction of the command holds it once it has appended an audit row. The
    assignment engine behind [auto_assign] and the documents are arguments. *)

From S2P Require Import Prelude Tx Defaults Canonical Text HashChain Policy Catalog Authority EventStore EventLog Bus WorkState Inbox TaskGraph TaskState Criteria TaskProjection TaskCommands TaskHistory TaskTraces Routing Independence VerificationRuns.
Open Scope Z_scope.

Record CreateVerificationRun := {
  cv_target_type : string; cv_target_id : string; cv_implementer : string; cv_verifier : string;
  cv_implementer_fingerprint : string; cv_verifier_fingerprint : string; cv_commit : string; cv_policy_hash : string;
  cv_criteria : string; cv_graph_version : string; cv_implementer_agent : option string; cv_verifier_agent : option string;
  cv_phase : option Z; cv_task : option string; cv_auto_assign : bool }.

Record SubmitVerdict := { sv_verification : string; sv_result : string; sv_report : report }.

Record RunResult := { rr_resource : string; rr_event_id : ustr; rr_seq : Z; rr_replayed : bool; rr_status : VerificationStatus }.

(** A row written in a transaction of its own: a refusal, or a rejected submission. *)
Inductive own_row := Denied (r : AuditRecord) | Rejected (r : AuditRow).

Section commands.
Context {ES : Type} {ELI : EventLogI ES} {ERI : EventReadI ES} {W X : Type}.
Context (sha256 : list N -> ustr) (isoformat : Z -> ustr) (isoformat_utc : Z -> ustr) (catalog : PolicyCatalog) (uuid5 : string -> string).
Context (terminal_hooks : string -> tx (W * ES) unit) (on_verification_terminal : string -> string -> tx (W * ES) unit).

#[local] Notation Tasks := (@TaskCommands.Db ES W).

(** [engine]: the tables of the assignment engine. *)
Record Db := { tasks : Tasks; tables : VerificationRuns.Tables; audit_locked : bool; engine : X }.

Definition with_tasks (x : Tasks) (db : Db) : Db := {|
  tasks := x; tables := db.(tables); audit_locked := db.(audit_locked); engine := db.(engine) |}.
Definition with_tables (x : VerificationRuns.Tables) (db : Db) : Db := {|
  tasks := db.(tasks); tables := x; audit_locked := db.(audit_locked); engine := db.(engine) |}.

(** What the engine writes: it only reads the tables of the runs. *)
Definition Engine : Type := Tasks * bool * X.
Definition engine_part (db : Db) : Engine := (db.(tasks), db.(audit_locked), db.(engine)).
Definition with_engine (e : Engine) (db : Db) : Db := {|
  tasks := e.1.1; tables := db.(tables); audit_locked := e.1.2; engine := e.2 |}.

(** The assignment engine: it fills in the verifier, and offers the run to him. *)
Context {C : Type}.
Context (resolve_auto_assign : CreateVerificationRun -> CommandContext -> VerificationRuns.Tables -> atx own_row Engine (CreateVerificationRun * C)).
Context (record_offer : CommandContext -> VerificationRun -> C -> VerificationRuns.Tables -> tx Engine unit).

(** What a command draws from outside: the draws of the Task commands, the instant of the
    database and the id of a new row. *)
Record VEnv := { task_env : Env; created_now : Z; new_row_id : string; verdict_at : Z }.

(** ** Helpers *)

Definition on_tasks {A} (m : tx Tasks A) : tx Db A := zoom tasks with_tasks m.

(** A step of the Task commands, whose refusals are audited behind the lock. *)
Definition denials {A} (m : atx AuditRecord Tasks A) : atx own_row Db A := fun db l =>
  match through_sink db.(audit_locked) m db.(tasks) [] with
  | (rows, Ok (a, t)) => (l ++ (Denied <$> rows), Ok (a, with_tasks t db))
  | (rows, Err e) => (l ++ (Denied <$> rows), Err e)
  end.

(** [require_permission(ctx, permission, action=action)] *)
Definition permit_action (env : VEnv) (ctx : CommandContext) (permission : string) (action : option string) : atx own_row Db unit :=
  denials (fun t l =>
    let '(rows, r) := require_permission
      (Some (fun q => bus_require sha256 catalog env.(task_env).(audit_id) t.(authority) env.(task_env).(authorized_at)
                        ctx.(ctx_principal).(p_account_id) q)) (permission_request ctx permission action None) [] in
    (l ++ rows, r ≫= fun _ => Ok (tt, t))).

(** [append_audit] in the transaction of the command. *)
Definition audit (row : AuditRow) : tx Db unit := modify (fun db => {|
  tasks := with_audit (db.(tasks).(inbox).(Inbox.audit_events) ++ [row]) db.(tasks); tables := db.(tables); audit_locked := true;
  engine := db.(engine) |}).

Definition _audit_autonomous (row : AuditRow) : atx own_row Db unit := fun db l =>
  if db.(audit_locked) then (l, Err HANGS) else (l ++ [Rejected row], Ok (tt, db)).

Definition _account (ctx : CommandContext) (public_id : string) : tx Db string := on_tasks (_account_uuid ctx public_id).

Definition vr_stream (ctx : CommandContext) (id : string) (db : Db) : list HashChain.Event := stream ctx "verification_run" id db.(tasks).

Definition _replay (ctx : CommandContext) (id scope : string) (db : Db) : option AppendResult :=
  result_of <$> find (same_command ctx scope) (vr_stream ctx id db).

Definition _event (ctx : CommandContext) (r : VerificationRun) (ty : string) (body : list (ustr * json)) (scope : string) : tx Db AppendResult := fun db =>
  let events := vr_stream ctx r.(verification_id) db in
  on_tasks (TaskCommands._append (request ctx "verification_run" r.(verification_id) ty scope ctx.(ctx_idempotency_key) body
    None r.(VerificationRuns.task_id) (text ∘ event_id <$> last events)
    (match last events with Some e => e.(aggregate_seq) + 1 | None => 1 end))) db.

(** A run of another Workspace is not found. *)
Definition _run_or_error (ctx : CommandContext) (id : string) : tx Db VerificationRun := fun db =>
  r ← load_run id db.(tables);
  guard_err (negb (String.eqb r.(VerificationRuns.workspace_id) ctx.(ctx_workspace_id))) "VERIFICATION_NOT_FOUND" $ Ok (r, db).

Definition _result (a : AppendResult) (id : string) (s : VerificationStatus) : RunResult := {|
  rr_resource := id; rr_event_id := a.(a_event_id); rr_seq := a.(a_aggregate_seq); rr_replayed := a.(replayed); rr_status := s |}.

(** The accounts of the Workspace. *)
Definition of_workspace (ws : string) (db : Db) (account : string) : bool :=
  existsb (fun p => String.eqb p.(account_uuid) account && String.eqb p.(workspace_uuid) ws) (snd <$> map_to_list db.(tasks).(authority).(accounts)).

Definition graph_of (ws : string) (db : Db) : gmap string string := alias_graph (of_workspace ws db) db.(tables).

Definition audit_row (action target result : string) (code : option string) (ctx : CommandContext) (metadata : list (ustr * json)) : AuditRow := {|
  ar_action := action; ar_target_id := target; ar_result := result; ar_error_code := code;
  ar_actor_label := ctx.(ctx_principal).(p_account_id); ar_metadata := metadata |}.

(** ** Creation *)

Definition run_of (cmd : CreateVerificationRun) (env : VEnv) (ctx : CommandContext) (id impl ver : string) (digest : ustr) : VerificationRun := {|
  verification_id := id; VerificationRuns.workspace_id := ctx.(ctx_workspace_id); target_type := cmd.(cv_target_type);
  target_id := cmd.(cv_target_id); phase := cmd.(cv_phase); VerificationRuns.task_id := cmd.(cv_task);
  implementer_account_id := impl; verifier_account_id := ver; implementer_agent_id := cmd.(cv_implementer_agent);
  verifier_agent_id := cmd.(cv_verifier_agent); implementer_credential_fingerprint := cmd.(cv_implementer_fingerprint);
  verifier_credential_fingerprint := cmd.(cv_verifier_fingerprint); identity_graph_version := cmd.(cv_graph_version);
  effective_policy_hash := cmd.(cv_policy_hash); criteria_version := cmd.(cv_criteria); target_commit := cmd.(cv_commit);
  VerificationRuns.status := PLANNED; current_revision := 0; result := None; snapshot_hash := digest;
  created_by_account_id := ctx.(ctx_principal).(p_account_uuid); VerificationRuns.created_at := env.(created_now);
  row_id := env.(new_row_id) |}.

Definition build_snapshot (cmd : CreateVerificationRun) (implementer verifier : Identity) (edges : list (string * string)) : Snapshot := {|
  sn_implementer := implementer; sn_verifier := verifier; sn_graph_version := cmd.(cv_graph_version); sn_edges := edges;
  sn_policy_hash := cmd.(cv_policy_hash); sn_criteria := cmd.(cv_criteria); sn_commit := cmd.(cv_commit) |}.

Definition run_id (ctx : CommandContext) : string :=
  "vr-" +:+ uuid5 (ctx.(ctx_workspace_id) +:+ "|" +:+ ctx.(ctx_principal).(p_account_uuid) +:+ "|" +:+ ctx.(ctx_idempotency_key)).

Definition created_payload (cmd : CreateVerificationRun) (id : string) (digest : ustr) : list (ustr * json) := [
  (lit "verification_id", jtext id); (lit "target_type", jtext cmd.(cv_target_type)); (lit "target_id", jtext cmd.(cv_target_id));
  (lit "verifier_account_id", jtext cmd.(cv_verifier)); (lit "implementer_account_id", jtext cmd.(cv_implementer));
  (lit "criteria_version", jtext cmd.(cv_criteria)); (lit "snapshot_hash", JStr digest)].

(** A new run with its snapshot and Event. *)
Definition new_run_tx (env : VEnv) (ctx : CommandContext) (cmd : CreateVerificationRun) (implementer verifier : Identity) (c : option C)
    : tx Db RunResult := fun db =>
  let id := run_id ctx in
  let snapshot := build_snapshot cmd implementer verifier
    (relevant_alias_edges (graph_of ctx.(ctx_workspace_id) db) [implementer.(Independence.account_id); verifier.(Independence.account_id)]) in
  (digest ← lift (hash_of sha256 (snapshot_fields snapshot));
   let r := run_of cmd env ctx id implementer.(Independence.account_id) verifier.(Independence.account_id) digest in
   t ← lift (insert_run r snapshot db.(tables));
   _ ← modify (with_tables t);
   a ← _event ctx r "VERIFIER_ASSIGNED" (created_payload cmd id digest) "verification_run:create";
   _ ← (match c with Some c => if a.(replayed) then mret tt else zoom engine_part with_engine (record_offer ctx r c t) | None => mret tt end);
   mret (_result a id PLANNED)) db.

Definition create_tx (env : VEnv) (ctx : CommandContext) (cmd : CreateVerificationRun) (implementer verifier : Identity) (c : option C)
    : tx Db RunResult := fun db =>
  let id := run_id ctx in
  match db.(tables).(runs) !! id, _replay ctx id "verification_run:create" db with
  | Some r, Some a => Ok (_result a id r.(VerificationRuns.status), db)
  | _, _ => new_run_tx env ctx cmd implementer verifier c db
  end.

Definition create_verification_run (env : VEnv) (cmd : CreateVerificationRun) (ctx : CommandContext) : atx own_row Db RunResult :=
  _ ← permit_action env ctx "verification.assign" (Some "tool:verification_assign");
  _ ← in_tx (guard_tx (negb (mem cmd.(cv_target_type) ["phase"; "task"])) "VERIFICATION_TARGET_INVALID");
  x ← (if cmd.(cv_auto_assign) && String.eqb cmd.(cv_verifier) EmptyString
       then y ← (fun db => azoom engine_part with_engine (resolve_auto_assign cmd ctx db.(tables)) db); mret (y.1, Some y.2) else mret (cmd, None));
  let '(cmd, c) := x in
  impl ← in_tx (_account ctx cmd.(cv_implementer));
  ver ← in_tx (_account ctx cmd.(cv_verifier));
  let implementer := {| Independence.account_id := impl; credential_fingerprint := cmd.(cv_implementer_fingerprint);
                        Independence.agent_id := cmd.(cv_implementer_agent) |} in
  let verifier := {| Independence.account_id := ver; credential_fingerprint := cmd.(cv_verifier_fingerprint);
                     Independence.agent_id := cmd.(cv_verifier_agent) |} in
  db ← in_tx (gets (fun db => db));
  match check_independence implementer verifier (graph_of ctx.(ctx_workspace_id) db) None None with
  | Err e =>
      _ ← _audit_autonomous (audit_row "verification.create_rejected" cmd.(cv_target_id) "REJECTED" (Some e) ctx
            [(lit "implementer", jtext cmd.(cv_implementer)); (lit "verifier", jtext cmd.(cv_verifier))]);
      in_tx (raise e)
  | Ok _ => in_tx (create_tx env ctx cmd implementer verifier c)
  end.

(** ** Moves *)

Inductive who := Anyone | Verifier_only | Implementer_only.

Definition check_party (w : who) (ctx : CommandContext) (r : VerificationRun) : res unit :=
  match w with
  | Anyone => Ok tt
  | Verifier_only => guard_err (negb (String.eqb ctx.(ctx_principal).(p_account_uuid) r.(verifier_account_id))) "VERIFIER_MISMATCH" $ Ok tt
  | Implementer_only => guard_err (negb (String.eqb ctx.(ctx_principal).(p_account_uuid) r.(implementer_account_id))) "IMPLEMENTER_MISMATCH" $ Ok tt
  end.

(** The last Event of the run stands for the move, which appends none. *)
Definition last_result (ctx : CommandContext) (id : string) (db : Db) : AppendResult :=
  match last (vr_stream ctx id db) with
  | Some e => {| a_event_id := e.(event_id); a_aggregate_seq := e.(aggregate_seq); a_content_hash := e.(HashChain.content_hash);
                 a_recorded_seq := 0; replayed := false |}
  | None => {| a_event_id := []; a_aggregate_seq := 0; a_content_hash := Some []; a_recorded_seq := 0; replayed := false |}
  end.

Definition move_tx (ctx : CommandContext) (id scope : string) (op : VerificationOp) (payload : list (ustr * json)) (r : VerificationRun)
    : tx Db RunResult := fun db =>
  match _replay ctx id scope db with
  | Some a => Ok (_result a id r.(VerificationRuns.status), db)
  | None =>
      (target ← lift (next_status r.(VerificationRuns.status) op None);
       _ ← modify (fun db => with_tables (set_status id target db.(tables)) db);
       _ ← audit (audit_row ("verification." +:+ op_value op) id (VerificationRuns.status_value target) None ctx payload);
       a ← gets (last_result ctx id);
       mret (_result a id target)) db
  end.

Definition _simple_move (env : VEnv) (ctx : CommandContext) (id scope : string) (op : VerificationOp) (permission : string) (w : who)
    (payload : list (ustr * json)) : atx own_row Db RunResult :=
  r ← in_tx (_run_or_error ctx id);
  _ ← in_tx (lift (check_party w ctx r));
  _ ← permit_action env ctx permission None;
  in_tx (move_tx ctx id scope op payload r).

Definition assign_verifier (env : VEnv) (id : string) (ctx : CommandContext) : atx own_row Db RunResult :=
  _simple_move env ctx id "verification_run:assign" ASSIGN "verification.assign" Anyone [].

Definition _enter_task_verifying (env : VEnv) (ctx : CommandContext) (id : string) : atx own_row Db unit :=
  r ← in_tx (fun db => x ← load_run id db.(tables); Ok (x, db));
  match r.(VerificationRuns.task_id) with
  | Some t =>
      if negb (String.eqb r.(target_type) "task") || String.eqb t EmptyString then mret tt
      else
        s ← in_tx (on_tasks (load_task ctx t));
        if bool_decide (s.(TaskState.status) = IMPLEMENTED) then
          _ ← denials (TaskCommands.start_verification sha256 isoformat_utc catalog terminal_hooks env.(task_env) t id ctx); mret tt
        else mret tt
  | None => mret tt
  end.

Definition start_verification (env : VEnv) (id : string) (ctx : CommandContext) : atx own_row Db RunResult :=
  x ← _simple_move env ctx id "verification_run:start" START "verification.submit" Verifier_only [];
  _ ← (if x.(rr_replayed) then mret tt else _enter_task_verifying env ctx id);
  mret x.

Definition submit_fix (env : VEnv) (id commit note : string) (ctx : CommandContext) : atx own_row Db RunResult :=
  _simple_move env ctx id "verification_run:fix" FIX "task.submit" Implementer_only [(lit "fix_commit", jtext commit); (lit "note", jtext note)].

Definition request_recheck (env : VEnv) (id : string) (ctx : CommandContext) : atx own_row Db RunResult :=
  _simple_move env ctx id "verification_run:recheck" RECHECK "verification.assign" Anyone [].

Definition cancel_verification (env : VEnv) (id reason : string) (ctx : CommandContext) : atx own_row Db RunResult :=
  _simple_move env ctx id "verification_run:cancel" CANCEL "verification.assign" Anyone [(lit "reason_code", jtext reason)].

Definition submit_evidence (env : VEnv) (id : string) (refs : list string) (digest : option string) (ctx : CommandContext)
    : atx own_row Db RunResult :=
  r ← in_tx (_run_or_error ctx id);
  _ ← (if mem ctx.(ctx_principal).(p_account_uuid) [r.(implementer_account_id); r.(verifier_account_id)] then mret tt
       else permit_action env ctx "verification.submit" None);
  _ ← in_tx (guard_tx (mem r.(VerificationRuns.status) VerificationRuns.TERMINAL) "VERIFICATION_TERMINAL");
  _ ← in_tx (modify (fun db => let t := db.(tables) in with_tables {|
        runs := t.(runs); snapshots := t.(snapshots); revisions := t.(revisions); findings := t.(findings);
        evidence := t.(evidence) ++ ((fun x => {| ev_verification := id; ev_revision := r.(current_revision) + 1; evidence_ref := x;
                                                ev_sha256 := digest; ev_by := ctx.(ctx_principal).(p_account_uuid) |}) <$> refs);
        account_aliases := t.(account_aliases) |} db));
  db ← in_tx (gets (fun db => db));
  _ ← in_tx (guard_tx (bool_decide (vr_stream ctx id db = [])) "IndexError");
  mret (_result (last_result ctx id db) id r.(VerificationRuns.status)).

(** ** Verdicts *)

Definition default_report (cmd : SubmitVerdict) (r : VerificationRun) : report :=
  match cmd.(sv_report) with
  | [] => [(lit "result", jtext cmd.(sv_result)); (lit "criteria_version", jtext r.(criteria_version)); (lit "tests", JArr []);
           (lit "findings", JArr []); (lit "residual_risks", JArr [])]
  | o => o
  end.

(** [str(report.get("reason_code") or "EXTERNAL_CONDITION")], of a reason that is text. *)
Definition reason_of (o : report) : string :=
  match get_str o "reason_code" with Some (String c s) => String c s | _ => "EXTERNAL_CONDITION" end.

Definition task_result_of (cmd : SubmitVerdict) (r : VerificationRun) (t : string) (o : report) : RecordVerificationResult := {|
  rv_task := t; TaskCommands.rv_verification := r.(verification_id); TaskCommands.rv_result := cmd.(sv_result); rv_revision := r.(current_revision) + 1;
  rv_evidence := if String.eqb cmd.(sv_result) "PASSED" then (fun x => text (member x "evidence_ref")) <$> objects o "tests" else [];
  rv_findings := if String.eqb cmd.(sv_result) "FAILED" then (fun x => text (member x "id")) <$> objects o "findings" else [];
  rv_reason := if mem cmd.(sv_result) ["PASSED"; "FAILED"] then "EXTERNAL_CONDITION" else reason_of o |}.

(** A Task target goes through the Task command, another one appends its own Event. *)
Definition verdict_event (env : VEnv) (ctx : CommandContext) (cmd : SubmitVerdict) (r : VerificationRun) (o : report) : atx own_row Db AppendResult :=
  match r.(VerificationRuns.task_id) with
  | Some t =>
      if String.eqb r.(target_type) "task" && negb (String.eqb t EmptyString) then
        x ← denials (record_verification_result sha256 isoformat_utc catalog env.(task_env) (task_result_of cmd r t o) ctx);
        mret {| a_event_id := x.(tr_event); a_aggregate_seq := x.(tr_seq); a_content_hash := Some []; a_recorded_seq := 0; replayed := x.(tr_replayed) |}
      else in_tx (_event ctx r ("VERIFICATION_" +:+ cmd.(sv_result)) (result_payload (task_result_of cmd r t o)) "verification_run:result")
  | None => in_tx (_event ctx r ("VERIFICATION_" +:+ cmd.(sv_result)) (result_payload (task_result_of cmd r EmptyString o)) "verification_run:result")
  end.

Definition is_task_run (r : VerificationRun) : bool := String.eqb r.(target_type) "task" && truthy r.(VerificationRuns.task_id).

Definition verdict (env : VEnv) (ctx : CommandContext) (cmd : SubmitVerdict) (r : VerificationRun) : atx own_row Db RunResult :=
  let o := default_report cmd r in
  _ ← in_tx (lift (validate_verdict o cmd.(sv_result)));
  target ← in_tx (lift (next_status r.(VerificationRuns.status) VERDICT (Some cmd.(sv_result))));
  a ← verdict_event env ctx cmd r o;
  db ← in_tx (gets (fun db => db));
  x ← in_tx (lift (append_revision sha256 isoformat r cmd.(sv_result) ctx.(ctx_principal).(p_account_uuid)
                     ctx.(ctx_principal).(p_credential_fingerprint) o a.(a_event_id) env.(verdict_at) db.(tables)));
  _ ← in_tx (modify (with_tables x.2));
  _ ← in_tx (if is_task_run r && negb a.(replayed)
             then on_tasks (hook (on_verification_terminal (default EmptyString r.(VerificationRuns.task_id)) r.(verification_id))) else mret tt);
  mret (_result a r.(verification_id) target).

Definition submit_verdict (env : VEnv) (cmd : SubmitVerdict) (ctx : CommandContext) : atx own_row Db RunResult :=
  r ← in_tx (_run_or_error ctx cmd.(sv_verification));
  db ← in_tx (gets (fun db => db));
  match check_submitter r ctx.(ctx_principal).(p_account_uuid) ctx.(ctx_principal).(p_credential_fingerprint)
          (graph_of ctx.(ctx_workspace_id) db) with
  | Err e =>
      _ ← _audit_autonomous (audit_row (if String.eqb e "SELF_VERIFICATION_FORBIDDEN" then "verification.self_submit_rejected"
                                        else "verification.submit_rejected") cmd.(sv_verification) "REJECTED" (Some e) ctx
            [(lit "attempted_result", jtext cmd.(sv_result))]);
      in_tx (raise e)
  | Ok _ =>
      _ ← permit_action env ctx "verification.submit" (Some "tool:verification_submit");
      match _replay ctx cmd.(sv_verification) "verification_run:result" db with
      | Some a => mret (_result a cmd.(sv_verification) r.(VerificationRuns.status))
      | None => verdict env ctx cmd r
      end
  end.
(** ** Reading *)

Definition get_run (env : VEnv) (ctx : CommandContext) (id : string)
    : atx own_row Db (VerificationRun * (Snapshot * ustr) * list Revision) :=
  r ← in_tx (_run_or_error ctx id);
  _ ← (if mem ctx.(ctx_principal).(p_account_uuid) [r.(implementer_account_id); r.(verifier_account_id)] then mret tt
       else permit_action env ctx "verification.read" None);
  db ← in_tx (gets (fun db => db));
  x ← in_tx (lift (load_snapshot id db.(tables)));
  mret (r, x, list_revisions id db.(tables)).

(** ** Commands and states *)

Inductive Command :=
| Create (c : CreateVerificationRun)
| Assign (id : string)
| Start (id : string)
| Fix (id commit note : string)
| Recheck (id : string)
| Cancel (id reason : string)
| Evidence (id : string) (refs : list string) (digest : option string)
| Verdict (c : SubmitVerdict).

Definition handle (env : VEnv) (c : Command) (ctx : CommandContext) : atx own_row Db RunResult :=
  match c with
  | Create c => create_verification_run env c ctx
  | Assign id => assign_verifier env id ctx
  | Start id => start_verification env id ctx
  | Fix id commit note => submit_fix env id commit note ctx
  | Recheck id => request_recheck env id ctx
  | Cancel id reason => cancel_verification env id reason ctx
  | Evidence id refs digest => submit_evidence env id refs digest ctx
  | Verdict c => submit_verdict env c ctx
  end.

(** The tables but the aliases. *)
Definition same_runs (t t' : VerificationRuns.Tables) : Prop :=
  runs t' = runs t /\ snapshots t' = snapshots t /\ revisions t' = revisions t /\ findings t' = findings t /\ evidence t' = evidence t.

(** A command of anybody, which an exception rolls back; or anything the rest of the program
    does, which never writes the tables of the runs. *)
Inductive vstep : Db -> Db -> Prop :=
| By_command env c ctx db l : vstep db (Tx.committed (handle env c ctx db l) db)
| Elsewhere db db' : same_runs db.(tables) db'.(tables) -> vstep db db'.

(** What a command that returns did to the tables. *)
Inductive tstep (t : VerificationRuns.Tables) : VerificationRuns.Tables -> Prop :=
| T_same : tstep t t
| T_move id r op s : load_run id t = Ok r -> op <> VERDICT -> next_status r.(VerificationRuns.status) op None = Ok s ->
    tstep t (set_status id s t)
| T_insert cmd env ctx implementer verifier known id digest t' :
    let s := build_snapshot cmd implementer verifier
      (relevant_alias_edges (alias_graph known t) [implementer.(Independence.account_id); verifier.(Independence.account_id)]) in
    implementer.(credential_fingerprint) = cmd.(cv_implementer_fingerprint) -> implementer.(Independence.agent_id) = cmd.(cv_implementer_agent) ->
    verifier.(credential_fingerprint) = cmd.(cv_verifier_fingerprint) -> verifier.(Independence.agent_id) = cmd.(cv_verifier_agent) ->
    check_independence implementer verifier (alias_graph known t) None None = Ok tt ->
    hash_of sha256 (snapshot_fields s) = Ok digest ->
    insert_run (run_of cmd env ctx id implementer.(Independence.account_id) verifier.(Independence.account_id) digest) s t = Ok t' ->
    tstep t t'
| T_evidence id r new : load_run id t = Ok r -> r.(VerificationRuns.status) ∉ VerificationRuns.TERMINAL ->
    Forall (fun e => e.(ev_verification) = id) new ->
    tstep t {| runs := t.(runs); snapshots := t.(snapshots); revisions := t.(revisions); findings := t.(findings);
               evidence := t.(evidence) ++ new; account_aliases := t.(account_aliases) |}
| T_verdict id r known who fingerprint res o event now rev t' :
    load_run id t = Ok r -> check_submitter r who fingerprint (alias_graph known t) = Ok tt -> validate_verdict o res = Ok tt ->
    r.(VerificationRuns.status) = RUNNING -> append_revision sha256 isoformat r res who fingerprint o event now t = Ok (rev, t') -> tstep t t'.

(** ** Lemmas *)

Lemma denials_ok {A} (m : atx AuditRecord Tasks A) (db : Db) l l' a db' :
  denials m db l = (l', Ok (a, db')) -> exists rows t, m db.(tasks) [] = (rows, Ok (a, t)) /\ db' = with_tasks t db /\
    l' = l ++ (Denied <$> rows) /\ (db.(audit_locked) = true -> rows = []).
Proof.
  unfold denials, through_sink. destruct (m db.(tasks) []) as [rows [[x t]|]].
  - case_bool_decide as Hr; rewrite ?andb_false_r, ?andb_true_r; [|destruct db.(audit_locked)]; cbn; try done; intros [= <- <- <-]; by eexists _, _.
  - by destruct (_ && _).
Qed.

Lemma permit_action_ok env ctx p a (db : Db) l l' u db' : permit_action env ctx p a db l = (l', Ok (u, db')) -> db' = db.
Proof.
  unfold permit_action. intros (rows & t & H & -> & _)%denials_ok. destruct (require_permission _ _ _) as [rs [x|]]; [|done].
  injection H as _ _ <-. by destruct db.
Qed.

Lemma run_or_error_ok ctx id (db : Db) r db' :
  _run_or_error ctx id db = Ok (r, db') -> db' = db /\ load_run id db.(tables) = Ok r /\ r.(VerificationRuns.workspace_id) = ctx.(ctx_workspace_id).
Proof.
  unfold _run_or_error. intros (x & H & [Hw [= <- <-]]%guard_err_ok)%res_bind_ok. by apply negb_false_iff, String.eqb_eq in Hw.
Qed.

Lemma event_tables ctx r ty body scope (db : Db) a db' :
  _event ctx r ty body scope db = Ok (a, db') -> db'.(tables) = db.(tables).
Proof. unfold _event, on_tasks. by intros (t & _ & ->)%zoom_ok. Qed.

(** The verdict on a run of a phase that names a Task is the step [Judged] of [TaskTraces]: it
    appends the Event for the Task, and writes nothing else of the Tasks. *)
Lemma verdict_of_phase_run env ctx cmd r o t (db : Db) l :
  r.(VerificationRuns.task_id) = Some t -> r.(target_type) <> "task" ->
  exists caused_by seq, verdict_event env ctx cmd r o db l =
    in_tx (on_tasks (TaskCommands._append (verdict_of_another_run ctx (task_result_of cmd r t o) ctx.(ctx_idempotency_key) caused_by seq))) db l.
Proof.
  intros Ht Hty. eexists _, _. unfold verdict_event. rewrite Ht, (proj2 (String.eqb_neq _ _) Hty). cbn [andb]. unfold in_tx, _event.
  rewrite Ht. reflexivity.
Qed.

Lemma verdict_event_tables env ctx cmd r o (db : Db) l l' a db' :
  verdict_event env ctx cmd r o db l = (l', Ok (a, db')) -> db'.(tables) = db.(tables).
Proof.
  unfold verdict_event. destruct r.(VerificationRuns.task_id); [destruct (_ && _)|].
  - intros (x & d & l1 & (? & ? & _ & -> & _)%denials_ok & H)%atx_bind_ok. by injection H as _ _ <-.
  - by intros [_ H%event_tables]%in_tx_ok.
  - by intros [_ H%event_tables]%in_tx_ok.
Qed.

Lemma simple_move_ok env ctx id scope op p w body (db : Db) l l' x db' :
  _simple_move env ctx id scope op p w body db l = (l', Ok (x, db')) ->
  exists r, load_run id db.(tables) = Ok r /\ check_party w ctx r = Ok tt /\ move_tx ctx id scope op body r db = Ok (x, db').
Proof.
  unfold _simple_move. intros (r & d & l1 & [_ (-> & Hr & _)%run_or_error_ok]%in_tx_ok & H)%atx_bind_ok.
  apply atx_bind_ok in H as ([] & d & l2 & [_ [Hp <-]%lift_ok]%in_tx_ok & H).
  apply atx_bind_ok in H as (u & d & l3 & ->%permit_action_ok & [_ H]%in_tx_ok). by exists r.
Qed.

Lemma move_tx_ok ctx id scope op body r (db : Db) x db' :
  move_tx ctx id scope op body r db = Ok (x, db') ->
  (db' = db /\ x.(rr_replayed) = true) \/
  (_replay ctx id scope db = None /\ x.(rr_replayed) = false /\ exists s, next_status r.(VerificationRuns.status) op None = Ok s /\
    x.(rr_status) = s /\ db'.(tables) = set_status id s db.(tables) /\ db'.(audit_locked) = true /\
    db'.(tasks) = with_audit (db.(tasks).(inbox).(Inbox.audit_events) ++
      [audit_row ("verification." +:+ op_value op) id (VerificationRuns.status_value s) None ctx body]) db.(tasks)).
Proof.
  unfold move_tx. destruct (_replay ctx id scope db) as [a|] eqn:Er.
  - intros [= <- <-]. left. split; [done|]. by apply fmap_Some in Er as (e & _ & ->).
  - intros H. right. split; [done|]. apply tx_bind_ok in H as (s & d & [Hn <-]%lift_ok & H).
    apply tx_bind_ok in H as (u & d & <-%modify_ok & H). apply tx_bind_ok in H as (u' & d & <-%modify_ok & H).
    apply tx_bind_ok in H as (a & d & [<- <-]%gets_ok & [<- <-]%tx_ret_ok).
    split; [unfold last_result; by destruct (last (vr_stream _ _ _))|]. exists s. by split_and!.
Qed.

Lemma simple_move_tstep env ctx id scope op p w body (db : Db) l l' x db' :
  op <> VERDICT -> _simple_move env ctx id scope op p w body db l = (l', Ok (x, db')) -> tstep db.(tables) db'.(tables).
Proof.
  intros Hop (r & Hr & _ & [[-> _]|(_ & _ & s & Hn & _ & -> & _)]%move_tx_ok)%simple_move_ok; [constructor|by eapply T_move].
Qed.

Lemma enter_tables env ctx id (db : Db) l l' u db' : _enter_task_verifying env ctx id db l = (l', Ok (u, db')) -> db'.(tables) = db.(tables).
Proof.
  unfold _enter_task_verifying. intros (r & d & l1 & [_ (x & _ & [= <- <-])%res_bind_ok]%in_tx_ok & H)%atx_bind_ok.
  destruct x.(VerificationRuns.task_id) as [t|]; [destruct (_ || _)|]; [by injection H as _ _ <-| |by injection H as _ _ <-].
  apply atx_bind_ok in H as (s & d & l2 & [_ (e & _ & ->)%zoom_ok]%in_tx_ok & H). case_bool_decide; [|by injection H as _ _ <-].
  apply atx_bind_ok in H as (y & d & l3 & (? & ? & _ & -> & _)%denials_ok & H). by injection H as _ _ <-.
Qed.

Lemma audit_autonomous_ok row (db : Db) l l' u db' : _audit_autonomous row db l = (l', Ok (u, db')) -> db' = db /\ l' = l ++ [Rejected row].
Proof. unfold _audit_autonomous. destruct db.(audit_locked); [done|]. by intros [= <- _ <-]. Qed.

Lemma create_tx_tstep env ctx cmd implementer verifier c (db : Db) x db' :
  implementer.(credential_fingerprint) = cmd.(cv_implementer_fingerprint) -> implementer.(Independence.agent_id) = cmd.(cv_implementer_agent) ->
  verifier.(credential_fingerprint) = cmd.(cv_verifier_fingerprint) -> verifier.(Independence.agent_id) = cmd.(cv_verifier_agent) ->
  check_independence implementer verifier (graph_of ctx.(ctx_workspace_id) db) None None = Ok tt ->
  create_tx env ctx cmd implementer verifier c db = Ok (x, db') -> tstep db.(tables) db'.(tables).
Proof.
  intros H1 H2 H3 H4 Hi. unfold create_tx.
  assert (new_run_tx env ctx cmd implementer verifier c db = Ok (x, db') -> tstep db.(tables) db'.(tables)) as Hf.
  { unfold new_run_tx. intros (digest & d & [Hd <-]%lift_ok & H)%tx_bind_ok.
    apply tx_bind_ok in H as (t & d & [Ht <-]%lift_ok & H). apply tx_bind_ok in H as (u & d & <-%modify_ok & H).
    apply tx_bind_ok in H as (a & d & Ha%event_tables & H). apply tx_bind_ok in H as (u' & d' & Hc & [_ <-]%tx_ret_ok).
    assert (d'.(tables) = t) as ->.
    { destruct c; [|by injection Hc as _ <-]. destruct (replayed a); [by injection Hc as _ <-|].
      by apply zoom_ok in Hc as (e & _ & ->). }
    by eapply T_insert. }
  destruct (_ !! _) as [r|]; [destruct (_replay _ _ _ _) as [a|]|]; [|exact Hf|exact Hf]. intros [= _ <-]. constructor.
Qed.

Lemma create_tstep env cmd ctx (db : Db) l l' x db' :
  create_verification_run env cmd ctx db l = (l', Ok (x, db')) -> tstep db.(tables) db'.(tables).
Proof.
  unfold create_verification_run. intros (u & d & l1 & ->%permit_action_ok & H)%atx_bind_ok.
  apply atx_bind_ok in H as (u' & d & l2 & [_ [_ <-]%guard_tx_ok]%in_tx_ok & H).
  apply atx_bind_ok in H as ([cmd' c] & d & l3 & Hres & H).
  assert (d.(tables) = db.(tables)) as <-.
  { destruct (_ && _); [|by injection Hres as _ _ _ <-].
    apply atx_bind_ok in Hres as (y & d' & l4 & Ha & Hres). injection Hres as _ _ _ <-.
    unfold azoom in Ha. destruct (resolve_auto_assign _ _ _ _ _) as [l5 [[z e]|]]; [|done]. by injection Ha as _ _ <-. }
  apply atx_bind_ok in H as (impl & d1 & l5 & [_ (e1 & _ & ->)%zoom_ok]%in_tx_ok & H).
  apply atx_bind_ok in H as (ver & d2 & l6 & [_ (e2 & _ & ->)%zoom_ok]%in_tx_ok & H).
  apply atx_bind_ok in H as (d3 & d4 & l7 & [_ [<- <-]%gets_ok]%in_tx_ok & H).
  destruct (check_independence _ _ _ _ _) as [[]|e] eqn:Hi.
  - apply in_tx_ok in H as [_ H]. by apply create_tx_tstep in H.
  - apply atx_bind_ok in H as (u'' & d5 & l8 & _ & [_ H]%in_tx_ok). done.
Qed.

Lemma evidence_tstep env id refs digest ctx (db : Db) l l' x db' :
  submit_evidence env id refs digest ctx db l = (l', Ok (x, db')) -> tstep db.(tables) db'.(tables).
Proof.
  unfold submit_evidence. intros (r & d & l1 & [_ (-> & Hr & _)%run_or_error_ok]%in_tx_ok & H)%atx_bind_ok.
  apply atx_bind_ok in H as (u & d & l2 & Hp & H). assert (d = db) as -> by (destruct (mem _ _); [by injection Hp as _ _ <-|by apply permit_action_ok in Hp]).
  apply atx_bind_ok in H as (u' & d & l3 & [_ [Ht <-]%guard_tx_ok]%in_tx_ok & H). apply mem_false in Ht.
  apply atx_bind_ok in H as (u'' & d & l4 & [_ <-%modify_ok]%in_tx_ok & H).
  apply atx_bind_ok in H as (d3 & d4 & l5 & [_ [<- <-]%gets_ok]%in_tx_ok & H).
  apply atx_bind_ok in H as (u3 & d4 & l6 & [_ [_ <-]%guard_tx_ok]%in_tx_ok & H). injection H as _ _ <-.
  eapply T_evidence; [done..|]. apply Forall_fmap, Forall_forall. done.
Qed.

Lemma verdict_ok env ctx cmd r (db : Db) l l' x db' :
  verdict env ctx cmd r db l = (l', Ok (x, db')) ->
  let o := default_report cmd r in
  validate_verdict o cmd.(sv_result) = Ok tt /\ next_status r.(VerificationRuns.status) VERDICT (Some cmd.(sv_result)) = Ok x.(rr_status) /\
  exists a d l1 rev, verdict_event env ctx cmd r o db l = (l1, Ok (a, d)) /\ x = _result a r.(verification_id) x.(rr_status) /\
    append_revision sha256 isoformat r cmd.(sv_result) ctx.(ctx_principal).(p_account_uuid) ctx.(ctx_principal).(p_credential_fingerprint) o
      a.(a_event_id) env.(verdict_at) db.(tables) = Ok (rev, db'.(tables)) /\
    (db'.(tasks) = d.(tasks) \/ exists w u, on_tasks (hook (on_verification_terminal w (verification_id r))) d = Ok (u, with_tasks db'.(tasks) d)).
Proof.
  unfold verdict. cbv zeta. intros (u & d & l1 & [<- [Hv <-]%lift_ok]%in_tx_ok & H)%atx_bind_ok. destruct u. split; [done|].
  apply atx_bind_ok in H as (s & d & l2 & [<- [Hn <-]%lift_ok]%in_tx_ok & H).
  apply atx_bind_ok in H as (a & d & l3 & Hev & H). pose proof (verdict_event_tables _ _ _ _ _ _ _ _ _ _ Hev) as Ht.
  apply atx_bind_ok in H as (d1 & d2 & l4 & [_ [<- <-]%gets_ok]%in_tx_ok & H).
  apply atx_bind_ok in H as ([rev t] & d2 & l5 & [_ [Ha <-]%lift_ok]%in_tx_ok & H).
  apply atx_bind_ok in H as (u & d2 & l6 & [_ <-%modify_ok]%in_tx_ok & H).
  apply atx_bind_ok in H as (u' & d2 & l7 & [_ Hh]%in_tx_ok & H). injection H as _ <- <-. split; [done|].
  rewrite Ht in Ha. exists a, d, l3, rev. split; [exact Hev|]. split; [done|]. cbn [snd] in Hh.
  destruct (is_task_run r && negb (replayed a)).
  - apply zoom_ok in Hh as (e & Hh & ->). split; [done|]. right. exists (default EmptyString r.(VerificationRuns.task_id)), u'.
    apply zoom_ok. exists e. split; [exact Hh|]. done.
  - injection Hh as _ <-. split; [done|]. by left.
Qed.

Lemma verdict_tstep env cmd ctx (db : Db) l l' x db' :
  submit_verdict env cmd ctx db l = (l', Ok (x, db')) -> tstep db.(tables) db'.(tables).
Proof.
  unfold submit_verdict. intros (r & d & l1 & [_ (-> & Hr & _)%run_or_error_ok]%in_tx_ok & H)%atx_bind_ok.
  apply atx_bind_ok in H as (d1 & d2 & l2 & [_ [<- <-]%gets_ok]%in_tx_ok & H).
  destruct (check_submitter _ _ _ _) as [[]|e] eqn:Hs; [|by apply atx_bind_ok in H as (? & ? & ? & _ & [_ H]%in_tx_ok)].
  apply atx_bind_ok in H as (u & d & l3 & ->%permit_action_ok & H). destruct (_replay _ _ _ _); [injection H as _ _ <-; constructor|].
  apply verdict_ok in H as (Hv & Hn & a & d & l4 & rev & _ & _ & Ha & _). apply run_next_status in Hn as (_ & _ & Hrun & _).
  by eapply T_verdict.
Qed.

Lemma handle_tstep env c ctx (db : Db) l l' x db' : handle env c ctx db l = (l', Ok (x, db')) -> tstep db.(tables) db'.(tables).
Proof.
  destruct c; cbn [handle]; intros H.
  - by eapply create_tstep.
  - by eapply simple_move_tstep in H.
  - unfold start_verification in H. apply atx_bind_ok in H as (y & d & l1 & H1%simple_move_tstep & H); [|done].
    apply atx_bind_ok in H as (u & d' & l2 & H2 & H). injection H as _ _ <-.
    assert (d'.(tables) = d.(tables)) as -> by (destruct (rr_replayed y); [by injection H2 as _ _ <-|by eapply enter_tables]). done.
  - by eapply simple_move_tstep in H.
  - by eapply simple_move_tstep in H.
  - by eapply simple_move_tstep in H.
  - by eapply evidence_tstep.
  - by eapply verdict_tstep.
Qed.

#[local] Notation tables_ok := (VerificationRuns.tables_ok sha256 isoformat).

Lemma tables_ok_by t t' : runs t' = runs t -> snapshots t' = snapshots t -> revisions t' = revisions t -> tables_ok t -> tables_ok t'.
Proof.
  intros H1 H2 H3 [Hr Ho Hc]. split; rewrite ?H1, ?H2, ?H3; [|done..].
  intros id r Hid. destruct (Hr id r Hid) as [G1 G2 G3 G4 G5 G6 G7 G8]. split; rewrite ?H2, ?H3; done.
Qed.

Lemma load_run_ok id t r : load_run id t = Ok r -> t.(runs) !! id = Some r.
Proof. unfold load_run. destruct (_ !! _) as [x|]; [|done]. by intros [= ->]. Qed.

Lemma tstep_ok t t' : tstep t t' -> tables_ok t -> tables_ok t'.
Proof.
  intros [|id r op s Hr%load_run_ok Hop Hn|cmd env ctx implementer verifier known id digest t1 s H1 H2 H3 H4 Hi Hd Ht|id r new Hr%load_run_ok Hs Hnew|
    id r known who fingerprint x o event now rev t1 Hr%load_run_ok Hs Hv Hst Ha] Hok; [done|..].
  - by eapply set_status_ok.
  - eapply run_inserted_ok; [done|exact Ht|..]; try done; cbn [sn_implementer sn_verifier s build_snapshot];
      try (unfold identity_of_implementer, identity_of_verifier, run_of; cbn; rewrite <- ?H1, <- ?H2, <- ?H3, <- ?H4; by destruct implementer, verifier).
    by rewrite (independence_pinned s (alias_graph known t)).
  - by apply (tables_ok_by t).
  - assert (r.(verification_id) = id) as Hid by (by apply (ro_id _ _ _ _ (tk_runs _ _ _ Hok id r Hr))).
    eapply append_revision_ok in Ha as [H _]; [exact H|done|by rewrite Hid|done|done].
Qed.

Definition no_runs (db : Db) : Prop :=
  db.(tables).(runs) = ∅ /\ db.(tables).(snapshots) = [] /\ db.(tables).(revisions) = [].

Lemma no_runs_ok db : no_runs db -> tables_ok db.(tables).
Proof. intros (H1 & H2 & H3). split; rewrite ?H1, ?H2, ?H3; [|done..]. intros id r H. by rewrite lookup_empty in H. Qed.

Lemma vstep_tables db db' : vstep db db' -> tstep db.(tables) db'.(tables) \/ same_runs db.(tables) db'.(tables).
Proof.
  intros [env c ctx d l|d d' H]; [|by right]. left. unfold Tx.committed. destruct (handle _ _ _ _ _) as [l' [[x d']|e]] eqn:H; [|constructor].
  by eapply handle_tstep.
Qed.

Lemma vsteps_ok db db' : rtc vstep db db' -> tables_ok db.(tables) -> tables_ok db'.(tables).
Proof.
  induction 1 as [|d d1 d2 Hs _ IH]; [done|]. intros Hok. apply IH. apply vstep_tables in Hs as [H|(H1 & H2 & H3 & _)].
  - by eapply tstep_ok.
  - by apply (tables_ok_by d.(tables)).
Qed.

(** What is stored of a run, its verdicts and its evidence. *)
Definition stored (id : string) (t : VerificationRuns.Tables) : option VerificationRun * list Revision * list VerificationRuns.Evidence :=
  (t.(runs) !! id, of_run id t.(revisions), List.filter (fun e => String.eqb e.(ev_verification) id) t.(evidence)).

Lemma tstep_closed t t' id r :
  tables_ok t -> t.(runs) !! id = Some r -> r.(VerificationRuns.status) ∈ VerificationRuns.TERMINAL -> tstep t t' -> stored id t' = stored id t.
Proof.
  intros Hok Hid Hterm [|k q op s Hq%load_run_ok Hop Hn|cmd env ctx implementer verifier known k digest t1 s H1 H2 H3 H4 Hi Hd Ht|
    k q new Hq%load_run_ok Hs Hnew|k q known who fingerprint x o event now rev t1 Hq%load_run_ok Hs Hv Hst Ha]; [done|..].
  - unfold stored, set_status. cbn [runs revisions evidence with_runs]. rewrite lookup_alter_ne; [done|]. intros ->.
    rewrite Hid in Hq. injection Hq as ->. apply run_next_status in Hn as (N1 & N2 & _). unfold VerificationRuns.TERMINAL in Hterm. set_solver.
  - unfold insert_run in Ht. cbn [verification_id run_of] in Ht. apply guard_err_ok in Ht as [Hg [= <-]]. unfold stored. cbn [runs revisions evidence].
    rewrite lookup_insert_ne; [done|]. intros <-. rewrite Hid in Hg. done.
  - unfold stored. cbn [runs revisions evidence]. f_equal. rewrite List.filter_app. assert (List.filter (fun e => String.eqb (ev_verification e) id) new = []) as ->; [|by rewrite app_nil_r].
    apply list_filter_nil. intros e He. rewrite Forall_forall in Hnew. rewrite (Hnew e He). apply String.eqb_neq. intros ->.
    rewrite Hid in Hq. by injection Hq as ->.
  - assert (q.(verification_id) = k) as Hk by (by apply (ro_id _ _ _ _ (tk_runs _ _ _ Hok k q Hq))).
    assert (k <> id) as Hne. { intros ->. rewrite Hid in Hq. injection Hq as ->. rewrite Hst in Hterm. unfold VerificationRuns.TERMINAL in Hterm. set_solver. }
    pose proof Ha as Hevi. eapply append_revision_ok in Ha as (_ & Hrv & _ & _ & _ & _ & Hrs & s' & _ & Hru); [|done|by rewrite Hk|done|done].
    unfold stored. rewrite Hru, Hrs, of_run_snoc, Hrv, Hk, lookup_alter_ne by done. rewrite (proj2 (String.eqb_neq _ _)) by done.
    rewrite app_nil_r. f_equal. unfold append_revision in Hevi. cbv zeta in Hevi.
    apply res_bind_ok in Hevi as (d1 & _ & Hevi). apply res_bind_ok in Hevi as (d2 & _ & Hevi).
    apply guard_err_ok in Hevi as [_ Hevi]. apply guard_err_ok in Hevi as [_ Hevi]. apply guard_err_ok in Hevi as [_ Hevi].
    destruct (status_of_result x); [|done]. by injection Hevi as _ <-.
Qed.

(** C19. The runs stay consistent. From empty tables, whatever commands are given by whomever, in
    whatever order, and whatever the rest of the program does between them: every run keeps the
    snapshot of its two identities, from which they are independent; its verdicts are numbered
    1, 2, ... without a gap, the last one is its result, and all of them were submitted by the
    assigned verifier, never by the implementer or with his credential; and the rows of all the
    verdicts form one unbroken hash chain. *)
Theorem runs_stay_consistent db0 db : no_runs db0 -> rtc vstep db0 db -> tables_ok db.(tables).
Proof. intros H Hs. by eapply vsteps_ok, no_runs_ok. Qed.

Lemma closed_kept db0 db db' id r :
  no_runs db0 -> rtc vstep db0 db -> rtc vstep db db' -> db.(tables).(runs) !! id = Some r ->
  r.(VerificationRuns.status) ∈ VerificationRuns.TERMINAL -> stored id db'.(tables) = stored id db.(tables).
Proof.
  intros H0%no_runs_ok Hs1%vsteps_ok Hs Hid Ht; [|done]. clear H0. revert Hs1 Hid. induction Hs as [|d d1 d2 Hstep Hs IH]; [done|].
  intros Hok Hid. assert (stored id d1.(tables) = stored id d.(tables)) as E.
  { apply vstep_tables in Hstep as [H|(H1 & H2 & H3 & _ & H5)]; [by eapply tstep_closed|]. unfold stored. by rewrite H1, H3, H5. }
  rewrite <- E. apply IH; [by eapply vsteps_ok; [by apply rtc_once|]|]. injection E as E _ _. by rewrite E.
Qed.

(** C21. A closed run is closed for good: once it PASSED or was CANCELLED, no later step changes
    its row, its verdicts or its evidence. *)
Theorem closed_run_is_final db0 db db' id r :
  no_runs db0 -> rtc vstep db0 db -> rtc vstep db db' -> db.(tables).(runs) !! id = Some r ->
  r.(VerificationRuns.status) ∈ VerificationRuns.TERMINAL -> stored id db'.(tables) = stored id db.(tables).
Proof. apply closed_kept. Qed.

(** C20. What the completion gate lets through. When [require_verified] accepts a target, its
    newest run that was not cancelled PASSED: the last of its verdicts says so, the assigned
    verifier submitted it, and the identities pinned for that run are independent. *)
Theorem gate_means_independent_pass db0 db ty id g :
  no_runs db0 -> rtc vstep db0 db -> require_verified ty id db.(tables) = Ok g ->
  exists r v s h, g.(vg_verification) = Some r.(verification_id) /\ db.(tables).(runs) !! r.(verification_id) = Some r /\
    r.(target_type) = ty /\ r.(target_id) = id /\ r.(VerificationRuns.status) = PASSED /\
    last (of_run r.(verification_id) db.(tables).(revisions)) = Some v /\ v.(VerificationRuns.rv_result) = "PASSED" /\
    v.(submitted_by) = r.(verifier_account_id) /\ v.(submitted_by) <> r.(implementer_account_id) /\
    load_snapshot r.(verification_id) db.(tables) = Ok (s, h) /\ s.(sn_implementer) = identity_of_implementer r /\
    s.(sn_verifier) = identity_of_verifier r /\ independence_from_snapshot s = Ok tt /\
    forall k r', db.(tables).(runs) !! k = Some r' -> r'.(target_type) = ty -> r'.(target_id) = id ->
      r'.(VerificationRuns.status) <> CANCELLED -> newer r r' = true.
Proof.
  intros H0%no_runs_ok Hs1%vsteps_ok; [|done]. unfold require_verified. intros [Hp [= <-]]%guard_err_ok. apply negb_false_iff in Hp.
  apply gate_newest in Hp as (r & Hin & Hty & Hid & Hres & Hg & Hnew).
  apply list_elem_of_fmap in Hin as ([k r'] & -> & Hk%elem_of_map_to_list). cbn [snd] in *.
  destruct (tk_runs _ _ _ Hs1 k r' Hk) as [G1 (s & G2 & G3 & G4 & _ & _ & _ & G8 & _) _ _ G5 _ G6 G7]. subst k.
  rewrite Hres in G5. destruct (last (of_run _ _)) as [v|] eqn:Hv; [|done]. injection G5 as G5.
  rewrite Forall_forall in G7. destruct (G7 v) as (S1 & S2 & _); [by apply last_Some_elem_of|].
  exists r', v, s, r'.(snapshot_hash). split_and!; try done; [by apply G6| |].
  - unfold load_snapshot. by rewrite find_head, G2.
  - intros k' q Hq. apply Hnew. apply list_elem_of_fmap. exists (k', q). split; [done|]. by apply elem_of_map_to_list.
Qed.

(** ** Moves *)

(** The moves that are nothing else: run and operation. *)
Definition move_of (c : Command) : option (string * VerificationOp) :=
  match c with
  | Assign id => Some (id, ASSIGN)
  | Fix id _ _ => Some (id, FIX)
  | Recheck id => Some (id, RECHECK)
  | Cancel id _ => Some (id, CANCEL)
  | _ => None
  end.

(** An allowed request writes no audit row. *)
Lemma allowed_rows c i db now acct q rows u :
  require_permission (Some (fun q => bus_require sha256 c i db now acct q)) q [] = (rows, Ok u) -> rows = [].
Proof.
  unfold require_permission, bus_require, require. destruct (authorize _ _ _ _ _ _ _) as [r0 [au|]] eqn:Ea; [|done].
  apply authorize_log in Ea. destruct (is_allowed au); [|done]. by intros [= <- _].
Qed.

(** After a move, the same move is not one of the table. *)
Lemma next_status_again s op s' x : op <> VERDICT -> next_status s op None = Ok s' ->
  exists e, next_status s' op x = Err e /\ e ∈ ["VERIFICATION_TRANSITION_INVALID"; "VERIFICATION_TERMINAL"].
Proof.
  intros Hop (_ & _ & H)%run_next_status. destruct op; [destruct H as [_ ->]|destruct H as [_ ->]|done|destruct H as [_ ->]|destruct H as [_ ->]|subst s'];
    (eexists; split; [by vm_compute|]; set_solver).
Qed.

Lemma permit_action_again env ctx p a (db db1 : Db) l l' u d :
  permit_action env ctx p a db l = (l', Ok (u, d)) -> db1.(tasks).(authority) = db.(tasks).(authority) ->
  forall l2, permit_action env ctx p a db1 l2 = (l2, Ok (u, db1)).
Proof.
  unfold permit_action. intros (rows & t & H & _)%denials_ok Ha l2. unfold denials, through_sink. rewrite Ha.
  destruct (require_permission _ _ _) as [rs [[]|]] eqn:Er; [|done]. destruct u. apply allowed_rows in Er as ->.
  cbn. rewrite andb_false_r, app_nil_r. by destruct db1.
Qed.

Lemma simple_move_retried env ctx id scope op p w body (db : Db) l l' x db1 :
  op <> VERDICT -> _simple_move env ctx id scope op p w body db l = (l', Ok (x, db1)) -> x.(rr_replayed) = false ->
  forall env' l2, exists l3 e, _simple_move env' ctx id scope op p w body db1 l2 = (l3, Err e) /\
    (env' = env -> l3 = l2 /\ e ∈ ["VERIFICATION_TRANSITION_INVALID"; "VERIFICATION_TERMINAL"]).
Proof.
  intros Hop H Hrep env' l2. unfold _simple_move in H. apply atx_bind_ok in H as (r & d & l1 & [<- (-> & Hr & Hws)%run_or_error_ok]%in_tx_ok & H).
  apply atx_bind_ok in H as ([] & d & l3 & [<- [Hp <-]%lift_ok]%in_tx_ok & H).
  apply atx_bind_ok in H as (u & d & l4 & Hperm & [_ H]%in_tx_ok). pose proof Hperm as ->%permit_action_ok.
  apply move_tx_ok in H as [[_ H]|(Hnone & _ & s & Hn & _ & Ht & _ & Htasks)]; [by rewrite Hrep in H|].
  assert (_replay ctx id scope db1 = None) as Hnone1.
  { rewrite <- Hnone. unfold _replay, vr_stream, stream, TaskCommands.log, store. by rewrite Htasks. }
  assert (db1.(tables).(runs) !! id = Some (with_status s r)) as Hr1.
  { rewrite Ht. unfold set_status. cbn [runs with_runs]. rewrite lookup_alter_eq. apply load_run_ok in Hr. by rewrite Hr. }
  unfold _simple_move. erewrite atx_bind_step.
  2: { unfold in_tx, _run_or_error, load_run. rewrite Hr1. cbn [mbind res_bind VerificationRuns.workspace_id with_status].
       rewrite Hws, String.eqb_refl. reflexivity. }
  change (check_party w ctx (with_status s r)) with (check_party w ctx r). rewrite Hp. erewrite atx_bind_step; [|by unfold in_tx, lift].
  destruct (next_status_again _ _ _ None Hop Hn) as (e & He & Hin).
  assert (move_tx ctx id scope op body (with_status s r) db1 = Err e) as Hm.
  { unfold move_tx. rewrite Hnone1. unfold mbind, tx_bind, lift. cbn [VerificationRuns.status with_status]. by rewrite He. }
  destruct (permit_action env' ctx p None db1 l2) as [l5 [[v d]|e']] eqn:E.
  - exists l5, e. pose proof E as ->%permit_action_ok. rewrite (atx_bind_step _ _ _ _ _ _ _ E). unfold in_tx. rewrite Hm. split; [done|].
    intros ->. split; [|done]. eapply permit_action_again in Hperm; [|by rewrite Htasks]. rewrite Hperm in E. by injection E as <-.
  - exists l5, e'. rewrite (atx_bind_err _ _ _ _ _ _ E). split; [done|]. intros ->.
    eapply permit_action_again in Hperm; [|by rewrite Htasks]. by rewrite Hperm in E.
Qed.

(** C24. A move cannot be retried. The idempotency key is looked up among the Events of the run, but
    a move appends none: a client that repeats an assignment, a fix, a recheck or a cancellation
    that went through - the answer was lost - gets an error instead of the replayed result. *)
Theorem retried_move_fails env ctx c id op (db : Db) l l' x db1 :
  move_of c = Some (id, op) -> handle env c ctx db l = (l', Ok (x, db1)) -> x.(rr_replayed) = false ->
  forall env' l2, exists l3 e, handle env' c ctx db1 l2 = (l3, Err e) /\
    (env' = env -> l3 = l2 /\ e ∈ ["VERIFICATION_TRANSITION_INVALID"; "VERIFICATION_TERMINAL"]).
Proof. destruct c; intros [= <- <-] H; refine (simple_move_retried _ _ _ _ _ _ _ _ _ _ _ _ _ _ H); discriminate. Qed.

(** ** Verdicts and starts *)

(** C22. A verdict that returns is the verifier's own, and it is kept. The run was RUNNING, its
    assigned verifier spoke - not the implementer, under no alias of his and not with his
    credential -, the next revision stores the verdict with the Event that recorded it, the
    run takes the status of the verdict; and a PASSED verdict came with a report without an
    open finding of severity Medium or higher and without an unsettled test. *)
Theorem verdict_recorded env cmd ctx db0 (db : Db) l l' x db' :
  no_runs db0 -> rtc vstep db0 db -> submit_verdict env cmd ctx db l = (l', Ok (x, db')) -> x.(rr_replayed) = false ->
  let id := cmd.(sv_verification) in let who := ctx.(ctx_principal).(p_account_uuid) in let g := graph_of ctx.(ctx_workspace_id) db in
  exists r rev s, db.(tables).(runs) !! id = Some r /\ r.(VerificationRuns.status) = RUNNING /\
    who = r.(verifier_account_id) /\ who <> r.(implementer_account_id) /\
    effective_principal who g <> effective_principal r.(implementer_account_id) g /\
    ctx.(ctx_principal).(p_credential_fingerprint) <> r.(implementer_credential_fingerprint) /\
    VerificationRuns.status_value s = cmd.(sv_result) /\
    db'.(tables).(runs) = <[id := with_verdict (r.(current_revision) + 1) cmd.(sv_result) s r]> db.(tables).(runs) /\
    db'.(tables).(revisions) = db.(tables).(revisions) ++ [rev] /\ rev.(VerificationRuns.rv_verification) = id /\
    rev.(revision) = r.(current_revision) + 1 /\ rev.(VerificationRuns.rv_result) = cmd.(sv_result) /\ rev.(submitted_by) = who /\
    rev.(rv_event) = x.(rr_event_id) /\ x.(rr_status) = s /\
    (s = PASSED -> let o := default_report cmd r in
      Forall (fun f => blocking f = false) (objects o "findings") /\ Forall (fun t => unsettled t = false) (objects o "tests")).
Proof.
  intros H0%no_runs_ok Hs1%vsteps_ok H Hrep; [|done]. cbv zeta. unfold submit_verdict in H.
  apply atx_bind_ok in H as (r & d & l1 & [_ (-> & Hr%load_run_ok & _)%run_or_error_ok]%in_tx_ok & H).
  apply atx_bind_ok in H as (d1 & d2 & l2 & [_ [<- <-]%gets_ok]%in_tx_ok & H).
  destruct (check_submitter _ _ _ _) as [[]|e] eqn:Hc; [|by apply atx_bind_ok in H as (? & ? & ? & _ & [_ H]%in_tx_ok)].
  apply atx_bind_ok in H as (u & d & l3 & ->%permit_action_ok & H).
  destruct (_replay _ _ _ _) as [a|] eqn:Er; [injection H as _ <- _; unfold _replay in Er; by apply fmap_Some in Er as (? & _ & ->)|].
  apply verdict_ok in H as (Hv & Hn & a & d & l4 & rev & _ & Hx & Ha & _). apply run_next_status in Hn as (_ & _ & Hst & y & [= <-] & Hs).
  pose proof (ro_id _ _ _ _ (tk_runs _ _ _ Hs1 _ r Hr)) as Hid.
  pose proof Hc as [Hself [Hver _]%guard_err_ok]%guard_err_ok. rewrite !orb_false_iff, !String.eqb_neq in Hself.
  destruct Hself as [[Hs2 Hs3] Hs4]. apply negb_false_iff, String.eqb_eq in Hver.
  eapply append_revision_ok in Ha as (_ & Hrv & Hnum & Hev & Hres & Hwho & Hrevs & s & Hs' & Hruns); [|done|by rewrite Hid|done|exact Hc].
  rewrite Hs in Hs'. injection Hs' as Hs'. rewrite Hid in Hruns.
  exists r, rev, s. split_and!; try done.
  - rewrite <- Hs'. by apply status_of_result_value.
  - rewrite Hruns. apply map_eq. intros k. destruct (decide (k = sv_verification cmd)) as [->|Hk].
    + by rewrite lookup_alter_eq, Hr, lookup_insert_eq.
    + by rewrite lookup_alter_ne, lookup_insert_ne by done.
  - by rewrite Hrv.
  - rewrite Hev, Hx. done.
  - intros ->. unfold validate_verdict in Hv. apply guard_err_ok in Hv as [_ Hv]. apply guard_err_ok in Hv as [_ Hv].
    apply guard_err_ok in Hv as [Hv _]. apply status_of_result_value in Hs. rewrite Hs' in Hs. rewrite <- Hs in Hv. cbn in Hv.
    apply orb_false_iff in Hv as [Hv1 Hv2].
    split; apply Forall_forall; intros y Hy; apply not_true_iff_false; intros E.
    + apply not_true_iff_false in Hv1. apply Hv1, existsb_exists. exists y. by rewrite <- list_elem_of_In.
    + apply not_true_iff_false in Hv2. apply Hv2, existsb_exists. exists y. by rewrite <- list_elem_of_In.
Qed.

(** C23. A verifier cannot start the verification of a Task. The run moves to RUNNING, which writes an
    audit row and so takes the lock of the audit chain until the transaction ends; the Task
    then enters VERIFYING through its own command, which asks for "verification.assign". A
    verifier without it is refused, and the refusal - audited in a transaction of its own -
    waits for that lock: the command never returns, and the Task never reaches VERIFYING. *)
Theorem verifier_start_hangs env id ctx (db : Db) l l' x db1 r t s rows code :
  _simple_move env ctx id "verification_run:start" START "verification.submit" Verifier_only [] db l = (l', Ok (x, db1)) ->
  x.(rr_replayed) = false -> db.(tables).(runs) !! id = Some r -> r.(target_type) = "task" -> r.(VerificationRuns.task_id) = Some t ->
  t <> EmptyString -> load_task ctx t db.(tasks) = Ok (s, db.(tasks)) -> s.(TaskState.status) = IMPLEMENTED ->
  permit sha256 catalog env.(task_env) ctx "verification.assign" s.(TaskState.channel_id) (Some s.(TaskState.domain)) db.(tasks) [] =
    (rows, Err code) -> rows <> [] ->
  start_verification env id ctx db l = (l', Err HANGS).
Proof.
  intros H Hrep Hr Hty Ht Hne Hl Hst Hperm Hrows. pose proof H as (r' & Hr'%load_run_ok & _ & Hm)%simple_move_ok.
  rewrite Hr in Hr'. injection Hr' as <-. apply move_tx_ok in Hm as [[_ E]|(_ & _ & s1 & _ & _ & Htab & Hlock & Htasks)]; [by rewrite Hrep in E|].
  unfold start_verification. rewrite (atx_bind_step _ _ _ _ _ _ _ H), Hrep. apply atx_bind_err. unfold _enter_task_verifying.
  assert (db1.(tables).(runs) !! id = Some (with_status s1 r)) as Hr1.
  { rewrite Htab. unfold set_status. cbn [runs with_runs]. by rewrite lookup_alter_eq, Hr. }
  erewrite atx_bind_step; [|unfold in_tx, load_run; rewrite Hr1; reflexivity].
  cbn [VerificationRuns.task_id target_type with_status]. rewrite Ht, Hty, (proj2 (String.eqb_neq _ _) Hne), String.eqb_refl. cbn [negb orb]. cbv iota.
  assert (load_task ctx t db1.(tasks) = Ok (s, db1.(tasks))) as Hl1.
  { revert Hl. unfold load_task, stream, task_events, stream, TaskCommands.log, store. rewrite Htasks.
    cbn [with_audit with_inbox inbox event_store]. destruct (in_stream _ _); [done|]. destruct (fold _ _); [|done]. by intros [= ->]. }
  erewrite atx_bind_step; [|unfold in_tx, on_tasks, zoom; by rewrite Hl1].
  rewrite bool_decide_eq_true_2 by done. apply atx_bind_err. unfold denials, through_sink.
  cbn [with_tasks audit_locked tasks]. rewrite Hlock. unfold TaskCommands.start_verification.
  erewrite (atx_bind_err _ _ _ _ rows code).
  - cbn [andb]. rewrite bool_decide_eq_false_2 by done. cbn. by rewrite app_nil_r.
  - unfold TaskCommands.on_task. erewrite atx_bind_step; [|unfold in_tx; exact (f_equal (pair []) Hl1)].
    apply atx_bind_err. revert Hperm. unfold permit. rewrite Htasks. cbn [with_audit with_inbox authority].
    by destruct (require_permission _ _ _) as [rs [y|]].
Qed.
End commands.

(** ** An example *)

(** The human h gave the Task t1 to the Agent a; v and b are others. *)
Module Verifying.
#[local] Existing Instance numbered_log.
#[local] Existing Instance numbered_reads.
#[local] Notation Tasks := (@TaskCommands.Db (list HashChain.Event) unit).
#[local] Notation State := (@Verification.Db (list HashChain.Event) unit unit).

Definition catalog : PolicyCatalog := {|
  listed := (fun p => (p, false)) <$> Sample.permissions; action_classes := action_classes Sample.catalog;
  action_specs := action_specs Sample.catalog ++
    [("tool:verification_assign", {| spec_class := "internal_write"; spec_permission := "verification.assign" |});
     ("tool:verification_submit", {| spec_class := "internal_write"; spec_permission := "verification.submit" |})];
  unclassified_default := "HIGH"; quorums := list_to_map [("LOW", 0)]; human_only_from := "HIGH"; capabilities := []; roles_raw := [] |}.

Definition names : list string := ["h"; "a"; "b"; "v"].

(** [verifiers]: the Accounts that hold only what a verifier needs. *)
Definition members (verifiers : list string) : Authority.Db := {|
  accounts := list_to_map ((fun n => ("acct-" +:+ n, Sample.account n (if mem n ["a"; "b"] then "agent" else "human"))) <$> names);
  roles := <["verifier" := {| role_workspace := "ws"; Authority.display_name := "Verifier"; current_version := 1; row_status := "active" |}]>
    (roles Sample.members);
  role_versions := <[("verifier", 1) := {| v_permissions := ["verification.read"; "verification.submit"]; v_deny := [];
    v_constraints := Sample.unrestricted; v_policy_hash := []; v_event_id := None; v_created_by := "root" |}]> (role_versions Sample.members);
  assignments := (fun n => {| a_account := "uuid-" +:+ n; a_role := if mem n verifiers then "verifier" else "role"; a_scope := JNull;
    valid_from := 0; valid_to := None; assigned_by := "root"; Authority.a_event_id := None; revoked_at := None; revoke_event_id := None |}) <$> names;
  agent_capabilities := ∅; channel_ids := {["ch" := "ch"]};
  channel_members := list_to_map ((fun n => (("ch", "uuid-" +:+ n), "active")) <$> names) |}.

Definition nothing (verifiers : list string) : Tasks := {|
  projection := ∅; edges := ∅; task_assignments := []; criteria_rows := []; joins := ∅; authority := members verifiers;
  agents := {["uuid-a" := "agent-a"; "uuid-b" := "agent-b"]}; channel_templates := ∅;
  inbox := {| work_items := ∅; receipts := []; next_receipt_id := 1; Inbox.audit_events := []; event_store := [] |}; world := tt |}.

Definition task : CreateTask := {|
  ct_title := "task"; ct_channel_id := "ch"; ct_domain := "d"; ct_risk := "LOW"; ct_task_id := Some "t1"; ct_join_policy := [];
  ct_criteria := Sample.criteria |}.

Notation sha := Sample.sha.
Notation env := Sample.env.
Notation nohook := Sample.nohook.
#[local] Notation after m db := (Tx.committed (m db []) db).

Definition by_ (name key : string) : CommandContext := {|
  ctx_principal := {| p_account_id := "acct-" +:+ name; p_account_uuid := "uuid-" +:+ name; p_credential_fingerprint := "fp-" +:+ name;
                      mfa_verified := false |};
  ctx_workspace_id := "ws"; ctx_correlation_id := "c"; ctx_idempotency_key := key; ctx_expected_seq := None; reauth_verified := false |}.

(** The Agent a has submitted the implementation. *)
Definition implemented (verifiers : list string) : Tasks :=
  let d := after (create_task sha Sample.no_str str_int catalog env task (by_ "h" "k1")) (nothing verifiers) in
  let d := after (delegate_task sha str_int catalog nohook env "t1" "acct-a" "SKILL" (by_ "h" "k2")) d in
  let d := after (accept_task sha str_int catalog nohook Sample.nolimit env "t1" (by_ "a" "k3")) d in
  let d := after (start_task sha str_int catalog nohook env "t1" (by_ "a" "k4")) d in
  after (submit_implementation sha str_int catalog nohook nohook env "t1" ["crit-0123456789abcdef:log"] 1 (by_ "a" "k5")) d.

Definition no_tables : VerificationRuns.Tables := {|
  runs := ∅; snapshots := []; revisions := []; findings := []; evidence := []; account_aliases := [] |}.

Definition state (verifiers : list string) : State := {|
  tasks := implemented verifiers; tables := no_tables; audit_locked := false; engine := tt |}.

(** Every command runs in a transaction of its own. *)
Definition unlocked (db : State) : State := {| tasks := db.(tasks); tables := db.(tables); audit_locked := false; engine := tt |}.

Definition venv : VEnv := {| task_env := env; created_now := 6; new_row_id := "row"; verdict_at := 7 |}.

Definition new_run (implementer verifier : string) : CreateVerificationRun := {|
  cv_target_type := "task"; cv_target_id := "t1"; cv_implementer := "acct-" +:+ implementer; cv_verifier := "acct-" +:+ verifier;
  cv_implementer_fingerprint := "fp-" +:+ implementer; cv_verifier_fingerprint := "fp-" +:+ verifier; cv_commit := "c0"; cv_policy_hash := "p0";
  cv_criteria := "v8.0"; cv_graph_version := "identity-v8-001"; cv_implementer_agent := None; cv_verifier_agent := None; cv_phase := None;
  cv_task := Some "t1"; cv_auto_assign := false |}.

Definition id : string := "vr-ws|uuid-h|r1".
Definition pass : SubmitVerdict := {| sv_verification := id; sv_result := "PASSED"; sv_report := [] |}.

#[local] Notation handle := (Verification.handle (X := unit) sha str_int str_int catalog (fun x => x) nohook (fun _ => nohook)
  (fun _ _ _ => in_tx (raise "VERIFIER_NONE_ELIGIBLE") : atx own_row _ (_ * unit)) (fun _ _ _ _ => mret tt)).
#[local] Notation vstep := (Verification.vstep (X := unit) sha str_int str_int catalog (fun x => x) nohook (fun _ => nohook)
  (fun _ _ _ => in_tx (raise "VERIFIER_NONE_ELIGIBLE") : atx own_row _ (_ * unit)) (fun _ _ _ _ => mret tt)).

Definition does (db : State) (x : Command * CommandContext) : State := unlocked (Tx.committed (handle venv x.1 x.2 db []) db).

Lemma does_steps xs : forall db, rtc vstep db (foldl does db xs).
Proof.
  induction xs as [|x xs IH]; intros db; [done|]. cbn [foldl]. etrans; [|apply IH].
  etrans; [by apply rtc_once, (By_command _ _ _ _ _ _ _ _ _ venv x.1 x.2 db [])|]. apply rtc_once, Elsewhere. by split_and!.
Qed.

Definition verified_by (implementer verifier : string) : list (Command * CommandContext) := [
  (Create (new_run implementer verifier), by_ "h" "r1"); (Assign id, by_ "h" "r2"); (Start id, by_ verifier "r3"); (Verdict pass, by_ verifier "r4")].

Definition running : State := Eval vm_compute in foldl does (state []) (take 3 (verified_by "a" "v")).
Definition passed_ : State := Eval vm_compute in does running (Verdict pass, by_ "v" "r4").

Definition task_of (db : State) : option (TaskStatus * option string) :=
  match load_task (by_ "h" "k") "t1" db.(tasks) with Ok (s, _) => Some (s.(TaskState.status), s.(assignee_account_id)) | Err _ => None end.

Lemma begins : no_runs (state []).
Proof. done. Qed.

Lemma to_running : rtc vstep (state []) running.
Proof. replace running with (foldl does (state []) (take 3 (verified_by "a" "v"))) by (vm_compute; reflexivity). apply does_steps. Qed.

Lemma to_passed : rtc vstep (state []) passed_.
Proof. replace passed_ with (foldl does (state []) (verified_by "a" "v")) by (vm_compute; reflexivity). apply does_steps. Qed.

Lemma moves_along :
  task_of (state []) = Some (IMPLEMENTED, Some "uuid-a") /\ task_of running = Some (VERIFYING, Some "uuid-a") /\
  task_of passed_ = Some (VERIFIED, Some "uuid-a").
Proof. vm_compute. split_and!; reflexivity. Qed.

Lemma runs_stay_consistent_witness : VerificationRuns.tables_ok sha str_int passed_.(tables) /\ length passed_.(tables).(revisions) = 1%nat.
Proof. split; [exact (runs_stay_consistent _ _ _ _ _ _ _ _ _ (state []) passed_ begins to_passed)|reflexivity]. Defined.

(** A later cancellation is refused. *)
Lemma closed_run_is_final_witness : exists r, passed_.(tables).(runs) !! id = Some r /\ r.(VerificationRuns.status) = PASSED /\
  stored id (does passed_ (Cancel id "X", by_ "h" "r5")).(tables) = stored id passed_.(tables).
Proof.
  eexists. split; [vm_compute; reflexivity|]. split; [reflexivity|].
  refine (closed_run_is_final _ _ _ _ _ _ _ _ _ (state []) passed_ _ id _ begins to_passed (does_steps [(Cancel id "X", by_ "h" "r5")] passed_) _ _).
  - vm_compute. reflexivity.
  - apply mem_spec. reflexivity.
Defined.

Lemma gate_means_independent_pass_witness : exists g v, require_verified "task" "t1" passed_.(tables) = Ok g /\
  g.(vg_verification) = Some id /\ v ∈ passed_.(tables).(revisions) /\ v.(submitted_by) = "uuid-v".
Proof.
  assert (exists g, require_verified "task" "t1" passed_.(tables) = Ok g) as [g Hg] by (eexists; vm_compute; reflexivity).
  destruct (gate_means_independent_pass _ _ _ _ _ _ _ _ _ (state []) passed_ "task" "t1" g begins to_passed Hg)
    as (r & v & s & h & H1 & H2 & _ & _ & _ & H3 & _ & H4 & _).
  exists g, v. split; [exact Hg|]. assert (r.(verification_id) = id) as E.
  { vm_compute in Hg. injection Hg as <-. cbn in H1. by injection H1. }
  split; [by rewrite H1, E|]. rewrite E in H2, H3. split.
  - apply last_Some_elem_of, list_elem_of_In, filter_In in H3 as [H3 _]. by apply list_elem_of_In.
  - rewrite H4. vm_compute in H2. by injection H2 as <-.
Defined.

Definition created : State := Eval vm_compute in foldl does (state []) (take 1 (verified_by "a" "v")).

Lemma retried_move_fails_witness : exists l x db1, handle venv (Assign id) (by_ "h" "r2") created [] = (l, Ok (x, db1)) /\
  exists l3 e, handle venv (Assign id) (by_ "h" "r2") db1 [] = (l3, Err e) /\ e ∈ ["VERIFICATION_TRANSITION_INVALID"; "VERIFICATION_TERMINAL"].
Proof.
  assert (exists l x db1, handle venv (Assign id) (by_ "h" "r2") created [] = (l, Ok (x, db1)) /\ x.(rr_replayed) = false) as (l & x & db1 & H & Hr)
    by (eexists _, _, _; vm_compute; split; reflexivity).
  exists l, x, db1. split; [exact H|].
  destruct (retried_move_fails _ _ _ _ _ _ _ _ _ venv (by_ "h" "r2") (Assign id) id ASSIGN created [] l x db1 eq_refl H Hr venv [])
    as (l3 & e & H3 & He). exists l3, e. split; [exact H3|]. by apply He.
Defined.

Lemma verdict_recorded_witness : exists l x db', handle venv (Verdict pass) (by_ "v" "r4") running [] = (l, Ok (x, db')) /\
  exists rev, db'.(tables).(revisions) = [rev] /\ rev.(submitted_by) = "uuid-v" /\ rev.(rv_event) = x.(rr_event_id).
Proof.
  assert (exists l x db', handle venv (Verdict pass) (by_ "v" "r4") running [] = (l, Ok (x, db')) /\ x.(rr_replayed) = false) as (l & x & db' & H & Hr)
    by (eexists _, _, _; vm_compute; split; reflexivity).
  exists l, x, db'. split; [exact H|].
  destruct (verdict_recorded _ _ _ _ _ _ _ _ _ venv pass (by_ "v" "r4") (state []) running [] l x db' begins to_running H Hr)
    as (r & rev & s & _ & _ & _ & _ & _ & _ & _ & _ & Hrev & _ & _ & _ & Hwho & Hev & _).
  exists rev. split_and!; [exact Hrev|exact Hwho|exact Hev].
Defined.

(** v holds only the role of a verifier. *)
Definition assigned : State := Eval vm_compute in foldl does (state ["v"]) (take 2 (verified_by "a" "v")).

Definition loaded : TaskState := Eval vm_compute in
  match load_task (by_ "v" "r3") "t1" assigned.(tasks) with Ok (s, _) => s | Err _ => initial_state "t1" end.

Lemma verifier_start_hangs_witness : exists l, handle venv (Start id) (by_ "v" "r3") assigned [] = (l, Err HANGS).
Proof.
  assert (exists l x db1, _simple_move sha catalog venv (by_ "v" "r3") id "verification_run:start" START "verification.submit" Verifier_only []
    assigned [] = (l, Ok (x, db1)) /\ x.(rr_replayed) = false) as (l & x & db1 & H & Hr) by (eexists _, _, _; vm_compute; split; reflexivity).
  assert (exists rows code, permit sha catalog venv.(task_env) (by_ "v" "r3") "verification.assign" loaded.(TaskState.channel_id)
    (Some loaded.(TaskState.domain)) assigned.(tasks) [] = (rows, Err code) /\ rows <> []) as (rows & code & Hp & Hne)
    by (eexists _, _; split; [vm_compute; reflexivity|discriminate]).
  assert (exists r, assigned.(tables).(runs) !! id = Some r /\ r.(target_type) = "task" /\ r.(VerificationRuns.task_id) = Some "t1") as (r & R1 & R2 & R3)
    by (eexists; split; [vm_compute; reflexivity|split; reflexivity]).
  exists l. refine (verifier_start_hangs sha str_int catalog nohook venv id (by_ "v" "r3") assigned [] l x db1 r "t1" loaded rows code
    H Hr R1 R2 R3 ltac:(discriminate) _ eq_refl Hp Hne).
  vm_compute. reflexivity.
Defined.

(** The implementer of a run is whom its creator names, not whoever did the work: h names the Agent
    b as the implementer and the Agent a as the verifier, and a passes its own work. *)
Lemma assignee_verifies_own_work :
  let db := foldl does (state []) (verified_by "b" "a") in
  task_of db = Some (VERIFIED, Some "uuid-a") /\
  (fun x => (x.(submitted_by), x.(VerificationRuns.rv_result))) <$> db.(tables).(revisions) = [("uuid-a", "PASSED")].
Proof. vm_compute. split; reflexivity. Qed.
End Verifying.
