(* ===== verification/Verifiers.v ===== *)
(** Who verifies a Task ([server/verification/assignment.py]): the eligible verifiers, the offer
    of a run to the first of them, and the sweep that passes an offer on after ten minutes.
    The engine of [Verification] is defined here; the sweep gives the commands of
    [Verification] and of the Tasks in one transaction. *)

From S2P Require Import Prelude Tx Defaults Canonical Text HashChain Policy Catalog Authority EventStore EventLog Bus WorkState Inbox TaskGraph TaskState Criteria TaskProjection TaskCommands TaskHistory TaskTraces Routing Independence VerificationRuns Verification.
Open Scope Z_scope.

Definition HUMAN_REQUIRED_RISKS : list string := ["HIGH"; "CRITICAL"].
Definition VERIFIER_ACCEPT_TIMEOUT_MIN : Z := 10.
Definition ACCEPT_TIMEOUT : Z := minutes VERIFIER_ACCEPT_TIMEOUT_MIN.
Definition WORK_DEADLINE : Z := hours 24.

Record VerifierCandidate := {
  vc_account_uuid : string; vc_account_id : string; vc_account_type : string; vc_agent_id : option string;
  vc_fingerprint : string; vc_score : Z; vc_domain_match : bool; vc_load : Z; vc_human : bool }.

(** ** Tables *)

(** A row of [service_credentials]. *)
Record Credential := { cr_account : string; cr_fingerprint : string; cr_status : string }.

(** A row of [channels]; of its template the actions that need a Human, [None] without template. *)
Record ChannelRow := { ch_workspace : string; ch_id : string; ch_channel_id : string; ch_human_actions : option (list string) }.

(** A row of [verifier_assignments]. *)
Record Offer := {
  of_id : Z; of_workspace : string; of_task : string; of_verification : string; of_rank : Z; of_account : string;
  of_agent : option string; of_score : Z; of_item : option string; of_offered : Z; of_deadline : Z; of_status : string;
  of_resolved : option Z }.

(** The audit rows and the lock of [routing] are those of the transaction. *)
Record Assignments := {
  routing : Routing.Tables; credentials : list Credential; channel_rows : list ChannelRow;
  artifact_rows : list (string * ustr); offers : list Offer }.

Definition with_routing (x : Routing.Tables) (t : Assignments) : Assignments := {|
  routing := x; credentials := t.(credentials); channel_rows := t.(channel_rows); artifact_rows := t.(artifact_rows); offers := t.(offers) |}.
Definition with_offers (x : list Offer) (t : Assignments) : Assignments := {|
  routing := t.(routing); credentials := t.(credentials); channel_rows := t.(channel_rows); artifact_rows := t.(artifact_rows); offers := x |}.

(** What a search asks for. *)
Record Search := {
  se_workspace : string; se_domain : option string; se_risk : string; se_channel : option string; se_implementer : Identity;
  se_exclude : list string; se_correlation : string }.

(** The rows of a channel named by its id or its public id. *)
Definition channel_named (ws c : string) (t : Assignments) : list ChannelRow :=
  List.filter (fun r => String.eqb r.(ch_workspace) ws && (String.eqb r.(ch_channel_id) c || String.eqb r.(ch_id) c)) t.(channel_rows).

Definition human_required (ws : string) (channel : option string) (risk : string) (t : Assignments) : bool :=
  mem risk HUMAN_REQUIRED_RISKS ||
  match py_or channel None with
  | None => false
  | Some c => match omap ch_human_actions (channel_named ws c t) with
              | actions :: _ => mem "verification" actions
              | [] => false
              end
  end.

Definition _channel_uuid (ws : string) (channel : option string) (t : Assignments) : option string :=
  c ← py_or channel None; ch_id <$> head (channel_named ws c t).

(** The lowest active fingerprint of the Account. *)
Definition _fingerprint (account : string) (t : Assignments) : option string :=
  head (py_sorted_str (cr_fingerprint <$> List.filter (fun c => String.eqb c.(cr_account) account && String.eqb c.(cr_status) "active") t.(credentials))).

Definition offered_accounts (task : string) (t : Assignments) : list string :=
  of_account <$> List.filter (fun o => String.eqb o.(of_task) task) t.(offers).

Definition next_rank (task : string) (t : Assignments) : Z :=
  foldr Z.max 0 (of_rank <$> List.filter (fun o => String.eqb o.(of_task) task) t.(offers)) + 1.

(** [(-score, account_id)] *)
Definition verifier_leb (x y : VerifierCandidate) : bool :=
  if vc_score x =? vc_score y then String.leb x.(vc_account_id) y.(vc_account_id) else vc_score y <? vc_score x.

(** ** Eligibility *)

Section eligibility.
Context (sha256 : list N -> ustr) (catalog : PolicyCatalog).
(** The rows the search reads: the time and the audit id of each authorization, the time of each reading of the roles. *)
Context (authority : Authority.Db) (projection : Rows) (asked_at : string -> Z) (ask_audit : string -> string) (matched_at : string -> Z).
Context (graph : gmap string string) (t : Assignments) (locked : bool).

(** [accounts LEFT JOIN agents] *)
Definition account_rows (ws : string) : list (PrincipalInfo * option AgentRow) :=
  concat ((fun p => match List.filter (fun a => String.eqb a.(ag_account) p.(account_uuid)) t.(routing).(agent_rows) with
                    | [] => [(p, None)]
                    | l => (fun a => (p, Some a)) <$> l
                    end) <$>
    py_sorted (key_leb_of Authority.account_id) (List.filter (fun p => String.eqb p.(workspace_uuid) ws && mem p.(account_type) ["human"; "agent"])
      (snd <$> map_to_list authority.(accounts)))).

Definition is_agent (p : PrincipalInfo) : bool := String.eqb p.(account_type) "agent".

Definition in_task_domain (s : Search) (a : option AgentRow) : bool :=
  match a with Some a => in_domain authority t.(routing) a.(ag_agent_id) s.(se_domain) | None => false end.

(** An Agent must be active and online, with the capability of the domain. *)
Definition agent_ready (s : Search) (a : option AgentRow) : bool :=
  match a with
  | Some r => String.eqb r.(ag_status) "active" && r.(ag_online) && in_task_domain s a
  | None => false
  end.

Definition fingerprint_of (p : PrincipalInfo) : string :=
  default ("none:" +:+ p.(Authority.account_id)) (py_or (_fingerprint p.(account_uuid) t) None).

Definition identity_of (p : PrincipalInfo) (a : option AgentRow) : Identity := {|
  Independence.account_id := p.(account_uuid); credential_fingerprint := fingerprint_of p; Independence.agent_id := ag_agent_id <$> a |}.

Definition room (p : PrincipalInfo) (a : option AgentRow) : Z := default 0 (a ≫= ag_capacity) - load_of projection p.(account_uuid).

(** The row passes the tables. *)
Definition passes (s : Search) (row : PrincipalInfo * option AgentRow) : bool :=
  let '(p, a) := row in
  negb (mem p.(account_uuid) s.(se_exclude) || mem p.(Authority.account_id) s.(se_exclude)) &&
  negb (human_required s.(se_workspace) s.(se_channel) s.(se_risk) t && is_agent p) &&
  negb (is_agent p && negb (agent_ready s a)) &&
  is_ok (check_independence s.(se_implementer) (identity_of p a) graph None None) &&
  negb (is_agent p && (room p a <=? 0)).

(** A role scoped to the domain that names "verification.submit". *)
Definition _human_domain_match (account : string) (domain : option string) : bool :=
  match domain, principal authority account with
  | Some d, Some p =>
      existsb (fun r => match r.(constraints).(domains) with Some ds => bool_decide (d ∈ ds) | None => false end &&
                        bool_decide ("verification.submit" ∈ r.(permissions))) (effective_roles authority p (matched_at account))
  | _, _ => false
  end.

Definition candidate (s : Search) (row : PrincipalInfo * option AgentRow) : VerifierCandidate :=
  let '(p, a) := row in
  let load := load_of projection p.(account_uuid) in
  let matches := if is_agent p then in_task_domain s a else _human_domain_match p.(Authority.account_id) s.(se_domain) in {|
  vc_account_uuid := p.(account_uuid); vc_account_id := p.(Authority.account_id); vc_account_type := p.(account_type); vc_agent_id := ag_agent_id <$> a;
  vc_fingerprint := fingerprint_of p;
  vc_score := (if matches then 2 else 0) + (if load =? 0 then 1 else 0) +
              (if human_required s.(se_workspace) s.(se_channel) s.(se_risk) t then 1 else 0);
  vc_domain_match := matches; vc_load := load; vc_human := negb (is_agent p) |}.

Definition query_of (s : Search) : Query := {|
  rq_workspace := s.(se_workspace); rq_channel := _channel_uuid s.(se_workspace) s.(se_channel) t; rq_capability := None;
  rq_dom := s.(se_domain); rq_secret_handles := false; rq_exclude := []; rq_permission := "verification.submit";
  rq_correlation := s.(se_correlation) |}.

Definition allows (s : Search) (p : PrincipalInfo) : audited bool :=
  _policy_allows sha256 catalog authority asked_at ask_audit (query_of s) p.(Authority.account_id).

Fixpoint scan (s : Search) (rows : list (PrincipalInfo * option AgentRow)) : atx AuditRecord unit (list VerifierCandidate) :=
  match rows with
  | [] => mret []
  | row :: rows =>
      if passes s row then
        allowed ← through_sink locked (fun _ l => let '(l, r) := allows s row.1 l in (l, r ≫= fun b => Ok (b, tt)));
        rest ← scan s rows;
        mret (if allowed : bool then candidate s row :: rest else rest)
      else scan s rows
  end.

Definition eligible_verifiers (s : Search) : atx AuditRecord unit (list VerifierCandidate) :=
  found ← scan s (account_rows s.(se_workspace));
  mret (py_sorted verifier_leb found).

(** ** Lemmas *)

Definition verdict (s : Search) (p : PrincipalInfo) : list AuditRecord * res bool := allows s p [].

Lemma answer_rows s p rows b : verdict s p = (rows, Ok b) -> if b then rows = [] else rows <> [].
Proof. apply Routing.verdict_rows. Qed.

Definition chosen (s : Search) (row : PrincipalInfo * option AgentRow) : option VerifierCandidate :=
  if passes s row then match (verdict s row.1).2 with Ok true => Some (candidate s row) | _ => None end else None.

Lemma scan_verifiers s rows : forall l l' cs u,
  scan s rows tt l = (l', Ok (cs, u)) ->
  cs = omap (chosen s) rows /\
  forall row, row ∈ rows -> passes s row = true -> exists b, (verdict s row.1).2 = Ok b /\ (locked = true -> b = true).
Proof.
  induction rows as [|row rows IH]; intros l l' cs u; cbn [scan].
  { intros [= <- <- _]. split; [done|]. by intros row Hr%elem_of_nil. }
  cbn [omap list_omap]. unfold chosen at 1. destruct (passes s row) eqn:Ep.
  - intros (b & v & l1 & Hb & H)%atx_bind_ok. unfold through_sink in Hb. fold (verdict s row.1) in Hb.
    destruct (verdict s row.1) as [rs [x|]] eqn:Ev; cbn in Hb; [|by destruct (locked && _)]. destruct v, u.
    assert (b = x /\ (locked = true -> x = true)) as [-> Hx].
    { destruct locked; cbn in Hb; [|by injection Hb as _ <-]. destruct (negb _) eqn:En; [done|]. injection Hb as _ <-. split; [done|].
      apply answer_rows in Ev. destruct x; [done|]. by rewrite bool_decide_eq_false_2 in En. }
    apply atx_bind_ok in H as (rest & [] & l2 & Hs & H). injection H as _ <-. destruct (IH _ _ _ _ Hs) as [-> Hall]. split.
    + by destruct x.
    + intros row' [->|Hr]%elem_of_cons Hp; [|by eapply Hall]. rewrite Ev. by exists x.
  - intros H. destruct (IH _ _ _ _ H) as [-> Hall]. split; [done|]. intros row' [->|Hr]%elem_of_cons Hp; [congruence|by eapply Hall].
Qed.

Lemma scan_verifiers_hangs s rows : forall l row,
  locked = true -> row ∈ rows -> passes s row = true -> (verdict s row.1).2 = Ok false ->
  (forall row', row' ∈ rows -> passes s row' = true -> is_ok (verdict s row'.1).2 = true) ->
  exists l', scan s rows tt l = (l', Err HANGS).
Proof.
  induction rows as [|x rows IH]; intros l row Hl Hr Hp Hv Hall; [by apply elem_of_nil in Hr|]. cbn [scan].
  destruct (passes s x) eqn:E0.
  - pose proof (Hall x ltac:(by left) E0) as Hok. unfold through_sink, mbind, atx_bind. rewrite Hl. fold (verdict s x.1).
    destruct (verdict s x.1) as [rs [b|]] eqn:Ev; [|done]. pose proof (answer_rows _ _ _ _ Ev) as Hrs. destruct b.
    + rewrite Hrs. cbn. rewrite app_nil_r. apply elem_of_cons in Hr as [->|Hr]; [by rewrite Ev in Hv|].
      destruct (IH l row Hl Hr Hp Hv) as [l' ->]; [|by exists l']. intros row' Hr'. apply Hall. by right.
    + rewrite bool_decide_eq_false_2 by done. by exists l.
  - apply elem_of_cons in Hr as [->|Hr]; [congruence|]. apply (IH l row); try done. intros row' Hr'. apply Hall. by right.
Qed.

(** An Account that may verify. *)
Record fit (s : Search) (p : PrincipalInfo) (a : option AgentRow) : Prop := {
  ft_row : (p, a) ∈ account_rows s.(se_workspace);
  ft_new : p.(account_uuid) ∉ s.(se_exclude) /\ p.(Authority.account_id) ∉ s.(se_exclude);
  ft_independent : check_independence s.(se_implementer) (identity_of p a) graph None None = Ok tt;
  ft_human : human_required s.(se_workspace) s.(se_channel) s.(se_risk) t = true -> p.(account_type) <> "agent";
  ft_agent : p.(account_type) = "agent" -> exists r, a = Some r /\ r.(ag_status) = "active" /\ r.(ag_online) = true /\
    in_domain authority t.(routing) r.(ag_agent_id) s.(se_domain) = true /\ load_of projection p.(account_uuid) + 1 <= default 0 r.(ag_capacity);
  ft_allowed : (verdict s p).2 = Ok true }.

Definition better (x y : VerifierCandidate) : Prop :=
  vc_score y < vc_score x \/ (vc_score x = vc_score y /\ String.leb x.(vc_account_id) y.(vc_account_id) = true).

Lemma verifier_leb_spec x y : verifier_leb x y = true <-> better x y.
Proof.
  unfold verifier_leb, better. destruct (Z.eqb_spec (vc_score x) (vc_score y)) as [E|E]; [naive_solver lia|]. rewrite Z.ltb_lt. naive_solver lia.
Qed.

Lemma verifier_leb_total x y : verifier_leb x y = false -> verifier_leb y x = true.
Proof.
  unfold verifier_leb. rewrite Z.eqb_sym. destruct (vc_score y =? vc_score x) eqn:E; [apply string_leb_total|].
  rewrite Z.ltb_ge, Z.ltb_lt. apply Z.eqb_neq in E. lia.
Qed.

Lemma verifier_leb_trans x y z : verifier_leb x y = true -> verifier_leb y z = true -> verifier_leb x z = true.
Proof.
  rewrite !verifier_leb_spec. unfold better. intros [H1|[H1 H1']] [H2|[H2 H2']]; try (left; lia). right. split; [lia|]. by eapply string_leb_trans.
Qed.

Lemma passes_fit s p a :
  (p, a) ∈ account_rows s.(se_workspace) -> (passes s (p, a) = true /\ (verdict s p).2 = Ok true <-> fit s p a).
Proof.
  intros Hrow. unfold passes. rewrite !andb_true_iff, !negb_true_iff, orb_false_iff, !mem_false, !andb_false_iff, negb_false_iff, Z.leb_gt.
  assert (is_agent p = true <-> p.(account_type) = "agent") as Hag by apply String.eqb_eq.
  assert (is_agent p = false <-> p.(account_type) <> "agent") as Hna by apply String.eqb_neq.
  assert (is_ok (check_independence (se_implementer s) (identity_of p a) graph None None) = true <->
    check_independence (se_implementer s) (identity_of p a) graph None None = Ok tt) as ->
    by (destruct (check_independence _ _ _ _ _) as [[]|]; naive_solver).
  assert (agent_ready s a = true /\ 0 < room p a <-> exists r, a = Some r /\ r.(ag_status) = "active" /\ r.(ag_online) = true /\
    in_domain authority t.(routing) r.(ag_agent_id) s.(se_domain) = true /\ load_of projection p.(account_uuid) + 1 <= default 0 r.(ag_capacity)) as Hready.
  { unfold agent_ready, room, in_task_domain. destruct a as [r|]; [|naive_solver]. cbn [mbind option_bind].
    rewrite !andb_true_iff, String.eqb_eq. split; [intros [[[? ?] ?] ?]; exists r; split_and!; [done..|lia]|].
    intros (r' & [= <-] & ? & ? & ? & ?). split_and!; [done..|lia]. }
  split.
  - intros (((((Hn & Hh) & Ha) & Hi) & Hr) & Hv). split; try done.
    + intros Hq. rewrite Hq in Hh. destruct Hh as [?|?%Hna]; done.
    + intros Ht%Hag. apply Hready. rewrite Ht in Ha, Hr. by destruct Ha as [?|?], Hr as [?|?].
  - intros [_ Hn Hi Hh Ha Hv]. split; [|done]. split_and!; try done; destruct Hn as [N1 N2]; try done.
    + destruct (human_required _ _ _ _); [right; by apply Hna, Hh|by left].
    + destruct (is_agent p); [right|by left]. apply Hready, Ha. by apply Hag.
    + destruct (is_agent p); [right|by left]. apply Hready, Ha. by apply Hag.
Qed.

(** C26. The search finds exactly the fit Accounts, best first. When it returns, the list holds the
    Accounts of the Workspace that were not offered the Task before, are independent of the
    implementer, are no Agents when a Human is required, and - if Agents - are active,
    online, capable of the domain and with room for one more Task, and that the policy
    allows to verify; and no others. They come in the order of their scores, then ids. *)
Theorem verifiers_exact s l' found u :
  eligible_verifiers s tt [] = (l', Ok (found, u)) ->
  StronglySorted better found /\ (forall c, c ∈ found <-> exists p a, fit s p a /\ c = candidate s (p, a)).
Proof.
  unfold eligible_verifiers. intros (cs & [] & l1 & [-> Hall]%scan_verifiers & H)%atx_bind_ok. injection H as _ <- _. split.
  - pose proof (py_sorted_sorted verifier_leb verifier_leb_total verifier_leb_trans (omap (chosen s) (account_rows s.(se_workspace)))) as Hs.
    induction Hs as [|x xs Hs IH Hx]; constructor; [done|]. eapply Forall_impl; [exact Hx|]. intros y. apply verifier_leb_spec.
  - intros c. rewrite py_sorted_elem, list_elem_of_omap. split.
    + intros ([p a] & Hr & Hc). unfold chosen in Hc. destruct (passes s (p, a)) eqn:Ep; [|done].
      destruct (verdict s p).2 as [[]|] eqn:Ev; cbn [fst] in Hc; rewrite Ev in Hc; try done. injection Hc as <-. exists p, a. split; [|done].
      by apply passes_fit.
    + intros (p & a & Hf & ->). pose proof (ft_row _ _ _ Hf) as Hr. exists (p, a). split; [done|].
      apply (passes_fit s p a Hr) in Hf as [Hp Hv]. unfold chosen. cbn [fst]. by rewrite Hp, Hv.
Qed.
End eligibility.

(** ** The engine *)

Section engine.
Context {ES : Type} {ELI : EventLogI ES} {ERI : EventReadI ES} {W : Type}.
Context (sha256 : list N -> ustr) (isoformat : Z -> ustr) (isoformat_utc : Z -> ustr) (catalog : PolicyCatalog) (uuid5 : string -> string).
Context (terminal_hooks : string -> tx (W * ES) unit) (on_verification_terminal : string -> string -> tx (W * ES) unit).

#[local] Existing Instance TaskCommands.inbox_store.
#[local] Notation Tasks := (@TaskCommands.Db ES W).
#[local] Notation Db := (@Verification.Db ES W Assignments).
#[local] Notation Engine := (@Verification.Engine ES W Assignments).

(** What a search and an offer draw from outside. *)
Record AEnv := {
  asked_at : string -> Z; ask_audit : string -> string; matched_at : string -> Z; decided_at : Z;
  offered_at : Z; queued_at : Z; item_hex : string }.

Definition whole (e : Engine) (vt : VerificationRuns.Tables) : Db := {|
  tasks := e.1.1; tables := vt; audit_locked := e.1.2; engine := e.2 |}.

Definition get_routing (e : Engine) : Routing.Tables :=
  let r := e.2.(routing) in {|
  agent_rows := r.(agent_rows); writers := r.(writers); capability_domains := r.(capability_domains);
  routing_decisions := r.(routing_decisions); Routing.audit_events := e.1.1.(inbox).(Inbox.audit_events); Routing.audit_locked := e.1.2 |}.
Definition put_routing (r : Routing.Tables) (e : Engine) : Engine :=
  (with_audit r.(Routing.audit_events) e.1.1, r.(Routing.audit_locked), with_routing r e.2).

Definition find_verifiers (env : AEnv) (s : Search) (vt : VerificationRuns.Tables) : atx own_row Engine (list VerifierCandidate) := fun e l =>
  let '(rows, r) := eligible_verifiers sha256 catalog e.1.1.(authority) e.1.1.(projection) env.(asked_at) env.(ask_audit) env.(matched_at)
    (graph_of s.(se_workspace) (whole e vt)) e.2 e.1.2 s tt [] in
  (l ++ (Denied <$> rows), r ≫= fun x => Ok (x.1, e)).

Definition search_for (cmd : CreateVerificationRun) (ctx : CommandContext) (task : TaskState) (t impl : string) (e : Engine) : Search := {|
  se_workspace := ctx.(ctx_workspace_id);
  se_domain := if String.eqb task.(TaskState.domain) EmptyString then None else Some task.(TaskState.domain);
  se_risk := task.(TaskState.risk); se_channel := task.(TaskState.channel_id);
  se_implementer := {| Independence.account_id := impl; credential_fingerprint := cmd.(cv_implementer_fingerprint);
                       Independence.agent_id := cmd.(cv_implementer_agent) |};
  se_exclude := offered_accounts t e.2; se_correlation := ctx.(ctx_correlation_id) |}.

(** The decision names no candidate, also when one is chosen. *)
Definition record_search (env : AEnv) (ctx : CommandContext) (s : Search) (t : string) (chosen : option VerifierCandidate) : tx Engine unit :=
  zoom get_routing put_routing (record_decision
    {| rq_workspace := s.(se_workspace); rq_channel := None; rq_capability := None; rq_dom := s.(se_domain); rq_secret_handles := false;
       rq_exclude := []; rq_permission := "verification.submit"; rq_correlation := s.(se_correlation) |}
    {| rc_purpose := "verification"; rc_task := Some t; rc_verification := None; rc_actor_label := ctx.(ctx_principal).(p_account_id);
       rc_now := env.(decided_at) |}
    [] None (match chosen with Some _ => "SELECTED" | None => "NO_CANDIDATE" end)).

(** [resolve_auto_assign] up to the recorded decision. *)
Definition search (env : AEnv) (cmd : CreateVerificationRun) (ctx : CommandContext) (vt : VerificationRuns.Tables)
    : atx own_row Engine (option VerifierCandidate) :=
  match py_or cmd.(cv_task) None with
  | None => in_tx (raise "VERIFICATION_TARGET_INVALID")
  | Some t =>
      task ← in_tx (zoom (fun e : Engine => e.1.1) (fun x e => (x, e.1.2, e.2)) (load_task ctx t));
      impl ← in_tx (zoom (fun e : Engine => e.1.1) (fun x e => (x, e.1.2, e.2)) (_account_uuid ctx cmd.(cv_implementer)));
      e ← in_tx (gets (fun e => e));
      let s := search_for cmd ctx task t impl e in
      found ← find_verifiers env s vt;
      _ ← in_tx (record_search env ctx s t (head found));
      mret (head found)
  end.

Definition with_verifier (c : VerifierCandidate) (cmd : CreateVerificationRun) : CreateVerificationRun := {|
  cv_target_type := cmd.(cv_target_type); cv_target_id := cmd.(cv_target_id); cv_implementer := cmd.(cv_implementer);
  cv_verifier := c.(vc_account_id); cv_implementer_fingerprint := cmd.(cv_implementer_fingerprint);
  cv_verifier_fingerprint := c.(vc_fingerprint); cv_commit := cmd.(cv_commit); cv_policy_hash := cmd.(cv_policy_hash);
  cv_criteria := cmd.(cv_criteria); cv_graph_version := cmd.(cv_graph_version); cv_implementer_agent := cmd.(cv_implementer_agent);
  cv_verifier_agent := c.(vc_agent_id); cv_phase := cmd.(cv_phase); cv_task := cmd.(cv_task); cv_auto_assign := cmd.(cv_auto_assign) |}.

Definition resolve_auto_assign (env : AEnv) (cmd : CreateVerificationRun) (ctx : CommandContext) (vt : VerificationRuns.Tables)
    : atx own_row Engine (CreateVerificationRun * VerifierCandidate) :=
  chosen ← search env cmd ctx vt;
  match chosen with
  | None => in_tx (raise "VERIFIER_NONE_ELIGIBLE")
  | Some c => mret (with_verifier c cmd, c)
  end.

(** ** Offers *)

Definition task_of_run (r : VerificationRun) : string := default r.(target_id) (py_or r.(VerificationRuns.task_id) None).

Definition artifacts_of (t : string) (e : Engine) : list string :=
  py_sorted String.leb (fst <$> List.filter (fun a => existsb (fun ev => bool_decide (ev.(event_id) = a.2) &&
    bool_decide (ev.(HashChain.task_id) = Some (lit t))) (TaskCommands.log e.1.1)) e.2.(artifact_rows)).

(** The evidence of the last submission. *)
Definition evidence_manifest (events : list HashChain.Event) : list json :=
  match last (List.filter (fun e => String.eqb (text e.(event_type)) "IMPLEMENTATION_SUBMITTED") events) with
  | Some e => match dict_get e.(payload) "evidence_refs" with Some (JArr l) => l | _ => [] end
  | None => []
  end.

Definition _assignment_payload (ctx : CommandContext) (r : VerificationRun) (e : Engine) : list (ustr * json) :=
  let t := task_of_run r in
  let artifacts := artifacts_of t e in [
  (lit "verification_id", jtext r.(verification_id)); (lit "task_id", jtext t);
  (lit "criteria", jcriteria (current_criteria e.1.1.(criteria_rows) t).2);
  (lit "evidence_manifest", JArr (evidence_manifest (stream ctx "task" t e.1.1)));
  (lit "artifact_refs", JArr (jtext <$> artifacts)); (lit "target_commit", jtext r.(target_commit));
  (lit "snapshot_hash", JStr r.(snapshot_hash));
  (lit "read_only_access", JObj [
    (lit "task", jtext ("colab://task/" +:+ t)); (lit "artifacts", JArr ((fun a => jtext ("colab://artifact/" +:+ a)) <$> artifacts));
    (lit "events", jtext ("/api/v1/events?task_id=" +:+ t))])].

(** The work item of an Agent; a Human has none. *)
Definition offer_item (env : AEnv) (ctx : CommandContext) (r : VerificationRun) (c : VerifierCandidate) : tx Engine (option string) := fun e =>
  match c.(vc_agent_id) with
  | None => Ok (None, e)
  | Some agent =>
      (item ← zoom (fun e : Engine => e.1.1.(inbox)) (fun x e => (with_inbox x e.1.1, e.1.2, e.2))
         (Inbox.enqueue isoformat_utc env.(item_hex) env.(queued_at) {|
            q_workspace_id := ctx.(ctx_workspace_id); q_kind := "verification_assignment"; q_agent_id := agent;
            q_payload := _assignment_payload ctx r e; q_deadline := env.(offered_at) + WORK_DEADLINE;
            q_expected_result_schema := "colab.verification-verdict.v1"; Inbox.q_correlation_id := ctx.(ctx_correlation_id);
            q_idempotency_key := "verify:" +:+ r.(verification_id); q_actor_account_id := ctx.(ctx_principal).(p_account_uuid);
            q_task_id := r.(VerificationRuns.task_id); q_brainstorm_id := None; q_secret_handles := None; q_work_item_id := None |});
       mret (Some item.(work_item_id))) e
  end.

(** [ON CONFLICT (task_id, candidate_rank) DO NOTHING] *)
Definition insert_offer (o : Offer) (t : Assignments) : Assignments :=
  if existsb (fun x => String.eqb x.(of_task) o.(of_task) && (x.(of_rank) =? o.(of_rank))) t.(offers) then t else with_offers (t.(offers) ++ [o]) t.

Definition record_offer (env : AEnv) (ctx : CommandContext) (r : VerificationRun) (c : VerifierCandidate) (_ : VerificationRuns.Tables)
    : tx Engine unit :=
  item ← offer_item env ctx r c;
  modify (fun e => (e.1.1, e.1.2, insert_offer {|
    of_id := Z.of_nat (length e.2.(offers)) + 1; of_workspace := ctx.(ctx_workspace_id); of_task := task_of_run r;
    of_verification := r.(verification_id); of_rank := next_rank (task_of_run r) e.2; of_account := c.(vc_account_uuid); of_agent := c.(vc_agent_id);
    of_score := c.(vc_score); of_item := item; of_offered := env.(offered_at); of_deadline := env.(offered_at) + ACCEPT_TIMEOUT;
    of_status := "offered"; of_resolved := None |} e.2)).

Definition create (env : VEnv) (aenv : AEnv) (cmd : CreateVerificationRun) (ctx : CommandContext) : atx own_row Db RunResult :=
  create_verification_run sha256 catalog uuid5 (resolve_auto_assign aenv) (record_offer aenv) env cmd ctx.

(** ** The sweep *)

Record TimeoutOutcome := { to_task : string; to_verification : string; to_code : string; to_next : option string }.

(** What the treatment of one offer draws from outside. *)
Record SEnv := { cancel_env : VEnv; create_env : VEnv; search_env : AEnv; wait_env : Env; item_cancelled_at : Z }.

Definition with_offer_status (status : string) (now : Z) (o : Offer) : Offer := {|
  of_id := o.(of_id); of_workspace := o.(of_workspace); of_task := o.(of_task); of_verification := o.(of_verification); of_rank := o.(of_rank);
  of_account := o.(of_account); of_agent := o.(of_agent); of_score := o.(of_score); of_item := o.(of_item); of_offered := o.(of_offered);
  of_deadline := o.(of_deadline); of_status := status; of_resolved := Some now |}.

Definition set_offers (f : Offer -> bool) (status : string) (now : Z) : tx Db unit := modify (fun db => {|
  tasks := db.(tasks); tables := db.(tables); audit_locked := db.(audit_locked);
  engine := with_offers ((fun o => if f o then with_offer_status status now o else o) <$> db.(engine).(offers)) db.(engine) |}).

Definition _set_offer (id : Z) : string -> Z -> tx Db unit := set_offers (fun o => o.(of_id) =? id).
Definition _set_offer_status_by_task (task : string) : string -> Z -> tx Db unit :=
  set_offers (fun o => String.eqb o.(of_task) task && String.eqb o.(of_status) "offered").

(** What [Inbox.cancel] has written when its Event is refused. *)
Definition half_cancelled (w : string) (at_ : Z) : tx (Inbox.Db (ES := ES)) unit :=
  item ← Inbox.load w; s ← lift (transition item.(Inbox.status) "cancel"); Inbox.finish w s at_.

(** A [WorkItemError] is dropped: what was written before it stays. *)
Definition _cancel_item (w : string) (actor : Principal) (at_ : Z) : tx Db unit := on_tasks (zoom inbox with_inbox (fun d =>
  match Inbox.cancel w "VERIFIER_ACCEPT_TIMEOUT" actor.(p_account_uuid) at_ d with
  | Ok (_, d') => Ok (tt, d')
  | Err _ =>
      match half_cancelled w at_ d with
      | Ok (_, d') => Ok (tt, d')
      | Err _ => Ok (tt, d)
      end
  end)).

Definition _ctx (ws : string) (actor : Principal) (key : string) : CommandContext := {|
  ctx_principal := actor; ctx_workspace_id := ws; ctx_correlation_id := key; ctx_idempotency_key := key; ctx_expected_seq := None;
  reauth_verified := false |}.

Definition _public_id (account : string) (db : Db) : string :=
  match find (fun p => String.eqb p.(account_uuid) account) (snd <$> map_to_list db.(tasks).(authority).(accounts)) with
  | Some p => p.(Authority.account_id)
  | None => account
  end.

Definition _exhausted (ws : string) (actor : Principal) (r : VerificationRun) (task : string) : tx Db unit := fun db =>
  let ctx := _ctx ws actor ("vr-exhausted:" +:+ task) in
  let events := vr_stream ctx r.(verification_id) db in
  on_tasks (_ ← catch_conflict (TaskCommands._append (request ctx "verification_run" r.(verification_id) "VERIFIER_ASSIGNMENT_EXHAUSTED"
      "verification_run:exhausted" ("exhausted:" +:+ r.(verification_id)) [
        (lit "verification_id", jtext r.(verification_id)); (lit "task_id", jtext task);
        (lit "offers", JInt (Z.of_nat (length (offered_accounts task db.(engine)))))]
      None r.(VerificationRuns.task_id) (text ∘ event_id <$> last events)
      (match last events with Some e => e.(aggregate_seq) + 1 | None => 1 end))); mret tt) db.

Definition next_command (r : VerificationRun) (db : Db) : CreateVerificationRun := {|
  cv_target_type := r.(target_type); cv_target_id := r.(target_id); cv_implementer := _public_id r.(implementer_account_id) db;
  cv_verifier := EmptyString; cv_implementer_fingerprint := r.(implementer_credential_fingerprint); cv_verifier_fingerprint := EmptyString;
  cv_commit := r.(VerificationRuns.target_commit); cv_policy_hash := r.(effective_policy_hash); cv_criteria := r.(criteria_version);
  cv_graph_version := r.(identity_graph_version); cv_implementer_agent := r.(implementer_agent_id); cv_verifier_agent := None;
  cv_phase := r.(phase); cv_task := r.(VerificationRuns.task_id); cv_auto_assign := true |}.

(** The creation, whose VERIFIER_NONE_ELIGIBLE the sweep catches: it is raised right after the
    recorded decision, so what stays written is what [search] wrote. *)
Definition try_create (env : SEnv) (cmd : CreateVerificationRun) (ctx : CommandContext) : atx own_row Db (option RunResult) := fun db l =>
  match create env.(create_env) env.(search_env) cmd ctx db l with
  | (l', Ok (x, db')) => (l', Ok (Some x, db'))
  | (l', Err e) =>
      if String.eqb e "VERIFIER_NONE_ELIGIBLE" then
        match azoom engine_part with_engine (search env.(search_env) cmd ctx db.(tables)) db l with
        | (_, Ok (_, db')) => (l', Ok (None, db'))
        | (_, Err e) => (l', Err e)
        end
      else (l', Err e)
  end.

(** [MarkWaiting], which may find the Task past waiting. *)
Definition try_wait (env : Env) (task : string) (ctx : CommandContext) : atx own_row Db unit := fun db l =>
  match denials (mark_waiting sha256 isoformat_utc catalog terminal_hooks env task "NO_VERIFIER" ctx) db l with
  | (l', Ok (_, db')) => (l', Ok (tt, db'))
  | (l', Err e) => if mem e ["TASK_TRANSITION_INVALID"; "TASK_TERMINAL"] then (l', Ok (tt, db)) else (l', Err e)
  end.

(** The offer, its work item and its run end. *)
Definition release (env : SEnv) (ws : string) (actor : Principal) (now : Z) (o : Offer) (r : VerificationRun) : atx own_row Db RunResult :=
  _ ← in_tx (_set_offer o.(of_id) "timed_out" now);
  _ ← in_tx (match py_or o.(of_item) None with Some w => _cancel_item w actor env.(item_cancelled_at) | None => mret tt end);
  cancel_verification sha256 catalog env.(cancel_env) r.(verification_id) "VERIFIER_ACCEPT_TIMEOUT"
    (_ctx ws actor ("vr-timeout:" +:+ r.(verification_id))).

Definition next_ctx (ws : string) (actor : Principal) (o : Offer) (db : Db) : CommandContext :=
  _ctx ws actor ("vr-next:" +:+ o.(of_task) +:+ ":" +:+ int_text (next_rank o.(of_task) db.(engine))).

Definition pass_on (env : SEnv) (ws : string) (actor : Principal) (now : Z) (o : Offer) (r : VerificationRun) : atx own_row Db TimeoutOutcome :=
  _ ← release env ws actor now o r;
  db ← in_tx (gets (fun db => db));
  x ← try_create env (next_command r db) (next_ctx ws actor o db);
  match x with
  | Some x => mret {| to_task := o.(of_task); to_verification := r.(verification_id); to_code := "REASSIGNED"; to_next := Some x.(rr_resource) |}
  | None =>
      _ ← in_tx (_exhausted ws actor r o.(of_task));
      _ ← in_tx (_set_offer o.(of_id) "exhausted" now);
      _ ← in_tx (_set_offer_status_by_task o.(of_task) "exhausted" now);
      _ ← try_wait env.(wait_env) o.(of_task) (_ctx ws actor ("vr-exhausted:" +:+ o.(of_task)));
      mret {| to_task := o.(of_task); to_verification := r.(verification_id); to_code := "EXHAUSTED"; to_next := None |}
  end.

Definition sweep_offer (env : SEnv) (ws : string) (actor : Principal) (now : Z) (o : Offer) : atx own_row Db TimeoutOutcome :=
  r ← in_tx (fun db => r ← load_run o.(of_verification) db.(tables); Ok (r, db));
  if mem r.(VerificationRuns.status) [VerificationRuns.RUNNING; PASSED; FAILED; BLOCKED; FIX_SUBMITTED] then
    _ ← in_tx (_set_offer o.(of_id) "accepted" now);
    mret {| to_task := o.(of_task); to_verification := r.(verification_id); to_code := "ACCEPTED"; to_next := None |}
  else pass_on env ws actor now o r.

Fixpoint sweep_offers (env : nat -> SEnv) (n : nat) (ws : string) (actor : Principal) (now : Z) (os : list Offer) : atx own_row Db (list TimeoutOutcome) :=
  match os with
  | [] => mret []
  | o :: os => x ← sweep_offer (env n) ws actor now o; xs ← sweep_offers env (S n) ws actor now os; mret (x :: xs)
  end.

Definition due (ws : string) (now : Z) (db : Db) : list Offer :=
  py_sorted (fun a b => a.(of_id) <=? b.(of_id)) (List.filter (fun o => String.eqb o.(of_workspace) ws && String.eqb o.(of_status) "offered" &&
    (o.(of_deadline) <=? now)) db.(engine).(offers)).

Definition sweep_timeouts (env : nat -> SEnv) (ws : string) (actor : Principal) (now : Z) : atx own_row Db (list TimeoutOutcome) := fun db =>
  sweep_offers env 0 ws actor now (due ws now db) db.

(** ** Lemmas *)

#[local] Notation vstep env := (Verification.vstep sha256 isoformat isoformat_utc catalog uuid5 terminal_hooks on_verification_terminal
  (resolve_auto_assign env) (record_offer env)).

Lemma set_offers_same f status now (db : Db) : exists d, set_offers f status now db = Ok (tt, d) /\ d.(tables) = db.(tables).
Proof. by eexists. Qed.

(** Cancelling a work item writes into the stream of that item only. *)
Lemma inbox_cancel_stream w reason actor now d x d' agg :
  el_ok d.(event_store) -> Inbox.cancel w reason actor now d = Ok (x, d') -> agg.1.2 <> lit "work_item" ->
  in_stream agg (el_log d'.(event_store)) = in_stream agg (el_log d.(event_store)).
Proof.
  intros Hok H Hagg. unfold Inbox.cancel in H.
  apply tx_bind_ok in H as (item & d1 & [_ ->]%Inbox.load_ok & H). apply tx_bind_ok in H as (s & d2 & [_ <-]%lift_ok & H).
  apply tx_bind_ok in H as (u & d3 & [= _ <-] & H). apply tx_bind_ok in H as (u' & d4 & Ha & [_ ->]%Inbox.load_ok).
  unfold Inbox._append in Ha. cbn [es_append inbox_store event_store] in Ha. destruct (el_append _ _) as [[y s']|] eqn:E; [|done].
  injection Ha as _ <-. cbn [event_store]. eapply el_append_effect in E; [|done|by split].
  inversion E as [|e _ _ [Hr _ _]]; subst; [done|]. rewrite in_stream_app, in_stream_one, decide_False; [by rewrite app_nil_r|].
  rewrite Hr. intros <-. by apply Hagg.
Qed.

Lemma cancel_item_same w actor at_ (db : Db) : el_ok (store db.(tasks)) -> exists d, _cancel_item w actor at_ db = Ok (tt, d) /\
  d.(tables) = db.(tables) /\ forall ctx id, vr_stream ctx id d = vr_stream ctx id db.
Proof.
  intros Hok. unfold _cancel_item, on_tasks, zoom.
  destruct (Inbox.cancel _ _ _ _ _) as [[x d]|] eqn:E.
  - eexists. split; [done|]. split; [done|]. intros ctx id. unfold vr_stream, stream, TaskCommands.log, store. cbn.
    apply (inbox_cancel_stream _ _ _ _ _ _ _ _ Hok E). cbn. intros [=].
  - destruct (half_cancelled _ _ _) as [[x d]|] eqn:E2; [|by eexists]. eexists. split; [done|]. split; [done|].
    intros ctx id. unfold vr_stream, stream, TaskCommands.log, store. cbn. do 2 f_equal. 
    apply tx_bind_ok in E2 as (item & d1 & [_ ->]%Inbox.load_ok & E2). by apply tx_bind_ok in E2 as (s & d2 & [_ <-]%lift_ok & [= _ <-]).
Qed.

Lemma cancel_closed env id reason ctx (db : Db) l r :
  db.(tables).(runs) !! id = Some r -> r.(VerificationRuns.status) = CANCELLED -> _replay ctx id "verification_run:cancel" db = None ->
  exists l' e, cancel_verification sha256 catalog env id reason ctx db l = (l', Err e).
Proof.
  intros Hr Hc Hrep. destruct (cancel_verification _ _ _ _ _ _ _ _) as [l' [[x d]|e]] eqn:E; [|by eexists _, _]. exfalso.
  apply simple_move_ok in E as (r' & Hr' & _ & Hm). unfold load_run in Hr'. rewrite Hr in Hr'. injection Hr' as <-.
  unfold move_tx in Hm. rewrite Hrep in Hm. unfold mbind, tx_bind, lift in Hm. by rewrite Hc in Hm.
Qed.

(** C27. A cancelled run stops the sweep for good. Cancelling a run - the command anyone with
    "verification.assign" may give - leaves its offer open. Once the offer is the first that is
    due, the sweep tries to cancel the run again, which is refused because the run is closed;
    the exception undoes the whole sweep. The run stays closed, so every later sweep of the
    Workspace fails alike, and no offer is ever passed on to another verifier. *)
Theorem cancelled_run_stops_sweep aenv env ws actor now (db0 db db' : Db) o rest r :
  no_runs db0 -> rtc (vstep aenv) db0 db -> db.(tables).(runs) !! o.(of_verification) = Some r -> r.(VerificationRuns.status) = CANCELLED ->
  rtc (vstep aenv) db db' -> due ws now db' = o :: rest -> el_ok (store db'.(tasks)) ->
  _replay (_ctx ws actor ("vr-timeout:" +:+ o.(of_verification))) o.(of_verification) "verification_run:cancel" db' = None ->
  forall l, exists l' e, sweep_timeouts env ws actor now db' l = (l', Err e).
Proof.
  intros H0 H1 Hr Hc H2 Hdue Hok Hrep l.
  assert (db'.(tables).(runs) !! o.(of_verification) = Some r) as Hr'.
  { assert (stored o.(of_verification) db'.(tables) = stored o.(of_verification) db.(tables)) as E.
    { eapply closed_kept; [exact H0|exact H1|exact H2|exact Hr|]. rewrite Hc. apply mem_spec. reflexivity. }
    unfold stored in E. rewrite Hr in E. by injection E. }
  assert (r.(verification_id) = o.(of_verification)) as Hid.
  { apply (no_runs_ok sha256 isoformat) in H0. eapply vsteps_ok in H0; [|exact H1]. by apply (ro_id _ _ _ _ (tk_runs _ _ _ H0 _ r Hr)). }
  unfold sweep_timeouts. rewrite Hdue. cbn [sweep_offers].
  enough (exists l' e, sweep_offer (env 0%nat) ws actor now o db' l = (l', Err e)) as (l' & e & E).
  { exists l', e. by apply atx_bind_err. }
  unfold sweep_offer. erewrite atx_bind_step; [|unfold in_tx, load_run; rewrite Hr'; reflexivity]. rewrite Hc. cbn [mem existsb].
  change (mem _ _) with false. cbv iota. unfold pass_on.
  enough (exists l' e, release (env 0%nat) ws actor now o r db' l = (l', Err e)) as (l' & e & E).
  { exists l', e. by apply atx_bind_err. }
  unfold release. destruct (set_offers_same (fun x => x.(of_id) =? o.(of_id)) "timed_out" now db') as (d & Hd & Ht).
  erewrite atx_bind_step; [|unfold in_tx; rewrite (Hd : _set_offer _ _ _ db' = _); reflexivity].
  assert (el_ok (store d.(tasks)) /\ forall ctx id, vr_stream ctx id d = vr_stream ctx id db') as [Hokd Hstd] by (by injection Hd as <-).
  assert (exists d1, match py_or o.(of_item) None with Some w => _cancel_item w actor (env 0%nat).(item_cancelled_at) | None => mret tt end d = Ok (tt, d1) /\
    d1.(tables) = d.(tables) /\ forall ctx id, vr_stream ctx id d1 = vr_stream ctx id d) as (d1 & Hd1 & Ht1 & Hst1).
  { destruct (py_or _ _); [by apply cancel_item_same|by eexists]. }
  erewrite atx_bind_step; [|unfold in_tx; rewrite Hd1; reflexivity]. rewrite Hid.
  apply (cancel_closed _ _ _ _ _ _ r); [by rewrite Ht1, Ht|done|]. unfold _replay in *. by rewrite Hst1, Hstd.
Qed.

Lemma not_accepted s : s ∈ [PLANNED; ASSIGNED; RECHECK_ASSIGNED] -> mem s [VerificationRuns.RUNNING; PASSED; FAILED; BLOCKED; FIX_SUBMITTED] = false.
Proof. clear. intros H. apply mem_false. intros H'. revert H H'. destruct s; set_solver. Qed.

(** What the policy answers for a row that passes the tables. *)
Definition answer (env : AEnv) (s : Search) (vt : VerificationRuns.Tables) (e : Engine) (row : PrincipalInfo * option AgentRow) : option (res bool) :=
  if passes e.1.1.(authority) e.1.1.(projection) (graph_of s.(se_workspace) (whole e vt)) e.2 s row
  then Some (verdict sha256 catalog e.1.1.(authority) env.(asked_at) env.(ask_audit) e.2 s row.1).2 else None.

Lemma find_verifiers_hangs env s vt (e : Engine) l row :
  e.1.2 = true -> row ∈ account_rows e.1.1.(authority) e.2 s.(se_workspace) -> answer env s vt e row = Some (Ok false) ->
  (forall row' v, row' ∈ account_rows e.1.1.(authority) e.2 s.(se_workspace) -> answer env s vt e row' = Some v -> is_ok v = true) ->
  exists l', find_verifiers env s vt e l = (l', Err HANGS).
Proof.
  intros Hl Hr Ha Hall. unfold answer in Ha. destruct (passes _ _ _ _ _ row) eqn:Ep; [|done]. injection Ha as Ha.
  destruct (scan_verifiers_hangs sha256 catalog e.1.1.(authority) e.1.1.(projection) env.(asked_at) env.(ask_audit) env.(matched_at)
    (graph_of s.(se_workspace) (whole e vt)) e.2 e.1.2 s (account_rows e.1.1.(authority) e.2 s.(se_workspace)) [] row) as [l' Hscan]; try done.
  { intros row' Hr' Hp'. apply (Hall row'); [done|]. unfold answer. by rewrite Hp'. }
  unfold find_verifiers, eligible_verifiers. erewrite atx_bind_err; [|exact Hscan]. by eexists.
Qed.

(** C28. An offer is not passed on while one Account of the Workspace may not verify. The sweep
    cancels the run of the offer, which writes an audit row and takes the lock of the audit
    chain; the search for the next verifier then asks the policy for every Account that
    passes the tables. The first refusal - a Human outside the channel, an Agent without the
    role - is audited in a transaction of its own, which waits for that lock: the sweep never
    returns. *)
Theorem refusal_stops_sweep env ws actor now (db d : Db) l l1 l2 o rest r x t task impl row :
  due ws now db = o :: rest -> load_run o.(of_verification) db.(tables) = Ok r ->
  r.(VerificationRuns.status) ∈ [PLANNED; ASSIGNED; RECHECK_ASSIGNED] ->
  release (env 0%nat) ws actor now o r db l = (l1, Ok (x, d)) -> x.(rr_replayed) = false ->
  let cmd := next_command r d in let ctx := next_ctx ws actor o d in
  permit_action sha256 catalog (env 0%nat).(create_env) ctx "verification.assign" (Some "tool:verification_assign") d l1 = (l2, Ok (tt, d)) ->
  r.(target_type) ∈ ["phase"; "task"] -> py_or r.(VerificationRuns.task_id) None = Some t ->
  load_task ctx t d.(tasks) = Ok (task, d.(tasks)) -> _account_uuid ctx cmd.(cv_implementer) d.(tasks) = Ok (impl, d.(tasks)) ->
  let e := engine_part d in let s := search_for cmd ctx task t impl e in
  row ∈ account_rows d.(tasks).(authority) d.(engine) ws -> answer (env 0%nat).(search_env) s d.(tables) e row = Some (Ok false) ->
  (forall row' v, row' ∈ account_rows d.(tasks).(authority) d.(engine) ws -> answer (env 0%nat).(search_env) s d.(tables) e row' = Some v ->
    is_ok v = true) ->
  exists l', sweep_timeouts env ws actor now db l = (l', Err HANGS).
Proof.
  intros Hdue Hr Hst Hrel Hrep cmd ctx Hperm Hty Ht Hload Himpl e s Hrow Hans Hall.
  unfold sweep_timeouts. rewrite Hdue. cbn [sweep_offers].
  enough (exists l', sweep_offer (env 0%nat) ws actor now o db l = (l', Err HANGS)) as [l' E] by (exists l'; by apply atx_bind_err).
  unfold sweep_offer. erewrite atx_bind_step; [|unfold in_tx; rewrite Hr; reflexivity].
  assert (mem r.(VerificationRuns.status) [VerificationRuns.RUNNING; PASSED; FAILED; BLOCKED; FIX_SUBMITTED] = false) as ->.
  { apply not_accepted, Hst. }
  unfold pass_on. rewrite (atx_bind_step _ _ _ _ _ _ _ Hrel). erewrite atx_bind_step; [|unfold in_tx, gets; reflexivity].
  fold cmd ctx. assert (d.(audit_locked) = true) as Hlock.
  { unfold release in Hrel. apply atx_bind_ok in Hrel as (u & d1 & m1 & _ & Hrel). apply atx_bind_ok in Hrel as (u' & d2 & m2 & _ & Hrel).
    apply simple_move_ok in Hrel as (r' & _ & _ & [[_ H]|(_ & _ & s' & _ & _ & _ & H & _)]%move_tx_ok); [by rewrite Hrep in H|done]. }
  enough (exists l', create (env 0%nat).(create_env) (env 0%nat).(search_env) cmd ctx d l1 = (l', Err HANGS)) as [l' E].
  { exists l'. apply atx_bind_err. unfold try_create. by rewrite E. }
  unfold create, create_verification_run. rewrite (atx_bind_step _ _ _ _ _ _ _ Hperm).
  erewrite atx_bind_step; [|unfold in_tx, guard_tx; rewrite (proj2 (mem_spec _ _) (Hty : cv_target_type cmd ∈ _)); reflexivity].
  change (cv_auto_assign cmd && String.eqb (cv_verifier cmd) EmptyString) with true. cbv iota.
  destruct (find_verifiers_hangs (env 0%nat).(search_env) s d.(tables) e l2 row Hlock Hrow Hans Hall) as [l' Hf].
  exists l'. apply atx_bind_err, atx_bind_err. unfold azoom, resolve_auto_assign. fold e. rewrite (atx_bind_err (search (env 0%nat).(search_env) cmd ctx d.(tables)) _ e l2 l' HANGS); [done|].
  unfold search. rewrite (Ht : py_or (cv_task cmd) None = Some t).
  erewrite atx_bind_step; [|unfold in_tx, zoom; cbn [engine_part fst snd e]; rewrite Hload; reflexivity].
  erewrite atx_bind_step; [|unfold in_tx, zoom; cbn [fst snd]; rewrite Himpl; reflexivity].
  erewrite atx_bind_step; [|unfold in_tx, gets; reflexivity]. by apply atx_bind_err.
Qed.
End engine.

(** ** An example *)

(** The Agent a has implemented the Task t1; the Agent b is capable of its domain, h and v are Humans. *)
Module Offering.
#[local] Existing Instance numbered_log.
#[local] Existing Instance numbered_reads.
#[local] Notation Tasks := (@TaskCommands.Db (list HashChain.Event) unit).
#[local] Notation State := (@Verification.Db (list HashChain.Event) unit Assignments).
Import Verifying.

Definition assignments : Assignments := {|
  routing := {| agent_rows := [{| ag_workspace := "ws"; ag_agent_id := "agent-b"; ag_account := "uuid-b"; ag_adapter_type := "mcp";
      ag_capacity := Some 2; ag_concurrent_tasks := PNone; ag_online := true; ag_status := "active" |}];
    writers := ∅; capability_domains := {["cap" := "d"]}; routing_decisions := []; Routing.audit_events := []; Routing.audit_locked := false |};
  credentials := [{| cr_account := "uuid-b"; cr_fingerprint := "fp-b"; cr_status := "active" |}];
  channel_rows := [{| ch_workspace := "ws"; ch_id := "ch"; ch_channel_id := "ch"; ch_human_actions := None |}];
  artifact_rows := []; offers := [] |}.

(** [outside]: the Accounts that are not in the channel. *)
Definition authority_ (outside : list string) : Authority.Db := let m := members [] in {|
  accounts := accounts m; roles := roles m; role_versions := role_versions m; Authority.assignments := Authority.assignments m;
  agent_capabilities := {[("agent-b", "cap")]}; channel_ids := channel_ids m;
  channel_members := foldr (fun n => delete ("ch", "uuid-" +:+ n)) (channel_members m) outside |}.

Definition work (outside : list string) : Tasks := let d := implemented [] in {|
  projection := d.(projection); edges := d.(edges); task_assignments := d.(task_assignments); criteria_rows := d.(criteria_rows);
  joins := d.(joins); authority := authority_ outside; agents := d.(agents); channel_templates := d.(channel_templates);
  inbox := d.(inbox); world := d.(world) |}.

Definition begin (outside : list string) : State := {|
  tasks := work outside; tables := no_tables; audit_locked := false; engine := assignments |}.

Definition aenv (hex : string) : AEnv := {|
  asked_at _ := 5; ask_audit n := "aud-" +:+ n; matched_at _ := 5; decided_at := 6; offered_at := 7; queued_at := 8; item_hex := hex |}.

Definition senv (_ : nat) : SEnv := {|
  cancel_env := venv; create_env := venv; search_env := aenv "wi-6"; wait_env := env; item_cancelled_at := 9 |}.

Definition automatic : CreateVerificationRun := {|
  cv_target_type := "task"; cv_target_id := "t1"; cv_implementer := "acct-a"; cv_verifier := EmptyString;
  cv_implementer_fingerprint := "fp-a"; cv_verifier_fingerprint := EmptyString; cv_commit := "c0"; cv_policy_hash := "p0";
  cv_criteria := "v8.0"; cv_graph_version := "identity-v8-001"; cv_implementer_agent := None; cv_verifier_agent := None; cv_phase := None;
  cv_task := Some "t1"; cv_auto_assign := true |}.

#[local] Notation handle := (Verification.handle sha str_int str_int catalog (fun x => x) nohook (fun _ => nohook)
  (resolve_auto_assign sha catalog (aenv "wi-5")) (record_offer str_int (aenv "wi-5"))).
#[local] Notation vstep := (Verification.vstep sha str_int str_int catalog (fun x => x) nohook (fun _ => nohook)
  (resolve_auto_assign sha catalog (aenv "wi-5")) (record_offer str_int (aenv "wi-5"))).
#[local] Notation sweep := (sweep_timeouts sha str_int catalog (fun x => x) nohook senv "ws" (by_ "h" "k").(ctx_principal) (minutes 20)).

Definition unlocked (db : State) : State := {| tasks := db.(tasks); tables := db.(tables); audit_locked := false; engine := db.(engine) |}.
Definition does (db : State) (x : Command * CommandContext) : State := unlocked (Tx.committed (handle venv x.1 x.2 db []) db).

Lemma offering_steps xs : forall db, rtc vstep db (foldl does db xs).
Proof.
  induction xs as [|x xs IH]; intros db; [done|]. cbn [foldl]. etrans; [|apply IH].
  etrans; [by apply rtc_once, (By_command _ _ _ _ _ _ _ _ _ venv x.1 x.2 db [])|]. apply rtc_once, Elsewhere. by split_and!.
Qed.

Definition offered : State := Eval vm_compute in does (begin []) (Create automatic, by_ "h" "r1").

Lemma first_offer : (fun o => (of_account o, of_status o, of_rank o)) <$> offered.(engine).(offers) = [("uuid-b", "offered", 1)].
Proof. vm_compute. reflexivity. Qed.

(** The next is a Human. *)
Lemma passed_on : exists l x db', sweep offered [] = (l, Ok ([x], db')) /\ x.(to_code) = "REASSIGNED" /\
  (fun o => (of_account o, of_status o, of_rank o)) <$> db'.(engine).(offers) = [("uuid-b", "timed_out", 1); ("uuid-h", "offered", 2)].
Proof. eexists _, _, _. vm_compute. split_and!; reflexivity. Qed.

Lemma offering_begins : no_runs (begin []).
Proof. done. Qed.

Lemma to_offered : rtc vstep (begin []) offered.
Proof.
  replace offered with (foldl does (begin []) [(Create automatic, by_ "h" "r1")]) by (vm_compute; reflexivity). apply offering_steps.
Qed.

Definition the_search : Search := {|
  se_workspace := "ws"; se_domain := Some "d"; se_risk := "LOW"; se_channel := Some "ch";
  se_implementer := {| Independence.account_id := "uuid-a"; credential_fingerprint := "fp-a"; Independence.agent_id := None |};
  se_exclude := []; se_correlation := "c" |}.

#[local] Notation eligible := (eligible_verifiers sha catalog (authority_ []) (work []).(projection) (fun _ => 5) (fun n => "aud-" +:+ n) (fun _ => 5)
  ∅ assignments false the_search tt []).

Lemma verifiers_exact_witness : exists l found u, eligible = (l, Ok (found, u)) /\ vc_account_id <$> found = ["acct-b"; "acct-h"; "acct-v"] /\
  StronglySorted better found.
Proof.
  assert (exists l found u, eligible = (l, Ok (found, u)) /\ vc_account_id <$> found = ["acct-b"; "acct-h"; "acct-v"]) as (l & found & u & H & Hn)
    by (eexists _, _, _; vm_compute; split; reflexivity).
  exists l, found, u. split; [exact H|]. split; [exact Hn|].
  exact (proj1 (verifiers_exact sha catalog (authority_ []) (work []).(projection) (fun _ => 5) (fun n => "aud-" +:+ n) (fun _ => 5)
    ∅ assignments false the_search l found u H)).
Defined.

Lemma numbered_in_sequence (l : list HashChain.Event) :
  recorded_seq <$> l = (fun i => Z.of_nat i + 1) <$> seq 0 (length l) -> in_sequence l.
Proof.
  intros H i e Hi. assert ((recorded_seq <$> l) !! i = Some e.(recorded_seq)) as E by (by rewrite list_lookup_fmap, Hi).
  rewrite H, list_lookup_fmap, lookup_seq_lt in E by (by eapply lookup_lt_Some). cbn in E. by injection E as <-.
Qed.

(** h cancels the run of the offer. *)
Definition cancelled : State := Eval vm_compute in does offered (Cancel id "X", by_ "h" "r2").

Lemma cancelled_run_stops_sweep_witness : exists l' e, sweep cancelled [] = (l', Err e).
Proof.
  assert (exists r, cancelled.(tables).(runs) !! id = Some r /\ r.(VerificationRuns.status) = CANCELLED) as (r & Hr & Hc)
    by (eexists; split; [vm_compute; reflexivity|reflexivity]).
  assert (exists o, due "ws" (minutes 20) cancelled = [o] /\ o.(of_verification) = id) as (o & Ho & Hv)
    by (eexists; split; [vm_compute; reflexivity|reflexivity]).
  assert (rtc vstep offered cancelled) as Hs.
  { replace cancelled with (foldl does offered [(Cancel id "X", by_ "h" "r2")]) by (vm_compute; reflexivity). apply offering_steps. }
  refine (cancelled_run_stops_sweep sha str_int str_int catalog (fun x => x) nohook (fun _ => nohook) (aenv "wi-5") senv "ws"
    (by_ "h" "k").(ctx_principal) (minutes 20) (begin []) cancelled cancelled o [] r offering_begins _ _ Hc _ Ho _ _ []).
  - etrans; [exact to_offered|exact Hs].
  - rewrite Hv. exact Hr.
  - reflexivity.
  - apply numbered_in_sequence. vm_compute. reflexivity.
  - rewrite Hv. vm_compute. reflexivity.
Defined.

(** v is not in the channel. *)
Definition outside : State := Eval vm_compute in does (begin ["v"]) (Create automatic, by_ "h" "r1").

#[local] Notation actor := ((by_ "h" "k").(ctx_principal)).

Definition late : Offer := Eval vm_compute in
  match due "ws" (minutes 20) outside with o :: _ => o | [] => {|
    of_id := 0; of_workspace := EmptyString; of_task := EmptyString; of_verification := EmptyString; of_rank := 0; of_account := EmptyString;
    of_agent := None; of_score := 0; of_item := None; of_offered := 0; of_deadline := 0; of_status := EmptyString; of_resolved := None |} end.

#[local] Notation released r := (release sha catalog (senv 0) "ws" actor (minutes 20) late r outside []).

Definition after_release (r : VerificationRun) : State := match (released r).2 with Ok (_, d) => d | Err _ => outside end.

Definition found_task (r : VerificationRun) : TaskState :=
  match load_task (by_ "h" "k") "t1" (after_release r).(tasks) with Ok (s, _) => s | Err _ => initial_state "t1" end.

Lemma refusal_stops_sweep_witness : exists l, sweep outside [] = (l, Err HANGS).
Proof.
  assert (exists r, load_run late.(of_verification) outside.(tables) = Ok r) as [r Hr] by (eexists; vm_compute; reflexivity).
  pose proof Hr as Er. vm_compute in Er. injection Er as Er.
  assert (exists x, released r = ([], Ok (x, after_release r)) /\ x.(rr_replayed) = false) as (x & Hrel & Hrep)
    by (subst r; eexists; vm_compute; split; reflexivity).
  assert (exists row, row ∈ account_rows (after_release r).(tasks).(authority) (after_release r).(engine) "ws" /\
    answer sha catalog (senv 0).(search_env) (search_for (next_command r (after_release r)) (next_ctx "ws" actor late (after_release r))
      (found_task r) "t1" "uuid-a" (engine_part (after_release r))) (after_release r).(tables) (engine_part (after_release r)) row = Some (Ok false))
    as (row & Hrow & Hans).
  { subst r. exists (Sample.account "v" "human", None). split; [apply (list_elem_of_lookup_2 _ 3); vm_compute; reflexivity|vm_compute; reflexivity]. }
  refine (refusal_stops_sweep sha str_int catalog (fun x => x) nohook senv "ws" actor (minutes 20) outside (after_release r) [] [] [] late [] r x
    "t1" (found_task r) "uuid-a" row _ Hr _ Hrel Hrep _ _ _ _ _ Hrow Hans _).
  - subst r. vm_compute. reflexivity.
  - subst r. apply mem_spec. reflexivity.
  - subst r. vm_compute. reflexivity.
  - subst r. apply mem_spec. reflexivity.
  - subst r. reflexivity.
  - subst r. vm_compute. reflexivity.
  - subst r. vm_compute. reflexivity.
  - intros row' v Hr' Ha.
    assert (forallb (fun row => match answer sha catalog (senv 0).(search_env) (search_for (next_command r (after_release r))
      (next_ctx "ws" actor late (after_release r)) (found_task r) "t1" "uuid-a" (engine_part (after_release r))) (after_release r).(tables)
      (engine_part (after_release r)) row with Some v => is_ok v | None => true end)
      (account_rows (after_release r).(tasks).(authority) (after_release r).(engine) "ws") = true) as Hall by (subst r; vm_compute; reflexivity).
    rewrite forallb_forall in Hall. apply list_elem_of_In, Hall in Hr'. by rewrite Ha in Hr'.
Defined.
End Offering.
