(* ===== verification/Approvals.v ===== *)
(** Approvals: states and transitions ([server/approvals/model.py]), who may
    decide ([eligibility.py]), the operations on a grant ([service.py]), its
    projection ([server/projections/approvals.py]) and the commands
    ([server/application/approvals.py]). The tables are maps and lists of rows in
    insertion order; the columns [created_at] and [updated_at] are left out. *)

From S2P Require Import Prelude Defaults Canonical Policy Catalog Independence Authority.
From S2P Require Import HashChain EventStore Tx EventLog Bus.
Open Scope Z_scope.

(** * Model *)

Inductive ApprovalStatus :=
  PENDING | APPROVED | PARTIALLY_CONSUMED | CONSUMED | REJECTED | CANCELLED | EXPIRED | REVOKED.

#[global] Instance ApprovalStatus_eq_dec : EqDecision ApprovalStatus.
Proof. solve_decision. Defined.

Definition status_value (s : ApprovalStatus) : string :=
  match s with
  | PENDING => "PENDING" | APPROVED => "APPROVED" | PARTIALLY_CONSUMED => "PARTIALLY_CONSUMED"
  | CONSUMED => "CONSUMED" | REJECTED => "REJECTED" | CANCELLED => "CANCELLED"
  | EXPIRED => "EXPIRED" | REVOKED => "REVOKED"
  end.

Definition TERMINAL : list ApprovalStatus := [CONSUMED; REJECTED; CANCELLED; EXPIRED; REVOKED].
Definition CONSUMABLE : list ApprovalStatus := [APPROVED; PARTIALLY_CONSUMED].

Definition TRANSITIONS : list ((ApprovalStatus * string) * ApprovalStatus) := [
  ((PENDING, "APPROVAL_GRANTED"), APPROVED);
  ((PENDING, "APPROVAL_REJECTED"), REJECTED);
  ((PENDING, "APPROVAL_CANCELLED"), CANCELLED);
  ((PENDING, "APPROVAL_EXPIRED"), EXPIRED);
  ((PENDING, "APPROVAL_REVOKED"), REVOKED);
  ((APPROVED, "APPROVAL_CONSUMED"), PARTIALLY_CONSUMED);
  ((APPROVED, "APPROVAL_CANCELLED"), CANCELLED);
  ((APPROVED, "APPROVAL_EXPIRED"), EXPIRED);
  ((APPROVED, "APPROVAL_REVOKED"), REVOKED);
  ((PARTIALLY_CONSUMED, "APPROVAL_CONSUMED"), PARTIALLY_CONSUMED);
  ((PARTIALLY_CONSUMED, "APPROVAL_CANCELLED"), CANCELLED);
  ((PARTIALLY_CONSUMED, "APPROVAL_EXPIRED"), EXPIRED);
  ((PARTIALLY_CONSUMED, "APPROVAL_REVOKED"), REVOKED)].

Definition next_status (current : ApprovalStatus) (event_type : string) : res ApprovalStatus :=
  if mem current TERMINAL then Err "APPROVAL_TERMINAL"
  else match find (fun e => bool_decide (e.1 = (current, event_type))) TRANSITIONS with
       | Some e => Ok e.2
       | None => Err "APPROVAL_TRANSITION_INVALID"
       end.

Definition status_after_consumption (used_count : Z) (max_uses : option Z) : ApprovalStatus :=
  match max_uses with
  | Some m => if m <=? used_count then CONSUMED else PARTIALLY_CONSUMED
  | None => PARTIALLY_CONSUMED
  end.

Definition default_expiry (valid_from : Z) : Z := valid_from + hours APPROVAL_EXPIRY_HOURS.

Definition SUBJECT_TYPES : list string := ["task"; "schedule"; "run"; "action"].
Definition SUBJECT_ACTIVATION : list (string * Z) := [("task", 1); ("schedule", 5); ("run", 5); ("action", 1)].
Definition CURRENT_PHASE : Z := 5.

Record Subject := { subject_type : string; subject_id : string }.

#[global] Instance Subject_eq_dec : EqDecision Subject.
Proof. solve_decision. Defined.

Record Grant := {
  approval_id : string;
  g_workspace : string;
  subject : Subject;
  action : string;
  g_risk : string;
  status : ApprovalStatus;
  requested_by : string;
  implementing_agent_account : option string;
  channel_uuid : option string;
  g_valid_from : Z;
  expires_at : Z;
  max_uses : option Z;
  quorum_required : Z;
  g_aggregate_seq : Z;
  g_requires_human : bool }.

Definition usable_at (g : Grant) (now : Z) : bool :=
  mem g.(status) CONSUMABLE && (g.(g_valid_from) <=? now) && (now <? g.(expires_at)).

(** * Tables *)

(** A row of [approval_grants]. *)
Record GrantRow := {
  c_approval_id : string;
  c_workspace : string;
  c_subject_type : string;
  c_subject_id : string;
  c_action : string;
  resource_scope : list (string * json);
  c_risk : string;
  c_status : ApprovalStatus;
  c_requested_by : string;
  c_implementing_agent : option string;
  c_channel : option string;
  c_valid_from : Z;
  c_expires_at : Z;
  c_max_uses : option Z;
  c_quorum_required : Z;
  c_aggregate_seq : Z }.

(** [UPDATE approval_grants SET status = :s, aggregate_seq = :q]. *)
Definition with_status (s : ApprovalStatus) (seq : Z) (r : GrantRow) : GrantRow := {|
  c_approval_id := r.(c_approval_id); c_workspace := r.(c_workspace);
  c_subject_type := r.(c_subject_type); c_subject_id := r.(c_subject_id); c_action := r.(c_action);
  resource_scope := r.(resource_scope); c_risk := r.(c_risk); c_status := s;
  c_requested_by := r.(c_requested_by); c_implementing_agent := r.(c_implementing_agent);
  c_channel := r.(c_channel); c_valid_from := r.(c_valid_from); c_expires_at := r.(c_expires_at);
  c_max_uses := r.(c_max_uses); c_quorum_required := r.(c_quorum_required); c_aggregate_seq := seq |}.

Record DecisionRow := {
  d_approval_id : string;
  decided_by : string;
  d_decision : string;
  d_fingerprint : string;
  d_reauth_verified : bool;
  d_event_id : ustr }.

Record ConsumptionRow := {
  n_approval_id : string;
  consumption_key : string;
  consumed_by : string;
  consumed_for : Subject;
  n_event_id : ustr }.

(** A row of [approvals_projection]; its text and uuid columns as code points. *)
Record ProjectionRow := {
  x_workspace : ustr;
  x_subject_type : ustr;
  x_subject_id : ustr;
  x_action : ustr;
  x_risk : ustr;
  x_status : string;
  x_used_count : Z;
  x_max_uses : option Z;
  x_expires_at : Z;
  x_requested_by : ustr;
  x_decided_by : list string;
  x_last_event_id : ustr }.

Inductive AuditEntry :=
| PolicyDeny (r : AuditRecord)
| ApprovalDeny (approver : option PrincipalInfo) (account approval code risk subject_type : string).

Definition json_truthy (v : json) : bool :=
  match v with
  | JNull => false
  | JBool b => b
  | JInt z => negb (z =? 0)
  | JFloat FNonFinite => true
  | JFloat (FFinite _ ip fp _) => existsb (fun c => negb (c =? 48)%N) (ip ++ fp)
  | JStr s => negb (bool_decide (s = []))
  | JArr l => negb (match l with [] => true | _ => false end)
  | JObj l => negb (match l with [] => true | _ => false end)
  end.

(** [scope.get("requires_human_approval", False)], which only [request_approval]
    writes, and writes as a boolean. *)
Definition scope_human (scope : list (string * json)) : bool :=
  match dict_get "requires_human_approval" scope with Some v => json_truthy v | None => false end.

Definition grant_of (r : GrantRow) : Grant := {|
  approval_id := r.(c_approval_id); g_workspace := r.(c_workspace);
  subject := {| subject_type := r.(c_subject_type); subject_id := r.(c_subject_id) |};
  action := r.(c_action); g_risk := r.(c_risk); status := r.(c_status);
  requested_by := r.(c_requested_by); implementing_agent_account := r.(c_implementing_agent);
  channel_uuid := r.(c_channel); g_valid_from := r.(c_valid_from); expires_at := r.(c_expires_at);
  max_uses := r.(c_max_uses); quorum_required := r.(c_quorum_required);
  g_aggregate_seq := r.(c_aggregate_seq); g_requires_human := scope_human r.(resource_scope) |}.

Definition jz_opt (o : option Z) : json := match o with Some z => JInt z | None => JNull end.

(** * Eligibility *)

Record Eligibility := { eligible : bool; e_code : string; approver : option PrincipalInfo }.

(** [{account: alias_of}] over the rows of one workspace: a later row of an
    account replaces an earlier one. *)
Definition alias_graph (rows : list (string * string * string)) (workspace : string) : gmap string string :=
  foldl (fun m '(ws, a, b) => if String.eqb ws workspace then <[a := b]> m else m) ∅ rows.

Definition _same_principal (a b : option string) (graph : gmap string string) : bool :=
  match a, b with
  | Some a, Some b => String.eqb (effective_principal a graph) (effective_principal b graph)
  | _, _ => false
  end.

Fixpoint covering (matched : list string) (idx : nat) (roles : list Role) : res (list Role) :=
  match roles with
  | [] => Ok []
  | r :: roles =>
      keep ← (if mem r.(role_id) matched
              then i ← risk_index r.(constraints).(max_risk); Ok (idx <=? i)%nat else Ok false);
      rest ← covering matched idx roles;
      Ok (if keep : bool then r :: rest else rest)
  end.

Definition mapped_code (code : string) : string :=
  if String.eqb code "CHANNEL_NOT_MEMBER" then "APPROVER_NOT_CHANNEL_MEMBER"
  else if String.eqb code "ROLE_MAX_RISK_EXCEEDED" then "APPROVER_ROLE_RISK_TOO_LOW"
  else "APPROVER_NOT_ELIGIBLE".

Section approvals.
Context {ES : Type} {ELI : EventLogI ES}.
(** SHA-256, [isoformat_utc], and the text input of a [timestamptz] column. *)
Context (sha256 : list N -> ustr) (isoformat_utc : Z -> ustr) (parse_ts : ustr -> res Z).

Record Db := {
  grants : gmap string GrantRow;
  decisions : list DecisionRow;
  consumptions : list ConsumptionRow;
  projection : gmap ustr ProjectionRow;
  authority : Authority.Db;
  aliases : list (string * string * string);  (* workspace of the account, account, alias of *)
  subjects : gmap (string * string) string;  (* subject type, id: workspace *)
  store : ES }.

Definition with_grants (m : gmap string GrantRow) (db : Db) : Db := {|
  grants := m; decisions := db.(decisions); consumptions := db.(consumptions);
  projection := db.(projection); authority := db.(authority); aliases := db.(aliases);
  subjects := db.(subjects); store := db.(store) |}.

Definition with_decisions (l : list DecisionRow) (db : Db) : Db := {|
  grants := db.(grants); decisions := l; consumptions := db.(consumptions);
  projection := db.(projection); authority := db.(authority); aliases := db.(aliases);
  subjects := db.(subjects); store := db.(store) |}.

Definition with_consumptions (l : list ConsumptionRow) (db : Db) : Db := {|
  grants := db.(grants); decisions := db.(decisions); consumptions := l;
  projection := db.(projection); authority := db.(authority); aliases := db.(aliases);
  subjects := db.(subjects); store := db.(store) |}.

Definition with_projection (m : gmap ustr ProjectionRow) (db : Db) : Db := {|
  grants := db.(grants); decisions := db.(decisions); consumptions := db.(consumptions);
  projection := m; authority := db.(authority); aliases := db.(aliases);
  subjects := db.(subjects); store := db.(store) |}.

Definition with_store (s : ES) (db : Db) : Db := {|
  grants := db.(grants); decisions := db.(decisions); consumptions := db.(consumptions);
  projection := db.(projection); authority := db.(authority); aliases := db.(aliases);
  subjects := db.(subjects); store := s |}.

(** The tables other commands write. *)
Definition with_world (a : Authority.Db) (al : list (string * string * string))
    (s : gmap (string * string) string) (db : Db) : Db := {|
  grants := db.(grants); decisions := db.(decisions); consumptions := db.(consumptions);
  projection := db.(projection); authority := a; aliases := al; subjects := s; store := db.(store) |}.

Definition validate_subject (workspace : string) (s : Subject) : tx Db unit := fun db =>
  if negb (mem s.(subject_type) SUBJECT_TYPES) then Err "SUBJECT_TYPE_UNKNOWN"
  else if String.eqb s.(subject_id) EmptyString then Err "SUBJECT_ID_REQUIRED"
  else match dict_get s.(subject_type) SUBJECT_ACTIVATION with
  | None => Err "KeyError"
  | Some activates =>
      if CURRENT_PHASE <? activates then Err "SUBJECT_TYPE_NOT_ACTIVE"
      else if mem s.(subject_type) ["task"; "schedule"; "run"] then
        match db.(subjects) !! (s.(subject_type), s.(subject_id)) with
        | None => Err "SUBJECT_NOT_FOUND"
        | Some ws => if negb (String.eqb ws workspace) then Err "WORKSPACE_MISMATCH" else Ok (tt, db)
        end
      else Ok (tt, db)
  end.

(** [_audit]: a row in a transaction of its own. *)
Definition deny (p : option PrincipalInfo) (account : string) (g : Grant) (code : string)
    : list AuditEntry -> list AuditEntry * res Eligibility := fun log =>
  (log ++ [ApprovalDeny p account g.(approval_id) code g.(g_risk) g.(subject).(subject_type)],
   Ok {| eligible := false; e_code := code; approver := p |}).

Definition decide_request (g : Grant) (correlation : string) : AuthorizationRequest := {|
  q_permission := "approval.decide"; q_action := Some "command:approve.grant"; q_domain := None;
  q_channel_id := g.(channel_uuid); q_resource := None; q_side_effect := false;
  q_required_capability := None; q_correlation_id := correlation; q_target_type := "approval";
  q_target_id := g.(approval_id) |}.

(** The checks after the authorization. *)
Definition check_covering (db : Db) (p : PrincipalInfo) (account : string) (g : Grant) (a : Authorization)
    (reauth : bool) (now : Z) : list AuditEntry -> list AuditEntry * res Eligibility := fun log =>
  match (idx ← risk_index g.(g_risk);
         rs ← covering a.(auth_roles) idx (effective_roles db.(authority) p now);
         high ← risk_index "HIGH";
         Ok (rs, (high <=? idx)%nat)) with
  | Err e => (log, Err e)
  | Ok ([], _) => deny (Some p) account g "APPROVER_ROLE_RISK_TOO_LOW" log
  | Ok (_, true) =>
      if negb reauth then deny (Some p) account g "REAUTH_REQUIRED" log
      else (log, Ok {| eligible := true; e_code := "ELIGIBLE"; approver := Some p |})
  | Ok (_, false) => (log, Ok {| eligible := true; e_code := "ELIGIBLE"; approver := Some p |})
  end.

Definition check_eligibility (c : PolicyCatalog) (new_audit_id : string) (db : Db) (account : string)
    (g : Grant) (prior : gset string) (reauth : bool) (now auth_now : Z) (correlation : string)
    : list AuditEntry -> list AuditEntry * res Eligibility := fun log =>
  match principal db.(authority) account with
  | None => deny None account g "APPROVER_NOT_ELIGIBLE" log
  | Some p =>
      if negb (String.eqb p.(principal_status) "ACTIVE") then deny None account g "APPROVER_NOT_ELIGIBLE" log
      else
        let graph := alias_graph db.(aliases) g.(g_workspace) in
        if _same_principal (Some p.(account_uuid)) (Some g.(requested_by)) graph ||
           _same_principal (Some p.(account_uuid)) g.(implementing_agent_account) graph
        then deny (Some p) account g "SELF_APPROVAL_FORBIDDEN" log
        else if bool_decide (p.(account_uuid) ∈ prior) then deny (Some p) account g "APPROVER_DUPLICATE" log
        else match human_only c g.(g_risk) with
        | Err e => (log, Err e)
        | Ok h =>
            if (h || g.(g_requires_human)) && negb (String.eqb p.(account_type) "human")
            then deny (Some p) account g "HUMAN_APPROVER_REQUIRED" log
            else
              let '(rows, r) := authorize sha256 c new_audit_id db.(authority) auth_now account
                (decide_request g correlation) [] in
              let log := log ++ (PolicyDeny <$> rows) in
              match r with
              | Err e => (log, Err e)
              | Ok a =>
                  if negb a.(is_allowed)
                  then (log, Ok {| eligible := false; e_code := mapped_code a.(auth_code); approver := Some p |})
                  else check_covering db p account g a reauth now log
              end
        end
  end.

(** * Operations *)

Definition _load_grant (aid : string) : tx Db Grant := fun db =>
  match db.(grants) !! aid with
  | Some r => Ok (grant_of r, db)
  | None => Err "APPROVAL_NOT_FOUND"
  end.

Definition append_request (g : Grant) (event_type actor correlation scope key : string)
    (body : list (ustr * json)) : AppendRequest := {|
  r_workspace_id := lit g.(g_workspace); r_aggregate_type := lit "approval";
  r_aggregate_id := lit g.(approval_id); r_type := lit event_type; r_actor_account_id := lit actor;
  r_correlation_id := lit correlation; r_idempotency_scope := lit ("approval:" +:+ scope);
  r_idempotency_key := lit key; r_payload := body; r_policy_version := lit "policy-v1";
  r_channel_id := lit <$> g.(channel_uuid);
  r_task_id := if String.eqb g.(subject).(subject_type) "task" then Some (lit g.(subject).(subject_id)) else None;
  r_caused_by := None; r_expected_seq := Some (g.(g_aggregate_seq) + 1); r_sensitive := None;
  r_schema_version := 1 |}.

Definition _append (g : Grant) (event_type actor correlation scope key : string)
    (body : list (ustr * json)) : tx Db AppendResult := fun db =>
  match el_append (append_request g event_type actor correlation scope key body) db.(store) with
  | Ok (a, s) => Ok (a, with_store s db)
  | Err e => Err e
  end.

Definition _set_status (aid : string) (s : ApprovalStatus) (seq : Z) : tx Db unit :=
  modify (fun db => with_grants (alter (with_status s seq) aid db.(grants)) db).

Definition decisions_of (aid : string) (l : list DecisionRow) : list DecisionRow :=
  List.filter (fun d => String.eqb d.(d_approval_id) aid) l.

Definition consumptions_of (aid : string) (l : list ConsumptionRow) : list ConsumptionRow :=
  List.filter (fun n => String.eqb n.(n_approval_id) aid) l.

(** [SELECT count( * ) FROM approval_consumptions]. *)
Definition used (aid : string) (db : Db) : Z := Z.of_nat (length (consumptions_of aid db.(consumptions))).

Definition _project (g : Grant) (s : ApprovalStatus) (event_id : ustr) : tx Db unit :=
  modify (fun db =>
    let n := used g.(approval_id) db in
    let by_ := decided_by <$> decisions_of g.(approval_id) db.(decisions) in
    let row := match db.(projection) !! lit g.(approval_id) with
      | None => {|
          x_workspace := lit g.(g_workspace); x_subject_type := lit g.(subject).(subject_type);
          x_subject_id := lit g.(subject).(subject_id); x_action := lit g.(action);
          x_risk := lit g.(g_risk); x_status := status_value s; x_used_count := n;
          x_max_uses := g.(max_uses); x_expires_at := g.(expires_at);
          x_requested_by := lit g.(requested_by); x_decided_by := by_; x_last_event_id := event_id |}
      | Some x => {|
          x_workspace := x.(x_workspace); x_subject_type := x.(x_subject_type);
          x_subject_id := x.(x_subject_id); x_action := x.(x_action); x_risk := x.(x_risk);
          x_status := status_value s; x_used_count := n; x_max_uses := x.(x_max_uses);
          x_expires_at := x.(x_expires_at); x_requested_by := x.(x_requested_by);
          x_decided_by := by_; x_last_event_id := event_id |}
      end in
    with_projection (<[lit g.(approval_id) := row]> db.(projection)) db).

Record RequestResult := {
  rr_approval_id : string; rr_risk : string; rr_quorum : Z; rr_expires_at : Z; rr_event : AppendResult }.

Record RequestArgs := {
  a_workspace : string;
  a_requested_by : string;
  a_subject : Subject;
  a_action : string;
  a_correlation : string;
  a_idempotency_key : string;
  a_scope : list (string * json);
  a_risk : option string;
  valid_for : option Z;
  a_max_uses : option Z;
  a_implementing_agent : option string;
  a_channel : option string;
  a_requires_human : bool }.

(** [risk if risk and index(risk) > index(catalog_risk) else catalog_risk]. *)
Definition effective_risk (requested : option string) (catalog_risk : string) : res string :=
  match requested with
  | Some r =>
      if String.eqb r EmptyString then Ok catalog_risk
      else i ← risk_index r; j ← risk_index catalog_risk; Ok (if (j <? i)%nat then r else catalog_risk)
  | None => Ok catalog_risk
  end.

(** The grant the requester made with the key before. *)
Definition existing_grant (a : RequestArgs) (db : Db) : option string :=
  fst <$> find (fun e =>
    String.eqb e.2.(c_workspace) a.(a_workspace) && String.eqb e.2.(c_requested_by) a.(a_requested_by) &&
    match dict_get "idempotency_key" e.2.(resource_scope) with
    | Some (JStr s) => bool_decide (s = lit a.(a_idempotency_key))
    | _ => false
    end)
    (map_to_list db.(grants)).

Definition stream (ws aid : string) (log : list Event) : list Event :=
  in_stream (lit ws, lit "approval", lit aid) log.

Definition replay_request (aid : string) : tx Db RequestResult :=
  g ← _load_grant aid;
  evs ← gets (fun db => stream g.(g_workspace) g.(approval_id) (el_log db.(store)));
  match evs with
  | [] => raise "IndexError"
  | prior :: _ => mret {|
      rr_approval_id := g.(approval_id); rr_risk := g.(g_risk); rr_quorum := g.(quorum_required);
      rr_expires_at := g.(expires_at);
      rr_event := {| a_event_id := prior.(event_id); a_aggregate_seq := 1;
        a_content_hash := prior.(content_hash); a_recorded_seq := prior.(recorded_seq); replayed := true |} |}
  end.

Definition insert_grant (r : GrantRow) : tx Db unit := fun db =>
  match db.(grants) !! r.(c_approval_id) with
  | Some _ => Err "IntegrityError"
  | None => Ok (tt, with_grants (<[r.(c_approval_id) := r]> db.(grants)) db)
  end.

Definition new_grant (a : RequestArgs) (aid risk : string) (now expires quorum : Z) : GrantRow := {|
  c_approval_id := aid; c_workspace := a.(a_workspace); c_subject_type := a.(a_subject).(subject_type);
  c_subject_id := a.(a_subject).(subject_id); c_action := a.(a_action);
  resource_scope := dict_set "requires_human_approval" (JBool a.(a_requires_human))
    (dict_set "idempotency_key" (JStr (lit a.(a_idempotency_key))) a.(a_scope));
  c_risk := risk; c_status := PENDING; c_requested_by := a.(a_requested_by);
  c_implementing_agent := a.(a_implementing_agent); c_channel := a.(a_channel); c_valid_from := now;
  c_expires_at := expires; c_max_uses := a.(a_max_uses); c_quorum_required := quorum; c_aggregate_seq := 0 |}.

Definition requested_payload (a : RequestArgs) (aid risk : string) (expires quorum : Z) : list (ustr * json) := [
  (lit "approval_id", jstr aid);
  (lit "subject_type", jstr a.(a_subject).(subject_type));
  (lit "subject_id", jstr a.(a_subject).(subject_id));
  (lit "action", jstr a.(a_action));
  (lit "risk", jstr risk);
  (lit "expires_at", JStr (isoformat_utc expires));
  (lit "quorum_required", JInt quorum);
  (lit "max_uses", jz_opt a.(a_max_uses))].

Definition request_approval (c : PolicyCatalog) (now : Z) (new_hex : string) (a : RequestArgs) : tx Db RequestResult :=
  validate_subject a.(a_workspace) a.(a_subject) ≫= fun _ =>
  d ← lift (risk_for c a.(a_action) false);
  guard_tx (match a.(a_risk) with Some r => negb (mem r RISK_ORDER) | None => false end) "RISK_UNKNOWN" ≫= fun _ =>
  risk ← lift (effective_risk a.(a_risk) d.(risk));
  guard_tx (match a.(a_max_uses) with Some m => m <=? 0 | None => false end) "MAX_USES_INVALID" ≫= fun _ =>
  let expires := match a.(valid_for) with
    | Some v => if v =? 0 then default_expiry now else now + v
    | None => default_expiry now
    end in
  guard_tx (expires <=? now) "VALIDITY_INVALID" ≫= fun _ =>
  q ← lift (quorum c risk);
  let q := if a.(a_requires_human) && (q =? 0) then 1 else q in
  found ← gets (existing_grant a);
  match found with
  | Some aid => replay_request aid
  | None =>
      let aid := "apr-" +:+ new_hex in
      insert_grant (new_grant a aid risk now expires q) ≫= fun _ =>
      g ← _load_grant aid;
      result ← _append g "APPROVAL_REQUESTED" a.(a_requested_by) a.(a_correlation) "request"
        a.(a_idempotency_key) (requested_payload a aid risk expires q);
      _set_status aid PENDING result.(a_aggregate_seq) ≫= fun _ =>
      _project g PENDING result.(a_event_id) ≫= fun _ =>
      mret {| rr_approval_id := aid; rr_risk := risk; rr_quorum := q; rr_expires_at := expires; rr_event := result |}
  end.

Record DecisionResult := {
  dr_approval_id : string; dr_status : ApprovalStatus; approvals_recorded : Z; dr_quorum : Z;
  dr_event : option AppendResult }.

Definition _record_decision (d : DecisionRow) : tx Db unit := fun db =>
  if existsb (fun r => String.eqb r.(d_approval_id) d.(d_approval_id) && String.eqb r.(decided_by) d.(decided_by))
       db.(decisions)
  then Err "IntegrityError"
  else Ok (tt, with_decisions (db.(decisions) ++ [d]) db).

Record DecideArgs := {
  k_approval_id : string;
  k_account : string;
  k_decision : string;
  k_fingerprint : string;
  k_reauth : bool;
  k_correlation : string;
  k_idempotency_key : string;
  k_reason : string }.

Definition prior_deciders (aid : string) (db : Db) : gset string :=
  list_to_set (decided_by <$> decisions_of aid db.(decisions)).

Definition decision_row (k : DecideArgs) (p : PrincipalInfo) (event : ustr) : DecisionRow := {|
  d_approval_id := k.(k_approval_id); decided_by := p.(account_uuid); d_decision := k.(k_decision);
  d_fingerprint := k.(k_fingerprint); d_reauth_verified := k.(k_reauth); d_event_id := event |}.

(** A decision that ends the wait: the Event, the ledger row, the status. *)
Definition conclude (k : DecideArgs) (g : Grant) (p : PrincipalInfo) (event_type : string)
    (body : list (ustr * json)) (recorded : Z) : tx Db DecisionResult :=
  result ← _append g event_type p.(account_uuid) k.(k_correlation) "decide" k.(k_idempotency_key) body;
  _record_decision (decision_row k p result.(a_event_id)) ≫= fun _ =>
  s ← lift (next_status g.(status) event_type);
  _set_status k.(k_approval_id) s result.(a_aggregate_seq) ≫= fun _ =>
  _project g s result.(a_event_id) ≫= fun _ =>
  mret {| dr_approval_id := k.(k_approval_id); dr_status := s; approvals_recorded := recorded;
          dr_quorum := g.(quorum_required); dr_event := Some result |}.

Definition record_decision (k : DecideArgs) (g : Grant) (p : PrincipalInfo) (prior : gset string)
    : tx Db DecisionResult :=
  if String.eqb k.(k_decision) "REJECT" then
    conclude k g p "APPROVAL_REJECTED" [
      (lit "approval_id", jstr k.(k_approval_id)); (lit "decided_by", jstr p.(account_id));
      (lit "reason_code", jstr k.(k_reason))] (Z.of_nat (size prior))
  else
    let approvals := Z.of_nat (size prior) + 1 in
    if g.(quorum_required) <=? approvals then
      conclude k g p "APPROVAL_GRANTED" [
        (lit "approval_id", jstr k.(k_approval_id)); (lit "decided_by", jstr p.(account_id));
        (lit "quorum_count", JInt approvals);
        (lit "deciders", jstrs (py_sorted_str (elements (prior ∪ {[p.(account_uuid)]}))))] approvals
    else
      evs ← gets (fun db => stream g.(g_workspace) k.(k_approval_id) (el_log db.(store)));
      match last evs with
      | None => raise "IndexError"
      | Some e =>
          _record_decision (decision_row k p e.(event_id)) ≫= fun _ =>
          _project g PENDING e.(event_id) ≫= fun _ =>
          mret {| dr_approval_id := k.(k_approval_id); dr_status := PENDING; approvals_recorded := approvals;
                  dr_quorum := g.(quorum_required); dr_event := None |}
      end.

(** The grant is locked, pending and unexpired. *)
Definition open_grant (k : DecideArgs) (now : Z) : tx Db Grant :=
  guard_tx (negb (mem k.(k_decision) ["APPROVE"; "REJECT"])) "DECISION_INVALID" ≫= fun _ =>
  g ← _load_grant k.(k_approval_id);
  guard_tx (negb (bool_decide (g.(status) = PENDING))) "APPROVAL_NOT_PENDING" ≫= fun _ =>
  guard_tx (g.(expires_at) <=? now) "APPROVAL_NOT_USABLE" ≫= fun _ => mret g.

Definition decide_approval (c : PolicyCatalog) (new_audit_id : string) (now auth_now : Z) (k : DecideArgs)
    : atx AuditEntry Db DecisionResult := fun db log =>
  match open_grant k now db with
  | Err e => (log, Err e)
  | Ok (g, _) =>
      let prior := prior_deciders k.(k_approval_id) db in
      let '(log', r) := check_eligibility c new_audit_id db k.(k_account) g prior k.(k_reauth) now auth_now
        k.(k_correlation) log in
      match r with
      | Err e => (log', Err e)
      | Ok e =>
          match e.(eligible), e.(approver) with
          | true, Some p => (log', record_decision k g p prior db)
          | _, _ => (log', Err e.(e_code))
          end
      end
  end.

Record TerminateArgs := {
  t_approval_id : string; t_actor : string; t_correlation : string; t_idempotency_key : string; t_reason : string }.

Definition _terminate (event_type scope : string) (t : TerminateArgs) : tx Db AppendResult :=
  g ← _load_grant t.(t_approval_id);
  s ← lift (next_status g.(status) event_type);
  let body := (lit "approval_id", jstr t.(t_approval_id)) ::
    (if String.eqb event_type "APPROVAL_EXPIRED" then [] else [(lit "reason_code", jstr t.(t_reason))]) in
  result ← _append g event_type t.(t_actor) t.(t_correlation) scope t.(t_idempotency_key) body;
  _set_status t.(t_approval_id) s result.(a_aggregate_seq) ≫= fun _ =>
  _project g s result.(a_event_id) ≫= fun _ =>
  mret result.

(** An unrevoked assignment of an active role with an administrator permission. *)
Definition _is_admin_actor (a : Authority.Db) (actor : string) : bool :=
  existsb (fun r =>
    String.eqb r.(a_account) actor && bool_decide (r.(revoked_at) = None) &&
    match a.(roles) !! r.(a_role) with
    | None => false
    | Some role =>
        String.eqb role.(row_status) "active" &&
        match a.(role_versions) !! (r.(a_role), role.(current_version)) with
        | None => false
        | Some v => existsb (fun p => mem p v.(v_permissions)) ["admin.accounts"; "admin.*"; "*"]
        end
    end) a.(assignments).

Definition cancel_approval (t : TerminateArgs) : tx Db AppendResult :=
  g ← _load_grant t.(t_approval_id);
  admin ← gets (fun db => _is_admin_actor db.(authority) t.(t_actor));
  guard_tx (negb (String.eqb g.(requested_by) t.(t_actor)) && negb admin) "APPROVAL_CANCEL_FORBIDDEN" ≫= fun _ =>
  _terminate "APPROVAL_CANCELLED" "cancel" t.

Definition revoke_approval (t : TerminateArgs) : tx Db AppendResult :=
  _terminate "APPROVAL_REVOKED" "revoke" t.

(** The ids the expiry selects, in order. *)
Definition due (now : Z) (workspace : option string) (r : GrantRow) : bool :=
  mem r.(c_status) [PENDING; APPROVED; PARTIALLY_CONSUMED] && (r.(c_expires_at) <=? now) &&
  match workspace with Some ws => String.eqb r.(c_workspace) ws | None => true end.

Definition due_ids (now : Z) (workspace : option string) (db : Db) : list string :=
  py_sorted String.leb (List.filter (fun e => due now workspace e.2) (map_to_list db.(grants))).*1.

(** One selected grant: it expires and the expiry is escalated. *)
Definition expire_one (escalated_to actor correlation aid : string) : tx Db string :=
  _terminate "APPROVAL_EXPIRED" "expire" {|
    t_approval_id := aid; t_actor := actor; t_correlation := correlation;
    t_idempotency_key := "expire:" +:+ aid; t_reason := "EXPIRED" |} ≫= fun _ =>
  g ← _load_grant aid;
  result ← _append g "APPROVAL_ESCALATED" actor correlation "escalate" ("escalate:" +:+ aid)
    [(lit "approval_id", jstr aid); (lit "escalated_to_role", jstr escalated_to)];
  _set_status aid EXPIRED result.(a_aggregate_seq) ≫= fun _ =>
  _project g EXPIRED result.(a_event_id) ≫= fun _ =>
  mret aid.

Fixpoint expire_each (escalated_to actor correlation : string) (ids : list string) : tx Db (list string) :=
  match ids with
  | [] => mret []
  | aid :: ids =>
      x ← expire_one escalated_to actor correlation aid;
      xs ← expire_each escalated_to actor correlation ids;
      mret (x :: xs)
  end.

(** [escalated_to] is the [escalation_role] of the policy files. *)
Definition expire_approvals (escalated_to : string) (now : Z) (actor correlation : string)
    (workspace : option string) : tx Db (list string) :=
  ids ← gets (due_ids now workspace);
  expire_each escalated_to actor correlation ids.

Record ConsumeResult := {
  cr_approval_id : string; cr_key : string; used_count : Z; cr_status : ApprovalStatus; cr_event_id : ustr;
  cr_replayed : bool }.

Definition insert_consumption (n : ConsumptionRow) : tx Db unit := fun db =>
  if existsb (fun r => String.eqb r.(n_approval_id) n.(n_approval_id) &&
       String.eqb r.(consumption_key) n.(consumption_key)) db.(consumptions)
  then Err "IntegrityError"
  else Ok (tt, with_consumptions (db.(consumptions) ++ [n]) db).

Record ConsumeArgs := {
  n_id : string; n_key : string; n_by : string; n_for : Subject; n_correlation : string }.

Definition consume_payload (n : ConsumeArgs) (count : Z) : list (ustr * json) := [
  (lit "approval_id", jstr n.(n_id)); (lit "consumption_key", jstr n.(n_key));
  (lit "used_count", JInt count); (lit "consumed_for_type", jstr n.(n_for).(subject_type));
  (lit "consumed_for_id", jstr n.(n_for).(subject_id))].

(** A use that was not recorded before. *)
Definition consume_new (now : Z) (n : ConsumeArgs) (g : Grant) : tx Db ConsumeResult :=
  guard_tx (bool_decide (g.(status) = CONSUMED)) "APPROVAL_EXHAUSTED" ≫= fun _ =>
  guard_tx (negb (mem g.(status) CONSUMABLE)) "APPROVAL_NOT_USABLE" ≫= fun _ =>
  guard_tx (negb ((g.(g_valid_from) <=? now) && (now <? g.(expires_at)))) "APPROVAL_NOT_USABLE" ≫= fun _ =>
  guard_tx (negb (bool_decide (n.(n_for) = g.(subject)))) "APPROVAL_SCOPE_MISMATCH" ≫= fun _ =>
  count ← gets (used n.(n_id));
  guard_tx (match g.(max_uses) with Some m => m <=? count | None => false end) "APPROVAL_EXHAUSTED" ≫= fun _ =>
  result ← _append g "APPROVAL_CONSUMED" n.(n_by) n.(n_correlation) "consume"
    (n.(n_id) +:+ ":" +:+ n.(n_key)) (consume_payload n (count + 1));
  insert_consumption {| n_approval_id := n.(n_id); consumption_key := n.(n_key); consumed_by := n.(n_by);
    consumed_for := n.(n_for); n_event_id := result.(a_event_id) |} ≫= fun _ =>
  let s := status_after_consumption (count + 1) g.(max_uses) in
  _set_status n.(n_id) s result.(a_aggregate_seq) ≫= fun _ =>
  _project g s result.(a_event_id) ≫= fun _ =>
  mret {| cr_approval_id := n.(n_id); cr_key := n.(n_key); used_count := count + 1; cr_status := s;
          cr_event_id := result.(a_event_id); cr_replayed := false |}.

Definition consume_approval (now : Z) (n : ConsumeArgs) : tx Db ConsumeResult :=
  g ← _load_grant n.(n_id);
  existing ← gets (fun db => find (fun r => String.eqb r.(n_approval_id) n.(n_id) &&
    String.eqb r.(consumption_key) n.(n_key)) db.(consumptions));
  match existing with
  | Some r =>
      count ← gets (used n.(n_id));
      mret {| cr_approval_id := n.(n_id); cr_key := n.(n_key); used_count := count;
              cr_status := g.(status); cr_event_id := r.(n_event_id); cr_replayed := true |}
  | None => consume_new now n g
  end.

(** * The projection, rebuilt from the Events *)

Definition payload_get (p : list (ustr * json)) (k : string) : option json :=
  snd <$> find (fun e => bool_decide (e.1 = lit k)) p.

(** [p[k]] written to a text column. *)
Definition payload_text (p : list (ustr * json)) (k : string) : res ustr :=
  match payload_get p k with Some (JStr s) => Ok s | Some _ => Err "DataError" | None => Err "KeyError" end.

Definition payload_int (p : list (ustr * json)) (k : string) : res Z :=
  match payload_get p k with Some (JInt z) => Ok z | Some _ => Err "DataError" | None => Err "KeyError" end.

Definition payload_int_opt (p : list (ustr * json)) (k : string) : res (option Z) :=
  match payload_get p k with
  | Some (JInt z) => Ok (Some z) | Some JNull | None => Ok None | Some _ => Err "DataError"
  end.

Definition is_type (e : Event) (t : string) : bool := bool_decide (e.(event_type) = lit t).

Definition event_status (e : Event) : option string :=
  snd <$> find (fun '(t, _) => is_type e t) [
    ("APPROVAL_GRANTED", "APPROVED"); ("APPROVAL_REJECTED", "REJECTED"); ("APPROVAL_CANCELLED", "CANCELLED");
    ("APPROVAL_EXPIRED", "EXPIRED"); ("APPROVAL_REVOKED", "REVOKED")].

Definition deciders_of (decs : list DecisionRow) (aid : ustr) : list string :=
  decided_by <$> List.filter (fun d => bool_decide (lit d.(d_approval_id) = aid)) decs.

Definition set_row (st : string) (n : Z) (by_ : list string) (event : ustr) (x : ProjectionRow) : ProjectionRow := {|
  x_workspace := x.(x_workspace); x_subject_type := x.(x_subject_type); x_subject_id := x.(x_subject_id);
  x_action := x.(x_action); x_risk := x.(x_risk); x_status := st; x_used_count := n;
  x_max_uses := x.(x_max_uses); x_expires_at := x.(x_expires_at); x_requested_by := x.(x_requested_by);
  x_decided_by := by_; x_last_event_id := event |}.

Definition consumed_row (n : Z) (by_ : list string) (event : ustr) (x : ProjectionRow) : ProjectionRow :=
  set_row (match x.(x_max_uses) with
           | Some m => if m <=? n then "CONSUMED" else "PARTIALLY_CONSUMED"
           | None => "PARTIALLY_CONSUMED"
           end) n by_ event x.

Definition requested_row (e : Event) : res ProjectionRow :=
  let p := e.(payload) in
  st ← payload_text p "subject_type"; si ← payload_text p "subject_id"; ac ← payload_text p "action";
  r ← payload_text p "risk"; m ← payload_int_opt p "max_uses"; ex ← payload_text p "expires_at";
  ex ← parse_ts ex;
  Ok {| x_workspace := e.(workspace_id); x_subject_type := st; x_subject_id := si; x_action := ac; x_risk := r;
        x_status := "PENDING"; x_used_count := 0; x_max_uses := m; x_expires_at := ex;
        x_requested_by := e.(actor_account_id); x_decided_by := []; x_last_event_id := e.(event_id) |}.

(** [INSERT ... ON CONFLICT DO NOTHING]. *)
Definition insert_row (aid : ustr) (row : ProjectionRow) (m : gmap ustr ProjectionRow) : gmap ustr ProjectionRow :=
  match m !! aid with Some _ => m | None => <[aid := row]> m end.

Definition apply (decs : list DecisionRow) (m : gmap ustr ProjectionRow) (e : Event)
    : res (gmap ustr ProjectionRow) :=
  let aid := e.(aggregate_id) in
  if is_type e "APPROVAL_REQUESTED" then
    row ← requested_row e;
    Ok (insert_row aid row m)
  else
    let by_ := deciders_of decs aid in
    if is_type e "APPROVAL_CONSUMED" then
      n ← payload_int e.(payload) "used_count";
      Ok (alter (consumed_row n by_ e.(event_id)) aid m)
    else if is_type e "APPROVAL_ESCALATED" then
      Ok (alter (fun x => set_row x.(x_status) x.(x_used_count) x.(x_decided_by) e.(event_id) x) aid m)
    else match event_status e with
    | Some s => Ok (alter (fun x => set_row s x.(x_used_count) by_ e.(event_id) x) aid m)
    | None => Ok m
    end.

Fixpoint apply_all (decs : list DecisionRow) (m : gmap ustr ProjectionRow) (evs : list Event)
    : res (gmap ustr ProjectionRow) :=
  match evs with
  | [] => Ok m
  | e :: evs => m ← apply decs m e; apply_all decs m evs
  end.

Definition of_workspace (workspace : option ustr) (ws : ustr) : bool :=
  match workspace with Some w => bool_decide (ws = w) | None => true end.

(** Delete the rows of the workspace and replay its approval Events; the row of
    [projection_checkpoints] is not modelled. *)
Definition rebuild_approvals (workspace : option ustr) : tx Db nat := fun db =>
  let kept := filter (fun e : ustr * ProjectionRow => of_workspace workspace e.2.(x_workspace) = false) db.(projection) in
  let evs := List.filter (fun e => bool_decide (e.(aggregate_type) = lit "approval") &&
    of_workspace workspace e.(workspace_id)) (el_log db.(store)) in
  m ← apply_all db.(decisions) kept evs;
  Ok (length evs, with_projection m db).

(** * Commands *)

(** [bus.require_permission] with the authorizer of the command bus. *)
Definition require_perm (c : PolicyCatalog) (audit_id : string) (now : Z) (ctx : CommandContext)
    (permission : string) (action channel : option string) : atx AuditEntry Db unit := fun db log =>
  let '(rows, r) := require_permission
    (Some (fun q => bus_require sha256 c audit_id db.(authority) now ctx.(ctx_principal).(p_account_id) q))
    (permission_request ctx permission action channel) [] in
  (log ++ (PolicyDeny <$> rows), r ≫= fun _ => Ok (tt, db)).

Definition handle_request (c : PolicyCatalog) (audit_id new_hex : string) (now : Z) (cmd : RequestArgs)
    (ctx : CommandContext) : atx AuditEntry Db RequestResult :=
  require_perm c audit_id now ctx "approval.request" (Some "api:approval_request") cmd.(a_channel) ≫= fun _ =>
  in_tx (request_approval c now new_hex {|
    a_workspace := ctx.(ctx_workspace_id); a_requested_by := ctx.(ctx_principal).(p_account_uuid);
    a_subject := cmd.(a_subject); a_action := cmd.(a_action); a_correlation := ctx.(ctx_correlation_id);
    a_idempotency_key := ctx.(ctx_idempotency_key); a_scope := cmd.(a_scope); a_risk := cmd.(a_risk);
    valid_for := cmd.(valid_for); a_max_uses := cmd.(a_max_uses);
    a_implementing_agent := cmd.(a_implementing_agent); a_channel := cmd.(a_channel);
    a_requires_human := cmd.(a_requires_human) |}).

Definition handle_decide (c : PolicyCatalog) (audit_id : string) (now auth_now : Z) (aid decision reason : string)
    (ctx : CommandContext) : atx AuditEntry Db DecisionResult :=
  decide_approval c audit_id now auth_now {|
    k_approval_id := aid; k_account := ctx.(ctx_principal).(p_account_id); k_decision := decision;
    k_fingerprint := ctx.(ctx_principal).(p_credential_fingerprint);
    k_reauth := ctx.(reauth_verified) || ctx.(ctx_principal).(mfa_verified);
    k_correlation := ctx.(ctx_correlation_id); k_idempotency_key := ctx.(ctx_idempotency_key);
    k_reason := reason |}.

Definition terminate_args (ctx : CommandContext) (aid reason : string) : TerminateArgs := {|
  t_approval_id := aid; t_actor := ctx.(ctx_principal).(p_account_uuid);
  t_correlation := ctx.(ctx_correlation_id); t_idempotency_key := ctx.(ctx_idempotency_key); t_reason := reason |}.

Definition handle_cancel (c : PolicyCatalog) (audit_id : string) (now : Z) (aid reason : string)
    (ctx : CommandContext) : atx AuditEntry Db AppendResult :=
  require_perm c audit_id now ctx "approval.request" (Some "api:approval_request") None ≫= fun _ =>
  in_tx (cancel_approval (terminate_args ctx aid reason)).

Definition handle_revoke (c : PolicyCatalog) (audit_id : string) (now : Z) (aid reason : string)
    (ctx : CommandContext) : atx AuditEntry Db AppendResult :=
  require_perm c audit_id now ctx "approval.revoke" (Some "api:approval_revoke") None ≫= fun _ =>
  in_tx (revoke_approval (terminate_args ctx aid reason)).

Definition handle_expire (c : PolicyCatalog) (audit_id escalated_to : string) (now : Z)
    (ctx : CommandContext) : atx AuditEntry Db (list string) :=
  require_perm c audit_id now ctx "approval.revoke" (Some "api:approval_revoke") None ≫= fun _ =>
  in_tx (expire_approvals escalated_to now ctx.(ctx_principal).(p_account_uuid) ctx.(ctx_correlation_id)
    (Some ctx.(ctx_workspace_id))).

Definition handle_consume (now : Z) (aid key : string) (for_ : Subject) (ctx : CommandContext)
    : atx AuditEntry Db ConsumeResult :=
  in_tx (consume_approval now {| n_id := aid; n_key := key; n_by := ctx.(ctx_principal).(p_account_uuid);
    n_for := for_; n_correlation := ctx.(ctx_correlation_id) |}).
End approvals.
