(* ===== verification/ApprovalHistory.v ===== *)
(** The life of approvals: the states a sequence of the operations of [Approvals]
    reaches, the invariant that ties a grant to the Events of its stream, to the
    two ledgers and to its projection, and what follows from it. *)

From S2P Require Import Prelude Defaults Canonical Policy Catalog Independence Authority.
From S2P Require Import HashChain EventStore Tx EventLog Bus Approvals.
Open Scope Z_scope.

(** * Histories *)

(** The Event types of a stream, the status and the number of uses they lead to. *)
Inductive history (mu : option Z) : list string -> ApprovalStatus -> Z -> Prop :=
| history_requested : history mu ["APPROVAL_REQUESTED"] PENDING 0
| history_moved ts s n t s' :
    history mu ts s n -> t <> "APPROVAL_CONSUMED" -> next_status s t = Ok s' -> history mu (ts ++ [t]) s' n
| history_consumed ts s n :
    history mu ts s n -> s ∈ CONSUMABLE -> (forall m, mu = Some m -> n < m) ->
    history mu (ts ++ ["APPROVAL_CONSUMED"]) (status_after_consumption (n + 1) mu) (n + 1)
| history_escalated ts n :
    history mu ts EXPIRED n -> history mu (ts ++ ["APPROVAL_ESCALATED"]) EXPIRED n.

(** The Event types that move a grant, with the status they lead to. *)
Definition moves : list (string * ApprovalStatus) := [
  ("APPROVAL_GRANTED", APPROVED); ("APPROVAL_REJECTED", REJECTED); ("APPROVAL_CANCELLED", CANCELLED);
  ("APPROVAL_EXPIRED", EXPIRED); ("APPROVAL_REVOKED", REVOKED)].

Lemma next_status_moves s t s' :
  t <> "APPROVAL_CONSUMED" -> next_status s t = Ok s' -> (t, s') ∈ moves /\ s ∉ TERMINAL.
Proof.
  unfold next_status. intros Ht. destruct (mem s TERMINAL) eqn:Hm; [done|]. apply mem_false in Hm.
  destruct (find _ TRANSITIONS) as [e|] eqn:Hf; [|done]. intros [= <-]. split; [|done].
  apply find_some in Hf as [Hin E%bool_decide_eq_true]. apply list_elem_of_In in Hin.
  unfold TRANSITIONS in Hin. unfold moves.
  repeat (apply elem_of_cons in Hin as [->|Hin]; [injection E as <- <-; cbn; first [done|set_solver]|]).
  by apply elem_of_nil in Hin.
Qed.

Lemma granted_from s s' : next_status s "APPROVAL_GRANTED" = Ok s' -> s = PENDING /\ s' = APPROVED.
Proof. destruct s; vm_compute; naive_solver. Qed.

Lemma not_terminal s : s ∉ TERMINAL <-> s = PENDING \/ s ∈ CONSUMABLE.
Proof. unfold TERMINAL, CONSUMABLE. destruct s; set_solver. Qed.

Lemma history_pending mu ts n : history mu ts PENDING n -> ts = ["APPROVAL_REQUESTED"] /\ n = 0.
Proof.
  intros H. inversion H as [|ts' s n' t s' _ Ht Hn|ts' s n' _ _ _ Hts Hs|]; subst; [done| |].
  - apply next_status_moves in Hn as [Hin _]; [|done]. unfold moves in Hin. set_solver.
  - revert Hs. unfold status_after_consumption. destruct mu; [destruct (_ <=? _)|]; done.
Qed.

(** A stream without a terminal Event has a live status. *)
Lemma history_ended mu ts s n t :
  history mu ts s n -> s ∉ TERMINAL -> t ∈ ts ->
  t ∈ ["APPROVAL_REQUESTED"; "APPROVAL_GRANTED"; "APPROVAL_CONSUMED"].
Proof.
  intros H. induction H as [|ts s n t' s' H IH Ht Hn|ts s n H IH Hs Hu|ts n H IH]; intros Hlive.
  - set_solver.
  - apply next_status_moves in Hn as [Hin Hs]; [|done].
    intros [Hts| ->%list_elem_of_singleton]%elem_of_app; [by apply IH|].
    unfold moves, TERMINAL in *. set_solver.
  - intros [Hts| ->%list_elem_of_singleton]%elem_of_app; [|set_solver]. apply IH; [|done].
    apply not_terminal. by right.
  - unfold TERMINAL in Hlive. set_solver.
Qed.

Lemma history_granted mu ts s n :
  history mu ts s n -> s ∈ CONSUMABLE \/ s = CONSUMED \/ 0 < n -> "APPROVAL_GRANTED" ∈ ts.
Proof.
  intros H. induction H as [|ts s n t s' H IH Ht Hn|ts s n H IH Hs Hu|ts n H IH]; rewrite ?elem_of_app.
  - unfold CONSUMABLE. intros [?|[?|?]]; [set_solver|done|lia].
  - apply next_status_moves in Hn as [Hin Hl]; [|done]. intros Hc.
    assert (t = "APPROVAL_GRANTED" \/ 0 < n) as [->|Hn]; [|right; set_solver|left; apply IH; auto].
    unfold moves, CONSUMABLE in *. destruct Hc as [Hc|[Hc|Hc]]; [left|left|by right]; set_solver.
  - intros _. left. apply IH. by left.
  - intros [Hc|[Hc|Hc]]; [unfold CONSUMABLE in Hc; set_solver|done|]. left. apply IH. auto.
Qed.

Lemma history_uses mu ts s n :
  (forall m, mu = Some m -> 0 < m) -> history mu ts s n ->
  0 <= n /\ (forall m, mu = Some m -> n <= m) /\ (s = CONSUMED <-> mu = Some n).
Proof.
  intros Hpos H. induction H as [|ts s n t s' H IH Ht Hn|ts s n H IH Hs Hu|ts n H IH].
  - split; [lia|]. split; [intros m Hm; specialize (Hpos m Hm); lia|].
    split; [done|]. intros Hm. specialize (Hpos _ Hm). lia.
  - destruct IH as (H0 & Hm & Hc). split; [done|]. split; [done|].
    apply next_status_moves in Hn as [Hin Hl]; [|done].
    assert (s' <> CONSUMED) by (unfold moves in Hin; set_solver).
    assert (s <> CONSUMED) by (unfold TERMINAL in Hl; set_solver). tauto.
  - destruct IH as (H0 & Hm & Hc). split; [lia|]. split; [intros m E; specialize (Hu m E); lia|].
    unfold status_after_consumption. destruct mu as [m|]; [|done]. specialize (Hu m eq_refl).
    destruct (Z.leb_spec m (n + 1)); split; intros E; try done; [f_equal; lia|injection E as ->; lia].
  - destruct IH as (H0 & Hm & Hc). split; [done|]. split; [done|]. split; [done|]. by intros E%Hc.
Qed.

(** The last Event of a history, read backwards. *)
Definition last_step (mu : option Z) (t : string) (s0 : ApprovalStatus) (n0 : Z) (s : ApprovalStatus) (n : Z) : Prop :=
  (t <> "APPROVAL_CONSUMED" /\ next_status s0 t = Ok s /\ n = n0) \/
  (t = "APPROVAL_CONSUMED" /\ s0 ∈ CONSUMABLE /\ s = status_after_consumption (n0 + 1) mu /\ n = n0 + 1) \/
  (t = "APPROVAL_ESCALATED" /\ s0 = EXPIRED /\ s = EXPIRED /\ n = n0).

Lemma history_snoc mu ts t s n :
  history mu (ts ++ [t]) s n ->
  (ts = [] /\ t = "APPROVAL_REQUESTED" /\ s = PENDING /\ n = 0) \/
  exists s0 n0, history mu ts s0 n0 /\ last_step mu t s0 n0 s n.
Proof.
  intros H. inversion H as [E|ts0 s0 n0 t0 s1 H0 Ht Hn E|ts0 s0 n0 H0 Hs Hu E|ts0 n0 H0 E].
  - left. destruct ts as [|x [|y ts]]; by simplify_eq/=.
  - apply app_inj_tail in E as [-> ->]. right. exists s0, n. split; [done|]. by left.
  - apply app_inj_tail in E as [-> <-]. right. exists s0, n0. split; [done|]. right. by left.
  - apply app_inj_tail in E as [-> <-]. right. exists EXPIRED, n. split; [done|]. right. by right.
Qed.

Lemma history_nonempty mu s n : ~ history mu [] s n.
Proof. intros H. inversion H as [|ts ? ? ? ? _ _ _ E|ts ? ? _ _ _ E|ts ? _ E]; by destruct ts. Qed.

(** From a terminal status nothing moves. *)
Lemma last_step_terminal mu t s0 n0 s n : last_step mu t s0 n0 s n -> s0 ∈ TERMINAL -> s = s0 /\ n = n0.
Proof.
  intros [(Ht & Hn & ->)|[(_ & Hc & _)|(_ & -> & -> & ->)]] Hterm; [| |done].
  - by apply next_status_moves in Hn as [_ Hl].
  - exfalso. revert Hterm. apply not_terminal. by right.
Qed.

Lemma last_step_det mu t s0 n0 s n s' n' :
  last_step mu t s0 n0 s n -> last_step mu t s0 n0 s' n' -> s = s' /\ n = n'.
Proof.
  assert (forall s1, t = "APPROVAL_ESCALATED" -> next_status EXPIRED t = Ok s1 -> False) as He by (by intros s1 ->).
  unfold last_step. intros H1 H2. destruct H1 as [(?&?&?)|[(?&?&?&?)|(?&?&?&?)]];
    destruct H2 as [(?&?&?)|[(?&?&?&?)|(?&?&?&?)]]; subst; try done; split; try congruence;
    exfalso; by eapply He.
Qed.

Lemma history_requested_only mu ts s n : history mu (ts ++ ["APPROVAL_REQUESTED"]) s n -> ts = [].
Proof.
  intros [[-> _]|(s0 & n0 & _ & [(_ & Hn & _)|[[[=] _]|[[=] _]]])]%history_snoc; [done|].
  exfalso. destruct s0; vm_compute in Hn; discriminate.
Qed.

Lemma history_det mu ts s n s' n' : history mu ts s n -> history mu ts s' n' -> s = s' /\ n = n'.
Proof.
  revert s n s' n'. induction ts as [|t ts IH] using rev_ind; intros s n s' n' H1 H2; [by apply history_nonempty in H1|].
  destruct (decide (t = "APPROVAL_REQUESTED")) as [->|Ht].
  { pose proof (history_requested_only _ _ _ _ H1) as ->.
    apply history_snoc in H1 as [(_ & _ & -> & ->)|(? & ? & H1 & _)]; [|by apply history_nonempty in H1].
    apply history_snoc in H2 as [(_ & _ & -> & ->)|(? & ? & H2 & _)]; [done|by apply history_nonempty in H2]. }
  apply history_snoc in H1 as [(_ & ? & _)|(s0 & n0 & H1 & L1)]; [done|].
  apply history_snoc in H2 as [(_ & ? & _)|(s1 & n1 & H2 & L2)]; [done|].
  destruct (IH _ _ _ _ H1 H2) as [-> ->]. by eapply last_step_det.
Qed.

(** A terminal history only grows by Events that change nothing. *)
Lemma history_extend mu ts ts' s n s' n' :
  history mu ts s n -> s ∈ TERMINAL -> history mu (ts ++ ts') s' n' -> s' = s /\ n' = n.
Proof.
  intros H Hs. revert s' n'. induction ts' as [|t ts' IH] using rev_ind; intros s' n' H'.
  { rewrite app_nil_r in H'. destruct (history_det _ _ _ _ _ _ H H') as [-> ->]. done. }
  rewrite app_assoc in H'. apply history_snoc in H' as [(E & _)|(s0 & n0 & H0 & L)].
  { apply app_eq_nil in E as [-> _]. by apply history_nonempty in H. }
  destruct (IH _ _ H0) as [-> ->]. by apply (last_step_terminal _ _ _ _ _ _ L).
Qed.

(** * The invariant *)

Definition high_risk (risk : string) : Prop := risk ∈ ["HIGH"; "CRITICAL"].

(** What the ledger shows of a decision on a grant. *)
Definition decider_ok (row : GrantRow) (d : DecisionRow) : Prop :=
  d.(decided_by) <> row.(c_requested_by) /\ row.(c_implementing_agent) <> Some d.(decided_by) /\
  (high_risk row.(c_risk) -> d.(d_reauth_verified) = true).

(** The projection row of a grant with its ledgers and the id of its last Event. *)
Definition live_row (row : GrantRow) (decs : list DecisionRow) (cons : list ConsumptionRow) (event : ustr)
    : ProjectionRow := {|
  x_workspace := lit row.(c_workspace); x_subject_type := lit row.(c_subject_type);
  x_subject_id := lit row.(c_subject_id); x_action := lit row.(c_action); x_risk := lit row.(c_risk);
  x_status := status_value row.(c_status); x_used_count := Z.of_nat (length cons);
  x_max_uses := row.(c_max_uses); x_expires_at := row.(c_expires_at);
  x_requested_by := lit row.(c_requested_by); x_decided_by := decided_by <$> decs;
  x_last_event_id := event |}.

Definition use_key (aid key : string) : string := aid +:+ ":" +:+ key.

Record grant_ok (aid : string) (row : GrantRow) (evs : list Event) (decs : list DecisionRow)
    (cons : list ConsumptionRow) (xo : option ProjectionRow) : Prop := {
  go_id : row.(c_approval_id) = aid;
  go_positive m : row.(c_max_uses) = Some m -> 0 < m;
  go_history : exists ts, event_type <$> evs = lit <$> ts /\
    history row.(c_max_uses) ts row.(c_status) (Z.of_nat (length cons)) /\
    ("APPROVAL_GRANTED" ∈ ts -> row.(c_quorum_required) <= Z.of_nat (length decs));
  go_seq : row.(c_aggregate_seq) = Z.of_nat (length evs);
  go_keys e : e ∈ evs -> e.(event_type) = lit "APPROVAL_CONSUMED" ->
    exists n, n ∈ cons /\ e.(idempotency_key) = lit (use_key aid n.(consumption_key));
  go_used_once : NoDup (consumption_key <$> cons);
  go_decided_once : NoDup (decided_by <$> decs);
  go_deciders : Forall (decider_ok row) decs;
  go_approved : row.(c_status) <> REJECTED -> Forall (fun d => d.(d_decision) = "APPROVE") decs;
  go_live : exists e, last evs = Some e /\ xo = Some (live_row row decs cons e.(event_id)) }.

(** What an Event does to a grant: the type, key and payload of its request. *)
Variant event_step (aid : string) (row : GrantRow) (evs : list Event) (cons : list ConsumptionRow)
    : string -> string -> list (ustr * json) -> ApprovalStatus -> list ConsumptionRow -> Prop :=
| step_move t key body s' :
    t <> "APPROVAL_CONSUMED" -> next_status row.(c_status) t = Ok s' ->
    event_step aid row evs cons t key body s' []
| step_consume n body :
    row.(c_status) ∈ CONSUMABLE -> (forall m, row.(c_max_uses) = Some m -> Z.of_nat (length cons) < m) ->
    payload_int body "used_count" = Ok (Z.of_nat (length cons) + 1) ->
    n.(consumption_key) ∉ consumption_key <$> cons ->
    event_step aid row evs cons "APPROVAL_CONSUMED" (use_key aid n.(consumption_key)) body
      (status_after_consumption (Z.of_nat (length cons) + 1) row.(c_max_uses)) [n]
| step_escalate key body :
    row.(c_status) = EXPIRED -> lit "APPROVAL_ESCALATED" ∉ event_type <$> evs ->
    event_step aid row evs cons "APPROVAL_ESCALATED" key body EXPIRED [].

(** The decisions recorded with the step. *)
Record decision_step (row : GrantRow) (decs : list DecisionRow) (s' : ApprovalStatus) (ds : list DecisionRow)
    : Prop := {
  ds_once : NoDup (decided_by <$> (decs ++ ds));
  ds_deciders : Forall (decider_ok row) ds;
  ds_approve : s' <> REJECTED -> Forall (fun d => d.(d_decision) = "APPROVE") ds;
  ds_quorum : s' = APPROVED -> row.(c_quorum_required) <= Z.of_nat (length (decs ++ ds)) }.

Lemma event_step_history aid row evs cons t key body s' ns ts :
  event_step aid row evs cons t key body s' ns ->
  history row.(c_max_uses) ts row.(c_status) (Z.of_nat (length cons)) ->
  history row.(c_max_uses) (ts ++ [t]) s' (Z.of_nat (length (cons ++ ns))).
Proof.
  intros Hs H. destruct Hs as [t key body s' Ht Hn|n body Hc Hm|key body He]; rewrite length_app; cbn [length].
  - rewrite Nat.add_0_r. by eapply history_moved.
  - replace (Z.of_nat (length cons + 1)) with (Z.of_nat (length cons) + 1) by lia. by eapply history_consumed.
  - rewrite Nat.add_0_r. rewrite He in H. by apply history_escalated.
Qed.

Lemma event_step_granted aid row evs cons key body s' ns :
  event_step aid row evs cons "APPROVAL_GRANTED" key body s' ns -> s' = APPROVED.
Proof.
  intros Hs. inversion Hs as [? ? ? ? Ht Hn| |]; subst. by apply granted_from in Hn as [_ ->].
Qed.

Lemma event_step_rejected aid row evs cons t key body s' ns :
  event_step aid row evs cons t key body s' ns -> row.(c_status) <> REJECTED.
Proof.
  intros [? ? ? ? Ht Hn|? ? Hc|? ? He] E; [|rewrite E in Hc; unfold CONSUMABLE in Hc; set_solver|congruence].
  apply next_status_moves in Hn as [_ Hl]; [|done]. rewrite E in Hl. apply Hl. unfold TERMINAL. set_solver.
Qed.

Lemma event_types_lit (evs : list Event) ts t :
  event_type <$> evs = lit <$> ts -> lit t ∈ event_type <$> evs -> t ∈ ts.
Proof. intros -> (t' & E & H)%list_elem_of_fmap. by apply lit_inj in E as ->. Qed.

Lemma append_inj_r (a s t : string) : a +:+ s = a +:+ t -> s = t.
Proof. induction a as [|c a IH]; [done|]. intros [= E]. by apply IH. Qed.

(** The Event of a step was not recorded before. *)
Lemma event_step_fresh aid row evs decs cons xo t key body s' ns e :
  grant_ok aid row evs decs cons xo -> event_step aid row evs cons t key body s' ns ->
  e ∈ evs -> e.(event_type) = lit t -> e.(idempotency_key) = lit key -> False.
Proof.
  intros Hg Hs He Ht Hk. destruct (go_history _ _ _ _ _ _ Hg) as (ts & Hts & Hh & _).
  destruct Hs as [t key body s' Hc Hn|n body Hc Hm Hb Hfresh|key body Hx Hfresh].
  - pose proof (next_status_moves _ _ _ Hc Hn) as [Hin Hl].
    assert (t ∈ ts) as Hi by (apply (event_types_lit evs); [done|]; rewrite <- Ht; by apply list_elem_of_fmap_2).
    pose proof (history_ended _ _ _ _ t Hh Hl Hi) as Hlive.
    destruct (decide (t = "APPROVAL_GRANTED")) as [->|]; [|unfold moves in Hin; set_solver].
    apply granted_from in Hn as [Hp _]. rewrite Hp in Hh. apply history_pending in Hh as [-> _]. set_solver.
  - destruct (go_keys _ _ _ _ _ _ Hg e He Ht) as (n' & Hn' & E). rewrite E in Hk.
    apply lit_inj, append_inj_r, append_inj_r in Hk. apply Hfresh. rewrite <- Hk.
    by apply list_elem_of_fmap_2.
  - apply Hfresh. rewrite <- Ht. by apply list_elem_of_fmap_2.
Qed.

Lemma grant_ok_event aid row evs decs cons xo t key body s' ns ds e :
  grant_ok aid row evs decs cons xo -> event_step aid row evs cons t key body s' ns ->
  decision_step row decs s' ds -> e.(event_type) = lit t -> e.(idempotency_key) = lit key ->
  let row' := with_status s' (Z.of_nat (length evs) + 1) row in
  grant_ok aid row' (evs ++ [e]) (decs ++ ds) (cons ++ ns) (Some (live_row row' (decs ++ ds) (cons ++ ns) e.(event_id))).
Proof.
  intros Hg Hs Hd Ht Hk row'. destruct (go_history _ _ _ _ _ _ Hg) as (ts & Hts & Hh & Hq). split.
  - apply Hg.
  - apply Hg.
  - exists (ts ++ [t]). split_and!.
    + rewrite !fmap_app, Hts. cbn. by rewrite Ht.
    + exact (event_step_history _ _ _ _ _ _ _ _ _ _ Hs Hh).
    + intros [Hi|Et%list_elem_of_singleton]%elem_of_app.
      * specialize (Hq Hi). change (c_quorum_required row') with (c_quorum_required row). rewrite length_app. lia.
      * rewrite <- Et in Hs. apply Hd. exact (event_step_granted _ _ _ _ _ _ _ _ Hs).
  - cbn. rewrite length_app. cbn. lia.
  - intros e' [He|He%list_elem_of_singleton]%elem_of_app Ht'.
    + destruct (go_keys _ _ _ _ _ _ Hg e' He Ht') as (n & Hn & E). exists n.
      split; [apply elem_of_app; by left|done].
    + subst e'. rewrite Ht in Ht'. apply lit_inj in Ht'. subst t. inversion Hs; subst; [done|].
      eexists. split; [apply elem_of_app; right; by left|done].
  - destruct Hs; rewrite ?app_nil_r; try apply Hg. rewrite fmap_app. apply NoDup_app. split_and!.
    + apply Hg.
    + by intros x Hx ->%list_elem_of_singleton.
    + apply NoDup_singleton.
  - apply Hd.
  - apply Forall_app. split; [apply Hg|apply Hd].
  - intros Hne. apply Forall_app. split; [|by apply Hd]. apply (go_approved _ _ _ _ _ _ Hg).
    exact (event_step_rejected _ _ _ _ _ _ _ _ _ Hs).
  - exists e. split; [apply last_snoc|done].
Qed.

(** An approval short of the quorum: a ledger row without an Event. *)
Lemma grant_ok_partial aid row evs decs cons xo d e :
  grant_ok aid row evs decs cons xo -> row.(c_status) = PENDING -> decision_step row decs PENDING [d] ->
  last evs = Some e ->
  grant_ok aid row evs (decs ++ [d]) cons (Some (live_row row (decs ++ [d]) cons e.(event_id))).
Proof.
  intros Hg Hp Hd He. destruct (go_history _ _ _ _ _ _ Hg) as (ts & Hts & Hh & Hq). split; try apply Hg.
  - exists ts. split_and!; [done..|]. intros Hi. specialize (Hq Hi). rewrite length_app. lia.
  - apply Hd.
  - apply Forall_app. split; [apply Hg|apply Hd].
  - intros Hne. apply Forall_app. split; [by apply (go_approved _ _ _ _ _ _ Hg)|]. apply Hd. done.
  - by exists e.
Qed.

(** * The rebuilt projection *)

(** The columns of [snapshot_hash], without [decided_by]. *)
Definition columns (x : ProjectionRow) :=
  (x.(x_workspace), x.(x_subject_type), x.(x_subject_id), x.(x_action), x.(x_risk), x.(x_status),
   x.(x_used_count), x.(x_max_uses), x.(x_requested_by), x.(x_last_event_id)).

Definition rebuilt (decs : list DecisionRow) (k : ustr) (x y : ProjectionRow) : Prop :=
  columns y = columns x /\
  y.(x_decided_by) = if String.eqb x.(x_status) "PENDING" then [] else deciders_of decs k.

Lemma apply_all_app parse decs m l1 l2 :
  apply_all parse decs m (l1 ++ l2) = (m' ← apply_all parse decs m l1; apply_all parse decs m' l2).
Proof.
  revert m. induction l1 as [|e l1 IH]; intros m; cbn; [done|].
  destruct (apply parse decs m e) as [m'|]; [apply IH|done].
Qed.

Lemma is_type_lit e t t' : e.(event_type) = lit t -> is_type e t' = String.eqb t t'.
Proof.
  intros He. unfold is_type. rewrite He. destruct (String.eqb_spec t t') as [->|Hne].
  - by rewrite bool_decide_eq_true_2.
  - rewrite bool_decide_eq_false_2; [done|]. by intros E%lit_inj.
Qed.

Lemma event_status_moves e t s' :
  e.(event_type) = lit t -> (t, s') ∈ moves -> event_status e = Some (status_value s') /\ t <> "APPROVAL_REQUESTED" /\
  t <> "APPROVAL_CONSUMED" /\ t <> "APPROVAL_ESCALATED" /\ s' <> PENDING.
Proof.
  intros He Hin. unfold event_status. cbn. rewrite !(is_type_lit e t) by done. unfold moves in Hin.
  repeat (apply elem_of_cons in Hin as [[= -> ->]|Hin]; [vm_compute; by repeat split|]).
  by apply elem_of_nil in Hin.
Qed.

Lemma status_value_pending s : String.eqb (status_value s) "PENDING" = bool_decide (s = PENDING).
Proof. by destruct s. Qed.

Lemma alter_some `{Countable K} {A} (f : A -> A) (m : gmap K A) k x : m !! k = Some x -> alter f k m = <[k := f x]> m.
Proof.
  intros Hx. apply map_eq. intros j. destruct (decide (j = k)) as [->|Hj].
  - by rewrite lookup_alter_eq, lookup_insert_eq, Hx.
  - by rewrite lookup_alter_ne, lookup_insert_ne.
Qed.

(** Applying the Event of a step to a rebuilt row gives a rebuilt row. *)
Lemma apply_step parse decs m aid row evs decs0 cons t key body s' ns ds e e0 y :
  event_step aid row evs cons t key body s' ns -> e.(event_type) = lit t -> e.(payload) = body ->
  e.(aggregate_id) = lit aid -> m !! lit aid = Some y ->
  rebuilt decs (lit aid) (live_row row decs0 cons e0) y ->
  let row' := with_status s' (Z.of_nat (length evs) + 1) row in
  exists y', apply parse decs m e = Ok (<[lit aid := y']> m) /\
    rebuilt decs (lit aid) (live_row row' (decs0 ++ ds) (cons ++ ns) e.(event_id)) y'.
Proof.
  intros Hs He Hb Hag Hm [Hc Hd] row'.
  assert (forall f, alter f (lit aid) m = <[lit aid := f y]> m) as Hal by (intros f; by apply alter_some).
  unfold apply. rewrite Hag, !(is_type_lit e t) by done. unfold rebuilt. cbn [x_status live_row] in *.
  rewrite status_value_pending in *.
  unfold columns, live_row in Hc. cbn in Hc. injection Hc as C1 C2 C3 C4 C5 C6 C7 C8 C9 C10.
  destruct Hs as [t key body s' Ht Hn|n body Hcs Hmx Hu Hfresh|key body Hx Hfresh].
  - apply next_status_moves in Hn as [Hin _]; [|done].
    destruct (event_status_moves e t s' He Hin) as (-> & N1 & N2 & N3 & N4).
    rewrite !(proj2 (String.eqb_neq _ _)) by done. rewrite Hal. eexists. split; [done|].
    unfold columns, live_row, row'. cbn. rewrite app_nil_r, C1, C2, C3, C4, C5, C7, C8, C9.
    rewrite bool_decide_eq_false_2 by done. done.
  - change (String.eqb "APPROVAL_CONSUMED" "APPROVAL_REQUESTED") with false.
    change (String.eqb "APPROVAL_CONSUMED" "APPROVAL_CONSUMED") with true. cbn match.
    rewrite Hb, Hu. cbn. rewrite Hal. eexists. split; [done|].
    unfold columns, live_row, row', consumed_row. cbn.
    rewrite C1, C2, C3, C4, C5, C8, C9, length_app, Nat2Z.inj_add. unfold status_after_consumption. cbn.
    destruct (c_max_uses row) as [mx|]; [destruct (mx <=? _)|]; done.
  - change (String.eqb "APPROVAL_ESCALATED" "APPROVAL_REQUESTED") with false.
    change (String.eqb "APPROVAL_ESCALATED" "APPROVAL_CONSUMED") with false.
    change (String.eqb "APPROVAL_ESCALATED" "APPROVAL_ESCALATED") with true. cbn match.
    rewrite Hal. eexists. split; [done|]. unfold columns, live_row, row'. cbn.
    rewrite app_nil_r, C1, C2, C3, C4, C5, C6, C7, C8, C9, Hx, Hd, Hx. done.
Qed.

(** * Who may decide *)

Section eligibility.
Context {ES : Type} {ELI : EventLogI ES} (sha256 : list N -> ustr).
Context (c : PolicyCatalog) (audit_id : string) (db : Approvals.Db (ES := ES)) (account : string) (g : Grant).
Context (prior : gset string) (reauth : bool) (now auth_now : Z) (correlation : string).

Definition same_person (a b : string) : Prop :=
  let graph := alias_graph db.(aliases) g.(g_workspace) in effective_principal a graph = effective_principal b graph.

(** A role the authorization matched covers the risk of the grant. *)
Definition covered (p : PrincipalInfo) (a : Authorization) : Prop := exists r i j,
  r ∈ effective_roles db.(authority) p now /\ r.(role_id) ∈ a.(auth_roles) /\
  risk_index g.(g_risk) = Ok i /\ risk_index r.(constraints).(max_risk) = Ok j /\ (i <= j)%nat.

Record may_decide (p : PrincipalInfo) : Prop := {
  md_principal : principal db.(authority) account = Some p;
  md_active : p.(principal_status) = "ACTIVE";
  md_not_requester : ~ same_person p.(account_uuid) g.(requested_by);
  md_not_agent agent : g.(implementing_agent_account) = Some agent -> ~ same_person p.(account_uuid) agent;
  md_first : p.(account_uuid) ∉ prior;
  md_human : human_only c g.(g_risk) = Ok true \/ g.(g_requires_human) = true -> p.(account_type) = "human";
  md_authorized : exists rows a, authorize sha256 c audit_id db.(authority) auth_now account
      (decide_request g correlation) [] = (rows, Ok a) /\ a.(is_allowed) = true /\ covered p a;
  md_reauth : high_risk g.(g_risk) -> reauth = true }.

Lemma high_risk_index r i h : risk_index r = Ok i -> risk_index "HIGH" = Ok h -> (h <=? i)%nat = bool_decide (high_risk r).
Proof.
  intros Hr [= <-]. assert (r ∈ RISK_ORDER) as Hin by (apply risk_index_ok; by exists i). unfold RISK_ORDER in Hin.
  repeat (apply elem_of_cons in Hin as [->|Hin]; [injection Hr as <-; vm_compute; done|]).
  by apply elem_of_nil in Hin.
Qed.

Lemma covering_spec m idx rs l r :
  covering m idx rs = Ok l ->
  r ∈ l <-> r ∈ rs /\ r.(role_id) ∈ m /\ exists j, risk_index r.(constraints).(max_risk) = Ok j /\ (idx <= j)%nat.
Proof.
  revert l. induction rs as [|x rs IH]; cbn [covering]; intros l.
  { intros [= <-]. rewrite elem_of_nil. naive_solver. }
  intros (keep & Hk & (rest & Hrest & [= <-])%res_bind_ok)%res_bind_ok. specialize (IH rest Hrest).
  assert (keep = true <-> x.(role_id) ∈ m /\ exists j, risk_index x.(constraints).(max_risk) = Ok j /\ (idx <= j)%nat) as Hkeep.
  { destruct (mem _ _) eqn:Em.
    - apply mem_spec in Em. apply res_bind_ok in Hk as (j & Hj & [= <-]). rewrite Nat.leb_le.
      split; [by eauto|]. intros (_ & j' & Hj' & ?). congruence.
    - apply mem_false in Em. injection Hk as <-. split; [done|]. by intros [? _]. }
  destruct keep; rewrite !elem_of_cons, ?IH.
  - destruct Hkeep as [Hx _]. specialize (Hx eq_refl). naive_solver.
  - destruct Hkeep as [_ Hx]. split; [naive_solver|]. intros ([->|Hr] & Hm & Hj); [|by repeat split].
    by discriminate Hx.
Qed.

Definition decided (log log' : list AuditEntry) (e : Eligibility) : Prop :=
  (e.(eligible) = true <-> exists p, may_decide p) /\
  (if e.(eligible) then log' = log /\ (forall p, may_decide p -> e.(approver) = Some p)
   else exists rows, log' = log ++ rows /\ rows <> []).

Lemma refused (log log' : list AuditEntry) (p : option PrincipalInfo) code rows :
  (forall p, ~ may_decide p) -> log' = log ++ rows -> rows <> [] ->
  decided log log' {| eligible := false; e_code := code; approver := p |}.
Proof. intros Hno -> Hr. split; cbn; [|by exists rows]. split; [done|]. intros [q Hq]. by destruct (Hno q). Qed.

Lemma check_covering_decided p a rows log log' e :
  (forall q, may_decide q -> q = p) ->
  (covered p a -> (high_risk g.(g_risk) -> reauth = true) -> may_decide p) ->
  authorize sha256 c audit_id db.(authority) auth_now account (decide_request g correlation) [] = (rows, Ok a) ->
  check_covering db p account g a reauth now log = (log', Ok e) -> decided log log' e.
Proof.
  intros Huniq Hmay Ha. unfold check_covering. destruct (_ ≫= _) as [[rs high]|] eqn:E; [|done].
  apply res_bind_ok in E as (i & Hi & E). apply res_bind_ok in E as (rs' & Hc & E).
  apply res_bind_ok in E as (h & Hh & [= -> <-]). rewrite (high_risk_index _ i h Hi Hh).
  assert (rs <> [] <-> covered p a) as Hcov.
  { unfold covered. split.
    - destruct rs as [|r rs]; [done|]. intros _. destruct (proj1 (covering_spec _ _ _ _ r Hc)) as (H1 & H2 & j & H3 & H4); [by left|].
      by exists r, i, j.
    - intros (r & i' & j & H1 & H2 & H3 & H4 & H5) ->. rewrite Hi in H3. injection H3 as <-.
      apply (not_elem_of_nil r). apply (covering_spec _ _ _ _ r Hc). eauto. }
  assert (forall q, may_decide q -> covered p a) as Hneed.
  { intros q Hq. destruct (md_authorized q Hq) as (rows' & a' & Ha' & _ & Hcv). rewrite (Huniq q Hq) in Hcv.
    rewrite Ha in Ha'. by injection Ha' as <- <-. }
  destruct rs as [|r rs].
  { intros [= <- <-]. eapply refused; [|done|done]. intros q Hq. by apply Hneed, Hcov in Hq. }
  assert (covered p a) as Hcv by by apply Hcov.
  assert (forall log' e, (log, Ok {| eligible := true; e_code := "ELIGIBLE"; approver := Some p |}) = (log', Ok e) ->
    may_decide p -> decided log log' e) as Hyes.
  { intros l' e' [= <- <-] Hm. split; cbn; [split; [by exists p|done]|]. split; [done|].
    intros q Hq. by rewrite (Huniq q Hq). }
  case_bool_decide as Hhigh; [destruct reauth eqn:Er; cbn [negb]|]; intros H.
  - apply (Hyes _ _ H). by apply Hmay.
  - injection H as <- <-. eapply refused; [|done|done]. intros q Hq. pose proof (md_reauth q Hq Hhigh). congruence.
  - apply (Hyes _ _ H). by apply Hmay.
Qed.

Lemma check_eligibility_decided log log' e :
  check_eligibility sha256 c audit_id db account g prior reauth now auth_now correlation log = (log', Ok e) ->
  decided log log' e.
Proof.
  unfold check_eligibility. destruct (principal _ account) as [p|] eqn:Hp.
  2: { intros [= <- <-]. eapply refused; [|done|done]. intros q Hq. by rewrite (md_principal q Hq) in Hp. }
  assert (forall q, may_decide q -> q = p) as Huniq by (intros q Hq; pose proof (md_principal q Hq); congruence).
  assert (forall code p', (may_decide p -> False) ->
    deny p' account g code log = (log', Ok e) -> decided log log' e) as Hno.
  { intros code p' Hn [= <- <-]. eapply refused; [|done|done]. intros q Hq. pose proof (Huniq q Hq) as ->. by apply Hn. }
  destruct (String.eqb_spec p.(principal_status) "ACTIVE") as [Hact|Hact]; cbn [negb];
    [|apply Hno; intros H; by apply Hact, H].
  cbn zeta. destruct (_ || _) eqn:Hself.
  { apply Hno. intros H. apply orb_true_iff in Hself as [E|E].
    - apply String.eqb_eq in E. by apply (md_not_requester p H).
    - unfold _same_principal in E. destruct (implementing_agent_account g) as [ag|] eqn:Hag; [|done].
      apply String.eqb_eq in E. by apply (md_not_agent p H ag). }
  apply orb_false_iff in Hself as [Hs1 Hs2]. apply String.eqb_neq in Hs1.
  case_bool_decide as Hprior; [apply Hno; intros H; by apply (md_first p H)|].
  destruct (human_only c g.(g_risk)) as [h|] eqn:Hh; [|done].
  destruct ((h || _) && _) eqn:Hhum.
  { apply andb_true_iff in Hhum as [H1 H2%negb_true_iff%String.eqb_neq]. apply Hno. intros H. apply H2, H.
    apply orb_true_iff in H1 as [->|H1]; by auto. }
  destruct (authorize _ _ _ _ _ _ _ _) as [rows [a|]] eqn:Ha; [|done].
  pose proof (authorize_log _ _ _ _ _ _ _ _ _ _ Ha) as Hlog.
  destruct (is_allowed a) eqn:Hal; cbn [negb].
  - subst rows. cbn [fmap list_fmap]. rewrite app_nil_r. apply check_covering_decided with []; try done.
    intros Hcv Hre. split; try done.
    + intros ag Hag E. unfold _same_principal in Hs2. rewrite Hag in Hs2. by apply String.eqb_neq in Hs2.
    + intros Hor. apply andb_false_iff in Hhum as [H1|H1].
      * apply orb_false_iff in H1 as [-> H1]. destruct Hor; congruence.
      * by apply negb_false_iff, String.eqb_eq in H1.
    + by exists [], a.
  - intros [= <- <-]. destruct Hlog as [r ->]. eapply refused; [|done|done].
    intros q Hq. destruct (md_authorized q Hq) as (rows' & a' & Ha' & Hal' & _). rewrite Ha in Ha'.
    injection Ha' as _ <-. congruence.
Qed.

Lemma covering_total m idx rs :
  Forall (fun r => r.(constraints).(max_risk) ∈ RISK_ORDER) rs -> exists l, covering m idx rs = Ok l.
Proof.
  induction 1 as [|r rs Hr _ [l IH]]; cbn [covering]; [by eexists|]. rewrite IH.
  destruct (mem _ _); [|by eexists]. apply risk_index_ok in Hr as [i ->]. by eexists.
Qed.

(** With known risks every check has an answer. *)
Lemma check_eligibility_total raw log :
  schema_valid raw -> build raw = Ok c -> risks_known db.(authority) -> g.(g_risk) ∈ RISK_ORDER ->
  exists log' e, check_eligibility sha256 c audit_id db account g prior reauth now auth_now correlation log =
    (log', Ok e).
Proof.
  intros Hs Hb Hk Hr. unfold check_eligibility. cbn zeta. destruct (principal _ account) as [p|]; [|by eexists _, _].
  destruct (negb _); [by eexists _, _|]. destruct (_ || _); [by eexists _, _|].
  case_bool_decide; [by eexists _, _|].
  pose proof Hb as Hb'. apply build_spec in Hb' as [Hc _]. subst raw.
  destruct (human_only_ok c g.(g_risk) Hs Hr) as [h ->]. destruct ((h || _) && _); [by eexists _, _|].
  destruct (authorize_decided sha256 c c audit_id db.(authority) auth_now account (decide_request g correlation) []
    Hs Hb Hk) as (rca & _ & rows & a & -> & _).
  destruct (negb _); [by eexists _, _|]. unfold check_covering.
  pose proof Hr as [i Hi]%risk_index_ok. rewrite Hi. cbn [mbind res_bind].
  destruct (covering_total a.(auth_roles) i (effective_roles db.(authority) p now)) as [l Hl].
  { rewrite Forall_forall. intros r Hh%effective_roles_elem. by eapply held_risk. }
  rewrite Hl. cbn. destruct l; [by eexists _, _|]. case_match; [destruct reauth|]; by eexists _, _.
Qed.
End eligibility.

(** * Reachable databases *)

Lemma decisions_of_elem aid l d : d ∈ decisions_of aid l <-> d ∈ l /\ d.(d_approval_id) = aid.
Proof. unfold decisions_of. by rewrite list_elem_of_In, filter_In, <- list_elem_of_In, String.eqb_eq. Qed.

Lemma consumptions_of_elem aid l n : n ∈ consumptions_of aid l <-> n ∈ l /\ n.(n_approval_id) = aid.
Proof. unfold consumptions_of. by rewrite list_elem_of_In, filter_In, <- list_elem_of_In, String.eqb_eq. Qed.

(** Rows appended for one approval show up for it only. *)
Lemma decisions_of_app aid aid' l ds :
  Forall (fun d => d.(d_approval_id) = aid) ds ->
  decisions_of aid' (l ++ ds) = decisions_of aid' l ++ (if String.eqb aid aid' then ds else []).
Proof.
  intros H. unfold decisions_of. rewrite List.filter_app. f_equal.
  induction H as [|d ds Hd _ IH]; cbn; [by destruct (String.eqb _ _)|]. rewrite Hd, IH.
  by destruct (String.eqb _ _).
Qed.

Lemma consumptions_of_app aid aid' l ns :
  Forall (fun n => n.(n_approval_id) = aid) ns ->
  consumptions_of aid' (l ++ ns) = consumptions_of aid' l ++ (if String.eqb aid aid' then ns else []).
Proof.
  intros H. unfold consumptions_of. rewrite List.filter_app. f_equal.
  induction H as [|d ds Hd _ IH]; cbn; [by destruct (String.eqb _ _)|]. rewrite Hd, IH.
  by destruct (String.eqb _ _).
Qed.

Lemma grant_stream_app ws aid log e :
  stream ws aid (log ++ [e]) =
  stream ws aid log ++ if decide (aggregate_of e = (lit ws, lit "approval", lit aid)) then [e] else [].
Proof. unfold stream. by rewrite in_stream_app, in_stream_one. Qed.

Lemma stream_elem ws aid log e :
  e ∈ stream ws aid log <-> e ∈ log /\ aggregate_of e = (lit ws, lit "approval", lit aid).
Proof. unfold stream, in_stream. rewrite list_elem_of_filter. tauto. Qed.

(** The Events [rebuild_approvals] replays. *)
Definition approval_events (log : list Event) : list Event :=
  List.filter (fun e => bool_decide (e.(aggregate_type) = lit "approval") && of_workspace None e.(workspace_id)) log.

Lemma approval_events_app l1 l2 : approval_events (l1 ++ l2) = approval_events l1 ++ approval_events l2.
Proof. apply List.filter_app. Qed.

Section history.
Context {ES : Type} {ELI : EventLogI ES}.
Context (sha256 : list N -> ustr) (isoformat_utc : Z -> ustr) (parse_ts : ustr -> res Z).
Context (Hts : forall t, exists t', parse_ts (isoformat_utc t) = Ok t').

Notation Db := (Approvals.Db (ES := ES)).

Definition view_ok (db : Db) (aid : string) (row : GrantRow) : Prop :=
  grant_ok aid row (stream row.(c_workspace) aid (el_log db.(store))) (decisions_of aid db.(decisions))
    (consumptions_of aid db.(consumptions)) (db.(projection) !! lit aid).

Record inv (db : Db) : Prop := {
  inv_store : el_ok db.(store);
  inv_grants aid row : db.(grants) !! aid = Some row -> view_ok db aid row;
  inv_log e : e ∈ el_log db.(store) -> e.(aggregate_type) = lit "approval" ->
    exists aid row, db.(grants) !! aid = Some row /\
      aggregate_of e = (lit row.(c_workspace), lit "approval", lit aid);
  inv_projection k : is_Some (db.(projection) !! k) -> exists aid, k = lit aid /\ is_Some (db.(grants) !! aid);
  inv_decisions d : d ∈ db.(decisions) -> is_Some (db.(grants) !! d.(d_approval_id));
  inv_consumptions n : n ∈ db.(consumptions) -> is_Some (db.(grants) !! n.(n_approval_id));
  inv_rebuild decs : exists m, apply_all parse_ts decs ∅ (approval_events (el_log db.(store))) = Ok m /\
    forall k, match db.(projection) !! k with
              | Some x => exists y, m !! k = Some y /\ rebuilt decs k x y
              | None => m !! k = None
              end }.

(** The database after an Event on one grant. *)
Definition event_db (db : Db) (aid : string) (row' : GrantRow) (ds : list DecisionRow) (ns : list ConsumptionRow)
    (event : ustr) (es : ES) : Db := {|
  grants := <[aid := row']> db.(grants); decisions := db.(decisions) ++ ds;
  consumptions := db.(consumptions) ++ ns;
  projection := <[lit aid := live_row row' (decisions_of aid db.(decisions) ++ ds)
    (consumptions_of aid db.(consumptions) ++ ns) event]> db.(projection);
  authority := db.(authority); aliases := db.(aliases); subjects := db.(subjects); store := es |}.

Lemma lit_neq s t : s <> t -> lit s <> lit t.
Proof. by intros H E%lit_inj. Qed.

Lemma view_ok_frame db aid row row0 aid' ds ns event es e :
  aid' <> aid -> view_ok db aid row ->
  Forall (fun d => d.(d_approval_id) = aid') ds -> Forall (fun n => n.(n_approval_id) = aid') ns ->
  el_log es = el_log db.(store) ++ [e] -> e.(aggregate_id) = lit aid' ->
  view_ok (event_db db aid' row0 ds ns event es) aid row.
Proof.
  intros Hne Hv Hds Hns Hlog Hag. unfold view_ok, event_db in *.
  cbn [Approvals.decisions Approvals.consumptions Approvals.projection Approvals.store].
  rewrite (decisions_of_app aid' aid _ _ Hds), (consumptions_of_app aid' aid _ _ Hns).
  rewrite Hlog, grant_stream_app, decide_False, lookup_insert_ne by
    first [by apply lit_neq | unfold aggregate_of; rewrite Hag; intros E; injection E as _ _ E; by apply lit_inj in E].
  rewrite !(proj2 (String.eqb_neq _ _)) by done. by rewrite !app_nil_r.
Qed.

Lemma inv_event db aid row a es t key body s' ds ns actor corr scope :
  inv db -> db.(grants) !! aid = Some row ->
  el_append (append_request (grant_of row) t actor corr scope key body) db.(store) = Ok (a, es) ->
  no_floats (JObj body) = true ->
  event_step aid row (stream row.(c_workspace) aid (el_log db.(store))) (consumptions_of aid db.(consumptions))
    t key body s' ns ->
  decision_step row (decisions_of aid db.(decisions)) s' ds ->
  Forall (fun d => d.(d_approval_id) = aid) ds -> Forall (fun n => n.(n_approval_id) = aid) ns ->
  inv (event_db db aid (with_status s' a.(a_aggregate_seq) row) ds ns a.(a_event_id) es) /\
  stream row.(c_workspace) aid (el_log es) <> [] /\
  exists e, el_log es = el_log db.(store) ++ [e] /\ e.(event_type) = lit t /\
    aggregate_of e = (lit row.(c_workspace), lit "approval", lit aid).
Proof.
  intros Hinv Hrow Happ Hnf Hstep Hdec Hds Hns.
  set (r := append_request (grant_of row) t actor corr scope key body) in *.
  assert (plain r) as Hpl by done.
  pose proof (inv_grants db Hinv aid row Hrow) as Hv. unfold view_ok in Hv.
  assert (aggregate_of_request r = (lit row.(c_workspace), lit "approval", lit aid)) as Hagr.
  { unfold r, aggregate_of_request. cbn. by rewrite (go_id _ _ _ _ _ _ Hv). }
  pose proof (el_append_effect _ _ _ _ (inv_store db Hinv) Hpl Happ) as Heff.
  inversion Heff as [e Hrep He Hid Hrec Hlog|e Hrep Hid Hrec Hpay Hseq Hnum Hexp Hlog].
  { exfalso. eapply (event_step_fresh aid row _ _ _ _ t key body s' ns e Hv Hstep).
    - apply stream_elem. split; [done|]. rewrite <- Hagr. apply Hrec.
    - rewrite (rec_type _ _ Hrec). done.
    - pose proof (rec_key _ _ Hrec) as Hk. unfold key_of, request_key in Hk. by injection Hk. }
  assert (aggregate_of e = (lit row.(c_workspace), lit "approval", lit aid)) as Hage
    by (rewrite <- Hagr; apply Hrec).
  assert (e.(aggregate_id) = lit aid) as Hid' by (unfold aggregate_of in Hage; congruence).
  assert (e.(aggregate_type) = lit "approval") as Htype by (unfold aggregate_of in Hage; congruence).
  assert (e.(event_type) = lit t) as Het by apply Hrec.
  assert (e.(idempotency_key) = lit key) as Hek.
  { pose proof (rec_key _ _ Hrec) as Hk. unfold key_of, request_key in Hk. by injection Hk. }
  assert (el_log es = el_log db.(store) ++ [e]) as Hlog' by done. clear Hlog. rename Hlog' into Hlog.
  assert (a.(a_aggregate_seq) = Z.of_nat (length (stream row.(c_workspace) aid (el_log db.(store)))) + 1) as Hn
    by (rewrite Hnum, Hagr; done).
  rewrite Hn, <- Hid.
  split; [|split; [|by exists e]].
  2: { rewrite ?Hlog, grant_stream_app, decide_True by done. by destruct (stream _ _ _). }
  split.
  - exact (el_append_ok _ _ _ _ (inv_store db Hinv) Hpl Happ).
  - intros aid0 row0. cbn [Approvals.grants event_db]. rewrite lookup_insert_Some.
    intros [[<- <-]|[Hne H0]].
    + unfold view_ok, event_db. cbn [Approvals.decisions Approvals.consumptions Approvals.projection Approvals.store].
      rewrite (decisions_of_app aid aid _ _ Hds), (consumptions_of_app aid aid _ _ Hns), String.eqb_refl.
      rewrite Hlog, grant_stream_app, lookup_insert_eq. cbn [c_workspace with_status]. rewrite decide_True by done.
      by apply (grant_ok_event aid row _ _ _ _ t key body s' ns ds e Hv Hstep Hdec Het Hek).
    + apply (view_ok_frame db aid0 row0 _ aid ds ns _ es e); try done. by apply inv_grants.
  - intros e'. cbn [Approvals.grants Approvals.store event_db]. rewrite Hlog.
    intros [He'|He'%list_elem_of_singleton]%elem_of_app Ht'.
    + destruct (inv_log db Hinv e' He' Ht') as (aid0 & row0 & H0 & E).
      destruct (decide (aid0 = aid)) as [->|Hne].
      * exists aid, (with_status s' (Z.of_nat (length (stream (c_workspace row) aid (el_log (store db)))) + 1) row).
        rewrite lookup_insert_eq. split; [done|]. rewrite Hrow in H0. injection H0 as <-. done.
      * exists aid0, row0. by rewrite lookup_insert_ne by done.
    + subst e'. exists aid. eexists. rewrite lookup_insert_eq. split; [done|]. done.
  - intros k. cbn [Approvals.grants Approvals.projection event_db]. rewrite lookup_insert.
    destruct (decide (lit aid = k)) as [<-|Hk].
    + intros _. exists aid. split; [done|]. by rewrite lookup_insert_eq.
    + intros Hsome. destruct (inv_projection db Hinv k Hsome) as (aid0 & -> & Hg0). exists aid0. split; [done|].
      rewrite lookup_insert. case_decide; [by eexists|done].
  - intros d. cbn [Approvals.grants Approvals.decisions event_db]. rewrite lookup_insert.
    intros [Hd|Hd]%elem_of_app; case_decide as Hc; try by eexists.
    + by apply inv_decisions.
    + rewrite Forall_forall in Hds. by rewrite (Hds d Hd) in Hc.
  - intros d. cbn [Approvals.grants Approvals.consumptions event_db]. rewrite lookup_insert.
    intros [Hd|Hd]%elem_of_app; case_decide as Hc; try by eexists.
    + by apply inv_consumptions.
    + rewrite Forall_forall in Hns. by rewrite (Hns d Hd) in Hc.
  - intros decs. destruct (inv_rebuild db Hinv decs) as (m & Hm & Hcol).
    cbn [Approvals.projection Approvals.store event_db].
    rewrite Hlog, approval_events_app, apply_all_app, Hm. cbn [mbind res_bind].
    unfold approval_events at 1. cbn [List.filter]. rewrite bool_decide_eq_true_2 by done. cbn [andb of_workspace].
    destruct (go_live _ _ _ _ _ _ Hv) as (e0 & _ & Hx). pose proof (Hcol (lit aid)) as Hc. rewrite Hx in Hc.
    destruct Hc as (y & Hy & Hreb).
    destruct (apply_step parse_ts decs m aid row (stream row.(c_workspace) aid (el_log db.(store)))
      (decisions_of aid db.(decisions)) (consumptions_of aid db.(consumptions)) t key body s' ns ds e _ y
      Hstep Het Hpay Hid' Hy Hreb) as (y' & Hap & Hreb').
    cbn [apply_all]. rewrite Hap. cbn. eexists. split; [done|]. intros k. rewrite !lookup_insert.
    case_decide as Hk; [subst k; by exists y'|apply Hcol].
Qed.

(** ** The operations, step by step *)

Lemma load_grant_ok aid (db : Db) g db' :
  _load_grant aid db = Ok (g, db') <-> exists row, db.(grants) !! aid = Some row /\ g = grant_of row /\ db' = db.
Proof.
  unfold _load_grant. destruct (grants db !! aid) as [row|]; [|naive_solver].
  split; [intros [= <- <-]; by exists row|]. by intros (? & [= <-] & -> & ->).
Qed.

Lemma grant_append_ok g t actor corr scope key body (db : Db) a db' :
  _append g t actor corr scope key body db = Ok (a, db') <-> exists es,
    el_append (append_request g t actor corr scope key body) db.(store) = Ok (a, es) /\ db' = with_store es db.
Proof.
  unfold _append. destruct (el_append _ _) as [[b es]|]; [|naive_solver].
  split; [intros [= <- <-]; by exists es|]. by intros (? & [= <- <-] & ->).
Qed.

Lemma record_decision_ok d (db : Db) u db' :
  _record_decision d db = Ok (u, db') <->
  d.(decided_by) ∉ decided_by <$> decisions_of d.(d_approval_id) db.(decisions) /\
  db' = with_decisions (db.(decisions) ++ [d]) db.
Proof.
  destruct u. unfold _record_decision. destruct (existsb _ _) eqn:E; split; try done.
  - intros [Hn _]. destruct Hn. apply existsb_exists in E as (r & Hr & [H1%String.eqb_eq H2%String.eqb_eq]%andb_true_iff).
    rewrite <- H2. apply list_elem_of_fmap_2, decisions_of_elem. split; [by apply list_elem_of_In|done].
  - intros [= <-]. split; [|done]. intros (r & E1 & [Hr E2]%decisions_of_elem)%list_elem_of_fmap.
    assert (true = false) as [=]. rewrite <- E. symmetry. apply existsb_exists. exists r.
    split; [by apply list_elem_of_In|]. by rewrite E2, E1, !String.eqb_refl.
  - by intros [_ ->].
Qed.

Lemma insert_consumption_ok n (db : Db) u db' :
  insert_consumption n db = Ok (u, db') <->
  n.(consumption_key) ∉ consumption_key <$> consumptions_of n.(n_approval_id) db.(consumptions) /\
  db' = with_consumptions (db.(consumptions) ++ [n]) db.
Proof.
  destruct u. unfold insert_consumption. destruct (existsb _ _) eqn:E; split; try done.
  - intros [Hn _]. destruct Hn. apply existsb_exists in E as (r & Hr & [H1%String.eqb_eq H2%String.eqb_eq]%andb_true_iff).
    rewrite <- H2. apply list_elem_of_fmap_2, consumptions_of_elem. split; [by apply list_elem_of_In|done].
  - intros [= <-]. split; [|done]. intros (r & E1 & [Hr E2]%consumptions_of_elem)%list_elem_of_fmap.
    assert (true = false) as [=]. rewrite <- E. symmetry. apply existsb_exists. exists r.
    split; [by apply list_elem_of_In|]. by rewrite E2, E1, !String.eqb_refl.
  - by intros [_ ->].
Qed.

(** The status and the projection, after the Event and the ledgers. *)
Lemma finish_ok {A} (db : Db) aid row ds ns es s seq event (x : A) :
  view_ok db aid row -> db.(grants) !! aid = Some row ->
  Forall (fun d => d.(d_approval_id) = aid) ds -> Forall (fun n => n.(n_approval_id) = aid) ns ->
  (_set_status aid s seq ≫= fun _ => _project (grant_of row) s event ≫= fun _ => mret x)
    (with_decisions (db.(decisions) ++ ds) (with_consumptions (db.(consumptions) ++ ns) (with_store es db))) =
  Ok (x, event_db db aid (with_status s seq row) ds ns event es).
Proof.
  intros Hv Hrow Hds Hns. destruct (go_live _ _ _ _ _ _ Hv) as (e0 & _ & Hx).
  pose proof (go_id _ _ _ _ _ _ Hv) as Hid.
  unfold _set_status, _project, modify, mbind, tx_bind, mret, tx_ret, event_db, used, with_projection, with_grants.
  cbn [grants decisions consumptions projection authority aliases subjects store with_decisions with_consumptions
    with_store grant_of approval_id].
  rewrite Hid, Hx. unfold live_row. rewrite (alter_some _ _ _ row Hrow).
  rewrite (decisions_of_app aid aid _ _ Hds), (consumptions_of_app aid aid _ _ Hns), String.eqb_refl. done.
Qed.

(** A step without ledger rows. *)
Lemma with_none (db : Db) es : with_decisions (db.(decisions) ++ []) (with_consumptions (db.(consumptions) ++ [])
  (with_store es db)) = with_store es db.
Proof. rewrite !app_nil_r. by destruct db. Qed.

Lemma decision_step_none row evs aid (db : Db) xo t key body s' ns :
  grant_ok aid row evs (decisions_of aid db.(decisions)) (consumptions_of aid db.(consumptions)) xo ->
  event_step aid row evs (consumptions_of aid db.(consumptions)) t key body s' ns -> t <> "APPROVAL_GRANTED" ->
  decision_step row (decisions_of aid db.(decisions)) s' [].
Proof.
  intros Hg Hs Ht. split.
  - rewrite app_nil_r. apply Hg.
  - constructor.
  - constructor.
  - intros ->. exfalso. inversion Hs as [? ? ? ? Hc Hn|n' ? ? ? ? ? Hst|]; subst.
    + apply next_status_moves in Hn as [Hin _]; [|done]. unfold moves in Hin.
      repeat (apply elem_of_cons in Hin as [E|Hin]; [by simplify_eq|]). by apply elem_of_nil in Hin.
    + match goal with E : status_after_consumption _ _ = _ |- _ => revert E end. unfold status_after_consumption. destruct (c_max_uses row); [destruct (_ <=? _)|]; done.
Qed.

(** [_terminate] is the step of its Event type. *)
Lemma terminate_inv db t scope args a db' :
  inv db -> t ∈ ["APPROVAL_CANCELLED"; "APPROVAL_EXPIRED"; "APPROVAL_REVOKED"] ->
  _terminate t scope args db = Ok (a, db') ->
  exists row s' es, db.(grants) !! args.(t_approval_id) = Some row /\ next_status row.(c_status) t = Ok s' /\
    db' = event_db db args.(t_approval_id) (with_status s' a.(a_aggregate_seq) row) [] [] a.(a_event_id) es /\
    inv db' /\ exists e, el_log es = el_log db.(store) ++ [e] /\ e.(event_type) = lit t /\
      aggregate_of e = (lit row.(c_workspace), lit "approval", lit args.(t_approval_id)).
Proof.
  intros Hinv Ht H. unfold _terminate in H.
  apply tx_bind_ok in H as (g & db1 & (row & Hrow & -> & ->)%load_grant_ok & H).
  apply tx_bind_ok in H as (s' & db2 & (Hs & <-)%lift_ok & H). cbn zeta in H.
  apply tx_bind_ok in H as (r & db3 & (es & Happ & ->)%grant_append_ok & H).
  pose proof (inv_grants db Hinv _ _ Hrow) as Hv.
  rewrite <- (with_none db es) in H. rewrite (finish_ok db _ row [] [] es) in H by done.
  injection H as <- <-. exists row, s', es. split; [done|]. split; [done|]. split; [done|].
  assert (t <> "APPROVAL_CONSUMED" /\ t <> "APPROVAL_GRANTED") as [Hc Hg] by set_solver.
  assert (event_step (t_approval_id args) row (stream row.(c_workspace) (t_approval_id args) (el_log db.(store)))
    (consumptions_of (t_approval_id args) db.(consumptions)) t (t_idempotency_key args)
    ((lit "approval_id", jstr (t_approval_id args)) :: (if String.eqb t "APPROVAL_EXPIRED" then []
       else [(lit "reason_code", jstr (t_reason args))])) s' []) as Hstep by by constructor.
  destruct (inv_event db _ row r es t _ _ s' [] [] _ _ _ Hinv Hrow Happ) as (Hi & _ & e & He); try done.
  - by destruct (String.eqb t "APPROVAL_EXPIRED").
  - by eapply decision_step_none.
  - split; [done|]. by exists e.
Qed.

Lemma with_decision (db : Db) es d :
  with_decisions ((with_store es db).(decisions) ++ [d]) (with_store es db) =
  with_decisions (db.(decisions) ++ [d]) (with_consumptions (db.(consumptions) ++ []) (with_store es db)).
Proof. rewrite app_nil_r. by destruct db. Qed.

(** The ledger row of an eligible approver. *)
Lemma decision_step_eligible (db : Db) row k p c audit_id now auth_now event s' :
  may_decide sha256 c audit_id db k.(k_account) (grant_of row) (prior_deciders k.(k_approval_id) db) k.(k_reauth)
    now auth_now k.(k_correlation) p ->
  NoDup (decided_by <$> decisions_of k.(k_approval_id) db.(decisions)) ->
  (s' <> REJECTED -> k.(k_decision) = "APPROVE") ->
  (s' = APPROVED -> row.(c_quorum_required) <= Z.of_nat (size (prior_deciders k.(k_approval_id) db)) + 1) ->
  decision_step row (decisions_of k.(k_approval_id) db.(decisions)) s' [decision_row k p event].
Proof.
  intros Hm Hnd Happ Hq. split.
  - rewrite fmap_app. apply NoDup_app. split_and!; [done| |apply NoDup_singleton].
    intros x Hx ->%list_elem_of_singleton. apply (md_first _ _ _ _ _ _ _ _ _ _ _ _ Hm).
    by apply elem_of_list_to_set.
  - apply Forall_singleton. split_and!.
    + intros E. apply (md_not_requester _ _ _ _ _ _ _ _ _ _ _ _ Hm). unfold same_person. cbn in *. by rewrite E.
    + intros E. apply (md_not_agent _ _ _ _ _ _ _ _ _ _ _ _ Hm _ E). done.
    + intros Hh. by apply (md_reauth _ _ _ _ _ _ _ _ _ _ _ _ Hm).
  - intros Hne. apply Forall_singleton. by apply Happ.
  - intros E. specialize (Hq E). unfold prior_deciders in Hq. rewrite size_list_to_set, length_fmap in Hq by done.
    rewrite length_app. cbn [length]. lia.
Qed.

Lemma conclude_inv db row k p t body n r db' s0 c audit_id now auth_now :
  inv db -> db.(grants) !! k.(k_approval_id) = Some row ->
  conclude k (grant_of row) p t body n db = Ok (r, db') ->
  no_floats (JObj body) = true -> t <> "APPROVAL_CONSUMED" ->
  next_status row.(c_status) t = Ok s0 ->
  (s0 <> REJECTED -> k.(k_decision) = "APPROVE") ->
  (s0 = APPROVED -> row.(c_quorum_required) <= Z.of_nat (size (prior_deciders k.(k_approval_id) db)) + 1) ->
  may_decide sha256 c audit_id db k.(k_account) (grant_of row) (prior_deciders k.(k_approval_id) db) k.(k_reauth)
    now auth_now k.(k_correlation) p ->
  inv db'.
Proof.
  intros Hinv Hrow H Hnf Ht Hs Hap Hq Hm. unfold conclude in H.
  apply tx_bind_ok in H as (a & db1 & (es & Happ & ->)%grant_append_ok & H).
  apply tx_bind_ok in H as (u & db2 & (_ & ->)%record_decision_ok & H).
  apply tx_bind_ok in H as (s' & db3 & (Hs' & <-)%lift_ok & H).
  change (next_status row.(c_status) t = Ok s') in Hs'. rewrite Hs in Hs'. injection Hs' as <-.
  pose proof (inv_grants db Hinv _ _ Hrow) as Hv. rewrite with_decision in H.
  rewrite (finish_ok db _ row [decision_row k p (a_event_id a)] [] es) in H by (done || by constructor).
  injection H as _ <-.
  eapply (inv_event db _ row a es t _ body s0); try done.
  - by constructor.
  - eapply decision_step_eligible; try done. apply Hv.
  - by constructor.
Qed.

Lemma partial_inv {A} db row d e (x r : A) db' :
  inv db -> db.(grants) !! d.(d_approval_id) = Some row -> row.(c_status) = PENDING ->
  last (stream row.(c_workspace) d.(d_approval_id) (el_log db.(store))) = Some e ->
  decision_step row (decisions_of d.(d_approval_id) db.(decisions)) PENDING [d] ->
  (_project (grant_of row) PENDING e.(event_id) ≫= fun _ => mret x)
    (with_decisions (db.(decisions) ++ [d]) db) = Ok (r, db') -> inv db'.
Proof.
  intros Hinv Hrow Hp He Hd H. set (aid := d.(d_approval_id)) in *.
  pose proof (inv_grants db Hinv _ _ Hrow) as Hv. unfold view_ok in Hv.
  destruct (go_live _ _ _ _ _ _ Hv) as (e0 & He0 & Hx). rewrite He in He0. injection He0 as <-.
  pose proof (grant_ok_partial aid row _ _ _ _ d e Hv Hp Hd He) as Hv'.
  assert (forall a', decisions_of a' (db.(decisions) ++ [d]) = decisions_of a' db.(decisions) ++
    (if String.eqb aid a' then [d] else [])) as Hdec by (intros a'; apply decisions_of_app; by constructor).
  unfold _project, modify, mbind, tx_bind, mret, tx_ret in H. injection H as _ <-.
  unfold used. cbn [grants decisions consumptions projection with_decisions grant_of approval_id].
  rewrite (go_id _ _ _ _ _ _ Hv), Hx. unfold live_row in Hv', Hx |- *. rewrite Hp in Hv', Hx.
  cbn [x_workspace x_subject_type x_subject_id x_action x_risk x_max_uses x_expires_at x_requested_by].
  rewrite Hdec, String.eqb_refl. split; unfold with_projection, with_decisions;
    cbn [grants decisions consumptions projection authority aliases subjects store].
  - apply Hinv.
  - intros aid0 row0 H0. unfold view_ok. cbn [decisions consumptions projection store]. rewrite Hdec.
    destruct (decide (aid0 = aid)) as [->|Hne].
    + rewrite String.eqb_refl, lookup_insert_eq. rewrite Hrow in H0. injection H0 as <-. exact Hv'.
    + rewrite lookup_insert_ne by by apply lit_neq. rewrite (proj2 (String.eqb_neq _ _)), app_nil_r by done.
      by apply inv_grants.
  - apply Hinv.
  - intros k. rewrite lookup_insert. case_decide as Hk; [|apply Hinv]. subst k. intros _. exists aid. by rewrite Hrow.
  - intros d' [Hd'| ->%list_elem_of_singleton]%elem_of_app; [by apply Hinv|]. fold aid. by rewrite Hrow.
  - apply Hinv.
  - intros decs. destruct (inv_rebuild db Hinv decs) as (m & Hm & Hcol). exists m. split; [done|].
    intros k. rewrite lookup_insert. case_decide as Hk; [|apply Hcol]. subst k. specialize (Hcol (lit aid)).
    rewrite Hx in Hcol. destruct Hcol as (y & Hy & Hc & Hby). by exists y.
Qed.

Lemma decide_inv db c audit_id now auth_now k log log' r db' :
  inv db -> decide_approval sha256 c audit_id now auth_now k db log = (log', Ok (r, db')) -> inv db'.
Proof.
  intros Hinv H. unfold decide_approval in H. destruct (open_grant k now db) as [[g db0]|] eqn:Ho; [|done].
  unfold open_grant in Ho.
  apply tx_bind_ok in Ho as (u1 & db1 & (Hd & <-)%guard_tx_ok & Ho).
  apply tx_bind_ok in Ho as (g' & db2 & (row & Hrow & -> & ->)%load_grant_ok & Ho).
  apply tx_bind_ok in Ho as (u2 & db3 & (Hp & <-)%guard_tx_ok & Ho).
  apply tx_bind_ok in Ho as (u3 & db4 & (Hx & <-)%guard_tx_ok & Ho).
  apply tx_ret_ok in Ho as [<- <-].
  apply negb_false_iff, bool_decide_eq_true in Hp. apply negb_false_iff, mem_spec in Hd.
  change (row.(c_status) = PENDING) in Hp.
  destruct (check_eligibility _ _ _ _ _ _ _ _ _ _ _ _) as [log1 [e|]] eqn:He; [|done].
  apply check_eligibility_decided in He as [Helig Happr].
  destruct (eligible e); [|done]. destruct (proj1 Helig eq_refl) as (p & Hm).
  destruct Happr as [_ Happr]. rewrite (Happr p Hm) in H. injection H as _ H.
  pose proof (inv_grants db Hinv _ _ Hrow) as Hv. unfold record_decision in H.
  destruct (String.eqb_spec k.(k_decision) "REJECT") as [Hrej|Hrej].
  { eapply (conclude_inv db row k p "APPROVAL_REJECTED" _ _ r db' REJECTED); try done. by rewrite Hp. }
  assert (k.(k_decision) = "APPROVE") as Hdec by set_solver.
  destruct (Z.leb_spec (quorum_required (grant_of row)) (Z.of_nat (size (prior_deciders (k_approval_id k) db)) + 1)) as [Hq|Hq].
  { eapply (conclude_inv db row k p "APPROVAL_GRANTED" _ _ r db' APPROVED); try done; [|by rewrite Hp].
    cbn -[jstrs]. by rewrite (proj1 (jstrs_ok _)). }
  cbn zeta in H. unfold gets, mbind at 1, tx_bind at 1 in H.
  destruct (last _) as [e0|] eqn:Hl; [|done].
  apply tx_bind_ok in H as (u & db1 & (Hn & ->)%record_decision_ok & H).
  eapply (partial_inv db row (decision_row k p e0.(event_id)) e0 _ _ _ Hinv Hrow Hp Hl); [|exact H].
  eapply decision_step_eligible; try done. apply Hv.
Qed.

Lemma with_consumption (db : Db) es n :
  with_consumptions ((with_store es db).(consumptions) ++ [n]) (with_store es db) =
  with_decisions (db.(decisions) ++ []) (with_consumptions (db.(consumptions) ++ [n]) (with_store es db)).
Proof. rewrite app_nil_r. by destruct db. Qed.

(** A new use of a grant: what was checked, and the state after it. *)
Lemma consume_new_spec db now n row r db' :
  inv db -> db.(grants) !! n.(n_id) = Some row -> consume_new now n (grant_of row) db = Ok (r, db') ->
  row.(c_status) ∈ CONSUMABLE /\ row.(c_valid_from) <= now < row.(c_expires_at) /\
  n.(n_for) = {| subject_type := row.(c_subject_type); subject_id := row.(c_subject_id) |} /\
  (forall m, row.(c_max_uses) = Some m -> used n.(n_id) db < m) /\
  (n.(n_key) ∉ consumption_key <$> consumptions_of n.(n_id) db.(consumptions)) /\ inv db' /\
  used n.(n_id) db' = used n.(n_id) db + 1 /\ r.(used_count) = used n.(n_id) db + 1 /\ r.(cr_replayed) = false /\
  exists row', db'.(grants) !! n.(n_id) = Some row' /\
    row'.(c_status) = status_after_consumption (used n.(n_id) db + 1) row.(c_max_uses).
Proof.
  intros Hinv Hrow H. unfold consume_new in H.
  apply tx_bind_ok in H as (u1 & db1 & (Hx & <-)%guard_tx_ok & H).
  apply tx_bind_ok in H as (u2 & db2 & (Hc & <-)%guard_tx_ok & H).
  apply tx_bind_ok in H as (u3 & db3 & (Hw & <-)%guard_tx_ok & H).
  apply tx_bind_ok in H as (u4 & db4 & (Hf & <-)%guard_tx_ok & H).
  apply tx_bind_ok in H as (cnt & db5 & (Hcnt & <-)%gets_ok & H). subst cnt.
  apply tx_bind_ok in H as (u5 & db6 & (Hm & <-)%guard_tx_ok & H).
  apply tx_bind_ok in H as (a & db7 & (es & Happ & ->)%grant_append_ok & H).
  apply tx_bind_ok in H as (u6 & db8 & (Hn & ->)%insert_consumption_ok & H).
  apply negb_false_iff, mem_spec in Hc. apply negb_false_iff, andb_true_iff in Hw as [H1%Z.leb_le H2%Z.ltb_lt].
  apply negb_false_iff, bool_decide_eq_true in Hf. cbn in Hn, Hc, H1, H2, Hf, Hm.
  pose proof (inv_grants db Hinv _ _ Hrow) as Hv. rewrite with_consumption in H. cbn zeta in H.
  set (nr := {| n_approval_id := n_id n; consumption_key := n_key n; consumed_by := n_by n;
    consumed_for := n_for n; n_event_id := a_event_id a |}) in *.
  rewrite (finish_ok db _ row [] [nr] es) in H by (done || by constructor).
  injection H as <- <-.
  assert (forall m, row.(c_max_uses) = Some m -> used n.(n_id) db < m) as Hmax.
  { intros m E. rewrite E in Hm. by apply Z.leb_gt in Hm. }
  assert (event_step (n_id n) row (stream row.(c_workspace) (n_id n) (el_log db.(store)))
    (consumptions_of (n_id n) db.(consumptions)) "APPROVAL_CONSUMED" (use_key (n_id n) (n_key n))
    (consume_payload n (used (n_id n) db + 1))
    (status_after_consumption (used (n_id n) db + 1) row.(c_max_uses)) [nr]) as Hstep.
  { apply (step_consume (n_id n) row _ _ nr (consume_payload n (used (n_id n) db + 1))); try done. }
  split_and!; try done.
  - eapply (inv_event db _ row a es _ _ _ _ [] [nr]); try done; [|by constructor].
    eapply decision_step_none; [exact Hv|exact Hstep|done].
  - unfold used, event_db. cbn [consumptions]. rewrite (consumptions_of_app (n_id n) (n_id n)) by by constructor.
    rewrite String.eqb_refl, length_app. cbn. lia.
  - eexists. unfold event_db. cbn [grants]. by rewrite lookup_insert_eq.
Qed.

Lemma consume_inv db now n r db' : inv db -> consume_approval now n db = Ok (r, db') -> inv db'.
Proof.
  intros Hinv H. unfold consume_approval in H.
  apply tx_bind_ok in H as (g & db1 & (row & Hrow & -> & ->)%load_grant_ok & H).
  apply tx_bind_ok in H as (ex & db2 & (Hex & <-)%gets_ok & H).
  destruct ex as [nr|].
  - apply tx_bind_ok in H as (cnt & db3 & (_ & <-)%gets_ok & H). by apply tx_ret_ok in H as [_ <-].
  - by eapply consume_new_spec in H as (_ & _ & _ & _ & _ & Hi & _).
Qed.


(** ** A new grant *)

Lemma requested_row_ok a aid risk q now expires seq e :
  let row := with_status PENDING seq (new_grant a aid risk now expires q) in
  e.(payload) = requested_payload isoformat_utc a aid risk expires q ->
  e.(workspace_id) = lit row.(c_workspace) -> e.(actor_account_id) = lit row.(c_requested_by) ->
  exists y, requested_row parse_ts e = Ok y /\ columns y = columns (live_row row [] [] e.(event_id)) /\
    y.(x_decided_by) = [].
Proof.
  intros row Hp Hw Ha. unfold requested_row. rewrite Hp, Hw, Ha. cbn zeta.
  set (p := requested_payload _ _ _ _ _ _).
  assert (payload_text p "subject_type" = Ok (lit a.(a_subject).(subject_type))) as -> by reflexivity.
  assert (payload_text p "subject_id" = Ok (lit a.(a_subject).(subject_id))) as -> by reflexivity.
  assert (payload_text p "action" = Ok (lit a.(a_action))) as -> by reflexivity.
  assert (payload_text p "risk" = Ok (lit risk)) as -> by reflexivity.
  assert (payload_text p "expires_at" = Ok (isoformat_utc expires)) as -> by reflexivity.
  assert (payload_int_opt p "max_uses" = Ok a.(a_max_uses)) as ->.
  { change (match jz_opt a.(a_max_uses) with JInt z => Ok (Some z) | JNull => Ok None | _ => Err "DataError" end =
      Ok a.(a_max_uses)). by destruct (a_max_uses a). }
  destruct (Hts expires) as [t' Ht']. cbn [mbind res_bind]. rewrite Ht'. cbn. by eexists.
Qed.

(** A fresh id has left no trace. *)
Lemma inv_fresh db aid : inv db -> db.(grants) !! aid = None ->
  (forall ws, stream ws aid (el_log db.(store)) = []) /\ decisions_of aid db.(decisions) = [] /\
  consumptions_of aid db.(consumptions) = [] /\ db.(projection) !! lit aid = None.
Proof.
  intros Hinv Hn. split_and!.
  - intros ws. destruct (stream ws aid _) as [|e l] eqn:E; [done|].
    assert (e ∈ stream ws aid (el_log db.(store))) as [He Hag]%stream_elem by (rewrite E; left).
    destruct (inv_log db Hinv e He) as (aid' & row & Hrow & Hag'); [unfold aggregate_of in Hag; congruence|].
    rewrite Hag in Hag'. injection Hag' as _ Hid%lit_inj. congruence.
  - destruct (decisions_of aid _) as [|d l] eqn:E; [done|].
    assert (d ∈ decisions_of aid db.(decisions)) as [Hd <-]%decisions_of_elem by (rewrite E; left).
    apply (inv_decisions db Hinv) in Hd. rewrite Hn in Hd. by destruct Hd.
  - destruct (consumptions_of aid _) as [|d l] eqn:E; [done|].
    assert (d ∈ consumptions_of aid db.(consumptions)) as [Hd <-]%consumptions_of_elem by (rewrite E; left).
    apply (inv_consumptions db Hinv) in Hd. rewrite Hn in Hd. by destruct Hd.
  - destruct (projection db !! lit aid) as [x|] eqn:E; [|done].
    destruct (inv_projection db Hinv (lit aid)) as (aid' & E' & Hg); [by rewrite E|].
    apply lit_inj in E' as <-. rewrite Hn in Hg. by destruct Hg.
Qed.

Lemma request_effect db row a es actor corr scope key body :
  inv db -> db.(grants) !! row.(c_approval_id) = None -> row.(c_aggregate_seq) = 0 ->
  no_floats (JObj body) = true ->
  el_append (append_request (grant_of row) "APPROVAL_REQUESTED" actor corr scope key body) db.(store) = Ok (a, es) ->
  el_ok es /\ a.(a_aggregate_seq) = 1 /\ exists e, el_log es = el_log db.(store) ++ [e] /\
    aggregate_of e = (lit row.(c_workspace), lit "approval", lit row.(c_approval_id)) /\
    e.(event_type) = lit "APPROVAL_REQUESTED" /\ e.(payload) = body /\ e.(event_id) = a.(a_event_id) /\
    e.(actor_account_id) = lit actor.
Proof.
  intros Hinv Hnone Hz Hnf Happ. set (r := append_request _ _ _ _ _ _ _) in *.
  assert (plain r) as Hpl by done. destruct (inv_fresh db _ Hinv Hnone) as (Hs & _).
  pose proof (el_append_effect _ _ _ _ (inv_store db Hinv) Hpl Happ) as Heff.
  split; [exact (el_append_ok _ _ _ _ (inv_store db Hinv) Hpl Happ)|].
  inversion Heff as [e Hrep He Hid Hrec Hlog|e Hrep Hid Hrec Hpay Hseq Hnum Hexp Hlog].
  - exfalso. apply (not_elem_of_nil e). rewrite <- (Hs row.(c_workspace)). apply stream_elem.
    split; [done|]. by rewrite (rec_aggregate _ _ Hrec).
  - split.
    { specialize (Hexp (row.(c_aggregate_seq) + 1) eq_refl). lia. }
    exists e. split_and!; try done; try apply Hrec.
    pose proof (rec_key _ _ Hrec) as Hk. unfold key_of, request_key in Hk. by injection Hk.
Qed.

Lemma grant_ok_requested row e :
  (forall m, row.(c_max_uses) = Some m -> 0 < m) -> e.(event_type) = lit "APPROVAL_REQUESTED" ->
  row.(c_status) = PENDING -> row.(c_aggregate_seq) = 1 ->
  grant_ok row.(c_approval_id) row [e] [] [] (Some (live_row row [] [] e.(event_id))).
Proof.
  intros Hm Ht Hs Hq. split; try done; try constructor.
  - exists ["APPROVAL_REQUESTED"]. split_and!; [cbn; by rewrite Ht|rewrite Hs; constructor|].
    intros [=]%list_elem_of_singleton.
  - intros e' ->%list_elem_of_singleton E. rewrite Ht in E. by apply lit_inj in E.
  - by exists e.
Qed.

Lemma request_new_inv db a aid risk now expires q r db' :
  inv db -> (forall m, a.(a_max_uses) = Some m -> 0 < m) ->
  (insert_grant (new_grant a aid risk now expires q) ≫= fun _ =>
   g ← _load_grant aid;
   result ← _append g "APPROVAL_REQUESTED" a.(a_requested_by) a.(a_correlation) "request"
     a.(a_idempotency_key) (requested_payload isoformat_utc a aid risk expires q);
   _set_status aid PENDING result.(a_aggregate_seq) ≫= fun _ =>
   _project g PENDING result.(a_event_id) ≫= fun _ =>
   mret {| rr_approval_id := aid; rr_risk := risk; rr_quorum := q; rr_expires_at := expires; rr_event := result |}) db
  = Ok (r, db') -> inv db'.
Proof.
  intros Hinv Hmu H. set (row := new_grant a aid risk now expires q) in *.
  apply tx_bind_ok in H as (u & db1 & Hins & H). unfold insert_grant in Hins.
  destruct (grants db !! c_approval_id row) eqn:Hnone; [done|]. injection Hins as _ <-. cbn in Hnone.
  apply tx_bind_ok in H as (g & db2 & (row0 & Hrow0 & -> & ->)%load_grant_ok & H). cbn in Hrow0.
  rewrite lookup_insert_eq in Hrow0. injection Hrow0 as <-.
  apply tx_bind_ok in H as (result & db3 & (es & Happ & ->)%grant_append_ok & H). cbn [store with_grants] in Happ.
  assert (no_floats (JObj (requested_payload isoformat_utc a aid risk expires q)) = true) as Hnf
    by (cbn; by destruct (a_max_uses a)).
  destruct (request_effect db row result es _ _ _ _ _ Hinv Hnone eq_refl Hnf Happ) as (Hes & Hseq & e & Hlog & Hag & Het & Hpay & Hid & Hact).
  destruct (inv_fresh db aid Hinv Hnone) as (Hs & Hd & Hc & Hx).
  rewrite Hseq, <- Hid in H.
  unfold _set_status, _project, modify, mbind, tx_bind, mret, tx_ret in H. injection H as _ <-.
  unfold used. cbn [grants decisions consumptions projection authority aliases subjects store with_grants with_store
    with_projection grant_of approval_id c_approval_id row new_grant].
  rewrite Hc, Hd, Hx. cbn [length fmap list_fmap].
  set (row' := with_status PENDING 1 row).
  rewrite (alter_some _ _ aid row) by apply lookup_insert_eq. rewrite insert_insert_eq. fold row'.
  assert (e.(aggregate_id) = lit aid /\ e.(aggregate_type) = lit "approval" /\ e.(workspace_id) = lit a.(a_workspace))
    as (Haid & Hty & Hws) by (unfold aggregate_of in Hag; injection Hag as K1 K2 K3; by split_and!).
  change {| x_workspace := _ |} with (live_row row' [] [] e.(event_id)).
  split; unfold with_projection, with_grants, with_store;
    cbn [grants decisions consumptions projection authority aliases subjects store].
  - done.
  - intros aid0 row0. unfold view_ok. cbn [decisions consumptions projection store]. rewrite Hlog, lookup_insert_Some.
    intros [[<- <-]|[Hne H0]].
    + rewrite lookup_insert_eq, Hd, Hc, grant_stream_app, (Hs _), decide_True by done.
      by apply (grant_ok_requested row' e).
    + rewrite lookup_insert_ne, grant_stream_app, decide_False by first
        [by apply lit_neq | unfold aggregate_of; rewrite Haid; intros E; injection E as _ _ E; by apply lit_inj in E].
      rewrite app_nil_r. by apply inv_grants.
  - intros e'. rewrite Hlog. intros [He'|He'%list_elem_of_singleton]%elem_of_app Ht'.
    + destruct (inv_log db Hinv e' He' Ht') as (aid0 & row0 & H0 & E). exists aid0, row0.
      rewrite lookup_insert_ne by congruence. done.
    + subst e'. exists aid, row'. by rewrite lookup_insert_eq.
  - intros k. rewrite !lookup_insert. case_decide as Hk.
    + intros _. exists aid. by rewrite lookup_insert_eq.
    + intros Hsome. destruct (inv_projection db Hinv k Hsome) as (aid0 & -> & Hg0). exists aid0. split; [done|].
      rewrite lookup_insert. case_decide; [by eexists|done].
  - intros d Hd'. rewrite lookup_insert. case_decide; [by eexists|by apply Hinv].
  - intros d Hd'. rewrite lookup_insert. case_decide; [by eexists|by apply Hinv].
  - intros decs. destruct (inv_rebuild db Hinv decs) as (m & Hm & Hcol).
    rewrite Hlog, approval_events_app, apply_all_app, Hm. cbn [mbind res_bind].
    unfold approval_events at 1. cbn [List.filter]. rewrite bool_decide_eq_true_2 by done. cbn [andb of_workspace].
    destruct (requested_row_ok a aid risk q now expires 1 e Hpay Hws Hact) as (y & Hy & Hcy & Hdy).
    cbn [apply_all]. unfold apply. rewrite Haid, (is_type_lit e _ _ Het), String.eqb_refl, Hy. cbn [mbind res_bind].
    pose proof (Hcol (lit aid)) as Hca. rewrite Hx in Hca. unfold insert_row. rewrite Hca.
    eexists. split; [done|]. intros k. rewrite !lookup_insert. case_decide as Hk; [|apply Hcol].
    exists y. split; [done|]. split; [exact Hcy|]. by rewrite Hdy.
Qed.

Lemma request_inv db c now hex a r db' :
  inv db -> request_approval isoformat_utc c now hex a db = Ok (r, db') -> inv db'.
Proof.
  intros Hinv H. unfold request_approval in H.
  apply tx_bind_ok in H as (u1 & db1 & Hv & H).
  assert (db1 = db) as ->.
  { unfold validate_subject in Hv. repeat case_match; congruence. }
  apply tx_bind_ok in H as (d & db2 & (_ & <-)%lift_ok & H).
  apply tx_bind_ok in H as (u2 & db3 & (_ & <-)%guard_tx_ok & H).
  apply tx_bind_ok in H as (risk & db4 & (_ & <-)%lift_ok & H).
  apply tx_bind_ok in H as (u3 & db5 & (Hm & <-)%guard_tx_ok & H). cbn zeta in H.
  apply tx_bind_ok in H as (u4 & db6 & (_ & <-)%guard_tx_ok & H).
  apply tx_bind_ok in H as (q & db7 & (_ & <-)%lift_ok & H).
  apply tx_bind_ok in H as (found & db8 & (_ & <-)%gets_ok & H).
  destruct found as [aid|].
  - unfold replay_request in H. apply tx_bind_ok in H as (g & db9 & (row & _ & _ & ->)%load_grant_ok & H).
    apply tx_bind_ok in H as (evs & db10 & (_ & <-)%gets_ok & H). destruct evs; [done|].
    by apply tx_ret_ok in H as [_ <-].
  - eapply request_new_inv; [done| |exact H]. intros m E. rewrite E in Hm. by apply Z.leb_gt in Hm.
Qed.

(** ** Expiry *)

Lemma expired_from s s' : next_status s "APPROVAL_EXPIRED" = Ok s' -> s' = EXPIRED /\ s ∉ TERMINAL.
Proof. intros H. split; [destruct s; vm_compute in H; naive_solver|]. by apply next_status_moves in H as [_ ?]. Qed.

Lemma expire_one_inv db escalated actor corr aid r db' :
  inv db -> expire_one escalated actor corr aid db = Ok (r, db') -> inv db'.
Proof.
  intros Hinv H. unfold expire_one in H. apply tx_bind_ok in H as (a & db1 & Ht & H).
  apply (terminate_inv db "APPROVAL_EXPIRED") in Ht as (row & s' & es & Hrow & Hs & Hdb & Hinv1 & e & Hlog & Het & Hag);
    [|done|set_solver]. cbn [t_approval_id] in *.
  apply expired_from in Hs as [-> Hlive].
  apply tx_bind_ok in H as (g & db2 & (row1 & Hrow1 & -> & ->)%load_grant_ok & H).
  apply tx_bind_ok in H as (b & db3 & (es2 & Happ & ->)%grant_append_ok & H).
  pose proof (inv_grants db1 Hinv1 _ _ Hrow1) as Hv1.
  rewrite <- (with_none db1 es2) in H. rewrite (finish_ok db1 _ row1 [] [] es2) in H by done.
  injection H as _ <-.
  assert (row1 = with_status EXPIRED a.(a_aggregate_seq) row) as ->.
  { rewrite Hdb in Hrow1. cbn [grants event_db] in Hrow1. rewrite lookup_insert_eq in Hrow1. congruence. }
  assert (event_step aid (with_status EXPIRED a.(a_aggregate_seq) row)
    (stream row.(c_workspace) aid (el_log db1.(store))) (consumptions_of aid db1.(consumptions))
    "APPROVAL_ESCALATED" ("escalate:" +:+ aid)
    [(lit "approval_id", jstr aid); (lit "escalated_to_role", jstr escalated)] EXPIRED []) as Hstep.
  { apply step_escalate; [done|]. rewrite Hdb. cbn [store event_db]. rewrite Hlog, grant_stream_app, decide_True by done.
    pose proof (inv_grants db Hinv _ _ Hrow) as Hv.
    destruct (go_history _ _ _ _ _ _ Hv) as (ts & Hts' & Hh & _).
    rewrite fmap_app, Hts'. cbn [fmap list_fmap]. rewrite Het.
    intros [(t & E & Hi)%list_elem_of_fmap|E%list_elem_of_singleton]%elem_of_app; apply lit_inj in E; [subst t|done].
    pose proof (history_ended _ _ _ _ _ Hh Hlive Hi). set_solver. }
  eapply (inv_event db1 _ _ b es2 _ _ _ _ [] [] _ _ _ Hinv1 Hrow1 Happ); try done.
  eapply decision_step_none; [exact Hv1|exact Hstep|done].
Qed.

Lemma expire_each_inv db escalated actor corr ids r db' :
  inv db -> expire_each escalated actor corr ids db = Ok (r, db') -> inv db'.
Proof.
  revert db r. induction ids as [|aid ids IH]; intros db r Hinv H; cbn [expire_each] in H.
  { by apply tx_ret_ok in H as [_ <-]. }
  apply tx_bind_ok in H as (x & db1 & Hx & H). apply tx_bind_ok in H as (xs & db2 & Hxs & H).
  apply tx_ret_ok in H as [_ <-]. eapply IH; [|done]. by eapply expire_one_inv.
Qed.

(** ** Runs *)

(** What happens to the tables of approvals: an operation of the service, a change
    of the accounts, roles, aliases and subjects by other commands, or an Event of
    another aggregate. *)
Inductive op :=
| ORequest (c : PolicyCatalog) (now : Z) (hex : string) (a : RequestArgs)
| ODecide (c : PolicyCatalog) (audit_id : string) (now auth_now : Z) (k : DecideArgs)
| OCancel (t : TerminateArgs)
| ORevoke (t : TerminateArgs)
| OExpire (escalated_to : string) (now : Z) (actor correlation : string) (workspace : option string)
| OConsume (now : Z) (n : ConsumeArgs)
| OWorld (a : Authority.Db) (al : list (string * string * string)) (s : gmap (string * string) string)
| OAppend (r : AppendRequest).

Definition settle {A} (r : res (A * Db)) (db : Db) : Db := match r with Ok (_, db') => db' | Err _ => db end.

Definition foreign (r : AppendRequest) : bool :=
  negb (bool_decide (r.(r_aggregate_type) = lit "approval")) && no_floats (JObj r.(r_payload)) &&
  match r.(r_sensitive) with None => true | Some _ => false end.

Definition perform (db : Db) (o : op) : Db :=
  match o with
  | ORequest c now hex a => settle (request_approval isoformat_utc c now hex a db) db
  | ODecide c i now auth_now k => settle (decide_approval sha256 c i now auth_now k db []).2 db
  | OCancel t => settle (cancel_approval t db) db
  | ORevoke t => settle (revoke_approval t db) db
  | OExpire e now actor corr ws => settle (expire_approvals e now actor corr ws db) db
  | OConsume now n => settle (consume_approval now n db) db
  | OWorld a al s => with_world a al s db
  | OAppend r => if foreign r then match el_append r db.(store) with
                                   | Ok (_, es) => with_store es db
                                   | Err _ => db
                                   end
                 else db
  end.

Lemma foreign_inv db r a es :
  inv db -> foreign r = true -> el_append r db.(store) = Ok (a, es) -> inv (with_store es db).
Proof.
  intros Hinv Hf Happ. unfold foreign in Hf.
  apply andb_true_iff in Hf as [[Hty%negb_true_iff%bool_decide_eq_false Hnf]%andb_true_iff Hse].
  assert (plain r) as Hpl by (split; [done|]; by destruct (r_sensitive r)).
  assert (exists l, el_log es = el_log db.(store) ++ l /\ Forall (fun e => e.(aggregate_type) <> lit "approval") l)
    as (l & Hlog & Hl).
  { destruct (el_append_effect _ _ _ _ (inv_store db Hinv) Hpl Happ) as [e|e _ _ Hrec].
    - exists []. by rewrite app_nil_r.
    - exists [e]. split; [done|]. apply Forall_singleton. pose proof (rec_aggregate _ _ Hrec) as E.
      unfold aggregate_of, aggregate_of_request in E. congruence. }
  assert (forall ws aid, stream ws aid (el_log es) = stream ws aid (el_log db.(store))) as Hs.
  { intros ws aid. rewrite Hlog. unfold stream. rewrite in_stream_app.
    assert (in_stream (lit ws, lit "approval", lit aid) l = []) as ->; [|by rewrite app_nil_r].
    unfold in_stream. clear Hlog. induction Hl as [|e l He _ IH]; [done|]. rewrite filter_cons, decide_False; [done|].
    unfold aggregate_of. congruence. }
  assert (approval_events (el_log es) = approval_events (el_log db.(store))) as Ha.
  { rewrite Hlog, approval_events_app. assert (approval_events l = []) as ->; [|by rewrite app_nil_r].
    clear Hlog. induction Hl as [|e l He _ IH]; [done|]. unfold approval_events in *. cbn [List.filter].
    by rewrite bool_decide_eq_false_2. }
  split; unfold with_store; cbn [grants decisions consumptions projection authority aliases subjects store].
  - exact (el_append_ok _ _ _ _ (inv_store db Hinv) Hpl Happ).
  - intros aid row Hrow. unfold view_ok. cbn [decisions consumptions projection store]. rewrite Hs. by apply inv_grants.
  - intros e. rewrite Hlog. intros [He|He]%elem_of_app Ht; [by apply inv_log|].
    rewrite Forall_forall in Hl. by destruct (Hl e He).
  - apply Hinv.
  - apply Hinv.
  - apply Hinv.
  - rewrite Ha. apply Hinv.
Qed.

Lemma perform_inv db o : inv db -> inv (perform db o).
Proof.
  intros Hinv. destruct o; cbn [perform].
  - destruct (request_approval _ _ _ _ _ _) as [[r db']|] eqn:E; [|done]. by eapply request_inv.
  - destruct (decide_approval _ _ _ _ _ _ _ _) as [l [[r db']|]] eqn:E; [|done]. by eapply decide_inv.
  - destruct (cancel_approval _ _) as [[r db']|] eqn:E; [|done]. unfold cancel_approval in E.
    apply tx_bind_ok in E as (g & db1 & (row & _ & _ & ->)%load_grant_ok & E).
    apply tx_bind_ok in E as (ad & db2 & (_ & <-)%gets_ok & E).
    apply tx_bind_ok in E as (u & db3 & (_ & <-)%guard_tx_ok & E).
    apply terminate_inv in E as (? & ? & ? & _ & _ & _ & Hi & _); [done|done|set_solver].
  - destruct (revoke_approval _ _) as [[r db']|] eqn:E; [|done].
    apply terminate_inv in E as (? & ? & ? & _ & _ & _ & Hi & _); [done|done|set_solver].
  - destruct (expire_approvals _ _ _ _ _ _) as [[r db']|] eqn:E; [|done]. unfold expire_approvals in E.
    apply tx_bind_ok in E as (ids & db1 & (_ & <-)%gets_ok & E). by eapply expire_each_inv.
  - destruct (consume_approval _ _ _) as [[r db']|] eqn:E; [|done]. by eapply consume_inv.
  - split; apply Hinv.
  - destruct (foreign r) eqn:Hf; [|done]. destruct (el_append _ _) as [[a es]|] eqn:E; [|done].
    by eapply foreign_inv.
Qed.

Definition run (db : Db) (os : list op) : Db := foldl perform db os.

(** No approvals yet. *)
Definition initial (db : Db) : Prop :=
  db.(grants) = ∅ /\ db.(decisions) = [] /\ db.(consumptions) = [] /\ db.(projection) = ∅ /\
  el_ok db.(store) /\ el_log db.(store) = [].

Lemma initial_inv db : initial db -> inv db.
Proof.
  intros (Hg & Hd & Hc & Hp & Hok & Hl). split; rewrite ?Hg, ?Hd, ?Hc, ?Hp, ?Hl.
  - done.
  - intros aid row. by rewrite lookup_empty.
  - by intros e ?%elem_of_nil.
  - intros k. rewrite lookup_empty. by intros [].
  - by intros d ?%elem_of_nil.
  - by intros d ?%elem_of_nil.
  - intros decs. exists ∅. split; [done|]. intros k. by rewrite !lookup_empty.
Qed.

Lemma run_inv db os : inv db -> inv (run db os).
Proof. revert db. induction os as [|o os IH]; intros db H; [done|]. by apply IH, perform_inv. Qed.

(** ** What only grows *)

Definition fixed_columns (row : GrantRow) : GrantRow := with_status PENDING 0 row.

Record grows (db db' : Db) : Prop := {
  grows_log : el_log db.(store) `prefix_of` el_log db'.(store);
  grows_decisions : db.(decisions) `prefix_of` db'.(decisions);
  grows_consumptions : db.(consumptions) `prefix_of` db'.(consumptions);
  grows_grants aid row : db.(grants) !! aid = Some row ->
    exists row', db'.(grants) !! aid = Some row' /\ fixed_columns row' = fixed_columns row }.

#[local] Instance grows_preorder : PreOrder grows.
Proof.
  split.
  - intros db. split; [done..|]. intros aid row H. by exists row.
  - intros d1 d2 d3 [L1 D1 C1 G1] [L2 D2 C2 G2]. split; [by etrans..|].
    intros aid row H. destruct (G1 aid row H) as (r2 & H2 & E2). destruct (G2 aid r2 H2) as (r3 & H3 & E3).
    exists r3. split; [done|]. by rewrite E3.
Qed.

Definition growing {A} (m : tx Db A) : Prop := forall db a db',
  el_ok db.(store) -> m db = Ok (a, db') -> el_ok db'.(store) /\ grows db db'.

Lemma growing_bind {A B} (m : tx Db A) (f : A -> tx Db B) :
  growing m -> (forall a, growing (f a)) -> growing (m ≫= f).
Proof.
  intros Hm Hf db b db' Hok (a & db1 & H1 & H2)%tx_bind_ok. destruct (Hm _ _ _ Hok H1) as [Hok1 G1].
  destruct (Hf a _ _ _ Hok1 H2) as [Hok2 G2]. split; [done|]. by etrans.
Qed.

(** Transactions that change nothing. *)
Lemma growing_reads {A} (m : tx Db A) : (forall db a db', m db = Ok (a, db') -> db' = db) -> growing m.
Proof. intros H db a db' Hok E. by rewrite (H _ _ _ E). Qed.

Lemma growing_ret {A} (a : A) : growing (mret a).
Proof. apply growing_reads. by intros db b db' [_ <-]%tx_ret_ok. Qed.

Lemma growing_raise {A} code : growing (raise code : tx Db A).
Proof. by apply growing_reads. Qed.

Lemma growing_lift {A} (r : res A) : growing (lift r).
Proof. apply growing_reads. by intros db b db' [_ <-]%lift_ok. Qed.

Lemma growing_guard b code : growing (guard_tx b code).
Proof. apply growing_reads. by intros db u db' [_ <-]%guard_tx_ok. Qed.

Lemma growing_gets {A} (f : Db -> A) : growing (gets f).
Proof. apply growing_reads. by intros db u db' [_ <-]%gets_ok. Qed.

Lemma growing_load aid : growing (_load_grant aid).
Proof. apply growing_reads. by intros db g db' (row & _ & _ & ->)%load_grant_ok. Qed.

Lemma growing_append g t actor corr scope key body :
  no_floats (JObj body) = true -> growing (_append g t actor corr scope key body).
Proof.
  intros Hnf db a db' Hok (es & Happ & ->)%grant_append_ok.
  assert (plain (append_request g t actor corr scope key body)) as Hpl by done.
  split; [exact (el_append_ok _ _ _ _ Hok Hpl Happ)|].
  split; unfold with_store; cbn [store decisions consumptions grants]; [|done..|intros aid row H; by exists row].
  destruct (el_append_effect _ _ _ _ Hok Hpl Happ); [done|]. by eexists.
Qed.

Lemma growing_modify (f : Db -> Db) :
  (forall db, (f db).(store) = db.(store) /\ grows db (f db)) -> growing (modify f).
Proof. intros Hf db u db' Hok <-%modify_ok. destruct (Hf db) as [-> ?]. done. Qed.

Lemma growing_set_status aid s seq : growing (_set_status aid s seq).
Proof.
  apply growing_modify. intros db. split; [done|]. split; [done..|]. intros aid0 row H. cbn [grants with_grants].
  destruct (decide (aid0 = aid)) as [->|Hne].
  - exists (with_status s seq row). by rewrite lookup_alter_eq, H.
  - exists row. by rewrite lookup_alter_ne.
Qed.

Lemma growing_project g s event : growing (_project g s event).
Proof.
  apply growing_modify. intros db. split; [done|]. split; [done..|]. intros aid row H. by exists row.
Qed.

Lemma growing_record d : growing (_record_decision d).
Proof.
  intros db u db' Hok (_ & ->)%record_decision_ok. split; [done|].
  split; cbn; [done|by eexists|done|]. intros aid row H. by exists row.
Qed.

Lemma growing_consumption n : growing (insert_consumption n).
Proof.
  intros db u db' Hok (_ & ->)%insert_consumption_ok. split; [done|].
  split; cbn; [done|done|by eexists|]. intros aid row H. by exists row.
Qed.

Lemma growing_insert row : growing (insert_grant row).
Proof.
  intros db u db'. unfold insert_grant. destruct (grants db !! c_approval_id row) eqn:E; [done|].
  intros Hok [= _ <-]. split; [done|]. split; cbn; [done..|]. intros aid r H. exists r.
  rewrite lookup_insert_ne; [done|]. intros <-. congruence.
Qed.

Create HintDb growing.
#[local] Hint Resolve growing_ret growing_raise growing_lift growing_guard growing_gets growing_load growing_append
  growing_set_status growing_project growing_record growing_consumption growing_insert : growing.

Ltac growing :=
  repeat first [ apply growing_bind; [|intros ?] | progress cbn zeta | case_match ]; eauto with growing.

Lemma growing_conclude k g p t body n : no_floats (JObj body) = true -> growing (conclude k g p t body n).
Proof. intros H. unfold conclude. growing. Qed.

Lemma growing_decision k g p prior : growing (record_decision k g p prior).
Proof.
  unfold record_decision. destruct (String.eqb _ _); [by apply growing_conclude|]. cbn zeta.
  destruct (_ <=? _); [apply growing_conclude; cbn -[jstrs]; by rewrite (proj1 (jstrs_ok _))|]. growing.
Qed.

Lemma growing_terminate t scope args : growing (_terminate t scope args).
Proof. unfold _terminate. growing. all: apply growing_append; by destruct (String.eqb t "APPROVAL_EXPIRED"). Qed.

Lemma growing_expire_each e actor corr ids : growing (expire_each e actor corr ids).
Proof.
  induction ids as [|aid ids IH]; cbn [expire_each]; [apply growing_ret|].
  apply growing_bind; [|intros x; growing]. unfold expire_one. apply growing_bind; [apply growing_terminate|].
  intros a. growing.
Qed.

Lemma growing_consume now n : growing (consume_approval now n).
Proof. unfold consume_approval, consume_new. growing. Qed.

Lemma growing_request c now hex a : growing (request_approval isoformat_utc c now hex a).
Proof.
  unfold request_approval. apply growing_bind.
  { apply growing_reads. intros db u db'. unfold validate_subject. intros H. repeat case_match; congruence. }
  intros ?. unfold replay_request. growing.
  all: apply growing_append; cbn; by destruct (a_max_uses a).
Qed.

Lemma settle_grows {A} (m : tx Db A) db : growing m -> el_ok db.(store) -> grows db (settle (m db) db).
Proof. intros Hm Hok. unfold settle. destruct (m db) as [[a db']|] eqn:E; [|done]. by apply (Hm _ _ _ Hok E). Qed.

Lemma perform_grows db o : inv db -> grows db (perform db o).
Proof.
  intros Hinv. pose proof (inv_store db Hinv) as Hok. destruct o; cbn [perform].
  - apply settle_grows; [apply growing_request|done].
  - unfold decide_approval. destruct (open_grant k now db) as [[g db0]|]; [|done].
    destruct (check_eligibility _ _ _ _ _ _ _ _ _ _ _ _) as [l [e|]]; [|done]. cbn [snd].
    destruct (eligible e), (approver e); try done. cbn [snd]. apply settle_grows; [apply growing_decision|done].
  - apply settle_grows; [|done]. unfold cancel_approval. growing. all: apply growing_terminate.
  - apply settle_grows; [apply growing_terminate|done].
  - apply settle_grows; [|done]. unfold expire_approvals. growing. all: apply growing_expire_each.
  - apply settle_grows; [apply growing_consume|done].
  - split; [done..|]. intros aid row H. by exists row.
  - destruct (foreign r) eqn:Hf; [|done]. destruct (el_append _ _) as [[a es]|] eqn:E; [|done].
    split; cbn; [|done..|intros aid row H; by exists row]. unfold foreign in Hf.
    apply andb_true_iff in Hf as [[_ Hnf]%andb_true_iff Hse].
    assert (plain r) as Hpl by (split; [done|]; by destruct (r_sensitive r)).
    destruct (el_append_effect _ _ _ _ Hok Hpl E); [done|]. by eexists.
Qed.

Lemma run_grows db os : inv db -> grows db (run db os).
Proof.
  revert db. induction os as [|o os IH]; intros db H; [reflexivity|]. cbn. etrans; [by apply perform_grows|].
  by apply IH, perform_inv.
Qed.

(** * Theorems *)

(** C15. Who may decide. With a loaded catalog and known risks the check always
    answers. It admits an account exactly when it is active, belongs to neither
    the requester nor the implementing Agent nor one of their aliases, has not decided
    this approval, is human where the risk or the request demands it, is authorized for
    [approval.decide] in the channel by a role whose limit covers the risk, and has
    re-authenticated for HIGH and CRITICAL. Every refusal leaves audit rows, an
    admission none. *)
Theorem eligibility_exact raw c audit_id (db : Db) account g prior reauth now auth_now correlation log :
  schema_valid raw -> build raw = Ok c -> risks_known db.(authority) -> g.(g_risk) ∈ RISK_ORDER ->
  exists log' e,
    check_eligibility sha256 c audit_id db account g prior reauth now auth_now correlation log = (log', Ok e) /\
    (e.(eligible) = true <->
     exists p, may_decide sha256 c audit_id db account g prior reauth now auth_now correlation p) /\
    (if e.(eligible) then log' = log else exists rows, log' = log ++ rows /\ rows <> []).
Proof.
  intros Hs Hb Hk Hr.
  destruct (check_eligibility_total sha256 c audit_id db account g prior reauth now auth_now correlation raw log
    Hs Hb Hk Hr) as (log' & e & He).
  exists log', e. split; [done|]. apply check_eligibility_decided in He as [Hiff Hlog]. split; [done|].
  destruct (eligible e); [by apply Hlog|done].
Qed.

(** C12. What the tables say about an approval is earned. In every state reached from
    empty tables, whatever operations succeed or fail and whatever other commands
    do: no approval is used more often than [max_uses] allows nor twice with one
    key; it is CONSUMED exactly when its last use is taken; it is usable or was used
    only after as many different accounts as its quorum asks for recorded APPROVE;
    none of them is the requester or the implementing Agent; and above MEDIUM risk
    each of them had re-authenticated. *)
Theorem approvals_sound db0 os aid row :
  initial db0 -> (run db0 os).(grants) !! aid = Some row ->
  let db := run db0 os in
  let uses := consumptions_of aid db.(consumptions) in
  let decs := decisions_of aid db.(decisions) in
  (forall m, row.(c_max_uses) = Some m -> Z.of_nat (length uses) <= m) /\
  NoDup (consumption_key <$> uses) /\
  (row.(c_status) = CONSUMED <-> row.(c_max_uses) = Some (Z.of_nat (length uses))) /\
  (row.(c_status) ∈ [APPROVED; PARTIALLY_CONSUMED; CONSUMED] \/ uses <> [] ->
   row.(c_quorum_required) <= Z.of_nat (length decs)) /\
  NoDup (decided_by <$> decs) /\ Forall (decider_ok row) decs /\
  (row.(c_status) <> REJECTED -> Forall (fun d => d.(d_decision) = "APPROVE") decs).
Proof.
  intros H0 Hrow. cbn zeta. pose proof (inv_grants _ (run_inv db0 os (initial_inv db0 H0)) aid row Hrow) as Hv.
  destruct (go_history _ _ _ _ _ _ Hv) as (ts & _ & Hh & Hq).
  destruct (history_uses _ _ _ _ (go_positive _ _ _ _ _ _ Hv) Hh) as (_ & Hm & Hc).
  split_and!; try apply Hv; try done. intros Hor. apply Hq, (history_granted _ _ _ _ Hh).
  destruct Hor as [Hs|Hu].
  - unfold CONSUMABLE. set_solver.
  - right. right. destruct (consumptions_of aid _); [done|cbn; lia].
Qed.

(** A terminal approval is final. Once an approval is consumed, rejected,
    cancelled, expired or revoked, no later operation changes its status or uses it
    again. *)
Theorem terminal_approvals_final db0 os later aid row :
  initial db0 -> (run db0 os).(grants) !! aid = Some row -> row.(c_status) ∈ TERMINAL ->
  exists row', (run db0 (os ++ later)).(grants) !! aid = Some row' /\ row'.(c_status) = row.(c_status) /\
    consumptions_of aid (run db0 (os ++ later)).(consumptions) = consumptions_of aid (run db0 os).(consumptions).
Proof.
  intros H0 Hrow Hterm. unfold run. rewrite foldl_app. fold (run db0 os). fold (run (run db0 os) later).
  set (db := run db0 os) in *. pose proof (run_inv db0 os (initial_inv db0 H0)) as Hinv. fold db in Hinv.
  destruct (run_grows db later Hinv) as [[l Hl] _ [lc Hlc] Hg]. destruct (Hg aid row Hrow) as (row' & Hrow' & Hfix).
  pose proof (inv_grants _ Hinv aid row Hrow) as Hv.
  pose proof (inv_grants _ (run_inv db later Hinv) aid row' Hrow') as Hv'.
  assert (row'.(c_workspace) = row.(c_workspace) /\ row'.(c_max_uses) = row.(c_max_uses)) as [Hws Hmu]
    by (split; [exact (f_equal c_workspace Hfix)|exact (f_equal c_max_uses Hfix)]).
  destruct (go_history _ _ _ _ _ _ Hv) as (ts & Hts' & Hh & _).
  destruct (go_history _ _ _ _ _ _ Hv') as (ts2 & Hts2 & Hh2 & _).
  assert (exists ts', ts2 = ts ++ ts') as [ts' ->].
  { rewrite Hl, Hws in Hts2. unfold stream in Hts2, Hts'. rewrite in_stream_app, fmap_app, Hts' in Hts2.
    clear -Hts2. revert ts2 Hts2. induction ts as [|t ts IH]; intros ts2 H; [by exists ts2|].
    destruct ts2 as [|t2 ts2]; [done|]. cbn [fmap list_fmap app] in H. injection H as Ht H. apply lit_inj in Ht as ->.
    destruct (IH _ H) as [ts' ->]. by exists ts'. }
  rewrite Hmu in Hh2. destruct (history_extend _ _ _ _ _ _ _ Hh Hterm Hh2) as [Hs Hn].
  exists row'. split; [done|]. split; [done|]. rewrite Hlc in Hn |- *. unfold consumptions_of in *.
  rewrite List.filter_app, length_app in Hn. rewrite List.filter_app.
  destruct (List.filter _ lc); [by rewrite app_nil_r|cbn in Hn; lia].
Qed.

Lemma find_prefix {A} (f : A -> bool) l l' x : find f l = Some x -> find f (l ++ l') = Some x.
Proof. induction l as [|y l IH]; cbn; [done|]. by destruct (f y). Qed.

(** C13. A use is counted once. After a use of an approval was accepted, the same
    consumption key is answered, at any later time and whatever the status of the
    approval has become, with the original Event and changes nothing. *)
Theorem use_counted_once db0 os now n r db1 later now' n' :
  initial db0 -> consume_approval now n (run db0 os) = Ok (r, db1) ->
  n'.(n_id) = n.(n_id) -> n'.(n_key) = n.(n_key) ->
  exists r', consume_approval now' n' (run db1 later) = Ok (r', run db1 later) /\
    r'.(cr_replayed) = true /\ r'.(cr_event_id) = r.(cr_event_id).
Proof.
  intros H0 Hc Hid Hkey. pose proof (run_inv db0 os (initial_inv db0 H0)) as Hinv.
  pose proof (consume_inv _ _ _ _ _ Hinv Hc) as Hinv1.
  destruct (run_grows db1 later Hinv1) as [_ _ [lc Hlc] Hg].
  set (same := fun c => String.eqb c.(n_approval_id) n.(n_id) && String.eqb c.(consumption_key) n.(n_key)).
  assert (exists row c, db1.(grants) !! n.(n_id) = Some row /\ find same db1.(consumptions) = Some c /\
    c.(n_event_id) = r.(cr_event_id)) as (row & c & Hrow & Hf & Hev).
  { unfold consume_approval in Hc. apply tx_bind_ok in Hc as (g & db2 & (row & Hrow & -> & ->)%load_grant_ok & Hc).
    apply tx_bind_ok in Hc as (ex & db3 & (Hex & <-)%gets_ok & Hc). fold same in Hex.
    destruct ex as [c|].
    - apply tx_bind_ok in Hc as (cnt & db4 & (_ & <-)%gets_ok & Hc). apply tx_ret_ok in Hc as [<- <-].
      by exists row, c.
    - assert (exists row1, db1.(grants) !! n.(n_id) = Some row1) as [row1 Hrow1].
      { eapply consume_new_spec in Hc as (_ & _ & _ & _ & _ & _ & _ & _ & _ & row1 & ? & _); eauto. }
      unfold consume_new in Hc.
      apply tx_bind_ok in Hc as (u1 & d1 & (_ & <-)%guard_tx_ok & Hc).
      apply tx_bind_ok in Hc as (u2 & d2 & (_ & <-)%guard_tx_ok & Hc).
      apply tx_bind_ok in Hc as (u3 & d3 & (_ & <-)%guard_tx_ok & Hc).
      apply tx_bind_ok in Hc as (u4 & d4 & (_ & <-)%guard_tx_ok & Hc).
      apply tx_bind_ok in Hc as (cnt & d5 & (_ & <-)%gets_ok & Hc).
      apply tx_bind_ok in Hc as (u5 & d6 & (_ & <-)%guard_tx_ok & Hc).
      apply tx_bind_ok in Hc as (a & d7 & (es & _ & ->)%grant_append_ok & Hc).
      apply tx_bind_ok in Hc as (u6 & d8 & (_ & ->)%insert_consumption_ok & Hc).
      cbn zeta in Hc. unfold _set_status, _project, modify, mbind, tx_bind, mret, tx_ret in Hc.
      injection Hc as <- <-. exists row1, {| n_approval_id := n_id n; consumption_key := n_key n; consumed_by := n_by n;
        consumed_for := n_for n; n_event_id := a_event_id a |}. split; [exact Hrow1|].
      cbn [consumptions with_consumptions with_store with_projection with_grants].
      split; [|done]. revert Hex. generalize (consumptions (run db0 os)) as l. intros l.
      induction l as [|x l IH]; cbn [find app].
      + intros _. unfold same. cbn [n_approval_id consumption_key]. by rewrite !String.eqb_refl.
      + destruct (same x); [discriminate|exact IH]. }
  destruct (Hg _ _ Hrow) as (row' & Hrow' & _). unfold consume_approval, mbind, tx_bind, gets.
  unfold _load_grant. rewrite Hid, Hkey, Hrow'. fold same. rewrite Hlc, (find_prefix _ _ _ _ Hf).
  eexists. by split.
Qed.

Lemma deciders_of_lit decs aid : deciders_of decs (lit aid) = decided_by <$> decisions_of aid decs.
Proof.
  unfold deciders_of, decisions_of. f_equal. apply List.filter_ext. intros d.
  destruct (String.eqb_spec d.(d_approval_id) aid) as [->|Hne]; [by rewrite bool_decide_eq_true_2|].
  rewrite bool_decide_eq_false_2; [done|]. by intros E%lit_inj.
Qed.

(** C14. Replaying the Events rebuilds the projection. In every reachable state
    [rebuild_approvals] succeeds and gives the rows the operations maintain, in
    every column of the snapshot hash, except that [decided_by] of a PENDING approval
    is empty after the rebuild: an approval below the quorum leaves no Event. *)
Theorem projection_rebuilds db0 os :
  initial db0 ->
  let db := run db0 os in
  exists n db', rebuild_approvals parse_ts None db = Ok (n, db') /\
    forall k, match db.(projection) !! k, db'.(projection) !! k with
              | Some x, Some y => columns y = columns x /\
                  y.(x_decided_by) = if String.eqb x.(x_status) "PENDING" then [] else x.(x_decided_by)
              | None, None => True
              | _, _ => False
              end.
Proof.
  intros H0 db. pose proof (run_inv db0 os (initial_inv db0 H0)) as Hinv. fold db in Hinv.
  destruct (inv_rebuild db Hinv db.(decisions)) as (m & Hm & Hcol). unfold rebuild_approvals.
  assert (filter (fun e : ustr * ProjectionRow => of_workspace None e.2.(x_workspace) = false) db.(projection) = ∅) as ->.
  { apply map_empty_filter_2. by intros k x _. }
  fold (approval_events (el_log db.(store))). rewrite Hm. cbn [mbind res_bind].
  eexists _, _. split; [done|]. intros k. cbn [projection with_projection]. specialize (Hcol k).
  destruct (projection db !! k) as [x|] eqn:Hx; [|by rewrite Hcol].
  destruct Hcol as (y & -> & Hc & Hd). split; [done|]. rewrite Hd.
  destruct (inv_projection db Hinv k) as (aid & -> & [row Hrow]); [by eexists|].
  destruct (go_live _ _ _ _ _ _ (inv_grants db Hinv aid row Hrow)) as (e & _ & Hl). rewrite Hx in Hl.
  injection Hl as ->. by rewrite deciders_of_lit.
Qed.

(** What [consume_approval] asks of an approval for a new use. *)
Definition usable_for (row : GrantRow) (uses : Z) (now : Z) (for_ : Subject) : Prop :=
  row.(c_status) ∈ CONSUMABLE /\ row.(c_valid_from) <= now < row.(c_expires_at) /\
  for_ = {| subject_type := row.(c_subject_type); subject_id := row.(c_subject_id) |} /\
  (forall m, row.(c_max_uses) = Some m -> uses < m).

(** Bounded, atomic consumption. A new use of an approval succeeds only if the
    approval is approved, valid now, for the subject given and has a use left; then
    exactly one use is added and the status follows. A refusal names its reason, or
    is the Event store's. *)
Theorem consume_decides db0 os now n row :
  initial db0 -> let db := run db0 os in
  db.(grants) !! n.(n_id) = Some row ->
  n.(n_key) ∉ consumption_key <$> consumptions_of n.(n_id) db.(consumptions) ->
  let uses := used n.(n_id) db in
  match consume_approval now n db with
  | Ok (r, db') =>
      usable_for row uses now n.(n_for) /\ used n.(n_id) db' = uses + 1 /\ r.(used_count) = uses + 1 /\
      exists row', db'.(grants) !! n.(n_id) = Some row' /\
        row'.(c_status) = status_after_consumption (uses + 1) row.(c_max_uses)
  | Err e =>
      ~ usable_for row uses now n.(n_for) /\
        e ∈ ["APPROVAL_EXHAUSTED"; "APPROVAL_NOT_USABLE"; "APPROVAL_SCOPE_MISMATCH"] \/
      usable_for row uses now n.(n_for) /\ exists body key,
        el_append (append_request (grant_of row) "APPROVAL_CONSUMED" n.(n_by) n.(n_correlation) "consume" key body)
          db.(store) = Err e
  end.
Proof.
  intros H0 db Hrow Hnew uses. pose proof (run_inv db0 os (initial_inv db0 H0)) as Hinv. fold db in Hinv.
  assert (consume_approval now n db = consume_new now n (grant_of row) db) as ->.
  { unfold consume_approval, mbind, tx_bind, gets, _load_grant. rewrite Hrow. destruct (find _ _) as [c|] eqn:Hf; [|done].
    exfalso. apply find_some in Hf as [Hin [E1%String.eqb_eq E2%String.eqb_eq]%andb_true_iff].
    apply Hnew. rewrite <- E2. apply list_elem_of_fmap_2, consumptions_of_elem. split; [by apply list_elem_of_In|done]. }
  destruct (consume_new now n (grant_of row) db) as [[r db']|e] eqn:Hc.
  - destruct (consume_new_spec db now n row r db' Hinv Hrow Hc) as (H1 & H2 & H3 & H4 & _ & _ & H5 & H6 & _ & H7).
    by unfold usable_for.
  - unfold consume_new in Hc. unfold usable_for.
    unfold mbind at 1, tx_bind at 1, guard_tx at 1 in Hc. case_bool_decide as Hs; cbn in Hs.
    { left. injection Hc as <-. split; [|set_solver]. intros (H & _). rewrite Hs in H. unfold CONSUMABLE in H. set_solver. }
    cbn [mret tx_ret] in Hc. unfold mbind at 1, tx_bind at 1, guard_tx at 1 in Hc.
    destruct (mem (status (grant_of row)) CONSUMABLE) eqn:Hm; cbn [negb] in Hc.
    2: { left. injection Hc as <-. split; [|set_solver]. intros (H & _). apply mem_false in Hm. by apply Hm. }
    apply mem_spec in Hm. cbn [mret tx_ret] in Hc. unfold mbind at 1, tx_bind at 1, guard_tx at 1 in Hc.
    destruct ((_ <=? _) && _) eqn:Hw; cbn [negb] in Hc.
    2: { left. injection Hc as <-. split; [|set_solver]. intros (_ & H & _). cbn in Hw.
         apply andb_false_iff in Hw as [E%Z.leb_gt|E%Z.ltb_ge]; lia. }
    apply andb_true_iff in Hw as [Hw1%Z.leb_le Hw2%Z.ltb_lt]. cbn [mret tx_ret] in Hc.
    unfold mbind at 1, tx_bind at 1, guard_tx at 1 in Hc.
    case_bool_decide as Hf; cbn [negb] in Hc.
    2: { left. injection Hc as <-. split; [|set_solver]. intros (_ & _ & H & _). by apply Hf. }
    cbn [mret tx_ret] in Hc. unfold mbind at 1, tx_bind at 1, gets at 1 in Hc.
    unfold mbind at 1, tx_bind at 1, guard_tx at 1 in Hc.
    destruct (match max_uses _ with Some m => _ | None => false end) eqn:Hx.
    { left. injection Hc as <-. split; [|set_solver]. intros (_ & _ & _ & H). cbn in Hx.
      destruct (c_max_uses row) as [m|]; [|done]. apply Z.leb_le in Hx. specialize (H m eq_refl). unfold uses in H. lia. }
    right. split.
    { split_and!; try done. intros m E. cbn in Hx. rewrite E in Hx. by apply Z.leb_gt in Hx. }
    cbn [mret tx_ret] in Hc. unfold mbind at 1, tx_bind at 1, _append at 1 in Hc.
    destruct (el_append _ _) as [[a es]|e'] eqn:Ha; [|injection Hc as <-; by eexists _, _].
    exfalso. unfold mbind at 1, tx_bind at 1, insert_consumption at 1 in Hc. cbn [consumptions with_store] in Hc.
    destruct (existsb _ _) eqn:Hex; [|done].
    apply existsb_exists in Hex as (c & Hin & [E1%String.eqb_eq E2%String.eqb_eq]%andb_true_iff). cbn in E1, E2.
    apply Hnew. rewrite <- E2. apply list_elem_of_fmap_2, consumptions_of_elem. split; [by apply list_elem_of_In|done].
Qed.
End history.

(** * A concrete workspace *)

Module Sample.

Definition human (acct uuid : string) : PrincipalInfo := {|
  account_id := acct; account_uuid := uuid; workspace_uuid := "ws"; account_type := "human";
  principal_status := "ACTIVE"; agent_id := None |}.

Definition roles_setup : list write := [
  CreateRole "ws" "role-approver" "Approver";
  CommitVersion "role-approver" ["approval.decide"] [] (Workspace.raw (Some "CRITICAL")) "root" None;
  AssignRole "uuid-1" "role-approver" "root" 0 None JNull None;
  AssignRole "uuid-2" "role-approver" "root" 0 None JNull None].

Definition people : Authority.Db := perform_all Workspace.hash roles_setup {|
  accounts := {["acct-1" := human "acct-1" "uuid-1"; "acct-2" := human "acct-2" "uuid-2"]}; roles := ∅;
  role_versions := ∅; assignments := []; agent_capabilities := ∅; channel_ids := ∅; channel_members := ∅ |}.

Definition catalog : PolicyCatalog := {|
  listed := [("approval.decide", true); ("data.delete", true)];
  action_classes := list_to_map [
    ("internal_write", {| class_risk := "LOW"; class_approval := "none" |});
    ("destructive", {| class_risk := "CRITICAL"; class_approval := "human_2" |})];
  action_specs := [
    ("command:approve.grant", {| spec_class := "internal_write"; spec_permission := "approval.decide" |});
    ("api:hard_delete", {| spec_class := "destructive"; spec_permission := "data.delete" |})];
  unclassified_default := "HIGH";
  quorums := list_to_map [("LOW", 0); ("MEDIUM", 1); ("HIGH", 1); ("CRITICAL", 2)];
  human_only_from := "HIGH"; capabilities := []; roles_raw := [] |}.

#[local] Instance store : EventLogI InMemoryEventStore := memory_log id (fun _ _ E => E) (lit "t").

(** [uuid-2] is an alias of [uuid-1]. *)
Definition start : Approvals.Db := {|
  grants := ∅; decisions := []; consumptions := []; projection := ∅; authority := people;
  aliases := [("ws", "uuid-2", "uuid-1")]; subjects := {[("task", "T-1") := "ws"]}; Approvals.store := empty_store |}.

Definition ask : RequestArgs := {|
  a_workspace := "ws"; a_requested_by := "uuid-r"; a_subject := {| subject_type := "task"; subject_id := "T-1" |};
  a_action := "api:hard_delete"; a_correlation := "c"; a_idempotency_key := "k1"; a_scope := []; a_risk := None;
  valid_for := None; a_max_uses := Some 1; a_implementing_agent := None; a_channel := None;
  a_requires_human := false |}.

Definition yes (acct key : string) : DecideArgs := {|
  k_approval_id := "apr-1"; k_account := acct; k_decision := "APPROVE"; k_fingerprint := "f"; k_reauth := true;
  k_correlation := "c"; k_idempotency_key := key; k_reason := "" |}.

Definition use (key : string) : ConsumeArgs := {|
  n_id := "apr-1"; n_key := key; n_by := "uuid-r"; n_for := {| subject_type := "task"; subject_id := "T-1" |};
  n_correlation := "c" |}.

Definition iso (t : Z) : ustr := str_int t.
Definition parse (s : ustr) : res Z := Ok 0.

Definition ops : list op := [
  ORequest catalog 0 "1" ask; ODecide catalog "aud-1" 1 1 (yes "acct-1" "d1");
  ODecide catalog "aud-2" 2 2 (yes "acct-2" "d2"); OConsume 3 (use "u1"); OConsume 4 (use "u1"); OConsume 5 (use "u2")].

Definition after (n : nat) : Approvals.Db := run Workspace.hash iso start (take n ops).

Definition status_after (n : nat) : option (ApprovalStatus * Z * list string) :=
  r ← (after n).(grants) !! "apr-1";
  Some (r.(c_status), used "apr-1" (after n), decided_by <$> (after n).(decisions)).

Lemma start_initial : initial start.
Proof. split_and!; try done. Qed.
End Sample.

#[local] Existing Instance Sample.store.

(** The quorum of two for CRITICAL risk counts accounts, not people: the second
    approval comes from an alias of the first approver. *)
Example alias_fills_quorum :
  Sample.status_after 2 = Some (PENDING, 0, ["uuid-1"]) /\
  Sample.status_after 3 = Some (APPROVED, 0, ["uuid-1"; "uuid-2"]) /\
  effective_principal "uuid-2" (alias_graph Sample.start.(aliases) "ws") =
    effective_principal "uuid-1" (alias_graph Sample.start.(aliases) "ws").
Proof. vm_compute. done. Qed.

(** A rebuild between the two approvals forgets the first approver. *)
Example rebuild_forgets_partial_decision :
  match rebuild_approvals Sample.parse None (Sample.after 2) with
  | Ok (_, db') => (x_decided_by <$> (Sample.after 2).(projection) !! lit "apr-1", x_decided_by <$> db'.(projection) !! lit "apr-1")
  | Err _ => (None, None)
  end = (Some ["uuid-1"], Some []).
Proof. vm_compute. done. Qed.

Definition row_after (n : nat) : GrantRow :=
  default (new_grant Sample.ask "" "" 0 0 0) ((Sample.after n).(grants) !! "apr-1").

Lemma row_after_found n : is_Some ((Sample.after n).(grants) !! "apr-1") ->
  (Sample.after n).(grants) !! "apr-1" = Some (row_after n).
Proof. unfold row_after. intros [row ->]. done. Qed.

Lemma iso_parses : forall t, exists t', Sample.parse (Sample.iso t) = Ok t'.
Proof. by eexists. Qed.

Lemma granted_at_6 : (Sample.after 6).(grants) !! "apr-1" = Some (row_after 6).
Proof. apply row_after_found, (bool_decide_unpack _). vm_compute. exact I. Qed.

Lemma granted_at_3 : (Sample.after 3).(grants) !! "apr-1" = Some (row_after 3).
Proof. apply row_after_found, (bool_decide_unpack _). vm_compute. exact I. Qed.

Lemma approvals_sound_witness :
  ((row_after 6).(c_status) = CONSUMED <->
   (row_after 6).(c_max_uses) = Some (Z.of_nat (length (consumptions_of "apr-1" (Sample.after 6).(consumptions))))).
Proof.
  apply (approvals_sound Workspace.hash Sample.iso Sample.parse iso_parses Sample.start (take 6 Sample.ops) "apr-1").
  - exact Sample.start_initial.
  - exact granted_at_6.
Defined.

Lemma consumed_at_6 : (row_after 6).(c_status) ∈ TERMINAL.
Proof. apply (bool_decide_unpack _). vm_compute. exact I. Qed.

Lemma terminal_approvals_final_witness :
  exists row', (run Workspace.hash Sample.iso Sample.start (take 6 Sample.ops ++ [OConsume 9 (Sample.use "u9")])).(grants) !! "apr-1" = Some row' /\
    row'.(c_status) = (row_after 6).(c_status).
Proof.
  destruct (terminal_approvals_final Workspace.hash Sample.iso Sample.parse iso_parses Sample.start (take 6 Sample.ops)
    [OConsume 9 (Sample.use "u9")] "apr-1" (row_after 6) Sample.start_initial granted_at_6 consumed_at_6) as (row' & H1 & H2 & _).
  exists row'. split; [exact H1|exact H2].
Defined.

Lemma use_counted_once_witness :
  match consume_approval 3 (Sample.use "u1") (Sample.after 3) with
  | Ok (r, db1) => exists r', consume_approval 8 (Sample.use "u1") db1 = Ok (r', db1) /\
      r'.(cr_replayed) = true /\ r'.(cr_event_id) = r.(cr_event_id)
  | Err _ => False
  end.
Proof.
  destruct (consume_approval 3 (Sample.use "u1") (Sample.after 3)) as [[r db1]|e] eqn:E.
  - apply (use_counted_once Workspace.hash Sample.iso Sample.parse iso_parses Sample.start (take 3 Sample.ops) 3
      (Sample.use "u1") r db1 [] 8 (Sample.use "u1") Sample.start_initial E eq_refl eq_refl).
  - exfalso. assert (is_ok (consume_approval 3 (Sample.use "u1") (Sample.after 3)) = true) as Hok
      by (vm_compute; reflexivity). rewrite E in Hok. discriminate Hok.
Defined.

Lemma projection_rebuilds_witness :
  exists n db', rebuild_approvals Sample.parse None (Sample.after 6) = Ok (n, db') /\
    match (Sample.after 6).(projection) !! lit "apr-1", db'.(projection) !! lit "apr-1" with
    | Some x, Some y => columns y = columns x /\
        y.(x_decided_by) = if String.eqb x.(x_status) "PENDING" then [] else x.(x_decided_by)
    | None, None => True
    | _, _ => False
    end.
Proof.
  destruct (projection_rebuilds Workspace.hash Sample.iso Sample.parse iso_parses Sample.start (take 6 Sample.ops)
    Sample.start_initial) as (n & db' & H1 & H2).
  exists n, db'. split; [exact H1|exact (H2 (lit "apr-1"))].
Defined.

Lemma consume_decides_witness :
  match consume_approval 3 (Sample.use "u1") (Sample.after 3) with
  | Ok (r, db') => used "apr-1" db' = used "apr-1" (Sample.after 3) + 1
  | Err e => e ∈ ["APPROVAL_EXHAUSTED"; "APPROVAL_NOT_USABLE"; "APPROVAL_SCOPE_MISMATCH"] \/ exists body key,
      el_append (append_request (grant_of (row_after 3)) "APPROVAL_CONSUMED" "uuid-r" "c" "consume" key body)
        (Sample.after 3).(Approvals.store) = Err e
  end.
Proof.
  assert ("u1" ∉ consumption_key <$> consumptions_of "apr-1" (Sample.after 3).(consumptions)) as Hnew
    by (apply (bool_decide_unpack _); vm_compute; exact I).
  pose proof (consume_decides Workspace.hash Sample.iso Sample.parse iso_parses Sample.start (take 3 Sample.ops) 3
    (Sample.use "u1") (row_after 3) Sample.start_initial granted_at_3 Hnew) as H. cbn zeta in H.
  change (run Workspace.hash Sample.iso Sample.start (take 3 Sample.ops)) with (Sample.after 3) in H.
  destruct (consume_approval 3 (Sample.use "u1") (Sample.after 3)) as [[r db']|e].
  - exact (proj1 (proj2 H)).
  - destruct H as [[_ H]|[_ H]]; [left; exact H|right; exact H].
Defined.

Lemma catalog_valid : schema_valid Sample.catalog.
Proof.
  assert (map_Forall (fun _ v => v.(class_risk) ∈ RISK_ORDER) Sample.catalog.(action_classes)) as Hc
    by (apply (bool_decide_unpack _); vm_compute; exact I).
  split; [exact Hc|cbn..].
  - done.
  - intros r Hr. unfold RISK_ORDER in Hr.
    repeat (apply elem_of_cons in Hr as [->|Hr]; [by eexists|]). by apply elem_of_nil in Hr.
  - by apply (bool_decide_unpack _).
  - intros e He. by apply elem_of_nil in He.
  - by apply (bool_decide_unpack _).
Qed.

Lemma eligibility_exact_witness :
  exists log' e,
    check_eligibility Workspace.hash Sample.catalog "aud" (Sample.after 1) "acct-1" (grant_of (row_after 6)) ∅ true 1 1 "c" [] =
      (log', Ok e) /\
    (e.(eligible) = true <->
     exists p, may_decide Workspace.hash Sample.catalog "aud" (Sample.after 1) "acct-1" (grant_of (row_after 6)) ∅ true 1 1 "c" p).
Proof.
  destruct (eligibility_exact Workspace.hash Sample.catalog Sample.catalog "aud" (Sample.after 1) "acct-1"
    (grant_of (row_after 6)) ∅ true 1 1 "c" [] catalog_valid) as (log' & e & H1 & H2 & _).
  - vm_compute. reflexivity.
  - apply (bool_decide_unpack _). vm_compute. exact I.
  - apply (bool_decide_unpack _). vm_compute. exact I.
  - exists log', e. split; [exact H1|exact H2].
Defined.
