(* ===== verification/Usage.v ===== *)
(** Usage of Agents: pricing ([server/usage/pricing.py]), the append-only usage
    records and their sums ([server/usage/records.py]), and the limits an Agent's
    requests are held to ([server/agents/limits.py]). *)

From S2P Require Import Prelude Defaults Tx EventLog.
Open Scope Z_scope.

(** * Pricing *)

Record Rate := {
  input_per_1k_tokens : Z; output_per_1k_tokens : Z; per_tool_call : Z; per_wall_second : Z }.

Record Pricing := { pricing_version : string; default_rate : Rate; models : gmap string Rate }.

Definition rate_for (p : Pricing) (model : string) : Rate * bool :=
  match p.(models) !! model with Some r => (r, true) | None => (p.(default_rate), false) end.

Record UsageBlock := {
  model : string;
  input_tokens : Z;
  output_tokens : Z;
  tool_calls : Z;
  wall_time_ms : Z;
  reported_cost : option Z (* "cost_units" *) }.

(** A report that passed the schema [adapters/usage.v1]: one of its two keys. *)
Inductive Report := Used (u : UsageBlock) | UsageUnavailable (reason : string).

(** [-(-numerator // denominator)]. *)
Definition _ceil_div (numerator denominator : Z) : Z := - ((- numerator) / denominator).

Definition cost_from_rate (r : Rate) (u : UsageBlock) : Z :=
  _ceil_div (u.(input_tokens) * r.(input_per_1k_tokens)) 1000 +
  _ceil_div (u.(output_tokens) * r.(output_per_1k_tokens)) 1000 +
  u.(tool_calls) * r.(per_tool_call) +
  _ceil_div (u.(wall_time_ms) * r.(per_wall_second)) 1000.

Record CostResult := { r_cost_units : Z; r_source : string; r_pricing_version : string; r_model : string }.

Definition compute_cost_units (report : Report) (p : Pricing) : option CostResult :=
  match report with
  | UsageUnavailable _ => None
  | Used u =>
      let '(rate, known) := rate_for p u.(model) in
      Some match u.(reported_cost) with
      | Some c => {| r_cost_units := c; r_source := "reported"; r_pricing_version := p.(pricing_version);
                     r_model := u.(model) |}
      | None => {| r_cost_units := cost_from_rate rate u;
                   r_source := if known : bool then "computed" else "estimated";
                   r_pricing_version := p.(pricing_version); r_model := u.(model) |}
      end
  end.

(** * Usage records *)

Definition SCOPE_TYPES : list string :=
  ["agent_daily"; "agent_task"; "channel_daily"; "schedule_run"; "schedule_daily"].

Record UsageRecord := {
  u_agent : option string;
  u_account : string;
  u_task : option string;
  u_run : option string;
  u_work_item : option string;
  u_model : option string;
  u_input_tokens : Z;
  u_output_tokens : Z;
  u_tool_calls : Z;
  wall_ms : Z;
  cost_units : Z;
  source : string;
  unavailable_reason : option string;
  u_pricing_version : string;
  reported_at : Z }.

Definition build_report (usage : option UsageBlock) (reason : option string) : res Report :=
  match usage, reason with
  | Some u, _ => Ok (Used u)
  | None, Some r => Ok (UsageUnavailable r)
  | None, None => Err "USAGE_REQUIRED"
  end.

Record UsageArgs := {
  g_account : string; g_agent : option string; g_work_item : option string; g_task : option string;
  g_run : option string; g_usage : option UsageBlock; g_reason : option string }.

(** The row [record_usage] inserts; [valid] is the schema check of the report. *)
Definition usage_row (valid : Report -> bool) (p : Pricing) (now : Z) (a : UsageArgs) : res UsageRecord :=
  report ← build_report a.(g_usage) a.(g_reason);
  guard_err (negb (valid report)) "USAGE_INVALID"
  (let cost := compute_cost_units report p in
   let of_usage f := match report with Used u => f u | UsageUnavailable _ => 0 end in
   Ok {| u_agent := a.(g_agent); u_account := a.(g_account); u_task := a.(g_task); u_run := a.(g_run);
         u_work_item := a.(g_work_item); u_model := r_model <$> cost; u_input_tokens := of_usage input_tokens;
         u_output_tokens := of_usage output_tokens; u_tool_calls := of_usage tool_calls;
         wall_ms := of_usage wall_time_ms; cost_units := default 0 (r_cost_units <$> cost);
         source := default "unavailable" (r_source <$> cost);
         unavailable_reason := match report with Used _ => None | UsageUnavailable r => Some r end;
         u_pricing_version := p.(pricing_version); reported_at := now |}).

Definition record_usage (valid : Report -> bool) (p : Pricing) (now : Z) (a : UsageArgs) (rows : list UsageRecord)
    : res (UsageRecord * list UsageRecord) :=
  row ← usage_row valid p now a; Ok (row, rows ++ [row]).

(** Days are numbered from the epoch. *)
Definition day_us : Z := hours 24.
Definition day_number (t : Z) : Z := t / day_us.
Definition _day_bounds (day : Z) : Z * Z := (day * day_us, day * day_us + day_us).

Definition in_day (day : Z) (t : Z) : bool := let '(a, b) := _day_bounds day in (a <=? t) && (t <? b).

Definition sum_cost (rows : list UsageRecord) : Z := foldr (fun r s => r.(cost_units) + s) 0 rows.

(** The rows of a scope; [task_channel] is the channel of a task in [tasks_projection]. *)
Definition in_scope (task_channel : gmap string string) (scope_type scope_id : string) (run_ids : list string)
    (r : UsageRecord) : bool :=
  if String.eqb scope_type "agent_daily" then bool_decide (r.(u_agent) = Some scope_id)
  else if String.eqb scope_type "agent_task" then
    let '(agent, _, task) := str_partition "|"%char scope_id in
    bool_decide (r.(u_agent) = Some agent) && bool_decide (r.(u_task) = Some task)
  else if String.eqb scope_type "channel_daily" then
    match r.(u_task) with Some t => bool_decide (task_channel !! t = Some scope_id) | None => false end
  else if String.eqb scope_type "schedule_run" then bool_decide (r.(u_run) = Some scope_id)
  else match r.(u_run) with Some run => mem run run_ids | None => false end.

Definition usage_for (task_channel : gmap string string) (rows : list UsageRecord) (scope_type scope_id : string)
    (day : option Z) (run_ids : option (list string)) : res Z :=
  guard_err (negb (mem scope_type SCOPE_TYPES)) "BUDGET_SCOPE_INVALID"
  (let daily := negb (String.eqb scope_type "schedule_run") in
   let ids := default [] run_ids in
   let sum in_window := sum_cost (List.filter (fun r =>
     in_window r.(reported_at) && in_scope task_channel scope_type scope_id ids r) rows) in
   if daily then
     match day with
     | None => Err "BUDGET_SCOPE_INVALID"
     | Some d =>
         if String.eqb scope_type "schedule_daily" && bool_decide (ids = []) then Ok 0
         else Ok (sum (in_day d))
     end
   else Ok (sum (fun _ => true))).

(** Newest first, then the later row. *)
Definition recent_leb (a b : nat * UsageRecord) : bool :=
  if b.2.(reported_at) =? a.2.(reported_at) then (b.1 <=? a.1)%nat else b.2.(reported_at) <=? a.2.(reported_at).

(** [kinds] is the kind of a work item. *)
Definition estimate_for (kinds : gmap string string) (rows : list UsageRecord) (agent kind : string) (dflt : Z)
    (window : nat) : Z :=
  let mine := List.filter (fun e : nat * UsageRecord =>
    bool_decide (e.2.(u_agent) = Some agent) && negb (String.eqb e.2.(source) "unavailable") &&
    match e.2.(u_work_item) with Some w => bool_decide (kinds !! w = Some kind) | None => false end)
    (imap pair rows) in
  match take window (py_sorted recent_leb mine) with
  | [] => dflt
  | recent => _ceil_div (sum_cost recent.*2) (Z.of_nat (length recent))
  end.

(** * Limits of an Agent *)

Module Limits.

Definition KINDS : list string := ["request"; "task_accept"; "brainstorm_turn"; "task_cost"; "task_wall_time"].
Definition NON_TERMINAL : list string := ["ACCEPTED"; "RUNNING"; "WAITING"; "IMPLEMENTED"; "VERIFYING"].

Record LimitCheck := { limit : string; configured : Z; current : Z }.

Definition exceeded (c : LimitCheck) : bool := c.(configured) <=? c.(current).

Record AgentRow := { agent_id : string; ag_workspace : string; ag_account : string; limits : gmap string Z }.

Record TaskRow := { t_task_id : string; t_workspace : string; assignee : option string; t_status : string; t_channel : option string }.

Record TurnItem := { w_agent : string; w_kind : string; w_created_at : Z }.

Record Db := {
  agents : list AgentRow;
  rate_windows : gmap (string * Z) Z;  (* agent, window start: requests *)
  tasks : list TaskRow;
  turn_items : list TurnItem;
  usage_rows : list UsageRecord }.

Definition with_windows (w : gmap (string * Z) Z) (db : Db) : Db := {|
  agents := db.(agents); rate_windows := w; tasks := db.(tasks); turn_items := db.(turn_items);
  usage_rows := db.(usage_rows) |}.

Definition _minute (now : Z) : Z := now - now mod minutes 1.

Definition rate_window_count (db : Db) (agent : string) (now : Z) : Z :=
  default 0 (db.(rate_windows) !! (agent, _minute now)).

Definition _count_request (agent : string) (now : Z) (db : Db) : Db :=
  let m := <[(agent, _minute now) := rate_window_count db agent now + 1]> db.(rate_windows) in
  with_windows (filter (fun e => ~ (e.1.1 = agent /\ e.1.2 < _minute now - hours 1)) m) db.

Definition occupies (account : string) (t : TaskRow) : bool :=
  bool_decide (t.(assignee) = Some account) && mem t.(t_status) NON_TERMINAL.

Definition concurrent_tasks (db : Db) (account ws : string) : Z :=
  Z.of_nat (length (List.filter (fun t => occupies account t && String.eqb t.(t_workspace) ws) db.(tasks))).

Definition brainstorm_turns_today (db : Db) (agent : string) (now : Z) : Z :=
  Z.of_nat (length (List.filter (fun w => String.eqb w.(w_agent) agent && String.eqb w.(w_kind) "brainstorm_turn" &&
    in_day (day_number now) w.(w_created_at)) db.(turn_items))).

Definition task_wall_ms (db : Db) (agent task : string) : Z :=
  foldr (fun r s => r.(wall_ms) + s) 0 (List.filter (fun r => bool_decide (r.(u_agent) = Some agent) &&
    bool_decide (r.(u_task) = Some task)) db.(usage_rows)).

Definition task_channels (db : Db) : gmap string string :=
  list_to_map (omap (fun t => (fun c => (t.(t_task_id), c)) <$> t.(t_channel)) db.(tasks)).

(** [checks.append(...)] when the limit is configured. *)
Definition check_if (row : AgentRow) (name : string) (value : res Z) : res (list LimitCheck) :=
  match row.(limits) !! name with
  | None => Ok []
  | Some cap => v ← value; Ok [{| limit := name; configured := cap; current := v |}]
  end.

Definition concurrent_now (db : Db) (row : AgentRow) (exclude : option string) : Z :=
  concurrent_tasks db row.(ag_account) row.(ag_workspace) -
  match exclude with
  | Some x => if existsb (fun t => String.eqb t.(t_task_id) x && occupies row.(ag_account) t) db.(tasks) then 1 else 0
  | None => 0
  end.

Definition evaluate (db : Db) (row : AgentRow) (kind : string) (now : Z) (task exclude : option string)
    : res (list LimitCheck) :=
  guard_err (negb (mem kind KINDS)) "AGENT_LIMIT_KIND_INVALID"
  (a ← check_if row "requests_per_minute" (Ok (rate_window_count db row.(agent_id) now));
   b ← (if String.eqb kind "task_accept"
        then check_if row "concurrent_tasks" (Ok (concurrent_now db row exclude)) else Ok []);
   c ← (if String.eqb kind "brainstorm_turn"
        then check_if row "brainstorm_turns" (Ok (brainstorm_turns_today db row.(agent_id) now)) else Ok []);
   d ← (if mem kind ["task_cost"; "request"; "task_accept"] then
          d1 ← check_if row "daily_cost_units"
            (usage_for (task_channels db) db.(usage_rows) "agent_daily" row.(agent_id) (Some (day_number now)) None);
          d2 ← (if truthy task then
                  check_if row "per_task_cost_units" (usage_for (task_channels db) db.(usage_rows) "agent_task"
                    (row.(agent_id) +:+ ":" +:+ default EmptyString task) None None)
                else Ok []);
          Ok (d1 ++ d2)
        else Ok []);
   e ← (if String.eqb kind "task_wall_time" && truthy task
        then check_if row "per_task_wall_ms" (Ok (task_wall_ms db row.(agent_id) (default EmptyString task)))
        else Ok []);
   Ok (a ++ b ++ c ++ d ++ e)).

(** What outlives the refused command: the audit row, and the re-routing of the
    task when a cost limit was hit. *)
Inductive Effect := LimitAudit (agent : string) (c : LimitCheck) (kind : string) | RerouteOnBudget (task : string).

Definition _agent (db : Db) (agent : string) (ws : option string) : res AgentRow :=
  match find (fun r => String.eqb r.(agent_id) agent &&
    match ws with Some w => String.eqb r.(ag_workspace) w | None => true end) db.(agents) with
  | Some r => Ok r
  | None => Err "AGENT_NOT_FOUND"
  end.

Definition refusal (agent kind : string) (task : option string) (c : LimitCheck) : list Effect :=
  LimitAudit agent c kind ::
  match task with
  | Some t => if truthy task && mem c.(limit) ["daily_cost_units"; "per_task_cost_units"]
              then [RerouteOnBudget t] else []
  | None => []
  end.

Definition enforce_limits (agent kind : string) (now : Z) (ws task exclude : option string) (count_request : bool)
    : atx Effect Db (list LimitCheck) := fun db log =>
  match (row ← _agent db agent ws; checks ← evaluate db row kind now task exclude; Ok (row, checks)) with
  | Err e => (log, Err e)
  | Ok (row, checks) =>
      match find exceeded checks with
      | Some c => (log ++ refusal agent kind task c, Err "AGENT_LIMIT_EXCEEDED")
      | None =>
          (log, Ok (checks, if count_request && bool_decide (is_Some (row.(limits) !! "requests_per_minute"))
                            then _count_request agent now db else db))
      end
  end.
End Limits.

(** * Theorems *)

Lemma ceil_div_bounds n d : 0 < d -> n <= d * _ceil_div n d < n + d.
Proof.
  intros Hd. unfold _ceil_div. pose proof (Z.div_mod (- n) d). pose proof (Z.mod_pos_bound (- n) d Hd). lia.
Qed.

Definition rate_ok (r : Rate) : Prop :=
  0 <= r.(input_per_1k_tokens) /\ 0 <= r.(output_per_1k_tokens) /\ 0 <= r.(per_tool_call) /\ 0 <= r.(per_wall_second).

(** The cost in thousandths of a unit, before any rounding. *)
Definition exact_cost (r : Rate) (u : UsageBlock) : Z :=
  u.(input_tokens) * r.(input_per_1k_tokens) + u.(output_tokens) * r.(output_per_1k_tokens) +
  1000 * (u.(tool_calls) * r.(per_tool_call)) + u.(wall_time_ms) * r.(per_wall_second).

(** [u] is at most [v], component by component. *)
Definition usage_le (u v : UsageBlock) : Prop :=
  0 <= u.(input_tokens) <= v.(input_tokens) /\ 0 <= u.(output_tokens) <= v.(output_tokens) /\
  0 <= u.(tool_calls) <= v.(tool_calls) /\ 0 <= u.(wall_time_ms) <= v.(wall_time_ms).

(** The price of a usage. Rounding each component up never charges less than the
    exact price, nor three units more; no usage has a negative price, and more usage
    never costs less. *)
Theorem cost_bounds r u v :
  rate_ok r -> usage_le u v ->
  exact_cost r u <= 1000 * cost_from_rate r u < exact_cost r u + 3000 /\
  0 <= cost_from_rate r u <= cost_from_rate r v.
Proof.
  intros (H1 & H2 & H3 & H4) (I1 & I2 & I3 & I4). unfold exact_cost, cost_from_rate.
  pose proof (ceil_div_bounds (u.(input_tokens) * r.(input_per_1k_tokens)) 1000).
  pose proof (ceil_div_bounds (u.(output_tokens) * r.(output_per_1k_tokens)) 1000).
  pose proof (ceil_div_bounds (u.(wall_time_ms) * r.(per_wall_second)) 1000).
  assert (forall a b k, 0 <= k -> 0 <= a <= b -> 0 <= _ceil_div (a * k) 1000 <= _ceil_div (b * k) 1000) as Hmono.
  { intros a b k Hk Hab. unfold _ceil_div.
    assert (0 <= a * k <= b * k) as [Ha Hb] by nia.
    pose proof (Z.div_le_mono (- (b * k)) (- (a * k)) 1000). pose proof (Z.div_le_upper_bound (- (a * k)) 1000 0). lia. }
  pose proof (Hmono _ _ _ H1 I1). pose proof (Hmono _ _ _ H2 I2). pose proof (Hmono _ _ _ H4 I4).
  assert (0 <= u.(tool_calls) * r.(per_tool_call) <= v.(tool_calls) * r.(per_tool_call)) by nia. lia.
Qed.

Lemma cost_bounds_witness :
  let r := {| input_per_1k_tokens := 3; output_per_1k_tokens := 15; per_tool_call := 2; per_wall_second := 1 |} in
  let u := {| model := "m"; input_tokens := 1; output_tokens := 1; tool_calls := 1; wall_time_ms := 1; reported_cost := None |} in
  exact_cost r u = 2019 /\ cost_from_rate r u = 5 /\ 1000 * cost_from_rate r u < exact_cost r u + 3000.
Proof.
  split; [reflexivity|]. split; [reflexivity|].
  apply (cost_bounds _ _ {| model := "m"; input_tokens := 1; output_tokens := 1; tool_calls := 1; wall_time_ms := 1; reported_cost := None |}).
  - repeat split; discriminate.
  - repeat split; discriminate.
Defined.

Module LimitFacts.
Import Limits.

Lemma check_if_ok row name v l : check_if row name v = Ok l ->
  match row.(limits) !! name with
  | None => l = []
  | Some cap => exists n, v = Ok n /\ l = [{| limit := name; configured := cap; current := n |}]
  end.
Proof.
  unfold check_if. destruct (limits row !! name); [|by intros [= <-]].
  intros (n & Hn & [= <-])%res_bind_ok. by exists n.
Qed.

Lemma agent_task_needs_day tc rows id ids : usage_for tc rows "agent_task" id None ids = Err "BUDGET_SCOPE_INVALID".
Proof. done. Qed.

(** The first check of every kind is the request rate. *)
Lemma evaluate_rate db row kind now task exclude checks rpm :
  evaluate db row kind now task exclude = Ok checks -> row.(limits) !! "requests_per_minute" = Some rpm ->
  {| limit := "requests_per_minute"; configured := rpm; current := rate_window_count db row.(agent_id) now |} ∈ checks.
Proof.
  unfold evaluate. intros [_ H]%guard_err_ok Hr. apply res_bind_ok in H as (a & Ha & H).
  apply check_if_ok in Ha. rewrite Hr in Ha. destruct Ha as (n & [= <-] & ->).
  repeat (apply res_bind_ok in H as (? & _ & H)). injection H as <-. left.
Qed.

Definition call : Type := string * string * Z * option string * option string * option string.

(** A request: the call that checks the limits, and whether the command it belongs to commits.
    The count is a row written in the transaction of that command. *)
Record Request := { rq_call : call; rq_commits : bool }.

Definition agent_of (q : Request) : string := let '(agent, _, _, _, _, _) := q.(rq_call) in agent.
Definition time_of (q : Request) : Z := let '(_, _, now, _, _, _) := q.(rq_call) in now.

(** Whether the limits let the request through, and what is left when its transaction ends. *)
Definition step (db : Db) (q : Request) : bool * Db :=
  let '(agent, kind, now, ws, task, exclude) := q.(rq_call) in
  match (enforce_limits agent kind now ws task exclude true db []).2 with
  | Ok (_, db') => (true, if q.(rq_commits) then db' else db)
  | Err _ => (false, db)
  end.

(** The requests of [agent] in minute [m] that were let through and committed. *)
Fixpoint served (agent : string) (m : Z) (db : Db) (qs : list Request) : Z :=
  match qs with
  | [] => 0
  | q :: qs =>
      let '(ok, db') := step db q in
      (if ok && q.(rq_commits) && String.eqb (agent_of q) agent && (_minute (time_of q) =? m) then 1 else 0) + served agent m db' qs
  end.

(** The requests that were let through, whatever became of their commands. *)
Fixpoint let_through (db : Db) (qs : list Request) : nat :=
  match qs with
  | [] => O
  | q :: qs => let '(ok, db') := step db q in ((if ok then 1 else 0) + let_through db' qs)%nat
  end.

Lemma minute_mono a b : a <= b -> _minute a <= _minute b.
Proof.
  intros H. unfold _minute. change (minutes 1) with 60000000.
  pose proof (Z.div_mod a 60000000). pose proof (Z.div_mod b 60000000).
  pose proof (Z.div_le_mono a b 60000000). lia.
Qed.

Lemma count_request_window agent now db a t :
  _minute now - hours 1 <= _minute t ->
  rate_window_count (_count_request agent now db) a t = rate_window_count db a t +
    (if String.eqb agent a && (_minute now =? _minute t) then 1 else 0).
Proof.
  intros Ht. unfold _count_request, rate_window_count at 1. cbn [rate_windows with_windows].
  rewrite map_lookup_filter.
  destruct (String.eqb_spec agent a) as [<-|Ha]; cbn [andb].
  - destruct (Z.eqb_spec (_minute now) (_minute t)) as [Em|Em].
    + rewrite Em, lookup_insert_eq. cbn. rewrite option_guard_True by (cbn; change (hours 1) with 3600000000; lia).
      cbn. unfold rate_window_count. by rewrite Em.
    + rewrite lookup_insert_ne by congruence. unfold rate_window_count. rewrite Z.add_0_r.
      destruct (rate_windows db !! _) as [n|]; [|done]. cbn. rewrite option_guard_True; [done|]. cbn. lia.
  - rewrite lookup_insert_ne by congruence. unfold rate_window_count. rewrite Z.add_0_r.
    destruct (rate_windows db !! _) as [n|]; [|done]. cbn. rewrite option_guard_True; [done|]. cbn. intros [E _]. congruence.
Qed.

Lemma count_request_agents agent now db : agents (_count_request agent now db) = agents db.
Proof. done. Qed.

(** A request leaves the rows alone or counts itself; one of an Agent under a rate limit that
    commits was let through below the limit only, and then counts itself. *)
Lemma step_shape db q ok db' rpm :
  step db q = (ok, db') ->
  (db' = db \/ ok && q.(rq_commits) = true /\ db' = _count_request (agent_of q) (time_of q) db) /\
  (Forall (fun r => r.(agent_id) = agent_of q -> r.(limits) !! "requests_per_minute" = Some rpm) db.(agents) ->
   ok && q.(rq_commits) = true -> rate_window_count db (agent_of q) (time_of q) < rpm /\
                db' = _count_request (agent_of q) (time_of q) db).
Proof.
  unfold step, agent_of, time_of. destruct q as [[[[[[agent kind] now] ws] task] exclude] commits]. cbn [rq_call rq_commits].
  unfold enforce_limits.
  intros Hst. destruct (_ ≫= _) as [[row checks]|e] eqn:E; [|injection Hst as <- <-; split; [by left|done]].
  apply res_bind_ok in E as (row' & Hrow & E). apply res_bind_ok in E as (checks' & Hch & E).
  injection E as -> ->.
  unfold _agent in Hrow. destruct (find _ (agents db)) as [r|] eqn:Hf; [|done]. injection Hrow as ->.
  apply find_some in Hf as [Hin [Hid%String.eqb_eq _]%andb_true_iff]. apply list_elem_of_In in Hin.
  destruct (find exceeded checks) as [x|] eqn:Hx; cbn [snd] in Hst; [injection Hst as <- <-; split; [by left|done]|].
  injection Hst as <- <-. cbn [andb]. destruct commits; [|by split; [left|]].
  split; [case_bool_decide; [by right|by left]|].
  intros Hlim _. rewrite Forall_forall in Hlim. specialize (Hlim row Hin Hid).
  pose proof (evaluate_rate _ _ _ _ _ _ _ _ Hch Hlim) as Hrate. rewrite Hid in Hrate.
  apply list_elem_of_In, (find_none _ _ Hx) in Hrate. unfold exceeded in Hrate. cbn in Hrate.
  split; [lia|]. rewrite bool_decide_eq_true_2; [done|]. rewrite Hlim. by eexists.
Qed.

Lemma served_late agent m db qs :
  Forall (fun q => m < _minute (time_of q)) qs -> served agent m db qs = 0.
Proof.
  revert db. induction qs as [|q qs IH]; intros db; [done|]. intros [Hq Hqs]%Forall_cons. cbn [served].
  destruct (step db q) as [ok db']. rewrite IH by done.
  replace (_minute (time_of q) =? m) with false by lia. by rewrite andb_false_r.
Qed.

(** C29. The served requests of an Agent are bounded in every minute. When the transactions of
    the requests run one after the other, in the order of their clock readings, and the Agent
    is limited to [rpm] requests a minute, then in each minute at most [rpm] requests of that
    Agent - less what the window of the minute already counts - are let through by commands
    that commit, although the windows older than an hour are deleted on the way, requests of
    other Agents and of every kind are mixed in, any of them may be refused for another limit,
    and any command may fail afterwards and take its count back with its transaction. Requests
    whose command fails are let through without any bound ([failed_requests_not_limited]). *)
Theorem request_rate_bounded agent rpm db qs t :
  StronglySorted (fun a b => time_of a <= time_of b) qs ->
  Forall (fun r => r.(agent_id) = agent -> r.(limits) !! "requests_per_minute" = Some rpm) db.(agents) ->
  served agent (_minute t) db qs <= Z.max 0 (rpm - rate_window_count db agent t).
Proof.
  intros Hs. revert db. induction Hs as [|q qs Hs IH Hle]; intros db Hlim; cbn [served]; [lia|].
  destruct (step db q) as [ok db'] eqn:Hst. destruct (step_shape _ _ _ _ rpm Hst) as [Hsh Hcount].
  destruct (decide (_minute t < _minute (time_of q))) as [Hlate|Hin].
  { rewrite served_late; [|eapply Forall_impl; [exact Hle|]; cbn; intros d Hd%minute_mono; lia].
    replace (_minute (time_of q) =? _minute t) with false by lia. rewrite andb_false_r. lia. }
  assert (Hw : _minute (time_of q) - hours 1 <= _minute t) by (change (hours 1) with 3600000000; lia).
  assert (agents db' = agents db) as Hag by (by destruct Hsh as [->|[_ ->]]).
  specialize (IH db'). rewrite Hag in IH. specialize (IH Hlim).
  destruct (String.eqb_spec (agent_of q) agent) as [Ha|Ha].
  - destruct (ok && rq_commits q); cbn [andb].
    + destruct Hcount as [Hlt ->]; [by rewrite Ha|done|]. rewrite count_request_window in IH by done. subst agent.
      rewrite String.eqb_refl in IH. cbn [andb] in IH.
      destruct (Z.eqb_spec (_minute (time_of q)) (_minute t)) as [E|E]; [|lia].
      unfold rate_window_count in Hlt. rewrite E in Hlt. unfold rate_window_count in *. lia.
    + destruct Hsh as [->|[? _]]; [lia|done].
  - rewrite andb_false_r. cbn [andb]. destruct Hsh as [->|[_ ->]]; [lia|].
    rewrite count_request_window in IH by done. destruct (String.eqb_spec (agent_of q) agent); [done|]. cbn [andb] in IH. lia.
Qed.

Definition two_a_minute : AgentRow :=
  {| agent_id := "a1"; ag_workspace := "ws"; ag_account := "acc"; limits := {["requests_per_minute" := 2]} |}.
Definition idle_agents : Db :=
  {| agents := [two_a_minute]; rate_windows := ∅; tasks := []; turn_items := []; usage_rows := [] |}.
Definition request_at (commits : bool) (now : Z) : Request :=
  {| rq_call := ("a1", "request", now, Some "ws", None, None); rq_commits := commits |}.

Lemma request_rate_bounded_witness :
  let qs := request_at false 1 :: map (request_at true) [1; 2; 3; 4] in
  (step idle_agents (request_at true 1)).1 = true /\ served "a1" (_minute 1) idle_agents qs <= 2.
Proof.
  split; [by vm_compute|].
  apply (request_rate_bounded "a1" 2 idle_agents _ 1); [|by repeat constructor].
  repeat (constructor; [|repeat constructor; discriminate]). constructor.
Defined.

(** The third and fourth request of the minute are refused. *)
Example third_request_refused : served "a1" (_minute 1) idle_agents (map (request_at true) [1; 2; 3; 4]) = 2.
Proof. by vm_compute. Qed.

(** Requests whose command fails are not limited: the count of such a request rolls back with
    its transaction, so when one is let through, any number of them are. *)
Theorem failed_requests_not_limited db q n :
  (step db q).1 = true -> q.(rq_commits) = false -> let_through db (replicate n q) = n.
Proof.
  intros H Hq. induction n as [|n IH]; [done|]. cbn [replicate let_through]. destruct (step db q) as [ok db'] eqn:E.
  cbn [fst] in H. subst ok. assert (db' = db) as ->; [|by rewrite IH].
  unfold step in E. destruct q as [[[[[[agent kind] now] ws] task] exclude] commits]. cbn [rq_call rq_commits] in *. subst commits.
  destruct (enforce_limits _ _ _ _ _ _ _ _ _).2 as [[]|]; by injection E.
Qed.

Lemma failed_requests_not_limited_witness : let_through idle_agents (replicate 100 (request_at false 1)) = 100%nat.
Proof. apply failed_requests_not_limited; reflexivity. Defined.

(** A per-Task cost limit makes every costed call fail: as soon as an Agent has
    "per_task_cost_units" configured, a call of the kinds "task_cost", "request" and
    "task_accept" for a Task ends in BUDGET_SCOPE_INVALID - whatever the usage is,
    without an audit row and without re-routing the Task -, because the usage of the
    scope "agent_task" is asked for without the day it requires. *)
Theorem per_task_limit_always_raises agent kind now ws task exclude count_request db log row cap :
  _agent db agent ws = Ok row -> row.(limits) !! "per_task_cost_units" = Some cap ->
  mem kind ["task_cost"; "request"; "task_accept"] = true -> truthy (Some task) = true ->
  enforce_limits agent kind now ws (Some task) exclude count_request db log = (log, Err "BUDGET_SCOPE_INVALID").
Proof.
  intros Hrow Hcap Hkind Htask. unfold enforce_limits. rewrite Hrow. cbn [mbind res_bind].
  assert (evaluate db row kind now (Some task) exclude = Err "BUDGET_SCOPE_INVALID") as ->; [|done].
  assert (forall name v, exists l, check_if row name (Ok v) = Ok l) as Hok.
  { intros name v. unfold check_if. destruct (limits row !! name); by eexists. }
  unfold evaluate. rewrite Hkind, Htask.
  replace (mem kind KINDS) with true
    by (symmetry; rewrite mem_spec in *; unfold KINDS; set_solver).
  destruct (Hok "requests_per_minute" (rate_window_count db (agent_id row) now)) as [l1 ->]. cbn [mbind res_bind guard_err negb].
  destruct (Hok "concurrent_tasks" (concurrent_now db row exclude)) as [l2 E2].
  destruct (Hok "brainstorm_turns" (brainstorm_turns_today db (agent_id row) now)) as [l3 E3].
  assert ((if String.eqb kind "task_accept" then check_if row "concurrent_tasks" (Ok (concurrent_now db row exclude))
           else Ok []) = Ok (if String.eqb kind "task_accept" then l2 else [])) as -> by (by destruct (String.eqb kind _)).
  cbn [mbind res_bind guard_err negb].
  assert ((if String.eqb kind "brainstorm_turn" then check_if row "brainstorm_turns"
             (Ok (brainstorm_turns_today db (agent_id row) now)) else Ok [])
          = Ok (if String.eqb kind "brainstorm_turn" then l3 else [])) as -> by (by destruct (String.eqb kind _)).
  cbn [mbind res_bind].
  assert (exists l, check_if row "daily_cost_units" (usage_for (task_channels db) (usage_rows db) "agent_daily"
    (agent_id row) (Some (day_number now)) None) = Ok l) as [l4 ->] by (apply Hok).
  cbn [mbind res_bind].
  unfold check_if. rewrite Hcap. done.
Qed.

Lemma per_task_limit_always_raises_witness :
  let row := {| agent_id := "a1"; ag_workspace := "ws"; ag_account := "acc"; limits := {["per_task_cost_units" := 1000000]} |} in
  let db := {| agents := [row]; rate_windows := ∅; tasks := []; turn_items := []; usage_rows := [] |} in
  enforce_limits "a1" "task_accept" 1 (Some "ws") (Some "task-1") None true db [] = ([], Err "BUDGET_SCOPE_INVALID").
Proof. by apply per_task_limit_always_raises with (row := {| agent_id := "a1"; ag_workspace := "ws"; ag_account := "acc";
  limits := {["per_task_cost_units" := 1000000]} |}) (cap := 1000000). Defined.

End LimitFacts.
