(* ===== verification/Budget.v ===== *)
(** Budget reservations and their settlement ([server/usage/budget.py]) over the
    usage records of [Usage.v] and an Event store given by its interface. Every
    operation runs in the caller's transaction; the advisory lock of a scope only
    makes the transactions that touch the scope run one after the other, which is
    how a sequence of operations runs here. The injected clock is the function
    [clock] from the number of a reading to its time. *)

From S2P Require Import Prelude Defaults Canonical HashChain EventStore Tx EventLog Usage.
Open Scope Z_scope.

Definition DEFAULT_ESTIMATES : list (string * Z) := [
  ("task_assignment", 50000); ("subtask_assignment", 50000); ("invoke", 20000); ("cancel", 1000);
  ("brainstorm_turn", 10000); ("verification_assignment", 30000)].

Record BudgetScope := { scope_type : string; scope_id : string }.

#[global] Instance BudgetScope_eq_dec : EqDecision BudgetScope.
Proof. solve_decision. Defined.

(** [f"bud-{type}:{id}"[:200]] *)
Definition aggregate_id (s : BudgetScope) : ustr :=
  take 200 (lit ("bud-" +:+ s.(scope_type) +:+ ":" +:+ s.(scope_id))).

Inductive ReservationStatus := RESERVED | SETTLED | RELEASED | EXCEEDED.

#[global] Instance ReservationStatus_eq_dec : EqDecision ReservationStatus.
Proof. solve_decision. Defined.

Record ReservationRow := {
  reservation_id : string;
  rv_workspace : string;
  rv_scope : BudgetScope;
  rv_work_item : option string;
  estimated_cost_units : Z;
  settled_cost_units : option Z;
  rv_status : ReservationStatus;
  created_at : Z;
  settled_at : option Z }.

Definition closed_row (st : ReservationStatus) (actual : option Z) (at_ : Z) (r : ReservationRow) : ReservationRow := {|
  reservation_id := r.(reservation_id); rv_workspace := r.(rv_workspace); rv_scope := r.(rv_scope);
  rv_work_item := r.(rv_work_item); estimated_cost_units := r.(estimated_cost_units);
  settled_cost_units := match actual with Some a => Some a | None => r.(settled_cost_units) end;
  rv_status := st; created_at := r.(created_at); settled_at := Some at_ |}.

Record Reservation := { b_reservation_id : string; b_scope : BudgetScope; b_estimate : Z; b_event_id : ustr }.

Record ReservationOutcome := {
  reserved : bool;
  reservation : option Reservation;
  o_event_id : ustr;
  limit_cost_units : Z;
  requested_cost_units : Z;
  o_used_cost_units : Z;
  o_reserved_cost_units : Z }.

Definition would_exceed (used reserved estimate limit : Z) : bool := limit <? used + reserved + estimate.

Definition settlement_status (actual available : Z) : ReservationStatus :=
  if available <? actual then EXCEEDED else SETTLED.

(** The three bounds of a UTC day, from a reading of the clock. *)
Definition _day_window (now : Z) : Z * Z * Z :=
  let day := day_number now in (day * day_us, day * day_us + day_us, day).

(** The rows the sum of the open reservations of a scope ranges over. *)
Definition open_in (scope : BudgetScope) (now : Z) (exclude : option string) (r : ReservationRow) : bool :=
  let '(first, last, _) := _day_window now in
  bool_decide (r.(rv_scope) = scope) && bool_decide (r.(rv_status) = RESERVED) &&
  (first <=? r.(created_at)) && (r.(created_at) <? last) &&
  match exclude with None => true | Some ex => negb (String.eqb r.(reservation_id) ex) end.

Arguments open_in : simpl never.

Definition sum_estimates (rows : list ReservationRow) : Z :=
  foldr (fun r s => r.(estimated_cost_units) + s) 0 rows.

Section budget.
Context {ES : Type} `{!EventLogI ES} (clock : nat -> Z).

Record Ledger := {
  usage_rows : list UsageRecord;
  task_channel : gmap string string;
  reservations : list ReservationRow;
  ticks : nat; (* readings of the clock so far *)
  store : ES }.

Definition with_usage (u : list UsageRecord) (l : Ledger) : Ledger := {|
  usage_rows := u; task_channel := l.(task_channel); reservations := l.(reservations);
  ticks := l.(ticks); store := l.(store) |}.
Definition with_reservations (r : list ReservationRow) (l : Ledger) : Ledger := {|
  usage_rows := l.(usage_rows); task_channel := l.(task_channel); reservations := r;
  ticks := l.(ticks); store := l.(store) |}.
Definition with_ticks (n : nat) (l : Ledger) : Ledger := {|
  usage_rows := l.(usage_rows); task_channel := l.(task_channel); reservations := l.(reservations);
  ticks := n; store := l.(store) |}.
Definition with_store (s : ES) (l : Ledger) : Ledger := {|
  usage_rows := l.(usage_rows); task_channel := l.(task_channel); reservations := l.(reservations);
  ticks := l.(ticks); store := s |}.

(** [clock.now()] *)
Definition clock_now : tx Ledger Z := fun l => Ok (clock l.(ticks), with_ticks (S l.(ticks)) l).

Definition append (r : AppendRequest) : tx Ledger AppendResult := fun l =>
  match el_append r l.(store) with
  | Ok (a, s) => Ok (a, with_store s l)
  | Err e => Err e
  end.

Definition reserved_cost_units (scope : BudgetScope) (exclude : option string) : tx Ledger Z :=
  now ← clock_now;
  gets (fun l => sum_estimates (List.filter (open_in scope now exclude) l.(reservations))).

Definition query_usage (scope : BudgetScope) (day : option Z) (run_ids : option (list string)) : tx Ledger Z := fun l =>
  lift (usage_for l.(task_channel) l.(usage_rows) scope.(scope_type) scope.(scope_id) day run_ids) l.

Definition used_cost_units (scope : BudgetScope) (run_ids : option (list string)) : tx Ledger Z :=
  now ← clock_now;
  let '(_, _, day) := _day_window now in
  let daily := mem scope.(scope_type) ["agent_daily"; "agent_task"; "channel_daily"; "schedule_daily"] in
  query_usage scope (if daily then Some day else None) run_ids.

Record ReserveArgs := {
  a_workspace : string;
  a_actor : string;
  a_scope : BudgetScope;
  a_limit : Z;
  a_estimate : Z;
  a_work_item : option string;
  a_correlation : string;
  a_key : option string; (* idempotency_key *)
  a_run_ids : option (list string);
  new_hex : string;      (* of uuid.uuid4() for the reservation id *)
  key_hex : string       (* of uuid.uuid4() for the key *) }.

Definition jopt_str (o : option string) : json := match o with Some s => JStr (lit s) | None => JNull end.

Definition budget_request (a : ReserveArgs) (event_type idem_scope : string) (key : ustr)
    (body : list (ustr * json)) : AppendRequest := {|
  r_workspace_id := lit a.(a_workspace); r_aggregate_type := lit "budget";
  r_aggregate_id := aggregate_id a.(a_scope); r_type := lit event_type; r_actor_account_id := lit a.(a_actor);
  r_correlation_id := lit a.(a_correlation); r_idempotency_scope := lit idem_scope; r_idempotency_key := key;
  r_payload := body; r_policy_version := lit "policy-v1"; r_channel_id := None; r_task_id := None;
  r_caused_by := None; r_expected_seq := None; r_sensitive := None; r_schema_version := 1 |}.

(** [idempotency_key or f"{work_item_id or uuid4().hex}:{estimate}"] *)
Definition exceeded_key (a : ReserveArgs) : ustr :=
  match py_or a.(a_key) None with
  | Some k => lit k
  | None => lit (default a.(key_hex) (py_or a.(a_work_item) None) +:+ ":") ++ str_int a.(a_estimate)
  end.

Definition exceeded_request (a : ReserveArgs) (used reserved : Z) : AppendRequest :=
  budget_request a "BUDGET_EXCEEDED" "budget:exceeded" (exceeded_key a) [
    (lit "scope_type", JStr (lit a.(a_scope).(scope_type))); (lit "scope_id", JStr (lit a.(a_scope).(scope_id)));
    (lit "limit_cost_units", JInt a.(a_limit)); (lit "requested_cost_units", JInt a.(a_estimate));
    (lit "used_cost_units", JInt used); (lit "reserved_cost_units", JInt reserved);
    (lit "work_item_id", jopt_str a.(a_work_item))].

(** [f"bres-{hex}"] *)
Definition new_reservation_id (a : ReserveArgs) : string := "bres-" +:+ a.(new_hex).

Definition reserved_request (a : ReserveArgs) : AppendRequest :=
  budget_request a "BUDGET_RESERVED" "budget:reserve" (lit (new_reservation_id a)) [
    (lit "reservation_id", JStr (lit (new_reservation_id a)));
    (lit "scope_type", JStr (lit a.(a_scope).(scope_type))); (lit "scope_id", JStr (lit a.(a_scope).(scope_id)));
    (lit "cost_units", JInt a.(a_estimate)); (lit "work_item_id", jopt_str a.(a_work_item))].

Definition new_row (a : ReserveArgs) (now : Z) : ReservationRow := {|
  reservation_id := new_reservation_id a; rv_workspace := a.(a_workspace); rv_scope := a.(a_scope);
  rv_work_item := a.(a_work_item); estimated_cost_units := a.(a_estimate); settled_cost_units := None;
  rv_status := RESERVED; created_at := now; settled_at := None |}.

(** The id of a reservation is UNIQUE. *)
Definition insert_reservation (r : ReservationRow) : tx Ledger unit := fun l =>
  if existsb (fun x => String.eqb x.(reservation_id) r.(reservation_id)) l.(reservations)
  then Err "UNIQUE_VIOLATION"
  else Ok (tt, with_reservations (l.(reservations) ++ [r]) l).

Definition try_reserve (a : ReserveArgs) : tx Ledger ReservationOutcome :=
  _ ← guard_tx (negb (mem a.(a_scope).(scope_type) SCOPE_TYPES)) "BUDGET_SCOPE_INVALID";
  _ ← guard_tx ((a.(a_estimate) <? 0) || (a.(a_limit) <? 0)) "BUDGET_VALUE_INVALID";
  used ← used_cost_units a.(a_scope) a.(a_run_ids);
  held ← reserved_cost_units a.(a_scope) None;
  if would_exceed used held a.(a_estimate) a.(a_limit) then
    result ← append (exceeded_request a used held);
    mret {| reserved := false; reservation := None; o_event_id := result.(a_event_id);
            limit_cost_units := a.(a_limit); requested_cost_units := a.(a_estimate);
            o_used_cost_units := used; o_reserved_cost_units := held |}
  else
    now ← clock_now;
    _ ← insert_reservation (new_row a now);
    result ← append (reserved_request a);
    mret {| reserved := true;
            reservation := Some {| b_reservation_id := new_reservation_id a; b_scope := a.(a_scope);
                                   b_estimate := a.(a_estimate); b_event_id := result.(a_event_id) |};
            o_event_id := result.(a_event_id); limit_cost_units := a.(a_limit);
            requested_cost_units := a.(a_estimate); o_used_cost_units := used; o_reserved_cost_units := held |}.

(** [reserve]: the right case is the exception, which carries the outcome and is
    raised in a transaction that the caller still commits. *)
Definition reserve (a : ReserveArgs) : tx Ledger (Reservation + ReservationOutcome) :=
  o ← try_reserve a;
  mret match o.(reservation) with
       | Some r => if o.(reserved) then inl r else inr o
       | None => inr o
       end.

Definition find_reservation (rid : string) (rows : list ReservationRow) : option ReservationRow :=
  find (fun r => String.eqb r.(reservation_id) rid) rows.

Definition _load_reservation (rid : string) : tx Ledger ReservationRow := fun l =>
  match find_reservation rid l.(reservations) with
  | Some r => Ok (r, l)
  | None => Err "BUDGET_RESERVATION_UNKNOWN"
  end.

Definition update_reservation (rid : string) (f : ReservationRow -> ReservationRow) : tx Ledger unit :=
  modify (fun l => with_reservations
    (map (fun r => if String.eqb r.(reservation_id) rid then f r else r) l.(reservations)) l).

Definition settle (rid : string) (actual limit : Z) (run_ids : option (list string)) : tx Ledger ReservationStatus :=
  _ ← guard_tx (actual <? 0) "BUDGET_VALUE_INVALID";
  row ← _load_reservation rid;
  _ ← guard_tx (bool_decide (row.(rv_status) <> RESERVED)) "BUDGET_RESERVATION_NOT_OPEN";
  used_others ← used_cost_units row.(rv_scope) run_ids;
  reserved_others ← reserved_cost_units row.(rv_scope) (Some rid);
  let status := settlement_status actual (limit - used_others - reserved_others) in
  now ← clock_now;
  _ ← update_reservation rid (closed_row status (Some actual) now);
  mret status.

Definition release (rid : string) : tx Ledger unit :=
  row ← _load_reservation rid;
  _ ← guard_tx (bool_decide (row.(rv_status) <> RESERVED)) "BUDGET_RESERVATION_NOT_OPEN";
  now ← clock_now;
  update_reservation rid (closed_row RELEASED None now).

(** The settled overruns of the scope on the day of [now]. *)
Definition overrun_in (scope : BudgetScope) (now : Z) (r : ReservationRow) : bool :=
  let '(first, last, _) := _day_window now in
  bool_decide (r.(rv_scope) = scope) && bool_decide (r.(rv_status) = EXCEEDED) &&
  match r.(settled_at) with Some t => (first <=? t) && (t <? last) | None => false end.

Definition overrun (scope : BudgetScope) : tx Ledger bool :=
  now ← clock_now; gets (fun l => existsb (overrun_in scope now) l.(reservations)).

Definition assert_not_overrun (scope : BudgetScope) : tx Ledger unit :=
  b ← overrun scope; guard_tx b "BUDGET_EXCEEDED".

End budget.

Arguments Ledger : clear implicits.

(** * Theorems *)

Section facts.
Context {ES : Type} `{!EventLogI ES} (clock : nat -> Z).
Implicit Types (l : Ledger ES) (a : ReserveArgs) (r : ReservationRow).

(** ** What the readings of an operation see *)

Definition used_at (scope : BudgetScope) (ids : option (list string)) (now : Z) l : res Z :=
  usage_for l.(task_channel) l.(usage_rows) scope.(scope_type) scope.(scope_id)
    (if mem scope.(scope_type) ["agent_daily"; "agent_task"; "channel_daily"; "schedule_daily"]
     then Some (day_number now) else None) ids.

Definition open_total (scope : BudgetScope) (now : Z) (rows : list ReservationRow) : Z :=
  sum_estimates (List.filter (open_in scope now None) rows).

#[local] Arguments open_total : simpl never.

Lemma used_cost_units_ok scope ids l u l' :
  used_cost_units clock scope ids l = Ok (u, l') <->
  used_at scope ids (clock l.(ticks)) l = Ok u /\ l' = with_ticks (S l.(ticks)) l.
Proof.
  unfold used_cost_units. rewrite tx_bind_ok. split.
  - intros (now & l1 & [= <- <-] & H). by apply lift_ok in H as [H <-].
  - intros [H ->]. eexists _, _. split; [done|]. by apply lift_ok.
Qed.

Lemma reserved_cost_units_ok scope ex l h l' :
  reserved_cost_units clock scope ex l = Ok (h, l') <->
  h = sum_estimates (List.filter (open_in scope (clock l.(ticks)) ex) l.(reservations)) /\
  l' = with_ticks (S l.(ticks)) l.
Proof.
  unfold reserved_cost_units. rewrite tx_bind_ok. split.
  - intros (now & l1 & [= <- <-] & [= <- <-]). done.
  - intros [-> ->]. by eexists _, _.
Qed.

Lemma append_step q l (x : AppendResult) l' :
  append q l = Ok (x, l') <-> exists s, el_append q l.(store) = Ok (x, s) /\ l' = with_store s l.
Proof.
  unfold append. destruct (el_append _ _) as [[x0 s]|e]; [|naive_solver].
  split; [intros [= <- <-]; eauto|]. by intros (? & [= <- <-] & ->).
Qed.

Lemma insert_reservation_ok r l u l' :
  insert_reservation r l = Ok (u, l') <->
  Forall (fun x => x.(reservation_id) <> r.(reservation_id)) l.(reservations) /\
  l' = with_reservations (l.(reservations) ++ [r]) l.
Proof.
  unfold insert_reservation. destruct (existsb _ _) eqn:E, u.
  - split; [done|]. intros [H _]. apply existsb_exists in E as (x & Hx%list_elem_of_In & He%String.eqb_eq).
    rewrite Forall_forall in H. by destruct (H x Hx).
  - assert (Forall (fun x => x.(reservation_id) <> r.(reservation_id)) l.(reservations)) as Hf.
    { apply Forall_forall. intros x Hx He. apply list_elem_of_In in Hx.
      enough (false = true) by done. rewrite <- E. apply existsb_exists. exists x. split; [done|].
      by apply String.eqb_eq. }
    split; [by intros [= <-]|by intros [_ ->]].
Qed.

(** A reservation attempt that returns, step by step. *)
Definition refusal (a : ReserveArgs) (used held : Z) (event : ustr) : ReservationOutcome := {|
  reserved := false; reservation := None; o_event_id := event; limit_cost_units := a.(a_limit);
  requested_cost_units := a.(a_estimate); o_used_cost_units := used; o_reserved_cost_units := held |}.

Definition success (a : ReserveArgs) (used held : Z) (event : ustr) : ReservationOutcome := {|
  reserved := true;
  reservation := Some {| b_reservation_id := new_reservation_id a; b_scope := a.(a_scope);
                         b_estimate := a.(a_estimate); b_event_id := event |};
  o_event_id := event; limit_cost_units := a.(a_limit); requested_cost_units := a.(a_estimate);
  o_used_cost_units := used; o_reserved_cost_units := held |}.

Variant reserve_effect (a : ReserveArgs) l (used held : Z) : ReservationOutcome -> Ledger ES -> Prop :=
| effect_refused x s :
    a.(a_limit) < used + held + a.(a_estimate) ->
    el_append (exceeded_request a used held) l.(store) = Ok (x, s) ->
    reserve_effect a l used held (refusal a used held x.(a_event_id))
      (with_store s (with_ticks (S (S l.(ticks))) l))
| effect_reserved x s :
    used + held + a.(a_estimate) <= a.(a_limit) ->
    Forall (fun y => y.(reservation_id) <> new_reservation_id a) l.(reservations) ->
    el_append (reserved_request a) l.(store) = Ok (x, s) ->
    reserve_effect a l used held (success a used held x.(a_event_id))
      (with_store s (with_reservations (l.(reservations) ++ [new_row a (clock (S (S l.(ticks))))])
        (with_ticks (S (S (S l.(ticks)))) l))).

Lemma try_reserve_ok a l o l' :
  try_reserve clock a l = Ok (o, l') ->
  mem a.(a_scope).(scope_type) SCOPE_TYPES = true /\ 0 <= a.(a_estimate) /\ 0 <= a.(a_limit) /\
  exists used, used_at a.(a_scope) a.(a_run_ids) (clock l.(ticks)) l = Ok used /\
    reserve_effect a l used (open_total a.(a_scope) (clock (S l.(ticks))) l.(reservations)) o l'.
Proof.
  unfold try_reserve. intros H.
  apply tx_bind_ok in H as (? & l1 & [Hty%negb_false_iff <-]%guard_tx_ok & H).
  apply tx_bind_ok in H as (? & l1 & [[He Hl]%orb_false_iff <-]%guard_tx_ok & H).
  apply tx_bind_ok in H as (used & l1 & [Hu ->]%used_cost_units_ok & H).
  apply tx_bind_ok in H as (held & l1 & [-> ->]%reserved_cost_units_ok & H). cbn [ticks with_ticks reservations] in H.
  change (with_ticks _ (with_ticks _ l)) with (with_ticks (S (S l.(ticks))) l) in H.
  split; [done|]. split; [lia|]. split; [lia|]. exists used. split; [done|].
  fold (open_total a.(a_scope) (clock (S l.(ticks))) l.(reservations)) in H.
  unfold would_exceed in H. match type of H with (if ?b then _ else _) _ = _ => destruct b eqn:Hx end.
  - apply tx_bind_ok in H as (res & l1 & (s & Hs & ->)%append_step & [<- <-]%tx_ret_ok).
    apply effect_refused; [lia|done].
  - apply tx_bind_ok in H as (now & l1 & [= <- <-] & H).
    change (with_ticks _ (with_ticks _ l)) with (with_ticks (S (S (S l.(ticks)))) l) in H.
    apply tx_bind_ok in H as (? & l1 & [Hf ->]%insert_reservation_ok & H).
    change (reservations (with_ticks _ l)) with (reservations l) in *.
    apply tx_bind_ok in H as (res & l1 & (s & Hs & ->)%append_step & [<- <-]%tx_ret_ok).
    apply effect_reserved; [lia|done|done].
Qed.

Lemma plain_exceeded a used held : plain (exceeded_request a used held).
Proof. split; [|done]. cbn. by destruct (a_work_item a). Qed.

Lemma plain_reserved a : plain (reserved_request a).
Proof. split; [|done]. cbn. by destruct (a_work_item a). Qed.

(** A reservation is decided by the sums and by nothing else. When a call
    returns, its scope type is a known one and its numbers are not negative; with
    [used] the usage of the scope on the day of the first reading of the clock and
    [held] the open reservations of the scope on the day of the second, it reserves
    exactly when used + held + estimate is at most the limit. Reserving adds one
    open row for the estimate, stamped with the third reading, and records the
    BUDGET_RESERVED Event under the id of the row; refusing changes no row and
    records a BUDGET_EXCEEDED Event with the numbers of the decision. *)
Theorem reserve_decides a l o l' :
  el_ok l.(store) -> try_reserve clock a l = Ok (o, l') ->
  exists used e,
    let held := open_total a.(a_scope) (clock (S l.(ticks))) l.(reservations) in
    used_at a.(a_scope) a.(a_run_ids) (clock l.(ticks)) l = Ok used /\
    (o.(reserved) = true <-> used + held + a.(a_estimate) <= a.(a_limit)) /\
    l'.(usage_rows) = l.(usage_rows) /\
    e ∈ el_log l'.(store) /\ e.(event_id) = o.(o_event_id) /\
    if o.(reserved) then
      l'.(reservations) = l.(reservations) ++ [new_row a (clock (S (S l.(ticks))))] /\ records (reserved_request a) e
    else l'.(reservations) = l.(reservations) /\ records (exceeded_request a used held) e.
Proof.
  intros Hok (_ & _ & _ & used & Hu & Heff)%try_reserve_ok.
  assert (forall q x s, plain q -> el_append q l.(store) = Ok (x, s) ->
    exists e, e ∈ el_log s /\ e.(event_id) = x.(a_event_id) /\ records q e) as Happ.
  { intros q x s Hp Hq. destruct (el_append_effect _ _ _ _ Hok Hp Hq) as [e ???|e ?]; exists e; [done|].
    split; [|done]. apply elem_of_app. right. by left. }
  destruct Heff as [x s Hx Hs|x s Hx Hf Hs].
  - destruct (Happ _ _ _ (plain_exceeded _ _ _) Hs) as (e & He & Hid & Hr).
    exists used, e. cbn. split_and!; try done. split; [done|lia].
  - destruct (Happ _ _ _ (plain_reserved _) Hs) as (e & He & Hid & Hr).
    exists used, e. cbn. by split_and!.
Qed.

(** ** Sequences of operations *)

Inductive op :=
| TryReserve (a : ReserveArgs)
| Settle (rid : string) (actual limit : Z) (ids : option (list string))
| Release (rid : string)
| Report (u : UsageRecord)              (* a usage row, of any service *)
| MoveTask (task channel : string)      (* the projection of a task *)
| Recorded (q : AppendRequest)          (* an Event of another service *).

(** A refused operation is rolled back; the table refuses a negative cost. *)
Definition done_or_back {A} (r : res (A * Ledger ES)) l : Ledger ES :=
  match r with Ok (_, l') => l' | Err _ => l end.

Definition perform l (o : op) : Ledger ES :=
  match o with
  | TryReserve a => done_or_back (try_reserve clock a l) l
  | Settle rid actual limit ids => done_or_back (settle clock rid actual limit ids l) l
  | Release rid => done_or_back (release clock rid l) l
  | Report u => if 0 <=? u.(cost_units) then with_usage (l.(usage_rows) ++ [u]) l else l
  | MoveTask t c => {| usage_rows := l.(usage_rows); task_channel := <[t := c]> l.(task_channel);
                       reservations := l.(reservations); ticks := l.(ticks); store := l.(store) |}
  | Recorded q => done_or_back (append q l) l
  end.

Definition run l (os : list op) : Ledger ES := foldl perform l os.

(** What an operation does to the rows and the readings: nothing, a new open row, or
    closing the open row with the given id. *)
Variant change l : Ledger ES -> Prop :=
| change_none l' :
    l'.(reservations) = l.(reservations) -> (l.(ticks) <= l'.(ticks))%nat -> change l l'
| change_new a used l' :
    0 <= a.(a_estimate) -> used_at a.(a_scope) a.(a_run_ids) (clock l.(ticks)) l = Ok used ->
    used + open_total a.(a_scope) (clock (S l.(ticks))) l.(reservations) + a.(a_estimate) <= a.(a_limit) ->
    Forall (fun y => y.(reservation_id) <> new_reservation_id a) l.(reservations) ->
    l'.(reservations) = l.(reservations) ++ [new_row a (clock (S (S l.(ticks))))] ->
    l'.(ticks) = S (S (S l.(ticks))) -> change l l'
| change_close rid r st actual at_ l' :
    find_reservation rid l.(reservations) = Some r -> r.(rv_status) = RESERVED -> st <> RESERVED ->
    l'.(reservations) = map (fun x => if String.eqb x.(reservation_id) rid then closed_row st actual at_ x else x)
                            l.(reservations) ->
    (l.(ticks) <= l'.(ticks))%nat -> change l l'.

Lemma load_reservation_ok rid l r l' :
  _load_reservation rid l = Ok (r, l') <-> find_reservation rid l.(reservations) = Some r /\ l' = l.
Proof. unfold _load_reservation. destruct (find_reservation _ _); naive_solver. Qed.

(** A settlement that returns. *)
Lemma settle_ok rid actual limit ids l st l' :
  settle clock rid actual limit ids l = Ok (st, l') -> exists r used,
    0 <= actual /\ find_reservation rid l.(reservations) = Some r /\ r.(rv_status) = RESERVED /\
    used_at r.(rv_scope) ids (clock l.(ticks)) l = Ok used /\
    (let others := sum_estimates (List.filter (open_in r.(rv_scope) (clock (S l.(ticks))) (Some rid)) l.(reservations)) in
     st = settlement_status actual (limit - used - others)) /\
    l' = with_reservations (map (fun x => if String.eqb x.(reservation_id) rid
           then closed_row st (Some actual) (clock (S (S l.(ticks)))) x else x) l.(reservations))
         (with_ticks (S (S (S l.(ticks)))) l).
Proof.
  unfold settle. intros H.
  apply tx_bind_ok in H as (? & l1 & [Ha <-]%guard_tx_ok & H).
  apply tx_bind_ok in H as (r & l1 & [Hr ->]%load_reservation_ok & H).
  apply tx_bind_ok in H as (? & l1 & [Hs%bool_decide_eq_false_1 <-]%guard_tx_ok & H).
  apply tx_bind_ok in H as (used & l1 & [Hu ->]%used_cost_units_ok & H).
  apply tx_bind_ok in H as (held & l1 & [-> ->]%reserved_cost_units_ok & H).
  apply tx_bind_ok in H as (now & l1 & [= <- <-] & H).
  apply tx_bind_ok in H as (? & l1 & Hm%modify_ok & [<- <-]%tx_ret_ok). subst l1.
  exists r, used. split; [lia|]. split; [done|]. split; [by destruct (decide (rv_status r = RESERVED))|].
  split; [done|]. split; reflexivity.
Qed.

Lemma release_ok rid l u l' :
  release clock rid l = Ok (u, l') -> exists r,
    find_reservation rid l.(reservations) = Some r /\ r.(rv_status) = RESERVED /\
    l' = with_reservations (map (fun x => if String.eqb x.(reservation_id) rid
           then closed_row RELEASED None (clock l.(ticks)) x else x) l.(reservations)) (with_ticks (S l.(ticks)) l).
Proof.
  unfold release. intros H.
  apply tx_bind_ok in H as (r & l1 & [Hr ->]%load_reservation_ok & H).
  apply tx_bind_ok in H as (? & l1 & [Hs%bool_decide_eq_false_1 <-]%guard_tx_ok & H).
  apply tx_bind_ok in H as (now & l1 & [= <- <-] & <-%modify_ok).
  exists r. split; [done|]. by destruct (decide (rv_status r = RESERVED)).
Qed.

Lemma settlement_closes actual available : settlement_status actual available <> RESERVED.
Proof. unfold settlement_status. by destruct (_ <? _). Qed.

Lemma perform_change l o : change l (perform l o).
Proof.
  destruct o as [a|rid actual limit ids|rid|u|t c|q]; cbn [perform].
  - destruct (try_reserve clock a l) as [[out l']|] eqn:H; cbn; [|by apply change_none].
    apply try_reserve_ok in H as (_ & He & _ & used & Hu & [res s Hx Hs|res s Hx Hf Hs]);
      [apply change_none; cbn; [done|lia]|by eapply change_new].
  - destruct (settle clock rid actual limit ids l) as [[st l']|] eqn:H; cbn; [|by apply change_none].
    apply settle_ok in H as (r & used & _ & Hr & Hop & _ & -> & ->).
    eapply change_close; [done..| |reflexivity|cbn; lia]. apply settlement_closes.
  - destruct (release clock rid l) as [[u l']|] eqn:H; cbn; [|by apply change_none].
    apply release_ok in H as (r & Hr & Hop & ->). eapply change_close; [done..| |reflexivity|cbn; lia]. done.
  - destruct (0 <=? _); by apply change_none.
  - by apply change_none.
  - destruct (append q l) as [[x l']|] eqn:H; cbn; [|by apply change_none].
    apply append_step in H as (s & _ & ->). by apply change_none.
Qed.

(** ** The life of a reservation *)

(** [r'] is [r], or [r] closed once. *)
Definition same_or_closed r r' : Prop :=
  r' = r \/ r.(rv_status) = RESERVED /\
            exists st actual at_, st <> RESERVED /\ r' = closed_row st actual at_ r.

Lemma find_map_closed rid id (f : ReservationRow -> ReservationRow) rows r :
  (forall x, (f x).(reservation_id) = x.(reservation_id)) ->
  find_reservation rid rows = Some r ->
  find_reservation rid (map (fun x => if String.eqb x.(reservation_id) id then f x else x) rows) =
  Some (if String.eqb rid id then f r else r).
Proof.
  intros Hf. unfold find_reservation. induction rows as [|x rows IH]; cbn; [done|].
  destruct (String.eqb_spec (reservation_id x) rid) as [E|E].
  - intros [= ->]. rewrite E. destruct (String.eqb_spec rid id) as [<-|]; by rewrite ?Hf, E, String.eqb_refl.
  - intros Hr. destruct (String.eqb (reservation_id x) id) eqn:Ei; rewrite ?Hf.
    + rewrite (proj2 (String.eqb_neq _ _) E). by apply IH.
    + rewrite (proj2 (String.eqb_neq _ _) E). by apply IH.
Qed.

Lemma find_reservation_app rid rows rows' r :
  find_reservation rid rows = Some r -> find_reservation rid (rows ++ rows') = Some r.
Proof. unfold find_reservation. induction rows as [|x rows IH]; cbn; [done|]. by case_match. Qed.

Lemma perform_reservation l o rid r :
  find_reservation rid l.(reservations) = Some r ->
  exists r', find_reservation rid (perform l o).(reservations) = Some r' /\ same_or_closed r r'.
Proof.
  intros Hr. destruct (perform_change l o) as [l' Hl _|a used l' _ _ _ _ Hl _|id r0 st actual at_ l' Hr0 Hop Hst Hl _].
  - exists r. rewrite Hl. split; [done|by left].
  - exists r. rewrite Hl. split; [by apply find_reservation_app|by left].
  - rewrite Hl, (find_map_closed rid id _ _ r) by done. eexists. split; [reflexivity|].
    destruct (String.eqb_spec rid id) as [<-|]; [|by left]. right.
    assert (r0 = r) as -> by congruence. split; [done|]. by eexists st, actual, at_.
Qed.

(** A reservation is closed at most once and never altered otherwise: whatever
    reservations, settlements, releases, usage reports, moves of tasks and Events of
    other services follow, the row under an id keeps its scope, its estimate and its
    time; while it is open it may be settled, marked exceeded or released, and a row
    that is not open stays exactly as it is. *)
Theorem reservation_lifecycle l os rid r :
  find_reservation rid l.(reservations) = Some r ->
  exists r', find_reservation rid (run l os).(reservations) = Some r' /\ same_or_closed r r' /\
             (r.(rv_status) <> RESERVED -> r' = r).
Proof.
  intros Hr. assert (exists r', find_reservation rid (run l os).(reservations) = Some r' /\ same_or_closed r r') as Hex.
  { revert l r Hr. induction os as [|o os IH]; intros l r Hr; cbn; [exists r; split; [done|by left]|].
    destruct (perform_reservation l o rid r Hr) as (r1 & Hr1 & H1).
    destruct (IH _ _ Hr1) as (r2 & Hr2 & H2). exists r2. split; [done|].
    destruct H1 as [->|(Hop & st & ac & at_ & Hst & ->)]; [done|].
    destruct H2 as [->|(Hop2 & _)]; [right; split; [done|by eexists st, ac, at_]|by cbn in Hop2]. }
  destruct Hex as (r' & Hr' & H). exists r'. split; [done|]. split; [done|].
  intros Hcl. by destruct H as [->|[? _]].
Qed.

(** ** The bound of a scope *)

Lemma sum_estimates_app rows rows' : sum_estimates (rows ++ rows') = sum_estimates rows + sum_estimates rows'.
Proof. induction rows as [|r rows IH]; cbn; [done|]. unfold sum_estimates in *. lia. Qed.

Lemma open_total_snoc scope now rows r :
  open_total scope now (rows ++ [r]) =
  open_total scope now rows + if open_in scope now None r then r.(estimated_cost_units) else 0.
Proof.
  unfold open_total. rewrite List.filter_app, sum_estimates_app. cbn. destruct (open_in scope now None r); cbn; lia.
Qed.

Lemma open_total_bounds scope now rows (f : ReservationRow -> ReservationRow) :
  Forall (fun r => 0 <= r.(estimated_cost_units)) rows ->
  (forall r, f r = r \/ exists st ac at_, st <> RESERVED /\ f r = closed_row st ac at_ r) ->
  0 <= open_total scope now (map f rows) <= open_total scope now rows.
Proof.
  intros Hpos Hf. unfold open_total. induction Hpos as [|r rows Hr _ IH]; cbn; [lia|].
  destruct (Hf r) as [->|(st & ac & at_ & Hst & ->)].
  - destruct (open_in scope now None r); cbn in *; unfold sum_estimates in *; lia.
  - assert (open_in scope now None (closed_row st ac at_ r) = false) as ->.
    { unfold open_in. cbn. rewrite (bool_decide_eq_false_2 (st = RESERVED)) by done. by rewrite andb_false_r. }
    destruct (open_in scope now None r); cbn in *; unfold sum_estimates in *; lia.
Qed.

Lemma open_total_nonneg scope now rows :
  Forall (fun r => 0 <= r.(estimated_cost_units)) rows -> 0 <= open_total scope now rows.
Proof.
  intros H. pose proof (open_total_bounds scope now rows id H ltac:(by left)) as Hb. rewrite map_id in Hb. lia.
Qed.

(** Rows created before the day of [now] do not count. *)
Lemma open_total_before scope now rows :
  Forall (fun r => day_number r.(created_at) < day_number now) rows -> open_total scope now rows = 0.
Proof.
  intros H. unfold open_total. induction H as [|r rows Hr _ IH]; cbn; [done|].
  assert (open_in scope now None r = false) as ->; [|done].
  unfold open_in, _day_window, day_number in *. change day_us with 86400000000 in *.
  pose proof (Z.div_mod (created_at r) 86400000000). pose proof (Z.mod_pos_bound (created_at r) 86400000000).
  replace (_ <=? _) with false by lia. rewrite andb_false_r. done.
Qed.

Lemma open_total_day scope now now' rows :
  day_number now = day_number now' -> open_total scope now rows = open_total scope now' rows.
Proof. intros H. unfold open_total, open_in, _day_window. by rewrite H. Qed.

Lemma open_in_day scope now r : open_in scope now None r = true -> day_number r.(created_at) = day_number now.
Proof.
  unfold open_in, _day_window, day_number. change day_us with 86400000000.
  intros [[[_ H1]%andb_true_iff H2]%andb_true_iff _]%andb_true_iff.
  symmetry. apply (Z.div_unique _ _ _ (created_at r - now / 86400000000 * 86400000000)); lia.
Qed.

Lemma day_number_mono t1 t2 : t1 <= t2 -> day_number t1 <= day_number t2.
Proof. intros. apply Z.div_le_mono; [done|lia]. Qed.

Lemma sum_cost_nonneg rows : Forall (fun u => 0 <= u.(cost_units)) rows -> 0 <= sum_cost rows.
Proof. induction 1 as [|u rows Hu _ IH]; cbn; [lia|]. unfold sum_cost in *. lia. Qed.

Lemma used_at_nonneg scope ids now l used :
  Forall (fun u => 0 <= u.(cost_units)) l.(usage_rows) -> used_at scope ids now l = Ok used -> 0 <= used.
Proof.
  intros Hpos. unfold used_at, usage_for. intros [_ H]%guard_err_ok.
  assert (forall f, 0 <= sum_cost (List.filter f (usage_rows l))) as Hsum.
  { intros f. apply sum_cost_nonneg, Forall_forall. intros u [Hu _]%list_elem_of_In%filter_In.
    by apply (proj1 (Forall_forall _ _) Hpos), list_elem_of_In. }
  repeat case_match; simplify_eq; try done; apply Hsum.
Qed.

(** The ledger respects the limit [L] of the scope on every day. *)
Record within (scope : BudgetScope) (L : Z) l : Prop := {
  wi_usage : Forall (fun u => 0 <= u.(cost_units)) l.(usage_rows);
  wi_estimates : Forall (fun r => 0 <= r.(estimated_cost_units)) l.(reservations);
  wi_past : Forall (fun r => r.(created_at) <= clock l.(ticks)) l.(reservations);
  wi_bound now : open_total scope now l.(reservations) <= L }.

Context (Hclock : forall i j, (i <= j)%nat -> clock i <= clock j).

Lemma perform_usage l o :
  Forall (fun u => 0 <= u.(cost_units)) l.(usage_rows) -> Forall (fun u => 0 <= u.(cost_units)) (perform l o).(usage_rows).
Proof.
  intros H. destruct o as [a|rid actual limit ids|rid|u|t c|q]; cbn [perform]; try done.
  - destruct (try_reserve clock a l) as [[out l']|] eqn:E; [|done].
    by apply try_reserve_ok in E as (_ & _ & _ & used & _ & [res s|res s]).
  - destruct (settle clock rid actual limit ids l) as [[st l']|] eqn:E; [|done].
    by apply settle_ok in E as (r & used & _ & _ & _ & _ & _ & ->).
  - destruct (release clock rid l) as [[u l']|] eqn:E; [|done]. by apply release_ok in E as (r & _ & _ & ->).
  - destruct (Z.leb_spec 0 u.(cost_units)); [|done]. apply Forall_app. split; [done|by constructor].
  - destruct (append q l) as [[x l']|] eqn:E; [|done]. by apply append_step in E as (s & _ & ->).
Qed.

Lemma closed_within scope L l (n : nat) rid st ac at_ :
  (l.(ticks) <= n)%nat -> st <> RESERVED -> within scope L l ->
  within scope L (with_reservations (map (fun x => if String.eqb x.(reservation_id) rid
    then closed_row st ac at_ x else x) l.(reservations)) (with_ticks n l)).
Proof.
  intros Hn Hst [Hu He Hp Hb]. pose proof (Hclock _ _ Hn).
  split; cbn; [done|apply Forall_map; eapply Forall_impl; [exact He|]|apply Forall_map; eapply Forall_impl; [exact Hp|]|].
  - cbn. intros r Hr. by destruct (String.eqb _ _).
  - cbn. intros r Hr. destruct (String.eqb _ _); cbn; lia.
  - intros now. etrans; [|apply (Hb now)]. apply open_total_bounds; [done|].
    intros r. destruct (String.eqb _ _); [|by left]. right. by eexists _, _, _.
Qed.

Lemma perform_within scope L l o :
  0 <= L -> (forall a, o = TryReserve a -> a.(a_scope) = scope -> a.(a_limit) <= L) ->
  within scope L l -> within scope L (perform l o).
Proof.
  intros HL Hlim [Hu He Hp Hb]. pose proof (perform_usage l o Hu) as Hu'.
  destruct o as [a|rid actual limit ids|rid|u|t c|q]; cbn [perform] in *.
  - destruct (try_reserve clock a l) as [[out l']|] eqn:E; cbn in *; [|by split].
    apply try_reserve_ok in E as (_ & Hest & _ & used & Hused & [res s Hx Hs|res s Hx Hf Hs]); cbn in *.
    { split; cbn; [done..| |done]. eapply Forall_impl; [exact Hp|]. cbn. intros r Hr.
      pose proof (Hclock l.(ticks) (S (S l.(ticks))) ltac:(lia)). lia. }
    apply used_at_nonneg in Hused; [|done].
    pose proof (Hclock l.(ticks) (S l.(ticks)) ltac:(lia)) as H01.
    pose proof (Hclock (S l.(ticks)) (S (S l.(ticks))) ltac:(lia)) as H12.
    pose proof (Hclock (S (S l.(ticks))) (S (S (S l.(ticks)))) ltac:(lia)) as H23.
    split; cbn; [done| | |].
    + apply Forall_app. split; [done|by constructor].
    + apply Forall_app. split; [|by constructor]. eapply Forall_impl; [exact Hp|]. cbn. lia.
    + intros now. rewrite open_total_snoc. specialize (Hb now).
      destruct (open_in scope now None (new_row a _)) eqn:Hin; cbn [estimated_cost_units new_row]; [|lia].
      assert (a.(a_scope) = scope) as <-.
      { unfold open_in, _day_window in Hin. cbn in Hin. by destruct (decide (a.(a_scope) = scope)) as [->|Hne];
          [|rewrite (bool_decide_eq_false_2 _ Hne) in Hin]. }
      specialize (Hlim a eq_refl eq_refl). apply open_in_day in Hin. cbn [created_at new_row] in Hin.
      pose proof (day_number_mono _ _ H12) as Hd. pose proof (open_total_nonneg a.(a_scope) (clock (S l.(ticks))) _ He).
      destruct (Z.eq_dec (day_number (clock (S l.(ticks)))) (day_number now)) as [Hsame|Hdiff].
      * rewrite (open_total_day _ _ _ _ Hsame) in Hx. lia.
      * rewrite open_total_before; [lia|]. eapply Forall_impl; [exact Hp|]. cbn. intros r Hr.
        pose proof (day_number_mono _ _ (Z.le_trans _ _ _ Hr H01)). lia.
  - destruct (settle clock rid actual limit ids l) as [[st l']|] eqn:E; cbn in *; [|by split].
    apply settle_ok in E as (r & used & _ & _ & _ & _ & -> & ->).
    apply closed_within; [lia|apply settlement_closes|by split].
  - destruct (release clock rid l) as [[u l']|] eqn:E; cbn in *; [|by split].
    apply release_ok in E as (r & _ & _ & ->). apply closed_within; [lia|done|by split].
  - destruct (0 <=? _); by split.
  - by split.
  - destruct (append q l) as [[x l']|] eqn:E; cbn in *; [|by split]. apply append_step in E as (s & _ & ->). by split.
Qed.

(** C32. The open reservations of a scope never exceed its limit, on any day. With a
    clock that does not run backwards, from a ledger where the scope is within [L],
    and whatever operations follow - on this scope and on others, refused ones,
    settlements, releases and usage reports included - as long as no reservation of
    the scope is asked for with a limit above [L], the estimates of the open
    reservations created on any one day sum to at most [L]; an attempt that starts
    before midnight and is stamped after it is no exception. *)
Theorem budget_never_overcommitted scope L l os now :
  0 <= L -> within scope L l ->
  Forall (fun o => forall a, o = TryReserve a -> a.(a_scope) = scope -> a.(a_limit) <= L) os ->
  open_total scope now (run l os).(reservations) <= L.
Proof.
  intros HL Hw Hos. apply wi_bound. revert l Hw. induction Hos as [|o os Ho _ IH]; intros l Hw; [done|].
  apply IH. by apply perform_within.
Qed.

End facts.

(** * A small ledger *)

Module Sample.

#[local] Instance log : EventLogI (list Event) := list_log.

Definition clock (n : nat) : Z := Z.of_nat n.
Definition scope : BudgetScope := {| scope_type := "agent_daily"; scope_id := "a1" |}.

Definition ask (hex : string) (estimate : Z) : ReserveArgs := {|
  a_workspace := "ws"; a_actor := "acct"; a_scope := scope; a_limit := 100; a_estimate := estimate;
  a_work_item := Some "wi-1"; a_correlation := "c"; a_key := None; a_run_ids := None;
  new_hex := hex; key_hex := hex |}.

Definition start : Ledger (list Event) := {|
  usage_rows := []; task_channel := ∅; reservations := []; ticks := 0; store := [] |}.

Definition ops : list op := [
  TryReserve (ask "1" 60); TryReserve (ask "2" 60); TryReserve (ask "3" 30);
  Settle "bres-1" 80 100 None; Settle "bres-1" 10 100 None; Release "bres-3"].

Definition after (n : nat) : Ledger (list Event) := run clock start (take n ops).

(** The second attempt is refused, the first reservation is exceeded by its
    settlement (80 > 100 - 0 - 30), which cannot be repeated. *)
Example states :
  map (fun r => (r.(reservation_id), r.(rv_status), r.(settled_cost_units))) (after 6).(reservations) =
  [("bres-1", EXCEEDED, Some 80); ("bres-3", RELEASED, None)].
Proof. by vm_compute. Qed.

Lemma clock_mono i j : (i <= j)%nat -> clock i <= clock j.
Proof. unfold clock. lia. Qed.

Lemma start_within : within clock scope 100 start.
Proof. by split. Qed.

End Sample.

#[local] Existing Instance Sample.log.

Lemma reserve_decides_witness :
  match try_reserve Sample.clock (Sample.ask "2" 60) (Sample.after 1) with
  | Ok (o, l') => o.(reserved) = false /\ exists used e,
      e ∈ el_log l'.(store) /\ records (exceeded_request (Sample.ask "2" 60) used 60) e
  | Err _ => False
  end.
Proof.
  assert (el_ok (store (Sample.after 1))) as Hok by exact I.
  destruct (try_reserve Sample.clock (Sample.ask "2" 60) (Sample.after 1)) as [[o l']|] eqn:E; [|by vm_compute in E].
  destruct (reserve_decides Sample.clock (Sample.ask "2" 60) (Sample.after 1) o l' Hok E) as (used & e & Hused & Hdec & _ & He & _ & Hrest).
  assert (used = 0) as -> by (vm_compute in Hused; congruence).
  assert (open_total Sample.scope (Sample.clock (S (ticks (Sample.after 1)))) (reservations (Sample.after 1)) = 60)
    as Hheld by by vm_compute.
  cbn [a_scope Sample.ask a_estimate a_limit] in *. rewrite Hheld in *.
  destruct (reserved o) eqn:Hr; [exfalso; destruct Hdec as [Hdec _]; specialize (Hdec eq_refl); lia|].
  destruct Hrest as [_ Hrec]. split; [reflexivity|]. exists 0, e. split; [exact He|exact Hrec].
Defined.

Lemma reservation_lifecycle_witness :
  exists r', find_reservation "bres-1" (run Sample.clock (Sample.after 4) (drop 4 Sample.ops)).(reservations) = Some r' /\
             r'.(settled_cost_units) = Some 80.
Proof.
  destruct (find_reservation "bres-1" (Sample.after 4).(reservations)) as [r|] eqn:E; [|by vm_compute in E].
  destruct (reservation_lifecycle Sample.clock (Sample.after 4) (drop 4 Sample.ops) "bres-1" r E) as (r' & Hr' & _ & Hcl).
  exists r'. split; [exact Hr'|].
  assert (r.(rv_status) <> RESERVED /\ r.(settled_cost_units) = Some 80) as [Hop Hs]
    by (vm_compute in E; injection E as <-; split; [discriminate|reflexivity]).
  by rewrite (Hcl Hop).
Defined.

Lemma budget_never_overcommitted_witness :
  open_total Sample.scope 5 (run Sample.clock Sample.start Sample.ops).(reservations) <= 100.
Proof.
  apply (budget_never_overcommitted Sample.clock Sample.clock_mono); [done|exact Sample.start_within|].
  repeat (constructor; [intros a [= <-] _; reflexivity || (intros a Ha; discriminate)|]).
  repeat constructor; intros a Ha; discriminate.
Defined.
