(* ===== verification/ScheduleContract.v ===== *)
(** The state contract of Schedules and their Runs
    ([server/schedules/contract.py]): transitions, cancellation, the invariant
    of a Run's kind, concurrency, missed occurrences and retries. The warning of
    a backfill is the numbers it reports; a delay in seconds is a rational. *)

From S2P Require Import Prelude Defaults.
From Stdlib Require Import QArith.
Open Scope Z_scope.

Inductive ScheduleStatus := DRAFT | ENABLED | PAUSED | DISABLED.
#[global] Instance ScheduleStatus_eq_dec : EqDecision ScheduleStatus.
Proof. solve_decision. Defined.

Inductive RunStatus :=
| PENDING | DUE | CLAIMED | TASK_CREATED | RUNNING | VERIFYING | SUCCEEDED | FAILED | SKIPPED
| TIMED_OUT | CANCEL_REQUESTED | CANCELLED.
#[global] Instance RunStatus_eq_dec : EqDecision RunStatus.
Proof. solve_decision. Defined.

Inductive RunKind := SCHEDULED | MANUAL | RETRY_RUN.
#[global] Instance RunKind_eq_dec : EqDecision RunKind.
Proof. solve_decision. Defined.

Inductive ConcurrencyPolicy := FORBID | ALLOW_OVERLAP | REPLACE.
#[global] Instance ConcurrencyPolicy_eq_dec : EqDecision ConcurrencyPolicy.
Proof. solve_decision. Defined.

Inductive MissedRunPolicy := SKIP | RUN_ONCE | BACKFILL_LIMITED.
#[global] Instance MissedRunPolicy_eq_dec : EqDecision MissedRunPolicy.
Proof. solve_decision. Defined.

Definition SCHEDULE_TRANSITIONS (s : ScheduleStatus) : list ScheduleStatus :=
  match s with
  | DRAFT => [ENABLED; DISABLED]
  | ENABLED => [PAUSED; DISABLED]
  | PAUSED => [ENABLED; DISABLED]
  | DISABLED => []
  end.

Definition RUN_TERMINAL : list RunStatus := [SUCCEEDED; FAILED; SKIPPED; TIMED_OUT; CANCELLED].
Definition RUN_PENDING : list RunStatus := [PENDING; DUE].
Definition RUN_RUNNING : list RunStatus := [CLAIMED; TASK_CREATED; RUNNING; VERIFYING].

Definition RUN_TRANSITIONS (s : RunStatus) : list RunStatus :=
  match s with
  | PENDING => [DUE; CANCELLED; SKIPPED]
  | DUE => [CLAIMED; CANCELLED; SKIPPED]
  | CLAIMED => [TASK_CREATED; SKIPPED; FAILED; CANCEL_REQUESTED; DUE]
  | TASK_CREATED => [RUNNING; FAILED; CANCEL_REQUESTED; TIMED_OUT]
  | RUNNING => [VERIFYING; SUCCEEDED; FAILED; TIMED_OUT; CANCEL_REQUESTED]
  | VERIFYING => [SUCCEEDED; FAILED; TIMED_OUT; CANCEL_REQUESTED]
  | CANCEL_REQUESTED => [CANCELLED; TIMED_OUT]
  | SUCCEEDED | FAILED | SKIPPED | TIMED_OUT | CANCELLED => []
  end.

Definition schedule_transition (current target : ScheduleStatus) : res ScheduleStatus :=
  guard_err (negb (mem target (SCHEDULE_TRANSITIONS current))) "SCHEDULE_TRANSITION_INVALID" (Ok target).

Definition run_transition (current target : RunStatus) : res RunStatus :=
  guard_err (mem current RUN_TERMINAL) "RUN_TERMINAL_CONFLICT"
  (guard_err (negb (mem target (RUN_TRANSITIONS current))) "RUN_TRANSITION_INVALID" (Ok target)).

Definition cancel_run (current : RunStatus) : res RunStatus :=
  if mem current RUN_TERMINAL then Err "RUN_TERMINAL_CONFLICT"
  else if mem current RUN_PENDING then Ok CANCELLED
  else if mem current RUN_RUNNING then Ok CANCEL_REQUESTED
  else if bool_decide (current = CANCEL_REQUESTED) then Err "RUN_CANCEL_ALREADY_REQUESTED"
  else Err "RUN_TRANSITION_INVALID".

Definition check_run_kind (kind : RunKind) (occurrence_key retry_of : option string) : res unit :=
  if bool_decide (kind = SCHEDULED) then
    guard_err (negb (truthy occurrence_key)) "RUN_KIND_INVARIANT"
    (guard_err (bool_decide (retry_of <> None)) "RUN_KIND_INVARIANT" (Ok tt))
  else
    guard_err (bool_decide (occurrence_key <> None)) "RUN_KIND_INVARIANT"
    (guard_err (bool_decide (kind = RETRY_RUN) && negb (truthy retry_of)) "RUN_KIND_INVARIANT"
    (guard_err (bool_decide (kind = MANUAL) && bool_decide (retry_of <> None)) "RUN_KIND_INVARIANT" (Ok tt))).

(** * Concurrency *)

Inductive ConcurrencyDecision := START | SKIP_RUN | REPLACE_CANCEL_EXISTING.
#[global] Instance ConcurrencyDecision_eq_dec : EqDecision ConcurrencyDecision.
Proof. solve_decision. Defined.

Record ConcurrencyOutcome := { co_decision : ConcurrencyDecision; error_code : option string }.

Definition decide_concurrency (policy : ConcurrencyPolicy) (previous_run_active : bool)
    (replace_cancel_confirmed : option bool) : ConcurrencyOutcome :=
  if negb previous_run_active then {| co_decision := START; error_code := None |}
  else if bool_decide (policy = ALLOW_OVERLAP) then {| co_decision := START; error_code := None |}
  else if bool_decide (policy = FORBID)
  then {| co_decision := SKIP_RUN; error_code := Some "SKIPPED_CONCURRENCY" |}
  else match replace_cancel_confirmed with
  | None => {| co_decision := REPLACE_CANCEL_EXISTING; error_code := None |}
  | Some true => {| co_decision := START; error_code := None |}
  | Some false => {| co_decision := SKIP_RUN; error_code := Some "SKIPPED_REPLACE_CANCEL_TIMEOUT" |}
  end.

Definition replace_cancel_confirmed (requested_at : Z) (confirmed_at : option Z) : bool :=
  match confirmed_at with
  | None => false
  | Some t => t - requested_at <=? seconds SCHEDULE_REPLACE_CANCEL_TIMEOUT_S
  end.

(** * Missed occurrences *)

Record MissedOccurrence := { m_key : list N; m_scheduled_for : Z }.

(** The numbers of the warning text: outside the window, beyond the limit, the
    limit, created, missed. *)
Record BackfillWarning := {
  w_outside : nat; w_dropped : nat; w_limit : Z; w_created : nat; w_missed : nat }.

Record MissedRunPlan := {
  to_create : list MissedOccurrence;
  skipped : list MissedOccurrence;
  warning : option BackfillWarning }.

Definition by_instant (a b : MissedOccurrence) : bool := a.(m_scheduled_for) <=? b.(m_scheduled_for).

Definition plan_missed_runs (policy : MissedRunPolicy) (missed : list MissedOccurrence) (now : Z)
    (backfill_window_seconds backfill_limit : Z) : res MissedRunPlan :=
  let ordered := py_sorted by_instant missed in
  if bool_decide (length ordered = 0%nat) || bool_decide (policy = SKIP)
  then Ok {| to_create := []; skipped := ordered; warning := None |}
  else if bool_decide (policy = RUN_ONCE) then
    let n := (length ordered - 1)%nat in
    Ok {| to_create := drop n ordered; skipped := take n ordered; warning := None |}
  else if (backfill_window_seconds <? 0) || (backfill_limit <? 0) then Err "BACKFILL_INVALID"
  else
    let window_start := now - seconds backfill_window_seconds in
    let in_window := List.filter (fun m => window_start <=? m.(m_scheduled_for)) ordered in
    let outside := List.filter (fun m => m.(m_scheduled_for) <? window_start) ordered in
    let chosen := take (Z.to_nat backfill_limit) in_window in
    let dropped := drop (Z.to_nat backfill_limit) in_window in
    Ok {| to_create := chosen; skipped := outside ++ dropped;
          warning := match outside ++ dropped with
            | [] => None
            | _ :: _ => Some {| w_outside := length outside; w_dropped := length dropped;
                w_limit := backfill_limit; w_created := length chosen; w_missed := length ordered |}
            end |}.

(** * Retries *)

Definition SCHEDULE_RETRY_JITTER_MAX_RATIO : Q := 1 # 5.

Record RetryPolicy := {
  max_attempts : Z;
  backoff_seconds : list Z;
  jitter_ratio : Q;
  transient_error_codes : list string }.

Definition default_retry_policy : RetryPolicy := {|
  max_attempts := SCHEDULE_RETRY_MAX_ATTEMPTS; backoff_seconds := SCHEDULE_RETRY_BACKOFF_S;
  jitter_ratio := SCHEDULE_RETRY_JITTER_MAX_RATIO;
  transient_error_codes := ["TRANSIENT"; "TIMEOUT_TRANSIENT"; "PROVIDER_UNAVAILABLE"] |}.

(** [__post_init__] *)
Definition checked (p : RetryPolicy) : res RetryPolicy :=
  guard_err ((p.(max_attempts) <? 1) || (SCHEDULE_RETRY_MAX_ATTEMPTS <? p.(max_attempts)))
    "RETRY_POLICY_INVALID"
  (guard_err (negb (Qle_bool 0 p.(jitter_ratio) && Qle_bool p.(jitter_ratio) SCHEDULE_RETRY_JITTER_MAX_RATIO))
    "RETRY_POLICY_INVALID" (Ok p)).

Inductive RetryDecision := RETRY | FAIL_PERMANENT | FAIL_EXHAUSTED.
#[global] Instance RetryDecision_eq_dec : EqDecision RetryDecision.
Proof. solve_decision. Defined.

Record RetryOutcome := {
  rt_decision : RetryDecision;
  next_attempt_no : option Z;
  delay_min_s : option Q;
  delay_max_s : option Q }.

Definition no_retry (d : RetryDecision) : RetryOutcome := {|
  rt_decision := d; next_attempt_no := None; delay_min_s := None; delay_max_s := None |}.

(** [l[i]]: a negative index counts from the end. *)
Definition py_index {A} (l : list A) (i : Z) : res A :=
  let j := if i <? 0 then i + Z.of_nat (length l) else i in
  match (if j <? 0 then None else l !! Z.to_nat j) with Some x => Ok x | None => Err "IndexError" end.

Definition decide_retry (p : RetryPolicy) (attempt_no : Z) (error_code : string) : res RetryOutcome :=
  if negb (mem error_code p.(transient_error_codes)) then Ok (no_retry FAIL_PERMANENT)
  else if p.(max_attempts) <=? attempt_no then Ok (no_retry FAIL_EXHAUSTED)
  else
    base ← py_index p.(backoff_seconds)
      (Z.min (attempt_no - 1) (Z.of_nat (length p.(backoff_seconds)) - 1));
    Ok {| rt_decision := RETRY; next_attempt_no := Some (attempt_no + 1);
          delay_min_s := Some (inject_Z base);
          delay_max_s := Some (inject_Z base * (1 + p.(jitter_ratio)))%Q |}.

(** * Lemmas *)

Definition step (s t : RunStatus) : option RunStatus :=
  match run_transition s t with Ok s' => Some s' | Err _ => None end.

Lemma step_spec s t s' : step s t = Some s' <-> s' = t /\ t ∈ RUN_TRANSITIONS s.
Proof.
  unfold step, run_transition, guard_err.
  destruct (mem s RUN_TERMINAL) eqn:Es.
  - split; [done|]. intros [_ H]. apply mem_spec in Es. unfold RUN_TERMINAL in Es.
    repeat (apply elem_of_cons in Es as [->|Es]; [cbn in H; by apply elem_of_nil in H|]).
    by apply elem_of_nil in Es.
  - destruct (mem t _) eqn:Et; cbn.
    + apply mem_spec in Et. split; [by intros [= <-]|by intros [-> _]].
    + apply mem_false in Et. split; [done|]. by intros [_ ?].
Qed.

(** The statuses of a Run whose Task exists, or that ended. *)
Definition started : list RunStatus :=
  [TASK_CREATED; RUNNING; VERIFYING; SUCCEEDED; FAILED; SKIPPED; TIMED_OUT; CANCEL_REQUESTED; CANCELLED].

Lemma started_closed s t : s ∈ started -> t ∈ RUN_TRANSITIONS s -> t ∈ started /\ t <> TASK_CREATED.
Proof.
  intros Hs Ht. assert (forallb (fun s => forallb (fun t => mem t started && negb (bool_decide (t = TASK_CREATED)))
    (RUN_TRANSITIONS s)) started = true) as H by reflexivity.
  rewrite forallb_forall in H. specialize (H s (proj1 (list_elem_of_In _ _) Hs)).
  rewrite forallb_forall in H. specialize (H t (proj1 (list_elem_of_In _ _) Ht)).
  by rewrite andb_true_iff, mem_spec, negb_true_iff, bool_decide_eq_false in H.
Qed.

Lemma started_no_task s path s' : s ∈ started -> run_steps step s path = Some s' -> TASK_CREATED ∉ path.
Proof.
  revert s. induction path as [|t path IH]; intros s Hs; cbn; [by intros _ ?%elem_of_nil|].
  intros (s1 & [-> Ht]%step_spec & H)%bind_Some. destruct (started_closed s t Hs Ht) as [Ht1 Ht2].
  rewrite not_elem_of_cons. split; [done|]. by apply (IH t).
Qed.

Definition worked (s : RunStatus) : Prop := s ∈ [TASK_CREATED; RUNNING; VERIFYING; SUCCEEDED].

(** Ended, or ending, without success. *)
Definition dead : list RunStatus := [FAILED; SKIPPED; TIMED_OUT; CANCEL_REQUESTED; CANCELLED].

Lemma dead_stays s path s' : s ∈ dead -> run_steps step s path = Some s' -> ~ worked s'.
Proof.
  intros Hs H. assert (s' ∈ dead) as Hd.
  { revert H. apply (run_steps_ind step (fun s => s ∈ dead)); [done|].
    intros a t b Ha [-> Ht]%step_spec. unfold dead in *.
    repeat (apply elem_of_cons in Ha as [->|Ha]; [cbn in Ht; set_solver|]). by apply elem_of_nil in Ha. }
  unfold dead, worked in *. set_solver.
Qed.

Lemma unstarted_history s path s' :
  s ∉ started -> run_steps step s path = Some s' ->
  (length (filter (eq TASK_CREATED) path) <= 1)%nat /\ (worked s' -> TASK_CREATED ∈ path).
Proof.
  revert s. induction path as [|t path IH]; intros s Hs; cbn [run_steps].
  { intros [= <-]. split; [cbn; lia|]. intros Hw. exfalso. apply Hs.
    unfold worked in Hw. unfold started. set_solver. }
  intros (s1 & [-> Ht]%step_spec & H)%bind_Some.
  destruct (decide (t = TASK_CREATED)) as [->|Hne].
  - rewrite filter_cons_True by done. pose proof (started_no_task TASK_CREATED path s') as Hno.
    assert (filter (eq TASK_CREATED) path = []) as ->.
    { apply elem_of_nil_inv. intros x [<- Hx]%list_elem_of_filter. revert Hx. apply Hno; [|done].
      by apply (bool_decide_unpack _). }
    split; [done|]. intros _. left.
  - rewrite filter_cons_False by congruence. destruct (decide (t ∈ started)) as [Hst|Hst].
    + pose proof (started_no_task t path s' Hst H) as Hno. split.
      { assert (filter (eq TASK_CREATED) path = []) as ->; [|cbn; lia].
        apply elem_of_nil_inv. by intros x [<- Hx]%list_elem_of_filter. }
      intros Hw. exfalso. apply (dead_stays t path s'); [|done..].
      destruct s; cbn in Ht; try (by destruct Hs; apply (bool_decide_unpack _));
        unfold dead; set_solver.
    + destruct (IH t Hst H) as [H1 H2]. split; [done|]. intros Hw. right. by apply H2.
Qed.

Lemma schedule_disabled_final t : schedule_transition DISABLED t = Err "SCHEDULE_TRANSITION_INVALID".
Proof. by destruct t. Qed.

(** * Properties *)

(** The life of a Run. In any history of a Run from PENDING its Task is
    created at most once, whatever leases expire on the way, and a Run that
    works, verifies or succeeded has had its Task created; an ended Run accepts
    no further transition; cancelling a Run that has not ended is always a legal
    transition: at once before it is claimed, else through CANCEL_REQUESTED,
    which only ends CANCELLED or TIMED_OUT. *)
Theorem run_lifecycle path s :
  run_steps step PENDING path = Some s ->
  (length (filter (eq TASK_CREATED) path) <= 1)%nat /\
  (worked s -> TASK_CREATED ∈ path) /\
  (s ∈ RUN_TERMINAL -> forall t, run_transition s t = Err "RUN_TERMINAL_CONFLICT") /\
  (s ∉ RUN_TERMINAL -> s <> CANCEL_REQUESTED -> exists t, cancel_run s = Ok t /\ run_transition s t = Ok t /\
     (s ∈ RUN_PENDING -> t = CANCELLED) /\
     (s ∉ RUN_PENDING -> t = CANCEL_REQUESTED /\
        forall u, run_transition t u = Ok u <-> u = CANCELLED \/ u = TIMED_OUT)).
Proof.
  intros H. destruct (unstarted_history PENDING path s) as [H1 H2];
    [by apply (bool_decide_unpack _)|done|].
  split_and!; [done|done| |].
  - intros Hs t. unfold run_transition. by rewrite (proj2 (mem_spec _ _) Hs).
  - clear. intros Hs Hc. destruct s; try (by destruct Hs; apply (bool_decide_unpack _)); try done;
      eexists; (split; [reflexivity|]); (split; [reflexivity|]); (split;
        [by intros ?%(proj2 (mem_spec _ _))|]); intros Hp;
      try (by destruct Hp; apply (bool_decide_unpack _)); (split; [done|]); by intros []; naive_solver.
Qed.

Lemma run_lifecycle_witness : TASK_CREATED ∈ [DUE; CLAIMED; DUE; CLAIMED; TASK_CREATED; RUNNING; SUCCEEDED].
Proof.
  apply (run_lifecycle [DUE; CLAIMED; DUE; CLAIMED; TASK_CREATED; RUNNING; SUCCEEDED] SUCCEEDED).
  - reflexivity.
  - by apply (bool_decide_unpack _).
Defined.

Lemma by_instant_total a b : by_instant a b = false -> by_instant b a = true.
Proof. unfold by_instant. rewrite Z.leb_gt, Z.leb_le. lia. Qed.
Lemma by_instant_trans a b c : by_instant a b = true -> by_instant b c = true -> by_instant a c = true.
Proof. unfold by_instant. rewrite !Z.leb_le. lia. Qed.

Definition instant_ordered : list MissedOccurrence -> Prop :=
  StronglySorted (fun a b => by_instant a b = true).

Lemma ordered_missed l : instant_ordered (py_sorted by_instant l).
Proof. apply py_sorted_sorted; [apply by_instant_total|apply by_instant_trans]. Qed.

Lemma sorted_split (l1 l2 : list MissedOccurrence) x y :
  instant_ordered (l1 ++ l2) -> x ∈ l1 -> y ∈ l2 -> x.(m_scheduled_for) <= y.(m_scheduled_for).
Proof.
  unfold instant_ordered. induction l1 as [|a l1 IH]; cbn; intros Hs Hx Hy; [by apply elem_of_nil in Hx|].
  apply StronglySorted_inv in Hs as [Hs Ha]. apply elem_of_cons in Hx as [->|Hx]; [|by apply IH].
  rewrite Forall_forall in Ha. apply Z.leb_le, Ha, elem_of_app. by right.
Qed.

Lemma filter_sorted (f : MissedOccurrence -> bool) l : instant_ordered l -> instant_ordered (List.filter f l).
Proof.
  induction 1 as [|a l Hs IH Ha]; cbn; [constructor|]. destruct (f a); [|done]. constructor; [done|].
  rewrite Forall_forall in *. intros x Hx. apply Ha. apply list_elem_of_In, filter_In in Hx as [Hx _].
  by apply list_elem_of_In.
Qed.

Lemma filter_partition (p q : MissedOccurrence -> bool) (l : list MissedOccurrence) :
  (forall m, q m = negb (p m)) -> List.filter p l ++ List.filter q l ≡ₚ l.
Proof.
  intros Hpq. induction l as [|a l IH]; [done|]. cbn. rewrite Hpq. destruct (p a); cbn.
  - by rewrite IH.
  - by rewrite <- Permutation_middle, IH.
Qed.

Lemma In_elem_take_filter n (f : MissedOccurrence -> bool) l m :
  In m (take n (List.filter f l)) -> f m = true.
Proof. intros H%list_elem_of_In%elem_of_take. destruct H as (i & Hi & _).
  apply list_elem_of_lookup_2, list_elem_of_In, filter_In in Hi. tauto. Qed.

Lemma plan_missed_partition policy missed now window limit :
  match plan_missed_runs policy missed now window limit with
  | Err _ => True
  | Ok p => p.(to_create) ++ p.(skipped) ≡ₚ missed
  end.
Proof.
  unfold plan_missed_runs. cbn zeta. pose proof (py_sorted_perm by_instant missed) as Hp.
  set (l := py_sorted by_instant missed) in *. destruct (_ || _); [exact Hp|].
  destruct (bool_decide _); [cbn; by rewrite Permutation_app_comm, take_drop|].
  destruct (_ || _); [done|]. cbn [to_create skipped].
  set (inw := List.filter (fun m => now - seconds window <=? m.(m_scheduled_for)) l).
  set (out := List.filter (fun m => m.(m_scheduled_for) <? now - seconds window) l).
  rewrite app_assoc, (Permutation_app_comm _ out), <- app_assoc, take_drop, Permutation_app_comm, <- Hp.
  apply filter_partition. intros m. by rewrite Z.ltb_antisym.
Qed.

(** No missed occurrence is lost. After an outage every missed occurrence
    is either created or noted as skipped, never both. RUN_ONCE creates exactly
    the latest; a limited backfill creates the earliest ones inside its window
    up to its limit, warns unless it created all, and fails only on a negative
    setting. *)
Theorem missed_runs_accounted policy missed now window limit :
  match plan_missed_runs policy missed now window limit with
  | Err e => e = "BACKFILL_INVALID" /\ policy = BACKFILL_LIMITED /\ missed <> [] /\ (window < 0 \/ limit < 0)
  | Ok p =>
      p.(to_create) ++ p.(skipped) ≡ₚ missed /\
      (policy = SKIP -> p.(to_create) = []) /\
      (policy = RUN_ONCE -> missed <> [] -> exists m, p.(to_create) = [m] /\
         forall x, x ∈ missed -> x.(m_scheduled_for) <= m.(m_scheduled_for)) /\
      (policy = BACKFILL_LIMITED -> missed <> [] ->
         Z.of_nat (length p.(to_create)) <= limit /\
         (forall m, m ∈ p.(to_create) -> now - seconds window <= m.(m_scheduled_for)) /\
         (forall x, x ∈ p.(skipped) -> x.(m_scheduled_for) < now - seconds window \/
            Z.of_nat (length p.(to_create)) = limit /\
            forall m, m ∈ p.(to_create) -> m.(m_scheduled_for) <= x.(m_scheduled_for)) /\
         (p.(warning) = None <-> p.(skipped) = []))
  end.
Proof.
  pose proof (plan_missed_partition policy missed now window limit) as Hpart. revert Hpart.
  unfold plan_missed_runs. cbn zeta. pose proof (py_sorted_perm by_instant missed) as Hp.
  pose proof (ordered_missed missed) as Ho. set (l := py_sorted by_instant missed) in *.
  assert (missed <> [] -> length l <> 0%nat) as Hne.
  { intros H1 H2%nil_length_inv. rewrite H2 in Hp. by apply Permutation_nil_l in Hp. }
  case_bool_decide as E0; cbn [orb].
  { intros _. split; [exact Hp|]. split; [done|]. split; intros _ Hm; by destruct (Hne Hm). }
  case_bool_decide as E1; [subst; done|]. case_bool_decide as E2.
  { subst. cbn. intros Hpart. split; [exact Hpart|]. split; [done|]. split; [|done].
    intros _ _. destruct (drop (length l - 1) l) as [|m [|m' r]] eqn:Ed;
      [apply (f_equal length) in Ed; rewrite length_drop in Ed; cbn in Ed; lia| |
       apply (f_equal length) in Ed; rewrite length_drop in Ed; cbn in Ed; lia].
    exists m. split; [done|]. intros x Hx. rewrite <- Hp, <- (take_drop (length l - 1) l), Ed in Hx.
    apply elem_of_app in Hx as [Hx|Hx]; [|by apply list_elem_of_singleton in Hx as ->].
    rewrite <- (take_drop (length l - 1) l), Ed in Ho. apply (sorted_split _ _ _ _ Ho Hx). left. }
  assert (policy = BACKFILL_LIMITED) as -> by (by destruct policy).
  assert (missed <> []) as Hm by (intros ->; by apply Permutation_nil_r in Hp; rewrite Hp in E0).
  destruct (Z.ltb_spec window 0); [cbn; tauto|]. destruct (Z.ltb_spec limit 0); [cbn; tauto|]. cbn [orb].
  set (inw := List.filter (fun m => now - seconds window <=? m.(m_scheduled_for)) l).
  set (out := List.filter (fun m => m.(m_scheduled_for) <? now - seconds window) l).
  cbn [to_create skipped warning]. intros Hpart. split; [exact Hpart|]. split; [done|]. split; [done|]. intros _ _. split; [rewrite length_take; lia|]. split.
  { intros m Hin%list_elem_of_In%In_elem_take_filter. by apply Z.leb_le. }
  split; [|by destruct (out ++ _)].
  intros x [Hx|Hx]%elem_of_app.
  - left. by apply list_elem_of_In, filter_In in Hx as [_ Hx%Z.ltb_lt].
  - right. split.
    + rewrite length_take. assert (Z.to_nat limit < length inw)%nat; [|lia].
      destruct (decide (Z.to_nat limit < length inw)%nat); [done|]. rewrite drop_ge in Hx by lia.
      by apply elem_of_nil in Hx.
    + intros m Hin. apply (sorted_split (take (Z.to_nat limit) inw) (drop (Z.to_nat limit) inw)); [|done..].
      rewrite take_drop. by apply filter_sorted.
Qed.
