(* ===== verification/RunStore.v ===== *)
(** The rows of Schedule Runs: the adapter of the execution package
    ([server/schedules/run_access.py]) over the row access of
    [server/schedules/store.py], and claiming with leases
    ([server/schedules/runner.py]). One database state serves the budget of Runs
    ([RunBudget.v]) and their execution ([Execution.v]) too: [runs] is the table in
    the order of insertion, [ledger] the state of [Budget.v] with the Event store and
    the clock, and [world] whatever else the commands a Run executes change. The
    columns [updated_at] and [version_hash] are left out, and with them the readings
    of the clock that only fill them. *)

From S2P Require Import Prelude Defaults Canonical HashChain EventStore Tx EventLog Usage Budget ScheduleContract.
Open Scope Z_scope.

(** ** Rows *)

(** The columns of a Run that change. *)
Record RunState := {
  status : RunStatus;
  attempt_count : Z;
  task_id : option string;
  claimed_by : option string;
  claimed_at : option Z;
  lease_expires_at : option Z;
  heartbeat_at : option Z;
  started_at : option Z;
  finished_at : option Z;
  result_event_id : option ustr;
  run_error : option string; (* error_code *)
  cancel_requested_at : option Z;
  cancelled_at : option Z }.

Record RunRow := {
  run_id : string;
  run_workspace : string;
  run_schedule : string;
  run_version : string;
  run_kind : RunKind;
  occurrence_key : option string;
  scheduled_for : Z;
  retry_of_run_id : option string;
  run_key : string; (* idempotency_key *)
  run_created_at : Z;
  now_ : RunState }.

Definition run_status (r : RunRow) : RunStatus := r.(now_).(status).

(** The keyword arguments of [update_run]. *)
Inductive Col :=
| CStatus (x : RunStatus) | CAttempts (x : Z) | CTask (x : option string) | CClaimedBy (x : option string)
| CClaimedAt (x : option Z) | CLease (x : option Z) | CHeartbeat (x : option Z) | CStarted (x : option Z)
| CFinished (x : option Z) | CResult (x : option ustr) | CError (x : option string)
| CCancelRequested (x : option Z) | CCancelled (x : option Z).

Definition set_col (s : RunState) (c : Col) : RunState := {|
  status := match c with CStatus x => x | _ => s.(status) end;
  attempt_count := match c with CAttempts x => x | _ => s.(attempt_count) end;
  task_id := match c with CTask x => x | _ => s.(task_id) end;
  claimed_by := match c with CClaimedBy x => x | _ => s.(claimed_by) end;
  claimed_at := match c with CClaimedAt x => x | _ => s.(claimed_at) end;
  lease_expires_at := match c with CLease x => x | _ => s.(lease_expires_at) end;
  heartbeat_at := match c with CHeartbeat x => x | _ => s.(heartbeat_at) end;
  started_at := match c with CStarted x => x | _ => s.(started_at) end;
  finished_at := match c with CFinished x => x | _ => s.(finished_at) end;
  result_event_id := match c with CResult x => x | _ => s.(result_event_id) end;
  run_error := match c with CError x => x | _ => s.(run_error) end;
  cancel_requested_at := match c with CCancelRequested x => x | _ => s.(cancel_requested_at) end;
  cancelled_at := match c with CCancelled x => x | _ => s.(cancelled_at) end |}.

Definition with_cols (cols : list Col) (r : RunRow) : RunRow := {|
  run_id := r.(run_id); run_workspace := r.(run_workspace); run_schedule := r.(run_schedule);
  run_version := r.(run_version); run_kind := r.(run_kind); occurrence_key := r.(occurrence_key);
  scheduled_for := r.(scheduled_for); retry_of_run_id := r.(retry_of_run_id); run_key := r.(run_key);
  run_created_at := r.(run_created_at); now_ := foldl set_col r.(now_) cols |}.

Definition update_rows (rid : string) (cols : list Col) (rows : list RunRow) : list RunRow :=
  map (fun r => if String.eqb r.(run_id) rid then with_cols cols r else r) rows.

Definition find_run (rid : string) (rows : list RunRow) : option RunRow :=
  find (fun r => String.eqb r.(run_id) rid) rows.

Record AttemptRow := {
  t_run : string; attempt_no : Z; t_started_at : option Z; t_finished_at : option Z;
  t_result : option string; t_error : option string }.

(** [schedule_run_retries] *)
Record RetryRow := { y_run : string; next_attempt_no : Z; next_attempt_at : Z; y_error : string; y_created_at : Z }.

(** [schedule_run_budgets] *)
Record RunBudgetRow := {
  rb_run : string; rb_scope_type : string; rb_reservation : string; rb_limit : Z; rb_estimate : Z;
  rb_status : ReservationStatus; rb_settled : option Z; rb_settled_at : option Z }.

Record AlertRow := {
  al_id : Z; al_kind : string; al_schedule : option string; al_run : option string;
  al_detail : list (ustr * json); raised_at : Z }.

(** [delivery_outbox], the pending rows the alerts queue. *)
Record OutboxRow := { ob_dedupe_key : ustr; ob_payload : list (ustr * json); next_attempt : Z }.

Record NoticeRow := { no_run : string; no_kind : string; no_outbox : option string; no_channel : string; no_at : Z }.

(** The columns of a ScheduleVersion and of a Schedule the execution reads. *)
Record VersionRow := {
  v_id : string;
  v_schedule : string;
  v_channel : string;
  concurrency_policy : ConcurrencyPolicy;
  max_duration_seconds : Z;
  retry_policy : RetryPolicy;
  estimate_units : option Z;      (* budget_policy *)
  per_run_units : option Z;
  daily_units : option Z }.

Record ScheduleLike := { s_id : string; s_enabled : bool }.

Section store.
Context {ES : Type} {ELI : EventLogI ES} {W : Type} (clock : nat -> Z) (iso_ms : Z -> ustr).

Record Db := {
  runs : list RunRow;
  attempts : list AttemptRow;
  retries : list RetryRow;
  run_budgets : list RunBudgetRow;
  alerts : list AlertRow;
  next_alert : Z;
  outbox : list OutboxRow;
  notices : list NoticeRow;
  schedules : gmap string ScheduleLike;
  versions : gmap string VersionRow;
  ledger : Ledger ES;
  world : W }.

Definition with_runs (x : list RunRow) (db : Db) : Db := {|
  runs := x; attempts := db.(attempts); retries := db.(retries); run_budgets := db.(run_budgets);
  alerts := db.(alerts); next_alert := db.(next_alert); outbox := db.(outbox); notices := db.(notices);
  schedules := db.(schedules); versions := db.(versions); ledger := db.(ledger); world := db.(world) |}.
Definition with_attempts (x : list AttemptRow) (db : Db) : Db := {|
  runs := db.(runs); attempts := x; retries := db.(retries); run_budgets := db.(run_budgets);
  alerts := db.(alerts); next_alert := db.(next_alert); outbox := db.(outbox); notices := db.(notices);
  schedules := db.(schedules); versions := db.(versions); ledger := db.(ledger); world := db.(world) |}.
Definition with_retries (x : list RetryRow) (db : Db) : Db := {|
  runs := db.(runs); attempts := db.(attempts); retries := x; run_budgets := db.(run_budgets);
  alerts := db.(alerts); next_alert := db.(next_alert); outbox := db.(outbox); notices := db.(notices);
  schedules := db.(schedules); versions := db.(versions); ledger := db.(ledger); world := db.(world) |}.
Definition with_budgets (x : list RunBudgetRow) (db : Db) : Db := {|
  runs := db.(runs); attempts := db.(attempts); retries := db.(retries); run_budgets := x;
  alerts := db.(alerts); next_alert := db.(next_alert); outbox := db.(outbox); notices := db.(notices);
  schedules := db.(schedules); versions := db.(versions); ledger := db.(ledger); world := db.(world) |}.
Definition with_alert (a : AlertRow) (o : list OutboxRow) (db : Db) : Db := {|
  runs := db.(runs); attempts := db.(attempts); retries := db.(retries); run_budgets := db.(run_budgets);
  alerts := db.(alerts) ++ [a]; next_alert := db.(next_alert) + 1; outbox := o; notices := db.(notices);
  schedules := db.(schedules); versions := db.(versions); ledger := db.(ledger); world := db.(world) |}.
Definition with_notices (x : list NoticeRow) (db : Db) : Db := {|
  runs := db.(runs); attempts := db.(attempts); retries := db.(retries); run_budgets := db.(run_budgets);
  alerts := db.(alerts); next_alert := db.(next_alert); outbox := db.(outbox); notices := x;
  schedules := db.(schedules); versions := db.(versions); ledger := db.(ledger); world := db.(world) |}.
Definition with_ledger (x : Ledger ES) (db : Db) : Db := {|
  runs := db.(runs); attempts := db.(attempts); retries := db.(retries); run_budgets := db.(run_budgets);
  alerts := db.(alerts); next_alert := db.(next_alert); outbox := db.(outbox); notices := db.(notices);
  schedules := db.(schedules); versions := db.(versions); ledger := x; world := db.(world) |}.
Definition with_world (x : W) (db : Db) : Db := {|
  runs := db.(runs); attempts := db.(attempts); retries := db.(retries); run_budgets := db.(run_budgets);
  alerts := db.(alerts); next_alert := db.(next_alert); outbox := db.(outbox); notices := db.(notices);
  schedules := db.(schedules); versions := db.(versions); ledger := db.(ledger); world := x |}.

Definition in_ledger {A} (m : tx (Ledger ES) A) : tx Db A := zoom ledger with_ledger m.

(** A reading of the injected clock. *)
Definition clock_now : tx Db Z := in_ledger (Budget.clock_now clock).

(** [event_store.append] with IDEMPOTENCY_CONFLICT answered by [None]. *)
Definition append_once (q : AppendRequest) : tx Db (option ustr) := fun db =>
  match el_append q db.(ledger).(store) with
  | Ok (a, s) => Ok (Some a.(a_event_id), with_ledger (with_store s db.(ledger)) db)
  | Err e => if String.eqb e "IDEMPOTENCY_CONFLICT" then Ok (None, db) else Err e
  end.

(** ** [DbRunStore] *)

Definition load_schedule (sid : string) : tx Db ScheduleLike := fun db =>
  match db.(schedules) !! sid with Some s => Ok (s, db) | None => Err "SCHEDULE_NOT_FOUND" end.

Definition load_version (vid : string) : tx Db VersionRow := fun db =>
  match db.(versions) !! vid with Some v => Ok (v, db) | None => Err "SCHEDULE_VERSION_NOT_FOUND" end.

Definition load_run (rid : string) : tx Db RunRow := fun db =>
  match find_run rid db.(runs) with Some r => Ok (r, db) | None => Err "RUN_NOT_FOUND" end.

Definition update_run (rid : string) (cols : list Col) : tx Db RunRow :=
  _ ← modify (fun db => with_runs (update_rows rid cols db.(runs)) db);
  load_run rid.

Definition by_time (a b : RunRow) : bool := a.(scheduled_for) <=? b.(scheduled_for).
Definition by_creation (a b : RunRow) : bool := a.(run_created_at) <=? b.(run_created_at).
Definition by_time_and_id (a b : RunRow) : bool :=
  if a.(scheduled_for) =? b.(scheduled_for) then String.leb a.(run_id) b.(run_id)
  else a.(scheduled_for) <=? b.(scheduled_for).
Definition by_id (a b : RunRow) : bool := String.leb a.(run_id) b.(run_id).

Definition ACTIVE : list RunStatus := [CLAIMED; TASK_CREATED; RUNNING; VERIFYING; CANCEL_REQUESTED].

Definition active_runs (sid exclude : string) : tx Db (list RunRow) := gets (fun db =>
  List.filter (fun r => negb (String.eqb r.(run_id) exclude))
    (py_sorted by_time (List.filter (fun r => String.eqb r.(run_schedule) sid && mem (run_status r) ACTIVE) db.(runs)))).

Definition runs_for_task (task : string) : tx Db (list RunRow) := gets (fun db =>
  py_sorted by_creation (List.filter (fun r => bool_decide (r.(now_).(task_id) = Some task)) db.(runs))).

Definition runs_by_status (ws : string) (statuses : list RunStatus) : tx Db (list RunRow) := gets (fun db =>
  py_sorted by_time_and_id (List.filter (fun r => String.eqb r.(run_workspace) ws && mem (run_status r) statuses) db.(runs))).

Definition run_ids_for_day (sid : string) (day : Z) : tx Db (list string) := gets (fun db =>
  run_id <$> py_sorted by_time (List.filter (fun r => String.eqb r.(run_schedule) sid && in_day day r.(scheduled_for)) db.(runs))).

Definition of_run (rid : string) (a : AttemptRow) : bool := String.eqb a.(t_run) rid.

(** [st.add_attempt]: the number is the highest so far plus one. *)
Definition new_attempt_no (rid : string) (rows : list AttemptRow) : Z :=
  foldr (fun a m => Z.max a.(attempt_no) m) 0 (List.filter (of_run rid) rows) + 1.

Definition insert_attempt (rid : string) (started : Z) (finished : option Z) (result error : option string) : tx Db unit :=
  modify (fun db =>
    let rows := db.(attempts) ++ [{| t_run := rid; attempt_no := new_attempt_no rid db.(attempts);
      t_started_at := Some started; t_finished_at := finished; t_result := result; t_error := error |}] in
    with_runs (update_rows rid [CAttempts (Z.of_nat (length (List.filter (of_run rid) rows)))] db.(runs))
      (with_attempts rows db)).

Definition finish_attempt (rid : string) (n finished : Z) (result : string) (error : option string) : tx Db unit :=
  modify (fun db => with_attempts (map (fun a => if of_run rid a && (a.(attempt_no) =? n)
    then {| t_run := a.(t_run); attempt_no := a.(attempt_no); t_started_at := a.(t_started_at);
            t_finished_at := Some finished; t_result := Some result; t_error := error |}
    else a) db.(attempts)) db).

Definition add_attempt (rid : string) (n : Z) (started finished : option Z) (result error : option string) : tx Db unit :=
  existing ← gets (fun db => existsb (fun a => of_run rid a && (a.(attempt_no) =? n)) db.(attempts));
  if existing : bool then
    match finished, result with
    | None, None => mret tt
    | _, _ => now ← match finished with Some f => mret f | None => clock_now end;
              finish_attempt rid n now (default EmptyString result) error
    end
  else
    at_ ← match started with Some s => mret s | None => clock_now end;
    insert_attempt rid at_ finished result error.

(** ** Claims and leases *)

Definition runner_request (run : RunRow) (event_type actor scope : string) (key : ustr)
    (body : list (ustr * json)) : AppendRequest := {|
  r_workspace_id := lit run.(run_workspace); r_aggregate_type := lit "schedule_run";
  r_aggregate_id := lit run.(run_id); r_type := lit event_type; r_actor_account_id := lit actor;
  r_correlation_id := lit ("scheduler:" +:+ run.(run_id)); r_idempotency_scope := lit scope;
  r_idempotency_key := key; r_payload := body; r_policy_version := lit "policy-v1"; r_channel_id := None;
  r_task_id := None; r_caused_by := None; r_expected_seq := None; r_sensitive := None; r_schema_version := 1 |}.

Definition run_kind_value (k : RunKind) : string :=
  match k with SCHEDULED => "SCHEDULED" | MANUAL => "MANUAL" | RETRY_RUN => "RETRY" end.

Definition due_payload (run : RunRow) : list (ustr * json) := [
  (lit "run_id", JStr (lit run.(run_id))); (lit "schedule_id", JStr (lit run.(run_schedule)));
  (lit "schedule_version_id", JStr (lit run.(run_version)));
  (lit "run_kind", JStr (lit (run_kind_value run.(run_kind)))); (lit "scheduled_for", JStr (iso_ms run.(scheduled_for)))].

(** [int(now.timestamp())], for instants since the epoch. *)
Definition timestamp (now : Z) : ustr := str_int (now / 1000000).

(** A loop over selected rows. *)
Fixpoint for_rows {A} (f : RunRow -> tx Db A) (rows : list RunRow) : tx Db (list A) :=
  match rows with
  | [] => mret []
  | r :: rows => x ← f r; xs ← for_rows f rows; mret (x :: xs)
  end.

(** [ORDER BY scheduled_for, run_id LIMIT :lim FOR UPDATE SKIP LOCKED]: [locked] are
    the Runs other transactions hold. *)
Definition due_rows (locked : list string) (ws : string) (s : RunStatus) (now : Z) (limit : nat) : tx Db (list RunRow) :=
  gets (fun db => take limit (py_sorted by_time_and_id (List.filter (fun r =>
    String.eqb r.(run_workspace) ws && bool_decide (run_status r = s) && (r.(scheduled_for) <=? now) &&
    negb (mem r.(run_id) locked)) db.(runs)))).

Definition mark_one (actor : string) (row : RunRow) : tx Db string :=
  run ← load_run row.(run_id);
  _ ← update_run run.(run_id) [CStatus DUE];
  _ ← append_once (runner_request run "RUN_DUE" actor "schedule_run:due" (lit ("due:" +:+ run.(run_id))) (due_payload run));
  mret run.(run_id).

Definition mark_due (locked : list string) (ws : string) (now : Z) (actor : string) (limit : nat) : tx Db (list string) :=
  rows ← due_rows locked ws PENDING now limit; for_rows (mark_one actor) rows.

Definition claim_one (runner : string) (now lease_s : Z) (actor : string) (row : RunRow) : tx Db (option RunRow) :=
  run ← load_run row.(run_id);
  if negb (bool_decide (run_status run = DUE)) then mret None
  else
    let until := now + seconds lease_s in
    _ ← update_run run.(run_id) [CStatus CLAIMED; CClaimedBy (Some runner); CClaimedAt (Some now);
                                 CLease (Some until); CHeartbeat (Some now)];
    _ ← append_once (runner_request run "RUN_CLAIMED" actor "schedule_run:claim"
          (lit ("claim:" +:+ run.(run_id) +:+ ":" +:+ runner +:+ ":") ++ timestamp now) [
          (lit "run_id", JStr (lit run.(run_id))); (lit "claimed_by", JStr (lit runner));
          (lit "lease_expires_at", JStr (iso_ms until))]);
    fresh ← load_run run.(run_id);
    mret (Some fresh).

Definition claim_due (locked : list string) (runner : string) (now : Z) (ws : string) (lease_s : Z) (limit : nat)
    (actor : string) : tx Db (list RunRow) :=
  _ ← mark_due locked ws now actor 200;
  rows ← due_rows locked ws DUE now limit;
  claimed ← for_rows (claim_one runner now lease_s actor) rows;
  mret (omap id claimed).

(** The UPDATE of [heartbeat] and whether it found its row. *)
Definition beats (rid runner : string) (r : RunRow) : bool :=
  String.eqb r.(run_id) rid && bool_decide (r.(now_).(claimed_by) = Some runner) && mem (run_status r) ACTIVE.

Definition heartbeat (rid runner : string) (now lease_s : Z) : tx Db bool :=
  found ← gets (fun db => existsb (beats rid runner) db.(runs));
  _ ← modify (fun db => with_runs (map (fun r => if beats rid runner r
        then with_cols [CHeartbeat (Some now); CLease (Some (now + seconds lease_s))] r else r) db.(runs)) db);
  mret found.

Definition lease_expired (now : Z) (ws : option string) (r : RunRow) : bool :=
  bool_decide (run_status r = CLAIMED) &&
  match r.(now_).(lease_expires_at) with Some t => t <? now | None => false end &&
  match ws with Some w => String.eqb r.(run_workspace) w | None => true end.

Definition expire_one (now : Z) (actor : string) (row : RunRow) : tx Db unit :=
  run ← load_run row.(run_id);
  _ ← update_run run.(run_id) [CStatus DUE; CClaimedBy None; CClaimedAt None; CLease None];
  _ ← append_once (runner_request run "RUN_DUE" actor "schedule_run:due"
        (lit ("lease-expired:" +:+ run.(run_id) +:+ ":") ++ timestamp now)
        (due_payload run ++ [(lit "reason", JStr (lit "LEASE_EXPIRED"));
          (lit "previous_claimed_by", jopt_str run.(now_).(claimed_by))]));
  mret tt.

Definition expire_leases (locked : list string) (now : Z) (ws : option string) (actor : string) : tx Db nat :=
  rows ← gets (fun db => py_sorted by_id (List.filter (fun r =>
    lease_expired now ws r && negb (mem r.(run_id) locked)) db.(runs)));
  done_ ← for_rows (expire_one now actor) rows;
  mret (length done_).

End store.

Arguments Db : clear implicits.
