(* ===== verification/RunBudget.v ===== *)
(** The budgets of Schedule Runs ([server/schedules/budget.py]): an estimate is
    reserved per Run and per day before the side effect of a Run, and settled from
    the reported usage when the Run ends. *)

From S2P Require Import Prelude Defaults Canonical HashChain EventStore Tx EventLog Usage Budget ScheduleContract RunStore.
Open Scope Z_scope.

Definition DEFAULT_ESTIMATE : Z := 10.

Record ReserveResult := { ok : bool; detail : ustr; reservation_ids : list string }.

(** The columns of type [integer]. *)
Definition int4 (z : Z) : bool := (-2147483648 <=? z) && (z <=? 2147483647).

Definition status_text (s : ReservationStatus) : string :=
  match s with RESERVED => "reserved" | SETTLED => "settled" | RELEASED => "released" | EXCEEDED => "exceeded" end.

(** [run_id or schedule_id] in an f-string. *)
Definition alert_subject (schedule run : option string) : string :=
  match py_or run schedule with Some s => s | None => "None" end.

Section budget.
Context {ES : Type} {ELI : EventLogI ES} {W : Type} (clock : nat -> Z).
Context (workspace actor : string). (* of the context *)

#[local] Notation Db := (RunStore.Db ES W).
#[local] Notation clock_now := (RunStore.clock_now clock).

(** An alert row and, unless its key is taken, a message for the administrators. *)
Definition raise_alert (kind : string) (schedule run : option string) (body : list (ustr * json)) (now : Z)
    : tx Db Z := fun db =>
  let id := db.(next_alert) in
  let key := lit ("schedule-alert:" +:+ kind +:+ ":" +:+ alert_subject schedule run +:+ ":") ++ str_int id in
  let alert := {| al_id := id; al_kind := kind; al_schedule := schedule; al_run := run; al_detail := body; raised_at := now |} in
  let row := {| ob_dedupe_key := key; next_attempt := now; ob_payload := [
    (lit "event_type", JStr (lit "SCHEDULE_ALERT")); (lit "kind", JStr (lit kind)); (lit "schedule_id", jopt_str schedule);
    (lit "run_id", jopt_str run); (lit "detail", JObj body)] |} in
  let queue := if existsb (fun o => bool_decide (o.(ob_dedupe_key) = key)) db.(outbox) then db.(outbox)
               else db.(outbox) ++ [row] in
  Ok (id, with_alert alert queue db).

Definition _alert (run : RunRow) (kind : string) (body : list (ustr * json)) : tx Db Z :=
  now ← clock_now; raise_alert kind (Some run.(run_schedule)) (Some run.(run_id)) body now.

(** [INSERT ... ON CONFLICT (run_id, scope_type) DO NOTHING] *)
Definition same_budget (rid scope_type : string) (b : RunBudgetRow) : bool :=
  String.eqb b.(rb_run) rid && String.eqb b.(rb_scope_type) scope_type.

Definition insert_run_budget (b : RunBudgetRow) : tx Db unit :=
  _ ← guard_tx (negb (int4 b.(rb_limit) && int4 b.(rb_estimate))) "NUMERIC_VALUE_OUT_OF_RANGE";
  modify (fun db => if existsb (same_budget b.(rb_run) b.(rb_scope_type)) db.(run_budgets) then db
                    else with_budgets (db.(run_budgets) ++ [b]) db).

(** The scope of one of the two budgets of a Run. *)
Definition run_scope (run : RunRow) (scope_type : string) : BudgetScope := {|
  Budget.scope_type := scope_type;
  scope_id := if String.eqb scope_type "schedule_run" then run.(run_id) else run.(run_schedule) |}.

Definition run_args (run : RunRow) (scope_type : string) (limit estimate : Z) (ids : list string) (hex : string)
    : ReserveArgs := {|
  a_workspace := workspace; a_actor := actor; a_scope := run_scope run scope_type; a_limit := limit;
  a_estimate := estimate; a_work_item := None; a_correlation := run.(run_id);
  a_key := Some (run.(run_id) +:+ ":budget:" +:+ scope_type); a_run_ids := Some ids; new_hex := hex; key_hex := hex |}.

Definition sum_text (scope_type : string) (o : ReservationOutcome) : ustr :=
  lit (scope_type +:+ ": ") ++ str_int o.(o_used_cost_units) ++ lit "+" ++ str_int o.(o_reserved_cost_units) ++
  lit "+" ++ str_int o.(requested_cost_units) ++ lit " > " ++ str_int o.(limit_cost_units).

(** One turn of the loop: the refusal or the reservation. *)
Definition reserve_scope (run : RunRow) (scope_type : string) (limit estimate : Z) (ids : list string) (hex : string)
    : tx Db (ustr + string) :=
  let scope := run_scope run scope_type in
  over ← in_ledger (overrun clock scope);
  if over : bool then
    _ ← _alert run "budget_exceeded" [(lit "scope", JStr (lit scope_type)); (lit "reason", JStr (lit "overrun_open"))];
    mret (inl (lit (scope_type +:+ " " +:+ scope.(scope_id) +:+ " overran its budget")))
  else
    o ← in_ledger (try_reserve clock (run_args run scope_type limit estimate ids hex));
    match o.(reservation), o.(reserved) with
    | Some r, true =>
        _ ← insert_run_budget {| rb_run := run.(run_id); rb_scope_type := scope_type;
              rb_reservation := r.(b_reservation_id); rb_limit := limit; rb_estimate := estimate;
              rb_status := RESERVED; rb_settled := None; rb_settled_at := None |};
        mret (inr r.(b_reservation_id))
    | _, _ =>
        _ ← _alert run "budget_exceeded" [(lit "scope", JStr (lit scope_type)); (lit "limit", JInt o.(limit_cost_units));
              (lit "requested", JInt o.(requested_cost_units)); (lit "used", JInt o.(o_used_cost_units));
              (lit "reserved", JInt o.(o_reserved_cost_units))];
        mret (inl (sum_text scope_type o))
    end.

Fixpoint reserve_each (run : RunRow) (estimate : Z) (scopes : list (string * option Z * list string * string))
    (got : list string) : tx Db ReserveResult :=
  match scopes with
  | [] => mret {| ok := true; detail := []; reservation_ids := got |}
  | (_, None, _, _) :: rest => reserve_each run estimate rest got
  | (scope_type, Some limit, ids, hex) :: rest =>
      r ← reserve_scope run scope_type limit estimate ids hex;
      match r with
      | inl why => mret {| ok := false; detail := why; reservation_ids := got |}
      | inr rid => reserve_each run estimate rest (got ++ [rid])
      end
  end.

(** The two ids are drawn from [uuid4] for the reservations. *)
Definition reserve_for_run (run : RunRow) (v : VersionRow) (hex_run hex_daily : string) : tx Db ReserveResult :=
  let estimate := default DEFAULT_ESTIMATE v.(estimate_units) in
  match v.(per_run_units), v.(daily_units) with
  | None, None => mret {| ok := true; detail := []; reservation_ids := [] |}
  | _, _ =>
      now ← clock_now;
      ids ← run_ids_for_day run.(run_schedule) (day_number now);
      let ids := if mem run.(run_id) ids then ids else ids ++ [run.(run_id)] in
      reserve_each run estimate [
        ("schedule_run", v.(per_run_units), [run.(run_id)], hex_run);
        ("schedule_daily", v.(daily_units), ids, hex_daily)] []
  end.

Definition is_open (rid : string) (b : RunBudgetRow) : bool :=
  String.eqb b.(rb_run) rid && bool_decide (b.(rb_status) = RESERVED).

Definition _open_reservations (rid : string) : tx Db (list (string * string * Z)) := gets (fun db =>
  map (fun b => (b.(rb_scope_type), b.(rb_reservation), b.(rb_limit))) (List.filter (is_open rid) db.(run_budgets))).

Definition close_budget (rid scope_type : string) (st : ReservationStatus) (actual : option Z) (now : Z) : tx Db unit :=
  modify (fun db => with_budgets (map (fun b => if same_budget rid scope_type b then {|
      rb_run := b.(rb_run); rb_scope_type := b.(rb_scope_type); rb_reservation := b.(rb_reservation);
      rb_limit := b.(rb_limit); rb_estimate := b.(rb_estimate); rb_status := st;
      rb_settled := match actual with Some a => Some a | None => b.(rb_settled) end; rb_settled_at := Some now |}
    else b) db.(run_budgets)) db).

(** [core_budget.release], whether it returned; every exception of it is a
    [CommandError]. *)
Definition try_release (res : string) : tx (Ledger ES) bool := fun l =>
  match release clock res l with Ok (_, l') => Ok (true, l') | Err _ => Ok (false, l) end.

Fixpoint release_each (rid : string) (open : list (string * string * Z)) : tx Db unit :=
  match open with
  | [] => mret tt
  | (scope_type, res, _) :: open =>
      released ← in_ledger (try_release res);
      _ ← (if released : bool then now ← clock_now; close_budget rid scope_type RELEASED None now else mret tt);
      release_each rid open
  end.

Definition release_for_run (run : RunRow) : tx Db unit :=
  open ← _open_reservations run.(run_id); release_each run.(run_id) open.

Definition run_usage (rid : string) : tx Db Z := in_ledger (query_usage {| Budget.scope_type := "schedule_run"; scope_id := rid |} None None).

Fixpoint settle_each (run : RunRow) (actual day : Z) (open : list (string * string * Z))
    : tx Db (list (string * ReservationStatus)) :=
  match open with
  | [] => mret []
  | (scope_type, res, limit) :: open =>
      ids ← (if String.eqb scope_type "schedule_run" then mret [run.(run_id)]
             else run_ids_for_day run.(run_schedule) day);
      st ← in_ledger (settle clock res actual limit (Some ids));
      _ ← guard_tx (negb (int4 actual)) "NUMERIC_VALUE_OUT_OF_RANGE";
      now ← clock_now;
      _ ← close_budget run.(run_id) scope_type st (Some actual) now;
      _ ← (if bool_decide (st = EXCEEDED) then
             _ ← _alert run "budget_exceeded" [(lit "scope", JStr (lit scope_type)); (lit "actual", JInt actual);
                   (lit "limit", JInt limit); (lit "stage", JStr (lit "settlement"))];
             mret tt
           else mret tt);
      rest ← settle_each run actual day open;
      mret ((scope_type, st) :: rest)
  end.

(** The statuses are a dict; the primary key of the table makes its keys distinct. *)
Definition settle_for_run (run : RunRow) : tx Db (list (string * ReservationStatus)) :=
  actual ← run_usage run.(run_id);
  now ← clock_now;
  open ← _open_reservations run.(run_id);
  settle_each run actual (day_number now) open.

End budget.

(** * Theorems *)

Section facts.
Context {ES : Type} {ELI : EventLogI ES} {W : Type} (clock : nat -> Z) (workspace actor : string).
Implicit Types (db : RunStore.Db ES W) (run : RunRow) (l : Ledger ES).

#[local] Notation resv db := db.(ledger).(reservations).

Lemma filter_false_nil {A} (f : A -> bool) (xs : list A) : (forall x, x ∈ xs -> f x = false) -> List.filter f xs = [].
Proof.
  induction xs as [|x xs IH]; intros H; cbn; [done|]. rewrite (H x) by left. apply IH. intros y Hy. apply H. by right.
Qed.

Lemma in_ledger_ok {A} (m : tx (Ledger ES) A) db (a : A) db' :
  in_ledger m db = Ok (a, db') <-> exists l, m db.(ledger) = Ok (a, l) /\ db' = with_ledger l db.
Proof. apply zoom_ok. Qed.

Lemma clock_now_ok db t db' :
  RunStore.clock_now clock db = Ok (t, db') <->
  t = clock db.(ledger).(ticks) /\ db' = with_ledger (with_ticks (S db.(ledger).(ticks)) db.(ledger)) db.
Proof.
  unfold RunStore.clock_now. rewrite in_ledger_ok. unfold Budget.clock_now. split.
  - by intros (l & [= <- <-] & ->).
  - intros [-> ->]. by eexists.
Qed.

(** An alert touches neither the budgets of Runs nor the reservations. *)
Lemma alert_frame run kind body db i db' :
  _alert clock run kind body db = Ok (i, db') ->
  resv db' = resv db /\ run_budgets db' = run_budgets db /\ usage_rows (ledger db') = usage_rows (ledger db) /\
  task_channel (ledger db') = task_channel (ledger db) /\ runs db' = runs db.
Proof.
  unfold _alert. intros (t & db1 & [-> ->]%clock_now_ok & H)%tx_bind_ok.
  unfold raise_alert in H. injection H as <- <-. done.
Qed.

(** ** Settlement *)

Lemma usage_of_run tc rows rid day ids ids' :
  usage_for tc rows "schedule_run" rid day ids = usage_for tc rows "schedule_run" rid None ids'.
Proof. reflexivity. Qed.

(** C35. The settlement of a Run counts the usage of the Run twice. When the only open
    budget of a Run is its per-Run budget and no other open reservation shares its
    scope, then a settlement that returns marks the budget exceeded exactly when twice
    the reported usage is above the limit: a Run that stayed within its limit, but
    used more than half of it, is reported as an overrun. *)
Theorem settlement_counts_usage_twice run db statuses db' b r actual :
  settle_for_run clock run db = Ok (statuses, db') ->
  List.filter (is_open run.(run_id)) db.(run_budgets) = [b] -> b.(rb_scope_type) = "schedule_run" ->
  find_reservation b.(rb_reservation) (resv db) = Some r -> r.(rv_scope) = run_scope run "schedule_run" ->
  Forall (fun x => x.(rv_scope) = r.(rv_scope) -> x.(rv_status) = RESERVED ->
                   x.(reservation_id) = b.(rb_reservation)) (resv db) ->
  usage_for db.(ledger).(task_channel) db.(ledger).(usage_rows) "schedule_run" run.(run_id) None None = Ok actual ->
  statuses = [("schedule_run", if b.(rb_limit) <? 2 * actual then EXCEEDED else SETTLED)].
Proof.
  unfold settle_for_run. intros (a & db1 & (l1 & Hu & ->)%in_ledger_ok & H)%tx_bind_ok Hb Hty Hr Hsc Hothers Hact.
  apply lift_ok in Hu as [Hu <-]. cbn in Hu. rewrite Hact in Hu. injection Hu as <-.
  apply tx_bind_ok in H as (t & db1 & [-> ->]%clock_now_ok & H).
  apply tx_bind_ok in H as (open & db1 & [<- <-]%gets_ok & H).
  change (run_budgets (with_ledger _ (with_ledger _ db))) with (run_budgets db) in H.
  rewrite Hb in H. cbn [map] in H. rewrite Hty in H. cbn [settle_each String.eqb] in H.
  apply tx_bind_ok in H as (ids & db1 & [<- <-]%tx_ret_ok & H).
  apply tx_bind_ok in H as (st & db1 & (l2 & Hs & ->)%in_ledger_ok & H).
  apply settle_ok in Hs as (r' & used & _ & Hr' & _ & Hused & Hst & _). cbn [ledger with_ledger] in *.
  change (reservations (with_ticks _ (ledger db))) with (resv db) in *.
  assert (r' = r) as -> by congruence.
  assert (usage_for (task_channel (ledger db)) (usage_rows (ledger db)) "schedule_run" (run_id run) None
    (Some [run_id run]) = Ok used) as Hused' by (unfold used_at in Hused; rewrite Hsc in Hused; exact Hused).
  rewrite (usage_of_run _ _ _ _ _ None), Hact in Hused'. injection Hused' as <-.
  assert (List.filter (open_in (rv_scope r) (clock (S (ticks (with_ticks (S (ticks (ledger db))) (ledger db)))))
    (Some (rb_reservation b))) (resv db) = []) as Hnone.
  { apply filter_false_nil. intros x Hx. rewrite Forall_forall in Hothers. specialize (Hothers x Hx).
    unfold open_in, _day_window. destruct (decide (rv_scope x = rv_scope r)) as [E|E];
      [|by rewrite (bool_decide_eq_false_2 _ E)].
    destruct (decide (rv_status x = RESERVED)) as [Es|Es]; [|by rewrite (bool_decide_eq_false_2 _ Es), andb_false_r].
    rewrite (Hothers E Es), String.eqb_refl. by rewrite andb_false_r. }
  rewrite Hnone in Hst. cbn in Hst.
  apply tx_bind_ok in H as (? & db1 & _ & H). apply tx_bind_ok in H as (? & db2 & _ & H).
  apply tx_bind_ok in H as (? & db3 & _ & H). apply tx_bind_ok in H as (? & db4 & _ & H).
  apply tx_bind_ok in H as (rest & db5 & [<- <-]%tx_ret_ok & [<- <-]%tx_ret_ok).
  subst st. unfold settlement_status.
  replace (rb_limit b - actual - 0 <? actual) with (rb_limit b <? 2 * actual); [done|].
  destruct (Z.ltb_spec (rb_limit b) (2 * actual)), (Z.ltb_spec (rb_limit b - actual - 0) actual); lia.
Qed.

(** ** Reservations of a Run *)

Lemma with_budgets_frame x db : runs (with_budgets x db) = runs db /\ ledger (with_budgets x db) = ledger db.
Proof. done. Qed.

Lemma find_none_fresh rid rows :
  Forall (fun y => y.(reservation_id) <> rid) rows -> find_reservation rid rows = None.
Proof.
  unfold find_reservation. induction 1 as [|y rows Hy _ IH]; cbn; [done|].
  by destruct (String.eqb_spec (reservation_id y) rid).
Qed.

Lemma find_reservation_new rid rows r :
  Forall (fun y => y.(reservation_id) <> rid) rows -> r.(reservation_id) = rid ->
  find_reservation rid (rows ++ [r]) = Some r.
Proof.
  intros H <-. unfold find_reservation. induction H as [|y rows Hy _ IH]; cbn; [by rewrite String.eqb_refl|].
  by destruct (String.eqb_spec (reservation_id y) (reservation_id r)).
Qed.

(** What a reservation of some scopes of a Run leaves behind: [new] open reservations
    with ids of their own, and rows of the Run that point to them. *)
Record reserves run (scopes : list string) (new : list string) db db' : Prop := {
  re_new rid : rid ∈ new -> find_reservation rid (resv db) = None /\
    exists r, find_reservation rid (resv db') = Some r /\ r.(rv_status) = RESERVED;
  re_old rid r : find_reservation rid (resv db) = Some r -> find_reservation rid (resv db') = Some r;
  re_rows b : b ∈ run_budgets db' -> b ∈ run_budgets db \/ b.(rb_run) = run.(run_id) /\ b.(rb_reservation) ∈ new;
  re_scopes s : s ∈ scopes -> existsb (same_budget run.(run_id) s) (run_budgets db') = true;
  re_known s : existsb (same_budget run.(run_id) s) (run_budgets db) = true ->
               existsb (same_budget run.(run_id) s) (run_budgets db') = true;
  re_again : (forall s, s ∈ scopes -> existsb (same_budget run.(run_id) s) (run_budgets db) = true) ->
             run_budgets db' = run_budgets db }.

Lemma reserves_refl run db : reserves run [] [] db db.
Proof. split; set_solver. Qed.

Lemma reserves_trans run s1 s2 n1 n2 db1 db2 db3 :
  reserves run s1 n1 db1 db2 -> reserves run s2 n2 db2 db3 -> reserves run (s1 ++ s2) (n1 ++ n2) db1 db3.
Proof.
  intros [N1 O1 R1 S1 K1 A1] [N2 O2 R2 S2 K2 A2]. split.
  - intros rid [Hin|Hin]%elem_of_app.
    + destruct (N1 rid Hin) as (Hf & r & Hr & Hop). split; [done|]. exists r. split; [by apply O2|done].
    + destruct (N2 rid Hin) as (Hf & r & Hr & Hop). split; [|by exists r].
      destruct (find_reservation rid (resv db1)) as [r1|] eqn:E; [|done]. apply O1 in E. congruence.
  - intros rid r H. by apply O2, O1.
  - intros b Hb. destruct (R2 b Hb) as [Hb2|[? ?]]; [destruct (R1 b Hb2) as [?|[? ?]]|]; [by left|right|right].
    + split; [done|]. apply elem_of_app. by left.
    + split; [done|]. apply elem_of_app. by right.
  - intros s [Hs|Hs]%elem_of_app; [by apply K2, S1|by apply S2].
  - intros s Hs. by apply K2, K1.
  - intros H. rewrite A2, A1; [done|..]; intros s Hs.
    + apply H, elem_of_app. by left.
    + apply K1, H, elem_of_app. by right.
Qed.

Lemma insert_run_budget_ok b db u db' :
  insert_run_budget b db = Ok (u, db') ->
  db' = if existsb (same_budget b.(rb_run) b.(rb_scope_type)) (run_budgets db) then db
        else with_budgets (run_budgets db ++ [b]) db.
Proof.
  unfold insert_run_budget. intros H. apply tx_bind_ok in H as (? & db1 & [_ <-]%guard_tx_ok & H).
  apply modify_ok in H. by rewrite <- H.
Qed.

Lemma reserve_scope_ok run scope_type limit estimate ids hex db r db' :
  reserve_scope clock workspace actor run scope_type limit estimate ids hex db = Ok (inr r, db') ->
  reserves run [scope_type] [r] db db'.
Proof.
  unfold reserve_scope. intros (over & db1 & (l1 & Ho & ->)%in_ledger_ok & H)%tx_bind_ok.
  unfold overrun in Ho. apply tx_bind_ok in Ho as (t & l2 & [= <- <-] & [= <- <-]).
  destruct (existsb _ _); [by apply tx_bind_ok in H as (? & ? & _ & [? _]%tx_ret_ok)|].
  apply tx_bind_ok in H as (o & db1 & (l1 & Ht & ->)%in_ledger_ok & H).
  apply try_reserve_ok in Ht as (_ & _ & _ & used & _ & Heff).
  destruct Heff as [res es Hx _|res es Hx Hf _]; cbn [reservation reserved refusal success] in H.
  { by apply tx_bind_ok in H as (? & ? & _ & [? _]%tx_ret_ok). }
  apply tx_bind_ok in H as (? & db1 & Hi & [[= <-] <-]%tx_ret_ok).
  apply insert_run_budget_ok in Hi. cbn [rb_run rb_scope_type run_budgets with_ledger] in Hi.
  set (args := run_args workspace actor run scope_type limit estimate ids hex) in *.
  change (Forall (fun y => y.(reservation_id) <> new_reservation_id args) (resv db)) in Hf.
  assert (exists at_, resv db1 = resv db ++ [new_row args at_]) as (at_ & Hresv).
  { subst db1. destruct (existsb _ _); eexists; reflexivity. }
  assert (run_budgets db1 = if existsb (same_budget (run_id run) scope_type) (run_budgets db) then run_budgets db
    else run_budgets db ++ [{| rb_run := run.(run_id); rb_scope_type := scope_type;
              rb_reservation := new_reservation_id args; rb_limit := limit; rb_estimate := estimate;
              rb_status := RESERVED; rb_settled := None; rb_settled_at := None |}]) as Hrows.
  { subst db1. by destruct (existsb _ _). }
  clear Hi. split.
  - intros rid ->%list_elem_of_singleton. split; [by apply find_none_fresh|].
    exists (new_row args at_). rewrite Hresv. split; [by apply find_reservation_new|done].
  - intros rid r Hr. rewrite Hresv. by apply find_reservation_app.
  - intros b. rewrite Hrows. destruct (existsb _ _); [by left|]. intros [Hb| ->%list_elem_of_singleton]%elem_of_app; [by left|].
    right. split; [done|]. by apply list_elem_of_singleton.
  - intros s ->%list_elem_of_singleton. rewrite Hrows. destruct (existsb _ (run_budgets db)) eqn:E; [done|].
    rewrite existsb_app. cbn. unfold same_budget. cbn. by rewrite !String.eqb_refl, orb_true_r.
  - intros s Hs. rewrite Hrows. destruct (existsb (same_budget (run_id run) scope_type) _); [done|].
    by rewrite existsb_app, Hs.
  - intros Hall. rewrite Hrows, (Hall scope_type) by (by apply list_elem_of_singleton). done.
Qed.

(** The scopes that have a limit. *)
Definition limited (scopes : list (string * option Z * list string * string)) : list string :=
  omap (fun x => let '(s, limit, _, _) := x in match limit with Some _ => Some s | None => None end) scopes.

Lemma reserve_each_ok run estimate scopes got db r db' :
  reserve_each clock workspace actor run estimate scopes got db = Ok (r, db') -> r.(ok) = true ->
  exists new, r.(reservation_ids) = got ++ new /\ reserves run (limited scopes) new db db'.
Proof.
  revert got db. induction scopes as [|[[[s limit] ids] hex] scopes IH]; intros got db; cbn [reserve_each limited omap list_omap].
  { intros [<- <-]%tx_ret_ok _. exists []. split; [by rewrite app_nil_r|apply reserves_refl]. }
  destruct limit as [limit|]; [|apply IH].
  intros ([why|rid] & db1 & Hs & H)%tx_bind_ok Hok; [apply tx_ret_ok in H as [<- _]; done|].
  apply reserve_scope_ok in Hs. destruct (IH _ _ H Hok) as (new & Hnew & Hrest).
  exists (rid :: new). split; [by rewrite Hnew, <- app_assoc|]. exact (reserves_trans _ [s] _ [rid] _ _ _ _ Hs Hrest).
Qed.

(** The budgets of a version. *)
Definition budgets_of (v : VersionRow) : list string :=
  match v.(per_run_units) with Some _ => ["schedule_run"] | None => [] end ++
  match v.(daily_units) with Some _ => ["schedule_daily"] | None => [] end.

Lemma reserve_for_run_ok run v h1 h2 db r db' :
  reserve_for_run clock workspace actor run v h1 h2 db = Ok (r, db') -> r.(ok) = true ->
  reserves run (budgets_of v) r.(reservation_ids) db db'.
Proof.
  unfold reserve_for_run, budgets_of. intros H Hok.
  assert (forall estimate ids1 ids2 db0, resv db0 = resv db -> run_budgets db0 = run_budgets db ->
    reserve_each clock workspace actor run estimate [("schedule_run", v.(per_run_units), ids1, h1);
      ("schedule_daily", v.(daily_units), ids2, h2)] [] db0 = Ok (r, db') ->
    reserves run (limited [("schedule_run", v.(per_run_units), ids1, h1); ("schedule_daily", v.(daily_units), ids2, h2)])
      r.(reservation_ids) db db') as Hgo.
  { intros estimate ids1 ids2 db0 Er Eb Hr. destruct (reserve_each_ok _ _ _ _ _ _ _ Hr Hok) as (new & -> & [N O R S K A]).
    rewrite Er, Eb in *. by split. }
  destruct (per_run_units v) as [p|], (daily_units v) as [d|];
    [..|apply tx_ret_ok in H as [<- <-]; apply reserves_refl];
    (apply tx_bind_ok in H as (t & db1 & [-> ->]%clock_now_ok & H);
     apply tx_bind_ok in H as (ids & db1 & [<- <-]%gets_ok & H);
     by apply Hgo in H).
Qed.

(** Releasing one reservation leaves the others. *)
Lemma try_release_other res rid l b l' :
  try_release clock res l = Ok (b, l') -> rid <> res ->
  find_reservation rid l'.(reservations) = find_reservation rid l.(reservations).
Proof.
  unfold try_release. destruct (release clock res l) as [[u l1]|] eqn:E; [|by intros [= _ <-]].
  apply release_ok in E as (r & _ & _ & ->). intros [= _ <-] Hne.
  change (reservations (with_reservations ?x _)) with x.
  destruct (find_reservation rid (reservations l)) as [x|] eqn:Ex.
  - etrans; [by apply (find_map_closed rid res (closed_row RELEASED None (clock (ticks l))) _ x)|].
    by rewrite (proj2 (String.eqb_neq rid res) Hne).
  - unfold find_reservation in *. induction (reservations l) as [|y rows IH]; cbn in *; [done|].
    assert (reservation_id (if String.eqb (reservation_id y) res then closed_row RELEASED None (clock (ticks l)) y else y) =
            reservation_id y) as -> by (destruct (String.eqb (reservation_id y) res); reflexivity).
    destruct (String.eqb (reservation_id y) rid); [done|]. by apply IH.
Qed.

Lemma release_each_other id open rid db u db' :
  release_each clock id open db = Ok (u, db') -> Forall (fun x => rid <> x.1.2) open ->
  find_reservation rid (resv db') = find_reservation rid (resv db).
Proof.
  revert db. induction open as [|[[s res] lim] open IH]; intros db; cbn [release_each].
  { by intros [_ <-]%tx_ret_ok. }
  intros (b & db1 & (l1 & Hr & ->)%in_ledger_ok & H)%tx_bind_ok [Hne Hrest]%Forall_cons.
  apply tx_bind_ok in H as (? & db1 & Hc & H). rewrite (IH _ H Hrest).
  assert (resv db1 = l1.(reservations)) as ->.
  { destruct b; [|by apply tx_ret_ok in Hc as [_ <-]].
    apply tx_bind_ok in Hc as (t & db2 & [-> ->]%clock_now_ok & Hc). apply modify_ok in Hc. by subst db1. }
  by apply (try_release_other res rid _ b).
Qed.

Lemma close_budget_rows rid s st actual now db u db' :
  close_budget rid s st actual now db = Ok (u, db') ->
  map (fun b => (b.(rb_run), b.(rb_reservation))) (run_budgets db') = map (fun b => (b.(rb_run), b.(rb_reservation))) (run_budgets db).
Proof.
  intros <-%modify_ok. cbn. rewrite map_map. apply map_ext. intros b. by destruct (same_budget rid s b).
Qed.

Lemma release_each_rows id open db u db' :
  release_each clock id open db = Ok (u, db') ->
  map (fun b => (b.(rb_run), b.(rb_reservation))) (run_budgets db') = map (fun b => (b.(rb_run), b.(rb_reservation))) (run_budgets db).
Proof.
  revert db. induction open as [|[[s res] lim] open IH]; intros db; cbn [release_each].
  { by intros [_ <-]%tx_ret_ok. }
  intros (b & db1 & (l1 & Hr & ->)%in_ledger_ok & H)%tx_bind_ok.
  apply tx_bind_ok in H as (? & db1 & Hc & H). rewrite (IH _ H).
  destruct b; [|by apply tx_ret_ok in Hc as [_ <-]].
  apply tx_bind_ok in Hc as (t & db2 & [-> ->]%clock_now_ok & Hc). by rewrite (close_budget_rows _ _ _ _ _ _ _ _ Hc).
Qed.

(** A Run that is executed again reserves its budgets again, and the second
    reservations are never given back: the table keeps one reservation per Run and
    budget, so when a Run that had none reserves twice - after a transient failure, or
    while it waits for the Run it replaces - releasing the Run frees the reservations
    of the first execution only. Those of the second stay open, with ids of their own,
    although nothing refers to them any more. *)
Theorem second_reservation_leaks run v h1 h2 h3 h4 db r1 db1 r2 db2 u db3 :
  Forall (fun b => b.(rb_run) <> run.(run_id)) (run_budgets db) ->
  reserve_for_run clock workspace actor run v h1 h2 db = Ok (r1, db1) -> r1.(ok) = true ->
  reserve_for_run clock workspace actor run v h3 h4 db1 = Ok (r2, db2) -> r2.(ok) = true ->
  release_for_run clock run db2 = Ok (u, db3) ->
  Forall (fun rid => rid ∉ r1.(reservation_ids) /\ Forall (fun b => b.(rb_run) = run.(run_id) -> b.(rb_reservation) <> rid) (run_budgets db3) /\
            exists r, find_reservation rid (resv db3) = Some r /\ r.(rv_status) = RESERVED) r2.(reservation_ids).
Proof.
  intros Hfresh H1 Hok1 H2 Hok2 H3.
  apply reserve_for_run_ok in H1 as [N1 O1 R1 S1 K1 A1]; [|done]. apply reserve_for_run_ok in H2 as [N2 O2 R2 S2 K2 A2]; [|done].
  specialize (A2 S1). apply Forall_forall. intros rid Hrid. destruct (N2 rid Hrid) as (Hnone & r & Hr & Hop).
  assert (rid ∉ r1.(reservation_ids)) as Hne.
  { intros Hin. destruct (N1 rid Hin) as (_ & r' & Hr' & _). congruence. }
  assert (forall b, b ∈ run_budgets db2 -> b.(rb_run) = run.(run_id) -> b.(rb_reservation) ∈ r1.(reservation_ids)) as own_rows.
  { intros b Hb Hrun. rewrite A2 in Hb. destruct (R1 b Hb) as [Hold|[_ ?]]; [|done].
    rewrite Forall_forall in Hfresh. by destruct (Hfresh b Hold). }
  split; [done|]. split; [|exists r; split; [|done]].
  - unfold release_for_run in H3. apply tx_bind_ok in H3 as (open & d & [_ <-]%gets_ok & H3).
    apply release_each_rows in H3. apply Forall_forall. intros b Hb Hrun Heq.
    assert ((b.(rb_run), b.(rb_reservation)) ∈ map (fun b => (b.(rb_run), b.(rb_reservation))) (run_budgets db3)) as Hin
      by (apply list_elem_of_fmap; by exists b).
    rewrite H3 in Hin. apply list_elem_of_fmap in Hin as (b' & [= E1 E2] & Hb').
    apply Hne. rewrite <- Heq, E2. apply own_rows; [done|congruence].
  - unfold release_for_run in H3. apply tx_bind_ok in H3 as (open & d & [Ho <-]%gets_ok & H3).
    rewrite (release_each_other _ _ rid _ _ _ H3); [done|]. subst open. apply Forall_map, Forall_forall. cbn.
    intros b [Hb [Hrun%String.eqb_eq _]%andb_true_iff]%list_elem_of_In%filter_In Heq. apply list_elem_of_In in Hb.
    apply Hne. rewrite Heq. by apply own_rows.
Qed.

End facts.

(** * A small schedule *)

Module Sample.

#[local] Existing Instance Budget.Sample.log.

Definition run : RunRow := {|
  run_id := "run-1"; run_workspace := "ws"; run_schedule := "sch-1"; run_version := "v-1"; run_kind := SCHEDULED;
  occurrence_key := Some "k"; scheduled_for := 0; retry_of_run_id := None; run_key := "key"; run_created_at := 0;
  now_ := {| status := CLAIMED; attempt_count := 0; task_id := None; claimed_by := Some "r"; claimed_at := Some 0;
             lease_expires_at := None; heartbeat_at := None; started_at := None; finished_at := None;
             result_event_id := None; run_error := None; cancel_requested_at := None; cancelled_at := None |} |}.

Definition version : VersionRow := {|
  v_id := "v-1"; v_schedule := "sch-1"; v_channel := "ch"; concurrency_policy := FORBID; max_duration_seconds := 3600;
  retry_policy := default_retry_policy; estimate_units := Some 20; per_run_units := Some 100; daily_units := None |}.

Definition start : RunStore.Db (list Event) unit := {|
  runs := [run]; attempts := []; retries := []; run_budgets := []; alerts := []; next_alert := 1; outbox := [];
  notices := []; schedules := ∅; versions := {["v-1" := version]}; ledger := Budget.Sample.start; world := tt |}.

Definition settled {A} (r : res (A * RunStore.Db (list Event) unit)) : RunStore.Db (list Event) unit :=
  match r with Ok (_, db) => db | Err _ => start end.

Definition reserve (h : string) (db : RunStore.Db (list Event) unit) :=
  reserve_for_run Budget.Sample.clock "ws" "acct" run version h h db.

Definition used_60 : UsageRecord := {|
  u_agent := None; u_account := "acct"; u_task := None; u_run := Some "run-1"; u_work_item := None; u_model := None;
  u_input_tokens := 0; u_output_tokens := 0; u_tool_calls := 0; wall_ms := 0; cost_units := 60; source := "reported";
  unavailable_reason := None; u_pricing_version := "1"; reported_at := 0 |}.

(** The Run reserved 20 of its 100 units and reported 60. *)
Definition reported : RunStore.Db (list Event) unit := Eval vm_compute in
  let db := settled (reserve "a" start) in with_ledger (with_usage [used_60] db.(ledger)) db.

Definition got (rid : string) : ReserveResult := {| ok := true; detail := []; reservation_ids := [rid] |}.

Definition first_try := Eval vm_compute in settled (reserve "a" start).
Definition second_try := Eval vm_compute in settled (reserve "b" first_try).
Definition freed := Eval vm_compute in settled (release_for_run Budget.Sample.clock run second_try).

Lemma first_ok : reserve "a" start = Ok (got "bres-a", first_try).
Proof. vm_compute. reflexivity. Qed.
Lemma second_ok : reserve "b" first_try = Ok (got "bres-b", second_try).
Proof. vm_compute. reflexivity. Qed.
Lemma freed_ok : release_for_run Budget.Sample.clock run second_try = Ok (tt, freed).
Proof. vm_compute. reflexivity. Qed.

End Sample.

Lemma settlement_counts_usage_twice_witness :
  exists db', settle_for_run Budget.Sample.clock Sample.run Sample.reported = Ok ([("schedule_run", EXCEEDED)], db').
Proof.
  destruct (settle_for_run Budget.Sample.clock Sample.run Sample.reported) as [[statuses db']|] eqn:E; [|by vm_compute in E].
  exists db'. destruct (Sample.reported.(run_budgets)) as [|b [|]] eqn:Eb; [by vm_compute in Eb| |by vm_compute in Eb].
  destruct (find_reservation b.(rb_reservation) Sample.reported.(ledger).(reservations)) as [r|] eqn:Er;
    [|vm_compute in Eb; injection Eb as <-; by vm_compute in Er].
  rewrite (settlement_counts_usage_twice Budget.Sample.clock Sample.run Sample.reported statuses db' b r 60 E).
  all: vm_compute in Eb; injection Eb as <-.
  all: vm_compute in Er; injection Er as <-.
  all: try (vm_compute; reflexivity).
  vm_compute. by repeat constructor.
Defined.

Lemma second_reservation_leaks_witness :
  exists r, find_reservation "bres-b" Sample.freed.(ledger).(reservations) = Some r /\ r.(rv_status) = RESERVED.
Proof.
  pose proof (second_reservation_leaks Budget.Sample.clock "ws" "acct" Sample.run Sample.version "a" "a" "b" "b"
    Sample.start (Sample.got "bres-a") Sample.first_try (Sample.got "bres-b") Sample.second_try tt Sample.freed
    (Forall_nil_2 _) Sample.first_ok eq_refl Sample.second_ok eq_refl Sample.freed_ok) as H.
  apply Forall_cons in H as [(_ & _ & Hr) _].
  replace "bres-b" with ("bres-" +:+ "b") by reflexivity. exact Hr.
Defined.
