(* ===== verification/Execution.v ===== *)
(** The execution of Schedule Runs ([server/schedules/execution.py]): what a claimed
    Run goes through in one transaction, and how Runs are cancelled and closed. The
    re-check of the authority ([policy_check.check]), the commands that create and
    cancel the Task, the revocation of its leases and the posting of a notice are
    arguments: they change the rest of the database ([world]) and append Events, and
    what they did when they fail stays, since the Run is closed in the same
    transaction. *)

From S2P Require Import Prelude Defaults Canonical HashChain EventStore Tx EventLog Usage Budget ScheduleContract RunStore RunBudget.
From Stdlib Require Import QArith.
Open Scope Z_scope.

Definition TRANSIENT_CODES : list string := ["TRANSIENT"; "TIMEOUT_TRANSIENT"; "PROVIDER_UNAVAILABLE"].
Definition TASK_SUCCESS_STATES : list string := ["COMPLETED"; "VERIFIED"].

(** Why the Task of a Run was not created. *)
Inductive Failure :=
| TransientExecutionError (code : string) (detail : ustr)
| CommandError (code : string) (detail : ustr)
| SecretOrApprovalError (code : string) (detail : ustr).

Record RunOutcome := {
  oc_run : string; oc_status : RunStatus; oc_error : option string; oc_task : option string; oc_attempt : Z;
  oc_event : option ustr; deferred : bool; retry_at : option Z; oc_detail : ustr }.

Section execution.
Context {ES : Type} {ELI : EventLogI ES} {W : Type} (clock : nat -> Z).
Context (workspace actor : string). (* of the context: the workspace and the account of the scheduler *)

(** The result of [policy_check.check]: a skip code with its detail, or what the
    creation of the Task needs. *)
Context {Checked : Type}.
Context (check : RunRow -> ScheduleLike -> VersionRow -> tx (W * ES) (string * ustr + Checked)).
Context (create_task : RunRow -> ScheduleLike -> VersionRow -> Checked -> tx (W * ES) (string + Failure)).
(** [bus.execute(CancelTask(...))] with its [CommandError] swallowed. *)
Context (cancel_task : RunRow -> tx (W * ES) unit).
(** [revoke_for_task] with every exception swallowed. *)
Context (revoke_leases : RunRow -> W * ES -> W * ES).
(** The delivery of a notice to the channel of the version, if it has one. *)
Context (post : string -> RunRow -> VersionRow -> list (string * ustr) -> tx W (option string)).
(** [lo + (hi - lo) * rng.random()] in microseconds. *)
Context (draw : Q -> Q -> Z).

#[local] Notation Db := (RunStore.Db ES W).
#[local] Notation clock_now := (RunStore.clock_now clock).

Definition outside (db : Db) : W * ES := (db.(world), db.(ledger).(store)).
Definition with_outside (x : W * ES) (db : Db) : Db :=
  with_world x.1 (with_ledger (Budget.with_store x.2 db.(ledger)) db).

(** ** Notices ([server/schedules/notify.py]) *)

(** [_record]: one notice per Run and kind. *)
Definition _record (run : RunRow) (kind : string) (outbox_id : option string) (channel : string) : tx Db unit :=
  now ← clock_now;
  modify (fun db => if existsb (fun n => String.eqb n.(no_run) run.(run_id) && String.eqb n.(no_kind) kind) db.(notices)
    then db
    else with_notices (db.(notices) ++ [{| no_run := run.(run_id); no_kind := kind; no_outbox := outbox_id;
                                            no_channel := channel; no_at := now |}]) db).

Definition _post (run : RunRow) (v : VersionRow) (kind : string) (fields : list (string * ustr)) : tx Db unit :=
  outbox_id ← zoom world with_world (post kind run v fields);
  _record run kind outbox_id v.(v_channel).

(** ** Events and transitions *)

Definition run_request (run : RunRow) (event_type op : string) (suffix : option Z) (body : list (ustr * json))
    : AppendRequest := {|
  r_workspace_id := lit workspace; r_aggregate_type := lit "schedule_run"; r_aggregate_id := lit run.(run_id);
  r_type := lit event_type; r_actor_account_id := lit actor; r_correlation_id := lit run.(run_id);
  r_idempotency_scope := lit ("schedule_run:" +:+ op);
  r_idempotency_key := lit (run.(run_id) +:+ ":" +:+ op) ++ match suffix with Some n => lit ":" ++ str_int n | None => [] end;
  r_payload := (lit "run_id", JStr (lit run.(run_id))) :: (lit "schedule_id", JStr (lit run.(run_schedule))) :: body;
  r_policy_version := lit "policy-v1"; r_channel_id := None; r_task_id := lit <$> run.(now_).(task_id);
  r_caused_by := None; r_expected_seq := None; r_sensitive := None; r_schema_version := 1 |}.

Definition append_run_event (run : RunRow) (event_type : string) (body : list (ustr * json)) (op : string)
    (suffix : option Z) : tx Db (option ustr) :=
  append_once (run_request run event_type op suffix body).

Definition _set (run : RunRow) (target : RunStatus) (cols : list Col) : tx Db RunRow :=
  _ ← lift (run_transition (run_status run) target);
  update_run run.(run_id) (CStatus target :: cols).

(** [if event_id: run = update_run(result_event_id=event_id)] *)
Definition with_result (run : RunRow) (event : option ustr) : tx Db RunRow :=
  match event with
  | Some e => if bool_decide (e = []) then mret run else update_run run.(run_id) [CResult (Some e)]
  | None => mret run
  end.

(** ** Retries *)

Definition schedule_retry (rid : string) (next : Z) (at_ : Z) (code : string) (now : Z) : tx Db unit :=
  modify (fun db =>
    if existsb (fun y => String.eqb y.(y_run) rid) db.(retries) then
      with_retries (map (fun y => if String.eqb y.(y_run) rid
        then {| y_run := rid; next_attempt_no := next; next_attempt_at := at_; y_error := code; y_created_at := y.(y_created_at) |}
        else y) db.(retries)) db
    else with_retries (db.(retries) ++ [{| y_run := rid; next_attempt_no := next; next_attempt_at := at_;
                                            y_error := code; y_created_at := now |}]) db).

Definition clear_retry (rid : string) : tx Db unit :=
  modify (fun db => with_retries (List.filter (fun y => negb (String.eqb y.(y_run) rid)) db.(retries)) db).

(** [ORDER BY next_attempt_at LIMIT :lim FOR UPDATE SKIP LOCKED] *)
Definition due_retries (locked : list string) (now : Z) (limit : nat) : tx Db (list string) := gets (fun db =>
  take limit (y_run <$> py_sorted (fun a b => a.(next_attempt_at) <=? b.(next_attempt_at))
    (List.filter (fun y => (y.(next_attempt_at) <=? now) && negb (mem y.(y_run) locked)) db.(retries)))).

(** ** Outcomes *)

Definition jattempt (n : Z) : ustr * json := (lit "attempt_no", JInt n).
Definition jcode (c : string) : ustr * json := (lit "error_code", JStr (lit c)).

Definition _skip (run : RunRow) (v : VersionRow) (code : string) (detail : ustr) : tx Db RunOutcome :=
  now ← clock_now;
  skipped ← _set run SKIPPED [CError (Some code); CFinished (Some now)];
  event ← append_run_event skipped "RUN_SKIPPED" [jcode code; (lit "detail", JStr (take 200 detail))] "skipped" None;
  skipped ← with_result skipped event;
  _ ← _post skipped v "skip" [("error_code", lit code); ("detail", take 120 detail)];
  mret {| oc_run := run.(run_id); oc_status := SKIPPED; oc_error := Some code; oc_task := None;
          oc_attempt := run.(now_).(attempt_count); oc_event := event; deferred := false; retry_at := None;
          oc_detail := detail |}.

(** The end of a failed attempt, in [_fail] and in [_transient]. *)
Definition close_failed (run : RunRow) (v : VersionRow) (n : Z) (code : string) (detail : ustr) (now : Z)
    : tx Db (option ustr) :=
  failed ← _set run FAILED [CError (Some code); CFinished (Some now); CAttempts n];
  event ← append_run_event failed "RUN_FAILED" [jattempt n; jcode code] "failed" (Some n);
  failed ← with_result failed event;
  _ ← release_for_run clock failed;
  _ ← clear_retry run.(run_id);
  _ ← _post failed v "failure" [("error_code", lit code); ("detail", take 120 detail)];
  mret event.

Definition started_or (run : RunRow) (now : Z) : option Z :=
  Some (default now run.(now_).(started_at)).

Definition _fail (run : RunRow) (v : VersionRow) (n : Z) (code : string) (detail : ustr) : tx Db RunOutcome :=
  now ← clock_now;
  _ ← add_attempt clock run.(run_id) n (started_or run now) (Some now) (Some "FAILED") (Some code);
  event ← close_failed run v n code detail now;
  mret {| oc_run := run.(run_id); oc_status := FAILED; oc_error := Some code; oc_task := None; oc_attempt := n;
          oc_event := event; deferred := false; retry_at := None; oc_detail := detail |}.

Definition _transient (run : RunRow) (v : VersionRow) (n : Z) (code : string) (detail : ustr) : tx Db RunOutcome :=
  policy ← lift (checked v.(retry_policy));
  let normalized := if mem code policy.(transient_error_codes) then code else "TRANSIENT" in
  outcome ← lift (decide_retry policy n normalized);
  now ← clock_now;
  _ ← add_attempt clock run.(run_id) n (started_or run now) (Some now) (Some "FAILED") (Some code);
  match outcome.(rt_decision), outcome.(ScheduleContract.next_attempt_no) with
  | RETRY, Some next =>
      let until := now + draw (default 0%Q outcome.(delay_min_s)) (default 0%Q outcome.(delay_max_s)) in
      _ ← update_run run.(run_id) [CAttempts n; CError (Some code); CLease (Some (until + seconds SCHEDULER_CLAIM_LEASE_S))];
      _ ← schedule_retry run.(run_id) next until code now;
      mret {| oc_run := run.(run_id); oc_status := run_status run; oc_error := Some code; oc_task := None;
              oc_attempt := n; oc_event := None; deferred := false; retry_at := Some until; oc_detail := detail |}
  | decision, _ =>
      let failed_code := if bool_decide (decision = FAIL_EXHAUSTED) then "RETRY_EXHAUSTED" else code in
      event ← close_failed run v n failed_code detail now;
      mret {| oc_run := run.(run_id); oc_status := FAILED; oc_error := Some failed_code; oc_task := None;
              oc_attempt := n; oc_event := event; deferred := false; retry_at := None; oc_detail := [] |}
  end.

(** ** Cancellation *)

Definition request_cancel (run : RunRow) (reason : string) : tx Db RunRow :=
  target ← lift (cancel_run (run_status run));
  now ← clock_now;
  if bool_decide (target = CANCELLED) then
    cancelled ← _set run CANCELLED [CCancelled (Some now); CFinished (Some now); CError (Some reason)];
    event ← append_run_event cancelled "RUN_CANCELLED" [(lit "reason_code", JStr (lit reason))] "cancelled" None;
    cancelled ← with_result cancelled event;
    _ ← release_for_run clock cancelled;
    _ ← clear_retry run.(run_id);
    mret cancelled
  else
    requested ← _set run CANCEL_REQUESTED [CCancelRequested (Some now); CError (Some reason)];
    _ ← append_run_event requested "RUN_CANCEL_REQUESTED" [(lit "reason_code", JStr (lit reason))] "cancel_requested" None;
    _ ← (if truthy run.(now_).(task_id) then zoom outside with_outside (cancel_task run) else mret tt);
    mret requested.

Definition cleanup (run : RunRow) : tx Db unit :=
  _ ← (if truthy run.(now_).(task_id)
       then modify (fun db => with_outside (revoke_leases run (outside db)) db) else mret tt);
  _ ← settle_for_run clock run;
  clear_retry run.(run_id).

Definition finish_cancel (run : RunRow) (timed_out : bool) (reason : string) : tx Db RunRow :=
  now ← clock_now;
  v ← load_version run.(run_version);
  finished_event ← (if timed_out then
      finished ← _set run TIMED_OUT [CFinished (Some now); CError (Some reason)];
      event ← append_run_event finished "RUN_TIMED_OUT"
        [jattempt (Z.max run.(now_).(attempt_count) 1); (lit "reason_code", JStr (lit reason))] "timed_out" None;
      mret (finished, event)
    else
      finished ← _set run CANCELLED [CCancelled (Some now); CFinished (Some now)];
      event ← append_run_event finished "RUN_CANCELLED" [(lit "reason_code", JStr (lit reason))] "cancelled" None;
      mret (finished, event));
  finished ← with_result finished_event.1 finished_event.2;
  _ ← cleanup finished;
  _ ← _post finished v "failure" [("error_code", lit (default reason (py_or finished.(now_).(run_error) None)));
                                  ("detail", lit reason)];
  mret finished.

(** ** Execution of a claimed Run *)

(** What [_concurrency] knows about the Run it replaces. *)
Definition replace_confirmed (previous : RunRow) (now : Z) : option bool :=
  let s := previous.(now_) in
  let asked := default now s.(cancel_requested_at) in
  if bool_decide (s.(cancelled_at) <> None) || mem s.(status) [CANCELLED; TIMED_OUT] then
    Some (replace_cancel_confirmed asked (match s.(cancelled_at) with Some t => Some t | None => s.(finished_at) end))
  else if seconds SCHEDULE_REPLACE_CANCEL_TIMEOUT_S <? now - asked then Some false
  else None.

Definition skip_for (run : RunRow) (v : VersionRow) (o : ConcurrencyOutcome) (detail : string) : tx Db RunOutcome :=
  _ ← release_for_run clock run;
  _skip run v (default EmptyString o.(error_code)) (lit detail).

Definition _concurrency (run : RunRow) (v : VersionRow) (now : Z) : tx Db (option RunOutcome) :=
  active ← active_runs run.(run_schedule) run.(run_id);
  match active with
  | [] => mret None
  | first :: _ =>
      if bool_decide (v.(concurrency_policy) = REPLACE) then
        previous ← (if bool_decide (first.(now_).(cancel_requested_at) = None)
                    then request_cancel first "REPLACED_BY_NEW_RUN" else mret first);
        let outcome := decide_concurrency REPLACE true (replace_confirmed previous now) in
        match outcome.(co_decision) with
        | REPLACE_CANCEL_EXISTING =>
            _ ← update_run run.(run_id) [CLease (Some (now + seconds SCHEDULER_CLAIM_LEASE_S))];
            mret (Some {| oc_run := run.(run_id); oc_status := run_status run; oc_error := None; oc_task := None;
                          oc_attempt := 0; oc_event := None; deferred := true; retry_at := None;
                          oc_detail := lit "REPLACE_WAIT" |})
        | SKIP_RUN => o ← skip_for run v outcome "replace cancel timeout"; mret (Some o)
        | START => mret None
        end
      else
        let outcome := decide_concurrency v.(concurrency_policy) true None in
        match outcome.(co_decision) with
        | SKIP_RUN => o ← skip_for run v outcome "previous Run active"; mret (Some o)
        | _ => mret None
        end
  end.

(** The notice and the alert of a Run that starts late. *)
Definition start_delay (run started : RunRow) (v : VersionRow) (now : Z) : tx Db unit :=
  let delay := now - run.(scheduled_for) in
  if bool_decide (run.(run_kind) = SCHEDULED) && (seconds SCHEDULE_START_DELAY_P95_S <? delay) then
    let delay_s := delay / 1000000 in
    _ ← _post started v "late" [("delay_s", str_int delay_s)];
    _ ← raise_alert "start_delay" (Some run.(run_schedule)) (Some run.(run_id))
          [(lit "delay_s", JInt delay_s); (lit "target_s", JInt SCHEDULE_START_DELAY_P95_S)] now;
    mret tt
  else mret tt.

Definition start_task (run : RunRow) (s : ScheduleLike) (v : VersionRow) (checked : Checked) (now : Z) : tx Db RunOutcome :=
  let n := run.(now_).(attempt_count) + 1 in
  _ ← add_attempt clock run.(run_id) n (Some now) None None None;
  created ← zoom outside with_outside (create_task run s v checked);
  match created with
  | inr (TransientExecutionError code detail) => _transient run v n code detail
  | inr (CommandError code detail) =>
      if mem code TRANSIENT_CODES then _transient run v n code detail else _fail run v n code detail
  | inr (SecretOrApprovalError code detail) => _fail run v n code detail
  | inl task =>
      started ← _set run TASK_CREATED [CTask (Some task); CStarted (Some now); CAttempts n; CError None];
      event ← append_run_event started "RUN_STARTED" [jattempt n; (lit "task_id", JStr (lit task));
                (lit "run_kind", JStr (lit (run_kind_value run.(run_kind))))] "started" (Some n);
      _ ← _post started v "start" [];
      _ ← start_delay run started v now;
      mret {| oc_run := run.(run_id); oc_status := run_status started; oc_error := None; oc_task := Some task;
              oc_attempt := n; oc_event := event; deferred := false; retry_at := None; oc_detail := [] |}
  end.

(** [h1], [h2]: the random ids of its reservations. *)
Definition execute (h1 h2 : string) (run : RunRow) : tx Db RunOutcome :=
  _ ← guard_tx (bool_decide (run_status run <> CLAIMED)) "RUN_STATUS_INVALID";
  now ← clock_now;
  s ← load_schedule run.(run_schedule);
  v ← load_version run.(run_version);
  c ← zoom outside with_outside (check run s v);
  match c with
  | inl (code, detail) => _skip run v code detail
  | inr checked =>
      reserved ← reserve_for_run clock workspace actor run v h1 h2;
      if negb reserved.(ok) then _skip run v "BUDGET_EXCEEDED" reserved.(detail)
      else
        waiting ← _concurrency run v now;
        match waiting with Some o => mret o | None => start_task run s v checked now end
  end.

(** ** The end of the Task of a Run *)

(** The status word of [TASK_<status>]. *)
Definition close_one (task task_status : string) (run : RunRow) : tx Db (option RunRow) :=
  if negb (mem (run_status run) RUN_RUNNING) then mret None
  else
    v ← load_version run.(run_version);
    now ← clock_now;
    let n := Z.max run.(now_).(attempt_count) 1 in
    if bool_decide (run_status run = CANCEL_REQUESTED) then
      closed ← finish_cancel run false "CANCELLED"; mret (Some closed)
    else
      run ← (if bool_decide (run_status run = TASK_CREATED) then _set run RUNNING [] else mret run);
      let good := mem task_status TASK_SUCCESS_STATES in
      let code := "TASK_" +:+ task_status in
      done_ ← _set run (if good then SUCCEEDED else FAILED)
                [CFinished (Some now); CError (if good then None else Some code)];
      event ← (if good then append_run_event done_ "RUN_SUCCEEDED" [jattempt n; (lit "task_id", JStr (lit task))] "succeeded" (Some n)
               else append_run_event done_ "RUN_FAILED" [jattempt n; jcode code; (lit "task_id", JStr (lit task))] "failed" (Some n));
      done_ ← with_result done_ event;
      _ ← add_attempt clock run.(run_id) n (started_or run now) (Some now) (Some (if good then "SUCCEEDED" else "FAILED"))
            (if good then None else Some code);
      _ ← cleanup done_;
      _ ← (if good then _post done_ v "result" []
           else _post done_ v "failure" [("error_code", lit code); ("detail", lit task_status)]);
      mret (Some done_).

Definition on_task_terminal (task task_status : string) : tx Db (list RunRow) :=
  rows ← runs_for_task task;
  closed ← for_rows (close_one task task_status) rows;
  mret (omap id closed).

(** [recovery.handle_timeouts] *)
Definition time_out_one (now : Z) (run : RunRow) : tx Db (option string) :=
  v ← load_version run.(run_version);
  let started := default run.(scheduled_for) run.(now_).(started_at) in
  if now - started <=? seconds v.(max_duration_seconds) then mret None
  else
    _ ← request_cancel run "MAX_DURATION_EXCEEDED";
    _ ← raise_alert "timeout" (Some run.(run_schedule)) (Some run.(run_id))
          [(lit "max_duration_seconds", JInt v.(max_duration_seconds))] now;
    mret (Some run.(run_id)).

Definition handle_timeouts : tx Db (list string) :=
  now ← clock_now;
  rows ← runs_by_status workspace [TASK_CREATED; RUNNING; VERIFYING];
  asked ← for_rows (time_out_one now) rows;
  mret (omap id asked).

End execution.
