(* ===== verification/RunLifecycle.v ===== *)
(** Runs under the scheduler: whatever sequence of claims, leases, executions,
    cancellations and ends of Tasks ([RunStore.v], [Execution.v]), each row of
    [schedule_runs] only moves along the transitions of the contract and is frozen
    once it ended; with the one exception of a tick that executes a Run which an earlier
    execution of the same tick asked to cancel. *)

From S2P Require Import Prelude Defaults Canonical HashChain EventStore Tx EventLog Usage Budget ScheduleContract RunStore RunBudget Execution.
From Stdlib Require Import QArith.
Open Scope Z_scope.

(** ** Updates of one row *)

Definition status_path (cols : list Col) : list RunStatus :=
  omap (fun c => match c with CStatus s => Some s | _ => None end) cols.

(** The statuses the columns write, in order, are legal from [s]. *)
Definition legal_from (s : RunStatus) (cols : list Col) : Prop := is_Some (run_steps step s (status_path cols)).

(** How the status [s] of a row and the status [s'] its reader knows may differ, and the
    moves of the row that a reader who follows the contract then makes. *)
Class Reading (st : RunStatus -> RunStatus -> option RunStatus) (agrees : RunStatus -> RunStatus -> Prop) := {
  agrees_refl s : agrees s s;
  agrees_step s s' t : agrees s s' -> step s' t = Some t -> st s t = Some t;
  agrees_open s s' : agrees s s' -> s ∈ RUN_TERMINAL <-> s' ∈ RUN_TERMINAL;
  agrees_exact s s' : agrees s s' -> s' <> CLAIMED -> s = s';
  st_target s t u : st s t = Some u -> u = t }.

(** The reader knows the row. *)
#[export] Instance fresh_reading : Reading step eq.
Proof.
  split; [done|by intros s s' t <-|by intros s s' <-|done|]. intros s t u H. by apply step_spec in H as [-> _].
Qed.

(** The reader has a claimed Run in hand that was asked to cancel since. *)
Definition overtaken (s s' : RunStatus) : Prop := s = s' \/ s = CANCEL_REQUESTED /\ s' = CLAIMED.

(** The contract, and the moves of a claimed Run from [CANCEL_REQUESTED] too. *)
Definition late_step (s t : RunStatus) : option RunStatus :=
  if bool_decide (s = CANCEL_REQUESTED) && mem t (RUN_TRANSITIONS CLAIMED) then Some t else step s t.

Lemma step_late s t u : step s t = Some u -> late_step s t = Some u.
Proof. unfold late_step. intros H. pose proof H as [-> _]%step_spec. by destruct (_ && _). Qed.

#[export] Instance late_reading : Reading late_step overtaken.
Proof.
  split.
  - by left.
  - intros s s' t [<-|[-> ->]] H; [by apply step_late|]. apply step_spec in H as [_ Ht%mem_spec].
    unfold late_step. by rewrite Ht.
  - intros s s' [<-|[-> ->]]; [done|]. split; intros H; exfalso; revert H; by apply (bool_decide_unpack _).
  - by intros s s' [<-|[_ ->]].
  - intros s t u. unfold late_step. destruct (_ && _); [by intros [= <-]|]. by intros [-> _]%step_spec.
Qed.

Definition with_now (s : RunState) (r : RunRow) : RunRow := {|
  run_id := r.(run_id); run_workspace := r.(run_workspace); run_schedule := r.(run_schedule);
  run_version := r.(run_version); run_kind := r.(run_kind); occurrence_key := r.(occurrence_key);
  scheduled_for := r.(scheduled_for); retry_of_run_id := r.(retry_of_run_id); run_key := r.(run_key);
  run_created_at := r.(run_created_at); now_ := s |}.

Section rows.
Context {st : RunStatus -> RunStatus -> option RunStatus} {agrees : RunStatus -> RunStatus -> Prop} {RD : Reading st agrees}.

(** A row stays as it is, or it had not ended and moved along the transitions of [st]; its
    identity and its pinned version never change. *)
Definition row_step (r r' : RunRow) : Prop :=
  r' = r \/ run_status r ∉ RUN_TERMINAL /\ exists s path, r' = with_now s r /\
            run_steps st (run_status r) path = Some s.(status).

Definition table_step (rows rows' : list RunRow) : Prop :=
  forall i r, rows !! i = Some r -> exists r', rows' !! i = Some r' /\ row_step r r'.

Lemma row_step_trans r1 r2 r3 : row_step r1 r2 -> row_step r2 r3 -> row_step r1 r3.
Proof.
  intros [->|(H1 & s1 & p1 & -> & E1)]; [done|]. intros [->|(H2 & s2 & p2 & -> & E2)]; right.
  - split; [done|]. by exists s1, p1.
  - split; [done|]. exists s2, (p1 ++ p2). split; [done|]. by rewrite run_steps_app, E1.
Qed.

Lemma row_step_id r r' : row_step r r' -> r'.(run_id) = r.(run_id).
Proof. by intros [->|(_ & s & p & -> & _)]. Qed.

Lemma table_step_refl rows : table_step rows rows.
Proof. intros i r Hr. exists r. split; [done|by left]. Qed.

Lemma table_step_trans rows1 rows2 rows3 :
  table_step rows1 rows2 -> table_step rows2 rows3 -> table_step rows1 rows3.
Proof.
  intros H1 H2 i r Hr. destruct (H1 i r Hr) as (r2 & Hr2 & S1). destruct (H2 i r2 Hr2) as (r3 & Hr3 & S2).
  exists r3. split; [done|by eapply row_step_trans].
Qed.

Lemma status_path_app c1 c2 : status_path (c1 ++ c2) = status_path c1 ++ status_path c2.
Proof. apply omap_app. Qed.

Lemma with_cols_app c1 c2 r : with_cols (c1 ++ c2) r = with_cols c2 (with_cols c1 r).
Proof. unfold with_cols. cbn. by rewrite foldl_app. Qed.

Lemma cols_status s cols t :
  run_steps st s.(status) (status_path cols) = Some t -> (foldl set_col s cols).(status) = t.
Proof.
  revert s. induction cols as [|c cols IH]; intros s; [by intros [= <-]|]. cbn [foldl].
  destruct c as [x|x|x|x|x|x|x|x|x|x|x|x|x];
    [|match goal with |- _ -> status (foldl set_col (set_col s ?c) _) = _ => exact (IH (set_col s c)) end..].
  cbn. intros (s1 & ->%st_target & H)%bind_Some. by apply (IH (set_col s (CStatus x))).
Qed.

Lemma with_cols_step cols r :
  run_status r ∉ RUN_TERMINAL -> is_Some (run_steps st (run_status r) (status_path cols)) -> row_step r (with_cols cols r).
Proof.
  intros Hr [t Ht]. right. split; [done|]. exists (foldl set_col r.(now_) cols), (status_path cols).
  split; [done|]. unfold run_status in *. rewrite Ht. f_equal. symmetry. by apply cols_status.
Qed.

(** A path of the contract from what the reader knows is a path of the row. *)
Lemma agrees_path s s' path t' :
  agrees s s' -> run_steps step s' path = Some t' -> run_steps st s path = Some (if path is [] then s else t').
Proof.
  revert s s'. induction path as [|t path IH]; intros s s' Ha; cbn; [done|].
  intros (u & Hu & H)%bind_Some. pose proof Hu as [-> _]%step_spec. rewrite (agrees_step _ _ _ Ha Hu). cbn.
  rewrite (IH _ _ (agrees_refl t) H). destruct path; [|done]. by injection H as <-.
Qed.

Lemma update_rows_app rid c1 c2 rows :
  update_rows rid c2 (update_rows rid c1 rows) = update_rows rid (c1 ++ c2) rows.
Proof.
  unfold update_rows. rewrite map_map. apply map_ext. intros r.
  destruct (String.eqb (run_id r) rid) eqn:E; [|by rewrite E]. cbn. by rewrite E, with_cols_app.
Qed.

Lemma update_rows_ids rid cols rows : run_id <$> update_rows rid cols rows = run_id <$> rows.
Proof.
  unfold update_rows. rewrite <- list_fmap_compose. apply list_fmap_ext. intros i r _. cbn. by destruct (String.eqb _ _).
Qed.

Lemma find_update rid cols rows r :
  find_run rid rows = Some r -> find_run rid (update_rows rid cols rows) = Some (with_cols cols r).
Proof.
  unfold find_run. induction rows as [|x rows IH]; cbn; [done|].
  destruct (String.eqb (run_id x) rid) eqn:E; cbn; rewrite E; [by intros [= ->]|done].
Qed.

Lemma find_update_other rid rid' cols rows :
  rid' <> rid -> find_run rid' (update_rows rid cols rows) = find_run rid' rows.
Proof.
  intros Hne. unfold find_run, update_rows. induction rows as [|x rows IH]; cbn; [done|].
  destruct (String.eqb_spec (run_id x) rid) as [<-|]; cbn.
  - rewrite (proj2 (String.eqb_neq (run_id x) rid')) by congruence. exact IH.
  - by rewrite IH.
Qed.

Lemma find_run_id rid rows r : find_run rid rows = Some r -> r.(run_id) = rid /\ r ∈ rows.
Proof. intros [Hin He%String.eqb_eq]%find_some. split; [done|by apply list_elem_of_In]. Qed.

Lemma find_run_elem rows r : NoDup (run_id <$> rows) -> r ∈ rows -> find_run r.(run_id) rows = Some r.
Proof.
  unfold find_run. induction rows as [|x rows IH]; intros Hnd Hin; [by apply elem_of_nil in Hin|].
  cbn in Hnd. apply NoDup_cons in Hnd as [Hx Hnd]. cbn.
  apply elem_of_cons in Hin as [<-|Hin]; [by rewrite String.eqb_refl|].
  destruct (String.eqb_spec (run_id x) (run_id r)) as [E|E]; [|by apply IH].
  destruct Hx. rewrite E. by apply list_elem_of_fmap_2.
Qed.

(** Updating the current row of a Run that has not ended is a step of the table. *)
Lemma update_rows_step run cols rows :
  NoDup (run_id <$> rows) -> find_run run.(run_id) rows = Some run ->
  run_status run ∉ RUN_TERMINAL -> is_Some (run_steps st (run_status run) (status_path cols)) ->
  table_step rows (update_rows run.(run_id) cols rows).
Proof.
  intros Hnd Hrun Hopen Hleg i r Hr. unfold update_rows. rewrite list_lookup_fmap, Hr. cbn. eexists. split; [done|].
  destruct (String.eqb_spec (run_id r) (run_id run)) as [E|E]; [|by left].
  assert (r = run) as ->.
  { pose proof (find_run_elem rows r Hnd (list_elem_of_lookup_2 _ _ _ Hr)) as Hf. rewrite E, Hrun in Hf. congruence. }
  by apply with_cols_step.
Qed.

End rows.

Arguments row_step : clear implicits.
Arguments table_step : clear implicits.

Section keeps.
Context {ES : Type} {ELI : EventLogI ES} {W : Type} (clock : nat -> Z).

#[local] Notation Db := (RunStore.Db ES W).
Implicit Types (db : Db) (run : RunRow) (v : VersionRow).

(** ** Transactions that leave the Runs alone *)

Definition keeps {A} (m : tx Db A) : Prop := forall db a db', m db = Ok (a, db') -> runs db' = runs db.

Lemma keeps_bind {A B} (m : tx Db A) (f : A -> tx Db B) : keeps m -> (forall a, keeps (f a)) -> keeps (m ≫= f).
Proof. intros Hm Hf db b db' (a & db1 & H1 & H2)%tx_bind_ok. by rewrite (Hf _ _ _ _ H2), (Hm _ _ _ H1). Qed.
Lemma keeps_ret {A} (a : A) : keeps (mret a).
Proof. by intros db b db' [_ <-]%tx_ret_ok. Qed.
Lemma keeps_gets {A} (f : Db -> A) : keeps (gets f).
Proof. by intros db b db' [_ <-]%gets_ok. Qed.
Lemma keeps_lift {A} (r : res A) : keeps (lift r).
Proof. by intros db b db' [_ <-]%lift_ok. Qed.
Lemma keeps_guard b code : keeps (guard_tx b code).
Proof. by intros db u db' [_ <-]%guard_tx_ok. Qed.
Lemma keeps_modify (f : Db -> Db) : (forall db, runs (f db) = runs db) -> keeps (modify f).
Proof. intros Hf db u db' <-%modify_ok. apply Hf. Qed.
Lemma keeps_ledger {A} (m : tx (Ledger ES) A) : keeps (in_ledger m).
Proof. by intros db a db' (l & _ & ->)%in_ledger_ok. Qed.
Lemma keeps_outside {A} (m : tx (W * ES) A) : keeps (zoom outside with_outside m).
Proof. by intros db a db' (l & _ & ->)%zoom_ok. Qed.
Lemma keeps_world {A} (m : tx W A) : keeps (zoom world with_world m).
Proof. by intros db a db' (l & _ & ->)%zoom_ok. Qed.
Lemma keeps_clock : keeps (RunStore.clock_now clock).
Proof. apply keeps_ledger. Qed.
Lemma keeps_append q : keeps (append_once q).
Proof.
  intros db a db'. unfold append_once. destruct (el_append _ _) as [[x s]|e]; [by intros [= _ <-]|].
  destruct (String.eqb _ _); [by intros [= _ <-]|done].
Qed.
Lemma keeps_load_version vid : keeps (load_version vid).
Proof. intros db a db'. unfold load_version. case_match; [by intros [= _ <-]|done]. Qed.
Lemma keeps_load_schedule sid : keeps (load_schedule sid).
Proof. intros db a db'. unfold load_schedule. case_match; [by intros [= _ <-]|done]. Qed.
Lemma keeps_load_run rid : keeps (load_run rid).
Proof. intros db a db'. unfold load_run. case_match; [by intros [= _ <-]|done]. Qed.
Lemma keeps_alert kind s r body now : keeps (raise_alert kind s r body now).
Proof. by intros db a db' [= _ <-]. Qed.
Lemma keeps_clear_retry rid : keeps (clear_retry rid).
Proof. by apply keeps_modify. Qed.
Lemma keeps_schedule_retry rid n t code now : keeps (schedule_retry rid n t code now).
Proof. apply keeps_modify. intros db. by case_match. Qed.

Lemma keeps_insert_run_budget b : keeps (insert_run_budget b).
Proof. apply keeps_bind; [apply keeps_guard|intros _; apply keeps_modify]. intros db. by case_match. Qed.
Lemma keeps_close_budget rid s st actual now : keeps (close_budget rid s st actual now).
Proof. by apply keeps_modify. Qed.

End keeps.

(** Goals [keeps m] for a composed [m]. *)
Ltac keeps :=
  repeat first
    [ apply keeps_ret | apply keeps_gets | apply keeps_lift | apply keeps_guard | apply keeps_clock
    | apply keeps_append | apply keeps_load_version | apply keeps_load_schedule | apply keeps_load_run
    | apply keeps_alert | apply keeps_clear_retry | apply keeps_schedule_retry | apply keeps_insert_run_budget
    | apply keeps_close_budget | apply keeps_ledger | apply keeps_outside | apply keeps_world
    | apply keeps_bind; [|intros ?] | case_match ].

Section moves.
Context (st : RunStatus -> RunStatus -> option RunStatus) (agrees : RunStatus -> RunStatus -> Prop) {RD : Reading st agrees}.
Context {ES : Type} {ELI : EventLogI ES} {W Checked : Type} (clock : nat -> Z) (iso_ms : Z -> ustr) (workspace actor : string).
Context (check : RunRow -> ScheduleLike -> VersionRow -> tx (W * ES) (string * ustr + Checked)).
Context (create_task : RunRow -> ScheduleLike -> VersionRow -> Checked -> tx (W * ES) (string + Failure)).
Context (cancel_task : RunRow -> tx (W * ES) unit) (revoke_leases : RunRow -> W * ES -> W * ES).
Context (post : string -> RunRow -> VersionRow -> list (string * ustr) -> tx W (option string)) (draw : Q -> Q -> Z).

#[local] Notation Db := (RunStore.Db ES W).
#[local] Notation table_step := (table_step st).
Implicit Types (db : Db) (run : RunRow) (v : VersionRow).

Lemma keeps_post run v kind fields : keeps (_post clock post run v kind fields : tx Db unit).
Proof. unfold _post, _record. keeps. apply keeps_modify. intros db. by case_match. Qed.

Lemma keeps_reserve run v h1 h2 : keeps (reserve_for_run clock workspace actor run v h1 h2 : tx Db _).
Proof.
  assert (forall estimate scopes got, keeps (reserve_each clock workspace actor run estimate scopes got : tx Db _)) as Heach.
  { intros estimate scopes. induction scopes as [|[[[s [l|]] ids] hex] scopes IH]; intros got; cbn [reserve_each];
      [keeps| |apply IH]. unfold reserve_scope, _alert. keeps. apply IH. }
  unfold reserve_for_run. keeps; apply Heach.
Qed.

Lemma keeps_release run : keeps (release_for_run clock run : tx Db _).
Proof.
  assert (forall rid open, keeps (release_each clock rid open : tx Db _)) as Heach.
  { intros rid open. induction open as [|[[s r] lim] open IH]; cbn [release_each]; keeps. apply IH. }
  unfold release_for_run, _open_reservations. keeps. apply Heach.
Qed.

Lemma keeps_settle run : keeps (settle_for_run clock run : tx Db _).
Proof.
  assert (forall actual day open, keeps (settle_each clock run actual day open : tx Db _)) as Heach.
  { intros actual day open. induction open as [|[[s r] lim] open IH]; cbn [settle_each]; unfold run_ids_for_day, _alert; keeps.
    apply IH. }
  unfold settle_for_run, _open_reservations, run_usage. keeps. apply Heach.
Qed.

Lemma keeps_cleanup run : keeps (cleanup clock revoke_leases run : tx Db _).
Proof.
  unfold cleanup. apply keeps_bind; [case_match; [by apply keeps_modify|keeps]|intros _].
  apply keeps_bind; [apply keeps_settle|intros _; keeps].
Qed.

Lemma keeps_start_delay run started v now : keeps (start_delay clock post run started v now : tx Db _).
Proof. unfold start_delay. case_match; [|keeps]. apply keeps_bind; [apply keeps_post|intros ?; keeps]. Qed.

(** ** Transactions on one Run *)

(** The status of the row agrees with the one that [run], read earlier, had. *)
Definition current run db : Prop :=
  exists row, find_run run.(run_id) (runs db) = Some row /\ agrees (run_status row) (run_status run).

(** [db'] is [db] with legal updates of the row of [run]; its status then agrees with
    that of [run']. *)
Definition moved run run' db db' : Prop := exists cols,
  runs db' = update_rows run.(run_id) cols (runs db) /\ run'.(run_id) = run.(run_id) /\
  forall row, find_run run.(run_id) (runs db) = Some row -> agrees (run_status row) (run_status run) ->
    exists t, run_steps st (run_status row) (status_path cols) = Some t /\ agrees t (run_status run').

Lemma update_rows_nil rid rows : update_rows rid [] rows = rows.
Proof.
  unfold update_rows. etrans; [|apply map_id]. apply map_ext. intros r. destruct (String.eqb _ _); [|done]. by destruct r.
Qed.

Lemma moved_keep run db db' : runs db' = runs db -> moved run run db db'.
Proof. intros H. exists []. rewrite update_rows_nil. split_and!; [done..|]. intros row _ Ha. by eexists. Qed.

Lemma moved_id run run' db db' : moved run run' db db' -> run'.(run_id) = run.(run_id).
Proof. by intros (cols & _ & -> & _). Qed.

Lemma with_cols_status cols r s :
  run_steps st (run_status r) (status_path cols) = Some s -> run_status (with_cols cols r) = s.
Proof. apply cols_status. Qed.

Lemma moved_current run run' db db' : current run db -> moved run run' db db' -> current run' db'.
Proof.
  intros (row & Hf & Hs) (cols & Hr & Hid & Hp). destruct (Hp row Hf Hs) as (t & Ht & Ha).
  exists (with_cols cols row). rewrite Hr, Hid. split; [by apply find_update|]. by rewrite (with_cols_status _ _ _ Ht).
Qed.

Lemma moved_trans run r1 r2 db db1 db2 : moved run r1 db db1 -> moved r1 r2 db1 db2 -> moved run r2 db db2.
Proof.
  intros (c1 & H1 & I1 & P1) (c2 & H2 & I2 & P2). exists (c1 ++ c2).
  rewrite H2, I1, H1, update_rows_app. split_and!; [done|congruence|]. intros row Hf Ha.
  destruct (P1 row Hf Ha) as (t1 & Ht1 & A1). rewrite I1, H1 in P2.
  destruct (P2 _ (find_update _ c1 _ _ Hf)) as (t2 & Ht2 & A2); rewrite (with_cols_status _ _ _ Ht1) in *; [done|].
  exists t2. by rewrite status_path_app, run_steps_app, Ht1.
Qed.

Lemma moved_keep_r run r1 db db1 db2 : moved run r1 db db1 -> runs db2 = runs db1 -> moved run r1 db db2.
Proof. intros H1 H2. eapply moved_trans; [exact H1|by apply moved_keep]. Qed.

Lemma moved_step run run' db db' :
  NoDup (run_id <$> runs db) -> current run db -> run_status run ∉ RUN_TERMINAL -> moved run run' db db' ->
  table_step (runs db) (runs db').
Proof.
  intros Hnd (row & Hf & Hs) Ho (cols & -> & _ & Hp). destruct (Hp row Hf Hs) as (t & Ht & _).
  destruct (find_run_id _ _ _ Hf) as [Hid _]. rewrite <- Hid in *.
  apply update_rows_step; [done..| |by eexists]. by rewrite (agrees_open _ _ Hs).
Qed.

Lemma update_run_ok rid cols db r db' :
  update_run rid cols db = Ok (r, db') ->
  runs db' = update_rows rid cols (runs db) /\ find_run rid (update_rows rid cols (runs db)) = Some r.
Proof.
  unfold update_run. intros (u & db1 & <-%modify_ok & H)%tx_bind_ok. unfold load_run in H.
  destruct (find_run _ _) as [x|] eqn:E; [|done]. by injection H as <- <-.
Qed.

Lemma update_run_moved run cols db r db' :
  current run db -> update_run run.(run_id) cols db = Ok (r, db') -> legal_from (run_status run) cols -> moved run r db db'.
Proof.
  intros (row & Hf & Hs) [Hrows Hr]%update_run_ok [t Ht]. rewrite (find_update _ cols _ _ Hf) in Hr. injection Hr as <-.
  exists cols. split; [done|]. split; [exact (proj1 (find_run_id _ _ _ Hf))|].
  intros row' Hf' Ha. rewrite Hf in Hf'. injection Hf' as <-. pose proof (agrees_path _ _ _ _ Ha Ht) as Hp.
  eexists. split; [exact Hp|]. rewrite (with_cols_status _ _ _ Hp). apply agrees_refl.
Qed.

Lemma transition_legal s t t' cols :
  run_transition s t = Ok t' -> status_path cols = [] -> s ∉ RUN_TERMINAL /\ legal_from s (CStatus t :: cols).
Proof.
  unfold run_transition. intros [Hs [Ht _]%guard_err_ok]%guard_err_ok Hp.
  apply mem_false in Hs. split; [done|]. exists t. cbn. unfold status_path in Hp. rewrite Hp.
  apply negb_false_iff, mem_spec in Ht. rewrite (proj2 (step_spec s t t)) by done. done.
Qed.

Lemma set_moved run target cols db r db' :
  current run db -> _set run target cols db = Ok (r, db') -> status_path cols = [] ->
  moved run r db db' /\ run_status run ∉ RUN_TERMINAL.
Proof.
  unfold _set. intros Hc (s & db1 & [Ht <-]%lift_ok & H)%tx_bind_ok Hp.
  destruct (transition_legal _ _ _ _ Ht Hp) as [Ho Hl]. split; [|done]. by eapply update_run_moved.
Qed.

Lemma with_result_moved run event db r db' :
  current run db -> with_result run event db = Ok (r, db') -> moved run r db db'.
Proof.
  intros Hc. unfold with_result. destruct event as [e|]; [case_bool_decide|].
  - intros [<- <-]%tx_ret_ok. by apply moved_keep.
  - intros Hu. eapply update_run_moved; [done|exact Hu|by eexists].
  - intros [<- <-]%tx_ret_ok. by apply moved_keep.
Qed.

Lemma add_attempt_moved run n started finished result error db u db' :
  current run db -> add_attempt clock run.(run_id) n started finished result error db = Ok (u, db') ->
  moved run run db db'.
Proof.
  intros Hc. unfold add_attempt. intros (b & db1 & [_ <-]%gets_ok & H)%tx_bind_ok. destruct b.
  - apply moved_keep. revert H. enough (keeps (match finished, result with
      | None, None => mret tt | _, _ => now ← match finished with Some f => mret f | None => RunStore.clock_now clock end;
      finish_attempt run.(run_id) n now (default EmptyString result) error end : tx Db unit)) as Hk by (intros E; by apply Hk in E).
    case_match; [|case_match]; keeps; by apply keeps_modify.
  - apply tx_bind_ok in H as (t & db1 & Ht & H).
    assert (runs db1 = runs db) as E.
    { revert Ht. case_match; [by intros [_ <-]%tx_ret_ok|]. intros Ht. by apply keeps_clock in Ht. }
    apply modify_ok in H. subst db'. eexists. cbn [runs with_runs with_attempts]. rewrite E.
    split_and!; [reflexivity|done|]. intros row _ Ha. by eexists.
Qed.

(** ** The operations of the execution *)

(** Close a step that leaves the Runs alone. *)
Ltac kept H lem :=
  let E := fresh "E" in pose proof H as E; apply lem in E.

Lemma skip_moved run v code detail db o db' :
  current run db -> _skip clock workspace actor post run v code detail db = Ok (o, db') ->
  (exists run', moved run run' db db') /\ run_status run ∉ RUN_TERMINAL.
Proof.
  unfold _skip. intros Hc (now & db1 & E1%keeps_clock & H)%tx_bind_ok.
  apply tx_bind_ok in H as (r1 & db2 & H1 & H). apply set_moved in H1 as [M1 Ho]; [|by unfold current; rewrite E1|done].
  split; [|done]. pose proof (moved_trans _ _ _ _ _ _ (moved_keep run _ _ E1) M1) as M.
  apply tx_bind_ok in H as (ev & db3 & E2%keeps_append & H). pose proof (moved_keep_r _ _ _ _ _ M E2) as M'.
  apply tx_bind_ok in H as (r2 & db4 & H2 & H).
  apply with_result_moved in H2; [|by eapply moved_current]. pose proof (moved_trans _ _ _ _ _ _ M' H2) as M2.
  apply tx_bind_ok in H as (u & db5 & E3%keeps_post & [_ <-]%tx_ret_ok).
  exists r2. by eapply moved_keep_r.
Qed.

Lemma close_failed_moved run v n code detail now db ev db' :
  current run db -> close_failed clock workspace actor post run v n code detail now db = Ok (ev, db') ->
  exists run', moved run run' db db'.
Proof.
  unfold close_failed. intros Hc (r1 & db1 & H1 & H)%tx_bind_ok. apply set_moved in H1 as [M1 _]; [|done..].
  apply tx_bind_ok in H as (e & db2 & E1%keeps_append & H). pose proof (moved_keep_r _ _ _ _ _ M1 E1) as M2.
  apply tx_bind_ok in H as (r2 & db3 & H2 & H).
  apply with_result_moved in H2; [|by eapply moved_current]. pose proof (moved_trans _ _ _ _ _ _ M2 H2) as M3.
  apply tx_bind_ok in H as (? & db4 & E2%keeps_release & H). apply tx_bind_ok in H as (? & db5 & E3%keeps_clear_retry & H).
  apply tx_bind_ok in H as (? & db6 & E4%keeps_post & [_ <-]%tx_ret_ok).
  exists r2. eapply moved_keep_r; [exact M3|congruence].
Qed.

Lemma fail_moved run v n code detail db o db' :
  current run db -> _fail clock workspace actor post run v n code detail db = Ok (o, db') ->
  exists run', moved run run' db db'.
Proof.
  unfold _fail. intros Hc (now & db1 & E1%keeps_clock & H)%tx_bind_ok.
  pose proof (moved_keep run _ _ E1) as M1. pose proof (moved_current _ _ _ _ Hc M1) as C1.
  apply tx_bind_ok in H as (u & db2 & M2%add_attempt_moved & H); [|done].
  apply tx_bind_ok in H as (ev & db3 & (r & M3)%close_failed_moved & [_ <-]%tx_ret_ok); [|exact (moved_current _ _ _ _ C1 M2)].
  exists r. eapply moved_trans; [exact M1|]. exact (moved_trans _ _ _ _ _ _ M2 M3).
Qed.

Lemma transient_moved run v n code detail db o db' :
  current run db -> _transient clock workspace actor post draw run v n code detail db = Ok (o, db') ->
  exists run', moved run run' db db'.
Proof.
  unfold _transient. intros Hc (policy & db0 & [_ <-]%lift_ok & H)%tx_bind_ok.
  apply tx_bind_ok in H as (outcome & db0 & [_ <-]%lift_ok & H).
  apply tx_bind_ok in H as (now & db1 & E1%keeps_clock & H).
  pose proof (moved_keep run _ _ E1) as M1. pose proof (moved_current _ _ _ _ Hc M1) as C1.
  apply tx_bind_ok in H as (u & db2 & M2%add_attempt_moved & H); [|done].
  pose proof (moved_trans _ _ _ _ _ _ M1 M2) as M. pose proof (moved_current _ _ _ _ Hc M) as C2.
  assert (forall code', (event ← close_failed clock workspace actor post run v n code' detail now;
      mret {| oc_run := run.(run_id); oc_status := FAILED; oc_error := Some code'; oc_task := None;
              oc_attempt := n; oc_event := event; deferred := false; retry_at := None; oc_detail := [] |}) db2 = Ok (o, db') ->
      exists run', moved run run' db db') as Hclose.
  { intros code' (ev & db3 & (r & M3)%close_failed_moved & [_ <-]%tx_ret_ok)%tx_bind_ok; [|done].
    exists r. by eapply moved_trans. }
  destruct (rt_decision outcome), (ScheduleContract.next_attempt_no outcome) as [next|]; try by eapply Hclose.
  apply tx_bind_ok in H as (r & db3 & M3%update_run_moved & H); [|done|by eexists].
  apply tx_bind_ok in H as (? & db4 & E4%keeps_schedule_retry & [_ <-]%tx_ret_ok).
  exists r. eapply moved_keep_r; [|exact E4]. by eapply moved_trans.
Qed.

Lemma request_cancel_moved run reason db r db' :
  current run db -> request_cancel clock workspace actor cancel_task run reason db = Ok (r, db') ->
  moved run r db db' /\ run_status run ∉ RUN_TERMINAL.
Proof.
  unfold request_cancel. intros Hc (target & db0 & [_ <-]%lift_ok & H)%tx_bind_ok.
  apply tx_bind_ok in H as (now & db1 & E1%keeps_clock & H).
  pose proof (moved_keep run _ _ E1) as M1. pose proof (moved_current _ _ _ _ Hc M1) as C1. case_bool_decide.
  - apply tx_bind_ok in H as (r1 & db2 & H2 & H). apply set_moved in H2 as [M2 Ho]; [|done..]. split; [|done].
    pose proof (moved_trans _ _ _ _ _ _ M1 M2) as M.
    apply tx_bind_ok in H as (ev & db3 & E3%keeps_append & H). pose proof (moved_keep_r _ _ _ _ _ M E3) as M3.
    apply tx_bind_ok in H as (r2 & db4 & H4 & H). apply with_result_moved in H4; [|exact (moved_current _ _ _ _ Hc M3)].
    apply tx_bind_ok in H as (? & db5 & E5%keeps_release & H).
    apply tx_bind_ok in H as (? & db6 & E6%keeps_clear_retry & [<- <-]%tx_ret_ok).
    eapply moved_keep_r; [exact (moved_trans _ _ _ _ _ _ M3 H4)|congruence].
  - apply tx_bind_ok in H as (r1 & db2 & H2 & H). apply set_moved in H2 as [M2 Ho]; [|done..]. split; [|done].
    pose proof (moved_trans _ _ _ _ _ _ M1 M2) as M.
    apply tx_bind_ok in H as (ev & db3 & E3%keeps_append & H).
    apply tx_bind_ok in H as (? & db4 & H4 & [<- <-]%tx_ret_ok).
    assert (runs db4 = runs db3) as E4 by (destruct (truthy _); [by apply keeps_outside in H4|by apply keeps_ret in H4]).
    eapply moved_keep_r; [exact M|congruence].
Qed.

Lemma finish_cancel_moved run timed_out reason db r db' :
  current run db -> finish_cancel clock workspace actor revoke_leases post run timed_out reason db = Ok (r, db') ->
  moved run r db db' /\ run_status run ∉ RUN_TERMINAL.
Proof.
  unfold finish_cancel. intros Hc (now & db1 & E1%keeps_clock & H)%tx_bind_ok.
  apply tx_bind_ok in H as (v & db2 & E2%keeps_load_version & H).
  pose proof (moved_keep run _ _ (eq_trans E2 E1)) as M1. pose proof (moved_current _ _ _ _ Hc M1) as C1.
  apply tx_bind_ok in H as ([r1 ev] & db3 & H3 & H).
  assert (moved run r1 db db3 /\ run_status run ∉ RUN_TERMINAL) as [M3 Ho].
  { revert H3. case_match; intros (r3 & d1 & H3 & H4)%tx_bind_ok;
      (apply set_moved in H3 as [M2 Ho]; [|done..]; split; [|done];
       apply tx_bind_ok in H4 as (e & d2 & E4%keeps_append & [[= <- <-] <-]%tx_ret_ok);
       eapply moved_trans; [exact M1|by eapply moved_keep_r]). }
  split; [|done]. apply tx_bind_ok in H as (r2 & db4 & H4 & H). cbn [fst snd] in H4.
  apply with_result_moved in H4; [|exact (moved_current _ _ _ _ Hc M3)].
  apply tx_bind_ok in H as (? & db5 & E5%keeps_cleanup & H).
  apply tx_bind_ok in H as (? & db6 & E6%keeps_post & [<- <-]%tx_ret_ok).
  eapply moved_keep_r; [exact (moved_trans _ _ _ _ _ _ M3 H4)|congruence].
Qed.

Lemma skip_for_moved run v oc detail db o db' :
  current run db -> skip_for clock workspace actor post run v oc detail db = Ok (o, db') ->
  (exists run', moved run run' db db') /\ run_status run ∉ RUN_TERMINAL.
Proof.
  unfold skip_for. intros Hc (u & db1 & E1%keeps_release & H)%tx_bind_ok.
  pose proof (moved_keep run _ _ E1) as M1.
  apply skip_moved in H as [(r & M2) Ho]; [|exact (moved_current _ _ _ _ Hc M1)]. split; [|done]. exists r. by eapply moved_trans.
Qed.

Lemma start_task_moved run s v checked now db o db' :
  current run db -> start_task clock workspace actor create_task post draw run s v checked now db = Ok (o, db') ->
  exists run', moved run run' db db'.
Proof.
  unfold start_task. intros Hc (u & db1 & M1%add_attempt_moved & H)%tx_bind_ok; [|done].
  apply tx_bind_ok in H as (created & db2 & E2%keeps_outside & H). pose proof (moved_keep_r _ _ _ _ _ M1 E2) as M2.
  pose proof (moved_current _ _ _ _ Hc M2) as C2.
  assert (forall db0 db1, (exists run', moved run run' db0 db1) -> moved run run db db0 -> exists run', moved run run' db db1) as Hthen.
  { intros d0 d1 (r & M) M0. exists r. by eapply moved_trans. }
  destruct created as [task|[code detail|code detail|code detail]].
  - apply tx_bind_ok in H as (r & db3 & H3 & H). apply set_moved in H3 as [M3 _]; [|done..].
    apply tx_bind_ok in H as (ev & db4 & E4%keeps_append & H). apply tx_bind_ok in H as (? & db5 & E5%keeps_post & H).
    apply tx_bind_ok in H as (? & db6 & E6%keeps_start_delay & [_ <-]%tx_ret_ok).
    exists r. eapply moved_keep_r; [by eapply moved_trans|congruence].
  - eapply Hthen; [by eapply transient_moved|done].
  - case_match; (eapply Hthen; [|done]); [by eapply transient_moved|by eapply fail_moved].
  - eapply Hthen; [by eapply fail_moved|done].
Qed.

(** ** Operations on the table *)

(** One turn of a loop: it leaves the Runs alone or moves its own, which had not ended. *)
Definition turn row db db' : Prop :=
  runs db' = runs db \/ (exists row', moved row row' db db') /\ run_status row ∉ RUN_TERMINAL.

Lemma turn_ids row db db' : turn row db db' -> run_id <$> runs db' = run_id <$> runs db.
Proof. intros [->|[(r & cols & -> & _) _]]; [done|apply update_rows_ids]. Qed.

Lemma turn_step row db db' :
  NoDup (run_id <$> runs db) -> current row db -> turn row db db' -> table_step (runs db) (runs db').
Proof. intros Hnd Hc [->|[(r & M) Ho]]; [apply table_step_refl|by eapply moved_step]. Qed.

Lemma turn_other row row' db db' :
  turn row db db' -> row'.(run_id) <> row.(run_id) -> current row' db -> current row' db'.
Proof.
  intros [E|[(r & cols & E & _) _]] Hne (x & Hx & Hs); exists x; rewrite E; [done|].
  split; [by rewrite find_update_other|done].
Qed.

Lemma current_elem r db : NoDup (run_id <$> runs db) -> r ∈ runs db -> current r db.
Proof. intros Hnd Hr. exists r. split; [by apply find_run_elem|apply agrees_refl]. Qed.

Lemma for_rows_step {A} (f : RunRow -> tx Db A) (P : RunRow -> Prop) rows db xs db' :
  (forall row db a db', P row -> current row db -> f row db = Ok (a, db') -> turn row db db') ->
  NoDup (run_id <$> runs db) -> NoDup (run_id <$> rows) -> Forall (fun r => P r /\ current r db) rows ->
  for_rows f rows db = Ok (xs, db') -> table_step (runs db) (runs db') /\ run_id <$> runs db' = run_id <$> runs db.
Proof.
  intros Hf. revert db xs. induction rows as [|row rows IH]; intros db xs Hnd Hrows Hall; cbn [for_rows].
  { intros [_ <-]%tx_ret_ok. split; [apply table_step_refl|done]. }
  intros (x & db1 & H1 & H)%tx_bind_ok. apply tx_bind_ok in H as (xs' & db2 & H2 & [_ <-]%tx_ret_ok).
  apply Forall_cons in Hall as [[Hp Hc] Hall]. cbn in Hrows. apply NoDup_cons in Hrows as [Hnew Hrows].
  pose proof (Hf _ _ _ _ Hp Hc H1) as Ht. pose proof (turn_ids _ _ _ Ht) as Hids.
  destruct (IH db1 xs') as [Hs Hi]; [by rewrite Hids|done| |done|].
  - rewrite Forall_forall in Hall |- *. intros r Hr. destruct (Hall r Hr) as [Hpr Hcr]. split; [done|].
    eapply turn_other; [exact Ht| |done]. intros E. destruct Hnew. rewrite <- E. by apply list_elem_of_fmap_2.
  - split; [|congruence]. eapply table_step_trans; [by eapply turn_step|done].
Qed.

(** The rows a query selects. *)
Definition selects (f : RunRow -> bool) (leb : RunRow -> RunRow -> bool) (n : nat) db : list RunRow :=
  take n (py_sorted leb (List.filter f (runs db))).

Lemma selects_elem f leb n db r : r ∈ selects f leb n db -> r ∈ runs db /\ f r = true.
Proof.
  intros Hr%subseteq_take. apply py_sorted_elem, list_elem_of_In, filter_In in Hr as [Hr Hf].
  split; [by apply list_elem_of_In|done].
Qed.

Lemma selects_nodup f leb n db : NoDup (run_id <$> runs db) -> NoDup (run_id <$> selects f leb n db).
Proof.
  intros Hnd. unfold selects. eapply sublist_NoDup; [|apply fmap_sublist, sublist_take].
  rewrite py_sorted_perm. eapply sublist_NoDup; [exact Hnd|]. apply fmap_sublist.
  clear Hnd. induction (runs db) as [|r rows IH]; cbn; [done|].
  destruct (f r); [by apply sublist_skip|by apply sublist_cons].
Qed.

Lemma for_selected {A} (g : RunRow -> tx Db A) f leb n db xs db' :
  (forall row db a db', f row = true -> current row db -> g row db = Ok (a, db') -> turn row db db') ->
  NoDup (run_id <$> runs db) -> for_rows g (selects f leb n db) db = Ok (xs, db') ->
  table_step (runs db) (runs db') /\ run_id <$> runs db' = run_id <$> runs db.
Proof.
  intros Hg Hnd. apply (for_rows_step g (fun r => f r = true)); [done|done|by apply selects_nodup|].
  apply Forall_forall. intros r [Hr Hf]%selects_elem. split; [done|by apply current_elem].
Qed.

Lemma load_current rid db r db' :
  load_run rid db = Ok (r, db') -> db' = db /\ current r db /\ r.(run_id) = rid.
Proof.
  unfold load_run. destruct (find_run _ _) as [x|] eqn:E; [|done]. intros [= -> ->].
  destruct (find_run_id _ _ _ E) as [<- _]. split; [done|]. split; [|done]. exists r. split; [done|apply agrees_refl].
Qed.

(** A loop body that reads its row again and writes a status. *)
Lemma reload_turn row run db t cols r db1 db2 :
  current row db -> load_run row.(run_id) db = Ok (run, db) -> update_run run.(run_id) (CStatus t :: cols) db = Ok (r, db1) ->
  st (run_status run) t = Some t -> status_path cols = [] -> run_status run ∉ RUN_TERMINAL ->
  runs db2 = runs db1 -> turn row db db2.
Proof.
  intros (x & Hx & Ha) Hl [Hrows Hr]%update_run_ok Ht Hp Ho E.
  unfold load_run in Hl. rewrite Hx in Hl. injection Hl as ->. pose proof (proj1 (find_run_id _ _ _ Hx)) as Hid.
  assert (run_steps st (run_status run) (status_path (CStatus t :: cols)) = Some t) as Hpath.
  { unfold status_path in *. cbn. rewrite Hp, Ht. done. }
  right. split; [|by rewrite <- (agrees_open _ _ Ha)]. rewrite Hid in *.
  rewrite (find_update _ _ _ _ Hx) in Hr. injection Hr as <-. exists (with_cols (CStatus t :: cols) run).
  exists (CStatus t :: cols). split_and!; [by rewrite E|done|]. intros row' Hf' Ha'. rewrite Hx in Hf'. injection Hf' as <-.
  exists t. split; [done|]. rewrite (with_cols_status _ _ _ Hpath). apply agrees_refl.
Qed.

(** The status of the row its reader moves from, when that is not a claim. *)
Lemma reload_status row run db :
  current row db -> load_run row.(run_id) db = Ok (run, db) -> agrees (run_status run) (run_status row).
Proof. intros (x & Hx & Ha). unfold load_run. rewrite Hx. by intros [= ->]. Qed.

Lemma step_to s t : t ∈ RUN_TRANSITIONS s -> step s t = Some t.
Proof. intros Ht. by apply step_spec. Qed.

Lemma mark_turn row db a db' :
  run_status row = PENDING -> current row db -> mark_one iso_ms actor row db = Ok (a, db') -> turn row db db'.
Proof.
  unfold mark_one. intros Hs Hc (run & db0 & Hl & H)%tx_bind_ok. pose proof Hl as (-> & _ & _)%load_current.
  apply tx_bind_ok in H as (r & db1 & Hu & H). apply tx_bind_ok in H as (? & db2 & E%keeps_append & [_ <-]%tx_ret_ok).
  pose proof (reload_status _ _ _ Hc Hl) as Ha. rewrite Hs in Ha.
  eapply reload_turn; [done..| | | |exact E]; [|done|].
  - apply (agrees_step _ _ _ Ha), step_to. by apply (bool_decide_unpack _).
  - rewrite (agrees_open _ _ Ha). by apply (bool_decide_unpack _).
Qed.

Lemma claim_turn runner now lease row db a db' :
  current row db -> claim_one iso_ms runner now lease actor row db = Ok (a, db') -> turn row db db'.
Proof.
  unfold claim_one. intros Hc (run & db0 & Hl & H)%tx_bind_ok. pose proof Hl as (-> & Hc' & Hid)%load_current.
  destruct (decide (run_status run = DUE)) as [Hs|Hs]; [|rewrite (bool_decide_eq_false_2 _ Hs) in H;
    apply tx_ret_ok in H as [_ <-]; by left].
  rewrite (bool_decide_eq_true_2 _ Hs) in H. cbn [negb] in H.
  apply tx_bind_ok in H as (r & db1 & Hu & H). apply tx_bind_ok in H as (? & db2 & E%keeps_append & H).
  apply tx_bind_ok in H as (? & db3 & E3%keeps_load_run & [_ <-]%tx_ret_ok).
  eapply reload_turn; [done..| | | |exact (eq_trans E3 E)]; [|done|]; rewrite Hs.
  - apply (agrees_step _ _ _ (agrees_refl _)), step_to. by apply (bool_decide_unpack _).
  - by apply (bool_decide_unpack _).
Qed.

Lemma expire_turn now row db a db' :
  run_status row = CLAIMED -> current row db -> expire_one iso_ms now actor row db = Ok (a, db') -> turn row db db'.
Proof.
  unfold expire_one. intros Hs Hc (run & db0 & Hl & H)%tx_bind_ok. pose proof Hl as (-> & _ & _)%load_current.
  apply tx_bind_ok in H as (r & db1 & Hu & H). apply tx_bind_ok in H as (? & db2 & E%keeps_append & [_ <-]%tx_ret_ok).
  pose proof (reload_status _ _ _ Hc Hl) as Ha. rewrite Hs in Ha.
  eapply reload_turn; [done..| | | |exact E]; [|done|].
  - apply (agrees_step _ _ _ Ha), step_to. by apply (bool_decide_unpack _).
  - rewrite (agrees_open _ _ Ha). by apply (bool_decide_unpack _).
Qed.

Lemma running_open s : mem s RUN_RUNNING = true -> s ∉ RUN_TERMINAL.
Proof. destruct s; try discriminate; intros _; by apply (bool_decide_unpack _). Qed.

Lemma close_turn task task_status row db a db' :
  current row db -> close_one clock workspace actor revoke_leases post task task_status row db = Ok (a, db') -> turn row db db'.
Proof.
  unfold close_one. intros Hc H. destruct (mem (run_status row) RUN_RUNNING) eqn:Hrun; cbn [negb] in H;
    [|apply tx_ret_ok in H as [_ <-]; by left].
  apply tx_bind_ok in H as (v & db1 & E1%keeps_load_version & H). apply tx_bind_ok in H as (now & db2 & E2%keeps_clock & H).
  pose proof (moved_keep row _ _ (eq_trans E2 E1)) as M1. pose proof (moved_current _ _ _ _ Hc M1) as C1. right.
  case_bool_decide as Hcr.
  { apply tx_bind_ok in H as (r & db3 & [M2 Ho]%finish_cancel_moved & [_ <-]%tx_ret_ok); [|done].
    split; [|done]. exists r. by eapply moved_trans. }
  apply tx_bind_ok in H as (r1 & db3 & H3 & H).
  assert (moved row r1 db db3) as M3.
  { revert H3. case_bool_decide; intros H3.
    - apply set_moved in H3 as [M3 _]; [|done..]. by eapply moved_trans.
    - apply tx_ret_ok in H3 as [<- <-]. done. }
  pose proof (moved_current _ _ _ _ Hc M3) as C3.
  apply tx_bind_ok in H as (r2 & db4 & H4 & H). apply set_moved in H4 as [M4 Ho4]; [|done..].
  pose proof (moved_trans _ _ _ _ _ _ M3 M4) as M34.
  apply tx_bind_ok in H as (ev & db5 & H5 & H).
  assert (runs db5 = runs db4) as E5 by (revert H5; case_match; intros E5; by apply keeps_append in E5).
  pose proof (moved_keep_r _ _ _ _ _ M34 E5) as M5. pose proof (moved_current _ _ _ _ Hc M5) as C5.
  apply tx_bind_ok in H as (r3 & db6 & H6%with_result_moved & H); [|done].
  pose proof (moved_trans _ _ _ _ _ _ M5 H6) as M6.
  apply tx_bind_ok in H as (u & db7 & H7 & H).
  assert (exists r4, moved row r4 db db7) as (r4 & M7).
  { assert (r3.(run_id) = r1.(run_id)) as Eid by (rewrite (moved_id _ _ _ _ M6), (moved_id _ _ _ _ M3); done).
    rewrite <- Eid in H7. apply add_attempt_moved in H7; [|exact (moved_current _ _ _ _ Hc M6)].
    exists r3. by eapply moved_trans. }
  apply tx_bind_ok in H as (? & db8 & E8%keeps_cleanup & H). apply tx_bind_ok in H as (? & db9 & H9 & [_ <-]%tx_ret_ok).
  assert (runs db9 = runs db8) as E9 by (revert H9; case_match; intros E9; by apply keeps_post in E9).
  split; [exists r4; eapply moved_keep_r; [exact M7|congruence]|].
  by apply running_open.
Qed.

Lemma time_out_turn now row db a db' :
  current row db -> time_out_one clock workspace actor cancel_task now row db = Ok (a, db') -> turn row db db'.
Proof.
  unfold time_out_one. intros Hc (v & db1 & E1%keeps_load_version & H)%tx_bind_ok.
  case_match; [apply tx_ret_ok in H as [_ <-]; by left|].
  pose proof (moved_keep row _ _ E1) as M1. pose proof (moved_current _ _ _ _ Hc M1) as C1.
  apply tx_bind_ok in H as (r & db2 & [M2 Ho]%request_cancel_moved & H); [|done].
  apply tx_bind_ok in H as (? & db3 & E3%keeps_alert & [_ <-]%tx_ret_ok). right. split; [|done].
  exists r. eapply moved_keep_r; [by eapply moved_trans|done].
Qed.

(** ** Executions *)

(** What the execution of one Run may do to another: ask it to cancel. *)
Definition asked (rid : string) (rows rows' : list RunRow) : Prop :=
  find_run rid rows' = find_run rid rows \/
  exists x x', find_run rid rows = Some x /\ find_run rid rows' = Some x' /\ run_status x' = CANCEL_REQUESTED.

Lemma asked_trans rid rows1 rows2 rows3 : asked rid rows1 rows2 -> asked rid rows2 rows3 -> asked rid rows1 rows3.
Proof.
  intros H1 [E|(y & y' & Hy & Hy' & Hs)]; [unfold asked; by rewrite E|right].
  destruct H1 as [E|(x & x' & Hx & Hx' & _)]; [rewrite E in Hy; by exists y, y'|by exists x, y'].
Qed.

(** The step of the table one execution makes. *)
Definition execution_step run db db' : Prop :=
  table_step (runs db) (runs db') /\ run_id <$> runs db' = run_id <$> runs db /\
  forall rid, rid <> run.(run_id) -> asked rid (runs db) (runs db').

Lemma execution_step_same run db db' : runs db' = runs db -> execution_step run db db'.
Proof. intros E. unfold execution_step. rewrite E. split_and!; [apply table_step_refl|done|by left]. Qed.

Lemma execution_step_trans run db1 db2 db3 :
  execution_step run db1 db2 -> execution_step run db2 db3 -> execution_step run db1 db3.
Proof.
  intros (T1 & I1 & A1) (T2 & I2 & A2). split_and!; [by eapply table_step_trans|congruence|].
  intros rid Hne. eapply asked_trans; auto.
Qed.

Lemma execution_step_nodup run db db' :
  execution_step run db db' -> NoDup (run_id <$> runs db) -> NoDup (run_id <$> runs db').
Proof. by intros (_ & -> & _). Qed.

Lemma turn_rid row rid db db' : turn row db db' -> rid <> row.(run_id) -> find_run rid (runs db') = find_run rid (runs db).
Proof. by intros [->|[(r & cols & -> & _) _]] Hne; [|rewrite find_update_other]. Qed.

Lemma execution_step_turn run db db' :
  NoDup (run_id <$> runs db) -> current run db -> turn run db db' -> execution_step run db db'.
Proof.
  intros Hnd Hc Ht. split_and!; [by eapply turn_step|by eapply turn_ids|]. intros rid Hne. left. by eapply turn_rid.
Qed.

(** An active Run is asked to cancel. *)
Lemma request_cancel_asked first reason db r db' run :
  NoDup (run_id <$> runs db) -> current first db -> mem (run_status first) ACTIVE = true ->
  request_cancel clock workspace actor cancel_task first reason db = Ok (r, db') -> execution_step run db db'.
Proof.
  intros Hnd Hc Ha H. pose proof H as [M Ho]%request_cancel_moved; [|done].
  assert (run_status r = CANCEL_REQUESTED) as Hr.
  { revert H. unfold request_cancel. intros (target & db0 & [Ht <-]%lift_ok & H)%tx_bind_ok.
    apply tx_bind_ok in H as (t & db1 & E1%keeps_clock & H).
    assert (target = CANCEL_REQUESTED) as -> by (destruct (run_status first); try discriminate Ha; vm_compute in Ht; congruence).
    rewrite bool_decide_eq_false_2 in H by done. apply tx_bind_ok in H as (r1 & db2 & H2 & H).
    apply tx_bind_ok in H as (ev & db3 & _ & H). apply tx_bind_ok in H as (u & db4 & _ & [<- _]%tx_ret_ok).
    apply tx_bind_ok in H2 as (s & d & [_ <-]%lift_ok & [_ Hf]%update_run_ok). destruct Hc as (x & Hx & _).
    rewrite E1, (find_update _ _ _ _ Hx) in Hf. by injection Hf as <-. }
  assert (turn first db db') as Ht by (right; split; [by exists r|done]).
  split_and!; [by eapply turn_step|by eapply turn_ids|]. intros rid _.
  destruct (decide (rid = first.(run_id))) as [->|Hne]; [|left; by eapply turn_rid]. right.
  destruct Hc as (x & Hx & Hax), M as (cols & Hrows & _ & Hp). destruct (Hp x Hx Hax) as (t & Hpath & Hat).
  exists x, (with_cols cols x). rewrite Hrows. split_and!; [done|by apply find_update|].
  rewrite (with_cols_status _ _ _ Hpath). rewrite Hr in Hat. by apply agrees_exact in Hat.
Qed.

Lemma active_current run first rest db :
  NoDup (run_id <$> runs db) ->
  List.filter (fun r => negb (String.eqb r.(run_id) run.(run_id)))
    (py_sorted by_time (List.filter (fun r => String.eqb r.(run_schedule) run.(run_schedule) && mem (run_status r) ACTIVE) (runs db)))
    = first :: rest ->
  current first db /\ first.(run_id) <> run.(run_id) /\ mem (run_status first) ACTIVE = true.
Proof.
  intros Hnd E. assert (In first (first :: rest)) as Hin by by left. rewrite <- E in Hin. apply filter_In in Hin as [Hin Hx].
  apply list_elem_of_In, py_sorted_elem, list_elem_of_In, filter_In in Hin as [Hin [_ Ha]%andb_true_iff]. split_and!; [|by apply negb_true_iff, String.eqb_neq in Hx|done].
  apply current_elem; [done|by apply list_elem_of_In].
Qed.

Lemma skip_for_step run v oc detail db o db' :
  NoDup (run_id <$> runs db) -> current run db ->
  skip_for clock workspace actor post run v oc detail db = Ok (o, db') -> execution_step run db db'.
Proof.
  intros Hnd Hc Hs. apply skip_for_moved in Hs as [(r & M) Ho]; [|done].
  apply execution_step_turn; [done..|]. right. split; [by exists r|done].
Qed.

(** [_concurrency] may ask another Run to cancel; it leaves [run] as it was when [run] may start. *)
Lemma concurrency_step run v now db o db' :
  NoDup (run_id <$> runs db) -> current run db -> run_status run ∉ RUN_TERMINAL ->
  _concurrency clock workspace actor cancel_task post run v now db = Ok (o, db') ->
  execution_step run db db' /\ (o = None -> current run db').
Proof.
  intros Hnd Hc Ho. unfold _concurrency, active_runs. intros (active & db0 & [<- <-]%gets_ok & H)%tx_bind_ok.
  destruct (List.filter _ _) as [|first rest] eqn:E.
  { apply tx_ret_ok in H as [_ <-]. split; [by apply execution_step_same|done]. }
  apply active_current in E as (Hf & Hne & Ha); [|done]. case_bool_decide as Hp.
  - apply tx_bind_ok in H as (previous & db1 & H1 & H).
    assert (execution_step run db db1 /\ current run db1) as [S1 C1].
    { revert H1. case_bool_decide; [|intros [_ <-]%tx_ret_ok; split; [by apply execution_step_same|done]].
      intros H1. split; [by eapply request_cancel_asked|]. apply request_cancel_moved in H1 as [M Hopen]; [|done].
      apply (turn_other first _ db); [|congruence|done]. right. split; [by exists previous|done]. }
    pose proof (execution_step_nodup _ _ _ S1 Hnd) as N1. destruct (co_decision _).
    + by apply tx_ret_ok in H as [_ <-].
    + apply tx_bind_ok in H as (o0 & db2 & H2%skip_for_step & [<- <-]%tx_ret_ok); [|done..].
      split; [by eapply execution_step_trans|done].
    + apply tx_bind_ok in H as (r & db2 & M2%update_run_moved & [<- <-]%tx_ret_ok); [|done|by eexists].
      split; [|done]. eapply execution_step_trans; [exact S1|]. apply execution_step_turn; [done..|].
      right. split; [by exists r|done].
  - destruct (co_decision _); try (apply tx_ret_ok in H as [_ <-]; split; [by apply execution_step_same|done]).
    apply tx_bind_ok in H as (o0 & db2 & H2%skip_for_step & [<- <-]%tx_ret_ok); [|done..]. done.
Qed.

Lemma execute_step h1 h2 run db o db' :
  NoDup (run_id <$> runs db) -> current run db ->
  execute clock workspace actor check create_task cancel_task post draw h1 h2 run db = Ok (o, db') ->
  execution_step run db db'.
Proof.
  intros Hnd Hc. unfold execute. intros (u & db0 & [Hs <-]%guard_tx_ok & H)%tx_bind_ok.
  apply bool_decide_eq_false, dec_stable in Hs.
  assert (run_status run ∉ RUN_TERMINAL) as Ho by (rewrite Hs; by apply (bool_decide_unpack _)).
  apply tx_bind_ok in H as (now & db1 & E1%keeps_clock & H). apply tx_bind_ok in H as (s & db2 & E2%keeps_load_schedule & H).
  apply tx_bind_ok in H as (v & db3 & E3%keeps_load_version & H). apply tx_bind_ok in H as (c & db4 & E4%keeps_outside & H).
  assert (runs db4 = runs db) as E by congruence. clear E1 E2 E3 E4.
  assert (forall d code detail o0, runs d = runs db -> _skip clock workspace actor post run v code detail d = Ok (o0, db') ->
    execution_step run db db') as Hskip.
  { intros d code detail o0 Ed Hk. apply skip_moved in Hk as [(r & M) _]; [|unfold current; by rewrite Ed].
    apply execution_step_turn; [done..|]. right. split; [|done]. exists r. exact (moved_trans _ _ _ _ _ _ (moved_keep _ _ _ Ed) M). }
  destruct c as [[code detail]|checked]; [exact (Hskip _ _ _ _ E H)|].
  apply tx_bind_ok in H as (reserved & db5 & E5%keeps_reserve & H). rewrite E in E5. clear E.
  destruct (negb _); [exact (Hskip _ _ _ _ E5 H)|].
  apply tx_bind_ok in H as (waiting & db6 & H6 & H).
  apply concurrency_step in H6 as [S6 C]; [|by rewrite E5|unfold current; by rewrite E5|done].
  assert (execution_step run db db6) as S by (eapply execution_step_trans; [by apply execution_step_same|done]).
  destruct waiting as [o0|]; [by apply tx_ret_ok in H as [_ <-]|]. specialize (C eq_refl).
  apply start_task_moved in H as (r & M); [|done]. eapply execution_step_trans; [exact S|].
  apply execution_step_turn; [by eapply execution_step_nodup|done|]. right. split; [by exists r|done].
Qed.

Lemma beats_step rid runner now lease rows :
  let beat r := if beats rid runner r then with_cols [CHeartbeat (Some now); CLease (Some (now + seconds lease))] r else r in
  table_step rows (map beat rows) /\ run_id <$> map beat rows = run_id <$> rows.
Proof.
  intros beat. split.
  - intros i r Hr. rewrite list_lookup_fmap, Hr. eexists. split; [done|]. unfold beat.
    destruct (beats rid runner r) eqn:E; [|by left]. apply with_cols_step; [|by eexists].
    unfold beats in E. apply andb_true_iff in E as [_ E]. destruct (run_status r); try discriminate; by apply (bool_decide_unpack _).
  - rewrite <- list_fmap_compose. apply list_fmap_ext. intros i r _. unfold beat, compose. by destruct (beats _ _ _).
Qed.

(** ** Histories *)

(** The transactions of the scheduler on the Runs that exist. *)
Inductive Op :=
  | MarkDue (locked : list string) (now : Z) (limit : nat)
  | ClaimDue (locked : list string) (runner : string) (now lease_s : Z) (limit : nat)
  | Heartbeat (rid runner : string) (now lease_s : Z)
  | ExpireLeases (locked : list string) (now : Z) (ws : option string)
  | ExecuteRun (h1 h2 rid : string)
  | RequestCancel (rid reason : string)
  | FinishCancel (rid : string) (timed_out : bool) (reason : string)
  | TaskTerminal (task task_status : string)
  | HandleTimeouts
  | Tick (locked : list string) (runner : string) (now lease_s : Z) (limit : nat) (ids : string -> string * string).

Definition discard {A} (m : tx Db A) : tx Db unit := _ ← m; mret tt.

(** [schedule_runs._tick] from its claims on: the Runs are executed as the claim returned
    them. [ids] are the random ids of the reservations of a Run. *)
Definition execute_claimed (ids : string -> string * string) (run : RunRow) : tx Db RunOutcome :=
  execute clock workspace actor check create_task cancel_task post draw (ids run.(run_id)).1 (ids run.(run_id)).2 run.

Definition tick locked runner now lease_s limit ids : tx Db (list RunOutcome) :=
  claimed ← claim_due iso_ms locked runner now workspace lease_s limit actor;
  for_rows (execute_claimed ids) claimed.

(** [worker.execute_run], [recovery.run_due_retries] and the cancellations read the row
    of the Run under its lock. *)
Definition perform (op : Op) : tx Db unit :=
  match op with
  | MarkDue locked now limit => discard (mark_due iso_ms locked workspace now actor limit)
  | ClaimDue locked runner now lease_s limit => discard (claim_due iso_ms locked runner now workspace lease_s limit actor)
  | Heartbeat rid runner now lease_s => discard (heartbeat rid runner now lease_s)
  | ExpireLeases locked now ws => discard (expire_leases iso_ms locked now ws actor)
  | ExecuteRun h1 h2 rid => discard (run ← load_run rid;
      execute clock workspace actor check create_task cancel_task post draw h1 h2 run)
  | RequestCancel rid reason => discard (run ← load_run rid; request_cancel clock workspace actor cancel_task run reason)
  | FinishCancel rid timed_out reason => discard (run ← load_run rid;
      finish_cancel clock workspace actor revoke_leases post run timed_out reason)
  | TaskTerminal task task_status => discard (on_task_terminal clock workspace actor revoke_leases post task task_status)
  | HandleTimeouts => discard (handle_timeouts clock workspace actor cancel_task)
  | Tick locked runner now lease_s limit ids => discard (tick locked runner now lease_s limit ids)
  end.

(** Committed transactions, with the Runs inserted between them: pending by the planner,
    due by the commands that start a Run by hand or retry one. *)
Inductive history : list Op -> Db -> Db -> Prop :=
  | Hist_nil db : history [] db db
  | Hist_op db db1 db2 op ops : perform op db = Ok (tt, db1) -> history ops db1 db2 -> history (op :: ops) db db2
  | Hist_insert db db2 row ops : run_status row ∈ [PENDING; DUE] -> row.(run_id) ∉ run_id <$> runs db ->
      history ops (with_runs (runs db ++ [row]) db) db2 -> history ops db db2.

(** A tick that may claim several Runs. *)
Definition crowded (op : Op) : bool := match op with Tick _ _ _ _ limit _ => (1 <? limit)%nat | _ => false end.

Lemma discard_ok {A} (m : tx Db A) db u db' : discard m db = Ok (u, db') -> exists a, m db = Ok (a, db').
Proof. intros (a & db1 & H & [_ <-]%tx_ret_ok)%tx_bind_ok. by exists a. Qed.

Lemma turn_table row db db' :
  NoDup (run_id <$> runs db) -> current row db -> turn row db db' ->
  table_step (runs db) (runs db') /\ run_id <$> runs db' = run_id <$> runs db.
Proof. intros Hnd Hc Ht. split; [by eapply turn_step|by eapply turn_ids]. Qed.

Lemma mark_due_step locked now limit db xs db' :
  NoDup (run_id <$> runs db) -> mark_due iso_ms locked workspace now actor limit db = Ok (xs, db') ->
  table_step (runs db) (runs db') /\ run_id <$> runs db' = run_id <$> runs db.
Proof.
  unfold mark_due. intros Hnd (rows & db0 & [<- <-]%gets_ok & H)%tx_bind_ok. revert H. apply for_selected; [|exact Hnd].
  intros row d a d' Hf. apply mark_turn. by apply andb_true_iff in Hf as [[[_ Hs%bool_decide_eq_true]%andb_true_iff _]%andb_true_iff _].
Qed.

Lemma claim_due_step locked runner now lease limit db xs db' :
  NoDup (run_id <$> runs db) -> claim_due iso_ms locked runner now workspace lease limit actor db = Ok (xs, db') ->
  table_step (runs db) (runs db') /\ run_id <$> runs db' = run_id <$> runs db.
Proof.
  unfold claim_due. intros Hnd (? & db1 & [T1 I1]%mark_due_step & H)%tx_bind_ok; [|exact Hnd].
  apply tx_bind_ok in H as (rows & db2 & [<- <-]%gets_ok & H). apply tx_bind_ok in H as (claimed & db2 & H2 & [_ <-]%tx_ret_ok).
  apply for_selected in H2 as [T2 I2]; [|by intros row d a d' _; apply claim_turn|by rewrite I1].
  split; [by eapply table_step_trans|congruence].
Qed.

Lemma selects_all {A} (g : RunRow -> tx Db A) f leb db :
  for_rows g (py_sorted leb (List.filter f (runs db))) db = for_rows g (selects f leb (length (py_sorted leb (List.filter f (runs db)))) db) db.
Proof. unfold selects. by rewrite take_ge. Qed.

Lemma expire_leases_step locked now ws db n db' :
  NoDup (run_id <$> runs db) -> expire_leases iso_ms locked now ws actor db = Ok (n, db') ->
  table_step (runs db) (runs db') /\ run_id <$> runs db' = run_id <$> runs db.
Proof.
  unfold expire_leases. intros Hnd (rows & db0 & [<- <-]%gets_ok & H)%tx_bind_ok.
  apply tx_bind_ok in H as (xs & db1 & H & [_ <-]%tx_ret_ok). rewrite selects_all in H. revert H.
  apply for_selected; [|exact Hnd]. intros row d a d' Hf. apply expire_turn.
  unfold lease_expired in Hf. by apply andb_true_iff in Hf as [[[Hs%bool_decide_eq_true _]%andb_true_iff _]%andb_true_iff _].
Qed.

Lemma task_terminal_step task task_status db xs db' :
  NoDup (run_id <$> runs db) -> on_task_terminal clock workspace actor revoke_leases post task task_status db = Ok (xs, db') ->
  table_step (runs db) (runs db') /\ run_id <$> runs db' = run_id <$> runs db.
Proof.
  unfold on_task_terminal. intros Hnd (rows & db0 & [<- <-]%gets_ok & H)%tx_bind_ok.
  apply tx_bind_ok in H as (closed & db1 & H & [_ <-]%tx_ret_ok). rewrite selects_all in H. revert H.
  apply for_selected; [|exact Hnd]. intros row d a d' _. apply close_turn.
Qed.

Lemma handle_timeouts_step db xs db' :
  NoDup (run_id <$> runs db) -> handle_timeouts clock workspace actor cancel_task db = Ok (xs, db') ->
  table_step (runs db) (runs db') /\ run_id <$> runs db' = run_id <$> runs db.
Proof.
  unfold handle_timeouts. intros Hnd (now & db1 & E%keeps_clock & H)%tx_bind_ok.
  apply tx_bind_ok in H as (rows & db0 & [<- <-]%gets_ok & H).
  apply tx_bind_ok in H as (asked & db2 & H & [_ <-]%tx_ret_ok). rewrite selects_all in H. rewrite <- E in Hnd |- *. revert H.
  apply for_selected; [|exact Hnd]. intros row d a d' _. apply time_out_turn.
Qed.

(** *** The claims of a tick *)

Lemma claim_one_ok runner now lease row db a db' :
  claim_one iso_ms runner now lease actor row db = Ok (a, db') ->
  (forall rid, rid <> row.(run_id) -> find_run rid (runs db') = find_run rid (runs db)) /\
  (forall f, a = Some f -> f.(run_id) = row.(run_id) /\ run_status f = CLAIMED /\ find_run f.(run_id) (runs db') = Some f).
Proof.
  unfold claim_one. intros (run & db0 & Hl & H)%tx_bind_ok. unfold load_run in Hl.
  destruct (find_run _ _) as [x|] eqn:Ef; [|done]. injection Hl as -> ->. pose proof (proj1 (find_run_id _ _ _ Ef)) as Hid.
  case_bool_decide; cbn [negb] in H; [|by apply tx_ret_ok in H as [<- <-]].
  apply tx_bind_ok in H as (r & db1 & [Hr _]%update_run_ok & H). apply tx_bind_ok in H as (? & db2 & E2%keeps_append & H).
  apply tx_bind_ok in H as (fresh & db3 & H3 & [<- <-]%tx_ret_ok). pose proof (keeps_load_run _ _ _ _ H3) as E3.
  rewrite E3, E2, Hr, Hid. split; [intros rid Hne; by apply find_update_other|]. intros f [= <-].
  unfold load_run in H3. rewrite E2, Hr, Hid, (find_update _ _ _ _ Ef) in H3. injection H3 as <- _.
  cbn [run_id with_cols]. rewrite Hid. split_and!; [done|done|by apply find_update].
Qed.

Lemma for_rows_length {A} (g : RunRow -> tx Db A) rows db xs db' : for_rows g rows db = Ok (xs, db') -> length xs = length rows.
Proof.
  revert db xs. induction rows as [|r rows IH]; intros db xs; cbn [for_rows]; [by intros [<- _]%tx_ret_ok|].
  intros (x & db1 & _ & H)%tx_bind_ok. apply tx_bind_ok in H as (ys & db2 & H & [<- <-]%tx_ret_ok).
  cbn. f_equal. by eapply IH.
Qed.

Lemma claims_ok runner now lease rows db xs db' :
  NoDup (run_id <$> rows) -> for_rows (claim_one iso_ms runner now lease actor) rows db = Ok (xs, db') ->
  NoDup (run_id <$> omap id xs) /\
  (forall f, f ∈ omap id xs -> f.(run_id) ∈ run_id <$> rows /\ run_status f = CLAIMED /\ find_run f.(run_id) (runs db') = Some f) /\
  (forall rid, rid ∉ run_id <$> rows -> find_run rid (runs db') = find_run rid (runs db)).
Proof.
  revert db xs. induction rows as [|row rows IH]; intros db xs Hnd; cbn [for_rows].
  { intros [<- <-]%tx_ret_ok. split_and!; [apply NoDup_nil_2|by intros f Hf%elem_of_nil|done]. }
  intros (a & db1 & [Hother Hclaim]%claim_one_ok & H)%tx_bind_ok. apply tx_bind_ok in H as (ys & db2 & H & [<- <-]%tx_ret_ok).
  cbn in Hnd. apply NoDup_cons in Hnd as [Hnew Hnd]. destruct (IH _ _ Hnd H) as (N & C & O).
  assert (forall rid, rid ∉ run_id <$> row :: rows -> find_run rid (runs db2) = find_run rid (runs db)) as Hrest.
  { intros rid [Hne Hin]%not_elem_of_cons. by rewrite O, Hother. }
  assert (forall f, f ∈ omap id ys -> run_id f ∈ run_id <$> row :: rows /\ run_status f = CLAIMED /\
    find_run (run_id f) (runs db2) = Some f) as Htail by (intros f (Hf & ? & ?)%C; split; [by right|done]).
  destruct a as [f|]; cbn; [|done]. destruct (Hclaim f eq_refl) as (Hid & Hs & Hf).
  split_and!; [|intros f' [->|Hf']%elem_of_cons; [|by apply Htail]|done].
  - apply NoDup_cons. split; [|done]. rewrite Hid. intros (g & Eg & Hg)%list_elem_of_fmap. apply Hnew. rewrite Eg. by apply C.
  - split_and!; [rewrite Hid; by left|done|]. rewrite O; [done|by rewrite Hid].
Qed.

Lemma claim_due_claims locked runner now lease limit db claimed db' :
  NoDup (run_id <$> runs db) -> claim_due iso_ms locked runner now workspace lease limit actor db = Ok (claimed, db') ->
  NoDup (run_id <$> claimed) /\ Forall (fun r => run_status r = CLAIMED /\ current r db') claimed /\ (length claimed <= limit)%nat.
Proof.
  unfold claim_due. intros Hnd (? & db1 & [_ I1]%mark_due_step & H)%tx_bind_ok; [|exact Hnd].
  apply tx_bind_ok in H as (rows & db2 & [<- <-]%gets_ok & H). apply tx_bind_ok in H as (xs & db2 & H2 & [<- <-]%tx_ret_ok).
  pose proof (for_rows_length _ _ _ _ _ H2) as Hlen. apply claims_ok in H2 as (N & C & _); [|by apply selects_nodup; rewrite I1].
  split_and!; [done| |].
  - apply Forall_forall. intros r (_ & Hs & Hf)%C. split; [done|]. exists r. split; [done|apply agrees_refl].
  - rewrite length_take in Hlen. enough (length (omap id xs) <= length xs)%nat by lia. clear.
    induction xs as [|[x|] xs IH]; cbn; lia.
Qed.

(** Executions of claimed Runs as they were claimed: meanwhile some may have been asked to cancel. *)
Lemma executions_step ids claimed db xs db' :
  agrees CANCEL_REQUESTED CLAIMED \/ (length claimed <= 1)%nat ->
  NoDup (run_id <$> runs db) -> NoDup (run_id <$> claimed) -> Forall (fun r => run_status r = CLAIMED /\ current r db) claimed ->
  for_rows (execute_claimed ids) claimed db = Ok (xs, db') ->
  table_step (runs db) (runs db') /\ run_id <$> runs db' = run_id <$> runs db.
Proof.
  revert db xs. induction claimed as [|run claimed IH]; intros db xs Hlate Hnd Hids Hall; cbn [for_rows].
  { intros [_ <-]%tx_ret_ok. split; [apply table_step_refl|done]. }
  intros (o & db1 & H1 & H)%tx_bind_ok. apply tx_bind_ok in H as (ys & db2 & H2 & [_ <-]%tx_ret_ok).
  apply Forall_cons in Hall as [[Hs Hc] Hall]. cbn in Hids. apply NoDup_cons in Hids as [Hnew Hids].
  unfold execute_claimed in H1. apply execute_step in H1 as (T & I & A); [|exact Hnd|exact Hc]. apply IH in H2 as [T2 I2]; [| |by rewrite I|done|].
  - split; [by eapply table_step_trans|congruence].
  - destruct Hlate as [?|Hlen]; [by left|right]. cbn in Hlen. lia.
  - destruct Hlate as [Hlate|Hlen]; [|destruct claimed; [done|cbn in Hlen; lia]].
    rewrite Forall_forall in Hall |- *. intros q Hq. destruct (Hall q Hq) as [Hsq Cq]. split; [done|].
    destruct (A q.(run_id)) as [E|(x & x' & Hx & Hx' & Hs')].
    + intros E. apply Hnew. rewrite <- E. by apply list_elem_of_fmap_2.
    + unfold current. by rewrite E.
    + exists x'. split; [done|]. by rewrite Hs', Hsq.
Qed.

Lemma perform_step op db u db' :
  agrees CANCEL_REQUESTED CLAIMED \/ crowded op = false ->
  NoDup (run_id <$> runs db) -> perform op db = Ok (u, db') ->
  table_step (runs db) (runs db') /\ run_id <$> runs db' = run_id <$> runs db.
Proof.
  intros Hlate Hnd. destruct op; intros (x & H)%discard_ok.
  - by eapply mark_due_step.
  - by eapply claim_due_step.
  - unfold heartbeat in H. apply tx_bind_ok in H as (f & db0 & [_ <-]%gets_ok & H).
    apply tx_bind_ok in H as (? & db1 & <-%modify_ok & [_ <-]%tx_ret_ok). apply beats_step.
  - by eapply expire_leases_step.
  - apply tx_bind_ok in H as (run & db0 & (-> & Hc & _)%load_current & H). by apply execute_step in H as (T & I & _).
  - apply tx_bind_ok in H as (run & db0 & (-> & Hc & _)%load_current & H). apply request_cancel_moved in H as [M Ho]; [|exact Hc].
    eapply turn_table; [exact Hnd|exact Hc|]. right. split; [by eexists|exact Ho].
  - apply tx_bind_ok in H as (run & db0 & (-> & Hc & _)%load_current & H). apply finish_cancel_moved in H as [M Ho]; [|exact Hc].
    eapply turn_table; [exact Hnd|exact Hc|]. right. split; [by eexists|exact Ho].
  - by eapply task_terminal_step.
  - by eapply handle_timeouts_step.
  - apply tx_bind_ok in H as (claimed & db1 & H1 & H). pose proof H1 as [T1 I1]%claim_due_step; [|done].
    apply claim_due_claims in H1 as (N & Hall & Hlen); [|done].
    apply executions_step in H as [T2 I2]; [|destruct Hlate as [?|E%Nat.ltb_ge]; [by left|right; lia]|by rewrite I1|done..].
    split; [by eapply table_step_trans|congruence].
Qed.

End moves.

Section contract.
Context {ES : Type} {ELI : EventLogI ES} {W Checked : Type} (clock : nat -> Z) (iso_ms : Z -> ustr) (workspace actor : string).
Context (check : RunRow -> ScheduleLike -> VersionRow -> tx (W * ES) (string * ustr + Checked)).
Context (create_task : RunRow -> ScheduleLike -> VersionRow -> Checked -> tx (W * ES) (string + Failure)).
Context (cancel_task : RunRow -> tx (W * ES) unit) (revoke_leases : RunRow -> W * ES -> W * ES).
Context (post : string -> RunRow -> VersionRow -> list (string * ustr) -> tx W (option string)) (draw : Q -> Q -> Z).

#[local] Notation Db := (RunStore.Db ES W).
#[local] Notation history := (history clock iso_ms workspace actor check create_task cancel_task revoke_leases post draw).
Implicit Types (db : Db) (run : RunRow) (v : VersionRow).

Lemma history_step st agrees {RD : Reading st agrees} ops db db' :
  agrees CANCEL_REQUESTED CLAIMED \/ existsb crowded ops = false ->
  history ops db db' -> NoDup (run_id <$> runs db) -> table_step st (runs db) (runs db') /\ NoDup (run_id <$> runs db').
Proof.
  intros Hlate H. induction H as [db|db db1 db2 op ops Hop _ IH|db db2 row ops _ Hnew _ IH]; intros Hnd.
  - split; [apply table_step_refl|done].
  - assert (agrees CANCEL_REQUESTED CLAIMED \/ crowded op = false) as Hl1
      by (destruct Hlate as [?|[? _]%orb_false_iff]; [by left|by right]).
    pose proof Hop as [T I]%(perform_step st agrees); [|exact Hl1|exact Hnd].
    destruct IH as [T2 N2]; [|by rewrite I|split; [by eapply table_step_trans|done]].
    destruct Hlate as [?|[_ ?]%orb_false_iff]; [by left|by right].
  - destruct IH as [T2 N2]; [done| |split; [|exact N2]].
    + cbn [runs with_runs]. rewrite fmap_app. apply NoDup_app. split_and!; [exact Hnd| |by apply NoDup_singleton].
      intros x Hx ->%list_elem_of_singleton. by destruct Hnew.
    + intros j x Hj. apply T2. cbn [runs with_runs]. by apply lookup_app_l_Some.
Qed.

(** C33. The contract of the Runs. Through any history of the transactions of the
    scheduler, its workers and its recovery (claims, heartbeats, expired leases,
    executions, cancellations, timeouts, ends of Tasks, and ticks that claim Runs and
    execute them as they were claimed), one after the other and with new Runs inserted
    pending or due in between, a Run keeps its identity, schedule, version, occurrence and
    place; what changes is reached along legal transitions of the contract from a status
    that had not ended; a Run that ended never changes again; and no Run is lost or
    duplicated. When a tick of the history may claim several Runs, one move more is
    possible: the executions of a tick do not read the Runs again, so a Run that an earlier
    execution of the same tick asked to cancel (REPLACE) leaves CANCEL_REQUESTED along the
    transitions of a claimed Run ([late_step], Example Sample.overtaken_run_is_skipped).
    Left out is a tick in which an execution raises: the tick goes on with what it had
    written. *)
Theorem runs_follow_contract ops db db' i r :
  history ops db db' -> NoDup (run_id <$> runs db) -> runs db !! i = Some r ->
  NoDup (run_id <$> runs db') /\
  exists r', runs db' !! i = Some r' /\
    (run_status r ∈ RUN_TERMINAL -> r' = r) /\
    (r' = r \/ exists s path, r' = with_now s r /\
       run_steps (if existsb crowded ops then late_step else step) (run_status r) path = Some (run_status r')).
Proof.
  intros H Hnd Hr.
  assert (table_step (if existsb crowded ops then late_step else step) (runs db) (runs db') /\ NoDup (run_id <$> runs db')) as [T N].
  { destruct (existsb crowded ops) eqn:E; [apply (history_step late_step overtaken ops)|apply (history_step step eq ops)];
      [left; by right|done..|by right|done|done]. }
  split; [exact N|]. destruct (T i r Hr) as (r' & Hr' & Hstep). exists r'. split; [exact Hr'|].
  destruct Hstep as [->|(Ho & s & path & -> & E)]; [by split; [|left]|].
  split; [by intros Ht; destruct Ho|]. right. by exists s, path.
Qed.

(** ** Overlap *)

(** The other Runs of the schedule that hold a claim, a Task or a cancellation in progress. *)
Definition active_other run db : list RunRow :=
  List.filter (fun r => negb (String.eqb r.(run_id) run.(run_id)))
    (py_sorted by_time (List.filter (fun r => String.eqb r.(run_schedule) run.(run_schedule) && mem (run_status r) ACTIVE) (runs db))).

Lemma active_other_elem run db r :
  r ∈ active_other run db <->
  r ∈ runs db /\ r.(run_id) <> run.(run_id) /\ r.(run_schedule) = run.(run_schedule) /\ run_status r ∈ ACTIVE.
Proof.
  clear check create_task cancel_task revoke_leases post draw.
  unfold active_other. rewrite list_elem_of_In, filter_In, <- list_elem_of_In, py_sorted_elem, list_elem_of_In, filter_In, <- list_elem_of_In.
  rewrite negb_true_iff, String.eqb_neq, andb_true_iff, String.eqb_eq, mem_spec. tauto.
Qed.

Lemma not_confirmed r now :
  r.(now_).(cancelled_at) = None -> mem (run_status r) [CANCELLED; TIMED_OUT] = false -> replace_confirmed r now <> Some true.
Proof.
  unfold replace_confirmed, run_status. intros -> ->. rewrite bool_decide_eq_false_2 by (intros H; by apply H). cbn. by case_match.
Qed.

(** Asking an active Run to cancel does not confirm it. *)
Lemma request_cancel_unconfirmed first reason db r db' now :
  NoDup (run_id <$> runs db) -> first ∈ runs db -> run_status first ∈ ACTIVE -> first.(now_).(cancelled_at) = None ->
  request_cancel clock workspace actor cancel_task first reason db = Ok (r, db') -> replace_confirmed r now <> Some true.
Proof.
  unfold request_cancel. intros Hnd Hin Ha Hn (target & db0 & [Ht <-]%lift_ok & H)%tx_bind_ok.
  apply tx_bind_ok in H as (t & db1 & E1%keeps_clock & H).
  assert (target = CANCEL_REQUESTED) as ->.
  { apply mem_spec in Ha. destruct (run_status first); try discriminate Ha; vm_compute in Ht; congruence. }
  rewrite bool_decide_eq_false_2 in H by done. apply tx_bind_ok in H as (r1 & db2 & H2 & H).
  apply tx_bind_ok in H as (ev & db3 & E3 & H). apply tx_bind_ok in H as (u & db4 & H4 & [<- <-]%tx_ret_ok).
  apply tx_bind_ok in H2 as (s & d & [_ <-]%lift_ok & [_ Hf]%update_run_ok).
  rewrite E1, (find_update _ _ _ _ (find_run_elem _ _ Hnd Hin)) in Hf. injection Hf as <-.
  by apply not_confirmed.
Qed.

Lemma concurrency_start run v now db db' :
  NoDup (run_id <$> runs db) -> Forall (fun r => run_status r ∈ ACTIVE -> r.(now_).(cancelled_at) = None) (runs db) ->
  _concurrency clock workspace actor cancel_task post run v now db = Ok (None, db') ->
  v.(concurrency_policy) = ALLOW_OVERLAP \/ active_other run db = [].
Proof.
  intros Hnd Hok. unfold _concurrency, active_runs. intros (active & db0 & [<- <-]%gets_ok & H)%tx_bind_ok.
  fold (active_other run db) in H. destruct (active_other run db) as [|first rest] eqn:E; [by right|left].
  assert (first ∈ active_other run db) as Hin by (rewrite E; left). apply active_other_elem in Hin as (Hin & _ & _ & Ha).
  rewrite Forall_forall in Hok. specialize (Hok first Hin Ha). case_bool_decide as Hp.
  - exfalso. apply tx_bind_ok in H as (previous & db1 & H1 & H).
    assert (replace_confirmed previous now <> Some true) as Hno.
    { revert H1. case_bool_decide; [|intros [<- _]%tx_ret_ok].
      - intros H1. by eapply request_cancel_unconfirmed.
      - apply not_confirmed; [done|]. apply mem_spec in Ha. by destruct (run_status first). }
    destruct (replace_confirmed previous now) as [[|]|]; [done| |]; cbn in H.
    + by apply tx_bind_ok in H as (o & db2 & _ & [? _]%tx_ret_ok).
    + by apply tx_bind_ok in H as (o & db2 & _ & [? _]%tx_ret_ok).
  - destruct (concurrency_policy v); [|done..]. cbn in H. by apply tx_bind_ok in H as (o & db2 & _ & [? _]%tx_ret_ok).
Qed.

Lemma skip_status run v code detail db o db' :
  _skip clock workspace actor post run v code detail db = Ok (o, db') -> o.(oc_status) = SKIPPED.
Proof.
  unfold _skip. intros H. do 5 (apply tx_bind_ok in H as (? & ? & _ & H)). by apply tx_ret_ok in H as [<- _].
Qed.

Lemma concurrency_outcome run v now db o db' :
  run_status run = CLAIMED -> _concurrency clock workspace actor cancel_task post run v now db = Ok (Some o, db') ->
  o.(oc_status) <> TASK_CREATED.
Proof.
  intros Hs. unfold _concurrency. intros (active & db0 & _ & H)%tx_bind_ok. destruct active as [|first rest].
  { by apply tx_ret_ok in H as [? _]. }
  assert (forall oc detail d, (o0 ← skip_for clock workspace actor post run v oc detail; mret (Some o0)) d = Ok (Some o, db') ->
    oc_status o <> TASK_CREATED) as Hskip.
  { intros oc detail d (o0 & d1 & (u & d2 & _ & E%skip_status)%tx_bind_ok & [[= <-] _]%tx_ret_ok)%tx_bind_ok. by rewrite E. }
  case_bool_decide.
  - apply tx_bind_ok in H as (previous & db1 & _ & H). destruct (co_decision _).
    + by apply tx_ret_ok in H as [? _].
    + by eapply Hskip.
    + apply tx_bind_ok in H as (r & db2 & _ & [[= <-] _]%tx_ret_ok). cbn. by rewrite Hs.
  - destruct (co_decision _); [by apply tx_ret_ok in H as [? _]|by eapply Hskip|by apply tx_ret_ok in H as [? _]].
Qed.

(** C34. No overlap. Unless its version allows overlapping Runs, a claimed Run gets its
    Task only when no other Run of its schedule is active: none is claimed, has its Task
    created, runs, verifies or waits for its cancellation. *)
Theorem no_overlap h1 h2 run db o db' :
  NoDup (run_id <$> runs db) -> Forall (fun r => run_status r ∈ ACTIVE -> r.(now_).(cancelled_at) = None) (runs db) ->
  execute clock workspace actor check create_task cancel_task post draw h1 h2 run db = Ok (o, db') ->
  o.(oc_status) = TASK_CREATED ->
  exists v, versions db !! run.(run_version) = Some v /\
    (v.(concurrency_policy) = ALLOW_OVERLAP \/
     forall r, r ∈ runs db -> r.(run_schedule) = run.(run_schedule) -> r.(run_id) <> run.(run_id) -> run_status r ∉ ACTIVE).
Proof.
  intros Hnd Hok. unfold execute. intros (u & db0 & [Hs <-]%guard_tx_ok & H)%tx_bind_ok Ho.
  apply bool_decide_eq_false, dec_stable in Hs.
  apply tx_bind_ok in H as (now & db1 & H1 & H). pose proof (keeps_clock clock _ _ _ H1) as E1.
  apply in_ledger_ok in H1 as (l & _ & ->).
  apply tx_bind_ok in H as (s & db2 & H2 & H). unfold load_schedule in H2. destruct (_ !! _); [|done]. injection H2 as <- <-.
  apply tx_bind_ok in H as (v & db3 & H3 & H). unfold load_version in H3. destruct (_ !! _) as [v'|] eqn:Ev; [|done]. injection H3 as <- <-.
  apply tx_bind_ok in H as (c & db4 & E4%keeps_outside & H).
  exists v'. split; [reflexivity|]. destruct c as [[code detail]|checked]; [apply skip_status in H; congruence|].
  apply tx_bind_ok in H as (reserved & db5 & E5%keeps_reserve & H).
  destruct (negb _); [apply skip_status in H; congruence|].
  apply tx_bind_ok in H as (waiting & db6 & H6 & H). destruct waiting as [o0|].
  { apply tx_ret_ok in H as [<- <-]. by apply concurrency_outcome in H6. }
  assert (runs db5 = runs db) as E by (rewrite E5, E4; exact E1).
  apply concurrency_start in H6 as [Hp|He]; [by left| |by rewrite E|by rewrite E]. right. intros r Hr Hsch Hid Hact.
  assert (r ∈ active_other run db5) as Hin by (apply active_other_elem; by rewrite E). rewrite He in Hin. by apply elem_of_nil in Hin.
Qed.

End contract.

(** * A small history *)

Module Sample.

#[local] Existing Instance Budget.Sample.log.
#[local] Notation Db := (RunStore.Db (list Event) unit).

Definition with_status (s : RunStatus) (r : RunRow) : RunRow := with_cols [CStatus s] r.

(** The claimed Run of [RunBudget.Sample] with the schedule it belongs to. *)
Definition start : Db := {|
  runs := [RunBudget.Sample.run]; attempts := []; retries := []; run_budgets := []; alerts := []; next_alert := 1;
  outbox := []; notices := []; schedules := {["sch-1" := {| s_id := "sch-1"; s_enabled := true |}]};
  versions := {["v-1" := RunBudget.Sample.version]}; ledger := Budget.Sample.start; world := tt |}.

(** Commands that accept everything, bots that are not linked. *)
Definition check (run : RunRow) (s : ScheduleLike) (v : VersionRow) : tx (unit * list Event) (string * ustr + unit) := mret (inr tt).
Definition create_task (run : RunRow) (s : ScheduleLike) (v : VersionRow) (c : unit) : tx (unit * list Event) (string + Failure) :=
  mret (inl "task-1").
Definition cancel_task (run : RunRow) : tx (unit * list Event) unit := mret tt.
Definition revoke (run : RunRow) (w : unit * list Event) : unit * list Event := w.
Definition post (kind : string) (run : RunRow) (v : VersionRow) (fields : list (string * ustr)) : tx unit (option string) := mret None.
Definition draw (a b : Q) : Z := 0.
Definition iso (t : Z) : ustr := [].

#[local] Notation execute_ :=
  (execute Budget.Sample.clock "ws" "acct" check create_task cancel_task post draw "a" "b" RunBudget.Sample.run).

#[local] Notation perform_ :=
  (perform Budget.Sample.clock iso "ws" "acct" check create_task cancel_task revoke post draw).

#[local] Notation history_ :=
  (history Budget.Sample.clock iso "ws" "acct" check create_task cancel_task revoke post draw).

Definition after (r : res (unit * Db)) : Db := match r with Ok (_, db) => db | Err _ => start end.
Definition running : Db := Eval vm_compute in after (perform_ (ExecuteRun "a" "b" "run-1") start).
Definition ended : Db := Eval vm_compute in after (perform_ (TaskTerminal "task-1" "COMPLETED") running).

Lemma running_ok : perform_ (ExecuteRun "a" "b" "run-1") start = Ok (tt, running).
Proof. vm_cast_no_check (@eq_refl (res (unit * Db)) (Ok (tt, running))). Qed.
Lemma ended_ok : perform_ (TaskTerminal "task-1" "COMPLETED") running = Ok (tt, ended).
Proof. vm_cast_no_check (@eq_refl (res (unit * Db)) (Ok (tt, ended))). Qed.

Definition started_run : RunOutcome := Eval vm_compute in
  match execute_ start with Ok (o, _) => o | Err _ => {| oc_run := EmptyString; oc_status := PENDING; oc_error := None;
    oc_task := None; oc_attempt := 0; oc_event := None; deferred := false; retry_at := None; oc_detail := [] |} end.
Definition started_db : Db := Eval vm_compute in match execute_ start with Ok (_, db) => db | Err _ => start end.
Lemma started_ok : execute_ start = Ok (started_run, started_db).
Proof. vm_cast_no_check (@eq_refl (res (RunOutcome * Db)) (Ok (started_run, started_db))). Qed.
Lemma started_status : oc_status started_run = TASK_CREATED.
Proof. vm_cast_no_check (@eq_refl RunStatus TASK_CREATED). Qed.

(** The statuses along the history, as the kernel evaluates it. *)
Example statuses : (run_status <$> runs running, run_status <$> runs ended) = ([TASK_CREATED], [SUCCEEDED]).
Proof. vm_compute. reflexivity. Qed.

Lemma start_nodup : NoDup (run_id <$> runs start).
Proof. by apply NoDup_singleton. Qed.

Lemma start_run : runs start !! 0%nat = Some RunBudget.Sample.run.
Proof. reflexivity. Qed.
Lemma start_unconfirmed : Forall (fun r => run_status r ∈ ACTIVE -> r.(now_).(cancelled_at) = None) (runs start).
Proof. by apply Forall_singleton. Qed.
Lemma history_ok : history_ [ExecuteRun "a" "b" "run-1"; TaskTerminal "task-1" "COMPLETED"] start ended.
Proof. do 2 (eapply Hist_op; [first [exact running_ok|exact ended_ok]|]). apply Hist_nil. Qed.

(** *** An overtaken Run *)

(** Two due Runs of a schedule that replaces; the policy check refuses the second. *)
Definition due_run (rid : string) (t : Z) : RunRow := {|
  run_id := rid; run_workspace := "ws"; run_schedule := "sch-1"; run_version := "v-1"; run_kind := MANUAL;
  occurrence_key := None; scheduled_for := t; retry_of_run_id := None; run_key := rid; run_created_at := 0;
  now_ := set_col RunBudget.Sample.run.(now_) (CStatus DUE) |}.

Definition replaces : VersionRow := {|
  v_id := "v-1"; v_schedule := "sch-1"; v_channel := "ch"; concurrency_policy := REPLACE; max_duration_seconds := 3600;
  retry_policy := default_retry_policy; estimate_units := None; per_run_units := None; daily_units := None |}.

Definition two_due : Db := {|
  runs := [due_run "run-1" 0; due_run "run-2" 1]; attempts := []; retries := []; run_budgets := []; alerts := []; next_alert := 1;
  outbox := []; notices := []; schedules := {["sch-1" := {| s_id := "sch-1"; s_enabled := true |}]};
  versions := {["v-1" := replaces]}; ledger := Budget.Sample.start; world := tt |}.

Definition check_first (run : RunRow) (s : ScheduleLike) (v : VersionRow) : tx (unit * list Event) (string * ustr + unit) :=
  mret (if String.eqb run.(run_id) "run-2" then inl ("POLICY_DENIED", []) else inr tt).

Definition one_tick : tx Db unit :=
  perform Budget.Sample.clock iso "ws" "acct" check_first create_task cancel_task revoke post draw
    (Tick [] "runner" 10 60 10 (fun _ => ("a", "b"))).

(** The execution of [run-1] asks [run-2] to cancel and waits; that of [run-2], which the
    tick still holds as claimed, then writes SKIPPED over CANCEL_REQUESTED. *)
Example overtaken_run_is_skipped :
  match one_tick two_due with
  | Ok (_, db) => (run_status <$> runs db, run_transition CANCEL_REQUESTED SKIPPED,
                   HashChain.event_type <$> List.filter (fun e => bool_decide (HashChain.aggregate_id e = lit "run-2")) db.(ledger).(store))
                  = ([CLAIMED; SKIPPED], Err "RUN_TRANSITION_INVALID",
                     lit <$> ["RUN_CLAIMED"; "RUN_CANCEL_REQUESTED"; "RUN_SKIPPED"])
  | Err _ => False
  end.
Proof. vm_compute. reflexivity. Qed.

End Sample.

Lemma runs_follow_contract_witness : exists r', runs Sample.ended !! 0%nat = Some r' /\ r'.(run_id) = "run-1".
Proof.
  destruct (runs_follow_contract _ _ _ _ _ _ _ _ _ _ _ _ _ _ _ Sample.history_ok Sample.start_nodup Sample.start_run)
    as [_ (r' & Hr & _ & Hd)].
  exists r'. split; [exact Hr|]. destruct Hd as [E|(s & path & E & _)]; rewrite E; reflexivity.
Defined.

Lemma no_overlap_witness :
  exists v, versions Sample.start !! "v-1" = Some v /\
    (v.(concurrency_policy) = ALLOW_OVERLAP \/
     forall r, r ∈ runs Sample.start -> r.(run_schedule) = "sch-1" -> r.(run_id) <> "run-1" -> run_status r ∉ ACTIVE).
Proof.
  exact (no_overlap _ _ _ _ _ _ _ _ _ _ _ _ _ _ Sample.start_nodup Sample.start_unconfirmed
    Sample.started_ok Sample.started_status).
Defined.
