(* ===== verification/Cron.v ===== *)
(** The cron grammar and the occurrences of a Schedule
    ([server/schedules/cron.py], [server/schedules/occurrence.py]). A [date] is
    its day number from 1970-01-01, a naive wall-clock time its microseconds on
    the same scale. The time-zone database and SHA-256 are parameters; text is
    ASCII. *)

From S2P Require Import Prelude Defaults Canonical.
Open Scope Z_scope.

(** * Calendar ([datetime.date]) *)

(** Year, month and day of the proleptic Gregorian calendar. *)
Definition civil (d : Z) : Z * Z * Z :=
  let z := d + 719468 in
  let era := z / 146097 in
  let doe := z mod 146097 in
  let yoe := (doe - doe / 1460 + doe / 36524 - doe / 146096) / 365 in
  let doy := doe - (365 * yoe + yoe / 4 - yoe / 100) in
  let mp := (5 * doy + 2) / 153 in
  let day := doy - (153 * mp + 2) / 5 + 1 in
  let month := if mp <? 10 then mp + 3 else mp - 9 in
  ((if month <=? 2 then yoe + era * 400 + 1 else yoe + era * 400), month, day).

(** [date.weekday()]: Monday is 0. *)
Definition weekday (d : Z) : Z := (d + 3) mod 7.

Definition day_us : Z := minutes 1440.

Example civil_examples :
  civil <$> [0; 11016; 19723; 19782; 19783; 29949; -1] =
  [(1970, 1, 1); (2000, 2, 29); (2024, 1, 1); (2024, 2, 29); (2024, 3, 1); (2051, 12, 31); (1969, 12, 31)] /\
  weekday 19723 = 0.
Proof. vm_compute. done. Qed.

(** * Grammar *)

Definition MINUTE : string * Z * Z := ("minute", 0, 59).
Definition HOUR : string * Z * Z := ("hour", 0, 23).
Definition DAY_OF_MONTH : string * Z * Z := ("day_of_month", 1, 31).
Definition MONTH : string * Z * Z := ("month", 1, 12).
Definition DAY_OF_WEEK : string * Z * Z := ("day_of_week", 0, 6).

Definition FIELDS : list (string * Z * Z) := [MINUTE; HOUR; DAY_OF_MONTH; MONTH; DAY_OF_WEEK].

Definition _EXTENDED (c : ascii) : bool := str_in c "?LW#".

(** [_NUMBER.match] *)
Definition is_number (s : string) : bool := negb (String.eqb s "") && str_forallb is_digit s.

Definition int_of (s : string) : Z := digits_value 0 s.

(** [range(start, stop, step)] for a positive step. *)
Definition py_range (start stop step : Z) : list Z :=
  (fun i => start + Z.of_nat i * step) <$> seq 0 (Z.to_nat ((stop - start + step - 1) / step)).

Definition check_value (name : string) (low high value : Z) : res unit :=
  if String.eqb name "day_of_week" && (value =? 7) then Err "CRON_DOW7_REJECTED"
  else if (value <? low) || (high <? value) then Err "CRON_RANGE_INVALID"
  else Ok tt.

(** The base and the step of a list item. *)
Definition parse_step (part : string) : res (string * Z) :=
  if str_in "/"%char part then
    let '(base, _, step_text) := str_partition "/"%char part in
    if negb (is_number step_text) || (int_of step_text <? 1) then Err "CRON_STEP_INVALID"
    else if negb (String.eqb base "*") && negb (str_in "-"%char base) then Err "CRON_STEP_INVALID"
    else Ok (base, int_of step_text)
  else Ok (part, 1).

Definition parse_base (base : string) (low high : Z) : res (Z * Z) :=
  if String.eqb base "*" then Ok (low, high)
  else if str_in "-"%char base then
    let '(a, _, b) := str_partition "-"%char base in
    if negb (is_number a && is_number b) then Err "CRON_TOKEN_INVALID"
    else if int_of b <? int_of a then Err "CRON_RANGE_INVALID"
    else Ok (int_of a, int_of b)
  else if negb (is_number base) then Err "CRON_TOKEN_INVALID"
  else Ok (int_of base, int_of base).

Definition parse_part (name : string) (low high : Z) (part : string) : res (list Z) :=
  if String.eqb part "" then Err "CRON_TOKEN_INVALID"
  else
    '(base, step) ← parse_step part;
    '(start, stop) ← parse_base base low high;
    check_value name low high start ≫= fun _ =>
    check_value name low high stop ≫= fun _ =>
    Ok (py_range start (stop + 1) step).

Fixpoint parse_parts (name : string) (low high : Z) (parts : list string) (values : gset Z) : res (gset Z) :=
  match parts with
  | [] => Ok values
  | part :: parts =>
      vs ← parse_part name low high part;
      parse_parts name low high parts (values ∪ list_to_set vs)
  end.

(** The values of a field and whether it is restricted. *)
Definition _parse_field (field_text : string) (field : string * Z * Z) : res (gset Z * bool) :=
  let '(name, low, high) := field in
  if String.eqb field_text "" then Err "CRON_TOKEN_INVALID"
  else if str_existsb _EXTENDED field_text then Err "CRON_EXTENDED_TOKEN_REJECTED"
  else if str_existsb is_alpha field_text then Err "CRON_NAME_REJECTED"
  else if String.eqb field_text "*" then Ok (list_to_set (py_range low (high + 1) 1), false)
  else values ← parse_parts name low high (str_split ","%char field_text) ∅; Ok (values, true).

Record CronExpression := {
  expression : string;
  c_minutes : gset Z;
  c_hours : gset Z;
  days_of_month : gset Z;
  months : gset Z;
  days_of_week : gset Z;
  dom_restricted : bool;
  dow_restricted : bool }.

Definition parse (text : string) : res CronExpression :=
  let text := str_strip text in
  if starts_with "@" text then Err "CRON_ALIAS_REJECTED"
  else match str_words text with
  | [t1; t2; t3; t4; t5] =>
      f1 ← _parse_field t1 MINUTE;
      f2 ← _parse_field t2 HOUR;
      f3 ← _parse_field t3 DAY_OF_MONTH;
      f4 ← _parse_field t4 MONTH;
      f5 ← _parse_field t5 DAY_OF_WEEK;
      Ok {| expression := string_join " " [t1; t2; t3; t4; t5];
            c_minutes := f1.1; c_hours := f2.1; days_of_month := f3.1; months := f4.1; days_of_week := f5.1;
            dom_restricted := f3.2; dow_restricted := f5.2 |}
  | [_; _; _; _; _; _] => Err "CRON_SECONDS_REJECTED"
  | _ => Err "CRON_FIELD_COUNT"
  end.

(** * Matching *)

Definition day_matches (c : CronExpression) (day : Z) : bool :=
  let '(_, month, dom) := civil day in
  if negb (bool_decide (month ∈ c.(months))) then false
  else
    let dom_ok := bool_decide (dom ∈ c.(days_of_month)) in
    let dow_ok := bool_decide ((weekday day + 1) mod 7 ∈ c.(days_of_week)) in
    if c.(dom_restricted) && c.(dow_restricted) then dom_ok || dow_ok
    else if c.(dom_restricted) then dom_ok
    else if c.(dow_restricted) then dow_ok
    else true.

(** The day and the minute of the day of a wall-clock minute. *)
Definition minute_us : Z := minutes 1.
Definition day_of (local : Z) : Z := local / day_us.
Definition tod_of (local : Z) : Z := (local mod day_us) / minute_us.

Definition matches (c : CronExpression) (local : Z) : bool :=
  bool_decide (tod_of local mod 60 ∈ c.(c_minutes)) &&
  bool_decide (tod_of local / 60 ∈ c.(c_hours)) &&
  day_matches c (day_of local).

Definition times_of_day (c : CronExpression) : list Z :=
  py_sorted Z.leb (h ← elements c.(c_hours); m ← elements c.(c_minutes); [h * 60 + m]).

(** [min(b - a for a, b in pairwise(times))] from [best]. *)
Fixpoint pairwise_min (best : Z) (times : list Z) : Z :=
  match times with
  | a :: ((b :: _) as rest) => pairwise_min (Z.min best (b - a)) rest
  | _ => best
  end.

(** The days left, the day, the last matching day so far, the best gap. *)
Fixpoint scan_days (c : CronExpression) (first last : Z) (fuel : nat) (day : Z) (previous : option Z) (best : Z)
    : option Z * Z :=
  match fuel with
  | O => (previous, best)
  | S fuel =>
      if day_matches c day then
        match previous with
        | Some p =>
            let best := Z.min best ((day - p) * 1440 - last + first) in
            if best <=? 1 then (previous, best)
            else scan_days c first last fuel (day + 1) (Some day) best
        | None => scan_days c first last fuel (day + 1) (Some day) best
        end
      else scan_days c first last fuel (day + 1) previous best
  end.

(** 2024-01-01 and the number of days to 2051-12-31. *)
Definition WINDOW_START : Z := 19723.
Definition WINDOW_DAYS : nat := Z.to_nat 10227.

Definition min_interval_minutes (c : CronExpression) : res Z :=
  match times_of_day c with
  | [] => Err "IndexError"
  | (first :: _) as times =>
      let best := pairwise_min 1000000000 times in
      let '(previous, best) := scan_days c first (List.last times 0) WINDOW_DAYS WINDOW_START None best in
      match previous with None => Err "CRON_UNREACHABLE" | Some _ => Ok best end
  end.

Definition validate (text : string) (min_interval : Z) : res CronExpression :=
  guard_err (min_interval <? SCHEDULE_MIN_INTERVAL_MINUTES_FLOOR) "CRON_INTERVAL_FLOOR" (
  c ← parse text;
  interval ← min_interval_minutes c;
  guard_err (interval <? min_interval) "CRON_INTERVAL_TOO_SHORT" (Ok c)).

Definition error_of {A} (r : res A) : string := match r with Ok _ => "ok" | Err e => e end.

Example parse_errors :
  (fun t => error_of (parse t)) <$>
    ["*/5 * * * *"; "@daily"; "0 0 * * 7"; "0 0 1 * * *"; "0 0 L * *"; "0 0 * JAN *"; "5-1 * * * *"; "60 * * * *";
     "1/5 * * * *"; "1,,2 * * * *"; "* * * *"; "*/0 * * * *"] =
  ["ok"; "CRON_ALIAS_REJECTED"; "CRON_DOW7_REJECTED"; "CRON_SECONDS_REJECTED"; "CRON_EXTENDED_TOKEN_REJECTED";
   "CRON_NAME_REJECTED"; "CRON_RANGE_INVALID"; "CRON_RANGE_INVALID"; "CRON_STEP_INVALID"; "CRON_TOKEN_INVALID";
   "CRON_FIELD_COUNT"; "CRON_STEP_INVALID"].
Proof. vm_compute. reflexivity. Qed.

Example validate_examples :
  (fun '(t, m) => error_of (validate t m)) <$>
    [("* * * * *", 1); ("0,1 * * * *", 5); ("* * * * *", 0)] =
  ["ok"; "CRON_INTERVAL_TOO_SHORT"; "CRON_INTERVAL_FLOOR"].
Proof. vm_compute. reflexivity. Qed.

(** * Occurrences *)

(** A time zone as [zoneinfo] presents it: the wall clock at an instant, and the
    instant of a wall-clock time for a [fold]. *)
Record ZoneInfo := {
  to_local : Z -> Z;
  to_utc : bool -> Z -> Z }.

(** [None] is a wall-clock minute that does not exist; the flag tells one that
    occurs twice. *)
Definition resolve_local (local : Z) (zone : ZoneInfo) : option Z * option string :=
  let utc0 := zone.(to_utc) false local in
  if negb (zone.(to_local) utc0 =? local) then (None, Some "DST_GAP")
  else
    let utc1 := zone.(to_utc) true local in
    if negb (utc1 =? utc0) then (Some (Z.min utc0 utc1), Some "DST_FOLD") else (Some utc0, None).

(** [f"{n:0wd}"] *)
Definition padded (w : nat) (n : Z) : ustr :=
  let s := str_int n in replicate (w - length s) 48%N ++ s.

(** [local.strftime("%Y-%m-%dT%H:%M")] *)
Definition wall_minute (local : Z) : ustr :=
  let '(y, m, d) := civil (day_of local) in
  padded 4 y ++ lit "-" ++ padded 2 m ++ lit "-" ++ padded 2 d ++ lit "T" ++
  padded 2 (tod_of local / 60) ++ lit ":" ++ padded 2 (tod_of local mod 60).

Section occurrences.
Context (sha256_hex : list N -> ustr) (tzdata : string -> option ZoneInfo).

Definition occurrence_key (schedule_id timezone : string) (local : Z) : ustr :=
  sha256_hex (concat (utf8_char <$>
    (lit schedule_id ++ lit "|" ++ lit timezone ++ lit "|" ++ wall_minute local))).

Definition load_zone (timezone : string) : res ZoneInfo :=
  if String.eqb timezone "" || negb (String.eqb timezone (str_strip timezone)) || str_in "\"%char timezone
  then Err "TIMEZONE_INVALID"
  else match tzdata timezone with Some z => Ok z | None => Err "TIMEZONE_INVALID" end.

Record Occurrence := {
  o_local : Z;
  o_utc : option Z;
  o_key : ustr;
  o_reason : option string }.

Definition executable (o : Occurrence) : bool := match o.(o_utc) with Some _ => true | None => false end.

(** The query of one call of [next_occurrences]. *)
Record Query := {
  q_cron : CronExpression;
  q_timezone : string;
  q_zone : ZoneInfo;
  q_after : Z;
  q_count : Z;
  q_schedule_id : string;
  q_include_gaps : bool }.

Definition start_local (q : Query) : Z :=
  let l := q.(q_zone).(to_local) q.(q_after) in l - l mod minute_us + minute_us.

(** The times of one day: the entries and the number of executable ones so far. *)
Fixpoint day_loop (q : Query) (day : Z) (times : list Z) (done_ : Z) : list Occurrence * Z :=
  match times with
  | [] => ([], done_)
  | tod :: times =>
      let local := day * day_us + tod * minute_us in
      if local <? start_local q then day_loop q day times done_
      else
        let '(utc, reason) := resolve_local local q.(q_zone) in
        let entry := {| o_local := local; o_utc := utc;
          o_key := occurrence_key q.(q_schedule_id) q.(q_timezone) local; o_reason := reason |} in
        match utc with
        | None =>
            let '(out, n) := day_loop q day times done_ in
            (if q.(q_include_gaps) then entry :: out else out, n)
        | Some u =>
            if u <=? q.(q_after) then day_loop q day times done_
            else if q.(q_count) <=? done_ + 1 then ([entry], done_ + 1)
            else let '(out, n) := day_loop q day times (done_ + 1) in (entry :: out, n)
        end
  end.

Fixpoint days_loop (q : Query) (fuel : nat) (day done_ : Z) : list Occurrence :=
  match fuel with
  | O => []
  | S fuel =>
      if q.(q_count) <=? done_ then []
      else
        let '(out, n) :=
          if day_matches q.(q_cron) day then day_loop q day (times_of_day q.(q_cron)) done_ else ([], done_) in
        out ++ days_loop q fuel (day + 1) n
  end.

(** The days of the horizon, both ends included. *)
Definition PREVIEW_HORIZON_DAYS : Z := 366 * 5.
Definition horizon_fuel : nat := Z.to_nat (PREVIEW_HORIZON_DAYS + 1).

Definition run_query (q : Query) : list Occurrence :=
  days_loop q horizon_fuel (day_of (start_local q)) 0.

Definition next_occurrences (cron : CronExpression) (timezone : string) (after count : Z) (schedule_id : string)
    (include_gaps : bool) : res (list Occurrence) :=
  zone ← load_zone timezone;
  Ok (run_query {| q_cron := cron; q_timezone := timezone; q_zone := zone; q_after := after;
    q_count := count; q_schedule_id := schedule_id; q_include_gaps := include_gaps |}).

End occurrences.

(** ** Idempotency keys of Runs *)

Definition key_part (s : string) : bool := negb (String.eqb s "") && negb (str_in ":"%char s).

Definition manual_idempotency_key (schedule_id requester client : string) : res ustr :=
  guard_err (negb (key_part schedule_id && key_part requester && key_part client)) "ValueError"
    (Ok (lit "MANUAL:" ++ lit schedule_id ++ lit ":" ++ lit requester ++ lit ":" ++ lit client)).

Definition retry_idempotency_key (original_run_id : string) (retry_no : Z) : res ustr :=
  guard_err (negb (key_part original_run_id) || (retry_no <? 1)) "ValueError"
    (Ok (lit "RETRY:" ++ lit original_run_id ++ lit ":" ++ str_int retry_no)).

Definition scheduled_idempotency_key (schedule_id : string) (key : ustr) : ustr :=
  lit "SCHEDULED:" ++ lit schedule_id ++ lit ":" ++ key.

(** * Lemmas *)

(** ** Grammar *)

Lemma py_range_spec start stop step x :
  0 < step -> (x ∈ py_range start stop step <-> exists i, 0 <= i /\ x = start + i * step /\ x < stop).
Proof.
  intros Hs. unfold py_range. rewrite list_elem_of_fmap. split.
  - intros (i & -> & Hi%elem_of_seq). exists (Z.of_nat i). split_and!; [lia|lia|].
    assert (Z.of_nat i < (stop - start + step - 1) / step) as H by lia.
    assert (Z.of_nat i + 1 <= (stop - start + step - 1) / step) as H1 by lia.
    pose proof (Z.mul_div_le (stop - start + step - 1) step Hs). nia.
  - intros (i & Hi & -> & Hlt). exists (Z.to_nat i). split; [lia|]. apply elem_of_seq.
    assert (i + 1 <= (stop - start + step - 1) / step) as H by (apply Z.div_le_lower_bound; nia). lia.
Qed.

(** The values of a field of bounds [low] and [high]. *)
Definition field_ok (low high : Z) (s : gset Z) : Prop := s ≠ ∅ /\ forall x, x ∈ s -> low <= x <= high.

Lemma check_value_ok name low high v : check_value name low high v = Ok tt -> low <= v <= high.
Proof.
  unfold check_value. destruct (_ && _); [done|]. destruct (Z.ltb_spec v low); [done|].
  destruct (Z.ltb_spec high v); [done|]. lia.
Qed.

Lemma parse_step_pos part base step : parse_step part = Ok (base, step) -> 1 <= step.
Proof.
  unfold parse_step. destruct (str_in "/"%char part); [|intros [= <- <-]; lia].
  destruct (str_partition _ _) as [[b f] st]. destruct (negb (is_number st)); [done|]. cbn [orb].
  destruct (Z.ltb_spec (int_of st) 1); [done|]. destruct (_ && _); [done|]. by intros [= <- <-].
Qed.

Lemma parse_base_le base low high a b : low <= high -> parse_base base low high = Ok (a, b) -> a <= b.
Proof.
  intros Hle. unfold parse_base. destruct (String.eqb base "*"); [intros [= <- <-]; lia|].
  destruct (str_in _ _).
  - destruct (str_partition _ _) as [[x f] y]. destruct (negb _); [done|].
    destruct (Z.ltb_spec (int_of y) (int_of x)); [done|]. by intros [= <- <-].
  - destruct (negb _); [done|]. intros [= <- <-]. lia.
Qed.

Lemma parse_part_ok name low high part vs :
  low <= high -> parse_part name low high part = Ok vs ->
  vs <> [] /\ Forall (fun x => low <= x <= high) vs.
Proof.
  intros Hle. unfold parse_part. destruct (String.eqb part ""); [done|].
  intros ([base step] & Hs%parse_step_pos & H)%res_bind_ok.
  apply res_bind_ok in H as ([a b] & Hb & H). pose proof (parse_base_le _ _ _ _ _ Hle Hb) as Hab.
  apply res_bind_ok in H as ([] & Ha%check_value_ok & H).
  apply res_bind_ok in H as ([] & Hb2%check_value_ok & H). injection H as <-. split.
  - intros E. assert (a ∈ py_range a (b + 1) step) as Hin
      by (apply py_range_spec; [lia|]; exists 0; lia). rewrite E in Hin. by apply elem_of_nil in Hin.
  - apply Forall_forall. intros x Hx%py_range_spec; [|lia]. destruct Hx as (i & Hi & -> & Hx). nia.
Qed.

Lemma parse_parts_ok name low high parts vs0 vs :
  low <= high -> parse_parts name low high parts vs0 = Ok vs ->
  (forall x, x ∈ vs0 -> low <= x <= high) -> (parts <> [] \/ vs0 ≠ ∅) -> field_ok low high vs.
Proof.
  intros Hle. revert vs0. induction parts as [|part parts IH]; intros vs0; cbn.
  { intros [= <-] H [?|?]; [done|by split]. }
  intros (l & Hpart & Hf)%res_bind_ok Hin0 _. apply parse_part_ok in Hpart as [Hne Hl]; [|done].
  rewrite Forall_forall in Hl. apply (IH _ Hf).
  - intros x [Hx|Hx%elem_of_list_to_set]%elem_of_union; auto.
  - right. destruct l as [|a l]; [done|]. set_solver.
Qed.

Lemma str_split_nonempty c s : str_split c s <> [].
Proof. destruct s; cbn; [done|]. destruct (Ascii.eqb _ _); [done|]. by destruct (str_split c s). Qed.

Lemma parse_field_ok text name low high s r :
  low <= high -> _parse_field text (name, low, high) = Ok (s, r) -> field_ok low high s.
Proof.
  intros Hle. unfold _parse_field. destruct (String.eqb text ""); [done|].
  destruct (str_existsb _EXTENDED text); [done|]. destruct (str_existsb is_alpha text); [done|].
  destruct (String.eqb text "*").
  - intros [= <- _]. split.
    + intros E. assert (low ∈ py_range low (high + 1) 1) as H by (apply py_range_spec; [lia|]; exists 0; lia).
      set_solver.
    + intros x (i & Hi & -> & Hx)%elem_of_list_to_set%py_range_spec; lia.
  - intros (vs & H & [= -> _])%res_bind_ok. apply (parse_parts_ok _ _ _ _ _ _ Hle H).
    + intros x []%not_elem_of_empty.
    + left. apply str_split_nonempty.
Qed.

(** A parsed expression. *)
Record cron_ok (c : CronExpression) : Prop := {
  co_minutes : field_ok 0 59 c.(c_minutes);
  co_hours : field_ok 0 23 c.(c_hours);
  co_days : field_ok 1 31 c.(days_of_month);
  co_months : field_ok 1 12 c.(months);
  co_weekdays : field_ok 0 6 c.(days_of_week) }.

Lemma parse_ok text c : parse text = Ok c -> cron_ok c.
Proof.
  unfold parse. cbn zeta. destruct (starts_with "@" _); [done|].
  destruct (str_words _) as [|t1 [|t2 [|t3 [|t4 [|t5 [|t6 [|t7 ts]]]]]]]; try done.
  intros ([s1 r1] & H1%parse_field_ok & H)%res_bind_ok; [|lia].
  apply res_bind_ok in H as ([s2 r2] & H2%parse_field_ok & H); [|lia].
  apply res_bind_ok in H as ([s3 r3] & H3%parse_field_ok & H); [|lia].
  apply res_bind_ok in H as ([s4 r4] & H4%parse_field_ok & H); [|lia].
  apply res_bind_ok in H as ([s5 r5] & H5%parse_field_ok & H); [|lia].
  injection H as <-. by split.
Qed.

(** ** The interval of an expression *)

Definition wall (day tod : Z) : Z := day * day_us + tod * minute_us.

Lemma times_elem c x :
  x ∈ times_of_day c <-> exists h m, h ∈ c.(c_hours) /\ m ∈ c.(c_minutes) /\ x = h * 60 + m.
Proof.
  unfold times_of_day. rewrite py_sorted_elem. rewrite list_elem_of_bind. split.
  - intros (h & Hx & Hh%elem_of_elements). apply list_elem_of_bind in Hx as (m & Hx & Hm%elem_of_elements).
    apply list_elem_of_singleton in Hx. eauto.
  - intros (h & m & Hh & Hm & ->). exists h. rewrite elem_of_elements. split; [|done].
    apply list_elem_of_bind. exists m. rewrite elem_of_elements. split; [|done]. by apply list_elem_of_singleton.
Qed.

Lemma times_sorted c : StronglySorted Z.le (times_of_day c).
Proof.
  assert (StronglySorted (fun x y => Z.leb x y = true) (times_of_day c)) as H.
  { unfold times_of_day. apply py_sorted_sorted; intros *; rewrite ?Z.leb_gt, ?Z.leb_le; lia. }
  induction H as [|x l Hs IH Hx]; constructor; [done|]. eapply Forall_impl; [exact Hx|]. intros y. apply Z.leb_le.
Qed.

Lemma tod_range c x : cron_ok c -> x ∈ times_of_day c -> 0 <= x < 1440.
Proof.
  intros [[_ Hm] [_ Hh] _ _ _] (h & m & Hh1%Hh & Hm1%Hm & ->)%times_elem. lia.
Qed.

Lemma day_of_wall d t : 0 <= t < 1440 -> day_of (wall d t) = d.
Proof.
  intros H. unfold day_of, wall, day_us, minute_us, minutes, seconds.
  symmetry. apply (Z.div_unique_pos _ _ _ (t * (60 * 1 * 1000000))); lia.
Qed.

Lemma tod_of_wall d t : 0 <= t < 1440 -> tod_of (wall d t) = t.
Proof.
  intros H. unfold tod_of. replace (wall d t mod day_us) with (t * minute_us).
  - apply Z.div_mul. done.
  - unfold wall, day_us, minute_us, minutes, seconds. rewrite Z.add_comm, Z.mod_add by lia.
    symmetry. apply Z.mod_small. lia.
Qed.

(** A wall-clock minute. *)
Definition whole_minute (local : Z) : Prop := local mod minute_us = 0.

Lemma wall_split local : whole_minute local -> local = wall (day_of local) (tod_of local) /\ 0 <= tod_of local < 1440.
Proof.
  unfold whole_minute, wall, day_of, tod_of, day_us, minute_us, minutes, seconds. intros H.
  pose proof (Z.div_mod local (60 * 1440 * 1000000)). pose proof (Z.mod_pos_bound local (60 * 1440 * 1000000)).
  set (r := local mod (60 * 1440 * 1000000)) in *. set (q := local / (60 * 1440 * 1000000)) in *.
  assert (r mod (60 * 1 * 1000000) = 0) as Hr.
  { replace r with (local + (- (q * 1440)) * (60 * 1 * 1000000)) by lia. by rewrite Z.mod_add by lia. }
  pose proof (Z.div_mod r (60 * 1 * 1000000)). lia.
Qed.

Lemma matches_spec c local :
  cron_ok c -> whole_minute local ->
  (matches c local = true <-> day_matches c (day_of local) = true /\ tod_of local ∈ times_of_day c).
Proof.
  intros [[_ Hm] [_ Hh] _ _ _] Hw. destruct (wall_split local Hw) as [_ Ht].
  unfold matches. rewrite !andb_true_iff, !bool_decide_eq_true, times_elem. split.
  - intros [[H1 H2] H3]. split; [done|]. exists (tod_of local / 60), (tod_of local mod 60).
    split_and!; [done..|]. pose proof (Z.div_mod (tod_of local) 60). lia.
  - intros [H3 (h & m & H1 & H2 & E)]. pose proof (Hm _ H2). pose proof (Hh _ H1).
    assert (tod_of local / 60 = h) as -> by (symmetry; apply (Z.div_unique_pos _ _ _ m); lia).
    assert (tod_of local mod 60 = m) as -> by (symmetry; apply (Z.mod_unique_pos _ _ h); lia).
    done.
Qed.

Lemma pairwise_min_le best l : pairwise_min best l <= best.
Proof.
  revert best. induction l as [|a [|b l] IH]; intros best; cbn; [lia|lia|].
  specialize (IH (Z.min best (b - a))). cbn in IH. lia.
Qed.

Lemma pairwise_min_gap best l x y :
  StronglySorted Z.le l -> x ∈ l -> y ∈ l -> x < y -> pairwise_min best l <= y - x.
Proof.
  revert best. induction l as [|a l IH]; intros best Hs Hx Hy Hlt; [by apply elem_of_nil in Hx|].
  apply StronglySorted_inv in Hs as [Hs Ha]. rewrite Forall_forall in Ha.
  destruct l as [|b l].
  { apply list_elem_of_singleton in Hx, Hy. lia. }
  change (pairwise_min best (a :: b :: l)) with (pairwise_min (Z.min best (b - a)) (b :: l)).
  apply elem_of_cons in Hx as [->|Hx], Hy as [->|Hy]; [lia| | |].
  - assert (b <= y) as Hby.
    { apply elem_of_cons in Hy as [->|Hy]; [lia|]. apply StronglySorted_inv in Hs as [_ Hb].
      rewrite Forall_forall in Hb. by apply Hb. }
    pose proof (pairwise_min_le (Z.min best (b - a)) (b :: l)). lia.
  - specialize (Ha x Hx). lia.
  - by apply IH.
Qed.

Lemma sorted_last l x : StronglySorted Z.le l -> x ∈ l -> x <= List.last l 0.
Proof.
  intros Hl. revert x. induction Hl as [|a l Hs IH Ha]; intros x Hx; [by apply elem_of_nil in Hx|].
  destruct l as [|b l]; [apply list_elem_of_singleton in Hx; cbn; lia|].
  change (List.last (a :: b :: l) 0) with (List.last (b :: l) 0).
  apply elem_of_cons in Hx as [->|Hx]; [|by apply IH].
  transitivity b; [|apply IH; left]. rewrite Forall_forall in Ha. apply Ha. left.
Qed.

(** The next matching day after [p], if the scan sees one, is at least as far
    as the result says. *)
Lemma scan_days_gap c first last fuel day previous best previous' best' :
  scan_days c first last fuel day previous best = (previous', best') ->
  best' <= best /\
  (1 < best' -> forall d1 d2, day_matches c d2 = true ->
     (day <= d1 /\ day_matches c d1 = true) \/ previous = Some d1 ->
     d1 < d2 -> day <= d2 < day + Z.of_nat fuel -> best' <= (d2 - d1) * 1440 - last + first).
Proof.
  revert day previous best. induction fuel as [|fuel IH]; intros day previous best H; cbn [scan_days] in H.
  { injection H as <- <-. split; [lia|]. intros _ d1 d2. lia. }
  destruct (day_matches c day) eqn:Ed.
  - destruct previous as [p|].
    + destruct (Z.leb_spec (Z.min best ((day - p) * 1440 - last + first)) 1).
      { injection H as <- <-. split; lia. }
      apply IH in H as [H1 H2]. split; [lia|]. intros Hb d1 d2 Hd2 [[Hd1 Hm1]|[= ->]] Hlt Hr; [|lia].
      destruct (decide (d1 = day)) as [->|]; apply (H2 Hb); try done; try lia; [by right|left; split; [lia|done]].
    + apply IH in H as [H1 H2]. split; [lia|]. intros Hb d1 d2 Hd2 [[Hd1 Hm1]|?] Hlt Hr; [|done].
      destruct (decide (d1 = day)) as [->|]; apply (H2 Hb); try done; try lia; [by right|left; split; [lia|done]].
  - apply IH in H as [H1 H2]. split; [lia|]. intros Hb d1 d2 Hd2 Hd1 Hlt Hr.
    assert (d2 <> day) by congruence. apply (H2 Hb); [done| |lia..].
    destruct Hd1 as [[? ?]|?]; [|by right]. left. split; [|done]. assert (d1 <> day) by congruence. lia.
Qed.

Lemma min_interval_ok c i :
  cron_ok c -> min_interval_minutes c = Ok i ->
  forall a b, whole_minute a -> whole_minute b -> matches c a = true -> matches c b = true ->
    WINDOW_START <= day_of a -> day_of b < WINDOW_START + Z.of_nat WINDOW_DAYS -> a < b ->
    Z.min i 1 * minute_us <= b - a /\ (1 < i -> i * minute_us <= b - a).
Proof.
  intros Hc. unfold min_interval_minutes. pose proof (times_sorted c) as Hs.
  destruct (times_of_day c) as [|first ts] eqn:Et; [done|]. cbn zeta.
  destruct (scan_days _ _ _ _ _ _ _) as [prev best] eqn:Escan. destruct prev as [p|]; [|done].
  intros [= <-] a b Ha Hb Hma Hmb Hwa Hwb Hab.
  apply scan_days_gap in Escan as [Hle Hgap].
  apply (matches_spec c a Hc Ha) in Hma as [Hda Hta]. apply (matches_spec c b Hc Hb) in Hmb as [Hdb Htb].
  rewrite Et in Hta, Htb.
  destruct (wall_split a Ha) as [Ea Hra]. destruct (wall_split b Hb) as [Eb Hrb].
  assert (first <= tod_of b) as Hfirst.
  { apply StronglySorted_inv in Hs as [_ Hf]. rewrite Forall_forall in Hf.
    apply elem_of_cons in Htb as [->|Htb]; [lia|by apply Hf]. }
  assert (tod_of a <= List.last (first :: ts) 0) as Hlast by (by apply sorted_last).
  unfold wall, day_us, minute_us, minutes, seconds in *.
  destruct (Z.lt_trichotomy (day_of a) (day_of b)) as [Hd|[Hd|Hd]]; [| |lia].
  - split; [lia|]. intros H1.
    assert (best <= (day_of b - day_of a) * 1440 - List.last (first :: ts) 0 + first); [|lia].
    apply (Hgap H1); [done|left; done|done|lia].
  - assert (tod_of a < tod_of b) as Ht by lia.
    pose proof (pairwise_min_gap 1000000000 _ _ _ Hs Hta Htb Ht). split; [lia|]. intros H1. lia.
Qed.

(** The validated interval is respected. When [validate] accepts an
    expression with a minimum interval, any two different wall-clock minutes of
    2024 to 2051 that it matches are at least that many minutes apart. *)
Theorem validated_interval_respected text m c :
  validate text m = Ok c ->
  forall a b, whole_minute a -> whole_minute b -> matches c a = true -> matches c b = true ->
    WINDOW_START <= day_of a -> day_of b < WINDOW_START + Z.of_nat WINDOW_DAYS -> a < b ->
    m * minute_us <= b - a.
Proof.
  unfold validate. intros [Hm H]%guard_err_ok. apply Z.ltb_ge in Hm.
  apply res_bind_ok in H as (c' & Hc%parse_ok & H). apply res_bind_ok in H as (i & Hi & H).
  apply guard_err_ok in H as [Hmi [= ->]]. apply Z.ltb_ge in Hmi.
  intros a b Ha Hb Hma Hmb Hwa Hwb Hab.
  destruct (min_interval_ok c i Hc Hi a b Ha Hb Hma Hmb Hwa Hwb Hab) as [H1 H2].
  unfold SCHEDULE_MIN_INTERVAL_MINUTES_FLOOR in Hm. change minute_us with 60000000 in *.
  destruct (decide (1 < i)); [specialize (H2 ltac:(done)); lia|lia].
Qed.

(** ** The occurrences found *)

(** [zoneinfo] (PEP 495): a wall-clock time that occurs is shown at the instants
    of both folds, which are its first and its last. *)
Definition zone_laws (z : ZoneInfo) : Prop :=
  forall u, let l := z.(to_local) u in
    z.(to_local) (z.(to_utc) false l) = l /\ z.(to_local) (z.(to_utc) true l) = l /\
    z.(to_utc) false l <= u <= z.(to_utc) true l.

Lemma resolve_local_spec z l :
  zone_laws z ->
  match (resolve_local l z).1 with
  | Some u => z.(to_local) u = l /\ forall u', z.(to_local) u' = l -> u <= u'
  | None => forall u, z.(to_local) u <> l
  end.
Proof.
  intros Hz. unfold resolve_local. destruct (Z.eqb_spec (to_local z (to_utc z false l)) l) as [E|E]; cbn [negb].
  - assert (forall u', to_local z u' = l -> to_utc z false l <= u' <= to_utc z true l) as H.
    { intros u' <-. apply Hz. }
    pose proof (H _ E). rewrite Z.min_l by lia. destruct (negb _); cbn; (split; [done|intros u' Hu'%H; lia]).
  - cbn. intros u <-. by apply E, Hz.
Qed.

Section exact.
Context (sha256_hex : list N -> ustr).

(** The entry of a candidate, if it is due. *)
Definition entry_of (q : Query) (local : Z) : option Occurrence :=
  if local <? start_local q then None
  else
    let '(utc, reason) := resolve_local local q.(q_zone) in
    let entry := {| o_local := local; o_utc := utc;
      o_key := occurrence_key sha256_hex q.(q_schedule_id) q.(q_timezone) local; o_reason := reason |} in
    match utc with
    | None => if q.(q_include_gaps) then Some entry else None
    | Some u => if u <=? q.(q_after) then None else Some entry
    end.

(** Every wall-clock minute of the days from [day] that the expression matches. *)
Fixpoint candidates (c : CronExpression) (day : Z) (n : nat) : list Z :=
  match n with
  | O => []
  | S n => (if day_matches c day then wall day <$> times_of_day c else []) ++ candidates c (day + 1) n
  end.

(** A prefix up to and including the [n]th executable entry. *)
Fixpoint cut (n : Z) (l : list Occurrence) : list Occurrence :=
  match l with
  | [] => []
  | o :: l => if n <=? 0 then [] else o :: cut (if executable o then n - 1 else n) l
  end.

Lemma cut_nil n l : n <= 0 -> cut n l = [].
Proof. destruct l; cbn; [done|]. intros. by rewrite (proj2 (Z.leb_le _ _)). Qed.

Lemma day_loop_cut q day times n rest :
  n < q.(q_count) ->
  let '(out, n') := day_loop sha256_hex q day times n in
  out ++ cut (q.(q_count) - n') rest =
    cut (q.(q_count) - n) (omap (entry_of q) (wall day <$> times) ++ rest) /\ n' <= q.(q_count).
Proof.
  revert n. induction times as [|tod times IH]; intros n Hn; cbn [day_loop fmap list_fmap omap list_omap].
  { split; [done|lia]. }
  unfold entry_of at 1. fold (wall day tod).
  destruct (wall day tod <? start_local q); [by apply IH|].
  destruct (resolve_local (wall day tod) q.(q_zone)) as [[u|] reason].
  - destruct (u <=? q.(q_after)); [by apply IH|]. cbn [app cut executable o_utc].
    destruct (Z.leb_spec (q.(q_count) - n) 0); [lia|].
    destruct (Z.leb_spec q.(q_count) (n + 1)).
    + split; [|lia]. cbn. by rewrite !cut_nil by lia.
    + specialize (IH (n + 1) ltac:(lia)). destruct (day_loop _ _ _ _ _) as [out n'].
      destruct IH as [IH Hle]. split; [|done]. cbn. rewrite IH. by replace (q_count q - n - 1) with (q_count q - (n + 1)) by lia.
  - destruct q.(q_include_gaps) eqn:Eg.
    + specialize (IH n Hn). destruct (day_loop _ _ _ _ _) as [out n'].
      destruct IH as [IH Hle]. split; [|done]. cbn [app cut executable o_utc].
      destruct (Z.leb_spec (q.(q_count) - n) 0); [lia|]. by rewrite <- IH.
    + specialize (IH n Hn). by destruct (day_loop _ _ _ _ _) as [out n'].
Qed.

Lemma days_loop_cut q fuel day n :
  n <= q.(q_count) ->
  days_loop sha256_hex q fuel day n =
    cut (q.(q_count) - n) (omap (entry_of q) (candidates q.(q_cron) day fuel)).
Proof.
  revert day n. induction fuel as [|fuel IH]; intros day n Hn; cbn [days_loop candidates]; [done|].
  destruct (Z.leb_spec q.(q_count) n); [by rewrite cut_nil by lia|].
  rewrite omap_app. destruct (day_matches q.(q_cron) day).
  - pose proof (day_loop_cut q day (times_of_day q.(q_cron)) n
      (omap (entry_of q) (candidates q.(q_cron) (day + 1) fuel)) ltac:(lia)) as Hd.
    destruct (day_loop _ _ _ _ _) as [out n']. destruct Hd as [Hd Hle]. by rewrite IH.
  - cbn [app]. by rewrite IH by lia.
Qed.

(** The occurrences returned are the due candidates, cut at [count]. *)
Lemma run_query_cut q :
  run_query sha256_hex q =
    cut q.(q_count) (omap (entry_of q) (candidates q.(q_cron) (day_of (start_local q)) horizon_fuel)).
Proof.
  unfold run_query. destruct (decide (0 <= q.(q_count))).
  - rewrite days_loop_cut by done. by rewrite Z.sub_0_r.
  - rewrite cut_nil by lia. destruct horizon_fuel; cbn; [done|].
    by rewrite (proj2 (Z.leb_le _ _)) by lia.
Qed.

Lemma times_strict c : cron_ok c -> StronglySorted Z.lt (times_of_day c).
Proof.
  intros Hc. assert (NoDup (times_of_day c)) as Hnd.
  { unfold times_of_day. rewrite py_sorted_perm. apply NoDup_bind.
    - intros h1 h2 x Hh1%elem_of_elements Hh2%elem_of_elements (m1 & Hx1 & Hm1)%list_elem_of_bind
        (m2 & Hx2 & Hm2)%list_elem_of_bind.
      apply list_elem_of_singleton in Hx1, Hx2. rewrite elem_of_elements in Hm1, Hm2.
      destruct Hc as [[_ Hm] _ _ _ _]. pose proof (Hm _ Hm1). pose proof (Hm _ Hm2). lia.
    - intros h _. apply NoDup_bind; [|intros; apply NoDup_singleton|apply NoDup_elements].
      intros m1 m2 x _ _ Hx1%list_elem_of_singleton Hx2%list_elem_of_singleton. lia.
    - apply NoDup_elements. }
  pose proof (times_sorted c) as Hs. induction Hs as [|x l Hs IH Hx]; [constructor|].
  apply NoDup_cons in Hnd as [Hn Hnd]. constructor; [by apply IH|].
  rewrite Forall_forall in *. intros y Hy. specialize (Hx y Hy).
  assert (x <> y) by (by intros ->). lia.
Qed.

Lemma candidates_elem c day n l :
  cron_ok c -> (l ∈ candidates c day n <->
    whole_minute l /\ matches c l = true /\ day <= day_of l < day + Z.of_nat n).
Proof.
  intros Hc. revert day. induction n as [|n IH]; intros day; cbn [candidates].
  { rewrite elem_of_nil. split; [done|lia]. }
  rewrite elem_of_app, IH. split.
  - intros [H|(? & ? & ?)]; [|split_and!; try done; lia].
    destruct (day_matches c day) eqn:Ed; [|by apply elem_of_nil in H].
    apply list_elem_of_fmap in H as (t & -> & Ht). pose proof (tod_range c t Hc Ht) as Hr.
    assert (whole_minute (wall day t)) as Hw.
    { unfold whole_minute, wall, day_us, minute_us, minutes, seconds.
      replace (day * (60 * 1440 * 1000000) + t * (60 * 1 * 1000000)) with ((day * 1440 + t) * (60 * 1 * 1000000)) by lia.
      by apply Z.mod_mul. }
    rewrite (matches_spec c _ Hc Hw), day_of_wall, tod_of_wall by done. split_and!; try done; lia.
  - intros (Hw & Hm & Hr). apply (matches_spec c l Hc Hw) in Hm as Hm2. destruct Hm2 as [Hd Ht].
    destruct (decide (day_of l = day)) as [E|E]; [left|right; split_and!; [done|done|lia..]].
    rewrite <- E, Hd. apply list_elem_of_fmap. exists (tod_of l). split; [by apply wall_split|done].
Qed.

Lemma candidates_sorted c day n : cron_ok c -> StronglySorted Z.lt (candidates c day n).
Proof.
  intros Hc. revert day. induction n as [|n IH]; intros day; cbn [candidates]; [constructor|].
  apply StronglySorted_app_2; [| |apply IH].
  2:{ destruct (day_matches c day); [|constructor].
    assert (forall x y, x < y -> wall day x < wall day y) as Hmono.
    { intros x y. unfold wall. change minute_us with 60000000. lia. }
    pose proof (times_strict c Hc) as Hs. induction Hs as [|x l Hs IHs Hx]; cbn; constructor; [done|].
    rewrite Forall_fmap. eapply Forall_impl; [exact Hx|]. intros y. apply Hmono. }
  - intros x y Hx (_ & _ & Hy)%candidates_elem; [|done].
    destruct (day_matches c day); [|by apply elem_of_nil in Hx].
    apply list_elem_of_fmap in Hx as (t & -> & Ht). pose proof (tod_range c t Hc Ht) as Hr.
    unfold wall, day_of, day_us, minute_us, minutes, seconds in *.
    pose proof (Z.mul_div_le y (60 * 1440 * 1000000)). lia.
Qed.

Definition executables (l : list Occurrence) : Z := Z.of_nat (length (List.filter executable l)).

Lemma cut_split n l :
  exists rest, l = cut n l ++ rest /\ executables (cut n l) <= Z.max n 0 /\
    (rest <> [] -> executables (cut n l) = Z.max n 0).
Proof.
  revert n. induction l as [|o l IH]; intros n; cbn [cut]; [exists []; unfold executables; cbn [List.filter length app]; split_and!; [done|lia|done]|].
  destruct (Z.leb_spec n 0); [exists (o :: l); unfold executables; cbn [List.filter length app]; split_and!; [done|lia|lia]|].
  unfold executables in *. cbn [List.filter]. destruct (executable o); cbn [app length].
  - destruct (IH (n - 1)) as (rest & E & H1 & H2). exists rest.
    split_and!; [by rewrite <- E|lia|intros Hr; specialize (H2 Hr); lia].
  - destruct (IH n) as (rest & E & H1 & H2). exists rest. split_and!; [by rewrite <- E|done|done].
Qed.

Lemma entry_of_local q l o : entry_of q l = Some o -> o.(o_local) = l.
Proof.
  unfold entry_of. destruct (_ <? _); [done|]. destruct (resolve_local _ _) as [[u|] r].
  - destruct (_ <=? _); [done|]. by intros [= <-].
  - destruct (q_include_gaps q); [|done]. by intros [= <-].
Qed.

Lemma entries_sorted q (ls : list Z) :
  StronglySorted Z.lt ls -> StronglySorted Z.lt (o_local <$> omap (entry_of q) ls).
Proof.
  induction 1 as [|l ls Hs IH Hl]; cbn; [constructor|].
  destruct (entry_of q l) as [o|] eqn:E; [|done]. cbn. constructor; [done|].
  rewrite (entry_of_local _ _ _ E). apply Forall_forall. intros x (o' & -> & Ho')%list_elem_of_fmap.
  apply list_elem_of_omap in Ho' as (l' & Hl' & E'). rewrite (entry_of_local _ _ _ E').
  rewrite Forall_forall in Hl. by apply Hl.
Qed.

(** What an entry says of its wall-clock minute. *)
Definition entry_ok (q : Query) (o : Occurrence) : Prop :=
  start_local q <= o.(o_local) /\
  o.(o_key) = occurrence_key sha256_hex q.(q_schedule_id) q.(q_timezone) o.(o_local) /\
  match o.(o_utc) with
  | Some u => q.(q_after) < u /\ q.(q_zone).(to_local) u = o.(o_local) /\
      forall u', q.(q_zone).(to_local) u' = o.(o_local) -> u <= u'
  | None => q.(q_include_gaps) = true /\ forall u, q.(q_zone).(to_local) u <> o.(o_local)
  end.

Lemma entry_of_ok q l o : zone_laws q.(q_zone) -> entry_of q l = Some o -> entry_ok q o.
Proof.
  intros Hz. unfold entry_of, entry_ok. destruct (Z.ltb_spec l (start_local q)); [done|].
  pose proof (resolve_local_spec _ l Hz) as Hr. destruct (resolve_local l _) as [[u|] r]; cbn in Hr.
  - destruct (Z.leb_spec u (q_after q)); [done|]. intros [= <-]. by split_and!.
  - destruct (q_include_gaps q); [|done]. intros [= <-]. by split_and!.
Qed.

Lemma entry_of_due q l u :
  zone_laws q.(q_zone) -> start_local q <= l -> q.(q_zone).(to_local) u = l ->
  (forall u', q.(q_zone).(to_local) u' = l -> q.(q_after) < u') -> exists o, entry_of q l = Some o.
Proof.
  intros Hz Hl Hu Hlate. unfold entry_of. destruct (Z.ltb_spec l (start_local q)); [lia|].
  pose proof (resolve_local_spec _ l Hz) as Hr. destruct (resolve_local l _) as [[u0|] r]; cbn in Hr; [|by destruct (Hr u)].
  destruct Hr as [Hr _]. specialize (Hlate _ Hr). destruct (Z.leb_spec u0 (q_after q)); [lia|]. by eexists.
Qed.

Lemma run_query_sound q o :
  cron_ok q.(q_cron) -> zone_laws q.(q_zone) -> o ∈ run_query sha256_hex q ->
  whole_minute o.(o_local) /\ matches q.(q_cron) o.(o_local) = true /\ entry_ok q o.
Proof.
  intros Hc Hz. rewrite run_query_cut. set (cands := candidates _ _ _). intros Ho.
  destruct (cut_split q.(q_count) (omap (entry_of q) cands)) as (rest & E & _).
  assert (o ∈ omap (entry_of q) cands) as (l & Hl & Hol)%list_elem_of_omap by (rewrite E; apply elem_of_app; by left).
  rewrite (entry_of_local _ _ _ Hol). apply candidates_elem in Hl as (Hw & Hm & _); [|done].
  split_and!; [done..|by eapply entry_of_ok].
Qed.

Lemma run_query_sorted q :
  cron_ok q.(q_cron) -> StronglySorted Z.lt (o_local <$> run_query sha256_hex q).
Proof.
  intros Hc. rewrite run_query_cut.
  pose proof (candidates_sorted q.(q_cron) (day_of (start_local q)) horizon_fuel Hc) as Hs%(entries_sorted q).
  destruct (cut_split q.(q_count) (omap (entry_of q) (candidates q.(q_cron) (day_of (start_local q)) horizon_fuel)))
    as (rest & E & _). rewrite E, fmap_app in Hs at 1. by apply StronglySorted_app_1_l in Hs.
Qed.

Lemma run_query_count q : executables (run_query sha256_hex q) <= Z.max q.(q_count) 0.
Proof. rewrite run_query_cut. destruct (cut_split q.(q_count) (omap (entry_of q)
  (candidates q.(q_cron) (day_of (start_local q)) horizon_fuel))) as (rest & _ & H & _). exact H. Qed.

Lemma run_query_complete q l u :
  cron_ok q.(q_cron) -> zone_laws q.(q_zone) ->
  whole_minute l -> matches q.(q_cron) l = true -> start_local q <= l ->
  day_of l <= day_of (start_local q) + PREVIEW_HORIZON_DAYS ->
  q.(q_zone).(to_local) u = l -> (forall u', q.(q_zone).(to_local) u' = l -> q.(q_after) < u') ->
  (exists o, o ∈ run_query sha256_hex q /\ o.(o_local) = l) \/
  (executables (run_query sha256_hex q) = Z.max q.(q_count) 0 /\
   forall o, o ∈ run_query sha256_hex q -> o.(o_local) < l).
Proof.
  intros Hc Hz Hw Hm Hstart Hday Hu Hlate. rewrite run_query_cut.
  pose proof (candidates_sorted q.(q_cron) (day_of (start_local q)) horizon_fuel Hc) as Hs%(entries_sorted q).
  pose proof (candidates_elem q.(q_cron) (day_of (start_local q)) horizon_fuel l Hc) as Helem.
  set (cands := candidates _ _ _) in *.
  destruct (cut_split q.(q_count) (omap (entry_of q) cands)) as (rest & E & _ & Hrest).
  set (out := cut _ _) in *. rewrite E, fmap_app in Hs.
  destruct (entry_of_due q l u Hz Hstart Hu Hlate) as [o Ho]. assert (o ∈ out ++ rest) as Hin.
  { rewrite <- E. apply list_elem_of_omap. exists l. split; [|done]. apply Helem. split_and!; [done..| |].
    - apply Z.div_le_mono; [done|exact Hstart].
    - unfold horizon_fuel. change PREVIEW_HORIZON_DAYS with 1830 in *. lia. }
  apply elem_of_app in Hin as [Hin|Hin]; [left; exists o; split; [done|by eapply entry_of_local]|right].
  split; [apply Hrest; by intros ->; apply elem_of_nil in Hin|].
  intros o' Ho'. rewrite <- (entry_of_local _ _ _ Ho).
  apply StronglySorted_app in Hs as [Hs _]. apply Hs; by apply list_elem_of_fmap_2.
Qed.

(** C37. The next occurrences are exactly those the expression names. For a
    parsed expression and a lawful zone, the list is in wall-clock order without
    repetition; each entry is a minute the expression matches, with the key of
    that minute, either at the earliest instant that shows it, later than
    [after], or a minute the clock skips; at most [count] are executable; and
    within the five-year horizon no due minute is missing before the last
    entry, nor at all when fewer than [count] were found. *)
Theorem next_occurrences_exact tzdata text c tz zone after count sid gaps out :
  parse text = Ok c -> load_zone tzdata tz = Ok zone -> zone_laws zone ->
  next_occurrences sha256_hex tzdata c tz after count sid gaps = Ok out ->
  let q := {| q_cron := c; q_timezone := tz; q_zone := zone; q_after := after; q_count := count;
              q_schedule_id := sid; q_include_gaps := gaps |} in
  StronglySorted Z.lt (o_local <$> out) /\
  (forall o, o ∈ out -> whole_minute o.(o_local) /\ matches c o.(o_local) = true /\ entry_ok q o) /\
  executables out <= Z.max count 0 /\
  (forall l u, whole_minute l -> matches c l = true -> start_local q <= l ->
     day_of l <= day_of (start_local q) + PREVIEW_HORIZON_DAYS ->
     zone.(to_local) u = l -> (forall u', zone.(to_local) u' = l -> after < u') ->
     (exists o, o ∈ out /\ o.(o_local) = l) \/
     (executables out = Z.max count 0 /\ forall o, o ∈ out -> o.(o_local) < l)).
Proof.
  intros Hc%parse_ok Hzone Hz. unfold next_occurrences. rewrite Hzone. cbn [mbind res_bind]. intros [= <-].
  cbn zeta. set (q := {| q_cron := c |}). split_and!.
  - by apply (run_query_sorted q).
  - intros o Ho. by apply (run_query_sound q).
  - apply (run_query_count q).
  - intros l u ??????. by apply (run_query_complete q l u).
Qed.
End exact.

(** * A zone that skips an hour and repeats one *)

Module Zone.

(** The clock jumps from [gap] to an hour later, and back from [fold]. *)
Definition gap : Z := wall 10 120.
Definition fold : Z := wall 200 180.

Definition summer : ZoneInfo := {|
  to_local u := if u <? gap then u else if u <? fold - hours 1 then u + hours 1 else u;
  to_utc later l :=
    if l <? gap + hours 1 then l
    else if l <? fold - hours 1 then l - hours 1
    else if l <? fold then (if later then l else l - hours 1) else l |}.

Lemma summer_laws : zone_laws summer.
Proof.
  intros u. cbn [to_local to_utc summer].
  change (hours 1) with 3600000000. change gap with 871200000000. change fold with 17290800000000.
  repeat match goal with |- context [?a <? ?b] => destruct (Z.ltb_spec a b); try lia end; cbn [to_local to_utc];
  repeat match goal with |- context [?a <? ?b] => destruct (Z.ltb_spec a b); try lia end.
Qed.

Definition tzdata (name : string) : option ZoneInfo :=
  if String.eqb name "Europe/Summer" then Some summer else None.

Definition text : string := "30 2,3 * * *".
Definition cron : CronExpression :=
  match parse text with Ok c => c | Err _ => {| expression := ""; c_minutes := ∅; c_hours := ∅;
    days_of_month := ∅; months := ∅; days_of_week := ∅; dom_restricted := false; dow_restricted := false |} end.

Definition found (after count : Z) : list Occurrence :=
  match next_occurrences id tzdata cron "Europe/Summer" after count "sch-1" true with Ok l => l | Err _ => [] end.

Example gap_and_fold :
  (fun o => (o.(o_local) - wall 10 0, o.(o_utc), o.(o_reason))) <$> found (wall 10 0) 2 =
    [(wall 0 150, None, Some "DST_GAP"); (wall 0 210, Some (wall 10 150), None); (wall 1 150, Some (wall 11 90), None)] /\
  (fun o => (o.(o_local) - wall 200 0, o.(o_utc), o.(o_reason))) <$> found (wall 200 0) 2 =
    [(wall 0 150, Some (wall 200 90), Some "DST_FOLD"); (wall 0 210, Some (wall 200 210), None)].
Proof. vm_compute. done. Qed.
End Zone.

Lemma next_occurrences_exact_witness :
  StronglySorted Z.lt (o_local <$> Zone.found (wall 10 0) 2) /\
  Forall (fun o => matches Zone.cron o.(o_local) = true) (Zone.found (wall 10 0) 2).
Proof.
  destruct (next_occurrences_exact id Zone.tzdata Zone.text Zone.cron "Europe/Summer" Zone.summer
    (wall 10 0) 2 "sch-1" true (Zone.found (wall 10 0) 2)) as (H1 & H2 & _).
  - vm_compute. reflexivity.
  - reflexivity.
  - exact Zone.summer_laws.
  - vm_compute. reflexivity.
  - split; [exact H1|]. apply Forall_forall. intros o Ho. exact (proj1 (proj2 (H2 o Ho))).
Defined.

Lemma validated_interval_respected_witness :
  match validate "0,1 * * * *" 1 with
  | Ok c => matches c (wall 19723 0) = true -> matches c (wall 19723 1) = true ->
      1 * minute_us <= wall 19723 1 - wall 19723 0
  | Err _ => False
  end.
Proof.
  destruct (validate "0,1 * * * *" 1) as [c|e] eqn:E.
  - intros H1 H2. apply (validated_interval_respected "0,1 * * * *" 1 c E); try done;
      vm_compute; try reflexivity; discriminate.
  - vm_compute in E. discriminate E.
Defined.
