(* ===== verification/Planner.v ===== *)
(** The occurrence planner ([server/schedules/planner.py]) with the rows it
    reads and writes ([server/schedules/store.py]). A row's generated id is the
    number of rows written before it; microseconds are exact where the code
    divides floats. *)

From S2P Require Import Prelude Defaults Canonical Cron ScheduleContract.
Open Scope Z_scope.

Definition DEFAULT_HORIZON_S : Z := 900.
Definition MAX_OCCURRENCES_PER_TICK : Z := 500.

(** * Rows *)

Record VersionRow := {
  version_id : string;
  v_schedule_id : string;
  cron_expression : string;
  timezone : string;
  missed_run_policy : MissedRunPolicy;
  backfill_limit : Z;
  backfill_window_seconds : Z;
  min_interval_minutes : Z;
  starts_at : option Z;
  ends_at : option Z;
  snapshot_hash : string }.

Record ScheduleRow := {
  s_schedule_id : string;
  s_workspace_id : string;
  s_status : ScheduleStatus;
  current_version_id : option string;
  next_run_at : option Z;
  last_planned_until : option Z }.

Record RunRow := {
  run_id : nat;
  r_workspace_id : string;
  r_schedule_id : string;
  schedule_version_id : string;
  run_kind : RunKind;
  occurrence_key : option ustr;
  scheduled_for : Z;
  local_scheduled_for : option Z;
  retry_of_run_id : option nat;
  request_key : option string;
  r_status : RunStatus;
  idempotency_key : ustr;
  version_hash : string;
  requested_by : option string;
  planner_note : option string;
  created_at : Z }.

Record NoteRow := {
  n_schedule_id : string;
  n_key : ustr;
  n_reason : string;
  n_local : option Z;
  n_scheduled_for : option Z;
  n_detail : option BackfillWarning }.

Record Db := {
  schedules : gmap string ScheduleRow;
  versions : gmap string VersionRow;
  runs : list RunRow;
  notes : list NoteRow }.

Definition with_runs (r : list RunRow) (db : Db) : Db := {|
  schedules := db.(schedules); versions := db.(versions); runs := r; notes := db.(notes) |}.
Definition with_notes (n : list NoteRow) (db : Db) : Db := {|
  schedules := db.(schedules); versions := db.(versions); runs := db.(runs); notes := n |}.
Definition with_schedules (s : gmap string ScheduleRow) (db : Db) : Db := {|
  schedules := s; versions := db.(versions); runs := db.(runs); notes := db.(notes) |}.

(** The values of an INSERT into [schedule_runs]. *)
Record InsertArgs := {
  i_workspace_id : string;
  i_schedule_id : string;
  i_version : VersionRow;
  i_run_kind : RunKind;
  i_scheduled_for : Z;
  i_idempotency_key : ustr;
  i_status : RunStatus;
  i_now : Z;
  i_occurrence_key : option ustr;
  i_local : option Z;
  i_retry_of : option nat;
  i_request_key : option string;
  i_requested_by : option string;
  i_planner_note : option string }.

(** Two rows break a unique key of the table. *)
Definition same_some {A} `{EqDecision A} (a b : option A) : bool :=
  match a, b with Some x, Some y => bool_decide (x = y) | _, _ => false end.

Definition conflicts (a : InsertArgs) (r : RunRow) : bool :=
  String.eqb r.(r_schedule_id) a.(i_schedule_id) &&
  (bool_decide (r.(idempotency_key) = a.(i_idempotency_key)) ||
   same_some r.(occurrence_key) a.(i_occurrence_key) ||
   (bool_decide (r.(run_kind) = a.(i_run_kind)) && same_some r.(request_key) a.(i_request_key))).

Definition insert_run (a : InsertArgs) (db : Db) : option RunRow * Db :=
  if existsb (conflicts a) db.(runs) then (None, db)
  else
    let row := {|
      run_id := length db.(runs); r_workspace_id := a.(i_workspace_id); r_schedule_id := a.(i_schedule_id);
      schedule_version_id := a.(i_version).(version_id); run_kind := a.(i_run_kind);
      occurrence_key := a.(i_occurrence_key); scheduled_for := a.(i_scheduled_for);
      local_scheduled_for := a.(i_local); retry_of_run_id := a.(i_retry_of); request_key := a.(i_request_key);
      r_status := a.(i_status); idempotency_key := a.(i_idempotency_key);
      version_hash := a.(i_version).(snapshot_hash); requested_by := a.(i_requested_by);
      planner_note := a.(i_planner_note); created_at := a.(i_now) |} in
    (Some row, with_runs (db.(runs) ++ [row]) db).

Definition same_note (n : NoteRow) (m : NoteRow) : bool :=
  String.eqb m.(n_schedule_id) n.(n_schedule_id) && bool_decide (m.(n_key) = n.(n_key)) &&
  String.eqb m.(n_reason) n.(n_reason).

Definition add_planner_note (n : NoteRow) (db : Db) : bool * Db :=
  if existsb (same_note n) db.(notes) then (false, db) else (true, with_notes (db.(notes) ++ [n]) db).

Definition update_schedule (sid : string) (planned next : option Z) (db : Db) : Db :=
  with_schedules (alter (fun s => {|
    s_schedule_id := s.(s_schedule_id); s_workspace_id := s.(s_workspace_id); s_status := s.(s_status);
    current_version_id := s.(current_version_id); next_run_at := next; last_planned_until := planned |})
    sid db.(schedules)) db.

Definition load_version (db : Db) (vid : string) : option VersionRow := db.(versions) !! vid.

(** The enabled Schedules of a Workspace another planner has not locked. *)
Definition enabled_schedules (locked : list string) (ws : string) (db : Db) : list ScheduleRow :=
  py_sorted (key_leb_of s_schedule_id)
    (List.filter (fun s => String.eqb s.(s_workspace_id) ws && bool_decide (s.(s_status) = ENABLED) &&
      negb (mem s.(s_schedule_id) locked)) (map_to_list db.(schedules)).*2).

(** * Planning *)

(** [max(1, min(500, ceil(window_s / per) + 2))] for a window in microseconds. *)
Definition _expected_count (window_us min_interval : Z) : Z :=
  let per := seconds (Z.max 1 min_interval * 60) in
  Z.max 1 (Z.min MAX_OCCURRENCES_PER_TICK (- ((- window_us) / per) + 2)).

Fixpoint take_window (until : Z) (l : list Occurrence) : list Occurrence :=
  match l with
  | [] => []
  | o :: l =>
      match o.(o_utc) with
      | None => o :: take_window until l
      | Some u => if until <? u then [] else o :: take_window until l
      end
  end.

Definition _within_validity (v : VersionRow) (t : Z) : bool :=
  negb (match v.(starts_at) with Some s => t <? s | None => false end) &&
  negb (match v.(ends_at) with Some e => e <? t | None => false end).

Record PlanResult := {
  p_schedule_id : string;
  created : list nat;
  missed_created : list nat;
  p_skipped : nat;
  gaps : nat;
  p_warning : option BackfillWarning;
  p_next_run_at : option Z }.

Section planner.
Context (sha256_hex : list N -> ustr) (tzdata : string -> option ZoneInfo).

(** [next_occurrences] of the text of a version. *)
Definition next_of (v : VersionRow) (after count : Z) (include_gaps : bool) : res (list Occurrence) :=
  c ← parse v.(cron_expression);
  next_occurrences sha256_hex tzdata c v.(timezone) after count v.(v_schedule_id) include_gaps.

Definition _occurrences (v : VersionRow) (after until : Z) : res (list Occurrence) :=
  let count := _expected_count (Z.max 0 (until - after)) v.(min_interval_minutes) in
  occs ← next_of v after count true;
  Ok (take_window until occs).

Definition scheduled_run (s : ScheduleRow) (v : VersionRow) (now utc : Z) (key : ustr) (local : option Z)
    (note : option string) : InsertArgs := {|
  i_workspace_id := s.(s_workspace_id); i_schedule_id := s.(s_schedule_id); i_version := v;
  i_run_kind := SCHEDULED; i_scheduled_for := utc;
  i_idempotency_key := scheduled_idempotency_key s.(s_schedule_id) key; i_status := PENDING; i_now := now;
  i_occurrence_key := Some key; i_local := local; i_retry_of := None; i_request_key := None;
  i_requested_by := None; i_planner_note := note |}.

Definition mk_note (sid : string) (key : ustr) (reason : string) (local utc : option Z)
    (detail : option BackfillWarning) : NoteRow := {|
  n_schedule_id := sid; n_key := key; n_reason := reason; n_local := local; n_scheduled_for := utc;
  n_detail := detail |}.

(** What the first loop of [plan_schedule] gathers: the runs created, the gaps,
    the missed occurrences and [local_of], the newest binding first. *)
Record Gathered := {
  g_created : list nat;
  g_gaps : nat;
  g_missed : list MissedOccurrence;
  g_local_of : list (ustr * Z) }.

Definition local_of_get (l : list (ustr * Z)) (key : ustr) : option Z :=
  snd <$> find (fun e => bool_decide (e.1 = key)) l.

Definition gather_one (s : ScheduleRow) (v : VersionRow) (now : Z) (o : Occurrence) (st : Gathered * Db)
    : Gathered * Db :=
  let '(g, db) := st in
  match o.(o_utc) with
  | None =>
      ({| g_created := g.(g_created); g_gaps := S g.(g_gaps); g_missed := g.(g_missed); g_local_of := g.(g_local_of) |},
       (add_planner_note (mk_note s.(s_schedule_id) o.(o_key) "DST_GAP" (Some o.(o_local)) None None) db).2)
  | Some u =>
      if negb (_within_validity v u) then st
      else
        let local_of := (o.(o_key), o.(o_local)) :: g.(g_local_of) in
        if u <=? now then
          ({| g_created := g.(g_created); g_gaps := g.(g_gaps);
              g_missed := g.(g_missed) ++ [{| m_key := o.(o_key); m_scheduled_for := u |}];
              g_local_of := local_of |}, db)
        else
          let '(run, db) := insert_run (scheduled_run s v now u o.(o_key) (Some o.(o_local)) None) db in
          ({| g_created := match run with Some r => g.(g_created) ++ [r.(run_id)] | None => g.(g_created) end;
              g_gaps := g.(g_gaps); g_missed := g.(g_missed); g_local_of := local_of |}, db)
  end.

Definition gather (s : ScheduleRow) (v : VersionRow) (now : Z) (occs : list Occurrence) (db : Db) : Gathered * Db :=
  foldl (fun st o => gather_one s v now o st)
    ({| g_created := []; g_gaps := 0; g_missed := []; g_local_of := [] |}, db) occs.

Definition policy_name (p : MissedRunPolicy) : string :=
  match p with SKIP => "SKIP" | RUN_ONCE => "RUN_ONCE" | BACKFILL_LIMITED => "BACKFILL_LIMITED" end.

Definition create_missed (s : ScheduleRow) (v : VersionRow) (now : Z) (local_of : list (ustr * Z))
    (items : list MissedOccurrence) (db : Db) : list nat * Db :=
  foldl (fun '(ids, db) m =>
    let '(run, db) := insert_run (scheduled_run s v now m.(m_scheduled_for) m.(m_key)
      (local_of_get local_of m.(m_key)) (Some ("MISSED_" +:+ policy_name v.(missed_run_policy)))) db in
    (match run with Some r => ids ++ [r.(run_id)] | None => ids end, db)) ([], db) items.

Definition note_skipped (s : ScheduleRow) (v : VersionRow) (w : option BackfillWarning)
    (items : list MissedOccurrence) (db : Db) : Db :=
  foldl (fun db m => (add_planner_note (mk_note s.(s_schedule_id) m.(m_key)
    ("MISSED_SKIPPED_" +:+ policy_name v.(missed_run_policy)) None (Some m.(m_scheduled_for)) w) db).2) db items.

Definition note_warning (s : ScheduleRow) (w : option BackfillWarning) (db : Db) : Db :=
  match w with
  | None => db
  | Some _ => (add_planner_note (mk_note s.(s_schedule_id)
      (lit "warn-" ++ str_int (Z.of_nat (length db.(notes)))) "BACKFILL_TRUNCATED" None None w) db).2
  end.

Definition plan_schedule (now horizon_s : Z) (s : ScheduleRow) (v : VersionRow) (db : Db)
    : res (PlanResult * Db) :=
  let window_end := now + seconds horizon_s in
  let start := default now s.(last_planned_until) in
  occs ← _occurrences v start window_end;
  let '(g, db) := gather s v now occs db in
  plan ← plan_missed_runs v.(missed_run_policy) g.(g_missed) now v.(backfill_window_seconds) v.(backfill_limit);
  let '(ids, db) := create_missed s v now g.(g_local_of) plan.(to_create) db in
  let db := note_skipped s v plan.(warning) plan.(skipped) db in
  let db := note_warning s plan.(warning) db in
  upcoming ← next_of v now 1 false;
  let next := match upcoming with o :: _ => o.(o_utc) | [] => None end in
  let db := update_schedule s.(s_schedule_id) (Some window_end) next db in
  Ok ({| p_schedule_id := s.(s_schedule_id); created := g.(g_created); missed_created := ids;
         p_skipped := length plan.(skipped); gaps := g.(g_gaps); p_warning := plan.(warning);
         p_next_run_at := next |}, db).

Fixpoint plan_rows (now horizon_s : Z) (rows : list ScheduleRow) (db : Db) : res (list PlanResult * Db) :=
  match rows with
  | [] => Ok ([], db)
  | s :: rows =>
      match s.(current_version_id) ≫= load_version db with
      | None => plan_rows now horizon_s rows db
      | Some v =>
          '(r, db) ← plan_schedule now horizon_s s v db;
          '(rs, db) ← plan_rows now horizon_s rows db;
          Ok (r :: rs, db)
      end
  end.

(** One tick; the schedules in [locked] are held by other planners. *)
Definition plan_workspace (locked : list string) (now horizon_s : Z) (ws : string) (db : Db)
    : res (list PlanResult * Db) :=
  plan_rows now horizon_s (enabled_schedules locked ws db) db.

Definition materialize (locked : list string) (now horizon_s : Z) (ws : string) (db : Db) : res (Z * Db) :=
  '(rs, db) ← plan_workspace locked now horizon_s ws db;
  Ok (fold_right Z.add 0 ((fun r => Z.of_nat (length r.(created) + length r.(missed_created))) <$> rs), db).

(** * Lemmas *)

(** Two runs of a Schedule share neither key. *)
Definition runs_ok (db : Db) : Prop :=
  forall i j a b, db.(runs) !! i = Some a -> db.(runs) !! j = Some b ->
    a.(r_schedule_id) = b.(r_schedule_id) ->
    a.(idempotency_key) = b.(idempotency_key) \/ (exists k, a.(occurrence_key) = Some k /\ b.(occurrence_key) = Some k) ->
    i = j.

(** Rows are only added. *)
Definition adds (db db' : Db) : Prop :=
  (exists l, db'.(runs) = db.(runs) ++ l) /\ (exists l, db'.(notes) = db.(notes) ++ l) /\
  db'.(versions) = db.(versions).

(** A run stands for the occurrence: it has its key, or its idempotency key. *)
Definition covered (db : Db) (sid : string) (key : ustr) : Prop :=
  exists r, r ∈ db.(runs) /\ r.(r_schedule_id) = sid /\
    (r.(occurrence_key) = Some key \/ r.(idempotency_key) = scheduled_idempotency_key sid key).

Definition noted (db : Db) (sid : string) (key : ustr) (reason : string) : Prop :=
  exists n, n ∈ db.(notes) /\ n.(n_schedule_id) = sid /\ n.(n_key) = key /\ n.(n_reason) = reason.

Lemma adds_refl db : adds db db.
Proof. split_and!; [exists []; by rewrite app_nil_r..|done]. Qed.

Lemma adds_trans a b c : adds a b -> adds b c -> adds a c.
Proof.
  intros ([l1 E1] & [m1 F1] & V1) ([l2 E2] & [m2 F2] & V2).
  split_and!; [exists (l1 ++ l2); by rewrite E2, E1, app_assoc|exists (m1 ++ m2); by rewrite F2, F1, app_assoc|congruence].
Qed.

Lemma covered_adds a b sid key : adds a b -> covered a sid key -> covered b sid key.
Proof. intros ([l E] & _) (r & Hr & H). exists r. rewrite E, elem_of_app. auto. Qed.

Lemma noted_adds a b sid key reason : adds a b -> noted a sid key reason -> noted b sid key reason.
Proof. intros (_ & [l E] & _) (n & Hn & H). exists n. rewrite E, elem_of_app. auto. Qed.

Lemma conflicts_spec a r :
  conflicts a r = true <-> r.(r_schedule_id) = a.(i_schedule_id) /\
    (r.(idempotency_key) = a.(i_idempotency_key) \/
     (exists k, r.(occurrence_key) = Some k /\ a.(i_occurrence_key) = Some k) \/
     (r.(run_kind) = a.(i_run_kind) /\ exists k, r.(request_key) = Some k /\ a.(i_request_key) = Some k)).
Proof.
  assert (forall A `{EqDecision A} (x y : option A), same_some x y = true <-> exists k, x = Some k /\ y = Some k) as Hss.
  { intros A ? [x|] [y|]; cbn; rewrite ?bool_decide_eq_true; naive_solver. }
  unfold conflicts. rewrite !andb_true_iff, !orb_true_iff, andb_true_iff, !bool_decide_eq_true, String.eqb_eq, !Hss.
  tauto.
Qed.

Lemma insert_run_cases a db :
  (exists r, r ∈ db.(runs) /\ conflicts a r = true /\ insert_run a db = (None, db)) \/
  (forall r, r ∈ db.(runs) -> conflicts a r = false) /\ exists row,
    insert_run a db = (Some row, with_runs (db.(runs) ++ [row]) db) /\
    row.(r_schedule_id) = a.(i_schedule_id) /\ row.(idempotency_key) = a.(i_idempotency_key) /\
    row.(occurrence_key) = a.(i_occurrence_key).
Proof.
  unfold insert_run. destruct (existsb _ _) eqn:E; [left|right].
  - apply existsb_exists in E as (r & Hr & Hc). exists r. split_and!; [by apply list_elem_of_In|done|done].
  - split; [|by eexists]. intros r Hr%list_elem_of_In. destruct (conflicts a r) eqn:Ec; [|done].
    rewrite <- E. symmetry. apply existsb_exists. eauto.
Qed.

Lemma insert_run_adds a db : adds db (insert_run a db).2.
Proof.
  destruct (insert_run_cases a db) as [(r & _ & _ & ->)|(_ & row & -> & _)]; [apply adds_refl|].
  split_and!; cbn; [by eexists|exists []; by rewrite app_nil_r|done].
Qed.

Lemma insert_run_ok a db : runs_ok db -> runs_ok (insert_run a db).2.
Proof.
  intros Hok. destruct (insert_run_cases a db) as [(r & _ & _ & ->)|(Hno & row & -> & Hs & Hi & Ho)]; [done|].
  assert (forall k b, db.(runs) !! k = Some b -> b.(r_schedule_id) = row.(r_schedule_id) ->
    b.(idempotency_key) = row.(idempotency_key) \/ (exists x, b.(occurrence_key) = Some x /\ row.(occurrence_key) = Some x) ->
    False) as Hnew.
  { intros k b Hb Hsid Hk. apply list_elem_of_lookup_2, Hno in Hb. rewrite Hs in Hsid. rewrite Hi, Ho in Hk.
    assert (conflicts a b = true) by (apply conflicts_spec; tauto). congruence. }
  intros i j x y Hx Hy Hsid Hk. cbn in Hx, Hy.
  apply lookup_snoc_Some in Hx as [[Hi1 Hx]|[-> ->]], Hy as [[Hj1 Hy]|[-> ->]]; [|exfalso|exfalso|done].
  - by apply (Hok i j x y).
  - by apply (Hnew i x).
  - apply (Hnew j y Hy); [done|]. destruct Hk as [Hk|(k & H1 & H2)]; eauto.
Qed.

Lemma insert_scheduled_covered s v now u key local note db :
  covered (insert_run (scheduled_run s v now u key local note) db).2 s.(s_schedule_id) key.
Proof.
  destruct (insert_run_cases (scheduled_run s v now u key local note) db)
    as [(r & Hr & [Hs Hc]%conflicts_spec & ->)|(_ & row & -> & Hs & Hi & Ho)]; cbn in *.
  - exists r. split_and!; [done..|]. destruct Hc as [Hc|[(k & Hk & [= <-])|(_ & k & _ & ?)]]; [by right|by left|done].
  - exists row. cbn. rewrite elem_of_app, list_elem_of_singleton. split_and!; [by right|done|by left].
Qed.

Lemma note_added n db :
  adds db (add_planner_note n db).2 /\ noted (add_planner_note n db).2 n.(n_schedule_id) n.(n_key) n.(n_reason) /\
  (add_planner_note n db).2.(runs) = db.(runs).
Proof.
  unfold add_planner_note. destruct (existsb _ _) eqn:E; cbn.
  - split_and!; [apply adds_refl| |done]. apply existsb_exists in E as (m & Hm & H). unfold same_note in H.
    rewrite !andb_true_iff, !String.eqb_eq, bool_decide_eq_true in H. exists m.
    split; [by apply list_elem_of_In|tauto].
  - split_and!; [| |done]; cycle 1.
    { exists n. cbn. rewrite elem_of_app, list_elem_of_singleton. by split_and!; [right|..]. }
    split_and!; cbn; [exists []; by rewrite app_nil_r|by eexists|done].
Qed.

Lemma plan_missed_perm policy missed now window limit plan :
  plan_missed_runs policy missed now window limit = Ok plan ->
  forall m, m ∈ missed -> m ∈ plan.(to_create) \/ m ∈ plan.(skipped).
Proof.
  intros H m Hm. pose proof (plan_missed_partition policy missed now window limit) as Hp.
  rewrite H in Hp. by rewrite <- Hp, elem_of_app in Hm.
Qed.

(** What one occurrence asks of the rows. *)
Definition accounted (s : ScheduleRow) (v : VersionRow) (now : Z) (db : Db) (o : Occurrence) : Prop :=
  match o.(o_utc) with
  | None => noted db s.(s_schedule_id) o.(o_key) "DST_GAP"
  | Some u => _within_validity v u = true ->
      covered db s.(s_schedule_id) o.(o_key) \/
      (u <= now /\ noted db s.(s_schedule_id) o.(o_key) ("MISSED_SKIPPED_" +:+ policy_name v.(missed_run_policy)))
  end.

(** While gathering: a missed occurrence is still in the list. *)
Definition gathered (s : ScheduleRow) (v : VersionRow) (now : Z) (st : Gathered * Db) (o : Occurrence) : Prop :=
  match o.(o_utc) with
  | None => noted st.2 s.(s_schedule_id) o.(o_key) "DST_GAP"
  | Some u => _within_validity v u = true -> covered st.2 s.(s_schedule_id) o.(o_key) \/
      (u <= now /\ {| m_key := o.(o_key); m_scheduled_for := u |} ∈ st.1.(g_missed))
  end.

Lemma gather_one_spec s v now o st :
  adds st.2 (gather_one s v now o st).2 /\ (runs_ok st.2 -> runs_ok (gather_one s v now o st).2) /\
  (forall m, m ∈ st.1.(g_missed) -> m ∈ (gather_one s v now o st).1.(g_missed)) /\
  gathered s v now (gather_one s v now o st) o.
Proof.
  destruct st as [g db]. unfold gather_one, gathered. destruct (o_utc o) as [u|]; cbn [fst snd].
  - destruct (_within_validity v u) eqn:Ev; cbn [negb]; [|by split_and!; [apply adds_refl|..]].
    destruct (Z.leb_spec u now).
    + cbn. split_and!; [apply adds_refl|done| |].
      * intros m Hm. apply elem_of_app. by left.
      * intros _. right. split; [done|]. apply elem_of_app. right. by apply list_elem_of_singleton.
    + pose proof (insert_run_adds (scheduled_run s v now u o.(o_key) (Some o.(o_local)) None) db) as H1.
      pose proof (insert_run_ok (scheduled_run s v now u o.(o_key) (Some o.(o_local)) None) db) as H2.
      pose proof (insert_scheduled_covered s v now u o.(o_key) (Some o.(o_local)) None db) as H3.
      destruct (insert_run _ _) as [run db']. cbn in *. split_and!; [done|done|done|by left].
  - destruct (note_added (mk_note s.(s_schedule_id) o.(o_key) "DST_GAP" (Some o.(o_local)) None None) db)
      as (H1 & H2 & H3). cbn. split_and!; [done| |done|done].
    intros Hok. unfold runs_ok in *. by rewrite H3.
Qed.

Lemma gather_spec s v now occs st :
  let st' := foldl (fun st o => gather_one s v now o st) st occs in
  adds st.2 st'.2 /\ (runs_ok st.2 -> runs_ok st'.2) /\
  (forall m, m ∈ st.1.(g_missed) -> m ∈ st'.1.(g_missed)) /\
  (forall o, o ∈ occs -> gathered s v now st' o).
Proof.
  cbn zeta. revert st. induction occs as [|o occs IH]; intros st; cbn [foldl].
  { split_and!; [apply adds_refl|done|done|by intros o ?%elem_of_nil]. }
  destruct (gather_one_spec s v now o st) as (A1 & A2 & A3 & A4).
  destruct (IH (gather_one s v now o st)) as (B1 & B2 & B3 & B4).
  split_and!; [by eapply adds_trans|auto|auto|].
  intros o' [->|Ho']%elem_of_cons; [|by apply B4].
  unfold gathered in *. destruct (o_utc o); [|by eapply noted_adds].
  intros Hv. destruct (A4 Hv) as [H|[H1 H2]]; [left; by eapply covered_adds|right; auto].
Qed.

Lemma create_missed_spec s v now local_of items ids db :
  let r := foldl (fun '(ids, db) m =>
    let '(run, db) := insert_run (scheduled_run s v now m.(m_scheduled_for) m.(m_key)
      (local_of_get local_of m.(m_key)) (Some ("MISSED_" +:+ policy_name v.(missed_run_policy)))) db in
    (match run with Some r => ids ++ [r.(run_id)] | None => ids end, db)) (ids, db) items in
  adds db r.2 /\ (runs_ok db -> runs_ok r.2) /\
  (forall m, m ∈ items -> covered r.2 s.(s_schedule_id) m.(m_key)).
Proof.
  cbn zeta. revert ids db. induction items as [|m items IH]; intros ids db; cbn [foldl].
  { split_and!; [apply adds_refl|done|by intros m ?%elem_of_nil]. }
  set (a := scheduled_run s v now m.(m_scheduled_for) m.(m_key) _ _).
  pose proof (insert_run_adds a db) as H1. pose proof (insert_run_ok a db) as H2.
  pose proof (insert_scheduled_covered s v now m.(m_scheduled_for) m.(m_key)
    (local_of_get local_of m.(m_key)) (Some ("MISSED_" +:+ policy_name v.(missed_run_policy))) db) as H3.
  fold a in H3. destruct (insert_run a db) as [run db']. cbn in H1, H2, H3.
  destruct (IH (match run with Some r => ids ++ [r.(run_id)] | None => ids end) db') as (B1 & B2 & B3).
  split_and!; [by eapply adds_trans|auto|].
  intros m' [->|Hm']%elem_of_cons; [by eapply covered_adds|by apply B3].
Qed.

Lemma note_skipped_spec s v w items db :
  adds db (note_skipped s v w items db) /\ (note_skipped s v w items db).(runs) = db.(runs) /\
  (forall m, m ∈ items -> noted (note_skipped s v w items db) s.(s_schedule_id) m.(m_key)
     ("MISSED_SKIPPED_" +:+ policy_name v.(missed_run_policy))).
Proof.
  unfold note_skipped. revert db. induction items as [|m items IH]; intros db; cbn [foldl].
  { split_and!; [apply adds_refl|done|by intros m ?%elem_of_nil]. }
  set (n := mk_note _ _ _ _ _ _). destruct (note_added n db) as (H1 & H2 & H3).
  destruct (IH (add_planner_note n db).2) as (B1 & B2 & B3).
  split_and!; [by eapply adds_trans|congruence|].
  intros m' [->|Hm']%elem_of_cons; [|by apply B3]. eapply noted_adds; [exact B1|]. exact H2.
Qed.

Lemma note_warning_spec s w db : adds db (note_warning s w db) /\ (note_warning s w db).(runs) = db.(runs).
Proof.
  unfold note_warning. destruct w; [|by split; [apply adds_refl|]].
  match goal with |- context [add_planner_note ?n db] => by destruct (note_added n db) as (H1 & _ & H3) end.
Qed.

Lemma plan_schedule_spec now horizon s v db r db' :
  plan_schedule now horizon s v db = Ok (r, db') ->
  exists occs, _occurrences v (default now s.(last_planned_until)) (now + seconds horizon) = Ok occs /\
    adds db db' /\ (runs_ok db -> runs_ok db') /\ (forall o, o ∈ occs -> accounted s v now db' o).
Proof.
  unfold plan_schedule. cbn zeta. intros (occs & Hoccs & H)%res_bind_ok. exists occs. split; [done|].
  pose proof (gather_spec s v now occs ({| g_created := []; g_gaps := 0; g_missed := []; g_local_of := [] |}, db))
    as (A1 & A2 & _ & A4). fold (gather s v now occs db) in A1, A2, A4.
  destruct (gather s v now occs db) as [g db1]. cbn [fst snd] in *.
  apply res_bind_ok in H as (plan & Hplan & H).
  pose proof (plan_missed_perm _ _ _ _ _ _ Hplan) as Hcase. clear Hplan.
  pose proof (create_missed_spec s v now g.(g_local_of) plan.(to_create) [] db1) as (B1 & B2 & B3).
  fold (create_missed s v now g.(g_local_of) plan.(to_create) db1) in B1, B2, B3.
  destruct (create_missed _ _ _ _ _ _) as [ids db2]. cbn [fst snd] in *.
  apply res_bind_ok in H as (up & _ & [= <- <-]).
  destruct (note_skipped_spec s v plan.(warning) plan.(skipped) db2) as (C1 & C2 & C3).
  set (db3 := note_skipped s v plan.(warning) plan.(skipped) db2) in *.
  destruct (note_warning_spec s plan.(warning) db3) as (D1 & D2).
  set (db4 := note_warning s plan.(warning) db3) in *.
  assert (adds db db4) as Hadds by (eauto using adds_trans).
  assert (adds db1 db4) as Hadds1 by (eauto using adds_trans).
  assert (adds db2 db4) as Hadds2 by (eauto using adds_trans).
  split_and!; [exact Hadds| |].
  - intros Hok. unfold runs_ok. cbn. rewrite D2, C2. by apply B2, A2.
  - intros o Ho. specialize (A4 o Ho). unfold gathered, accounted in *. destruct (o_utc o) as [u|]; cbn in A4.
    + intros Hv. destruct (A4 Hv) as [Hc|[Hu Hm]]; [left; exact (covered_adds _ _ _ _ Hadds1 Hc)|].
      destruct (Hcase _ Hm) as [Hc|Hc].
      * left. exact (covered_adds _ _ _ _ Hadds2 (B3 _ Hc)).
      * right. split; [done|]. exact (noted_adds _ _ _ _ _ D1 (C3 _ Hc)).
    + exact (noted_adds _ _ _ _ _ Hadds1 A4).
Qed.

Lemma insert_run_schedules a db : (insert_run a db).2.(schedules) = db.(schedules).
Proof. unfold insert_run. by destruct (existsb _ _). Qed.

Lemma add_note_schedules n db : (add_planner_note n db).2.(schedules) = db.(schedules).
Proof. unfold add_planner_note. by destruct (existsb _ _). Qed.

Lemma gather_schedules s v now occs db : (gather s v now occs db).2.(schedules) = db.(schedules).
Proof.
  unfold gather. change (schedules db) with (schedules ({| g_created := []; g_gaps := 0; g_missed := [];
    g_local_of := [] |}, db).2). generalize ({| g_created := []; g_gaps := 0; g_missed := []; g_local_of := [] |}, db).
  induction occs as [|o occs IH]; intros [g d]; [done|]. cbn [foldl]. rewrite IH. unfold gather_one.
  destruct (o_utc o); [|apply add_note_schedules]. destruct (negb _); [done|]. destruct (_ <=? _); [done|].
  match goal with |- context [insert_run ?a d] => pose proof (insert_run_schedules a d) as H; by destruct (insert_run a d) end.
Qed.

Lemma create_missed_schedules s v now lo items db : (create_missed s v now lo items db).2.(schedules) = db.(schedules).
Proof.
  unfold create_missed. match goal with |- context [foldl ?f _ _] => set (step := f) end.
  enough (forall ids d, (foldl step (ids, d) items).2.(schedules) = d.(schedules)) as H by apply H.
  induction items as [|m items IH]; intros ids d; [done|]. cbn [foldl]. unfold step at 2.
  match goal with |- context [insert_run ?a d] => pose proof (insert_run_schedules a d) as H;
    destruct (insert_run a d) as [run d'] end.
  by rewrite IH.
Qed.

Lemma note_skipped_schedules s v w items db : (note_skipped s v w items db).(schedules) = db.(schedules).
Proof.
  unfold note_skipped. revert db. induction items as [|m items IH]; intros db; [done|].
  cbn [foldl]. rewrite IH. apply add_note_schedules.
Qed.

Lemma note_warning_schedules s w db : (note_warning s w db).(schedules) = db.(schedules).
Proof. destruct w; [apply add_note_schedules|done]. Qed.

(** ** The window is covered *)

(** The wall clock shows an earlier minute first. *)
Definition zone_monotone (z : ZoneInfo) : Prop :=
  forall u1 u2, z.(to_local) u1 < z.(to_local) u2 ->
    z.(to_utc) false (z.(to_local) u1) < z.(to_utc) false (z.(to_local) u2).

(** The first instant at which the clock shows [l]. *)
Definition first_shown (z : ZoneInfo) (l u : Z) : Prop :=
  z.(to_local) u = l /\ forall u', z.(to_local) u' = l -> u <= u'.

Lemma first_shown_utc z l u : zone_laws z -> first_shown z l u -> u = z.(to_utc) false l.
Proof.
  intros Hz [Hu Hmin]. pose proof (Hz u) as (H1 & _ & H2). rewrite Hu in *. cbn in *.
  specialize (Hmin _ H1). lia.
Qed.

Lemma first_shown_lt z l1 u1 l2 u2 :
  zone_laws z -> zone_monotone z -> first_shown z l1 u1 -> first_shown z l2 u2 -> l1 < l2 -> u1 < u2.
Proof.
  intros Hz Hm H1 H2 Hlt. rewrite (first_shown_utc _ _ _ Hz H1), (first_shown_utc _ _ _ Hz H2).
  destruct H1 as [<- _], H2 as [<- _]. by apply Hm.
Qed.

Lemma shown_later z l u start :
  zone_laws z -> zone_monotone z -> first_shown z l u -> start < u -> z.(to_local) start < l.
Proof.
  intros Hz Hm Hf Hlt. pose proof Hf as [Hu Hmin].
  destruct (Z.lt_trichotomy (to_local z start) l) as [H|[H|H]]; [done|specialize (Hmin _ H); lia|].
  pose proof (Hz start) as (H1 & _ & H2). assert (first_shown z (to_local z start) (to_utc z false (to_local z start))) as Hs.
  { split; [done|]. intros u' Hu'. pose proof (Hz u') as (_ & _ & H3). rewrite Hu' in H3. lia. }
  pose proof (first_shown_lt _ _ _ _ _ Hz Hm Hf Hs H). lia.
Qed.

Lemma start_local_le q l : whole_minute l -> q.(q_zone).(to_local) q.(q_after) < l -> start_local q <= l.
Proof.
  unfold whole_minute, start_local. cbn zeta. set (x := to_local _ _). change minute_us with 60000000.
  intros Hl Hlt. pose proof (Z.div_mod l 60000000). pose proof (Z.div_mod x 60000000).
  pose proof (Z.mod_pos_bound x 60000000). lia.
Qed.

Lemma start_local_ge q : q.(q_zone).(to_local) q.(q_after) <= start_local q.
Proof.
  unfold start_local. cbn zeta. set (x := to_local _ _). change minute_us with 60000000.
  pose proof (Z.mod_pos_bound x 60000000). lia.
Qed.

Lemma take_window_elem until l1 o l2 u :
  (forall o' u', o' ∈ l1 -> o'.(o_utc) = Some u' -> u' <= until) ->
  o.(o_utc) = Some u -> u <= until -> o ∈ take_window until (l1 ++ o :: l2).
Proof.
  intros Hl Ho Hu. induction l1 as [|a l1 IH]; cbn.
  - rewrite Ho. destruct (Z.ltb_spec until u); [lia|left].
  - destruct (o_utc a) as [ua|] eqn:Ea.
    + specialize (Hl a ua (list_elem_of_here _ _) Ea) as Hle. destruct (Z.ltb_spec until ua); [lia|].
      right. apply IH. intros o' u' Ho'. apply Hl. by right.
    + right. apply IH. intros o' u' Ho'. apply Hl. by right.
Qed.

Lemma take_window_all until l :
  (forall o u, o ∈ l -> o.(o_utc) = Some u -> u <= until) -> take_window until l = l.
Proof.
  induction l as [|o l IH]; intros H; cbn; [done|].
  rewrite IH by (intros o' u' Ho'; apply H; by right).
  destruct (o_utc o) as [u|] eqn:Eo; [|done]. pose proof (H o u (list_elem_of_here _ _) Eo).
  by destruct (Z.ltb_spec until u); [lia|].
Qed.

(** The query of a planning window. *)
Definition window_query (v : VersionRow) (c : CronExpression) (zone : ZoneInfo) (start until : Z) : Query := {|
  q_cron := c; q_timezone := v.(timezone); q_zone := zone; q_after := start;
  q_count := _expected_count (Z.max 0 (until - start)) v.(min_interval_minutes);
  q_schedule_id := v.(v_schedule_id); q_include_gaps := true |}.

Lemma window_occurrences v c zone start until :
  parse v.(cron_expression) = Ok c -> load_zone tzdata v.(timezone) = Ok zone ->
  _occurrences v start until =
    Ok (take_window until (run_query sha256_hex (window_query v c zone start until))).
Proof.
  intros Hc Hz. unfold _occurrences, next_of. cbn zeta. rewrite Hc. cbn [mbind res_bind].
  unfold next_occurrences. rewrite Hz. done.
Qed.

Lemma window_complete v c zone start until l u :
  cron_ok c -> zone_laws zone -> zone_monotone zone ->
  executables (take_window until (run_query sha256_hex (window_query v c zone start until))) <
    _expected_count (Z.max 0 (until - start)) v.(min_interval_minutes) ->
  whole_minute l -> matches c l = true -> first_shown zone l u -> start < u <= until ->
  day_of l <= day_of (zone.(to_local) start) + PREVIEW_HORIZON_DAYS ->
  exists o, o ∈ take_window until (run_query sha256_hex (window_query v c zone start until)) /\
    o.(o_utc) = Some u /\ o.(o_key) = Cron.occurrence_key sha256_hex v.(v_schedule_id) v.(timezone) l.
Proof.
  intros Hc Hz Hmono Hcount Hw Hm Hf Hu Hday. set (q := window_query v c zone start until) in *.
  assert (zone.(to_local) start < l) as Hlate by (apply (shown_later zone l u start Hz Hmono Hf); lia).
  pose proof (start_local_le q l Hw Hlate) as Hstart.
  pose proof (fun o' => run_query_sound sha256_hex q o' Hc Hz) as Hsound.
  destruct (run_query_complete sha256_hex q l u) as [(o & Ho & Hol)|[Hfull Hbefore]]; try done.
  { etransitivity; [exact Hday|]. apply Zplus_le_compat_r, Z.div_le_mono; [done|exact (start_local_ge q)]. }
  { apply Hf. }
  { intros u' Hu'%Hf. change (q_after q) with start. lia. }
  2:{ exfalso. rewrite take_window_all in Hcount.
      - rewrite Hfull in Hcount.
        change (q_count q) with (_expected_count (Z.max 0 (until - start)) v.(min_interval_minutes)) in Hcount. lia.
      - intros o' u' Ho' Eu'. pose proof (Hbefore o' Ho') as Hlt. apply (Hsound o') in Ho' as (_ & _ & _ & _ & Hs').
        rewrite Eu' in Hs'. assert (u' < u); [|lia].
        apply (first_shown_lt zone o'.(o_local) u' l u Hz Hmono); [split; apply Hs'|done|done]. }
  pose proof (Hsound o Ho) as (_ & _ & _ & Hkey & Hutc).
  destruct (o_utc o) as [u0|] eqn:Eo; [|destruct Hutc as [_ Hno]; destruct Hf as [Hf _]; rewrite Hol in Hno; by destruct (Hno u)].
  assert (u0 = u) as ->.
  { rewrite Hol in Hutc. destruct Hutc as (_ & H1 & H2), Hf as [H3 H4]. pose proof (H2 _ H3). pose proof (H4 _ H1). lia. }
  exists o. split; [|split; [done|by rewrite Hkey, Hol]].
  pose proof (run_query_sorted sha256_hex q Hc) as Hs. pose proof Ho as (l1 & l2 & E)%list_elem_of_split.
  rewrite E in Hs, Hsound. rewrite E. eapply take_window_elem; [|exact Eo|lia].
  intros o' u' Ho' Eu'. destruct (Hsound o') as (_ & _ & _ & _ & Hs'); [apply elem_of_app; by left|].
  rewrite Eu' in Hs'. rewrite fmap_app in Hs. apply StronglySorted_app in Hs as [Hs _].
  assert (o'.(o_local) < o.(o_local)) as Hlt by (apply Hs; [by apply list_elem_of_fmap_2|apply list_elem_of_fmap_2, list_elem_of_here]).
  assert (u' < u); [|lia].
  apply (first_shown_lt zone o'.(o_local) u' l u Hz Hmono); [|done|by rewrite <- Hol].
  split; apply Hs'.
Qed.

(** What a tick owes to the window of a Schedule: when the window has fewer due minutes
    than the tick looks for (at most 500), every minute the cron expression names in it
    that the version is valid for has a Run, or, if it is already past, a note that the
    missed-run policy skipped it. *)
Definition window_accounted (s : ScheduleRow) (v : VersionRow) (now until : Z) (db' : Db) : Prop :=
  forall c zone l u,
    parse v.(cron_expression) = Ok c -> load_zone tzdata v.(timezone) = Ok zone -> zone_laws zone -> zone_monotone zone ->
    let start := default now s.(last_planned_until) in
    executables (take_window until (run_query sha256_hex (window_query v c zone start until))) <
      _expected_count (Z.max 0 (until - start)) v.(min_interval_minutes) ->
    whole_minute l -> matches c l = true -> first_shown zone l u -> start < u <= until ->
    day_of l <= day_of (zone.(to_local) start) + PREVIEW_HORIZON_DAYS -> _within_validity v u = true ->
    let key := Cron.occurrence_key sha256_hex v.(v_schedule_id) v.(timezone) l in
    covered db' s.(s_schedule_id) key \/
    (u <= now /\ noted db' s.(s_schedule_id) key ("MISSED_SKIPPED_" +:+ policy_name v.(missed_run_policy))).

Lemma plan_schedule_accounts now horizon s v db r db' :
  plan_schedule now horizon s v db = Ok (r, db') -> window_accounted s v now (now + seconds horizon) db'.
Proof.
  intros Hp c zone l u Hc Hzone Hz Hmono start Hcount Hw Hm Hf Hu Hday Hv key.
  apply plan_schedule_spec in Hp as (occs & Hoccs & _ & _ & Hacc). fold start in Hoccs.
  rewrite (window_occurrences v c zone start _ Hc Hzone) in Hoccs. injection Hoccs as <-.
  destruct (window_complete v c zone start (now + seconds horizon) l u) as (o & Ho & Eu & Ek); try done.
  { by eapply parse_ok. }
  specialize (Hacc o Ho). unfold accounted in Hacc. rewrite Eu, Ek in Hacc. by apply Hacc.
Qed.

Lemma window_accounted_adds s v now until db1 db2 :
  adds db1 db2 -> window_accounted s v now until db1 -> window_accounted s v now until db2.
Proof.
  intros Ha H c zone l u Hc Hzone Hz Hmono start Hcount Hw Hm Hf Hu Hday Hv key.
  destruct (H c zone l u Hc Hzone Hz Hmono Hcount Hw Hm Hf Hu Hday Hv) as [Hcov|[Hle Hn]].
  - left. by eapply covered_adds.
  - right. split; [done|by eapply noted_adds].
Qed.

(** ** The Runs a tick adds *)

(** The row an INSERT writes. *)
Definition is_row (a : InsertArgs) (r : RunRow) : Prop :=
  r.(r_workspace_id) = a.(i_workspace_id) /\ r.(r_schedule_id) = a.(i_schedule_id) /\
  r.(schedule_version_id) = a.(i_version).(version_id) /\ r.(run_kind) = a.(i_run_kind) /\
  r.(occurrence_key) = a.(i_occurrence_key) /\ r.(scheduled_for) = a.(i_scheduled_for) /\
  r.(r_status) = a.(i_status) /\ r.(idempotency_key) = a.(i_idempotency_key).

(** The rows [rows] come from the INSERTs [args] that met no conflict. *)
Definition inserted (args : list InsertArgs) (rows : list RunRow) : Prop :=
  exists kept, sublist kept args /\ Forall2 is_row kept rows.

Lemma inserted_nil : inserted [] [].
Proof. exists []. split; constructor. Qed.

Lemma inserted_app a1 a2 r1 r2 : inserted a1 r1 -> inserted a2 r2 -> inserted (a1 ++ a2) (r1 ++ r2).
Proof. intros (k1 & S1 & F1) (k2 & S2 & F2). exists (k1 ++ k2). split; [by apply sublist_app|by apply Forall2_app]. Qed.

Lemma inserted_elem args rows r : inserted args rows -> r ∈ rows -> exists a, a ∈ args /\ is_row a r.
Proof.
  intros (kept & Hs & Hf) (i & Hi)%list_elem_of_lookup. destruct (Forall2_lookup_r _ _ _ _ _ Hf Hi) as (a & Ha & Hr).
  exists a. split; [|done]. eapply sublist_subseteq; [exact Hs|by eapply list_elem_of_lookup_2].
Qed.

Lemma inserted_instants args rows :
  inserted args rows -> NoDup (i_scheduled_for <$> args) -> NoDup (scheduled_for <$> rows).
Proof.
  intros (kept & Hs & Hf) Hnd. assert (scheduled_for <$> rows = i_scheduled_for <$> kept) as ->.
  { clear Hs. induction Hf as [|a r kept rows (_ & _ & _ & _ & _ & E & _) _ IH]; cbn; [done|by rewrite E, IH]. }
  eapply sublist_NoDup; [exact Hnd|by apply fmap_sublist].
Qed.

Lemma insert_run_row a db :
  exists rows, (insert_run a db).2.(runs) = db.(runs) ++ rows /\ inserted [a] rows /\
    length rows = match (insert_run a db).1 with Some _ => 1%nat | None => 0%nat end.
Proof.
  unfold insert_run. destruct (existsb _ _).
  - exists []. rewrite app_nil_r. split_and!; [done| |done]. exists []. split; [apply sublist_nil_l|constructor].
  - eexists. split_and!; [reflexivity| |done]. exists [a]. split; [done|]. constructor; [|constructor]. by split_and!.
Qed.

(** What an occurrence asks for: a Run at once, or a decision of the missed-run policy. *)
Definition upcoming_of (s : ScheduleRow) (v : VersionRow) (now : Z) (o : Occurrence) : list InsertArgs :=
  match o.(o_utc) with
  | Some u => if _within_validity v u && (now <? u) then [scheduled_run s v now u o.(o_key) (Some o.(o_local)) None] else []
  | None => []
  end.

Definition missed_of (v : VersionRow) (now : Z) (o : Occurrence) : list MissedOccurrence :=
  match o.(o_utc) with
  | Some u => if _within_validity v u && (u <=? now) then [{| m_key := o.(o_key); m_scheduled_for := u |}] else []
  | None => []
  end.

Definition missed_run s v now (local_of : list (ustr * Z)) (m : MissedOccurrence) : InsertArgs :=
  scheduled_run s v now m.(m_scheduled_for) m.(m_key) (local_of_get local_of m.(m_key))
    (Some ("MISSED_" +:+ policy_name v.(missed_run_policy))).

Lemma gather_one_runs s v now o st :
  exists rows, (gather_one s v now o st).2.(runs) = st.2.(runs) ++ rows /\ inserted (upcoming_of s v now o) rows /\
    (gather_one s v now o st).1.(g_missed) = st.1.(g_missed) ++ missed_of v now o /\
    length (gather_one s v now o st).1.(g_created) = (length st.1.(g_created) + length rows)%nat.
Proof.
  destruct st as [g db]. unfold gather_one, upcoming_of, missed_of. destruct (o_utc o) as [u|]; cbn [fst snd].
  - destruct (_within_validity v u); cbn [negb andb fst snd];
      [|exists []; rewrite !app_nil_r; split_and!; [done|apply inserted_nil|done|cbn; lia]].
    destruct (Z.leb_spec u now), (Z.ltb_spec now u); [lia| | |lia].
    + exists []. cbn. rewrite !app_nil_r. split_and!; [done|apply inserted_nil|done|lia].
    + destruct (insert_run_row (scheduled_run s v now u o.(o_key) (Some o.(o_local)) None) db) as (rows & Hr & Hi & Hl).
      destruct (insert_run _ db) as [run db']. cbn [fst snd] in *. exists rows. cbn. rewrite app_nil_r.
      split_and!; [done|done|done|]. destruct run; rewrite ?length_app; cbn; lia.
  - exists []. destruct (note_added (mk_note s.(s_schedule_id) o.(o_key) "DST_GAP" (Some o.(o_local)) None None) db)
      as (_ & _ & ->). cbn. rewrite !app_nil_r. split_and!; [done|apply inserted_nil|done|lia].
Qed.

Lemma gather_runs s v now occs st :
  let st' := foldl (fun st o => gather_one s v now o st) st occs in
  exists rows, st'.2.(runs) = st.2.(runs) ++ rows /\ inserted (flat_map (upcoming_of s v now) occs) rows /\
    st'.1.(g_missed) = st.1.(g_missed) ++ flat_map (missed_of v now) occs /\
    length st'.1.(g_created) = (length st.1.(g_created) + length rows)%nat.
Proof.
  cbn zeta. revert st. induction occs as [|o occs IH]; intros st; cbn [foldl flat_map].
  { exists []. rewrite !app_nil_r. split_and!; [done|apply inserted_nil|done|cbn; lia]. }
  destruct (gather_one_runs s v now o st) as (r1 & E1 & I1 & M1 & L1).
  destruct (IH (gather_one s v now o st)) as (r2 & E2 & I2 & M2 & L2).
  exists (r1 ++ r2). rewrite E2, E1, M2, M1, L2, L1, length_app, !app_assoc.
  split_and!; [done|by apply inserted_app|done|lia].
Qed.

Lemma create_missed_runs s v now local_of items db :
  exists rows, (create_missed s v now local_of items db).2.(runs) = db.(runs) ++ rows /\
    inserted (missed_run s v now local_of <$> items) rows /\
    length (create_missed s v now local_of items db).1 = length rows.
Proof.
  unfold create_missed. match goal with |- context [foldl ?f _ _] => set (step := f) end.
  enough (forall ids d, exists rows, (foldl step (ids, d) items).2.(runs) = d.(runs) ++ rows /\
    inserted (missed_run s v now local_of <$> items) rows /\
    length (foldl step (ids, d) items).1 = (length ids + length rows)%nat) as H by apply (H []).
  induction items as [|m items IH]; intros ids d; cbn [foldl fmap list_fmap].
  { exists []. rewrite app_nil_r. split_and!; [done|apply inserted_nil|cbn; lia]. }
  unfold step at 2 4. fold (missed_run s v now local_of m).
  destruct (insert_run_row (missed_run s v now local_of m) d) as (r1 & E1 & I1 & L1).
  destruct (insert_run _ d) as [run d']. cbn [fst snd] in *.
  destruct (IH (match run with Some r => ids ++ [run_id r] | None => ids end) d') as (r2 & E2 & I2 & L2).
  exists (r1 ++ r2). rewrite E2, E1, L2, length_app, app_assoc. split_and!; [done|by apply (inserted_app [_])|].
  destruct run; rewrite ?length_app; cbn in *; lia.
Qed.

(** The schedules after a plan: only the mark and the next instant of its own change. *)
Lemma plan_schedule_runs now horizon s v db r db' :
  plan_schedule now horizon s v db = Ok (r, db') ->
  exists occs create skip local_of rows next,
    _occurrences v (default now s.(last_planned_until)) (now + seconds horizon) = Ok occs /\
    create ++ skip ≡ₚ flat_map (missed_of v now) occs /\
    db'.(runs) = db.(runs) ++ rows /\
    inserted (flat_map (upcoming_of s v now) occs ++ (missed_run s v now local_of <$> create)) rows /\
    (length r.(created) + length r.(missed_created))%nat = length rows /\
    db'.(schedules) = (update_schedule s.(s_schedule_id) (Some (now + seconds horizon)) next db).(schedules).
Proof.
  unfold plan_schedule. cbn zeta. intros (occs & Hoccs & H)%res_bind_ok.
  pose proof (gather_runs s v now occs ({| g_created := []; g_gaps := 0; g_missed := []; g_local_of := [] |}, db))
    as (r1 & E1 & I1 & M1 & L1). fold (gather s v now occs db) in E1, M1, L1.
  pose proof (gather_schedules s v now occs db) as A. destruct (gather s v now occs db) as [g db1]. cbn [fst snd] in *.
  apply res_bind_ok in H as (plan & Hplan & H).
  pose proof (plan_missed_partition v.(missed_run_policy) g.(g_missed) now v.(backfill_window_seconds) v.(backfill_limit)) as Hp.
  rewrite Hplan, M1 in Hp. cbn [g_missed app] in Hp.
  destruct (create_missed_runs s v now g.(g_local_of) plan.(to_create) db1) as (r2 & E2 & I2 & L2).
  pose proof (create_missed_schedules s v now g.(g_local_of) plan.(to_create) db1) as B.
  destruct (create_missed _ _ _ _ _ _) as [ids db2]. cbn [fst snd] in *.
  apply res_bind_ok in H as (up & _ & [= <- <-]). cbn [created missed_created runs schedules update_schedule with_schedules].
  rewrite note_warning_schedules, note_skipped_schedules, B, A.
  rewrite (proj2 (note_warning_spec _ _ _)), (proj1 (proj2 (note_skipped_spec _ _ _ _ _))), E2, E1.
  exists occs, plan.(to_create), plan.(skipped), g.(g_local_of), (r1 ++ r2). eexists.
  split_and!; [done|done|by rewrite app_assoc|by apply inserted_app| |reflexivity].
  rewrite L1, L2, length_app. cbn. lia.
Qed.

(** A Run the planner creates at [now] for the window up to [until]: it stands for a
    minute of the cron expression of its version, at the first instant the clock of the
    version's timezone shows that minute, and the key names that minute and nothing else. *)
Definition planned_run (s : ScheduleRow) (v : VersionRow) (now until : Z) (r : RunRow) : Prop :=
  r.(r_workspace_id) = s.(s_workspace_id) /\ r.(r_schedule_id) = s.(s_schedule_id) /\
  r.(schedule_version_id) = v.(version_id) /\ r.(run_kind) = SCHEDULED /\ r.(r_status) = PENDING /\
  default now s.(last_planned_until) < r.(scheduled_for) <= until /\ _within_validity v r.(scheduled_for) = true /\
  exists c zone l,
    parse v.(cron_expression) = Ok c /\ load_zone tzdata v.(timezone) = Ok zone /\
    whole_minute l /\ matches c l = true /\ first_shown zone l r.(scheduled_for) /\
    let key := Cron.occurrence_key sha256_hex v.(v_schedule_id) v.(timezone) l in
    r.(occurrence_key) = Some key /\ r.(idempotency_key) = scheduled_idempotency_key s.(s_schedule_id) key.

Context (tz_laws : forall name z, tzdata name = Some z -> zone_laws z).

Lemma load_zone_laws name z : load_zone tzdata name = Ok z -> zone_laws z.
Proof. unfold load_zone. case_match; [done|]. destruct (tzdata name) eqn:E; [intros [= <-]; by eapply tz_laws|done]. Qed.

Lemma take_window_le until l o u : o ∈ take_window until l -> o.(o_utc) = Some u -> o ∈ l /\ u <= until.
Proof.
  induction l as [|x l IH]; cbn; [by intros ?%elem_of_nil|]. destruct (o_utc x) as [ux|] eqn:Ex.
  - destruct (Z.ltb_spec until ux); [by intros ?%elem_of_nil|]. intros [->|Ho]%elem_of_cons Hu.
    + rewrite Ex in Hu. injection Hu as ->. split; [left|lia].
    + destruct (IH Ho Hu). split; [by right|done].
  - intros [->|Ho]%elem_of_cons Hu; [congruence|]. destruct (IH Ho Hu). split; [by right|done].
Qed.

Lemma take_window_prefix until l : sublist (take_window until l) l.
Proof.
  induction l as [|o l IH]; cbn; [done|]. destruct (o_utc o) as [u|]; [destruct (until <? u)|];
    [apply sublist_nil_l|by apply sublist_skip..].
Qed.

(** The occurrences of a window. *)
Lemma occurrences_ok v start until occs :
  _occurrences v start until = Ok occs ->
  exists c zone, parse v.(cron_expression) = Ok c /\ load_zone tzdata v.(timezone) = Ok zone /\
    (forall o u, o ∈ occs -> o.(o_utc) = Some u ->
       start < u <= until /\ whole_minute o.(o_local) /\ matches c o.(o_local) = true /\ first_shown zone o.(o_local) u /\
       o.(o_key) = Cron.occurrence_key sha256_hex v.(v_schedule_id) v.(timezone) o.(o_local)) /\
    NoDup (omap o_utc occs).
Proof.
  intros H. pose proof H as (found & (c & Hc & Hn)%res_bind_ok & _)%res_bind_ok.
  unfold next_occurrences in Hn. destruct (load_zone tzdata v.(timezone)) as [zone|] eqn:Hzone; [|done].
  exists c, zone. split; [done|]. split; [done|]. clear found Hn.
  rewrite (window_occurrences v c zone start until Hc Hzone) in H. injection H as <-.
  set (q := window_query v c zone start until). pose proof (parse_ok _ _ Hc) as Hok. pose proof (load_zone_laws _ _ Hzone) as Hz.
  pose proof (fun o => run_query_sound sha256_hex q o Hok Hz) as Hsound. split.
  - intros o u Ho Hu. destruct (take_window_le _ _ _ _ Ho Hu) as [Hin Hle].
    destruct (Hsound o Hin) as (Hw & Hm & _ & Hk & Hutc). rewrite Hu in Hutc. destruct Hutc as (Hlt & Hfirst).
    split_and!; [exact Hlt|exact Hle|exact Hw|exact Hm|exact Hfirst|exact Hk].
  - pose proof (run_query_sorted sha256_hex q Hok) as Hs.
    assert (NoDup (o_local <$> run_query sha256_hex q)) as Hnd.
    { clear -Hs. induction Hs as [|x l _ IH Hf]; constructor; [|done]. rewrite Forall_forall in Hf. intros Hx%Hf. lia. }
    assert (forall l, sublist l (run_query sha256_hex q) -> NoDup (omap o_utc l)) as Hall; [|apply Hall, take_window_prefix].
    intros l Hl. pose proof (sublist_NoDup _ _ Hnd (fmap_sublist _ _ _ Hl)) as Hl1.
    assert (forall o, o ∈ l -> o ∈ run_query sha256_hex q) as Hl2 by (intros o; by apply sublist_subseteq).
    clear Hl. induction l as [|o l IH]; cbn; [constructor|]. cbn in Hl1. apply NoDup_cons in Hl1 as [Hnew Hl1].
    destruct (o_utc o) as [u|] eqn:Eo; [|apply IH; [done|intros; apply Hl2; by right]].
    constructor; [|apply IH; [done|intros; apply Hl2; by right]]. intros (o' & Ho' & Eo')%list_elem_of_omap.
    apply Hnew. destruct (Hsound o) as (_ & _ & _ & _ & H1); [apply Hl2; by left|].
    destruct (Hsound o') as (_ & _ & _ & _ & H2); [apply Hl2; by right|]. rewrite Eo in H1. rewrite Eo' in H2.
    destruct H1 as (_ & <- & _), H2 as (_ & -> & _). by apply list_elem_of_fmap_2.
Qed.

(** The Runs asked for have distinct instants. *)
Lemma asked_instants s v now local_of occs create skip :
  NoDup (omap o_utc occs) -> create ++ skip ≡ₚ flat_map (missed_of v now) occs ->
  NoDup (i_scheduled_for <$> flat_map (upcoming_of s v now) occs ++ (missed_run s v now local_of <$> create)).
Proof.
  intros Hnd Hp. rewrite fmap_app. apply NoDup_app. split_and!.
  - eapply sublist_NoDup; [exact Hnd|]. clear. induction occs as [|o occs IH]; cbn; [done|].
    unfold upcoming_of at 1. destruct (o_utc o) as [u|]; [|done]. destruct (_ && _); cbn; [by apply sublist_skip|by apply sublist_cons].
  - intros t (a & -> & Ha)%list_elem_of_fmap (b & E & (m & -> & Hm)%list_elem_of_fmap)%list_elem_of_fmap.
    apply list_elem_of_In, in_flat_map in Ha as (o & _ & Ha). unfold upcoming_of in Ha. destruct (o_utc o) as [u|]; [|done].
    destruct (_within_validity v u && (now <? u)) eqn:Eu; [|done]. apply andb_true_iff in Eu as [_ Eu%Z.ltb_lt].
    destruct Ha as [<-|[]]. cbn in E.
    assert (m ∈ flat_map (missed_of v now) occs) as Hm' by (rewrite <- Hp; apply elem_of_app; by left).
    apply list_elem_of_In, in_flat_map in Hm' as (o' & _ & Hm'). unfold missed_of in Hm'. destruct (o_utc o') as [u'|]; [|done].
    destruct (_ && (u' <=? now)) eqn:Eu'; [|done]. apply andb_true_iff in Eu' as [_ Eu'%Z.leb_le].
    destruct Hm' as [<-|[]]. cbn in E. lia.
  - rewrite <- list_fmap_compose.
    assert (NoDup (m_scheduled_for <$> create ++ skip)) as Hall.
    { rewrite Hp. eapply sublist_NoDup; [exact Hnd|]. clear. induction occs as [|o occs IH]; cbn; [done|].
      unfold missed_of at 1. destruct (o_utc o) as [u|]; [|done]. destruct (_ && _); cbn; [by apply sublist_skip|by apply sublist_cons]. }
    rewrite fmap_app in Hall. apply NoDup_app in Hall as [Hall _]. exact Hall.
Qed.

Lemma plan_schedule_added now horizon s v db r db' :
  plan_schedule now horizon s v db = Ok (r, db') ->
  exists rows next, db'.(runs) = db.(runs) ++ rows /\
    (forall x, x ∈ rows -> planned_run s v now (now + seconds horizon) x) /\ NoDup (scheduled_for <$> rows) /\
    (length r.(created) + length r.(missed_created))%nat = length rows /\
    db'.(schedules) = (update_schedule s.(s_schedule_id) (Some (now + seconds horizon)) next db).(schedules).
Proof.
  intros (occs & create & skip & local_of & rows & next & Hoccs & Hp & Hr & Hi & Hl & Hs)%plan_schedule_runs.
  apply occurrences_ok in Hoccs as (c & zone & Hc & Hz & Hok & Hnd). exists rows, next.
  split_and!; [done| |by eapply inserted_instants, asked_instants|done|done].
  intros x Hx. destruct (inserted_elem _ _ _ Hi Hx) as (a & Ha & F1 & F2 & F3 & F4 & F5 & F6 & F7 & F8).
  assert (exists o u lo note, o ∈ occs /\ o.(o_utc) = Some u /\ _within_validity v u = true /\
    a = scheduled_run s v now u o.(o_key) lo note) as (o & u & lo & note & Ho & Hu & Hv & ->).
  { apply elem_of_app in Ha as [Ha|(m & -> & Hm)%list_elem_of_fmap].
    - apply list_elem_of_In, in_flat_map in Ha as (o & Ho & Ha). unfold upcoming_of in Ha. destruct (o_utc o) as [u|] eqn:Eu; [|done].
      destruct (_within_validity v u) eqn:Ev, (now <? u); try done. destruct Ha as [<-|[]].
      exists o, u, (Some o.(o_local)), None. split_and!; [by apply list_elem_of_In|done..].
    - assert (m ∈ flat_map (missed_of v now) occs) as Hm' by (rewrite <- Hp; apply elem_of_app; by left).
      apply list_elem_of_In, in_flat_map in Hm' as (o & Ho & Hm'). unfold missed_of in Hm'. destruct (o_utc o) as [u|] eqn:Eu; [|done].
      destruct (_within_validity v u) eqn:Ev, (u <=? now); try done. destruct Hm' as [<-|[]].
      eexists o, u, _, _. split_and!; [by apply list_elem_of_In|done|done|reflexivity]. }
  destruct (Hok o u Ho Hu) as (Hb & Hw & Hm & Hf & Hk). cbn in *.
  unfold planned_run. rewrite F1, F2, F3, F4, F5, F6, F7, F8. split_and!; try done; [apply Hb..|].
  exists c, zone, o.(o_local). rewrite Hk. by split_and!.
Qed.

(** ** Ticks of a Workspace *)

(** The primary key of the schedules. *)
Definition keyed (db : Db) : Prop := forall k row, db.(schedules) !! k = Some row -> row.(s_schedule_id) = k.

Definition version_of (db : Db) (s : ScheduleRow) : option VersionRow := s.(current_version_id) ≫= load_version db.

(** The Runs the planner made for a Schedule. *)
Definition scheduled_of (sid : string) (db : Db) : list RunRow :=
  List.filter (fun r => String.eqb r.(r_schedule_id) sid && bool_decide (r.(run_kind) = SCHEDULED)) db.(runs).

(** No instant of a Schedule has two planned Runs, and none is past the instant up to
    which the Schedule is planned. *)
Definition planned_once (db : Db) : Prop :=
  forall sid row, db.(schedules) !! sid = Some row ->
    NoDup (scheduled_for <$> scheduled_of sid db) /\
    forall r, r ∈ scheduled_of sid db -> exists t, row.(last_planned_until) = Some t /\ r.(scheduled_for) <= t.

(** No window ends before the instant up to which its Schedule is planned already. *)
Definition ends_forward (until : Z) (rows : list ScheduleRow) : Prop :=
  Forall (fun s => match s.(last_planned_until) with Some t => t <= until | None => True end) rows.

Lemma scheduled_of_elem sid db r :
  r ∈ scheduled_of sid db <-> r ∈ db.(runs) /\ r.(r_schedule_id) = sid /\ r.(run_kind) = SCHEDULED.
Proof.
  unfold scheduled_of. rewrite list_elem_of_In, filter_In, <- list_elem_of_In, andb_true_iff, String.eqb_eq, bool_decide_eq_true.
  tauto.
Qed.

(** Runs planned for [s] are added to a table. *)
Lemma scheduled_of_added s v now until db db' rows sid :
  db'.(runs) = db.(runs) ++ rows -> (forall x, x ∈ rows -> planned_run s v now until x) ->
  scheduled_of sid db' = scheduled_of sid db ++ (if String.eqb s.(s_schedule_id) sid then rows else []).
Proof.
  intros E Hall. unfold scheduled_of. rewrite E, List.filter_app. f_equal. clear E.
  induction rows as [|x rows IH]; [by destruct (String.eqb _ _)|]. cbn [List.filter].
  destruct (Hall x (list_elem_of_here _ _)) as (_ & -> & _ & -> & _). rewrite IH by (intros y Hy; apply Hall; by right).
  by destruct (String.eqb _ _).
Qed.

(** One Schedule is planned. *)
Lemma plan_schedule_once now horizon s v db r db' :
  plan_schedule now horizon s v db = Ok (r, db') -> keyed db -> planned_once db ->
  db.(schedules) !! s.(s_schedule_id) = Some s -> ends_forward (now + seconds horizon) [s] ->
  keyed db' /\ planned_once db' /\
  (forall k, k <> s.(s_schedule_id) -> db'.(schedules) !! k = db.(schedules) !! k) /\
  exists rows row', db'.(runs) = db.(runs) ++ rows /\
    (forall x, x ∈ rows -> planned_run s v now (now + seconds horizon) x) /\
    (length r.(created) + length r.(missed_created))%nat = length rows /\
    db'.(schedules) !! s.(s_schedule_id) = Some row' /\ row'.(last_planned_until) = Some (now + seconds horizon).
Proof.
  intros (rows & next & Hr & Hall & Hnd & Hlen & Hs)%plan_schedule_added Hk Hold Hrow Hfwd.
  unfold update_schedule in Hs. cbn [with_schedules schedules] in Hs. match type of Hs with _ = alter ?f _ _ => set (mark := f) in Hs end.
  assert (db'.(schedules) !! s.(s_schedule_id) = Some (mark s)) as Hrow' by (by rewrite Hs, lookup_alter_eq, Hrow).
  assert (forall k, k <> s.(s_schedule_id) -> db'.(schedules) !! k = db.(schedules) !! k) as Hne
    by (intros k Hk'; by rewrite Hs, lookup_alter_ne by congruence).
  split_and!; [| |exact Hne|by exists rows, (mark s)].
  - intros k row Hkr. destruct (decide (k = s.(s_schedule_id))) as [->|Hk']; [|rewrite Hne in Hkr by done; by apply Hk].
    rewrite Hrow' in Hkr. by injection Hkr as <-.
  - intros sid row Hsid. pose proof (scheduled_of_added s v now (now + seconds horizon) db db' rows sid Hr Hall) as E.
    destruct (String.eqb_spec s.(s_schedule_id) sid) as [<-|Hd]; cycle 1.
    { rewrite Hne in Hsid by congruence. rewrite app_nil_r in E. destruct (Hold sid row Hsid) as [N1 N2].
      split; [by rewrite E|]. intros x Hx. rewrite E in Hx. by apply N2. }
    rewrite Hrow' in Hsid. injection Hsid as <-. destruct (Hold _ _ Hrow) as [N1 N2]. rewrite E.
    apply Forall_cons in Hfwd as [Hfwd _]. split.
    + rewrite fmap_app. apply NoDup_app. split_and!; [done| |done].
      intros t (x & -> & Hx)%list_elem_of_fmap (y & Ey & Hy)%list_elem_of_fmap.
      destruct (N2 x Hx) as (t & Ht & Hle). destruct (Hall y Hy) as (_ & _ & _ & _ & _ & [Hlt _] & _). rewrite Ht in Hlt. cbn in Hlt. lia.
    + intros x [Hx|Hx]%elem_of_app; exists (now + seconds horizon); (split; [done|]).
      * destruct (N2 x Hx) as (t & Ht & Hle). rewrite Ht in Hfwd. lia.
      * by destruct (Hall x Hx) as (_ & _ & _ & _ & _ & [_ Hle] & _).
Qed.

(** What one tick gives for the schedules in [rows], whose rows it read before. *)
Record planned (now until : Z) (rows : list ScheduleRow) (rs : list PlanResult) (db db' : Db) : Prop := {
  pd_keyed : keyed db';
  pd_keys : runs_ok db -> runs_ok db';
  pd_once : planned_once db';
  pd_added : exists added, db'.(runs) = db.(runs) ++ added /\
    sum_list_with (fun r => length r.(created) + length r.(missed_created))%nat rs = length added /\
    forall x, x ∈ added -> exists s v, s ∈ rows /\ version_of db s = Some v /\ planned_run s v now until x;
  pd_windows : forall s v, s ∈ rows -> version_of db s = Some v ->
    window_accounted s v now until db' /\
    exists row', db'.(schedules) !! s.(s_schedule_id) = Some row' /\ row'.(last_planned_until) = Some until }.

Lemma plan_rows_planned now horizon rows db rs db' :
  plan_rows now horizon rows db = Ok (rs, db') -> keyed db -> planned_once db ->
  NoDup (s_schedule_id <$> rows) -> Forall (fun s => db.(schedules) !! s.(s_schedule_id) = Some s) rows ->
  ends_forward (now + seconds horizon) rows ->
  adds db db' /\ (forall k, k ∉ s_schedule_id <$> rows -> db'.(schedules) !! k = db.(schedules) !! k) /\
  planned now (now + seconds horizon) rows rs db db'.
Proof.
  revert db rs. induction rows as [|s rows IH]; intros db rs; cbn [plan_rows].
  { intros [= <- <-] Hk Ho _ _ _. split_and!; [apply adds_refl|done|]. split; [done..| |by intros ? ? ?%elem_of_nil].
    exists []. rewrite app_nil_r. split_and!; [done..|]. by intros x ?%elem_of_nil. }
  fold (version_of db s). intros H Hk Ho Hnd Hrows Hfwd. cbn in Hnd. apply NoDup_cons in Hnd as [Hnew Hnd].
  apply Forall_cons in Hrows as [Hs Hrows], Hfwd as [Hf Hfwd]. destruct (version_of db s) as [v|] eqn:Ev; cycle 1.
  { destruct (IH _ _ H Hk Ho Hnd Hrows Hfwd) as (A & S & [K U O (added & E & L & Hall) W]). split_and!; [done| |split; [done..| |]].
    - intros k [_ Hk']%not_elem_of_cons. by apply S.
    - exists added. split_and!; [done..|]. intros x Hx. destruct (Hall x Hx) as (s' & v' & Hs' & ?). exists s', v'. by split; [right|].
    - intros s' v' [->|Hs']%elem_of_cons Hv'; [congruence|by apply W]. }
  apply res_bind_ok in H as ([r db1] & Hp & H). apply res_bind_ok in H as ([rs1 db2] & Hr & [= <- <-]).
  destruct (plan_schedule_spec _ _ _ _ _ _ _ Hp) as (_ & _ & A1 & U1 & _).
  pose proof (plan_schedule_accounts _ _ _ _ _ _ _ Hp) as W1.
  destruct (plan_schedule_once _ _ _ _ _ _ _ Hp Hk Ho Hs) as (K1 & O1 & N1 & new & row' & E1 & P1 & L1 & R1 & M1);
    [by apply Forall_singleton|].
  assert (forall s', version_of db1 s' = version_of db s') as V1.
  { intros s'. unfold version_of, load_version. destruct A1 as (_ & _ & ->). done. }
  destruct (IH _ _ Hr K1 O1 Hnd) as (A2 & N2 & [K2 U2 O2 (added & E2 & L2 & P2) W2]); [|done|].
  { rewrite Forall_forall in Hrows |- *. intros s' Hs'. rewrite N1; [by apply Hrows|].
    intros Eq. apply Hnew. rewrite <- Eq. by apply list_elem_of_fmap_2. }
  split_and!; [by eapply adds_trans|intros k [Hk1 Hk2]%not_elem_of_cons; rewrite N2 by done; by apply N1|].
  split; [done|by auto|done| |].
  - exists (new ++ added). rewrite E2, E1, app_assoc, length_app. cbn. rewrite L1, L2. split_and!; [done..|].
    intros x [Hx|Hx]%elem_of_app; [exists s, v; split_and!; [left|done|by apply P1]|].
    destruct (P2 x Hx) as (s' & v' & Hs' & Hv' & Hx'). exists s', v'. rewrite <- V1. by split_and!; [right|..].
  - intros s' v' [->|Hs']%elem_of_cons Hv'; [|apply W2; [done|by rewrite V1]].
    assert (v' = v) as -> by congruence. split; [by eapply window_accounted_adds|]. exists row'. by rewrite N2.
Qed.

Lemma enabled_elem locked ws db s : s ∈ enabled_schedules locked ws db -> exists k, db.(schedules) !! k = Some s.
Proof.
  unfold enabled_schedules. rewrite py_sorted_elem, list_elem_of_In, filter_In, <- list_elem_of_In.
  intros [((k, x) & -> & Hx)%list_elem_of_fmap _]. exists k. by apply elem_of_map_to_list in Hx.
Qed.

Lemma enabled_nodup locked ws db : keyed db -> NoDup (s_schedule_id <$> enabled_schedules locked ws db).
Proof.
  intros Hk. unfold enabled_schedules. rewrite py_sorted_perm.
  assert (NoDup (s_schedule_id <$> (map_to_list db.(schedules)).*2)) as Hall.
  { rewrite <- list_fmap_compose. rewrite (list_fmap_ext _ fst (map_to_list (schedules db))); [apply NoDup_fst_map_to_list|].
    intros i [k x] Hx%list_elem_of_lookup_2%elem_of_map_to_list. by apply Hk. }
  eapply sublist_NoDup; [exact Hall|]. apply fmap_sublist. induction (_.*2) as [|x l IH]; cbn; [done|].
  cbn in Hall. apply NoDup_cons in Hall as [_ Hall]. destruct (_ && _); [by apply sublist_skip, IH|by apply sublist_cons, IH].
Qed.

(** C36. Each window is planned exactly once. A tick of the planner over the enabled
    Schedules of a Workspace reports as many Runs as it adds. Each stands for a minute
    that the cron expression of its Schedule's version names, is due at the first instant
    the clock of the version's timezone shows that minute, falls after the instant up to
    which the Schedule was planned, within the planning horizon and the validity of the
    version, and has the key of that minute. Conversely every such minute has its Run, or,
    if it is past, a note that the missed-run policy skipped it, unless the window holds
    as many minutes as a tick looks for (at most 500) or the minute is more than five years
    ahead; that half needs a clock that shows earlier minutes first. The mark moves to the end of the window, so no
    instant of a Schedule ever gets two planned Runs, whatever versions it had: that is an
    invariant of the ticks whose windows do not end before the mark. Nor do two Runs of a
    Schedule share a key. *)
Theorem planner_exactly_once locked now horizon ws db n db' :
  let until := now + seconds horizon in
  let rows := enabled_schedules locked ws db in
  keyed db -> planned_once db -> ends_forward until rows -> materialize locked now horizon ws db = Ok (n, db') ->
  keyed db' /\ (runs_ok db -> runs_ok db') /\ planned_once db' /\
  (exists added, db'.(runs) = db.(runs) ++ added /\ n = Z.of_nat (length added) /\
    forall x, x ∈ added -> exists s v, s ∈ rows /\ version_of db s = Some v /\ planned_run s v now until x) /\
  forall s v, s ∈ rows -> version_of db s = Some v ->
    window_accounted s v now until db' /\
    exists row', db'.(schedules) !! s.(s_schedule_id) = Some row' /\ row'.(last_planned_until) = Some until.
Proof.
  intros stop rows Hk Ho Hf ([rs d] & Hp & [= <- <-])%res_bind_ok.
  apply plan_rows_planned in Hp as (_ & _ & [K U O (added & E & L & P) W]); [|done..|by apply enabled_nodup| |done].
  - split_and!; [done..| |done]. exists added. split_and!; [done| |done]. rewrite <- L. clear.
    induction rs as [|r rs IH]; [done|]. cbn [fmap list_fmap foldr sum_list_with]. rewrite IH. lia.
  - apply Forall_forall. intros s (k & Hs)%enabled_elem. by rewrite (Hk _ _ Hs).
Qed.
End planner.

(** * Concrete schedules *)

Module Outage.

Definition version (cron : string) (policy : MissedRunPolicy) : VersionRow := {|
  version_id := "v1"; v_schedule_id := "sch-1"; cron_expression := cron; timezone := "Europe/Summer";
  missed_run_policy := policy; backfill_limit := 2; backfill_window_seconds := 7200; min_interval_minutes := 1;
  starts_at := None; ends_at := None; snapshot_hash := "h" |}.

Definition schedule (planned : Z) : ScheduleRow := {|
  s_schedule_id := "sch-1"; s_workspace_id := "ws"; s_status := ENABLED; current_version_id := Some "v1";
  next_run_at := None; last_planned_until := Some planned |}.

Definition db (cron : string) (policy : MissedRunPolicy) (planned : Z) : Db := {|
  schedules := {["sch-1" := schedule planned]}; versions := {["v1" := version cron policy]}; runs := []; notes := [] |}.

(** Planned until midnight of day 100; the next tick is at 03:10. *)
Definition short : Db := db "0 * * * *" RUN_ONCE (wall 100 0).

Definition after_tick (d : Db) (now : Z) : Db :=
  match materialize id Zone.tzdata [] now DEFAULT_HORIZON_S "ws" d with Ok (_, d') => d' | Err _ => d end.

Definition instants (d : Db) : list Z := (fun r => (r.(scheduled_for) - wall 100 0) / minute_us) <$> d.(runs).

(** The outage of three hours leaves one Run, for the latest hour, and two notes;
    a second tick adds nothing. *)
Example short_outage :
  let d := after_tick short (wall 100 190) in
  instants d = [180] /\ (n_reason <$> d.(notes)) = ["MISSED_SKIPPED_RUN_ONCE"; "MISSED_SKIPPED_RUN_ONCE"] /\
  instants (after_tick d (wall 100 191)) = [180].
Proof. vm_compute. done. Qed.

Lemma summer_monotone : zone_monotone Zone.summer.
Proof.
  intros u1 u2. cbn [to_local to_utc Zone.summer].
  change (hours 1) with 3600000000. change Zone.gap with 871200000000. change Zone.fold with 17290800000000.
  repeat match goal with |- context [?a <? ?b] => destruct (Z.ltb_spec a b); try lia end.
Qed.

Lemma third_hour_shown : first_shown Zone.summer (wall 100 180) (wall 100 120).
Proof.
  split; [vm_compute; reflexivity|]. intros u. cbn [to_local Zone.summer].
  change (wall 100 180) with 8650800000000. change (wall 100 120) with 8647200000000.
  change (hours 1) with 3600000000. change Zone.gap with 871200000000. change Zone.fold with 17290800000000.
  repeat match goal with |- context [?a <? ?b] => destruct (Z.ltb_spec a b) end; lia.
Qed.

Definition long : Db := db "* 0-11 * * *" RUN_ONCE (wall 100 0).
End Outage.

(** After an outage of eleven hours a schedule that fires every minute is planned
    up to its 500th occurrence only, although the tick moves the planned instant
    to the end of the window: the minutes from 501 on, due in the window, get
    neither a Run nor a note, and RUN_ONCE runs the 500th instead of the latest. *)
Example long_outage_drops :
  let v := Outage.version "* 0-11 * * *" RUN_ONCE in
  match _occurrences id Zone.tzdata v (wall 100 0) (wall 100 675), parse v.(cron_expression) with
  | Ok occs, Ok c =>
      length occs = 500%nat /\ (o_utc <$> last occs) = Some (Some (wall 100 500)) /\
      matches c (Zone.summer.(to_local) (wall 100 600)) = true
  | _, _ => False
  end.
Proof. vm_compute. done. Qed.


Definition hourly : CronExpression :=
  match parse "0 * * * *" with Ok c => c | Err _ => Zone.cron end.

Lemma zones_lawful name z : Zone.tzdata name = Some z -> zone_laws z.
Proof. unfold Zone.tzdata. destruct (String.eqb _ _); [|done]. intros [= <-]. exact Zone.summer_laws. Qed.

Lemma enabled_short : enabled_schedules [] "ws" Outage.short = [Outage.schedule (wall 100 0)].
Proof. vm_compute. reflexivity. Qed.

(** The window of the short outage has its Run or note for the minute 02:00 UTC. *)
Lemma planner_exactly_once_witness :
  match materialize id Zone.tzdata [] (wall 100 190) DEFAULT_HORIZON_S "ws" Outage.short with
  | Ok (n, db') =>
      let key := Cron.occurrence_key id "sch-1" "Europe/Summer" (wall 100 180) in
      n = 1 /\ planned_once db' /\ (covered db' "sch-1" key \/ noted db' "sch-1" key "MISSED_SKIPPED_RUN_ONCE")
  | Err _ => False
  end.
Proof.
  assert (match materialize id Zone.tzdata [] (wall 100 190) DEFAULT_HORIZON_S "ws" Outage.short with
          | Ok (n, _) => n = 1 | Err _ => False end) as Hone by (vm_compute; reflexivity).
  destruct (materialize _ _ _ _ _ _ _) as [[n db']|e] eqn:E; [|destruct Hone].
  destruct (planner_exactly_once id Zone.tzdata zones_lawful [] (wall 100 190) DEFAULT_HORIZON_S "ws" Outage.short n db')
    as (_ & _ & Ho & _ & Hw).
  - intros k row Hk. change (({["sch-1" := Outage.schedule (wall 100 0)]} : gmap string ScheduleRow) !! k = Some row) in Hk.
    apply lookup_singleton_Some in Hk as [<- <-]. reflexivity.
  - intros sid row _. split; [constructor|]. intros r [Hr _]%scheduled_of_elem. inversion Hr.
  - rewrite enabled_short. apply Forall_singleton. vm_compute. discriminate.
  - exact E.
  - split; [exact Hone|]. split; [exact Ho|].
    assert (Outage.schedule (wall 100 0) ∈ enabled_schedules [] "ws" Outage.short) as Hin by (rewrite enabled_short; left).
    destruct (Hw _ _ Hin eq_refl) as [Hacc _].
    destruct (Hacc hourly Zone.summer (wall 100 180) (wall 100 120)) as [H|[_ H]].
    + vm_compute. reflexivity.
    + reflexivity.
    + exact Zone.summer_laws.
    + exact Outage.summer_monotone.
    + vm_compute. reflexivity.
    + vm_compute. reflexivity.
    + vm_compute. reflexivity.
    + exact Outage.third_hour_shown.
    + split; vm_compute; [reflexivity|discriminate].
    + vm_compute. discriminate.
    + reflexivity.
    + left. exact H.
    + right. exact H.
Defined.
